(* ===== verification/_CoqProject ===== *)
-Q . S2P
Prelude.v
PyFloat.v
PyFloatBounds.v
PyTime.v
PyCalendar.v
Ledger.v
Tables.v
PyText.v
PyRegex.v
PyCodec.v
Materiality.v
Quality.v
AdjDefs.v
Skeptic.v
AdjStore.v
Adjudication.v
Ticketing.v
AdjMachine.v
AdjRefinement.v
AdjInvariants.v
AdjBehaviour.v
AdjScenario.v
AdjProperties.v
PortScoring.v
PortPlanning.v
PortStore.v
PortService.v
PortProperties.v
PortHistory.v
PortServiceProperties.v
Outbox.v
OrchDefs.v
OrchStore.v
OrchCompiler.v
Orchestrator.v
OrchMachine.v
OrchRefinement.v
OrchStable.v
OrchInvariants.v
OrchReplay.v
OrchBehaviour.v
OrchTotality.v
OrchWorker.v
OrchScenario.v
OrchProperties.v
OutboxProperties.v
SchedDefs.v
SchedCalendar.v
SchedStore.v
SchedPreflight.v
Scheduler.v
SchedAuthoring.v
SchedMachine.v
SchedInvariants.v
SchedRefinement.v
SchedBehaviour.v
SchedPrograms.v
SchedAuthored.v
SchedScenario.v
SchedProperties.v
VaultStore.v
VaultService.v
VaultInvariants.v
VaultHistory.v
VaultLineage.v
GovPolicy.v
GovIdentity.v
VaultExport.v
VaultExportSpec.v
VaultScenario.v
VaultProperties.v
GovTelemetry.v
GovArmor.v
GovGateway.v
GovRuntime.v
GovRuntimeSpec.v
GovWorker.v
GovScenario.v
GovProperties.v
GovRunProperties.v
