(* ===== verification/Prelude.v ===== *)
(** * AssuranceOS: a verification development

    AssuranceOS (src/src/assuranceos) is an internal-audit platform.  Audit work
    runs as engagements, which are graphs of tasks leased to workers; what the work
    finds becomes findings, which people review, approve, dispute, remediate and
    close; every change of either is recorded in append-only event streams and in a
    transactional outbox other systems read; recurring audits are started by
    schedules; where the next audits go is computed from risk scores under a
    capacity; the agents that do part of the work reach their tools through a
    gateway only; and the evidence all of it rests on lies in a content-addressed
    vault, under custody chains that leave it in signed packages.  The development models these parts as executable functions and
    proves what they are relied on for.

    ** Layout

    Prelude.v (this file) holds the monads, the exceptions, sorting and the lemmas
    on lists every file uses.  The language layer gives the parts of Python the code
    computes with: PyFloat.v (binary64 arithmetic on the Standard Library's
    specification of floating point), PyFloatBounds.v (rounding keeps the order, and
    what follows for products, sums and [1 - x]), PyTime.v (instants and dates),
    PyCalendar.v (years, months and days are inverse to ordinals), PyText.v (text,
    formatting, JSON), PyRegex.v (regular expressions: a matcher, proved to decide what
    a pattern means), PyCodec.v (UTF-8, canonical JSON, base64 and its round trip).

    Ledger.v is [AuditEventRepository] and [OutboxRepository.add] of
    db/repositories.py over db/models/governance.py.  It is shared: orchestration,
    adjudication and scheduling write the same streams and the same outbox.  Its class [UuidSource]
    is the interface to [uuid4].  Outbox.v is the rest of [OutboxRepository] and the
    dispatcher of outbox.py; OutboxProperties.v proves the two together, and that a
    dispatch leaves the guarantees of the orchestrator in place.

    Orchestration, orchestration/:
    - OrchDefs.v (definitions.py, exceptions.py): statuses, policies, definitions;
    - OrchStore.v (repository.py, db/models/engagement.py): [OrchDB], its queries;
    - OrchCompiler.v (compiler.py): [validate], Kahn's algorithm, [compile];
    - Orchestrator.v (service.py): one definition per operation of [Orchestrator];
    - OrchMachine.v: the abstract machine, one constructor per transition: [db_step], in
      which other clients may take part, and [own_step] of the orchestrator alone;
    - OrchRefinement.v: every committed operation is a sequence of its steps;
    - OrchInvariants.v, OrchTotality.v, OrchBehaviour.v: what holds of every reachable
      state, that reconciliation always commits, what each operation returns;
    - OrchStable.v: what no step of the machine takes back, for the scheduler;
    - OrchReplay.v (replay.py): the projection of a stream, equal to the rows;
    - OrchWorker.v (worker.py): one round of a worker;
    - OrchScenario.v, OrchProperties.v: a worked history and the properties.

    Adjudication, adjudication/:
    - Materiality.v (materiality.py), Quality.v (quality.py), Skeptic.v (skeptic.py):
      the deterministic judgements the service records;
    - AdjDefs.v (definitions.py), AdjStore.v (repository.py, db/models/findings.py);
    - Adjudication.v (service.py): one definition per operation, Ticketing.v
      (ticketing.py and the synchronisation of a ticket around its provider);
    - AdjMachine.v, AdjRefinement.v: the machine [lifecycle] and that every committed
      operation is one move of it or changes nothing;
    - AdjInvariants.v, AdjBehaviour.v, AdjScenario.v, AdjProperties.v.

    Portfolio, portfolio/:
    - PortScoring.v (scoring.py), PortPlanning.v (planning.py), PortProperties.v;
    - PortStore.v (repository.py, db/models/portfolio.py), PortService.v (service.py):
      the tables, over the generic rows of Tables.v, and one definition per operation;
    - PortHistory.v, PortServiceProperties.v: histories of operations and what they keep.

    Agents, governance/:
    - GovPolicy.v (models.py, registry.py, policy.py): packages, envelopes, the decision
      point and the authority derived from both; GovIdentity.v (identity.py,
      execution_security.py, execution_authority.py): signed credentials and envelopes;
    - GovTelemetry.v (telemetry.py): the monad [Traced] of traced programs, the tracer,
      and a calculus of their effects ([balanced], [effect]);
    - GovArmor.v (armor.py): the guardrails; GovGateway.v (gateway.py): the gateway, the
      transition relation [call_step] of a call and sessions of calls;
    - GovRuntime.v (runtime.py and the recovery of objects in models_client.py): one run
      of a task, from the identity to an admissible output; GovRuntimeSpec.v: the
      conversation a run is, as a relation;
    - GovWorker.v (worker.py, persistence.py, db/models/agent_governance.py): the handler
      through which the orchestrator's worker runs an agent task, and the record it leaves
      in the database they share; each call of it is an [agent_step];
    - GovScenario.v, GovProperties.v, GovRunProperties.v.

    Evidence, vault/:
    - VaultStore.v (repository.py, storage.py, custody.py, db/models/evidence.py): the
      tables and the objects; VaultService.v (service.py): one definition per transaction
      and per operation; VaultExport.v (export.py, signing.py, bundle.py): packages,
      their signatures, their verification and the admission of a bundle;
    - VaultInvariants.v, VaultHistory.v: what each transaction keeps, and histories of
      the steps [vault_step];
    - VaultLineage.v: the loops over derivations against the relations they compute;
      VaultExportSpec.v: what a package that verifies is, and histories of whole
      operations; VaultScenario.v, VaultProperties.v.

    Scheduling, scheduling/:
    - SchedDefs.v (definitions.py), SchedCalendar.v (recurrence.py, calendar.py,
      periods.py), SchedStore.v (repository.py, db/models/planning.py): [SchedDB], whose
      engagements and ledger are the [OrchDB] of orchestration;
    - SchedPreflight.v (preflight.py), Scheduler.v (service.py), SchedAuthoring.v
      (authoring.py): one definition per transaction and per public operation;
    - SchedMachine.v, SchedInvariants.v: the machine [sched_step] of occurrences and
      what it keeps; a step of it may be a step of [db_step], or of another client;
    - SchedRefinement.v, SchedPrograms.v: each transaction, and then each operation
      with other clients committing between its transactions, is a sequence of steps;
    - SchedBehaviour.v: what an evaluation makes; SchedAuthored.v: what authoring
      keeps; SchedScenario.v, SchedProperties.v.

    ** State and operations

    A component's tables are a record of lists of rows in insertion order.  A row is
    split into what is written once and what the code updates.  An operation is the
    body of one transaction, [Tx S A := S → Res (A * S)]: an exception rolls it back,
    which is the [Err] case.  A caller that commits several transactions and calls
    its environment between them is a [Prog W A := W → Res A * W], which keeps the
    world it reached when it raises.  A history of operations is a reachability
    predicate over [lifecycle], [db_step] or [sched_step]; concurrent workers are its
    interleavings, since the database serialises the transactions.  The operations of
    the scheduler span several transactions: before each of them the environment
    ([env_between]) may commit anything that is a sequence of [sched_step].  An
    operation of the vault alternates transactions with accesses to the objects, which
    are outside of them: what holds of the tables is proved for every interleaving of
    [vault_step], what holds of tables and objects together for operations one after the
    other ([operation]).  The runtime is a traced program over the gateway and the model,
    each with its own state; a handler of the orchestrator's worker sees its database, and
    what is proved of a round asks that it changes no table of the workflow ([bystander]),
    which the handler of agent tasks is shown to do.

    ** What the theorems show

    Orchestration: the operations refine the machine, each move with the rows and the
    record it requires (C1); in every reachable state
    tasks run only after their prerequisites and their human gate, leases exist
    exactly while running, attempts are numbered and bounded by the budget, streams
    have no gap, finished tasks stay finished; the ledger replays to the canonical
    rows; claims, completions and failures do exactly what is stated on each branch;
    reconciliation ends in a fixed point; the compiler accepts exactly the acyclic
    graphs with known dependencies.
    Outbox: no event is lost, reordered in its row or delivered after it was settled; a
    lease excludes other dispatchers; a dispatch settles the events that are due, in
    order, as the publisher answers and at the instants the clock reads.
    Adjudication: the operations refine the life-cycle; an approved finding carries a
    person's decision, a closed one an independent retest with evidence, an open
    dispute pins its finding; every move is recorded; the refusals are exact; an
    assessment returns whenever its inputs are valid and never lowers a severity.
    Portfolio: a score stays in the unit interval in floating point, is lowered only by
    controls tested and current, and never lowered by uncertainty; a plan loses no
    candidate, keeps the capacity, passes nothing over for work of less value per day,
    and does not depend on the order of its candidates; an assessment stored is the one
    its inputs give, an official rating that departs from it is a person's override with
    a reason, a person's approval of a plan accepts exactly the risks the plan leaves
    out, and nothing recorded is taken back.
    Scheduling: an operation of the scheduler refines the machine whether it returns
    or raises in the middle; an occurrence is launched only with a passed preflight on
    record, an approval where its mode asks for one, and an engagement of its own that
    was started; a due instant becomes one occurrence; what was materialised stays;
    the engagements the scheduler starts are states the orchestrator reaches, so its
    theorems hold of them; an evaluation makes exactly the occurrences of its
    window, and releases its cursor or not as the session has it;
    a preflight passes exactly when its conditions hold; periods and blackouts are
    computed as stated for every date; at most one version of a schedule is active,
    and a draft is read back as it was stored.
    Agents: a call of the gateway is one step of [call_step]; the tools move only in a
    call whose credential is verified and bound, whose tool is declared, routed and
    granted, within the budget, with arguments the guardrails admit; every call that
    returns or is denied leaves one decision; a task's calls are bounded by its budget;
    what is returned holds no secret the screening reaches; the guardrails block exactly
    what their patterns mean; a run is a conversation with the model in which every tool
    call is a call of the gateway, the model reads only what fits the context and passed
    the screening, a run completes only with an output that passes both gates on the
    evidence it cites, and an admissible reply is accepted; a task of the orchestrator is completed
    by such a run only, after its decisions and its trace are written, under a credential of
    its lease, and the trace is read back as it was, but for the time zones a driver
    drops; an identity has the intersection of the authorities it
    comes from, and is accepted exactly while it is valid; an envelope signed for a
    lease never outlives it; every session leaves a well-formed trace.
    Evidence: every custody chain verifies after every interleaving of the operations; no
    record, event, derivation or bundle is changed in what it states; the bytes of a
    record are returned only when they are intact, and the reading is then on its
    chain; a purge respects holds and retention; a collection on its own deletes exactly
    the objects no active record needs and that are old enough; lineage is the connected
    part and an export its ancestors; what is acquired can be read back for as long as
    it is active; a bundle is admitted only when the manifest, the records, the chains and
    a trusted signature of the bytes that were verified agree.
    The theorems that state what the code should not do (an engagement's task revived
    after cancellation, a rejected gate bypassed, a rejected finding revived by its
    dispute, a cancelled occurrence launched by its retry, a collection that deletes the
    object of an acquisition in progress) are histories the kernel
    evaluates.

    ** Bounds and fuel

    [kahn] runs with one unit of fuel per task, since each turn removes a task;
    [reconcile_loop] with one more than the number of tasks, since each turn but the
    last moves a pending task (OrchTotality.v proves that both suffice);
    [float_repr] tries at most 17 significant digits, which distinguish all binary64
    numbers; [next_business_day] has fuel for every day up to the end of the calendar, so
    the search never runs out; the matcher iterates a pattern at most once per character
    left, since an iteration that takes none is not repeated; [until_stable] runs a loop over
    derivations once for each end a turn can add, and once more (VaultLineage.v proves
    that another turn would change nothing); a run of the runtime has the rounds it is
    configured with, [max_tool_rounds].  Integers are Python's, unbounded; the calendar
    ends at year 9999, where the code raises [OverflowError], and so does the model.

    ** Conventions

    Text is made of the code points U+0000 to U+00FF, one character each, which is also
    what the estimate of tokens counts.  [utc_now] is constant in a
    transaction.  A session is sequential; it has autoflush off, and every transition
    flushes when it appends its event, so a query sees what the transition wrote.
    The one row that is updated around an instance the session has read, the cursor of a
    schedule, is modelled with that instance ([CursorSession]): what is proved holds
    whether the session still has it or not.
    Instants are stored and compared in UTC; a trace that is loaded has them with or
    without their zone, as the driver gives them ([stored_instant]), elsewhere the code
    puts the zone back.  Plans are about candidates without a NaN to rank them by.
    A bundle is read as it is when it is verified, and again, maybe changed, when it is
    filed.  The length of a text column is not
    enforced, as in SQLite.  [sum] of floats is compensated, as in CPython from 3.12.
    [uuid4], SHA-256, handlers, publishers, ticket providers and engagement inputs are
    parameters: arguments, or operations of a class with the few laws the theorems use
    as hypotheses (the identifiers drawn are fresh and have no colon).  So are the time
    zone database ([TimeZones]), dateutil ([Dateutil]), and what pydantic parses and
    dumps ([Pydantic], [PydanticDump], the one inverse to the other); the concrete
    instances of SchedScenario.v satisfy their laws.  Ed25519 and PEM keys ([Ed25519]),
    the hosts of URLs in brackets ([IpLiterals]), clocks and drawn identifiers of the
    agents ([Observability]) and the handlers of their tools are parameters too; the one
    law used is that a signature verifies under its key.  What [json.loads], the schema
    validator and the files of a package give the runtime ([JsonReader], [PackageFiles]),
    the registry of packages and the loaders of evidence and instructions given to a
    handler, and the clock, the inspector of contents, the archives, the JSON and the
    instants the vault reads, with the texts of exceptions ([VaultClock], [ZipFiles],
    [JsonBytes], [IsoTimes], [ExceptionTexts], [ExceptionParts]), are parameters without
    laws where a property does not name one; that two different contents have different
    digests is never assumed.  Putting an object is one step.  Pydantic's
    [ValidationError] is a [ValueError].  A preflight policy is a record of its known keys.

    ** Not modelled

    The HTTP routes (api.py), the demonstrations, the sandbox of the evaluator, the
    corpus and its scripts, monitoring, the clients of hosted models, of connectors and
    of ticket systems: plumbing, scripted data or input and output.  product.py,
    briefing.py and the other read models keep no state.  delegation.py and
    security.py are tokens over cryptographic libraries; reading and verifying packages
    on disk (registry.py) is file access.  Of the store, the tables no modelled component
    uses.  Of the agents, domain_tools.py, which wraps read models.  Of the vault, gcs.py (a
    client of a hosted store) and inspection.py (patterns over Unicode, which the texts of
    the model do not hold).
    standards/, control_testing/, reporting/ and economics.py are rules, templates and
    projections no modelled component calls; the sandboxed interpreter of control tests is
    a process of the operating system. *)

From stdpp Require Export prelude gmap strings sorting pretty.
From Stdlib Require Export ZArith Lia.

#[export] Set Warnings "-clear-no-such-hyp".

(** ** Exceptions *)

(** Built-in exceptions of the language and of the database driver. *)
Inductive py_error :=
  | ValueError
  | TypeError
  | ZeroDivisionError
  | KeyError
  | AssertionError
  | OverflowError
  | RuntimeError
  | StopIteration
  | IntegrityError
  | LookupError
  | UnicodeDecodeError
  | JSONDecodeError
  | OSError
  | BadZipFile
  | OutOfFuel.

(** [assuranceos.orchestration.exceptions]. *)
Inductive OrchestrationError :=
  | WorkflowValidationError
  | WorkflowAlreadyCompiledError
  | EngagementNotFoundError
  | TaskNotFoundError
  | InvalidStateTransitionError
  | LeaseConflictError.

(** [assuranceos.adjudication.exceptions]; the refusals that carry a reason
    the caller sees keep it. *)
Inductive AdjudicationError :=
  | FindingNotFoundError
  | RemediationNotFoundError
  | InvalidTransitionError (current requested : string)
  | HumanGateError
  | IndependenceError (role : string)
  | ClosureEvidenceError
  | IdempotencyConflictError
  | MaterialityError
  | QualityGateError (blockers : list string)
  | DisputeError
  | TicketingError.

(** [assuranceos.scheduling.exceptions], and [RecurrenceError] of its
    recurrence module, which is a [ValueError]. *)
Inductive SchedulingError :=
  | ScheduleNotFoundError
  | OccurrenceNotFoundError
  | ScheduleConfigurationError
  | OccurrenceStateError
  | RecurrenceError.

(** [assuranceos.portfolio.exceptions]. *)
Inductive PortfolioError :=
  | RiskNotFoundError
  | PlanNotFoundError
  | PlanStateError
  | CapacityError.

(** [assuranceos.governance]: an identity refused, with its text, and the
    [ValidationError] and [InvalidSignature] of the libraries it is checked with. *)
Inductive GovernanceError :=
  | AgentIdentityError (message : string)
  | PydanticValidationError
  | InvalidSignature.

(** [assuranceos.vault.exceptions], and the [ValueError] of its inspection. *)
Inductive VaultError :=
  | EvidenceNotFoundError
  | EvidenceDeletedError
  | AcquisitionConflictError
  | ObjectNotFoundError
  | ObjectIntegrityError
  | ImmutableObjectConflictError
  | RetentionPolicyError
  | ExportPackageError (message : string)
  | ContentInspectionRejected.

Inductive exn :=
  | Py (e : py_error)
  | Orch (e : OrchestrationError)
  | Adj (e : AdjudicationError)
  | Sch (e : SchedulingError)
  | Port (e : PortfolioError)
  | Gov (e : GovernanceError)
  | Vlt (e : VaultError).

#[export] Instance py_error_eq_dec : EqDecision py_error.
Proof. solve_decision. Defined.
#[export] Instance orchestration_error_eq_dec : EqDecision OrchestrationError.
Proof. solve_decision. Defined.
#[export] Instance adjudication_error_eq_dec : EqDecision AdjudicationError.
Proof. solve_decision. Defined.
#[export] Instance scheduling_error_eq_dec : EqDecision SchedulingError.
Proof. solve_decision. Defined.
#[export] Instance portfolio_error_eq_dec : EqDecision PortfolioError.
Proof. solve_decision. Defined.
#[export] Instance governance_error_eq_dec : EqDecision GovernanceError.
Proof. solve_decision. Defined.
#[export] Instance vault_error_eq_dec : EqDecision VaultError.
Proof. solve_decision. Defined.
#[export] Instance exn_eq_dec : EqDecision exn.
Proof. solve_decision. Defined.

(** ** Fallible, stateful code *)

(** The value of a call that returns or raises. *)
Inductive Res (A : Type) : Type :=
  | Ok (a : A)
  | Err (e : exn).
Arguments Ok {A} a.
Arguments Err {A} e.

(** Sequencing of calls that touch no state. *)
Definition res_bind {A B} (r : Res A) (f : A → Res B) : Res B :=
  match r with Ok a => f a | Err e => Err e end.
Lemma res_bind_Ok {A B} (r : Res A) (f : A → Res B) b :
  res_bind r f = Ok b → ∃ a, r = Ok a ∧ f a = Ok b.
Proof. destruct r; cbn; [eauto|done]. Qed.
Notation "'let?' x := r 'in' k" := (res_bind r (λ x, k))
  (at level 10, x name, r at level 200, k at level 200).

(** The body of one database transaction over a state [S]: it returns a value
    and the new state, or raises; a transaction that raises is rolled back, so
    no state is returned with an error. *)
Definition Tx (S A : Type) : Type := S → Res (A * S).

#[export] Instance tx_ret S : MRet (Tx S) := λ A a s, Ok (a, s).
#[export] Instance tx_bind S : MBind (Tx S) := λ A B f m s,
  match m s with
  | Ok (a, s') => f a s'
  | Err e => Err e
  end.

Definition raise {S A} (e : exn) : Tx S A := λ _, Err e.
Definition gets {S A} (f : S → A) : Tx S A := λ s, Ok (f s, s).
Definition modify {S} (f : S → S) : Tx S unit := λ s, Ok (tt, f s).
Definition some_or_raise {S A} (e : exn) (o : option A) : Tx S A :=
  match o with Some a => mret a | None => raise e end.
Definition from_res {S A} (r : Res A) : Tx S A :=
  match r with Ok a => mret a | Err e => raise e end.
(** [if not b: raise e]. *)
Definition require {S} (b : bool) (e : exn) : Tx S unit :=
  if b then mret tt else raise e.

(** A [for] loop over a list evaluated before it starts. *)
Fixpoint for_each {S A} (l : list A) (body : A → Tx S unit) : Tx S unit :=
  match l with
  | [] => mret tt
  | x :: l => body x ;; for_each l body
  end.

(** A comprehension [[body(x) for x in l]]. *)
Fixpoint tx_map {S A B} (body : A → Tx S B) (l : list A) : Tx S (list B) :=
  match l with
  | [] => mret []
  | x :: l => y ← body x; ys ← tx_map body l; mret (y :: ys)
  end.

(** Running a transaction body on a component of the state. *)
Definition zoom {S T A} (get : S → T) (set : T → S → S) (m : Tx T A) : Tx S A :=
  λ s, match m (get s) with
       | Ok (a, t) => Ok (a, set t s)
       | Err e => Err e
       end.

(** A public operation: its result, and the state its caller is left with. *)
Definition transaction {S A} (m : Tx S A) (s : S) : Res A * S :=
  match m s with
  | Ok (a, s') => (Ok a, s')
  | Err e => (Err e, s)
  end.

(** ** Programs that commit as they go *)

(** Code outside a transaction: what it committed before it raised stays. *)
Definition Prog (W A : Type) : Type := W → Res A * W.

#[export] Instance prog_ret W : MRet (Prog W) := λ A a w, (Ok a, w).
#[export] Instance prog_bind W : MBind (Prog W) := λ A B f m w,
  match m w with
  | (Ok a, w') => f a w'
  | (Err e, w') => (Err e, w')
  end.

(** [with database.transaction()] over a component of the world. *)
Definition commit {W S A} (get : W → S) (set : S → W → W) (m : Tx S A) : Prog W A := λ w,
  match m (get w) with
  | Ok (a, s) => (Ok a, set s w)
  | Err e => (Err e, w)
  end.
(** [raise e]. *)
Definition prog_raise {W A} (e : exn) : Prog W A := λ w, (Err e, w).
(** A call into code that keeps its own state and does not raise. *)
Definition external {W A} (f : W → A * W) : Prog W A := λ w, let '(a, w') := f w in (Ok a, w').

Lemma prog_bind_step {W A B} (m : Prog W A) (f : A → Prog W B) w a w1 :
  m w = (Ok a, w1) → mbind (M:=Prog W) f m w = f a w1.
Proof. unfold mbind, prog_bind. by intros ->. Qed.
Lemma prog_bind_err {W A B} (m : Prog W A) (f : A → Prog W B) w e w1 :
  m w = (Err e, w1) → mbind (M:=Prog W) f m w = (Err e, w1).
Proof. unfold mbind, prog_bind. by intros ->. Qed.

Lemma prog_bind_Ok {W A B} (m : Prog W A) (f : A → Prog W B) w b w' :
  mbind (M:=Prog W) f m w = (Ok b, w') → ∃ a w1, m w = (Ok a, w1) ∧ f a w1 = (Ok b, w').
Proof. unfold mbind, prog_bind. destruct (m w) as [[a|] w1]; naive_solver. Qed.
Lemma prog_ret_Ok {W A} (x a : A) (w w' : W) :
  mret (M:=Prog W) x w = (Ok a, w') → a = x ∧ w' = w.
Proof. unfold mret, prog_ret. naive_solver. Qed.

(** [m] relates the world it starts from to the one it leaves, whether it returns
    or raises. *)
Definition prog_keeps {W A} (R : relation W) (m : Prog W A) : Prop :=
  ∀ w r w', m w = (r, w') → R w w'.

Lemma prog_keeps_ret {W A} (R : relation W) (a : A) : Reflexive R → prog_keeps R (mret (M:=Prog W) a).
Proof. by intros HR w r w' [= _ <-]. Qed.
Lemma prog_keeps_bind {W A B} (R : relation W) (m : Prog W A) (f : A → Prog W B) :
  Transitive R → prog_keeps R m → (∀ a, prog_keeps R (f a)) → prog_keeps R (mbind (M:=Prog W) f m).
Proof.
  intros HR Hm Hf w r w' E. unfold mbind, prog_bind in E.
  destruct (m w) as [[a|e] w1] eqn:Em.
  - etrans; [by eapply Hm|by eapply Hf].
  - injection E as _ <-. by eapply Hm.
Qed.

(** ** Reasoning about transaction bodies *)

Section tx_lemmas.
Context {S : Type}.

Lemma tx_bind_Ok {A B} (m : Tx S A) (f : A → Tx S B) s b s' :
  mbind (M:=Tx S) f m s = Ok (b, s') →
  ∃ a s1, m s = Ok (a, s1) ∧ f a s1 = Ok (b, s').
Proof. unfold mbind, tx_bind. destruct (m s) as [[a s1]|]; naive_solver. Qed.

Lemma tx_bind_step {A B} (m : Tx S A) (f : A → Tx S B) s a s1 :
  m s = Ok (a, s1) → mbind (M:=Tx S) f m s = f a s1.
Proof. unfold mbind, tx_bind. by intros ->. Qed.

Lemma tx_bind_assoc {A B C} (m : Tx S A) (f : A → Tx S B) (g : B → Tx S C) s :
  mbind (M:=Tx S) g (mbind (M:=Tx S) f m) s = mbind (M:=Tx S) (λ a, mbind (M:=Tx S) g (f a)) m s.
Proof. unfold mbind, tx_bind. by destruct (m s) as [[]|]. Qed.

Lemma tx_ret_Ok {A} (x a : A) (s s' : S) :
  mret (M:=Tx S) x s = Ok (a, s') → a = x ∧ s' = s.
Proof. unfold mret, tx_ret. naive_solver. Qed.

Lemma raise_Ok {A} e (s : S) (a : A) s' : raise e s = Ok (a, s') → False.
Proof. done. Qed.

Lemma gets_Ok {A} (f : S → A) s a s' : gets f s = Ok (a, s') → a = f s ∧ s' = s.
Proof. unfold gets. naive_solver. Qed.

Lemma modify_Ok (f : S → S) s u s' : modify f s = Ok (u, s') → s' = f s.
Proof. unfold modify. naive_solver. Qed.

Lemma require_Ok b e (s : S) u s' : require b e s = Ok (u, s') → b = true ∧ s' = s.
Proof. unfold require. destruct b; [|done]. intros [-> ->]%tx_ret_Ok. done. Qed.

Lemma some_or_raise_Ok {A} e (o : option A) (s : S) a s' :
  some_or_raise e o s = Ok (a, s') → o = Some a ∧ s' = s.
Proof. destruct o; [|done]. intros [-> ->]%tx_ret_Ok. done. Qed.

Lemma from_res_Ok {A} (r : Res A) (s : S) a s' :
  from_res r s = Ok (a, s') → r = Ok a ∧ s' = s.
Proof. destruct r; [|done]. intros [-> ->]%tx_ret_Ok. done. Qed.

Lemma zoom_Ok {T A} (get : S → T) set (m : Tx T A) s a s' :
  zoom get set m s = Ok (a, s') → ∃ t, m (get s) = Ok (a, t) ∧ s' = set t s.
Proof. unfold zoom. destruct (m (get s)) as [[]|]; naive_solver. Qed.

Lemma transaction_Ok {A} (m : Tx S A) s a s' :
  transaction m s = (Ok a, s') ↔ m s = Ok (a, s').
Proof. unfold transaction. destruct (m s) as [[]|]; naive_solver. Qed.

(** A transaction that raises is rolled back. *)
Lemma transaction_Err {A} (m : Tx S A) s e s' :
  transaction m s = (Err e, s') ↔ m s = Err e ∧ s' = s.
Proof. unfold transaction. destruct (m s) as [[]|]; split; intros ?; destruct_and?; simplify_eq; auto. Qed.

(** A comprehension whose body only reads. *)
Lemma tx_map_reads {A B} (P : A → B → Prop) (body : A → Tx S B) l s ys s' :
  (∀ x y s1, x ∈ l → body x s = Ok (y, s1) → s1 = s ∧ P x y) →
  tx_map body l s = Ok (ys, s') → s' = s ∧ Forall2 P l ys.
Proof.
  revert ys. induction l as [|x l IH]; intros ys Hb E; simpl in E.
  { apply tx_ret_Ok in E as [-> ->]. done. }
  apply tx_bind_Ok in E as (y & s1 & E1 & E). apply Hb in E1 as [-> HP]; [|left].
  apply tx_bind_Ok in E as (ys' & s2 & E2 & [-> ->]%tx_ret_Ok).
  apply IH in E2 as [-> HF]; [|intros ????; apply Hb; by right]. by split; [|constructor].
Qed.

(** [m] keeps the invariant [P] whenever it commits. *)
Definition preserves {A} (P : S → Prop) (m : Tx S A) : Prop :=
  ∀ s a s', P s → m s = Ok (a, s') → P s'.

(** A body that only reads. *)
Definition reads_only {A} (m : Tx S A) : Prop :=
  ∀ s a s', m s = Ok (a, s') → s' = s.

Lemma preserves_ret {A} P (x : A) : preserves P (mret (M:=Tx S) x).
Proof. intros s a s' HP [-> ->]%tx_ret_Ok. done. Qed.
Lemma preserves_bind {A B} P (m : Tx S A) (f : A → Tx S B) :
  preserves P m → (∀ a, preserves P (f a)) → preserves P (mbind (M:=Tx S) f m).
Proof. intros Hm Hf s b s' HP (a & s1 & H1 & H2)%tx_bind_Ok. eapply Hf, H2. eauto. Qed.
Lemma preserves_reads {A} P (m : Tx S A) : reads_only m → preserves P m.
Proof. intros H s a s' HP E. by rewrite (H _ _ _ E). Qed.
Lemma preserves_for_each {A} P (l : list A) (body : A → Tx S unit) :
  (∀ x, x ∈ l → preserves P (body x)) → preserves P (for_each l body).
Proof.
  induction l as [|x l IH]; simpl; intros Hb; [apply preserves_ret|].
  apply preserves_bind; [apply Hb; left|]. intros _. apply IH. intros y ?. apply Hb. by right.
Qed.
Lemma reads_only_gets {A} (f : S → A) : reads_only (gets f).
Proof. by intros s a s' [-> ->]%gets_Ok. Qed.
Lemma reads_only_require b e : reads_only (require (S:=S) b e).
Proof. by intros s a s' [_ ->]%require_Ok. Qed.
Lemma reads_only_some_or_raise {A} e (o : option A) : reads_only (some_or_raise (S:=S) e o).
Proof. by intros s a s' [_ ->]%some_or_raise_Ok. Qed.
Lemma reads_only_from_res {A} (r : Res A) : reads_only (from_res (S:=S) r).
Proof. by intros s a s' [_ ->]%from_res_Ok. Qed.
Lemma reads_only_ret {A} (x : A) : reads_only (mret (M:=Tx S) x).
Proof. by intros s a s' [_ ->]%tx_ret_Ok. Qed.
Lemma reads_only_raise {A} e : reads_only (raise (S:=S) (A:=A) e).
Proof. done. Qed.
Lemma reads_only_bind {A B} (m : Tx S A) (f : A → Tx S B) :
  reads_only m → (∀ a, reads_only (f a)) → reads_only (mbind (M:=Tx S) f m).
Proof.
  intros Hm Hf s b s' (a & s1 & H1 & H2)%tx_bind_Ok.
  apply Hm in H1 as ->. by apply Hf in H2.
Qed.

(** A body that cannot raise [e]. *)
Definition never {A} (e : exn) (m : Tx S A) : Prop := ∀ s, m s ≠ Err e.

Lemma never_ret {A} e (x : A) : never e (mret (M:=Tx S) x).
Proof. done. Qed.
Lemma never_raise {A} e e' : e' ≠ e → never e (raise (S:=S) (A:=A) e').
Proof. unfold raise. intros Hne s [= ?]. done. Qed.
Lemma never_gets {A} e (f : S → A) : never e (gets f).
Proof. done. Qed.
Lemma never_modify e (f : S → S) : never e (modify f).
Proof. done. Qed.
Lemma never_require e b e' : e' ≠ e → never e (require (S:=S) b e').
Proof. intros. unfold require. destruct b; [apply never_ret|by apply never_raise]. Qed.
Lemma never_some_or_raise {A} e e' (o : option A) : e' ≠ e → never e (some_or_raise (S:=S) e' o).
Proof. intros. unfold some_or_raise. destruct o; [apply never_ret|by apply never_raise]. Qed.
Lemma never_bind {A B} e (m : Tx S A) (f : A → Tx S B) :
  never e m → (∀ a, never e (f a)) → never e (mbind (M:=Tx S) f m).
Proof.
  intros Hm Hf s. unfold mbind, tx_bind. destruct (m s) as [[a s']|e'] eqn:E; [apply Hf|].
  intros [= ->]. by apply (Hm s).
Qed.
Lemma never_for_each {A} e (l : list A) (body : A → Tx S unit) :
  (∀ x, never e (body x)) → never e (for_each l body).
Proof. intros Hb. induction l; simpl; [apply never_ret|by apply never_bind]. Qed.
Lemma never_tx_map {A B} e (l : list A) (body : A → Tx S B) :
  (∀ x, never e (body x)) → never e (tx_map body l).
Proof.
  intros Hb. induction l; simpl; [apply never_ret|].
  apply never_bind; [done|]. intros y. apply never_bind; [done|]. intros ys. apply never_ret.
Qed.
End tx_lemmas.

Lemma never_zoom {S T A} (get : S → T) set (m : Tx T A) e : never e m → never e (zoom get set m).
Proof.
  intros Hm s. unfold zoom. destruct (m (get s)) as [[]|e'] eqn:E; [done|].
  intros [= ->]. by apply (Hm (get s)).
Qed.

Create HintDb tx.
#[export] Hint Resolve reads_only_gets reads_only_require reads_only_some_or_raise
  reads_only_from_res reads_only_ret reads_only_raise reads_only_bind
  preserves_ret preserves_bind preserves_for_each preserves_reads
  never_ret never_gets never_modify never_bind never_for_each never_tx_map never_zoom : tx.
#[export] Hint Extern 1 (never _ (raise _)) => by apply never_raise : tx.
#[export] Hint Extern 1 (never _ (require _ _)) => by apply never_require : tx.
#[export] Hint Extern 1 (never _ (some_or_raise _ _)) => by apply never_some_or_raise : tx.

(** Splits every hypothesis that says a body committed into what each of its
    statements did. *)
Ltac inv_tx_step :=
  match goal with
  | H : mbind _ _ _ = Ok (_, _) |- _ =>
      let a := fresh "x" in let s := fresh "s" in
      apply tx_bind_Ok in H as (a & s & ? & H)
  | H : mret _ _ = Ok (_, _) |- _ => apply tx_ret_Ok in H as [? ?]
  | H : raise _ _ = Ok (_, _) |- _ => by apply raise_Ok in H
  | H : gets _ _ = Ok (_, _) |- _ => apply gets_Ok in H as [? ?]
  | H : modify _ _ = Ok (_, _) |- _ => apply modify_Ok in H
  | H : require _ _ _ = Ok (_, _) |- _ => apply require_Ok in H as [? ?]
  | H : some_or_raise _ _ _ = Ok (_, _) |- _ => apply some_or_raise_Ok in H as [? ?]
  | H : from_res _ _ = Ok (_, _) |- _ => apply from_res_Ok in H as [? ?]
  | H : zoom _ _ _ _ = Ok (_, _) |- _ =>
      let t := fresh "t" in apply zoom_Ok in H as (t & ? & ?)
  end.
Ltac inv_tx := repeat (inv_tx_step; simplify_eq/=).

(** The state a body leaves, and that it commits. *)
Definition after_run {S A} (m : Tx S A) (s : S) : S :=
  match m s with Ok (_, s') => s' | Err _ => s end.
Definition is_ok {A} (r : Res A) : bool := match r with Ok _ => true | Err _ => false end.

Lemma after_run_Ok {S A} (m : Tx S A) s :
  is_ok (m s) = true → ∃ a, m s = Ok (a, after_run m s).
Proof. unfold after_run. destruct (m s) as [[a s']|]; [by exists a|done]. Qed.

(** ** String enumerations *)

(** A Python [StrEnum]: its members, and the value each is stored as. *)
Class StrEnum (A : Type) `{EqDecision A} := {
  value : A → string;
  members : list A;
  value_inj :: Inj (=) (=) value;
  members_complete : ∀ a, a ∈ members
}.

#[global] Arguments value : simpl never.

(** [A(text)]: [None] is the [ValueError] of an unknown value. *)
Definition of_value `{StrEnum A} (text : string) : option A :=
  list_find (λ a, value a = text) members ≫= λ '(_, a), Some a.

Lemma of_value_value `{StrEnum A} (a : A) : of_value (value a) = Some a.
Proof.
  unfold of_value.
  destruct (list_find_elem_of (λ b, value b = value a) members a) as [[i b] Hb];
    [apply members_complete|done|].
  rewrite Hb. simpl. apply list_find_Some in Hb as (_ & Hv & _). f_equal. by apply (inj value).
Qed.

Lemma of_value_Some `{StrEnum A} text (a : A) : of_value text = Some a → text = value a.
Proof.
  unfold of_value. destruct (list_find _ _) as [[i b]|] eqn:E; simpl; [|done].
  intros [= ->]. by apply list_find_Some in E as (_ & <- & _).
Qed.

(** Solves the two laws of a [StrEnum] instance. *)
Ltac solve_str_enum :=
  first [ intros []; by repeat constructor | intros [] [] ?; simplify_eq/=; done ].

(** ** Sorting by keys *)

(** [ORDER BY] and [sorted(key=...)]: lexicographic comparisons of keys. *)
Definition cmp_on {A B} (f : A → B) (c : B → B → comparison) : A → A → comparison :=
  λ x y, c (f x) (f y).
Definition cmp_then {A} (c1 c2 : A → A → comparison) : A → A → comparison :=
  λ x y, match c1 x y with Eq => c2 x y | r => r end.
(** [DESC], or the negated number as the key. *)
Definition cmp_desc {A} (c : A → A → comparison) : A → A → comparison := λ x y, c y x.
#[global] Typeclasses Opaque cmp_desc.
Definition leb_of {A} (c : A → A → comparison) (x y : A) : bool :=
  match c x y with Gt => false | _ => true end.

#[export] Instance leb_of_dec {A} (c : A → A → comparison) :
  RelDecision (λ x y, leb_of c x y = true).
Proof. intros x y. apply bool_eq_dec. Defined.

Definition sort_by {A} (c : A → A → comparison) (l : list A) : list A :=
  merge_sort (λ x y, leb_of c x y = true) (H:=leb_of_dec c) l.

Class Comparator {A} (c : A → A → comparison) :=
  comparator_antisym x y : c y x = CompOpp (c x y).

#[export] Instance comparator_Z : Comparator Z.compare.
Proof. intros x y. apply Z.compare_antisym. Qed.
#[export] Instance comparator_nat : Comparator Nat.compare.
Proof. intros x y. apply Nat.compare_antisym. Qed.
#[export] Instance comparator_string : Comparator String.compare.
Proof. intros x y. apply String.compare_antisym. Qed.
#[export] Instance comparator_on {A B} (f : A → B) c `{!Comparator c} : Comparator (cmp_on f c).
Proof. intros x y. unfold cmp_on. apply (comparator_antisym (c:=c)). Qed.
#[export] Instance comparator_then {A} (c1 c2 : A → A → comparison)
  `{!Comparator c1, !Comparator c2} : Comparator (cmp_then c1 c2).
Proof.
  intros x y. unfold cmp_then. rewrite (comparator_antisym x y).
  destruct (c1 x y); simpl; auto.
Qed.

#[export] Instance comparator_desc {A} (c : A → A → comparison) `{!Comparator c} : Comparator (cmp_desc c).
Proof. intros x y. unfold cmp_desc. apply (comparator_antisym (c:=c)). Qed.

#[export] Instance leb_of_total {A} (c : A → A → comparison) `{!Comparator c} :
  Total (λ x y, leb_of c x y = true).
Proof.
  intros x y. unfold leb_of. rewrite (comparator_antisym x y). destruct (c x y); simpl; auto.
Qed.

Lemma sort_by_Permutation {A} (c : A → A → comparison) l : sort_by c l ≡ₚ l.
Proof. apply merge_sort_Permutation. Qed.

Lemma elem_of_sort_by {A} (c : A → A → comparison) l x : x ∈ sort_by c l ↔ x ∈ l.
Proof. by rewrite sort_by_Permutation. Qed.

Lemma Sorted_impl {A} (R1 R2 : relation A) l :
  (∀ x y, R1 x y → R2 x y) → Sorted R1 l → Sorted R2 l.
Proof.
  intros H. induction 1 as [|x l ? IH Hd]; constructor; [done|].
  destruct Hd; constructor; auto.
Qed.

(** A list sorted by several keys is ordered by the first one. *)
Lemma sort_by_first_key {A} (f : A → Z) (c : A → A → comparison) `{!Comparator c} l :
  StronglySorted (λ x y, (f x ≤ f y)%Z) (sort_by (cmp_then (cmp_on f Z.compare) c) l).
Proof.
  assert (Transitive (λ x y, (f x ≤ f y)%Z)) by (intros ???; lia).
  apply Sorted_StronglySorted; [done|].
  eapply Sorted_impl; [|apply Sorted_merge_sort; apply _].
  intros x y. simpl. unfold leb_of, cmp_then, cmp_on.
  destruct (Z.compare_spec (f x) (f y)); [lia..|done].
Qed.

(** Comparisons whose order is transitive. *)
Class CmpTrans {A} (c : A → A → comparison) :=
  cmp_trans x y z : c x y ≠ Gt → c y z ≠ Gt →
    c x z ≠ Gt ∧ (c x y = Lt ∨ c y z = Lt → c x z = Lt).

#[export] Instance cmp_trans_Z : CmpTrans Z.compare.
Proof.
  intros x y z. destruct (Z.compare_spec x y), (Z.compare_spec y z), (Z.compare_spec x z);
    naive_solver lia.
Qed.
#[export] Instance cmp_trans_N : CmpTrans N.compare.
Proof.
  intros x y z. destruct (N.compare_spec x y), (N.compare_spec y z), (N.compare_spec x z);
    naive_solver lia.
Qed.
#[export] Instance cmp_trans_string : CmpTrans String.compare.
Proof.
  intros x. induction x as [|a x IH]; intros [|b y] [|c z]; simpl; try naive_solver.
  unfold Ascii.compare. pose proof (cmp_trans (Ascii.N_of_ascii a) (Ascii.N_of_ascii b) (Ascii.N_of_ascii c)) as Hc.
  specialize (IH y z).
  destruct (N.compare_spec (Ascii.N_of_ascii a) (Ascii.N_of_ascii b)) as [Hab|?|?];
  destruct (N.compare_spec (Ascii.N_of_ascii b) (Ascii.N_of_ascii c)) as [Hbc|?|?];
  destruct (N.compare_spec (Ascii.N_of_ascii a) (Ascii.N_of_ascii c)) as [Hac|?|?];
  try lia; naive_solver.
Qed.
#[export] Instance cmp_trans_on {A B} (f : A → B) c `{!CmpTrans c} : CmpTrans (cmp_on f c).
Proof. intros x y z. unfold cmp_on. apply cmp_trans. Qed.
#[export] Instance cmp_trans_desc {A} (c : A → A → comparison) `{!CmpTrans c} : CmpTrans (cmp_desc c).
Proof. intros x y z H1 H2. unfold cmp_desc in *. destruct (cmp_trans z y x H2 H1). tauto. Qed.
#[export] Instance cmp_trans_then {A} (c1 c2 : A → A → comparison)
  `{!Comparator c1, !CmpTrans c1, !CmpTrans c2} : CmpTrans (cmp_then c1 c2).
Proof.
  intros x y z. unfold cmp_then.
  pose proof (cmp_trans (c:=c1) x y z) as H1. pose proof (cmp_trans (c:=c2) x y z) as H2.
  pose proof (cmp_trans (c:=c1) z y x) as H3.
  rewrite (comparator_antisym (c:=c1) x y), (comparator_antisym (c:=c1) y z),
    (comparator_antisym (c:=c1) x z) in H3.
  destruct (c1 x y), (c1 y z), (c1 x z); simpl in *; naive_solver.
Qed.

Lemma sort_by_sorted {A} (c : A → A → comparison) `{!Comparator c, !CmpTrans c} l :
  StronglySorted (λ x y, c x y ≠ Gt) (sort_by c l).
Proof.
  assert (Transitive (λ x y, c x y ≠ Gt)) by (intros x y z ??; by eapply cmp_trans).
  apply Sorted_StronglySorted; [done|].
  eapply Sorted_impl; [|apply Sorted_merge_sort; apply _].
  intros x y. simpl. unfold leb_of. by destruct (c x y).
Qed.

(** Where only equal elements tie, sorting does not depend on the order it starts from. *)
Lemma sort_by_ext {A} (c : A → A → comparison) `{!Comparator c, !CmpTrans c} l l' :
  (∀ x y, x ∈ l → y ∈ l → c x y = Eq → x = y) → l ≡ₚ l' → sort_by c l = sort_by c l'.
Proof.
  intros Heq Hp. eapply (StronglySorted_unique_strong (λ x y, c x y ≠ Gt)).
  - intros x y Hx Hy H1 H2. rewrite elem_of_sort_by in Hx, Hy. rewrite <- Hp in Hy.
    apply Heq; [done..|]. rewrite (comparator_antisym x y) in H2. by destruct (c x y).
  - by apply sort_by_sorted.
  - by apply sort_by_sorted.
  - by rewrite !sort_by_Permutation.
Qed.

(** A list whose keys strictly increase is what sorting any permutation of it gives. *)
Lemma sort_by_unique {A} (f : A → Z) (c : A → A → comparison) `{!Comparator c} l l' :
  StronglySorted (λ x y, (f x < f y)%Z) l → l' ≡ₚ l →
  sort_by (cmp_then (cmp_on f Z.compare) c) l' = l.
Proof.
  intros Hl Hp.
  eapply (StronglySorted_unique_strong (λ x y, (f x ≤ f y)%Z)).
  - intros x y Hx Hy H1 H2. rewrite elem_of_sort_by, Hp in Hx.
    assert (Heq : f x = f y) by lia. clear H1 H2 Hp.
    induction Hl as [|z l Hs IH Hz]; [by apply elem_of_nil in Hx|].
    rewrite Forall_forall in Hz.
    apply elem_of_cons in Hx as [->|Hx], Hy as [->|Hy];
      [done|apply Hz in Hy; lia|apply Hz in Hx; lia|by apply IH].
  - by apply sort_by_first_key.
  - clear Hp. induction Hl as [|z l Hs IH Hz]; constructor; [done|].
    eapply Forall_impl; [done|]. simpl. lia.
  - by rewrite sort_by_Permutation.
Qed.

(** ** Lists *)

Lemma filter_ext_elem {A} (P Q : A → Prop) `{!∀ x, Decision (P x), !∀ x, Decision (Q x)} (l : list A) :
  (∀ x, x ∈ l → P x ↔ Q x) → filter P l = filter Q l.
Proof.
  induction l as [|x l IH]; intros Hl; [done|].
  rewrite !filter_cons, IH by (intros; apply Hl; by right).
  assert (Hx : P x ↔ Q x) by (apply Hl; left).
  clear Hl. destruct (decide (P x)), (decide (Q x)); tauto.
Qed.

Lemma forallb_elem {A} (f : A → bool) (l : list A) :
  forallb f l = true ↔ ∀ x, x ∈ l → f x = true.
Proof.
  rewrite forallb_forall. split; intros H x Hx; apply H; by apply list_elem_of_In.
Qed.

Lemma existsb_elem {A} (f : A → bool) (l : list A) :
  existsb f l = true ↔ ∃ x, x ∈ l ∧ f x = true.
Proof.
  rewrite existsb_exists. split; intros (x & Hx & H); exists x; by rewrite ?list_elem_of_In in *.
Qed.

Lemma forallb_decide {A} (P : A → Prop) `{!∀ x, Decision (P x)} (l : list A) :
  forallb (λ x, bool_decide (P x)) l = true ↔ ∀ x, x ∈ l → P x.
Proof.
  rewrite forallb_elem. split; intros Hl x Hx; apply Hl in Hx; by rewrite bool_decide_eq_true in *.
Qed.

Lemma existsb_decide {A} (P : A → Prop) `{!∀ x, Decision (P x)} (l : list A) :
  existsb (λ x, bool_decide (P x)) l = true ↔ ∃ x, x ∈ l ∧ P x.
Proof.
  rewrite existsb_elem. split; intros (x & Hx & HP); exists x; by rewrite bool_decide_eq_true in *.
Qed.

Lemma filter_all {A} (P : A → Prop) `{!∀ x, Decision (P x)} (l : list A) :
  (∀ x, x ∈ l → P x) → filter P l = l.
Proof.
  induction l as [|x l IH]; intros Hl; [done|].
  rewrite filter_cons_True by (apply Hl; left). f_equal. apply IH. intros y ?. apply Hl. by right.
Qed.

Lemma filter_none {A} (P : A → Prop) `{!∀ x, Decision (P x)} (l : list A) :
  (∀ x, x ∈ l → ¬ P x) → filter P l = [].
Proof.
  induction l as [|x l IH]; intros Hl; [done|].
  rewrite filter_cons_False by (apply Hl; left). apply IH. intros y ?. apply Hl. by right.
Qed.

(** A filter that keeps strictly less is strictly shorter. *)
Lemma filter_length_lt {A} (P Q : A → Prop) `{!∀ x, Decision (P x), !∀ x, Decision (Q x)}
    (l : list A) x :
  (∀ y, y ∈ l → Q y → P y) → x ∈ l → P x → ¬ Q x →
  (length (filter Q l) < length (filter P l))%nat.
Proof.
  intros Hsub Hx HP HQ.
  assert (Hle : ∀ k : list A, (∀ y, y ∈ k → Q y → P y) →
            (length (filter Q k) ≤ length (filter P k))%nat).
  { induction k as [|y k IH]; intros Hk; [done|]. rewrite !filter_cons.
    assert (length (filter Q k) ≤ length (filter P k))%nat by (apply IH; intros; apply Hk; [by right|done]).
    destruct (decide (Q y)) as [Hq|].
    - rewrite decide_True by (apply Hk; [left|done]). simpl. lia.
    - destruct (decide (P y)); simpl; lia. }
  apply list_elem_of_split in Hx as (l1 & l2 & ->).
  rewrite !filter_app, !filter_cons, decide_False, decide_True, !length_app by done. simpl.
  pose proof (Hle l1) as H1. pose proof (Hle l2) as H2.
  specialize (H1 ltac:(intros; apply Hsub; [apply elem_of_app; by left|done])).
  specialize (H2 ltac:(intros; apply Hsub; [apply elem_of_app; right; by right|done])). lia.
Qed.

(** Removing one element from a list without repetition. *)
Lemma filter_ne_length {A} `{EqDecision A} (x : A) (l : list A) :
  NoDup l → x ∈ l → S (length (filter (λ y, y ≠ x) l)) = length l.
Proof.
  induction 1 as [|y l Hy Hnd IH]; intros Hx; [by apply elem_of_nil in Hx|].
  rewrite filter_cons. destruct (decide (y ≠ x)) as [Hne|Heq]; simpl.
  - rewrite IH; [done|]. apply elem_of_cons in Hx as [->|]; done.
  - apply dec_stable in Heq as ->. f_equal. f_equal. apply filter_all. by intros z Hz ->.
Qed.

Lemma NoDup_map_filter {A B} (f : A → B) (P : A → Prop) `{!∀ x, Decision (P x)} (l : list A) :
  NoDup (map f l) → NoDup (map f (filter P l)).
Proof.
  induction l as [|x l IH]; simpl; [done|]. intros [Hx Hl]%NoDup_cons.
  rewrite filter_cons. destruct (decide (P x)); simpl; [|auto].
  apply NoDup_cons. split; [|auto]. intros (y & Hy & [_ Hin]%list_elem_of_filter)%list_elem_of_fmap.
  apply Hx. rewrite Hy. by apply list_elem_of_fmap_2.
Qed.

(** Elements of a list are determined by a key that does not repeat. *)
Lemma NoDup_map_inj {A B} (f : A → B) (l : list A) x y :
  NoDup (map f l) → x ∈ l → y ∈ l → f x = f y → x = y.
Proof.
  induction l as [|z l IH]; [by intros _ ?%elem_of_nil|]. simpl. intros [Hz Hl]%NoDup_cons Hx Hy E.
  apply elem_of_cons in Hx as [->|Hx], Hy as [->|Hy]; auto.
  - destruct Hz. rewrite E. by apply list_elem_of_fmap_2.
  - destruct Hz. rewrite <- E. by apply list_elem_of_fmap_2.
Qed.

Lemma map_ext_elem {A B} (f g : A → B) (l : list A) : (∀ x, x ∈ l → f x = g x) → map f l = map g l.
Proof. intros E. apply map_ext_in. intros x Hx. by apply E, list_elem_of_In. Qed.

(** ** Optional filters *)

(** [if filter is not None: column = filter]. *)
Definition matches_opt (filter value : option string) : Prop :=
  match filter with Some _ => value = filter | None => True end.
#[export] Instance matches_opt_dec f v : Decision (matches_opt f v).
Proof. unfold matches_opt. destruct f; apply _. Defined.

(** ** Lengths *)

Definition nonempty {A} (l : list A) : bool := match l with [] => false | _ => true end.
Definition zlen {A} (l : list A) : Z := Z.of_nat (length l).
Lemma zlen_app {A} (l l' : list A) : zlen (l ++ l') = (zlen l + zlen l')%Z.
Proof. unfold zlen. rewrite length_app. lia. Qed.
#[export] Instance zlen_Permutation {A} : Proper ((≡ₚ) ==> (=)) (@zlen A).
Proof. intros l l' E. unfold zlen. by rewrite E. Qed.
