(* ===== verification/PyFloat.v ===== *)
(** * Python floats

    IEEE-754 binary64 arithmetic as Python performs it, on the Standard
    Library's executable specification of floating point ([SpecFloat]): a
    [float] is a [spec_float] at 53 bits of precision and maximal exponent
    1024.  The file gives the operators the modelled code uses (arithmetic,
    comparison, [max], [min], [sum], true division of integers, integer powers,
    [round] to a number of decimal digits) and the order lemmas the components
    share: on floats that are not NaN, [<=] is a total preorder. *)

From Stdlib Require Export SpecFloat.
From S2P Require Import Prelude.

Abbreviation float := spec_float.

Local Open Scope Z_scope.

Declare Scope float_scope.
Delimit Scope float_scope with float.

Definition fmul : float → float → float := SFmul 53 1024.
Definition fadd : float → float → float := SFadd 53 1024.
Definition fsub : float → float → float := SFsub 53 1024.
Definition fdiv : float → float → float := SFdiv 53 1024.
Definition fltb : float → float → bool := SFltb.
Definition fleb : float → float → bool := SFleb.
Definition feqb : float → float → bool := SFeqb.

Infix "*" := fmul : float_scope.
Infix "+" := fadd : float_scope.
Infix "-" := fsub : float_scope.
Infix "/" := fdiv : float_scope.
Infix "<?" := fltb : float_scope.
Infix "<=?" := fleb : float_scope.
Infix "=?" := feqb : float_scope.

#[export] Instance float_eq_dec : EqDecision float.
Proof. solve_decision. Defined.

(** [float(z)], correctly rounded. *)
Definition float_of_Z (z : Z) : float := binary_normalize 53 1024 z 0 false.

(** [a / b] on integers: Python rounds the exact quotient once. *)
Definition exact (z : Z) : float :=
  match z with
  | Z0 => S754_zero false
  | Zpos p => S754_finite false p 0
  | Zneg p => S754_finite true p 0
  end.
Definition int_truediv (a b : Z) : float := SFdiv 53 1024 (exact a) (exact b).

Definition zero : float := S754_zero false.
Definition one : float := float_of_Z 1.

(** A decimal literal [n / 10^k]. *)
Definition dec (n : Z) (k : nat) : float := int_truediv n (10 ^ Z.of_nat k).

Definition is_nan (x : float) : bool := match x with S754_nan => true | _ => false end.
Definition is_inf (x : float) : bool := match x with S754_infinity _ => true | _ => false end.

(** [max(x, y)] keeps [x] unless [y] is strictly greater; [min(x, y)] keeps [x]
    unless [y] is strictly smaller. *)
Definition fmax (x y : float) : float := if fltb x y then y else x.
Definition fmin (x y : float) : float := if fltb y x then y else x.

(** [sum(x for ...)] of floats, for a non-empty list: the interpreter (3.12 and
    later) starts from [0 + x], keeps the rounding errors of the additions in a
    second float, and adds them at the end when they are finite. *)
Definition fabs (x : float) : float := SFabs x.
Definition is_finite (x : float) : bool := negb (is_nan x) && negb (is_inf x).
Definition sum_step (sc : float * float) (x : float) : float * float :=
  let '(s, c) := sc in
  let t := fadd s x in
  (t, if fleb (fabs x) (fabs s) then fadd c (fadd (fsub s t) x) else fadd c (fadd (fsub x t) s)).
Definition fsum (x : float) (l : list float) : float :=
  let '(s, c) := fold_left sum_step l (fadd zero x, zero) in
  if negb (feqb c zero) && is_finite c then fadd s c else s.

(** [x ** n] for a non-negative integer [n]: the exact power rounded once, and
    [OverflowError] when a finite base leaves the range. *)
Definition fpow (x : float) (n : Z) : Res float :=
  match n with
  | Z0 => Ok one
  | _ =>
    match x with
    | S754_finite s m e =>
        let r := binary_round 53 1024 (s && Z.odd n) (m ^ Z.to_pos n) (e * n) in
        if is_inf r then Err (Py OverflowError) else Ok r
    | S754_zero s => Ok (S754_zero (s && Z.odd n))
    | S754_infinity s => Ok (S754_infinity (s && Z.odd n))
    | S754_nan => Ok S754_nan
    end
  end.

(** Rounding the rational [a / b] ([b > 0]) to the nearest integer, ties to even. *)
Definition round_half_even (a b : Z) : Z :=
  let q := a / b in
  match 2 * (a mod b) ?= b with
  | Lt => q
  | Gt => q + 1
  | Eq => if Z.even q then q else q + 1
  end.

(** A finite float as an exact fraction [numerator / denominator]. *)
Definition as_fraction (x : float) : Z * Z :=
  match x with
  | S754_finite s m e =>
      let z := if s then Zneg m else Zpos m in
      if 0 <=? e then (z * 2 ^ e, 1) else (z, 2 ^ (- e))
  | _ => (0, 1)
  end.

(** [round(x, digits)]. *)
Definition fround (x : float) (digits : nat) : float :=
  match x with
  | S754_finite s _ _ =>
      let '(a, b) := as_fraction x in
      let scale := 10 ^ Z.of_nat digits in
      match round_half_even (a * scale) b with
      | Z0 => S754_zero s
      | z => int_truediv z scale
      end
  | _ => x
  end.

Example fround_example : fround (dec 15 1) 0 = float_of_Z 2.
Proof. vm_compute. reflexivity. Qed.
Example int_truediv_example : int_truediv 3 20 = dec 15 2.
Proof. vm_compute. reflexivity. Qed.

Example fsum_example : fsum (dec 1 1) [dec 2 1; dec 3 1] = dec 6 1.
Proof. vm_compute. reflexivity. Qed.

(** [x / y]: division by zero raises. *)
Definition float_truediv (x y : float) : Res float :=
  match y with S754_zero _ => Err (Py ZeroDivisionError) | _ => Ok (fdiv x y) end.

(** ** The order of the floats that are not NaN *)

(** A key whose lexicographic order is the order [SFcompare] computes. *)
Definition order_key (x : float) : Z * Z * Z :=
  match x with
  | S754_nan => (0, 0, 0)
  | S754_infinity true => (-2, 0, 0)
  | S754_infinity false => (2, 0, 0)
  | S754_zero _ => (0, 0, 0)
  | S754_finite true m e => (-1, - e, Zneg m)
  | S754_finite false m e => (1, e, Zpos m)
  end.

Definition key_lt (k1 k2 : Z * Z * Z) : Prop :=
  let '(a1, b1, c1) := k1 in
  let '(a2, b2, c2) := k2 in
  a1 < a2 ∨ a1 = a2 ∧ (b1 < b2 ∨ b1 = b2 ∧ c1 < c2).

Lemma compare_key x y :
  is_nan x = false → is_nan y = false →
  (fltb x y = true ↔ key_lt (order_key x) (order_key y)).
Proof.
  intros Hx Hy. unfold fltb, SFltb.
  destruct x as [s|s| |s m e], y as [s'|s'| |s' m' e']; try done;
    repeat match goal with b : bool |- _ => destruct b end; simpl;
    try (split; [done|lia]); try (split; [lia|done]);
    change (Pos.compare_cont Eq m m') with (Pos.compare m m');
    destruct (Z.compare_spec e e'); subst;
    try (destruct (Pos.compare_spec m m'); subst);
    simpl; split; try done; try lia; intros; exfalso; lia.
Qed.

Lemma fleb_fltb x y :
  is_nan x = false → is_nan y = false → fleb x y = negb (fltb y x).
Proof.
  intros Hx Hy. unfold fleb, SFleb, fltb, SFltb.
  destruct x as [s|s| |s m e], y as [s'|s'| |s' m' e']; try done;
    repeat match goal with b : bool |- _ => destruct b end; simpl; try done;
    change (Pos.compare_cont Eq) with Pos.compare;
    rewrite (Z.compare_antisym e e');
    rewrite (Pos.compare_antisym m m');
    destruct (e ?= e')%Z; simpl; try done; by destruct (m ?= m')%positive.
Qed.

Lemma fleb_key x y :
  is_nan x = false → is_nan y = false →
  (fleb x y = true ↔ ¬ key_lt (order_key y) (order_key x)).
Proof.
  intros Hx Hy. rewrite fleb_fltb by done. rewrite <- compare_key by done.
  destruct (fltb y x); simpl; naive_solver.
Qed.

Ltac float_order :=
  repeat match goal with
  | H : fltb ?x ?y = true |- _ => apply compare_key in H; [|done..]
  | H : fleb ?x ?y = true |- _ => apply fleb_key in H; [|done..]
  | H : fltb ?x ?y = false |- _ =>
      apply not_true_iff_false in H; rewrite compare_key in H by done
  end;
  rewrite ?fleb_key, ?compare_key by done;
  repeat match goal with
  | H : context [key_lt] |- _ => revert H
  end;
  repeat match goal with
  | |- context [order_key ?x] => destruct (order_key x) as [[? ?] ?]
  end;
  unfold key_lt; lia.

Lemma fleb_refl x : is_nan x = false → fleb x x = true.
Proof. intros. float_order. Qed.

Lemma fleb_trans x y z :
  is_nan x = false → is_nan y = false → is_nan z = false →
  fleb x y = true → fleb y z = true → fleb x z = true.
Proof. intros. float_order. Qed.

Lemma fleb_total x y :
  is_nan x = false → is_nan y = false → fleb x y = true ∨ fleb y x = true.
Proof.
  intros. destruct (fltb x y) eqn:?; [left|right]; float_order.
Qed.

Lemma fltb_fleb x y :
  is_nan x = false → is_nan y = false → fltb x y = true → fleb x y = true.
Proof. intros. float_order. Qed.

Lemma fmax_nan x y : is_nan x = false → is_nan y = false → is_nan (fmax x y) = false.
Proof. intros. unfold fmax. by destruct (fltb x y). Qed.

Lemma fmax_ub x y :
  is_nan x = false → is_nan y = false → fleb x (fmax x y) = true ∧ fleb y (fmax x y) = true.
Proof. intros. unfold fmax. destruct (fltb x y) eqn:?; split; float_order. Qed.

Lemma fmin_lb x y :
  is_nan x = false → is_nan y = false → fleb (fmin x y) x = true ∧ fleb (fmin x y) y = true.
Proof. intros. unfold fmin. destruct (fltb y x) eqn:?; split; float_order. Qed.

Lemma fmin_cases x y : fmin x y = x ∨ fmin x y = y.
Proof. unfold fmin. destruct (fltb y x); auto. Qed.

(** ** Arithmetic on floats that are not negative *)

(** Not NaN, and of positive sign unless zero. *)
Definition nonneg (x : float) : bool :=
  match x with
  | S754_nan => false
  | S754_zero _ => true
  | S754_infinity s | S754_finite s _ _ => negb s
  end.

Lemma nonneg_not_nan x : nonneg x = true → is_nan x = false.
Proof. by destruct x. Qed.

Lemma shr_1_nonneg r : 0 ≤ shr_m r → 0 ≤ shr_m (shr_1 r).
Proof. destruct r as [[|[]|[]] ? ?]; cbn; lia. Qed.

Lemma shr_nonneg r e n : 0 ≤ shr_m r → 0 ≤ shr_m (fst (shr r e n)).
Proof.
  intros Hr. destruct n as [|p|p]; simpl; [done| |done].
  revert r Hr. induction p as [p IH|p IH|]; intros r Hr; simpl; auto using shr_1_nonneg.
Qed.

Lemma shr_fexp_nonneg prec emax m e l : 0 ≤ m → 0 ≤ shr_m (fst (shr_fexp prec emax m e l)).
Proof. intros Hm. unfold shr_fexp. apply shr_nonneg. by destruct l as [|[]]. Qed.

Lemma binary_round_aux_nonneg m e l : 0 ≤ m → nonneg (binary_round_aux 53 1024 false m e l) = true.
Proof.
  intros Hm. unfold binary_round_aux.
  pose proof (shr_fexp_nonneg 53 1024 m e l Hm) as H1.
  destruct (shr_fexp 53 1024 m e l) as [r1 e1]. cbn [fst] in H1.
  assert (H2 : 0 ≤ round_nearest_even (shr_m r1) (loc_of_shr_record r1)).
  { unfold round_nearest_even. repeat case_match; lia. }
  pose proof (shr_fexp_nonneg 53 1024 _ e1 loc_Exact H2) as H3.
  destruct (shr_fexp 53 1024 _ e1 loc_Exact) as [r2 e2]. cbn [fst] in H3.
  destruct (shr_m r2); [done| |lia]. by destruct (Z.leb e2 _).
Qed.

Lemma fdiv_finite_nonneg m1 e1 m2 e2 :
  nonneg (fdiv (S754_finite false m1 e1) (S754_finite false m2 e2)) = true.
Proof.
  unfold fdiv, SFdiv. cbn [xorb].
  destruct (SFdiv_core_binary 53 1024 (Zpos m1) e1 (Zpos m2) e2) as [[q e] l] eqn:E.
  apply binary_round_aux_nonneg.
  unfold SFdiv_core_binary in E. cbn zeta in E.
  set (s := Z.sub e1 e2) in *. clearbody s.
  match type of E with (let '(_, _) := Z.div_eucl ?a ?b in _) = _ =>
    assert (Ha : 0 ≤ a); [|pose proof (Z.div_pos a b Ha ltac:(lia)) as Hq; unfold Z.div in Hq;
      destruct (Z.div_eucl a b) as [q' r']; injection E as <- _ _; done]
  end.
  match goal with |- 0 ≤ match ?x with _ => _ end => destruct x end; try lia.
  apply Z.shiftl_nonneg. lia.
Qed.

(** A quotient of a float that is not negative by a positive finite one. *)
Lemma fdiv_nonneg x y :
  nonneg x = true → fltb zero y = true → is_inf y = false → nonneg (fdiv x y) = true.
Proof.
  intros Hx Hy Hi. destruct y as [| | |[] m2 e2]; try done.
  destruct x as [[]|[]| |[] m1 e1]; try done. apply fdiv_finite_nonneg.
Qed.

Lemma int_truediv_nonneg a b : 0 ≤ a → 0 < b → nonneg (int_truediv a b) = true.
Proof.
  intros Ha Hb. destruct b as [|b|b]; [lia| |lia].
  destruct a as [|a|a]; [done| |lia]. apply fdiv_finite_nonneg.
Qed.

Lemma fltb_not_nan x y : fltb x y = true → is_nan x = false ∧ is_nan y = false.
Proof. destruct x, y; try done; by destruct s. Qed.

(** [max] never returns a NaN once it holds a number. *)
Lemma fmax_keeps_number x y : is_nan x = false → is_nan (fmax x y) = false.
Proof. intros. unfold fmax. destruct (fltb x y) eqn:E; [|done]. by apply fltb_not_nan in E as []. Qed.
Lemma fmax_ge_left x y : is_nan x = false → fleb x (fmax x y) = true.
Proof.
  intros. unfold fmax. destruct (fltb x y) eqn:E; [|by apply fleb_refl].
  apply fltb_fleb; [done| |done]. by apply fltb_not_nan in E as [].
Qed.
Lemma fmax_ge_right x y : is_nan x = false → is_nan y = false → fleb y (fmax x y) = true.
Proof. intros. by apply fmax_ub. Qed.
