(* ===== verification/PyFloatBounds.v ===== *)
(** * Python floats: rounding keeps the order

    A product, a sum or a difference of binary64 floats is the exact result
    rounded to nearest.  Rounding never crosses a float: an exact result at most
    (at least) a float rounds to at most (at least) that float.  From this follow
    the bounds the scores rely on: products of numbers of the unit interval stay
    in it and below each factor, [1 - x] stays in it, [x + y] is at least [x]. *)

From S2P Require Import Prelude PyFloat.
Local Open Scope Z_scope.

(** ** Exact values *)

(** The value of [m * 2^e] times a power of two large enough to make it an integer. *)
Definition scale (e : Z) : Z := 2 ^ (e + 3000).

Lemma scale_pos e : -3000 ≤ e → 0 < scale e.
Proof. intros. unfold scale. apply Z.pow_pos_nonneg; lia. Qed.
Lemma scale_add e n : -3000 ≤ e → 0 ≤ n → scale (e + n) = 2 ^ n * scale e.
Proof. intros. unfold scale. rewrite <- Z.pow_add_r by lia. f_equal. lia. Qed.

Lemma digits_log2 p : Zpos (digits2_pos p) = Z.log2 (Zpos p) + 1.
Proof.
  induction p as [p IH|p IH|]; cbn [digits2_pos]; [| |done].
  - rewrite Pos2Z.inj_succ, IH, (Pos2Z.inj_xI p), Z.log2_succ_double by lia. lia.
  - rewrite Pos2Z.inj_succ, IH, (Pos2Z.inj_xO p), Z.log2_double by lia. lia.
Qed.

(** The number of digits bounds the mantissa on both sides. *)
Lemma digits_bounds p :
  2 ^ (Zpos (digits2_pos p) - 1) ≤ Zpos p < 2 ^ Zpos (digits2_pos p).
Proof.
  rewrite digits_log2. pose proof (Z.log2_spec (Zpos p) ltac:(lia)).
  replace (Z.log2 (Zpos p) + 1 - 1) with (Z.log2 (Zpos p)) by lia. rewrite <- Z.add_1_r in *. lia.
Qed.
Lemma digits_le p n : 0 ≤ n → Zpos p < 2 ^ n → Zpos (digits2_pos p) ≤ n.
Proof.
  intros Hn Hp. rewrite digits_log2. enough (Z.log2 (Zpos p) < n) by lia. by apply Z.log2_lt_pow2.
Qed.
Lemma digits_ge p n : 0 ≤ n → 2 ^ n ≤ Zpos p → n + 1 ≤ Zpos (digits2_pos p).
Proof.
  intros Hn Hp. rewrite digits_log2. enough (n ≤ Z.log2 (Zpos p)) by lia. apply Z.log2_le_pow2; lia.
Qed.

Lemma fexp_spec e : fexp 53 1024 e = Z.max (e - 53) (-1074).
Proof. done. Qed.

(** The mantissa of a canonical float: 53 digits unless the exponent is minimal. *)
Definition canonical (m : positive) (e : Z) : Prop :=
  -1074 ≤ e ∧ Zpos m < 2 ^ 53 ∧ (-1074 < e → 2 ^ 52 ≤ Zpos m).

Lemma canonical_iff m e : canonical_mantissa 53 1024 m e = true ↔ canonical m e.
Proof.
  unfold canonical_mantissa. rewrite Z.eqb_eq, fexp_spec. unfold canonical.
  pose proof (digits_bounds m) as [H1 H2]. split.
  - intros E. split; [lia|]. split.
    + eapply Z.lt_le_trans; [exact H2|]. apply Z.pow_le_mono_r; lia.
    + intros He. etrans; [|exact H1]. apply Z.pow_le_mono_r; lia.
  - intros (He & Hm & Hc). pose proof (digits_le m 53 ltac:(lia) Hm).
    destruct (decide (e = -1074)) as [->|Hne]; [lia|].
    pose proof (digits_ge m 52 ltac:(lia) ltac:(apply Hc; lia)). lia.
Qed.

(** Canonical floats compare as their values. *)
Lemma canonical_lt m1 e1 m2 e2 :
  canonical m1 e1 → canonical m2 e2 → e1 < e2 → Zpos m1 * scale e1 < Zpos m2 * scale e2.
Proof.
  intros (H1 & Hm1 & _) (H2 & _ & Hm2) He.
  replace e2 with (e1 + 1 + (e2 - e1 - 1)) by lia.
  rewrite scale_add by lia. rewrite scale_add by lia.
  pose proof (scale_pos e1 ltac:(lia)). pose proof (Z.pow_pos_nonneg 2 (e2 - e1 - 1) ltac:(lia) ltac:(lia)).
  specialize (Hm2 ltac:(lia)). change (2 ^ 1) with 2.
  set (k := 2 ^ (e2 - e1 - 1)) in *. set (s := scale e1) in *. clearbody k s.
  change (2 ^ 53) with (2 * 2 ^ 52) in Hm1. set (w := 2 ^ 52) in *. clearbody w.
  assert (w * s ≤ Zpos m2 * s) by nia. assert (Zpos m1 * s < 2 * w * s) by nia.
  assert (Zpos m2 * s ≤ Zpos m2 * s * k) by nia. nia.
Qed.

Lemma canonical_fleb m1 e1 m2 e2 :
  canonical m1 e1 → canonical m2 e2 →
  fleb (S754_finite false m1 e1) (S754_finite false m2 e2) = true ↔
  Zpos m1 * scale e1 ≤ Zpos m2 * scale e2.
Proof.
  intros H1 H2. unfold fleb, SFleb, SFcompare.
  change (Pos.compare_cont Eq m1 m2) with (Pos.compare m1 m2).
  destruct (Z.compare_spec e1 e2) as [<-|He|He].
  - pose proof (scale_pos e1 ltac:(destruct H1; lia)).
    destruct (Pos.compare_spec m1 m2) as [<-|Hm|Hm]; (split; [done || nia|done || nia]).
  - pose proof (canonical_lt _ _ _ _ H1 H2 He). split; [lia|done].
  - pose proof (canonical_lt _ _ _ _ H2 H1 He). split; [done|lia].
Qed.

(** ** Shifting and rounding *)

(** The bits a shift has dropped are all zero. *)
Definition is_exact (r : shr_record) : bool := negb (shr_r r || shr_s r).

Lemma iter_pos_nat {A} (f : A → A) p x : iter_pos f p x = Nat.iter (Pos.to_nat p) f x.
Proof.
  revert x. induction p as [p IH|p IH|]; intros x; cbn [iter_pos]; [| |done].
  - rewrite !IH, Pos2Nat.inj_xI, <- Nat.iter_add, <- Nat.iter_succ_r. f_equal. lia.
  - rewrite !IH, Pos2Nat.inj_xO, <- Nat.iter_add. f_equal. lia.
Qed.

Lemma shr_1_spec r :
  0 ≤ shr_m r → shr_m (shr_1 r) = shr_m r / 2 ∧
  is_exact (shr_1 r) = is_exact r && (shr_m r mod 2 =? 0).
Proof.
  destruct r as [m b s]. cbn [shr_m]. intros Hm. rewrite Zmod_even.
  destruct m as [|[p|p|]|]; [| | | |lia]; cbn; (split; [|by destruct b, s]).
  - done.
  - apply (Z.div_unique _ _ _ 1); lia.
  - apply (Z.div_unique _ _ _ 0); lia.
  - done.
Qed.

Lemma shr_iter_spec n m :
  0 ≤ m → let r := Nat.iter n shr_1 (Build_shr_record m false false) in
  shr_m r = m / 2 ^ Z.of_nat n ∧ is_exact r = (m mod 2 ^ Z.of_nat n =? 0).
Proof.
  intros Hm. induction n as [|n [IHm IHe]]; [cbn; by rewrite Z.div_1_r, Z.mod_1_r|].
  cbv zeta in *. rewrite Nat.iter_succ. set (r := Nat.iter n _ _) in *. clearbody r.
  assert (H2 : 0 < 2 ^ Z.of_nat n) by (apply Z.pow_pos_nonneg; lia).
  destruct (shr_1_spec r) as [Hd He]; [rewrite IHm; apply Z.div_pos; lia|].
  rewrite Hd, He, IHm, IHe, Nat2Z.inj_succ, Z.pow_succ_r, (Z.mul_comm 2) by lia.
  split; [apply Z.div_div; lia|].
  rewrite (Z.rem_mul_r m (2 ^ Z.of_nat n) 2) by lia.
  pose proof (Z.mod_pos_bound m (2 ^ Z.of_nat n) ltac:(lia)).
  pose proof (Z.mod_pos_bound (m / 2 ^ Z.of_nat n) 2 ltac:(lia)).
  destruct (Z.eqb_spec (m mod 2 ^ Z.of_nat n) 0) as [->|]; cbn [andb]; [|symmetry; apply Z.eqb_neq; nia].
  destruct (Z.eqb_spec ((m / 2 ^ Z.of_nat n) mod 2) 0) as [->|]; symmetry; [apply Z.eqb_eq|apply Z.eqb_neq]; nia.
Qed.

Lemma shr_exact_spec m e n :
  0 ≤ m → let '(r, e') := shr (Build_shr_record m false false) e n in
  e' = e + Z.max n 0 ∧ shr_m r = m / 2 ^ Z.max n 0 ∧ is_exact r = (m mod 2 ^ Z.max n 0 =? 0).
Proof.
  intros Hm. destruct n as [|p|p]; cbn [shr]; [| |]; rewrite ?Z.max_id, ?Z.max_r by lia.
  - rewrite Z.add_0_r, Z.div_1_r, Z.mod_1_r. done.
  - rewrite Z.max_l by lia. split; [done|]. rewrite iter_pos_nat.
    pose proof (shr_iter_spec (Pos.to_nat p) m Hm) as H. cbv zeta in H.
    by rewrite positive_nat_Z in H.
  - rewrite Z.add_0_r, Z.div_1_r, Z.mod_1_r. done.
Qed.

(** Rounding takes the quotient or the next integer, and the quotient when exact. *)
Definition rounds (m n q : Z) : Prop :=
  m / 2 ^ n ≤ q ≤ m / 2 ^ n + 1 ∧ (m mod 2 ^ n = 0 → q = m / 2 ^ n).

Lemma round_nearest_spec r :
  let q := round_nearest_even (shr_m r) (loc_of_shr_record r) in
  shr_m r ≤ q ≤ shr_m r + 1 ∧ (is_exact r = true → q = shr_m r).
Proof.
  destruct r as [m [] []]; unfold is_exact; cbn; repeat case_match; (split; [lia|done]).
Qed.

(** What [m] rounds to, as a multiple of [2^n], does not cross a multiple of [2^n]. *)
Lemma rounds_le m n q t :
  0 ≤ n → rounds m n q → t mod 2 ^ n = 0 → m ≤ t → q * 2 ^ n ≤ t.
Proof.
  intros Hn [Hq Hx] Ht Hm. pose proof (Z.pow_pos_nonneg 2 n ltac:(lia) Hn) as Hp.
  set (k := 2 ^ n) in *. clearbody k. apply Z.mod_divide in Ht as [u ->]; [|lia].
  pose proof (Z.div_mod m k ltac:(lia)). pose proof (Z.mod_pos_bound m k Hp).
  assert (q ≤ u); [|nia]. destruct (decide (m mod k = 0)) as [E|E].
  - rewrite Hx by done. apply (Z.mul_le_mono_pos_l _ _ k); lia.
  - enough (m / k < u) by lia. apply (Z.mul_lt_mono_pos_l k); lia.
Qed.
Lemma rounds_ge m n q t :
  0 ≤ n → rounds m n q → t mod 2 ^ n = 0 → t ≤ m → t ≤ q * 2 ^ n.
Proof.
  intros Hn [Hq Hx] Ht Hm. pose proof (Z.pow_pos_nonneg 2 n ltac:(lia) Hn) as Hp.
  set (k := 2 ^ n) in *. clearbody k. apply Z.mod_divide in Ht as [u ->]; [|lia].
  pose proof (Z.div_mod m k ltac:(lia)). pose proof (Z.mod_pos_bound m k Hp).
  assert (u ≤ m / k) by (apply Z.div_le_lower_bound; lia). nia.
Qed.

(** What rounding gives: zero, or a canonical float of the rounded value, or
    infinity when its exponent is too large. *)
Definition packed (q e : Z) (x : float) : Prop :=
  (q = 0 ∧ x = zero) ∨
  ∃ m' e', x = (if e' <=? 971 then S754_finite false m' e' else S754_infinity false) ∧
    canonical m' e' ∧ Zpos m' * scale e' = q * scale e.

(** The second shift repacks a mantissa that rounding made one digit longer. *)
Lemma repack q e :
  -1074 ≤ e → 0 ≤ q ≤ 2 ^ 53 → (-1074 < e → 2 ^ 52 ≤ q) →
  packed q e (let '(r, e2) := shr_fexp 53 1024 q e loc_Exact in
    match shr_m r with
    | Z0 => S754_zero false
    | Zpos m => if e2 <=? 1024 - 53 then S754_finite false m e2 else S754_infinity false
    | Zneg _ => S754_nan
    end).
Proof.
  intros He Hq Hc. unfold shr_fexp. cbn [shr_record_of_loc].
  pose proof (shr_exact_spec q e (fexp 53 1024 (Zdigits2 q + e) - e) ltac:(lia)) as H.
  destruct (shr _ e _) as [r e2]. destruct H as (-> & Hm & _).
  destruct (decide (q = 0)) as [->|Hq0].
  { left. rewrite Hm, Z.div_0_l by (apply Z.pow_nonzero; lia). done. }
  destruct q as [|q|q]; [done| |lia]. right. cbn [Zdigits2] in *. rewrite fexp_spec in *.
  destruct (decide (Zpos q = 2 ^ 53)) as [E|E].
  - change (2 ^ 53) with 9007199254740992 in E. injection E as ->.
    change (digits2_pos 9007199254740992) with 54%positive in *.
    replace (Z.max (Z.max (54 + e - 53) (-1074) - e) 0) with 1 in * by lia.
    change (9007199254740992 / 2 ^ 1) with 4503599627370496 in Hm. rewrite Hm.
    exists 4503599627370496%positive, (e + 1). split; [done|]. split.
    + split_and!; [lia|done|done].
    + rewrite scale_add by lia. change (2 ^ 1) with 2. lia.
  - pose proof (digits_le q 53 ltac:(lia) ltac:(lia)).
    replace (Z.max _ 0) with 0 in * by lia. rewrite Z.div_1_r in Hm. rewrite Hm, Z.add_0_r.
    exists q, e. split; [done|]. split; [|done]. split_and!; [lia|lia|done].
Qed.

(** A mantissa and exponent that rounding does not have to extend. *)
Definition fitting (m : positive) (e : Z) : Prop :=
  -3000 ≤ e ∧ e ≤ Z.max (Zpos (digits2_pos m) + e - 53) (-1074).

Lemma binary_round_aux_spec m e :
  fitting m e → let e1 := Z.max (Zpos (digits2_pos m) + e - 53) (-1074) in
  ∃ q, rounds (Zpos m) (e1 - e) q ∧ (-1074 < e1 → 2 ^ 52 ≤ q) ∧ packed q e1 (binary_round_aux 53 1024 false (Zpos m) e loc_Exact).
Proof.
  intros [He Hf] e1. unfold binary_round_aux. rewrite (surjective_pairing (shr_fexp _ _ (Zpos m) _ _)).
  unfold shr_fexp at 2 3 4. cbn [shr_record_of_loc Zdigits2]. rewrite fexp_spec. fold e1.
  pose proof (shr_exact_spec (Zpos m) e (e1 - e) ltac:(lia)) as H.
  destruct (shr _ e (e1 - e)) as [r e'] eqn:Er. destruct H as (-> & Hm & Hx). cbn [fst snd].
  rewrite Z.max_l in * by lia. replace (e + (e1 - e)) with e1 by lia.
  pose proof (round_nearest_spec r) as [Hr Hre].
  set (q := round_nearest_even _ _) in *. clearbody q. exists q.
  assert (Hp : 0 < 2 ^ (e1 - e)) by (apply Z.pow_pos_nonneg; lia).
  assert (Hq : rounds (Zpos m) (e1 - e) q).
  { unfold rounds. rewrite <- Hm. split; [lia|]. intros E. apply Hre. rewrite Hx. by apply Z.eqb_eq. }
  assert (Hlow : -1074 < e1 → 2 ^ 52 ≤ q).
  { intros H1. rewrite Hm in Hr. enough (2 ^ 52 ≤ Zpos m / 2 ^ (e1 - e)) by lia.
    apply Z.div_le_lower_bound; [lia|]. rewrite <- Z.pow_add_r by lia.
    etrans; [|apply digits_bounds]. apply Z.pow_le_mono_r; lia. }
  split; [done|]. split; [done|]. apply repack; [lia| |done].
  rewrite Hm in Hr. pose proof (Z.div_pos (Zpos m) _ ltac:(lia) Hp).
  enough (Zpos m / 2 ^ (e1 - e) < 2 ^ 53) by lia. apply Z.div_lt_upper_bound; [lia|].
  rewrite <- Z.pow_add_r by lia. eapply Z.lt_le_trans; [apply digits_bounds|].
  apply Z.pow_le_mono_r; lia.
Qed.

(** A float whose exponent is not below the unit [e1] is a multiple of it. *)
Lemma unit_multiple mt et e e1 :
  -3000 ≤ e ≤ e1 → e1 ≤ et →
  Zpos mt * scale et = Zpos mt * 2 ^ (et - e) * scale e ∧ (Zpos mt * 2 ^ (et - e)) mod 2 ^ (e1 - e) = 0.
Proof.
  intros He Ht. split.
  - replace et with (e + (et - e)) at 1 by lia. rewrite scale_add by lia. lia.
  - replace (et - e) with ((et - e1) + (e1 - e)) by lia. rewrite Z.pow_add_r, Z.mul_assoc by lia.
    apply Z.mod_mul. apply Z.pow_nonzero; lia.
Qed.

(** A value whose unit is [e1] above the minimal one is at least [2^52] units; a float
    with a smaller exponent is below it. *)
Lemma below_unit mt et e1 : canonical mt et → et < e1 → Zpos mt * scale et < 2 ^ 52 * scale e1.
Proof.
  intros (H1 & Hm & _) He. replace e1 with (et + 1 + (e1 - et - 1)) by lia.
  rewrite scale_add by lia. rewrite scale_add by lia.
  pose proof (scale_pos et ltac:(lia)). pose proof (Z.pow_pos_nonneg 2 (e1 - et - 1) ltac:(lia) ltac:(lia)).
  change (2 ^ 1) with 2. set (k := 2 ^ (e1 - et - 1)) in *. set (s := scale et) in *. clearbody k s.
  change (2 ^ 53) with (2 * 2 ^ 52) in Hm. set (w := 2 ^ 52) in *.
  assert (0 < w) by done. clearbody w. assert (Zpos mt * s < 2 * w * s) by nia.
  assert (w * s ≤ w * s * k) by nia. nia.
Qed.

Section rounding.
Context (m : positive) (e : Z) (mt : positive) (et : Z).
Context (Hfit : fitting m e) (Ht : canonical mt et).
Local Abbreviation rounded := (binary_round_aux 53 1024 false (Zpos m) e loc_Exact).

Lemma rescale a b n : -3000 ≤ e → 0 ≤ n → a * 2 ^ n ≤ b → a * scale (e + n) ≤ b * scale e.
Proof. intros. rewrite scale_add by lia. pose proof (scale_pos e ltac:(lia)). nia. Qed.

Lemma round_below :
  et ≤ 971 → Zpos m * scale e ≤ Zpos mt * scale et →
  fleb rounded (S754_finite false mt et) = true.
Proof.
  intros Hmax Hle. destruct (binary_round_aux_spec m e Hfit) as (q & Hr & Hlow & Hp).
  destruct Hfit as [He Hf]. set (e1 := Z.max _ _) in *. pose proof (scale_pos e He) as Hs.
  destruct Hp as [[_ ->]|(m' & e' & -> & Hc & Hv)]; [done|].
  assert (Hq : q * scale e1 ≤ Zpos mt * scale et).
  { destruct (decide (e1 ≤ et)) as [H1|H1].
    - destruct (unit_multiple mt et e e1 ltac:(lia) H1) as [E Hm]. rewrite E in Hle |- *.
      apply Z.mul_le_mono_pos_r in Hle; [|done].
      pose proof (rounds_le _ (e1 - e) _ _ ltac:(lia) Hr Hm Hle) as Hq.
      pose proof (rescale _ _ (e1 - e) He ltac:(lia) Hq) as Hq'.
      by replace (e + (e1 - e)) with e1 in Hq' by lia.
    - pose proof (below_unit mt et e1 Ht ltac:(lia)) as Hb. exfalso.
      destruct (digits_bounds m) as [Hd _]. destruct Ht as [Ht1 _].
      replace (Zpos (digits2_pos m) - 1) with (52 + (e1 - e)) in Hd by lia.
      rewrite Z.pow_add_r in Hd by lia. replace e1 with (e + (e1 - e)) in Hb at 1 by lia.
      rewrite scale_add in Hb by lia. nia. }
  assert (e' ≤ et) as Hee.
  { destruct (decide (e' ≤ et)) as [|Hn]; [done|]. pose proof (canonical_lt _ _ _ _ Ht Hc ltac:(lia)). lia. }
  rewrite (proj2 (Z.leb_le e' 971)) by lia. apply canonical_fleb; [done..|lia].
Qed.

Lemma round_above :
  Zpos mt * scale et ≤ Zpos m * scale e → fleb (S754_finite false mt et) rounded = true.
Proof.
  intros Hle. destruct (binary_round_aux_spec m e Hfit) as (q & Hr & Hlow & Hp).
  destruct Hfit as [He Hf]. set (e1 := Z.max _ _) in *. pose proof (scale_pos e He) as Hs.
  assert (Hq : Zpos mt * scale et ≤ q * scale e1).
  { destruct (decide (e1 ≤ et)) as [H1|H1].
    - destruct (unit_multiple mt et e e1 ltac:(lia) H1) as [E Hm]. rewrite E in Hle |- *.
      apply Z.mul_le_mono_pos_r in Hle; [|done].
      pose proof (rounds_ge _ (e1 - e) _ _ ltac:(lia) Hr Hm Hle) as Hq.
      replace e1 with (e + (e1 - e)) by lia. rewrite scale_add by lia. nia.
    - pose proof (below_unit mt et e1 Ht ltac:(lia)) as Hb. destruct Ht as [Ht1 _].
      pose proof (scale_pos e1 ltac:(lia)). specialize (Hlow ltac:(lia)). nia. }
  destruct Hp as [[-> _]|(m' & e' & -> & Hc & Hv)].
  { pose proof (scale_pos et ltac:(destruct Ht; lia)). lia. }
  destruct (Z.leb_spec e' 971); [|done]. apply canonical_fleb; [done..|lia].
Qed.
End rounding.

(** ** The floats of the unit interval *)

(** A binary64 float. *)
Definition binary64 (x : float) : bool := valid_binary 53 1024 x.

Lemma bounded_iff m e : bounded 53 1024 m e = true ↔ canonical m e ∧ e ≤ 971.
Proof. unfold bounded. by rewrite andb_true_iff, canonical_iff, Z.leb_le. Qed.

Lemma packed_binary64 q e x : packed q e x → binary64 x = true ∧ nonneg x = true.
Proof.
  intros [[_ ->]|(m & e' & -> & Hc & _)]; [done|]. destruct (Z.leb_spec e' 971); [|done].
  split; [|done]. by apply bounded_iff.
Qed.

(** A binary64 float that is finite and not negative. *)
Definition magnitude (x : float) : bool := binary64 x && nonneg x && negb (is_inf x).
(** A binary64 float between zero and one. *)
Definition fraction (x : float) : bool := binary64 x && nonneg x && fleb x one.

Inductive magnitude_spec : float → Prop :=
  | magnitude_zero s : magnitude_spec (S754_zero s)
  | magnitude_finite m e : canonical m e → e ≤ 971 → magnitude_spec (S754_finite false m e).

Lemma magnitudeP x : magnitude x = true ↔ magnitude_spec x.
Proof.
  unfold magnitude. rewrite !andb_true_iff, negb_true_iff. split.
  - intros [[Hb Hn] Hi]. destruct x as [s|[]| |[] m e]; try done; [constructor|].
    apply bounded_iff in Hb as []. by constructor.
  - intros []; split_and!; try done. by apply bounded_iff.
Qed.

Lemma one_value : one = S754_finite false 4503599627370496 (-52).
Proof. reflexivity. Qed.
Lemma one_canonical : canonical 4503599627370496 (-52).
Proof. split_and!; [lia|done..]. Qed.
Lemma one_scale : 4503599627370496 * scale (-52) = scale 0.
Proof. change 0 with (-52 + 52). rewrite scale_add by lia. done. Qed.

Lemma fraction_magnitude x : fraction x = true → magnitude x = true.
Proof.
  unfold fraction, magnitude. rewrite !andb_true_iff. intros [[? ?] Hx]. split_and!; try done.
  by destruct x as [|[]| |].
Qed.
Lemma fraction_value m e : fraction (S754_finite false m e) = true → Zpos m * scale e ≤ scale 0.
Proof.
  unfold fraction. rewrite !andb_true_iff. intros [[Hb _] Hx]. apply bounded_iff in Hb as [Hc _].
  rewrite one_value in Hx. apply canonical_fleb in Hx; [|done|apply one_canonical].
  by rewrite one_scale in Hx.
Qed.
Lemma fraction_not_nan x : fraction x = true → is_nan x = false.
Proof. unfold fraction. rewrite !andb_true_iff. intros [[_ ?%nonneg_not_nan] _]. done. Qed.

(** Below a fraction lies a fraction. *)
Lemma fraction_below x y :
  binary64 x = true → nonneg x = true → fleb x y = true → fraction y = true → fraction x = true.
Proof.
  intros Hb Hn Hle Hy. unfold fraction. rewrite Hb, Hn. cbn [andb].
  apply (fleb_trans x y one); [by apply nonneg_not_nan|by apply fraction_not_nan|done|done|].
  unfold fraction in Hy. rewrite !andb_true_iff in Hy. by destruct Hy as [_ ?].
Qed.

(** ** Products *)

Lemma mul_fitting m1 e1 m2 e2 : canonical m1 e1 → canonical m2 e2 → fitting (m1 * m2) (e1 + e2).
Proof.
  intros (H1 & _ & Hm1) (H2 & _ & Hm2). split; [lia|].
  destruct (decide (e1 + e2 ≤ -1074)); [lia|]. apply Z.max_le_iff. left.
  enough (53 ≤ Zpos (digits2_pos (m1 * m2))) by lia.
  apply (digits_ge _ 52); [lia|]. rewrite Pos2Z.inj_mul.
  destruct (decide (-1074 < e1)) as [H|H].
  - etrans; [exact (Hm1 H)|nia].
  - etrans; [apply Hm2; lia|nia].
Qed.
Lemma mul_scale e1 e2 : -1074 ≤ e1 → -1074 ≤ e2 → scale (e1 + e2) * scale 0 = scale e1 * scale e2.
Proof. intros. unfold scale. rewrite <- !Z.pow_add_r by lia. f_equal. lia. Qed.

Lemma fmul_comm x y : fmul x y = fmul y x.
Proof.
  unfold fmul, SFmul. destruct x, y; try done; rewrite ?(xorb_comm s s0); try done.
  by rewrite Pos.mul_comm, (Z.add_comm e).
Qed.

Lemma fmul_closed x y :
  magnitude x = true → magnitude y = true →
  binary64 (fmul x y) = true ∧ (nonneg (fmul x y) = true ∨ ∃ s, fmul x y = S754_zero s).
Proof.
  intros [s|m e Hc He]%magnitudeP [s'|m' e' Hc' He']%magnitudeP; cbn; eauto.
  destruct (binary_round_aux_spec _ _ (mul_fitting _ _ _ _ Hc Hc')) as (q & _ & _ & [? ?]%packed_binary64).
  by split; [|left].
Qed.

Lemma fmul_nonneg x y : magnitude x = true → magnitude y = true → nonneg (fmul x y) = true.
Proof. intros Hx Hy. destruct (fmul_closed x y Hx Hy) as [_ [?|[s ->]]]; done. Qed.

(** A fraction of a number is at most the number; a multiple is at least it. *)
Lemma fmul_below x y : magnitude x = true → fraction y = true → fleb (fmul x y) x = true.
Proof.
  intros Hx Hy. pose proof (fraction_magnitude y Hy) as Hy'. revert Hy.
  apply magnitudeP in Hx as [s|m e Hc He]; apply magnitudeP in Hy' as [s'|m' e' Hc' He']; try done.
  intros Hy%fraction_value. unfold fmul, SFmul. cbn [xorb].
  apply round_below; [by apply mul_fitting|done|done|].
  pose proof (mul_scale e e' ltac:(destruct Hc; lia) ltac:(destruct Hc'; lia)) as Hs.
  pose proof (scale_pos e ltac:(destruct Hc; lia)). pose proof (scale_pos 0 ltac:(lia)).
  rewrite Pos2Z.inj_mul. apply (Z.mul_le_mono_pos_r _ _ (scale 0)); [done|].
  replace (Zpos m * Zpos m' * scale (e + e') * scale 0)
    with (Zpos m * scale e * (Zpos m' * scale e')) by (rewrite <- !Z.mul_assoc, Hs; ring).
  apply Z.mul_le_mono_nonneg_l; nia.
Qed.

Lemma fmul_above x y : magnitude x = true → magnitude y = true → fleb one y = true → fleb x (fmul x y) = true.
Proof.
  intros Hx Hy. apply magnitudeP in Hx as [s|m e Hc He]; apply magnitudeP in Hy as [s'|m' e' Hc' He']; try done.
  intros Hle. rewrite one_value in Hle. apply canonical_fleb in Hle; [|apply one_canonical|done].
  rewrite one_scale in Hle. unfold fmul, SFmul. cbn [xorb].
  apply round_above; [by apply mul_fitting|done|].
  pose proof (mul_scale e e' ltac:(destruct Hc; lia) ltac:(destruct Hc'; lia)) as Hs.
  pose proof (scale_pos e ltac:(destruct Hc; lia)). pose proof (scale_pos 0 ltac:(lia)).
  rewrite Pos2Z.inj_mul. apply (Z.mul_le_mono_pos_r _ _ (scale 0)); [done|].
  replace (Zpos m * Zpos m' * scale (e + e') * scale 0)
    with (Zpos m * scale e * (Zpos m' * scale e')) by (rewrite <- !Z.mul_assoc, Hs; ring).
  apply Z.mul_le_mono_nonneg_l; nia.
Qed.

(** ** Sums and differences *)

Lemma scale_multiple m e1 e2 : -3000 ≤ e1 ≤ e2 → m * scale e2 = m * 2 ^ (e2 - e1) * scale e1.
Proof. intros. replace e2 with (e1 + (e2 - e1)) at 1 by lia. rewrite scale_add by lia. lia. Qed.

Lemma iter_xO p d : Zpos (Pos.iter xO p d) = Zpos p * 2 ^ Zpos d.
Proof.
  rewrite Pos2Nat.inj_iter, <- (positive_nat_Z d). induction (Pos.to_nat d) as [|n IH]; [cbn; lia|].
  cbn [nat_rect]. rewrite Pos2Z.inj_xO, IH, Nat2Z.inj_succ, Z.pow_succ_r by lia. lia.
Qed.

Lemma shl_align_spec m e e1 :
  let '(m', e') := shl_align m e e1 in
  e' = Z.min e e1 ∧ Zpos m' = Zpos m * 2 ^ (e - Z.min e e1).
Proof.
  unfold shl_align. destruct (Z.sub e1 e) as [|d|d] eqn:E.
  - split; [lia|]. replace (e - Z.min e e1) with 0 by lia. lia.
  - split; [lia|]. replace (e - Z.min e e1) with 0 by lia. lia.
  - split; [lia|]. rewrite iter_xO. do 2 f_equal. lia.
Qed.

Lemma digits_shift p p' k :
  0 ≤ k → Zpos p' = Zpos p * 2 ^ k → Zpos (digits2_pos p') = Zpos (digits2_pos p) + k.
Proof. intros Hk E. rewrite !digits_log2, E, Z.log2_mul_pow2 by lia. lia. Qed.

Lemma binary_round_spec m e :
  -3000 ≤ e → ∃ m' e', binary_round 53 1024 false m e = binary_round_aux 53 1024 false (Zpos m') e' loc_Exact ∧
    fitting m' e' ∧ Zpos m' * scale e' = Zpos m * scale e.
Proof.
  intros He. unfold binary_round. rewrite fexp_spec.
  pose proof (shl_align_spec m e (Z.max (Zpos (digits2_pos m) + e - 53) (-1074))) as H.
  destruct (shl_align _ _ _) as [m' e']. destruct H as [-> Hm].
  set (f := Z.max _ _) in *. exists m', (Z.min e f). split; [done|].
  pose proof (digits_shift m m' (e - Z.min e f) ltac:(lia) Hm). split; [split; lia|].
  rewrite Hm, <- (scale_multiple _ (Z.min e f) e) by lia. done.
Qed.

(** The exact sum or difference of two canonical floats, on their common exponent. *)
Lemma align_value m e e1 :
  -1074 ≤ e1 ≤ e → Zpos (fst (shl_align m e e1)) * scale e1 = Zpos m * scale e.
Proof.
  intros He. pose proof (shl_align_spec m e e1) as H. destruct (shl_align m e e1) as [m' e'].
  destruct H as [_ Hm]. cbn [fst]. rewrite Hm, Z.min_r by lia. symmetry. apply scale_multiple. lia.
Qed.

Lemma fadd_finite m1 e1 m2 e2 :
  canonical m1 e1 → canonical m2 e2 →
  ∃ m e, fadd (S754_finite false m1 e1) (S754_finite false m2 e2) =
      binary_round_aux 53 1024 false (Zpos m) e loc_Exact ∧
    fitting m e ∧ Zpos m * scale e = Zpos m1 * scale e1 + Zpos m2 * scale e2.
Proof.
  intros [H1 _] [H2 _]. unfold fadd, SFadd. cbn [cond_Zopp].
  set (e := Z.min e1 e2). rewrite <- Pos2Z.inj_add. cbn [binary_normalize].
  destruct (binary_round_spec (fst (shl_align m1 e1 e) + fst (shl_align m2 e2 e)) e ltac:(lia))
    as (m' & e' & -> & Hf & Hv).
  exists m', e'. split; [done|]. split; [done|].
  rewrite Hv, Pos2Z.inj_add, Z.mul_add_distr_r, !align_value by lia. done.
Qed.

Lemma fadd_closed x y :
  magnitude x = true → magnitude y = true → binary64 (fadd x y) = true ∧ nonneg (fadd x y) = true.
Proof.
  intros [s|m e Hc He]%magnitudeP [s'|m' e' Hc' He']%magnitudeP.
  - by destruct s, s'.
  - split; [by apply bounded_iff|done].
  - split; [by apply bounded_iff|done].
  - destruct (fadd_finite m e m' e' Hc Hc') as (m1 & e1 & -> & Hf & _).
    destruct (binary_round_aux_spec m1 e1 Hf) as (q & _ & _ & Hp). by eapply packed_binary64.
Qed.

Lemma fadd_above x y : magnitude x = true → magnitude y = true → fleb x (fadd x y) = true.
Proof.
  intros Hx Hy. pose proof (fadd_closed x y Hx Hy) as [_ Hn%nonneg_not_nan]. revert Hn.
  apply magnitudeP in Hx as [s|m e Hc He]; apply magnitudeP in Hy as [s'|m' e' Hc' He'].
  - by destruct s, s'.
  - done.
  - intros _. apply fleb_refl. done.
  - destruct (fadd_finite m e m' e' Hc Hc') as (m1 & e1 & -> & Hf & Hv). intros _.
    apply round_above; [done|done|]. rewrite Hv.
    pose proof (scale_pos e' ltac:(destruct Hc'; lia)). lia.
Qed.

(** [1 - x] of a fraction is a fraction. *)
Lemma fsub_fraction x : fraction x = true → fraction (fsub one x) = true.
Proof.
  intros Hx. pose proof (fraction_magnitude x Hx) as Hm. revert Hx.
  apply magnitudeP in Hm as [s|m e Hc He]; [done|]. intros Hx%fraction_value.
  rewrite one_value. unfold fsub, SFsub. cbn [cond_Zopp]. set (f := Z.min (-52) e).
  assert (Hf : -1074 ≤ f ≤ -52 ∧ f ≤ e) by (destruct Hc; lia).
  pose proof (align_value 4503599627370496 (-52) f ltac:(lia)) as H1.
  pose proof (align_value m e f ltac:(lia)) as H2. rewrite one_scale in H1.
  set (a := fst _) in *. set (b := fst (shl_align m e f)) in *. clearbody a b.
  pose proof (scale_pos f ltac:(lia)) as Hs. pose proof (scale_pos e ltac:(lia)).
  unfold binary_normalize.
  destruct (Zpos a - Zpos b) as [|p|p] eqn:Ep; [done| |nia].
  destruct (binary_round_spec p f ltac:(lia)) as (m' & e' & -> & Hfit & Hv).
  destruct (binary_round_aux_spec m' e' Hfit) as (q & _ & _ & [Hb Hn]%packed_binary64).
  unfold fraction. rewrite Hb, Hn. cbn [andb].
  rewrite one_value. apply round_below; [done|apply one_canonical|lia|]. rewrite one_scale, Hv. nia.
Qed.

(** ** Closure of the operations *)

(** A binary64 float that is not negative, possibly infinite. *)
Definition plain (x : float) : bool := binary64 x && nonneg x.

Lemma magnitude_plain x : magnitude x = true → plain x = true.
Proof. unfold magnitude, plain. by intros [-> _]%andb_true_iff. Qed.
Lemma plain_magnitude x : plain x = true → is_inf x = false → magnitude x = true.
Proof. unfold magnitude, plain. by intros -> ->. Qed.
Lemma fraction_plain x : fraction x = true → plain x = true.
Proof. intros. by apply magnitude_plain, fraction_magnitude. Qed.
Lemma plain_not_nan x : plain x = true → is_nan x = false.
Proof. by intros [_ ?%nonneg_not_nan]%andb_true_iff. Qed.

(** What [Field(ge=0, le=1)] lets through. *)
Lemma fraction_between x : binary64 x = true → fleb zero x = true → fleb x one = true → fraction x = true.
Proof.
  intros Hb H0 H1. unfold fraction. rewrite Hb, H1. by destruct x as [|[]| |[]].
Qed.

Lemma fadd_plain x y : plain x = true → plain y = true → plain (fadd x y) = true.
Proof.
  intros Hx Hy. destruct (is_inf x) eqn:Ex.
  { destruct x as [|[]| |]; try done. by destruct y as [|[]| |]. }
  destruct (is_inf y) eqn:Ey.
  { destruct y as [|[]| |]; try done. by destruct x as [|[]| |]. }
  destruct (fadd_closed x y) as [Hb Hn]; [by apply plain_magnitude..|].
  unfold plain. by rewrite Hb, Hn.
Qed.

Lemma fmin_fraction x y : plain x = true → fraction y = true → fraction (fmin x y) = true ∧ fraction (fmin y x) = true.
Proof.
  intros Hx Hy. pose proof (plain_not_nan x Hx) as Hnx. pose proof (fraction_not_nan y Hy) as Hny.
  apply andb_true_iff in Hx as [Hb Hn].
  split; unfold fmin.
  - destruct (fltb y x) eqn:E; [done|]. apply (fraction_below x y); try done. by rewrite fleb_fltb, E.
  - destruct (fltb x y) eqn:E; [|done]. apply (fraction_below x y); try done. by apply fltb_fleb.
Qed.

Lemma fmul_fraction x y : fraction x = true → fraction y = true → fraction (fmul x y) = true.
Proof.
  intros Hx Hy. pose proof (fraction_magnitude x Hx) as Hx'. pose proof (fraction_magnitude y Hy) as Hy'.
  apply (fraction_below _ x); [by apply fmul_closed|by apply fmul_nonneg|by apply fmul_below|done].
Qed.

(** A fraction of a finite number is finite. *)
Lemma fmul_magnitude x y : magnitude x = true → fraction y = true → magnitude (fmul x y) = true.
Proof.
  intros Hx Hy. pose proof (fraction_magnitude y Hy) as Hy'.
  pose proof (fmul_below x y Hx Hy) as Hle. pose proof (fmul_nonneg x y Hx Hy') as Hn.
  destruct (fmul_closed x y Hx Hy') as [Hb _]. apply plain_magnitude; [unfold plain; by rewrite Hb, Hn|].
  revert Hle Hn. generalize (fmul x y). apply magnitudeP in Hx. by destruct Hx; intros [|[]| |].
Qed.

Definition two : float := float_of_Z 2.

(** [1 + x] is finite when [x] is at most two. *)
Lemma fadd_one_magnitude x : magnitude x = true → fleb x two = true → magnitude (fadd one x) = true.
Proof.
  intros Hx Hle. assert (H1 : magnitude one = true) by done.
  destruct (fadd_closed one x H1 Hx) as [Hb Hn]. apply plain_magnitude; [unfold plain; by rewrite Hb, Hn|].
  revert Hle Hn. apply magnitudeP in Hx as [s|m e Hc He]; [done|]. intros Hle Hn.
  change two with (S754_finite false 4503599627370496 (-51)) in Hle.
  apply canonical_fleb in Hle; [|done|split_and!; [lia|done..]]. rewrite one_value in Hn |- *.
  destruct (fadd_finite _ _ m e one_canonical Hc) as (m' & e' & E & Hf & Hv).
  rewrite E. pose proof (round_below m' e' 6755399441055744 (-51) Hf) as Hr.
  assert (fleb (binary_round_aux 53 1024 false (Zpos m') e' loc_Exact)
            (S754_finite false 6755399441055744 (-51)) = true) as Hfin.
  { apply Hr; [split_and!; [lia|done..]|lia|]. rewrite Hv.
    replace (scale (-51)) with (2 * scale (-52)) in * by (change (-51) with (-52 + 1); rewrite scale_add by lia; done).
    pose proof (scale_pos (-52) ltac:(lia)). lia. }
  rewrite E in Hn. revert Hfin Hn. generalize (binary_round_aux 53 1024 false (Zpos m') e' loc_Exact).
  by intros [|[]| |].
Qed.
