(* ===== verification/PyTime.v ===== *)
(** * Python dates and instants

    A [datetime] is an instant, in microseconds since 1970-01-01T00:00Z, which
    is the resolution of Python's [datetime]; the code converts every value to
    UTC ([_as_utc], [_aware]) before it compares or stores it, so a time zone is
    carried only where the source computes with local time.  A [date] is its
    proleptic Gregorian ordinal (0001-01-01 is day 1), as [date.toordinal]
    numbers it.  Arithmetic that leaves the years 1 to 9999 raises
    [OverflowError]. *)

From Stdlib Require Import Ascii.
From S2P Require Import Prelude PyFloat.
Local Open Scope Z_scope.

Abbreviation datetime := Z.
Abbreviation date := Z.

Definition us_per_second : Z := 1000000.
Definition us_per_day : Z := 86400 * us_per_second.

(** ** The proleptic Gregorian calendar *)

Definition is_leap (y : Z) : bool :=
  (y mod 4 =? 0) && (negb (y mod 100 =? 0) || (y mod 400 =? 0)).

Definition days_in_month (y m : Z) : Z :=
  match m with
  | 2 => if is_leap y then 29 else 28
  | 4 | 6 | 9 | 11 => 30
  | _ => 31
  end.

Definition days_before_year (y : Z) : Z :=
  let z := y - 1 in z * 365 + z / 4 - z / 100 + z / 400.

Definition days_before_month (y m : Z) : Z :=
  let plain := match m with
    | 1 => 0 | 2 => 31 | 3 => 59 | 4 => 90 | 5 => 120 | 6 => 151
    | 7 => 181 | 8 => 212 | 9 => 243 | 10 => 273 | 11 => 304 | _ => 334
    end in
  plain + (if (2 <? m) && is_leap y then 1 else 0).

Definition ymd2ord (y m d : Z) : date := days_before_year y + days_before_month y m + d.

(** [date.fromordinal], by whole cycles of 400, 100, 4 and 1 years. *)
Definition ord2ymd (o : date) : Z * Z * Z :=
  let n := o - 1 in
  let n400 := n / 146097 in let n := n mod 146097 in
  let n100 := n / 36524 in let n := n mod 36524 in
  let n4 := n / 1461 in let n := n mod 1461 in
  let n1 := n / 365 in let n := n mod 365 in
  let y := n400 * 400 + 1 + n100 * 100 + n4 * 4 + n1 in
  if (n1 =? 4) || (n100 =? 4) then (y - 1, 12, 31)
  else
    let m := (n + 50) / 32 in
    let m := if n <? days_before_month y m then m - 1 else m in
    (y, m, n - days_before_month y m + 1).

Definition epoch_ordinal : date := 719163.
Definition max_ordinal : date := 3652059.

Definition date_of (t : datetime) : date := t / us_per_day + epoch_ordinal.

(** ** Arithmetic *)

Definition in_range (t : datetime) : bool :=
  (1 <=? date_of t) && (date_of t <=? max_ordinal).

(** [t + timedelta(microseconds=us)]. *)
Definition add_us (t : datetime) (us : Z) : Res datetime :=
  if in_range (t + us) then Ok (t + us) else Err (Py OverflowError).

(** [date + timedelta(days=n)]. *)
Definition add_days (d : date) (n : Z) : Res date :=
  if (1 <=? d + n) && (d + n <=? max_ordinal) then Ok (d + n) else Err (Py OverflowError).

(** [timedelta(seconds=n)] for an integer; its length is bounded by 999999999 days. *)
Definition seconds (n : Z) : Z := n * us_per_second.

(** [timedelta(seconds=x)] for a float: the integral part is exact and the
    fractional part, scaled in floating point, is rounded half to even. *)
Definition timedelta_seconds (x : float) : Res Z :=
  match x with
  | S754_nan => Err (Py ValueError)
  | S754_infinity _ => Err (Py OverflowError)
  | S754_zero _ => Ok 0
  | S754_finite s _ _ =>
      let '(a, b) := as_fraction x in
      let whole := Z.quot a b in
      let frac := fmul (int_truediv (Z.rem a b) b) (float_of_Z us_per_second) in
      let '(fa, fb) := as_fraction frac in
      let us := whole * us_per_second + round_half_even fa fb in
      if Z.abs (us / us_per_day) <=? 999999999 then Ok us else Err (Py OverflowError)
  end.

Example timedelta_example : timedelta_seconds (dec 15 1) = Ok 1500000.
Proof. vm_compute. reflexivity. Qed.

(** ** ISO 8601 text *)

(** [n] in decimal, zero-padded to [width] digits. *)
Definition padded (width : nat) (n : Z) : string :=
  let text := pretty n in
  Nat.iter (width - String.length text) (String "0"%char) text.

Definition date_isoformat (d : date) : string :=
  let '(y, m, dd) := ord2ymd d in
  padded 4 y +:+ "-" +:+ padded 2 m +:+ "-" +:+ padded 2 dd.

(** [datetime.isoformat] of an instant in UTC. *)
Definition isoformat (t : datetime) : string :=
  let us := t mod us_per_day in
  let s := us / us_per_second in
  let frac := us mod us_per_second in
  date_isoformat (date_of t) +:+ "T" +:+
  padded 2 (s / 3600) +:+ ":" +:+ padded 2 (s / 60 mod 60) +:+ ":" +:+ padded 2 (s mod 60) +:+
  (if frac =? 0 then "" else "." +:+ padded 6 frac) +:+ "+00:00".

Example isoformat_example :
  isoformat 1786000000500000 = "2026-08-06T07:06:40.500000+00:00".
Proof. vm_compute. reflexivity. Qed.

Example ord2ymd_examples :
  map ord2ymd [1; 719163; 730179; 3652059] =
    [(1, 1, 1); (1970, 1, 1); (2000, 2, 29); (9999, 12, 31)].
Proof. vm_compute. reflexivity. Qed.
