(* ===== verification/PyCalendar.v ===== *)
(** * Python dates: the calendar

    [date.fromordinal] and [date.toordinal] are inverse on every year, and the
    months follow each other: what the periods of a schedule are computed with. *)

From S2P Require Import Prelude PyFloat PyTime.
Local Open Scope Z_scope.

(** A day of the calendar. *)
Definition is_day (y m d : Z) : Prop := 1 ≤ m ≤ 12 ∧ 1 ≤ d ≤ days_in_month y m.

Definition year_length (y : Z) : Z := if is_leap y then 366 else 365.

Lemma month_cases (P : Z → Prop) m :
  1 ≤ m ≤ 12 → P 1 → P 2 → P 3 → P 4 → P 5 → P 6 → P 7 → P 8 → P 9 → P 10 → P 11 → P 12 → P m.
Proof.
  intros Hm. assert (m = 1 ∨ m = 2 ∨ m = 3 ∨ m = 4 ∨ m = 5 ∨ m = 6 ∨ m = 7 ∨ m = 8 ∨ m = 9 ∨ m = 10 ∨
    m = 11 ∨ m = 12) by lia. naive_solver.
Qed.

(** The days of a year before a month, and those of the month, end within the year. *)
Lemma day_of_year_bounds y m d :
  is_day y m d → 0 ≤ days_before_month y m + d - 1 < year_length y.
Proof.
  intros [Hm Hd]. revert Hd. unfold days_before_month, days_in_month, year_length.
  pattern m. apply month_cases; [done|..]; cbv beta; simpl; destruct (is_leap y); cbn; lia.
Qed.

Definition month_before (leap : bool) (m : Z) : Z :=
  (match m with
   | 1 => 0 | 2 => 31 | 3 => 59 | 4 => 90 | 5 => 120 | 6 => 151
   | 7 => 181 | 8 => 212 | 9 => 243 | 10 => 273 | 11 => 304 | _ => 334
   end) + (if (2 <? m) && leap then 1 else 0).
(** The month and the day a day of the year falls in. *)
Definition month_of (leap : bool) (r : Z) : Z * Z :=
  let m := (r + 50) / 32 in
  let m := if r <? month_before leap m then m - 1 else m in (m, r - month_before leap m + 1).

Definition month_length (leap : bool) (m : Z) : Z :=
  match m with 2 => if leap then 29 else 28 | 4 | 6 | 9 | 11 => 30 | _ => 31 end.

Definition month_of_ok (leap : bool) (r : Z) : bool :=
  let '(m, d) := month_of leap r in
  (1 <=? m) && (m <=? 12) && (1 <=? d) && (d <=? month_length leap m).

Lemma month_of_year_ok :
  forallb (λ r, (if r <? 365 then month_of_ok false r else true) && month_of_ok true r)
    (seqZ 0 366) = true.
Proof. by vm_compute. Qed.

Lemma month_of_valid (leap : bool) r :
  0 ≤ r < (if leap then 366 else 365) → month_of_ok leap r = true.
Proof.
  intros Hr. pose proof month_of_year_ok as H. rewrite forallb_elem in H.
  specialize (H r ltac:(apply elem_of_seqZ; destruct leap; lia)). apply andb_true_iff in H as [H1 H2].
  destruct leap; [done|]. destruct (Z.ltb_spec r 365); [done|lia].
Qed.

(** The cycles of 400, 100, 4 and 1 years before a year. *)
Lemma days_before_cycles a b c d :
  0 ≤ b ≤ 3 → 0 ≤ c ≤ 24 → 0 ≤ d ≤ 3 →
  days_before_year (400 * a + 100 * b + 4 * c + d + 1) = 146097 * a + 36524 * b + 1461 * c + 365 * d.
Proof. intros. unfold days_before_year. Z.to_euclidean_division_equations. lia. Qed.

Lemma leap_cycles a b c d :
  0 ≤ b ≤ 3 → 0 ≤ c ≤ 24 → 0 ≤ d ≤ 3 →
  is_leap (400 * a + 100 * b + 4 * c + d + 1) = (d =? 3) && (negb (c =? 24) || (b =? 3)).
Proof.
  intros. unfold is_leap.
  assert (H4 : (400 * a + 100 * b + 4 * c + d + 1) mod 4 = (d + 1) mod 4)
    by (Z.to_euclidean_division_equations; lia).
  rewrite H4.
  destruct (Z.eqb_spec ((d + 1) mod 4) 0), (Z.eqb_spec d 3); cbn [andb]; try done;
    try (exfalso; Z.to_euclidean_division_equations; lia).
  subst d. destruct (Z.eqb_spec c 24) as [->|Hc]; cbn [negb orb].
  - replace ((400 * a + 100 * b + 4 * 24 + 3 + 1) mod 100 =? 0) with true;
      [|symmetry; apply Z.eqb_eq; Z.to_euclidean_division_equations; lia].
    cbn [negb orb]. apply Bool.eq_iff_eq_true. rewrite !Z.eqb_eq. Z.to_euclidean_division_equations. lia.
  - replace ((400 * a + 100 * b + 4 * c + 3 + 1) mod 100 =? 0) with false; [done|].
    symmetry. apply Z.eqb_neq. Z.to_euclidean_division_equations. lia.
Qed.

(** Every year is such a sum, and every day of it. *)
Lemma year_cycles y : ∃ a b c d,
  0 ≤ b ≤ 3 ∧ 0 ≤ c ≤ 24 ∧ 0 ≤ d ≤ 3 ∧ y = 400 * a + 100 * b + 4 * c + d + 1.
Proof.
  exists ((y - 1) / 400), ((y - 1) mod 400 / 100), ((y - 1) mod 100 / 4), ((y - 1) mod 4).
  Z.to_euclidean_division_equations. lia.
Qed.

(** ** [fromordinal] and [toordinal] *)

Lemma div_mod_step n q a r : 0 ≤ r < q → n = q * a + r → n / q = a ∧ n mod q = r.
Proof. intros Hr ->. Z.to_euclidean_division_equations. nia. Qed.

(** The day [r] of the year [y]. *)
Lemma ord2ymd_year y r :
  0 ≤ r < year_length y →
  ord2ymd (days_before_year y + r + 1) = let '(m, d) := month_of (is_leap y) r in (y, m, d).
Proof.
  destruct (year_cycles y) as (a & b & c & d & Hb & Hc & Hd & ->).
  rewrite days_before_cycles by done. unfold year_length.
  set (y := 400 * a + 100 * b + 4 * c + d + 1). assert (Hleap : is_leap y = (d =? 3) && (negb (c =? 24) || (b =? 3)))
    by (by apply leap_cycles). intros Hr.
  unfold ord2ymd. set (n := 146097 * a + 36524 * b + 1461 * c + 365 * d + r + 1 - 1).
  assert (H400 : n / 146097 = a ∧ n mod 146097 = 36524 * b + 1461 * c + 365 * d + r)
    by (apply div_mod_step; destruct (is_leap y); lia).
  destruct H400 as [-> ->]. destruct (Z.eq_dec r 365) as [->|Hn].
  - assert (Hl : is_leap y = true) by (destruct (is_leap y); [done|lia]).
    rewrite Hl in Hleap |- *. symmetry in Hleap. apply andb_true_iff in Hleap as [->%Z.eqb_eq Hcb].
    apply orb_true_iff in Hcb. change (month_of true 365) with (12, 31). cbv iota beta.
    destruct (Z.eq_dec c 24) as [->|Hc24].
    + destruct Hcb as [H24| ->%Z.eqb_eq]; [done|]. change (36524 * 3 + 1461 * 24 + 365 * 3 + 365) with 146096.
      change (146096 / 36524) with 4. change (146096 mod 36524) with 0. change (0 / 1461) with 0.
      change (0 mod 1461) with 0. change (0 / 365) with 0. cbn [Z.eqb orb Pos.eqb]. f_equal. f_equal. subst y. lia.
    + destruct (div_mod_step (36524 * b + 1461 * c + 365 * 3 + 365) 36524 b (1461 * c + 1460)) as [-> ->]; [lia..|].
      destruct (div_mod_step (1461 * c + 1460) 1461 c 1460) as [-> ->]; [lia..|].
      change (1460 / 365) with 4. cbn [Z.eqb orb Pos.eqb]. f_equal. f_equal. subst y. lia.
  - assert (Hr' : r < 365) by (destruct (is_leap y); lia).
    destruct (div_mod_step (36524 * b + 1461 * c + 365 * d + r) 36524 b (1461 * c + 365 * d + r)) as [-> ->]; [lia..|].
    destruct (div_mod_step (1461 * c + 365 * d + r) 1461 c (365 * d + r)) as [-> ->]; [lia..|].
    destruct (div_mod_step (365 * d + r) 365 d r) as [-> ->]; [lia..|].
    replace (d =? 4) with false by lia. replace (b =? 4) with false by lia. cbn [orb].
    replace (a * 400 + 1 + b * 100 + c * 4 + d) with y by lia. done.
Qed.

Lemma month_of_inverses :
  forallb (λ leap, forallb (λ m, forallb (λ d,
    (month_length leap m <? d) || bool_decide (month_of leap (month_before leap m + d - 1) = (m, d)))
    (seqZ 1 31)) (seqZ 1 12)) [true; false] = true.
Proof. by vm_compute. Qed.

Lemma month_of_inverse y m d :
  is_day y m d → month_of (is_leap y) (days_before_month y m + d - 1) = (m, d).
Proof.
  intros [Hm Hd]. change (days_before_month y m) with (month_before (is_leap y) m).
  change (days_in_month y m) with (month_length (is_leap y) m) in Hd.
  pose proof month_of_inverses as H. rewrite forallb_elem in H.
  specialize (H (is_leap y) ltac:(destruct (is_leap y); [left|right; left])). rewrite forallb_elem in H.
  specialize (H m ltac:(apply elem_of_seqZ; lia)). rewrite forallb_elem in H.
  assert (month_length (is_leap y) m ≤ 31) by (pattern m; apply month_cases; [done|..]; destruct (is_leap y); done).
  specialize (H d ltac:(apply elem_of_seqZ; lia)). apply orb_true_iff in H as [H|H]; [lia|].
  by apply bool_decide_eq_true in H.
Qed.

Lemma ord2ymd_ymd2ord y m d : is_day y m d → ord2ymd (ymd2ord y m d) = (y, m, d).
Proof.
  intros Hd. unfold ymd2ord.
  replace (days_before_year y + days_before_month y m + d)
    with (days_before_year y + (days_before_month y m + d - 1) + 1) by lia.
  rewrite ord2ymd_year by (by apply day_of_year_bounds). by rewrite month_of_inverse.
Qed.

(** Every day is the day of a year. *)
Lemma year_of o : ∃ y r, 0 ≤ r < year_length y ∧ o = days_before_year y + r + 1.
Proof.
  set (n := o - 1). set (a := n / 146097). set (n1 := n mod 146097).
  destruct (decide (n1 = 146096)) as [E|E].
  { exists (400 * a + 100 * 3 + 4 * 24 + 3 + 1), 365. unfold year_length.
    rewrite leap_cycles, days_before_cycles by lia. cbn. subst a n1 n. Z.to_euclidean_division_equations. lia. }
  set (b := n1 / 36524). set (n2 := n1 mod 36524). set (c := n2 / 1461). set (n3 := n2 mod 1461).
  destruct (decide (n3 = 1460)) as [E'|E'].
  - exists (400 * a + 100 * b + 4 * c + 3 + 1), 365. unfold year_length.
    assert (0 ≤ b ≤ 3 ∧ 0 ≤ c ≤ 23) as [Hb Hc] by (subst a b c n1 n2 n3 n; Z.to_euclidean_division_equations; lia).
    rewrite leap_cycles, days_before_cycles by lia.
    replace (c =? 24) with false by lia. cbn. subst a b c n1 n2 n3 n. Z.to_euclidean_division_equations. lia.
  - exists (400 * a + 100 * b + 4 * c + n3 / 365 + 1), (n3 mod 365).
    assert (0 ≤ b ≤ 3 ∧ 0 ≤ c ≤ 24 ∧ 0 ≤ n3 / 365 ≤ 3) as (Hb & Hc & Hd)
      by (subst a b c n1 n2 n3 n; Z.to_euclidean_division_equations; lia).
    rewrite days_before_cycles by done. split.
    + unfold year_length. destruct (is_leap _); Z.to_euclidean_division_equations; lia.
    + subst a b c n1 n2 n3 n. Z.to_euclidean_division_equations. lia.
Qed.

Lemma ymd2ord_ord2ymd o : let '(y, m, d) := ord2ymd o in is_day y m d ∧ ymd2ord y m d = o.
Proof.
  destruct (year_of o) as (y & r & Hr & ->). rewrite ord2ymd_year by done.
  pose proof (month_of_valid (is_leap y) r Hr) as Hv. unfold month_of_ok in Hv.
  destruct (month_of (is_leap y) r) as [m d] eqn:E. rewrite !andb_true_iff, !Z.leb_le in Hv.
  destruct Hv as [[[? ?] ?] ?]. split; [by split|].
  unfold month_of in E. injection E as Em Ed. unfold ymd2ord.
  change (days_before_month y m) with (month_before (is_leap y) m). rewrite Em in Ed. lia.
Qed.

(** ** Months *)

(** The months are counted from the year 0; the first day of one, and that of a day. *)
Definition month_start (i : Z) : date := ymd2ord (i / 12) (i mod 12 + 1) 1.
Definition month_index (o : date) : Z := let '(y, m, _) := ord2ymd o in 12 * y + m - 1.

Lemma next_year y : days_before_year (y + 1) = days_before_year y + year_length y.
Proof.
  unfold days_before_year, year_length, is_leap.
  destruct (Z.eqb_spec (y mod 4) 0), (Z.eqb_spec (y mod 100) 0), (Z.eqb_spec (y mod 400) 0); cbn;
    Z.to_euclidean_division_equations; lia.
Qed.

Lemma next_month y m :
  1 ≤ m ≤ 12 →
  ymd2ord y m (days_in_month y m) + 1 = if m =? 12 then ymd2ord (y + 1) 1 1 else ymd2ord y (m + 1) 1.
Proof.
  intros Hm. unfold ymd2ord. rewrite next_year. unfold year_length, days_before_month, days_in_month.
  generalize (days_before_year y). intros k.
  pattern m. apply month_cases; [done|..]; cbv beta; destruct (is_leap y); simpl; lia.
Qed.

Lemma month_start_next i :
  month_start (i + 1) = ymd2ord (i / 12) (i mod 12 + 1) (days_in_month (i / 12) (i mod 12 + 1)) + 1.
Proof.
  rewrite next_month by (Z.to_euclidean_division_equations; lia). unfold month_start.
  destruct (Z.eqb_spec (i mod 12 + 1) 12) as [E|E].
  - assert ((i + 1) / 12 = i / 12 + 1) as -> by (Z.to_euclidean_division_equations; lia).
    assert ((i + 1) mod 12 = 0) as -> by (Z.to_euclidean_division_equations; lia). done.
  - assert ((i + 1) / 12 = i / 12) as -> by (Z.to_euclidean_division_equations; lia).
    assert ((i + 1) mod 12 = i mod 12 + 1) as -> by (Z.to_euclidean_division_equations; lia). done.
Qed.

Lemma days_in_month_pos y m : 1 ≤ m ≤ 12 → 28 ≤ days_in_month y m.
Proof.
  intros Hm. unfold days_in_month. pattern m. apply month_cases; [done|..]; cbv beta; destruct (is_leap y); cbn; lia.
Qed.

Lemma ord2ymd_month_start i : ord2ymd (month_start i) = (i / 12, i mod 12 + 1, 1).
Proof.
  assert (1 ≤ i mod 12 + 1 ≤ 12) by (Z.to_euclidean_division_equations; lia).
  apply ord2ymd_ymd2ord. split; [done|]. pose proof (days_in_month_pos (i / 12) (i mod 12 + 1)). lia.
Qed.

Lemma month_index_start i : month_index (month_start i) = i.
Proof. unfold month_index. rewrite ord2ymd_month_start. Z.to_euclidean_division_equations. lia. Qed.

(** A day in the terms of its month. *)
Lemma day_in_month o :
  let i := month_index o in
  ∃ d, ord2ymd o = (i / 12, i mod 12 + 1, d) ∧ 1 ≤ d ≤ days_in_month (i / 12) (i mod 12 + 1) ∧
    o = month_start i + d - 1 ∧ month_start (i + 1) = month_start i + days_in_month (i / 12) (i mod 12 + 1).
Proof.
  pose proof (ymd2ord_ord2ymd o) as H. unfold month_index. destruct (ord2ymd o) as [[y m] d].
  destruct H as [[Hm Hd] <-]. cbv zeta.
  assert ((12 * y + m - 1) / 12 = y) as Ey by (Z.to_euclidean_division_equations; lia).
  assert ((12 * y + m - 1) mod 12 + 1 = m) as Em by (Z.to_euclidean_division_equations; lia).
  exists d. rewrite month_start_next. unfold month_start. rewrite Ey, Em. split_and!; try done; unfold ymd2ord; lia.
Qed.

Lemma month_index_bounds o : month_start (month_index o) ≤ o < month_start (month_index o + 1).
Proof. destruct (day_in_month o) as (d & _ & Hd & E & E'). lia. Qed.

Lemma month_start_succ i : month_start i + 28 ≤ month_start (i + 1).
Proof.
  rewrite month_start_next. assert (1 ≤ i mod 12 + 1 ≤ 12) by (Z.to_euclidean_division_equations; lia).
  pose proof (days_in_month_pos (i / 12) (i mod 12 + 1)). unfold month_start, ymd2ord. lia.
Qed.

Lemma month_start_mono i j : i ≤ j → month_start i ≤ month_start j.
Proof.
  intros Hij. replace j with (i + Z.of_nat (Z.to_nat (j - i))) by lia.
  induction (Z.to_nat (j - i)) as [|n IH]; [by rewrite Z.add_0_r|].
  pose proof (month_start_succ (i + Z.of_nat n)). rewrite Nat2Z.inj_succ, <- Z.add_1_r, Z.add_assoc. lia.
Qed.

(** The month of a day is the one it lies in. *)
Lemma month_index_unique o i : month_start i ≤ o < month_start (i + 1) → month_index o = i.
Proof.
  intros Hi. pose proof (month_index_bounds o).
  destruct (Z.lt_trichotomy (month_index o) i) as [Hlt|[?|Hlt]]; [|done|].
  - pose proof (month_start_mono (month_index o + 1) i). lia.
  - pose proof (month_start_mono (i + 1) (month_index o)). lia.
Qed.
