(* ===== verification/Ledger.v ===== *)
(** * The audit ledger and the transactional outbox

    [AuditEventRepository] and [OutboxRepository.add] of db/repositories.py,
    over the rows of db/models/governance.py: the append-only event streams
    every component records into, and the outbox row written in the same
    transaction.  The identifiers [uuid4] draws and the wall clock are
    components of the state, so that a run is a function of its inputs. *)

From Stdlib Require Import Ascii.
From S2P Require Import Prelude PyFloat PyTime.
Local Open Scope Z_scope.

#[local] Set Warnings "-register-all".

(** ** Payload values *)

(** A Python value as it is put in a payload: JSON data, and instants before
    [_json_safe] turns them into text. *)
Inductive json :=
  | JNull
  | JBool (b : bool)
  | JInt (z : Z)
  | JFloat (f : float)
  | JStr (s : string)
  | JTime (t : datetime)
  | JList (l : list json)
  | JObj (fields : list (string * json)).

(** A dict with string keys, in insertion order. *)
Abbreviation dict := (list (string * json)).

Fixpoint dict_get (k : string) (d : dict) : option json :=
  match d with
  | [] => None
  | (k', v) :: d => if decide (k = k') then Some v else dict_get k d
  end.

(** [{**d, **extra}]: a key of [extra] replaces the value in place. *)
Fixpoint dict_set (k : string) (v : json) (d : dict) : dict :=
  match d with
  | [] => [(k, v)]
  | (k', v') :: d => if decide (k = k') then (k', v) :: d else (k', v') :: dict_set k v d
  end.
Definition dict_update (d extra : dict) : dict :=
  fold_left (λ d '(k, v), dict_set k v d) extra d.

#[global] Arguments dict_update : simpl never.

(** [Orchestrator._json_safe]; enumeration members are already their values. *)
Fixpoint json_safe (v : json) : json :=
  match v with
  | JTime t => JStr (isoformat t)
  | JObj fields => JObj (map (λ '(k, x), (k, json_safe x)) fields)
  | JList l => JList (map json_safe l)
  | _ => v
  end.
Definition dict_safe (d : dict) : dict := map (λ '(k, x), (k, json_safe x)) d.

(** No instant is left inside a value. *)
Fixpoint time_free (v : json) : bool :=
  match v with
  | JTime _ => false
  | JObj fields => forallb (λ '(_, x), time_free x) fields
  | JList l => forallb time_free l
  | _ => true
  end.

Definition opt_json (o : option string) : json :=
  match o with Some s => JStr s | None => JNull end.

(** [a or b] on optional strings: the empty string is falsy. *)
Definition truthy (o : option string) : bool :=
  match o with Some s => negb (bool_decide (s = "")) | None => false end.
Definition str_or (o : option string) (default : string) : string :=
  match o with Some s => if decide (s = "") then default else s | None => default end.

(** ** Rows *)

Record AuditEvent := mkAuditEvent {
  ev_event_id : string;
  ev_event_type : string;
  ev_tenant_id : string;
  ev_engagement_id : option string;
  ev_task_id : option string;
  ev_occurred_at : datetime;
  ev_payload : dict
}.

Record AuditEventRow := mkAuditEventRow {
  row_event : AuditEvent;
  stream_id : string;
  sequence_no : Z
}.

Record OutboxEvent := mkOutboxEvent {
  outbox_id : string;
  ob_tenant_id : string;
  ob_aggregate_type : string;
  ob_aggregate_id : string;
  ob_event_type : string;
  ob_payload : dict;
  ob_idempotency_key : string;
  ob_occurred_at : datetime;
  ob_available_at : datetime;
  ob_lease_owner : option string;
  ob_lease_expires_at : option datetime;
  ob_published_at : option datetime;
  ob_published_message_id : option string;
  ob_dead_lettered_at : option datetime;
  ob_publish_attempts : Z;
  ob_last_error : option string
}.

(** The tables, the number of identifiers drawn so far, and the wall clock. *)
Record Ledger := mkLedger {
  audit_events : list AuditEventRow;
  outbox_events : list OutboxEvent;
  uuids_drawn : N;
  wall_clock : datetime
}.

Definition empty_ledger (now : datetime) : Ledger := mkLedger [] [] 0 now.

(** [uuid4().hex] cut to [len] digits, for the n-th identifier drawn: random in
    the program, and assumed never to repeat; hexadecimal digits, so no colon. *)
Class UuidSource := {
  uuid4_hex : nat → N → string;
  uuid4_hex_inj len : (16 ≤ len)%nat → Inj (=) (=) (uuid4_hex len);
  uuid4_hex_plain len n : ":"%char ∉ String.list_ascii_of_string (uuid4_hex len n)
}.

Lemma pretty_digit_plain d : (d < 10)%N → pretty_N_char d ≠ ":"%char.
Proof. intros H. destruct d as [|p]; [done|]. do 4 (destruct p as [p|p|]; try done; try lia). Qed.
Lemma pretty_go_plain x s :
  ":"%char ∉ String.list_ascii_of_string s → ":"%char ∉ String.list_ascii_of_string (pretty_N_go x s).
Proof.
  revert s. induction (N.lt_wf_0 x) as [x _ IH]. intros s Hs. destruct (decide (0 < x)%N) as [Hx|Hx].
  - rewrite pretty_N_go_step by done. apply IH; [by apply N.div_lt|].
    simpl. apply not_elem_of_cons. split; [|done]. intros E. symmetry in E. revert E.
    apply pretty_digit_plain. by apply N.mod_lt.
  - replace x with 0%N by lia. by rewrite pretty_N_go_0.
Qed.
Lemma pretty_plain (n : N) : ":"%char ∉ String.list_ascii_of_string (pretty n).
Proof.
  unfold pretty, pretty_N. case_decide; [simpl; apply not_elem_of_cons; split; [done|apply not_elem_of_nil]|].
  apply pretty_go_plain. apply not_elem_of_nil.
Qed.

(** A concrete source: identifiers that count the draws. *)
Definition counting_ids : UuidSource.
Proof. refine {| uuid4_hex _ n := pretty n |}. intros _. apply pretty_plain. Defined.

Section ledger.
Context `{UuidSource}.

Definition draw : Tx Ledger N := λ l,
  Ok (uuids_drawn l,
      mkLedger (audit_events l) (outbox_events l) (uuids_drawn l + 1) (wall_clock l)).

(** [new_id(prefix)]. *)
Definition new_id (prefix : string) : Tx Ledger string :=
  n ← draw; mret (prefix +:+ "_" +:+ uuid4_hex 20 n).
(** The default of [AuditEvent.event_id]. *)
Definition new_event_id : Tx Ledger string :=
  n ← draw; mret ("evt_" +:+ uuid4_hex 16 n).

(** ** AuditEventRepository *)

Definition stream_of (e : AuditEvent) : string :=
  str_or (ev_task_id e) (str_or (ev_engagement_id e) ("tenant:" +:+ ev_tenant_id e)).

Definition in_stream (tenant_id stream : string) (r : AuditEventRow) : Prop :=
  ev_tenant_id (row_event r) = tenant_id ∧ stream_id r = stream.
#[export] Instance in_stream_dec t s r : Decision (in_stream t s r).
Proof. unfold in_stream. apply _. Defined.

(** [int(select max(sequence_no) or 0) + 1]. *)
Definition next_sequence (l : Ledger) (tenant_id stream : string) : Z :=
  foldr Z.max 0 (map sequence_no (filter (in_stream tenant_id stream) (audit_events l))) + 1.

Definition append (e : AuditEvent) : Tx Ledger unit :=
  modify (λ l,
    let stream := stream_of e in
    mkLedger (audit_events l ++ [mkAuditEventRow e stream (next_sequence l (ev_tenant_id e) stream)])
      (outbox_events l) (uuids_drawn l) (wall_clock l)).

Definition append_many (events : list AuditEvent) : Tx Ledger unit := for_each events append.

Definition list_cmp : AuditEventRow → AuditEventRow → comparison :=
  cmp_then (cmp_on (λ r, ev_occurred_at (row_event r)) Z.compare)
    (cmp_then (cmp_on stream_id String.compare)
      (cmp_then (cmp_on sequence_no Z.compare)
        (cmp_on (λ r, ev_event_id (row_event r)) String.compare))).

Definition in_scope (tenant_id : string) (engagement_id : option string) (r : AuditEventRow) : Prop :=
  ev_tenant_id (row_event r) = tenant_id ∧
  match engagement_id with
  | Some e => ev_engagement_id (row_event r) = Some e
  | None => True
  end.
#[export] Instance in_scope_dec t e r : Decision (in_scope t e r).
Proof. unfold in_scope. destruct e; apply _. Defined.

(** [AuditEventRepository.list]. *)
Definition list_events (l : Ledger) (tenant_id : string) (engagement_id : option string)
  : list AuditEventRow :=
  sort_by list_cmp (filter (in_scope tenant_id engagement_id) (audit_events l)).

(** ** OutboxRepository.add *)

Definition has_key (tenant_id key : string) (o : OutboxEvent) : Prop :=
  ob_tenant_id o = tenant_id ∧ ob_idempotency_key o = key.
#[export] Instance has_key_dec t k o : Decision (has_key t k o).
Proof. unfold has_key. apply _. Defined.

(** A second row with the tenant's idempotency key violates the unique
    constraint of the table. *)
Definition outbox_add (tenant_id aggregate_type aggregate_id event_type : string)
    (payload : dict) (key : string) : Tx Ledger unit :=
  id ← new_id "obx";
  l ← gets (λ l, l);
  require (negb (existsb (λ o, bool_decide (has_key tenant_id key o)) (outbox_events l)))
    (Py IntegrityError) ;;
  modify (λ l, mkLedger (audit_events l)
    (outbox_events l ++
      [mkOutboxEvent id tenant_id aggregate_type aggregate_id event_type payload key
         (wall_clock l) (wall_clock l) None None None None None 0 None])
    (uuids_drawn l) (wall_clock l)).
End ledger.

(** ** Numbering of the streams *)

Definition stream_rows (l : Ledger) (tenant_id stream : string) : list AuditEventRow :=
  filter (in_stream tenant_id stream) (audit_events l).

(** Every stream is numbered 1, 2, ... in the order its rows were appended. *)
Definition numbered (l : Ledger) : Prop :=
  ∀ t s, map sequence_no (stream_rows l t s) =
    map Z.of_nat (seq 1 (length (stream_rows l t s))).

(** No idempotency key of the outbox is an event identifier still to be drawn. *)
Definition keys_drawn `{UuidSource} (l : Ledger) : Prop :=
  ∀ o n, o ∈ outbox_events l → (uuids_drawn l ≤ n)%N →
    ob_idempotency_key o ≠ "evt_" +:+ uuid4_hex 16 n.

Lemma max_numbering n : foldr Z.max 0 (map Z.of_nat (seq 1 n)) = Z.of_nat n.
Proof.
  induction n as [|n IH]; [done|].
  rewrite seq_S, map_app, foldr_app. simpl.
  enough (∀ m l, 0 ≤ m → foldr Z.max m l = Z.max m (foldr Z.max 0 l)) as -> by lia.
  clear. intros m l Hm. induction l as [|x l IH]; simpl; lia.
Qed.

Lemma next_sequence_numbered l t s :
  numbered l → next_sequence l t s = Z.of_nat (length (stream_rows l t s)) + 1.
Proof.
  intros Hn. unfold next_sequence. fold (stream_rows l t s).
  by rewrite (Hn t s), max_numbering.
Qed.

Lemma stream_rows_numbering l t s :
  numbered l → StronglySorted (λ r1 r2, sequence_no r1 < sequence_no r2) (stream_rows l t s).
Proof.
  intros Hn. specialize (Hn t s). revert Hn.
  generalize (stream_rows l t s) as rows. intros rows. generalize 1%nat as k.
  induction rows as [|r rows IH]; intros k Hk; constructor; simpl in Hk; injection Hk as Hr Hk.
  - by apply (IH (S k)).
  - apply Forall_forall. intros r' [i Hr']%list_elem_of_lookup.
    assert (Hi : map sequence_no rows !! i = Some (sequence_no r'))
      by (by rewrite list_lookup_fmap, Hr').
    rewrite Hk, list_lookup_fmap in Hi.
    apply fmap_Some in Hi as (j & [-> _]%lookup_seq & ->). lia.
Qed.

Section ledger_lemmas.
Context `{UuidSource}.

Lemma uuid4_hex_inj' len n m : (16 ≤ len)%nat → uuid4_hex len n = uuid4_hex len m → n = m.
Proof. intros Hl. by apply uuid4_hex_inj. Qed.

(** The row [append] adds. *)
Lemma append_Ok e l u l' :
  append e l = Ok (u, l') →
  audit_events l' = audit_events l ++
    [mkAuditEventRow e (stream_of e) (next_sequence l (ev_tenant_id e) (stream_of e))] ∧
  outbox_events l' = outbox_events l ∧ uuids_drawn l' = uuids_drawn l ∧
  wall_clock l' = wall_clock l.
Proof. intros ->%modify_Ok. done. Qed.

Lemma append_numbered e : preserves numbered (append e).
Proof.
  intros l u l' Hn (He & _)%append_Ok t s. unfold stream_rows.
  rewrite He, filter_app, filter_cons, filter_nil. fold (stream_rows l t s).
  destruct (decide (in_stream t s _)) as [[Ht Hs]|_]; simpl in *.
  - subst. rewrite map_app, (Hn _ _), length_app, Nat.add_1_r, seq_S, map_app.
    simpl. rewrite next_sequence_numbered by done. repeat f_equal. lia.
  - rewrite app_nil_r. apply Hn.
Qed.

Lemma append_many_numbered es : preserves numbered (append_many es).
Proof. apply preserves_for_each. auto using append_numbered. Qed.

Lemma new_event_id_Ok l id l' :
  new_event_id l = Ok (id, l') →
  id = "evt_" +:+ uuid4_hex 16 (uuids_drawn l) ∧
  l' = mkLedger (audit_events l) (outbox_events l) (uuids_drawn l + 1) (wall_clock l).
Proof. unfold new_event_id, draw. intros. by inv_tx. Qed.

Lemma new_id_Ok prefix l id l' :
  new_id prefix l = Ok (id, l') →
  id = prefix +:+ "_" +:+ uuid4_hex 20 (uuids_drawn l) ∧
  l' = mkLedger (audit_events l) (outbox_events l) (uuids_drawn l + 1) (wall_clock l).
Proof. unfold new_id, draw. intros. by inv_tx. Qed.

Lemma outbox_add_Ok t aty ai ty pl key l u l' :
  outbox_add t aty ai ty pl key l = Ok (u, l') →
  Forall (λ o, ¬ has_key t key o) (outbox_events l) ∧
  audit_events l' = audit_events l ∧
  (∃ o, outbox_events l' = outbox_events l ++ [o] ∧ has_key t key o ∧
     ob_event_type o = ty ∧ ob_payload o = pl) ∧
  uuids_drawn l' = (uuids_drawn l + 1)%N ∧ wall_clock l' = wall_clock l.
Proof.
  unfold outbox_add. intros E. inv_tx.
  match goal with E : new_id _ _ = _ |- _ => apply new_id_Ok in E as [-> ->] end.
  match goal with E : negb _ = true |- _ => apply negb_true_iff in E end.
  split; [|split; [done|split; [by eexists|done]]].
  apply Forall_forall. intros o Ho Hk.
  match goal with E : existsb _ _ = false |- _ => apply not_true_iff_false in E; apply E end.
  apply existsb_decide. by exists o.
Qed.

(** An insertion that violates no unique constraint succeeds. *)
Lemma outbox_add_total t aty ai ty pl key l :
  Forall (λ o, ¬ has_key t key o) (outbox_events l) →
  ∃ l', outbox_add t aty ai ty pl key l = Ok (tt, l').
Proof.
  intros Hk. unfold outbox_add, new_id, draw. eexists.
  erewrite tx_bind_step by done. simpl. erewrite tx_bind_step by done.
  replace (existsb _ _) with false; [by cbn|]. symmetry. apply not_true_iff_false.
  intros (o & Ho & Hb)%existsb_decide. rewrite Forall_forall in Hk. by apply (Hk o).
Qed.
End ledger_lemmas.

(** ** Recording an event with its outbox row *)

Section logs.
Context `{UuidSource}.

(** [l'] is [l] after one event is appended and handed to the outbox under its
    own identifier. *)
Record logs (l l' : Ledger) (e : AuditEvent) : Prop := {
  logs_id : ev_event_id e = "evt_" +:+ uuid4_hex 16 (uuids_drawn l);
  logs_audit : audit_events l' = audit_events l ++
    [mkAuditEventRow e (stream_of e) (next_sequence l (ev_tenant_id e) (stream_of e))];
  logs_outbox : ∃ o, outbox_events l' = outbox_events l ++ [o] ∧
    has_key (ev_tenant_id e) (ev_event_id e) o ∧
    ob_event_type o = ev_event_type e ∧ ob_payload o = ev_payload e;
  logs_uuids : uuids_drawn l' = (uuids_drawn l + 2)%N;
  logs_clock : wall_clock l' = wall_clock l
}.

Lemma logs_numbered l l' e : logs l l' e → numbered l → numbered l'.
Proof.
  intros [_ Ha _ _ _] Hn t s.
  pose proof (append_numbered e l tt
    (mkLedger (audit_events l') (outbox_events l) (uuids_drawn l) (wall_clock l)) Hn) as H'.
  unfold numbered in H'. apply H'. unfold append, modify. by rewrite Ha.
Qed.

Lemma logs_keys_drawn l l' e : logs l l' e → keys_drawn l → keys_drawn l'.
Proof.
  intros [Hid _ (o & Ho & [_ Hk] & _) Hu _] Hd o' n Ho' Hn. rewrite Ho in Ho'. rewrite Hu in Hn.
  apply elem_of_app in Ho' as [Ho'| ->%list_elem_of_singleton]; [apply Hd; [done|lia]|].
  rewrite Hk, Hid. intros Heq. apply (inj (String.append _)) in Heq.
  apply uuid4_hex_inj' in Heq; lia.
Qed.
End logs.
