(* ===== verification/Tables.v ===== *)
(** * Tables kept as lists of rows

    The part of a relational store the components share whose tables are lists in
    insertion order: the first row of a result, the assignment to a row found by its
    key, the absence of a conflicting row, and how the keys and the results of
    queries change with them. *)

From S2P Require Import Prelude.
Local Open Scope Z_scope.

(** [session.scalar(...)]: the first row of a result. *)
Definition scalar {A} (rows : list A) : option A := head rows.

(** Assigning to an attached row. *)
Definition update_row {A} (key : A → string) (id : string) (f : A → A) (l : list A) : list A :=
  map (λ r, if decide (key r = id) then f r else r) l.

(** A new row must not repeat a primary or a unique key. *)
Definition absent {A} (conflicts : A → bool) (l : list A) : bool := negb (existsb conflicts l).

Lemma absent_rows {A} (conflicts : A → bool) l :
  absent conflicts l = true ↔ ∀ x, x ∈ l → conflicts x = false.
Proof.
  unfold absent. rewrite negb_true_iff. rewrite <- not_true_iff_false, existsb_exists. split.
  - intros H x Hx. apply not_true_iff_false. intros E. apply H. exists x. by rewrite <- list_elem_of_In.
  - intros H (x & Hx%list_elem_of_In & E). by rewrite (H x Hx) in E.
Qed.

Lemma scalar_filter_Some {A} (P : A → Prop) `{!∀ x, Decision (P x)} (l : list A) x :
  scalar (filter P l) = Some x → x ∈ l ∧ P x.
Proof.
  intros E%head_Some_elem_of. apply list_elem_of_filter in E. tauto.
Qed.
Lemma scalar_sort_Some {A} c (P : A → Prop) `{!∀ x, Decision (P x)} (l : list A) x :
  scalar (sort_by c (filter P l)) = Some x → x ∈ l ∧ P x.
Proof.
  intros E%head_Some_elem_of. rewrite elem_of_sort_by, list_elem_of_filter in E. tauto.
Qed.
Lemma scalar_sort_None {A} c (P : A → Prop) `{!∀ x, Decision (P x)} (l : list A) :
  scalar (sort_by c (filter P l)) = None → ∀ x, x ∈ l → ¬ P x.
Proof.
  intros E%head_None x Hx HP. apply (not_elem_of_nil x). rewrite <- E.
  apply elem_of_sort_by, list_elem_of_filter. done.
Qed.

(** ** Updated tables *)

Section update_row.
Context {A} (key : A → string).
Implicit Types (l : list A).

Lemma elem_of_update_row id f l y :
  y ∈ update_row key id f l ↔ ∃ x, x ∈ l ∧ y = if decide (key x = id) then f x else x.
Proof. unfold update_row. rewrite list_elem_of_fmap. naive_solver. Qed.

Lemma map_update_row {B} (g : A → B) id f l :
  (∀ x, g (f x) = g x) → map g (update_row key id f l) = map g l.
Proof.
  intros Hg. unfold update_row. rewrite map_map. apply map_ext_elem. intros x _. by destruct (decide _).
Qed.

Lemma update_row_intro id f l x :
  x ∈ l → (if decide (key x = id) then f x else x) ∈ update_row key id f l.
Proof. intros Hx. apply elem_of_update_row. eauto. Qed.
End update_row.

(** The row of a key is the only one. *)
Lemma same_row {A} (key : A → string) (l : list A) x y :
  NoDup (map key l) → x ∈ l → y ∈ l → key x = key y → x = y.
Proof. apply NoDup_map_inj. Qed.

Lemma NoDup_map_snoc {A B} (g : A → B) (l : list A) x :
  NoDup (map g l) → Forall (λ y, g y ≠ g x) l → NoDup (map g (l ++ [x])).
Proof.
  intros Hl Hx. rewrite map_app. apply NoDup_app. split_and!; [done| |apply NoDup_singleton].
  intros k Hk ->%list_elem_of_singleton. apply list_elem_of_fmap in Hk as (y & E & Hy).
  rewrite Forall_forall in Hx. by apply (Hx y Hy).
Qed.

Lemma update_row_id {A} (key : A → string) i l : update_row key i id l = l.
Proof.
  unfold update_row. rewrite <- (map_id l) at 2. apply map_ext_elem. intros x _. by destruct (decide _).
Qed.

Lemma scalar_update_row {A} (key : A → string) (P : A → Prop) `{!∀ x, Decision (P x)} i g l :
  (∀ x, P x → key x = i) → (∀ x, P (g x) ↔ P x) →
  scalar (filter P (update_row key i g l)) = g <$> scalar (filter P l).
Proof.
  intros Hk Hg. unfold update_row, scalar. induction l as [|x l IH]; [done|]. cbn [map].
  rewrite !filter_cons. destruct (decide (P x)) as [HP|HP].
  - rewrite (decide_True (P := key x = i)) by auto. rewrite decide_True by by apply Hg. done.
  - rewrite decide_False; [done|]. destruct (decide (key x = i)); [by rewrite Hg|done].
Qed.

Lemma filter_update_row {A} (key : A → string) (P : A → Prop) `{!∀ x, Decision (P x)} i g l :
  (∀ x, P (g x) ↔ P x) → filter P (update_row key i g l) = update_row key i g (filter P l).
Proof.
  intros Hg. unfold update_row. induction l as [|x l IH]; [done|]. cbn [map]. rewrite !filter_cons, IH.
  destruct (decide (key x = i)) as [E|E].
  - destruct (decide (P x)) as [HP|HP].
    + rewrite decide_True by by apply Hg. cbn [map]. by rewrite decide_True.
    + rewrite decide_False; [done|]. by rewrite Hg.
  - destruct (decide (P x)); [|done]. cbn [map]. by rewrite decide_False.
Qed.
Lemma last_update_row {A} (key : A → string) i g l :
  last (update_row key i g l) = (λ x, if decide (key x = i) then g x else x) <$> last l.
Proof. unfold update_row. by rewrite <- fmap_last. Qed.

(** ** Numbered rows

    Rows numbered 1, 2, ... in the order they were inserted. *)

Definition versions {A} (f : A → Z) (l : list A) : Prop := map f l = map Z.of_nat (seq 1 (length l)).

Section versions.
Context {A : Type} (f : A → Z).

Lemma versions_bounded l x : versions f l → x ∈ l → f x ≤ Z.of_nat (length l).
Proof.
  intros Hl Hx. apply (list_elem_of_fmap_2 f) in Hx. change (fmap f l) with (map f l) in Hx. rewrite Hl in Hx.
  apply list_elem_of_fmap in Hx as (k & -> & Hk%elem_of_seq). lia.
Qed.

Lemma versions_last l x : versions f (l ++ [x]) → f x = Z.of_nat (length (l ++ [x])).
Proof.
  unfold versions. rewrite length_app, Nat.add_1_r, seq_S, !map_app. intros E.
  apply app_inj_tail in E as [_ E]. cbn [map] in E. cbn in E. rewrite E. lia.
Qed.

Lemma versions_inj l x y : versions f l → x ∈ l → y ∈ l → f x = f y → x = y.
Proof.
  intros Hl Hx Hy E. apply (NoDup_map_inj f l); [|done..]. rewrite Hl.
  apply (NoDup_fmap_2 Z.of_nat), NoDup_seq.
Qed.

(** The greatest version is the last one written. *)
Lemma versions_latest l : versions f l → scalar (sort_by (cmp_desc (cmp_on f Z.compare)) l) = last l.
Proof.
  intros Hl. destruct (last l) as [x|] eqn:Ex.
  2: { apply last_None in Ex as ->. done. }
  apply last_Some in Ex as [l' ->]. pose proof (versions_last l' x Hl) as Hx.
  pose proof (sort_by_sorted (cmp_desc (cmp_on f Z.compare)) (l' ++ [x])) as Hs.
  pose proof (sort_by_Permutation (cmp_desc (cmp_on f Z.compare)) (l' ++ [x])) as Hp.
  destruct (sort_by _ _) as [|y r]; [by apply Permutation_nil_l in Hp; destruct l'|].
  assert (Hin : x ∈ y :: r) by (rewrite Hp; set_solver). assert (Hy : y ∈ l' ++ [x]) by (rewrite <- Hp; left).
  cbn [scalar]. simpl. f_equal. apply (versions_inj _ _ _ Hl); [done|set_solver|].
  pose proof (versions_bounded _ _ Hl Hy). apply elem_of_cons in Hin as [->|Hin]; [done|].
  apply StronglySorted_inv in Hs as [_ Hs]. rewrite Forall_forall in Hs. specialize (Hs x Hin).
  unfold cmp_desc, cmp_on in Hs. rewrite Z.compare_gt_iff in Hs. lia.
Qed.

Lemma versions_sorted l : versions f l → sort_by (cmp_on f Z.compare) l = l.
Proof.
  intros Hl. apply (StronglySorted_unique_strong (λ x y, (f x ≤ f y)%Z)).
  - intros x y Hx Hy H1 H2. rewrite elem_of_sort_by in Hx. apply (versions_inj _ _ _ Hl); [done|done|lia].
  - pose proof (sort_by_sorted (cmp_on f Z.compare) l) as Hs. revert Hs. generalize (sort_by (cmp_on f Z.compare) l) as m.
    intros m Hs. induction Hs as [|x m Hs IH Hx]; constructor; [done|]. eapply Forall_impl; [exact Hx|].
    intros y. unfold cmp_on. by rewrite Z.compare_le_iff.
  - unfold versions in Hl. revert Hl. generalize 1%nat. induction l as [|x l IH]; intros k Hl; constructor; [|apply Forall_forall].
    + apply (IH (S k)). by injection Hl.
    + intros y Hy. cbn in Hl. injection Hl as Hx Hl. apply (list_elem_of_fmap_2 f) in Hy. change (fmap f l) with (map f l) in Hy.
      rewrite Hl in Hy. apply list_elem_of_fmap in Hy as (j & -> & Hj%elem_of_seq). lia.
  - apply sort_by_Permutation.
Qed.
End versions.
