(* ===== verification/PyText.v ===== *)
(** * Python text

    A Python [str] is a Rocq [string] whose characters are the code points
    U+0000 to U+00FF: lengths, slices and comparisons count code points, and the
    character classes below are Python's on that range.  The file gives the text
    operations the modelled code uses: [lower], [strip], [startswith], [join],
    [repr] and [str] of JSON values, the shortest [repr] of a float, the fixed
    formats of f-strings, the strings of [json.dumps], and text.py. *)

From Stdlib Require Import Ascii.
From S2P Require Import Prelude PyFloat PyTime Ledger.
Local Open Scope Z_scope.

(** ** Characters *)

Definition ord (c : ascii) : Z := Z.of_nat (nat_of_ascii c).
Definition chr (n : Z) : ascii := ascii_of_nat (Z.to_nat n).
Definition quote_char : ascii := chr 34.
Definition backslash : ascii := chr 92.

Definition is_space (c : ascii) : bool :=
  let n := ord c in
  ((9 <=? n) && (n <=? 13)) || ((28 <=? n) && (n <=? 32)) || (n =? 133) || (n =? 160).
Definition lower_char (c : ascii) : ascii :=
  let n := ord c in
  if ((65 <=? n) && (n <=? 90)) || ((192 <=? n) && (n <=? 222) && negb (n =? 215))
  then chr (n + 32) else c.
Definition is_printable (c : ascii) : bool :=
  let n := ord c in (32 <=? n) && negb ((127 <=? n) && (n <=? 160)) && negb (n =? 173).

(** ** Operations on [str] *)

Fixpoint lower (s : string) : string :=
  match s with
  | "" => ""
  | String c s => String (lower_char c) (lower s)
  end.

Fixpoint drop_spaces (l : list ascii) : list ascii :=
  match l with
  | c :: l' => if is_space c then drop_spaces l' else l
  | [] => []
  end.
Definition strip (s : string) : string :=
  String.string_of_list_ascii
    (rev (drop_spaces (rev (drop_spaces (String.list_ascii_of_string s))))).

(** [s.startswith(prefixes)]. *)
Definition startswith (s : string) (prefixes : list string) : bool :=
  existsb (λ p, String.prefix p s) prefixes.

Fixpoint join (sep : string) (l : list string) : string :=
  match l with
  | [] => ""
  | [x] => x
  | x :: l => x +:+ sep +:+ join sep l
  end.

(** [s[:n]]. *)
Definition slice (n : nat) (s : string) : string := String.substring 0 n s.

Definition zeros (n : Z) : string := Nat.iter (Z.to_nat n) (String (chr 48)) "".

(** ** text.py *)

Definition plural (count : Z) (singular : string) (plural_form : option string) : string :=
  if count =? 1 then singular
  else match plural_form with Some p => p | None => singular +:+ "s" end.
Definition counted (count : Z) (singular : string) (plural_form : option string) : string :=
  pretty count +:+ " " +:+ plural count singular plural_form.

(** ** [repr] of a text *)

Definition hex_digit (n : Z) : ascii := chr (if n <? 10 then 48 + n else 87 + n).
Definition repr_char (quote c : ascii) : string :=
  let n := ord c in
  if decide (c = backslash) then String backslash (String backslash "")
  else if decide (c = quote) then String backslash (String c "")
  else if n =? 10 then "\n" else if n =? 13 then "\r" else if n =? 9 then "\t"
  else if is_printable c then String c ""
  else "\x" +:+ String (hex_digit (n / 16)) (String (hex_digit (n mod 16)) "").
Definition py_repr (s : string) : string :=
  let l := String.list_ascii_of_string s in
  let quote := if bool_decide ("'"%char ∈ l) && negb (bool_decide (quote_char ∈ l))
               then quote_char else "'"%char in
  String quote (foldr (λ c acc, repr_char quote c +:+ acc) (String quote "") l).

(** ** Floats *)

(** [f"{x:.<prec>f}"]: the exact value rounded half to even. *)
Definition fixed (prec : nat) (x : float) : string :=
  match x with
  | S754_nan => "nan"
  | S754_infinity s => if s then "-inf" else "inf"
  | _ =>
      let '(a, b) := as_fraction x in
      let z := round_half_even (Z.abs a * 10 ^ Z.of_nat prec) b in
      let text := padded (S prec) z in
      let whole := (String.length text - prec)%nat in
      (match x with S754_finite true _ _ | S754_zero true => "-" | _ => "" end) +:+
      slice whole text +:+
      (if (prec =? 0)%nat then "" else "." +:+ String.substring whole prec text)
  end.
(** [f"{x:.<prec>%}"]. *)
Definition percent (prec : nat) (x : float) : string :=
  fixed prec (fmul x (float_of_Z 100)) +:+ "%".

(** [z * 10^p], correctly rounded. *)
Definition float_of_decimal (z p : Z) : float :=
  if 0 <=? p then float_of_Z (z * 10 ^ p) else int_truediv z (10 ^ (- p)).

(** The decimal exponent [k] of [a / b > 0]: [10^(k-1) <= a / b < 10^k]. *)
Definition decimal_exponent (a b : Z) : Z :=
  Z.of_nat (String.length (pretty (a * 10 ^ 340 / b))) - 340.

(** The decimal of [n] digits nearest to [a / b] that reads back as [x]. *)
Definition decimal_of (x : float) (a b k : Z) (n : nat) : option Z :=
  let p := Z.of_nat n - k in
  let '(num, den) := if 0 <=? p then (a * 10 ^ p, b) else (a, b * 10 ^ (- p)) in
  let low := num / den in
  let near := round_half_even num den in
  let far := low + (low + 1) - near in
  let reads z := bool_decide (float_of_decimal z (- p) = x) in
  if reads near then Some near else if reads far then Some far else None.

Fixpoint shortest (x : float) (a b k : Z) (n fuel : nat) : Z * nat :=
  match decimal_of x a b k n, fuel with
  | Some z, _ => (z, n)
  | None, O => (0, n)
  | None, S fuel => shortest x a b k (S n) fuel
  end.

(** [repr(x)]: 17 digits always read back. *)
Definition float_repr (x : float) : string :=
  match x with
  | S754_nan => "nan"
  | S754_infinity s => if s then "-inf" else "inf"
  | S754_zero s => if s then "-0.0" else "0.0"
  | S754_finite s _ _ =>
      let '(a, b) := as_fraction x in
      let a := Z.abs a in
      let k := decimal_exponent a b in
      let '(z, n) := shortest x a b k 1 16 in
      let x := if s then "-" else "" in
      let '(z, k) := if z =? 10 ^ Z.of_nat n then (z / 10, k + 1) else (z, k) in
      let digits := pretty z in
      x +:+
      if (-4 <? k) && (k <=? 16) then
        if k <=? 0 then "0." +:+ zeros (- k) +:+ digits
        else if Z.of_nat n <=? k then digits +:+ zeros (k - Z.of_nat n) +:+ ".0"
        else slice (Z.to_nat k) digits +:+ "." +:+ String.substring (Z.to_nat k) n digits
      else
        slice 1 digits +:+
        (if (n =? 1)%nat then "" else "." +:+ String.substring 1 n digits) +:+
        "e" +:+ (if k - 1 <? 0 then "-" else "+") +:+ padded 2 (Z.abs (k - 1))
  end.

Example py_repr_example : py_repr "analysis" = "'analysis'".
Proof. vm_compute. reflexivity. Qed.
Example float_repr_examples :
  map float_repr [dec 15 1; dec 1 20; dec 1 4; dec 1 5; float_of_Z (10 ^ 15); float_of_Z (10 ^ 16);
                  int_truediv 1 3; int_truediv 1 (2 ^ 44)] =
  ["1.5"; "1e-20"; "0.0001"; "1e-05"; "1000000000000000.0"; "1e+16";
   "0.3333333333333333"; "5.684341886080802e-14"].
Proof. vm_compute. reflexivity. Qed.
Example fixed_examples :
  (map (fixed 2) [dec 125 2; dec 135 2; zero; dec (-1) 3], percent 1 (int_truediv 1 3)) =
  (["1.25"; "1.35"; "0.00"; "-0.00"], "33.3%").
Proof. vm_compute. reflexivity. Qed.

(** ** [date.fromisoformat] *)

(** [n] decimal digits at the head of a text. *)
Fixpoint parse_digits (n : nat) (acc : Z) (l : list ascii) : option (Z * list ascii) :=
  match n with
  | O => Some (acc, l)
  | S n =>
      match l with
      | c :: l =>
          if (48 <=? ord c) && (ord c <=? 57)
          then parse_digits n (acc * 10 + (ord c - 48)) l else None
      | [] => None
      end
  end.

Definition dash (l : list ascii) : option (list ascii) :=
  match l with c :: l => if decide (c = "-"%char) then Some l else None | [] => None end.

(** [date(year, month, day)]. *)
Definition make_date (y m d : Z) : option date :=
  if (1 <=? y) && (y <=? 9999) && (1 <=? m) && (m <=? 12) && (1 <=? d) && (d <=? days_in_month y m)
  then Some (ymd2ord y m d) else None.

(** The Monday of the first ISO week of a year: the week that holds January 4th. *)
Definition iso_week1_monday (y : Z) : date :=
  let first := ymd2ord y 1 1 in
  let weekday := (first + 6) mod 7 in
  let monday := first - weekday in
  if 3 <? weekday then monday + 7 else monday.

(** [date.fromisocalendar]: a 53rd week belongs to the years that start on a
    Thursday, or on a Wednesday when they are leap years. *)
Definition from_isocalendar (y week day : Z) : option date :=
  let first := (ymd2ord y 1 1) mod 7 in
  let long := (first =? 4) || ((first =? 3) && is_leap y) in
  if (1 <=? y) && (y <=? 9999) && (1 <=? week) && ((week <=? 52) || ((week =? 53) && long)) &&
     (1 <=? day) && (day <=? 7)
  then let o := iso_week1_monday y + (week - 1) * 7 + day - 1 in
       if (1 <=? o) && (o <=? max_ordinal) then Some o else None
  else None.

(** [date.fromisoformat(s)], as the interpreter parses it; [None] is its
    [ValueError]. *)
Definition fromisoformat (s : string) : option date :=
  let l := String.list_ascii_of_string s in
  guard (length l ∈ [7; 8; 10]%nat);;
  '(y, l) ← parse_digits 4 0 l;
  let sep := match l with c :: _ => bool_decide (c = "-"%char) | [] => false end in
  let l := if sep then drop 1 l else l in
  match l with
  | "W"%char :: l =>
      '(week, l) ← parse_digits 2 0 l;
      match l with
      | [] => from_isocalendar y week 1
      | _ => l ← (if sep then dash l else Some l);
             '(day, _) ← parse_digits 1 0 l; from_isocalendar y week day
      end
  | _ =>
      '(m, l) ← parse_digits 2 0 l;
      l ← (if sep then dash l else Some l);
      '(d, _) ← parse_digits 2 0 l; make_date y m d
  end.

Example fromisoformat_examples :
  map (λ s, ord2ymd <$> fromisoformat s)
    ["2024-02-29"; "20240101"; "2024-W05-3"; "2024W05"; "2020-W53-1"; "2023-02-29"; "2021-W53-1"; "today"] =
  [Some (2024, 2, 29); Some (2024, 1, 1); Some (2024, 1, 31); Some (2024, 1, 29);
   Some (2020, 12, 28); None; None; None].
Proof. vm_compute. reflexivity. Qed.

(** ** JSON values *)

(** [bool(v)]. *)
Definition truthy_json (v : json) : bool :=
  match v with
  | JNull => false
  | JBool b => b
  | JInt z => negb (z =? 0)
  | JFloat f => match f with S754_zero _ => false | _ => true end
  | JStr s => negb (bool_decide (s = ""))
  | JTime _ => true
  | JList l => match l with [] => false | _ => true end
  | JObj d => match d with [] => false | _ => true end
  end.
(** [a or b]. *)
Definition json_or (a b : json) : json := if truthy_json a then a else b.
(** [d.get(k)]. *)
Definition get (k : string) (d : dict) : json := default JNull (dict_get k d).

(** [str(t)] and [repr(t)] of an instant in UTC. *)
Definition time_str (t : datetime) : string :=
  String.string_of_list_ascii
    (map (λ c, if decide (c = "T"%char) then " "%char else c)
       (String.list_ascii_of_string (isoformat t))).
Definition time_repr (t : datetime) : string :=
  let '(y, m, d) := ord2ymd (date_of t) in
  let us := t mod us_per_day in
  let s := us / us_per_second in
  let frac := us mod us_per_second in
  let tail := if negb (frac =? 0) then [s mod 60; frac]
              else if negb (s mod 60 =? 0) then [s mod 60] else [] in
  "datetime.datetime(" +:+
  join ", " (map pretty ([y; m; d; s / 3600; s / 60 mod 60] ++ tail)) +:+
  ", tzinfo=datetime.timezone.utc)".

Fixpoint json_repr (v : json) : string :=
  match v with
  | JNull => "None"
  | JBool b => if b then "True" else "False"
  | JInt z => pretty z
  | JFloat f => float_repr f
  | JStr s => py_repr s
  | JTime t => time_repr t
  | JList l => "[" +:+ join ", " (map json_repr l) +:+ "]"
  | JObj d => "{" +:+ join ", " (map (λ '(k, x), py_repr k +:+ ": " +:+ json_repr x) d) +:+ "}"
  end.
(** [str(v)]. *)
Definition py_str (v : json) : string :=
  match v with JStr s => s | JTime t => time_str t | _ => json_repr v end.

Example py_str_example :
  py_str (JObj [("a", JList [JInt 1; JBool true; JNull; JStr "it's"]); ("b", JFloat (dec 5 1))]) =
  "{'a': [1, True, None, " +:+ String quote_char "it's" +:+ String quote_char "], 'b': 0.5}".
Proof. vm_compute. reflexivity. Qed.

(** ** [json.dumps] of texts *)

Definition json_char (c : ascii) : string :=
  let n := ord c in
  if decide (c = quote_char) then String backslash (String quote_char "")
  else if decide (c = backslash) then String backslash (String backslash "")
  else if n =? 8 then "\b" else if n =? 9 then "\t" else if n =? 10 then "\n"
  else if n =? 12 then "\f" else if n =? 13 then "\r"
  else if (n <? 32) || (126 <? n)
       then "\u00" +:+ String (hex_digit (n / 16)) (String (hex_digit (n mod 16)) "")
  else String c "".
Fixpoint json_chars (s : string) : string :=
  match s with "" => String quote_char "" | String c s => json_char c +:+ json_chars s end.
Definition json_string (s : string) : string := String quote_char (json_chars s).
(** With [separators=(",", ":")]. *)
Definition json_strings (l : list string) : string :=
  "[" +:+ join "," (map json_string l) +:+ "]".
(** An object whose values are already texts of JSON, with [sort_keys=True]. *)
Definition json_object (fields : list (string * string)) : string :=
  "{" +:+ join "," (map (λ '(k, v), json_string k +:+ ":" +:+ v)
    (sort_by (cmp_on fst String.compare) fields)) +:+ "}".

(** *** Reading the texts back *)

#[export] Instance string_app_assoc : Assoc (=) String.append.
Proof. intros s1 s2 s3. induction s1 as [|c s1 IH]; [done|]. exact (f_equal (String c) IH). Qed.

Definition hex_value (c : ascii) : Z := if ord c <? 58 then ord c - 48 else ord c - 87.

(** One character of the body of a JSON string, or its closing quote. *)
Definition read_char (s : string) : option (option ascii * string) :=
  match s with
  | "" => None
  | String c s =>
      if decide (c = quote_char) then Some (None, s)
      else if decide (c = backslash) then
        match s with
        | String "u"%char (String _ (String _ (String h (String l s)))) =>
            Some (Some (chr (hex_value h * 16 + hex_value l)), s)
        | String "b"%char s => Some (Some (chr 8), s)
        | String "t"%char s => Some (Some (chr 9), s)
        | String "n"%char s => Some (Some (chr 10), s)
        | String "f"%char s => Some (Some (chr 12), s)
        | String "r"%char s => Some (Some (chr 13), s)
        | String c s => Some (Some c, s)
        | "" => None
        end
      else Some (Some c, s)
  end.

Lemma read_json_char c s : read_char (json_char c +:+ s) = Some (Some c, s).
Proof. destruct c as [[] [] [] [] [] [] [] []]; reflexivity. Qed.

(** A JSON string ends where its closing quote is. *)
Lemma json_chars_inj s1 s2 r1 r2 :
  json_chars s1 +:+ r1 = json_chars s2 +:+ r2 → s1 = s2 ∧ r1 = r2.
Proof.
  revert s2. induction s1 as [|c1 s1 IH]; intros [|c2 s2] E; cbn [json_chars] in E.
  - by injection E.
  - apply (f_equal read_char) in E. by rewrite <- (assoc_L String.append), read_json_char in E.
  - apply (f_equal read_char) in E. by rewrite <- (assoc_L String.append), read_json_char in E.
  - rewrite <- !(assoc_L String.append) in E.
    apply (f_equal read_char) in E. rewrite !read_json_char in E. injection E as -> E.
    apply IH in E as [-> ->]. done.
Qed.

Lemma json_string_inj s1 s2 r1 r2 :
  json_string s1 +:+ r1 = json_string s2 +:+ r2 → s1 = s2 ∧ r1 = r2.
Proof. unfold json_string. cbn. intros [= E]. by apply json_chars_inj. Qed.

Lemma json_string_head s r : ∃ r', json_string s +:+ r = String quote_char r'.
Proof. by eexists. Qed.

Lemma joined_strings_inj l1 l2 r1 r2 :
  join "," (map json_string l1) +:+ String "]" r1 = join "," (map json_string l2) +:+ String "]" r2 →
  l1 = l2 ∧ r1 = r2.
Proof.
  revert l2. induction l1 as [|s1 l1 IH]; intros [|s2 l2].
  - by intros [= ->].
  - destruct l2; intros E; exfalso; discriminate E.
  - destruct l1; intros E; exfalso; discriminate E.
  - assert (Hj : ∀ s (l : list string) r, join "," (map json_string (s :: l)) +:+ String "]" r =
      json_string s +:+ match l with [] => String "]" r
                        | _ => String "," (join "," (map json_string l) +:+ String "]" r) end).
    { intros s [|t l] r; [done|]. cbn [join map]. by rewrite <- !(assoc_L String.append). }
    rewrite !Hj. intros [-> E]%json_string_inj.
    destruct l1 as [|t1 l1], l2 as [|t2 l2]; try discriminate E.
    + by injection E as ->.
    + injection E as E. by destruct (IH (t2 :: l2) E) as [-> ->].
Qed.

Lemma json_strings_inj l1 l2 r1 r2 :
  json_strings l1 +:+ r1 = json_strings l2 +:+ r2 → l1 = l2 ∧ r1 = r2.
Proof.
  unfold json_strings. rewrite <- !(assoc_L String.append). intros E.
  apply (inj (String.append "[")) in E. by apply joined_strings_inj.
Qed.
