(* ===== verification/PyRegex.v ===== *)
(** * Regular expressions of Python's [re]

    The part of [re] the guardrails use: a backtracking matcher over the syntax of a
    pattern, with greedy repetition, word boundaries, the start of the text, and
    negative assertions; [search], [findall] and [subn] scan a text with it.  The
    matcher explores in the order of the source's alternatives, so the match it
    finds is the one [re] finds.  [lang] is what a pattern means; the matcher finds a
    match exactly where there is one. *)

From Stdlib Require Import Ascii.
From S2P Require Import Prelude PyFloat PyTime Ledger PyText.
Local Open Scope Z_scope.

(** A place in a text: what is before it, backwards, and what is after it. *)
Record place := mkPlace { before : list ascii; after : list ascii }.
Definition start_of (s : string) : place := mkPlace [] (String.list_ascii_of_string s).
Definition rest (p : place) : nat := length (after p).
Definition step (p : place) : option (ascii * place) :=
  match after p with [] => None | c :: r => Some (c, mkPlace (c :: before p) r) end.

Inductive regex :=
  | REmpty
  | RChar (class : ascii → bool)
  | RSeq (a b : regex)
  | RAlt (a b : regex)
  | RRepeat (lo : nat) (hi : option nat) (a : regex)
  | RBoundary
  | RStart
  | RNotAhead (a : regex)
  | RNotBehind (class : ascii → bool).

(** [\w]; in a text of Latin-1 characters these are the alphanumeric ones and [_]. *)
Definition is_word (c : ascii) : bool :=
  let n := ord c in
  ((48 <=? n) && (n <=? 57)) || ((65 <=? n) && (n <=? 90)) || (n =? 95) || ((97 <=? n) && (n <=? 122)) ||
  (n =? 170) || ((178 <=? n) && (n <=? 179)) || (n =? 181) || ((185 <=? n) && (n <=? 186)) ||
  ((188 <=? n) && (n <=? 190)) || ((192 <=? n) && negb (n =? 215) && negb (n =? 247)).
Definition word_at (o : option ascii) : bool := match o with Some c => is_word c | None => false end.
Definition at_boundary (p : place) : bool := negb (Bool.eqb (word_at (head (before p))) (word_at (head (after p)))).

(** ** The matcher *)

Section matcher.
Context {B : Type}.

Definition or_else (a b : option B) : option B := match a with Some _ => a | None => b end.

(** At most [n] further iterations, each consuming something, tried first. *)
Fixpoint more (body : (place → option B) → place → option B) (n : nat) (k : place → option B) (p : place) : option B :=
  match n with
  | O => k p
  | S n => or_else (body (λ q, if (rest q <? rest p)%nat then more body n k q else None) p) (k p)
  end.
(** Exactly [n] iterations. *)
Fixpoint times (body : (place → option B) → place → option B) (n : nat) (k : place → option B) : place → option B :=
  match n with
  | O => k
  | S n => body (times body n k)
  end.
End matcher.

(** The matcher with a continuation: the first way to match [r] at [p] that [k] accepts. *)
Fixpoint match_re {B : Type} (r : regex) (k : place → option B) (p : place) {struct r} : option B :=
  match r with
  | REmpty => k p
  | RChar class =>
      match step p with Some (c, q) => if class c then k q else None | None => None end
  | RSeq a b => match_re a (match_re b k) p
  | RAlt a b => or_else (match_re a k p) (match_re b k p)
  | RRepeat lo hi a =>
      times (match_re a) lo
        (λ q, more (match_re a) (match hi with Some h => h - lo | None => rest q end)%nat k q) p
  | RBoundary => if at_boundary p then k p else None
  | RStart => match before p with [] => k p | _ => None end
  | RNotAhead a => match match_re a Some p with Some _ => None | None => k p end
  | RNotBehind class => if match head (before p) with Some c => class c | None => false end then None else k p
  end.

(** Where the match of [r] at [p] ends. *)
Definition match_at (r : regex) (p : place) : option place := match_re r Some p.

(** ** What a pattern means *)

Fixpoint lang (r : regex) (p q : place) : Prop :=
  match r with
  | REmpty => q = p
  | RChar class => ∃ c, step p = Some (c, q) ∧ class c = true
  | RSeq a b => ∃ m, lang a p m ∧ lang b m q
  | RAlt a b => lang a p q ∨ lang b p q
  | RRepeat lo hi a =>
      ∃ m, nsteps (lang a) lo p m ∧
        match hi with
        | Some h => bsteps (λ x y, lang a x y ∧ (rest y < rest x)%nat) (h - lo) m q
        | None => rtc (λ x y, lang a x y ∧ (rest y < rest x)%nat) m q
        end
  | RBoundary => q = p ∧ at_boundary p = true
  | RStart => q = p ∧ before p = []
  | RNotAhead a => q = p ∧ ¬ ∃ m, lang a p m
  | RNotBehind class => q = p ∧ ∀ c, head (before p) = Some c → class c = false
  end.

(** The matcher of [r] finds what [k] accepts after a match of [r], if anything. *)
Definition decides {B : Type} (m : (place → option B) → place → option B) (L : place → place → Prop) : Prop :=
  ∀ k p, (∀ b, m k p = Some b → ∃ q, L p q ∧ k q = Some b) ∧
         (∀ q, L p q → k q ≠ None → m k p ≠ None).

Lemma or_else_Some {B : Type} (a b : option B) x : or_else a b = Some x → a = Some x ∨ a = None ∧ b = Some x.
Proof. destruct a; cbn; auto. Qed.
Lemma or_else_None {B : Type} (a b : option B) : or_else a b = None ↔ a = None ∧ b = None.
Proof. destruct a; cbn; naive_solver. Qed.

Lemma times_decides {B : Type} (m : (place → option B) → place → option B) L n : decides m L → decides (times m n) (nsteps L n).
Proof.
  intros Hm. induction n as [|n IH]; intros k p; cbn [times]; split.
  - intros b E. exists p. split; [constructor|done].
  - intros q Hq. by inversion Hq; subst.
  - intros b E. apply Hm in E as (q & Hq & E). apply IH in E as (q' & Hq' & E). exists q'. split; [by econstructor|done].
  - intros q Hq Hk. inversion Hq as [|? ? q' ? H1 H2]; subst. eapply (proj2 (Hm _ p)); [exact H1|]. by eapply IH.
Qed.

Lemma more_decides {B : Type} (m : (place → option B) → place → option B) L n :
  decides m L → decides (more m n) (bsteps (λ x y, L x y ∧ (rest y < rest x)%nat) n).
Proof.
  intros Hm. induction n as [|n IH]; intros k p; cbn [more]; split.
  - intros b E. exists p. split; [constructor|done].
  - intros q Hq. by inversion Hq; subst.
  - intros b [E|[_ E]]%or_else_Some.
    + apply Hm in E as (q & Hq & E). destruct (rest q <? rest p)%nat eqn:Hr; [|done]. apply Nat.ltb_lt in Hr.
      apply IH in E as (q' & Hq' & E). exists q'. split; [by eapply bsteps_l|done].
    + exists p. split; [apply bsteps_refl|done].
  - intros q Hq Hk [E1 E2]%or_else_None. inversion Hq as [|? ? q' ? [H1 Hr] H2]; subst; [done|].
    revert E1. eapply (proj2 (Hm _ p)); [exact H1|]. apply Nat.ltb_lt in Hr. rewrite Hr. by eapply IH.
Qed.

(** As many iterations as there are characters left are enough. *)
Lemma rtc_bounded (L : place → place → Prop) p q :
  rtc (λ x y, L x y ∧ (rest y < rest x)%nat) p q → bsteps (λ x y, L x y ∧ (rest y < rest x)%nat) (rest p) p q.
Proof.
  induction 1 as [p|p m q [H1 H2] _ IH]; [apply bsteps_refl|].
  eapply (bsteps_weaken (S (rest m))); [lia|]. by eapply bsteps_l.
Qed.
Lemma bsteps_closure (R : place → place → Prop) n p q : bsteps R n p q → rtc R p q.
Proof. induction 1; [apply rtc_refl|by eapply rtc_l]. Qed.

Theorem match_re_decides r : ∀ B : Type, decides (B:=B) (match_re r) (lang r).
Proof.
  induction r as [|class|a IHa b IHb|a IHa b IHb|lo hi a IHa| | |a IHa|class]; intros B k p; cbn [match_re lang].
  - split; [intros b E; by exists p|by intros q ->].
  - split.
    + intros b E. destruct (step p) as [[c q]|]; [|done]. destruct (class c) eqn:Ec; [|done]. exists q. split; [by exists c|done].
    + intros q (c & -> & ->) Hk. done.
  - split.
    + intros x E. apply IHa in E as (m & Hm & E). apply IHb in E as (q & Hq & E). exists q. split; [by exists m|done].
    + intros q (m & Hm & Hq) Hk. eapply (proj2 (IHa _ _ p)); [exact Hm|]. by eapply IHb.
  - split.
    + intros x [E|[_ E]]%or_else_Some; [apply IHa in E as (q & ? & ?)|apply IHb in E as (q & ? & ?)]; exists q; auto.
    + intros q [Hq|Hq] Hk [E1 E2]%or_else_None; [by eapply (proj2 (IHa _ k p))|by eapply (proj2 (IHb _ k p))].
  - split.
    + intros x E. apply (times_decides _ (lang a)) in E as (m & Hm & E); [|apply IHa].
      apply (more_decides _ (lang a)) in E as (q & Hq & E); [|apply IHa]. exists q. split; [|done].
      exists m. split; [done|]. destruct hi; [done|by eapply bsteps_closure].
    + intros q (m & Hm & Hq) Hk. eapply (proj2 (times_decides _ (lang a) lo (IHa B) _ p)); [exact Hm|].
      eapply (proj2 (more_decides _ (lang a) _ (IHa B) _ m)); [|exact Hk]. destruct hi; [done|by apply rtc_bounded].
  - destruct (at_boundary p); split; [intros b E; by exists p|by intros q [-> _]|done|by intros q [_ ?]].
  - destruct (before p); split; [intros b E; by exists p|by intros q [-> _]|done|by intros q [_ ?]].
  - pose proof (IHa place Some p) as [H1 H2]. destruct (match_re a Some p) as [m|] eqn:E; split; try done.
    + intros q [_ []]. destruct (H1 m eq_refl) as (m' & Hm & _). by exists m'.
    + intros b Ek. exists p. split; [split; [done|]|done]. intros (m & Hm). by apply (H2 m).
    + by intros q [-> _].
  - destruct (head (before p)) as [c|]; [destruct (class c) eqn:Ec|]; split; try done.
    + intros q [_ H]. by rewrite (H c eq_refl) in Ec.
    + intros b E. exists p. split; [split; [done|by intros ? [= <-]]|done].
    + by intros q [-> _].
    + intros b E. by exists p.
    + by intros q [-> _].
Qed.

(** ** Scanning a text *)

(** [p] is a place of the text [s]. *)
Definition place_in (s : list ascii) (p : place) : Prop := rev (before p) ++ after p = s.
(** [r] matches somewhere in [s]. *)
Definition occurs (r : regex) (s : string) : Prop :=
  ∃ p q, place_in (String.list_ascii_of_string s) p ∧ lang r p q.

(** [pattern.search]. *)
Fixpoint search_from (r : regex) (b a : list ascii) : bool :=
  match match_at r (mkPlace b a) with
  | Some _ => true
  | None => match a with [] => false | c :: a => search_from r (c :: b) a end
  end.
Definition search (r : regex) (s : string) : bool := search_from r [] (String.list_ascii_of_string s).

Lemma match_at_spec r p : is_Some (match_at r p) ↔ ∃ q, lang r p q.
Proof.
  unfold match_at. destruct (match_re_decides r place Some p) as [H1 H2]. split.
  - intros [q E]. destruct (H1 q E) as (q' & Hq & _). by exists q'.
  - intros [q Hq]. destruct (match_re r Some p) as [x|] eqn:E; [by exists x|]. by destruct (H2 q Hq).
Qed.

Lemma search_from_spec r b a :
  search_from r b a = true ↔ ∃ a1 a2 q, a = a1 ++ a2 ∧ lang r (mkPlace (rev a1 ++ b) a2) q.
Proof.
  revert b. induction a as [|c a IH]; intros b; cbn [search_from];
    pose proof (match_at_spec r (mkPlace b (c :: a))) as Hm || pose proof (match_at_spec r (mkPlace b [])) as Hm;
    destruct (match_at r _) as [x|].
  - split; [|done]. intros _. destruct (proj1 Hm) as [q Hq]; [by exists x|]. by exists [], [], q.
  - split; [done|]. intros (a1 & a2 & q & E & Hq). symmetry in E. apply app_eq_nil in E as [-> ->].
    destruct (proj2 Hm) as [? ?]; [by exists q|done].
  - split; [|done]. intros _. destruct (proj1 Hm) as [q Hq]; [by exists x|]. by exists [], (c :: a), q.
  - rewrite IH. split.
    + intros (a1 & a2 & q & -> & Hq). exists (c :: a1), a2, q. split; [done|]. cbn [rev]. by rewrite <- app_assoc.
    + intros ([|c' a1] & a2 & q & E & Hq); cbn in E.
      * subst a2. destruct (proj2 Hm) as [? ?]; [by exists q|done].
      * injection E as <- ->. exists a1, a2, q. split; [done|]. cbn [rev] in Hq. by rewrite <- app_assoc in Hq.
Qed.

(** Searching decides whether the pattern occurs. *)
Lemma search_spec r s : search r s = true ↔ occurs r s.
Proof.
  unfold search, occurs, place_in. rewrite search_from_spec. split.
  - intros (a1 & a2 & q & E & Hq). rewrite app_nil_r in Hq. exists (mkPlace (rev a1) a2), q. cbn. by rewrite rev_involutive.
  - intros ([b a] & q & E & Hq). cbn in E. exists (rev b), a, q. by rewrite rev_involutive, app_nil_r.
Qed.

(** The matches of [r] from left to right, each with the text passed over before it,
    and the text after the last.  The patterns of the guardrails never match the empty
    text ([consuming]); an empty match is passed over. *)
Fixpoint matches_from (n : nat) (r : regex) (skipped b a : list ascii) : list (list ascii * list ascii) * list ascii :=
  match n with
  | O => ([], rev skipped ++ a)
  | S n =>
      let pass := match a with
        | [] => ([], rev skipped)
        | c :: a => matches_from n r (c :: skipped) (c :: b) a
        end in
      match match_at r (mkPlace b a) with
      | Some q =>
          if (rest q <? length a)%nat then
            let '(l, t) := matches_from n r [] (before q) (after q) in
            ((rev skipped, firstn (length a - rest q) a) :: l, t)
          else pass
      | None => pass
      end
  end.
Definition matches (r : regex) (s : string) : list (list ascii * list ascii) * list ascii :=
  let l := String.list_ascii_of_string s in matches_from (length l) r [] [] l.

(** [pattern.findall], of a pattern without groups. *)
Definition findall (r : regex) (s : string) : list string :=
  map (λ m, String.string_of_list_ascii (snd m)) (fst (matches r s)).
(** [pattern.subn], with a replacement that has no backslash. *)
Definition subn (r : regex) (repl s : string) : string * Z :=
  let '(l, t) := matches r s in
  (String.string_of_list_ascii (concat (map (λ m, fst m ++ String.list_ascii_of_string repl) l) ++ t),
   Z.of_nat (length l)).

(** Whether every match takes at least one character. *)
Fixpoint consuming (r : regex) : bool :=
  match r with
  | RChar _ => true
  | RSeq a b => consuming a || consuming b
  | RAlt a b => consuming a && consuming b
  | RRepeat lo _ a => (0 <? lo)%nat && consuming a
  | _ => false
  end.

Lemma lang_forward r p q : lang r p q → ∃ l, after p = l ++ after q ∧ before q = rev l ++ before p.
Proof.
  assert (Hn : ∀ (L : place → place → Prop) n p q,
    (∀ p q, L p q → ∃ l, after p = l ++ after q ∧ before q = rev l ++ before p) → nsteps L n p q →
    ∃ l, after p = l ++ after q ∧ before q = rev l ++ before p).
  { intros L n x y HL. induction 1 as [x|n x m y H1 _ (l2 & E1 & E2)]; [by exists []|].
    destruct (HL _ _ H1) as (l1 & E3 & E4). exists (l1 ++ l2). rewrite rev_app_distr, <- !app_assoc. split; congruence. }
  revert p q. induction r as [|class|a IHa b IHb|a IHa b IHb|lo hi a IHa| | |a IHa|class]; intros p q; cbn [lang].
  - intros ->. by exists [].
  - intros (c & E & _). unfold step in E. destruct (after p) as [|c' l]; [done|]. injection E as <- <-. by exists [c'].
  - intros (m & Hm & Hq). destruct (IHa _ _ Hm) as (l1 & E1 & E2), (IHb _ _ Hq) as (l2 & E3 & E4).
    exists (l1 ++ l2). rewrite rev_app_distr, <- !app_assoc. split; congruence.
  - intros [?|?]; auto.
  - intros (m & Hm & Hq). destruct (Hn _ _ _ _ IHa Hm) as (l1 & E1 & E2).
    assert (Hr : rtc (λ x y, lang a x y ∧ (rest y < rest x)%nat) m q) by (destruct hi; [by eapply bsteps_closure|done]).
    apply rtc_nsteps in Hr as [n Hr]. destruct (Hn _ _ _ _ (λ x y H, IHa x y (proj1 H)) Hr) as (l2 & E3 & E4).
    exists (l1 ++ l2). rewrite rev_app_distr, <- !app_assoc. split; congruence.
  - intros [-> _]. by exists [].
  - intros [-> _]. by exists [].
  - intros [-> _]. by exists [].
  - intros [-> _]. by exists [].
Qed.

Lemma lang_rest r p q : lang r p q → (rest q ≤ rest p)%nat.
Proof. intros (l & E & _)%lang_forward. unfold rest. rewrite E, length_app. lia. Qed.

Lemma consuming_spec r p q : consuming r = true → lang r p q → (rest q < rest p)%nat.
Proof.
  revert p q. induction r as [|class|a IHa b IHb|a IHa b IHb|lo hi a IHa| | |a IHa|class]; intros p q; cbn [lang consuming]; try done.
  - intros _ (c & E & _). unfold step in E. unfold rest. destruct (after p) as [|c' l]; [done|]. injection E as <- <-. cbn. lia.
  - rewrite orb_true_iff. intros Hc (m & Hm & Hq). pose proof (lang_rest _ _ _ Hm). pose proof (lang_rest _ _ _ Hq).
    destruct Hc as [Hc|Hc]; [specialize (IHa _ _ Hc Hm)|specialize (IHb _ _ Hc Hq)]; lia.
  - rewrite andb_true_iff. intros [Ha Hb] [?|?]; auto.
  - rewrite andb_true_iff, Nat.ltb_lt. intros [Hlo Ha] (m & Hm & Hq).
    assert (rest q ≤ rest m)%nat as Hqm.
    { assert (Hr : rtc (λ x y, lang a x y ∧ (rest y < rest x)%nat) m q) by (destruct hi; [by eapply bsteps_closure|done]).
      clear -Hr. induction Hr as [x|x y z [_ H] _ IH]; lia. }
    inversion Hm as [|n ? y ? H1 H2]; subst; [lia|]. specialize (IHa _ _ Ha H1).
    assert (rest m ≤ rest y)%nat; [|lia]. clear -H2. induction H2 as [x|n x y z H _ IH]; [lia|].
    pose proof (lang_rest _ _ _ H). lia.
Qed.

Lemma matches_from_text n r sk b a :
  let '(l, t) := matches_from n r sk b a in concat (map (λ m, fst m ++ snd m) l) ++ t = rev sk ++ a.
Proof.
  revert sk b a. induction n as [|n IH]; intros sk b a; cbn [matches_from]; [done|].
  assert (Hpass : let '(l, t) := match a with
      | [] => ([], rev sk)
      | c :: a => matches_from n r (c :: sk) (c :: b) a
      end in concat (map (λ m, fst m ++ snd m) l) ++ t = rev sk ++ a).
  { destruct a as [|c a]; [by rewrite app_nil_r|]. specialize (IH (c :: sk) (c :: b) a).
    destruct (matches_from _ _ _ _ _). rewrite IH. cbn [rev]. by rewrite <- app_assoc. }
  destruct (match_at r (mkPlace b a)) as [q|] eqn:E; [|exact Hpass].
  destruct (rest q <? length a)%nat eqn:Hr; [|exact Hpass]. clear Hpass.
  specialize (IH [] (before q) (after q)). destruct (matches_from _ _ _ _ _) as [l t]. cbn [map fst snd concat].
  rewrite <- app_assoc, IH. cbn [rev app]. rewrite <- app_assoc. f_equal.
  destruct (match_re_decides r place Some (mkPlace b a)) as [H1 _]. destruct (H1 q E) as (q' & Hq & [= ->]).
  apply lang_forward in Hq as (x & Ea & _). cbn in Ea. unfold rest. rewrite Ea, length_app, Nat.add_sub.
  by rewrite firstn_app, Nat.sub_diag, firstn_all, firstn_O, app_nil_r.
Qed.

Lemma matches_from_none n r sk b a :
  search_from r b a = false → (length a ≤ n)%nat → matches_from n r sk b a = ([], rev sk ++ a).
Proof.
  revert sk b a. induction n as [|n IH]; intros sk b a Hs Hn; cbn [matches_from].
  { destruct a; [done|cbn in Hn; lia]. }
  destruct a as [|c a]; cbn [search_from] in Hs; destruct (match_at r _); try done.
  - by rewrite app_nil_r.
  - rewrite IH; [|done|cbn in Hn; lia]. cbn [rev]. by rewrite <- app_assoc.
Qed.

Lemma matches_from_some n r sk b a :
  consuming r = true → search_from r b a = true → (length a ≤ n)%nat → fst (matches_from n r sk b a) ≠ [].
Proof.
  intros Hc. revert sk b a. induction n as [|n IH]; intros sk b a Hs Hn; cbn [matches_from].
  - destruct a; [|cbn in Hn; lia]. exfalso. apply search_from_spec in Hs as (a1 & a2 & q & E & Hq).
    symmetry in E. apply app_eq_nil in E as [-> ->]. apply consuming_spec in Hq; [|done]. cbn in Hq. lia.
  - destruct (match_at r (mkPlace b a)) as [q|] eqn:E.
    + destruct (match_re_decides r place Some (mkPlace b a)) as [H1 _]. destruct (H1 q E) as (q' & Hq & [= ->]).
      apply consuming_spec in Hq; [|done]. unfold rest at 2 in Hq. cbn [after] in Hq. apply Nat.ltb_lt in Hq. rewrite Hq.
      by destruct (matches_from _ _ _ _ _).
    + destruct a as [|c a]; cbn [search_from] in Hs; rewrite E in Hs; [done|]. apply IH; [done|cbn in Hn; lia].
Qed.

(** What [findall] and [subn] find of a pattern that consumes. *)
Lemma findall_nil r s : consuming r = true → findall r s = [] ↔ ¬ occurs r s.
Proof.
  intros Hc. rewrite <- search_spec. unfold findall, matches, search.
  destruct (search_from r [] (String.list_ascii_of_string s)) eqn:E.
  - split; [|by intros []]. intros Hm. exfalso.
    apply (matches_from_some (length (String.list_ascii_of_string s)) r [] [] _ Hc E (le_n _)).
    by apply map_eq_nil in Hm.
  - split; [done|]. intros _. by rewrite matches_from_none.
Qed.

Lemma list_of_string_of (s : string) : String.string_of_list_ascii (String.list_ascii_of_string s) = s.
Proof. apply String.string_of_list_ascii_of_string. Qed.

Lemma subn_none r repl s : ¬ occurs r s → subn r repl s = (s, 0).
Proof.
  rewrite <- search_spec, not_true_iff_false. intros E. unfold subn, matches, search in *.
  rewrite matches_from_none by done. cbn. by rewrite list_of_string_of.
Qed.
Lemma subn_some r repl s : consuming r = true → occurs r s → 0 < snd (subn r repl s).
Proof.
  intros Hc E%search_spec. unfold subn, matches, search in *.
  pose proof (matches_from_some (length (String.list_ascii_of_string s)) r [] [] _ Hc E (le_n _)) as H.
  destruct (matches_from _ _ _ _ _) as [[|x l] t]; [done|]. cbn. lia.
Qed.
Lemma subn_count r repl s : 0 ≤ snd (subn r repl s).
Proof. unfold subn. destruct (matches r s). cbn. lia. Qed.

(** ** Writing patterns *)

Definition in_ranges (l : list (Z * Z)) (c : ascii) : bool := existsb (λ '(a, b), (a <=? ord c) && (ord c <=? b)) l.
Definition digit (c : ascii) : bool := in_ranges [(48, 57)] c.
Definition upper_letter (c : ascii) : bool := in_ranges [(65, 90)] c.
Definition letter (c : ascii) : bool := in_ranges [(65, 90); (97, 122)] c.
Definition one_of (s : string) (c : ascii) : bool := existsb (Ascii.eqb c) (String.list_ascii_of_string s).
Definition either (f g : ascii → bool) (c : ascii) : bool := f c || g c.

Fixpoint seqs (l : list regex) : regex :=
  match l with [] => REmpty | [a] => a | a :: l => RSeq a (seqs l) end.
(** A choice of at least one. *)
Fixpoint alts (a : regex) (l : list regex) : regex :=
  match l with [] => a | b :: l => RAlt a (alts b l) end.
Definition opt (a : regex) : regex := RRepeat 0 (Some 1%nat) a.
Definition star (a : regex) : regex := RRepeat 0 None a.
Definition plus (a : regex) : regex := RRepeat 1 None a.
Definition exactly (n : nat) (a : regex) : regex := RRepeat n (Some n) a.
Definition at_least (n : nat) (a : regex) : regex := RRepeat n None a.
Definition between (n m : nat) (a : regex) : regex := RRepeat n (Some m) a.
(** The text itself, and the text whatever its case ([re.I]). *)
Definition lit (s : string) : regex := seqs (map (λ c, RChar (Ascii.eqb c)) (String.list_ascii_of_string s)).
Definition lit_i (s : string) : regex :=
  seqs (map (λ c, RChar (λ d, Ascii.eqb (lower_char d) (lower_char c))) (String.list_ascii_of_string s)).
Definition words_i (s : string) (l : list string) : regex := alts (lit_i s) (map lit_i l).
Definition spaces : regex := plus (RChar is_space).

(** [s.replace(old, new)], where [old] is not empty. *)
Definition replace (old new s : string) : string := fst (subn (lit old) new s).

Example regex_examples :
  findall (seqs [RBoundary; between 2 3 (RChar digit); RNotAhead (RChar digit)]) "12 3 4567 890" = ["12"; "890"] ∧
  subn (RAlt (lit "ab") (lit "a")) "<>" "aabxa" = ("<><>x<>", 3) ∧
  search (seqs [RStart; words_i "GET" ["PUT"]; opt (lit "s"); spaces]) "gets  it" = true ∧
  replace "aa" "b" "aaaxa" = "baxa".
Proof. split_and!; vm_compute; reflexivity. Qed.

(** ** The characters of a match *)

Definition all_chars (f : ascii → bool) : bool := forallb (λ n, f (ascii_of_nat n)) (seq 0 256).
Lemma all_chars_spec f : all_chars f = true → ∀ c, f c = true.
Proof.
  unfold all_chars. rewrite forallb_forall. intros H c. rewrite <- (ascii_nat_embedding c). apply H, in_seq.
  pose proof (nat_ascii_bounded c). lia.
Qed.
(** Every character a match of [r] takes is in [f]. *)
Fixpoint only (f : ascii → bool) (r : regex) : bool :=
  match r with
  | RChar class => all_chars (λ c, implb (class c) (f c))
  | RSeq a b | RAlt a b => only f a && only f b
  | RRepeat _ _ a => only f a
  | _ => true
  end.

Definition taken (f : ascii → bool) (p q : place) : Prop :=
  ∃ l, after p = l ++ after q ∧ Forall (λ c, f c = true) l.
Lemma taken_refl f p : taken f p p.
Proof. by exists []. Qed.
Lemma taken_trans f p q r : taken f p q → taken f q r → taken f p r.
Proof.
  intros (l1 & E1 & H1) (l2 & E2 & H2). exists (l1 ++ l2). rewrite E1, E2, app_assoc. split; [done|by apply Forall_app].
Qed.
Lemma taken_steps f (L : place → place → Prop) n p q : (∀ p q, L p q → taken f p q) → nsteps L n p q → taken f p q.
Proof. intros HL. induction 1 as [x|n x y z Hxy _ IH]; [apply taken_refl|]. eapply taken_trans; eauto. Qed.

Lemma repeat_steps lo hi a p q : lang (RRepeat lo hi a) p q → ∃ n, nsteps (lang a) n p q.
Proof.
  cbn [lang]. intros (m & Hm & Hq).
  assert (Hr : rtc (λ x y, lang a x y ∧ (rest y < rest x)%nat) m q) by (destruct hi; [by eapply bsteps_closure|done]).
  apply rtc_nsteps in Hr as [n Hr]. exists (lo + n)%nat. eapply nsteps_trans; [exact Hm|].
  clear -Hr. induction Hr as [x|n x y z [H _] _ IH]; [constructor|by econstructor].
Qed.

Lemma only_taken f r p q : only f r = true → lang r p q → taken f p q.
Proof.
  revert p q. induction r as [|class|a IHa b IHb|a IHa b IHb|lo hi a IHa| | |a IHa|class]; intros p q Ho Hl.
  - cbn [lang] in Hl. subst. apply taken_refl.
  - destruct Hl as (c & E & Ec). cbn [only] in Ho. pose proof (all_chars_spec _ Ho c) as Hc. cbn in Hc.
    rewrite Ec in Hc. cbn in Hc. unfold step in E. destruct (after p) as [|c' l] eqn:Ep; [done|]. injection E as <- <-.
    exists [c']. rewrite Ep. split; [done|by constructor].
  - cbn [only lang] in *. apply andb_true_iff in Ho as [Ha Hb]. destruct Hl as (m & Hm & Hq).
    eapply taken_trans; eauto.
  - cbn [only lang] in *. apply andb_true_iff in Ho as [Ha Hb]. destruct Hl as [?|?]; eauto.
  - apply repeat_steps in Hl as [n Hn]. cbn [only] in Ho. eapply taken_steps; [|exact Hn]. intros. by apply IHa.
  - destruct Hl as [-> _]. apply taken_refl.
  - destruct Hl as [-> _]. apply taken_refl.
  - destruct Hl as [-> _]. apply taken_refl.
  - destruct Hl as [-> _]. apply taken_refl.
Qed.

Lemma matches_from_only f n r sk b a :
  only f r = true → Forall (λ m, Forall (λ c, f c = true) m.2) (fst (matches_from n r sk b a)).
Proof.
  intros Ho. revert sk b a. induction n as [|n IH]; intros sk b a; cbn [matches_from]; [constructor|].
  assert (Hpass : Forall (λ m, Forall (λ c, f c = true) m.2) (fst match a with
      | [] => ([], rev sk)
      | c :: a => matches_from n r (c :: sk) (c :: b) a
      end)) by (destruct a; [constructor|apply IH]).
  destruct (match_at r (mkPlace b a)) as [q|] eqn:E; [|exact Hpass].
  destruct (rest q <? length a)%nat; [|exact Hpass]. clear Hpass. specialize (IH [] (before q) (after q)).
  destruct (matches_from _ _ _ _ _) as [l t]. constructor; [|exact IH]. cbn [snd].
  destruct (match_re_decides r place Some (mkPlace b a)) as [H1 _]. destruct (H1 q E) as (q' & Hq & [= ->]).
  apply (only_taken f) in Hq as (x & Ea & Hx); [|done]. cbn in Ea. unfold rest. rewrite Ea, length_app, Nat.add_sub.
  by rewrite firstn_app, Nat.sub_diag, firstn_all, firstn_O, app_nil_r.
Qed.
Lemma findall_only f r s :
  only f r = true → Forall (λ m, Forall (λ c, f c = true) (String.list_ascii_of_string m)) (findall r s).
Proof.
  intros Ho. unfold findall, matches. rewrite Forall_fmap. eapply Forall_impl; [by apply matches_from_only|].
  intros m Hm. cbn. by rewrite String.list_ascii_of_string_of_list_ascii.
Qed.
