(* ===== verification/PyCodec.v ===== *)
(** * Encodings of texts and bytes

    What the signed documents are written with: UTF-8, the canonical JSON of
    [json.dumps(sort_keys=True, separators=(",", ":"), ensure_ascii=False)], and
    base64.  Bytes are characters 0 to 255 of a [string]. *)

From Stdlib Require Import Ascii.
From S2P Require Import Prelude PyFloat PyTime Ledger PyText.
Local Open Scope Z_scope.

(** [s.encode("utf-8")]: the characters of a text are at most U+00FF. *)
Fixpoint utf8 (s : string) : string :=
  match s with
  | "" => ""
  | String c s => if ord c <? 128 then String c (utf8 s)
                  else String (chr (192 + ord c / 64)) (String (chr (128 + ord c mod 64)) (utf8 s))
  end.

(** ** [json.dumps] *)

(** A character of a JSON string, with [ensure_ascii=False]. *)
Definition wide_char (c : ascii) : string :=
  if 126 <? ord c then String c "" else json_char c.
Definition wide_string (s : string) : string :=
  String quote_char (String.concat "" (map wide_char (String.list_ascii_of_string s)) +:+ String quote_char "").
Definition json_float (f : float) : string :=
  match f with
  | S754_nan => "NaN"
  | S754_infinity s => if s then "-Infinity" else "Infinity"
  | _ => float_repr f
  end.
(** A value with every instant already a text. *)
Fixpoint canonical_text (v : json) : string :=
  match v with
  | JNull => "null"
  | JBool b => if b then "true" else "false"
  | JInt z => pretty z
  | JFloat f => json_float f
  | JStr s => wide_string s
  | JTime t => wide_string (isoformat t)
  | JList l => "[" +:+ join "," (map canonical_text l) +:+ "]"
  | JObj d => "{" +:+ join "," (map (λ '(k, x), wide_string k +:+ ":" +:+ x)
      (sort_by (cmp_on fst String.compare) (map (λ '(k, x), (k, canonical_text x)) d))) +:+ "}"
  end.
Definition canonical_json (v : json) : string := utf8 (canonical_text v).

Example canonical_example :
  canonical_json (JObj [("b", JList [JInt (-3); JNull; JBool true]); ("a", JStr (String (chr 233) "/"))]) =
  "{" +:+ String quote_char "a" +:+ String quote_char ":" +:+ String quote_char
    (String (chr 195) (String (chr 169) ("/" +:+ String quote_char ("," +:+
      String quote_char "b" +:+ String quote_char ":[-3,null,true]}")))).
Proof. vm_compute. reflexivity. Qed.

(** ** base64 *)

Definition sextet (n : Z) : ascii :=
  chr (if n <? 26 then 65 + n else if n <? 52 then 71 + n else if n <? 62 then n - 4
       else if n =? 62 then 43 else 47).
Definition value_of_sextet (c : ascii) : option Z :=
  let n := ord c in
  if (65 <=? n) && (n <=? 90) then Some (n - 65)
  else if (97 <=? n) && (n <=? 122) then Some (n - 71)
  else if (48 <=? n) && (n <=? 57) then Some (n + 4)
  else if n =? 43 then Some 62 else if n =? 47 then Some 63 else None.
Definition pad : ascii := chr 61.

Fixpoint b64_encode (l : list ascii) : list ascii :=
  match l with
  | a :: b :: c :: l =>
      let '(a, b, c) := (ord a, ord b, ord c) in
      sextet (a / 4) :: sextet (a mod 4 * 16 + b / 16) :: sextet (b mod 16 * 4 + c / 64) :: sextet (c mod 64) :: b64_encode l
  | [a; b] => let '(a, b) := (ord a, ord b) in
      [sextet (a / 4); sextet (a mod 4 * 16 + b / 16); sextet (b mod 16 * 4); pad]
  | [a] => [sextet (ord a / 4); sextet (ord a mod 4 * 16); pad; pad]
  | [] => []
  end.

(** [b64decode(l, validate=True)]; [None] is a [binascii.Error]. *)
Fixpoint b64_decode (l : list ascii) : option (list ascii) :=
  match l with
  | [] => Some []
  | w :: x :: y :: z :: l =>
      match value_of_sextet w, value_of_sextet x with
      | Some w, Some x =>
          let a := chr (w * 4 + x / 16) in
          match value_of_sextet y with
          | Some y =>
              let b := chr (x mod 16 * 16 + y / 4) in
              match value_of_sextet z with
              | Some z => (λ r, a :: b :: chr (y mod 4 * 64 + z) :: r) <$> b64_decode l
              | None => if decide (z = pad ∧ l = []) then Some [a; b] else None
              end
          | None => if decide (y = pad ∧ z = pad ∧ l = []) then Some [a] else None
          end
      | _, _ => None
      end
  | _ => None
  end.
Definition b64encode (s : string) : string := String.string_of_list_ascii (b64_encode (String.list_ascii_of_string s)).
Definition b64decode (s : string) : option string := String.string_of_list_ascii <$> b64_decode (String.list_ascii_of_string s).

Example base64_examples :
  b64encode "Many hands" = "TWFueSBoYW5kcw==" ∧ b64decode "TWFueSBoYW5kcw==" = Some "Many hands" ∧
  b64decode "TWF" = None ∧ b64decode "TW=u" = None ∧ b64decode "T-Fu" = None ∧ b64decode "TWFu====" = None.
Proof. vm_compute. done. Qed.

(** *** What is encoded is decoded *)

Lemma ord_chr n : 0 ≤ n < 256 → ord (chr n) = n.
Proof. intros Hn. unfold ord, chr. rewrite nat_ascii_embedding by lia. lia. Qed.
Lemma chr_ord c : chr (ord c) = c.
Proof. unfold ord, chr. rewrite Nat2Z.id. apply ascii_nat_embedding. Qed.
Lemma ord_bound c : 0 ≤ ord c < 256.
Proof. unfold ord. pose proof (nat_ascii_bounded c). lia. Qed.

Lemma value_sextet n : 0 ≤ n < 64 → value_of_sextet (sextet n) = Some n.
Proof.
  intros Hn. assert (H : forallb (λ k, bool_decide (value_of_sextet (sextet (Z.of_nat k)) = Some (Z.of_nat k))) (seq 0 64) = true)
    by (vm_compute; reflexivity).
  rewrite forallb_forall in H. specialize (H (Z.to_nat n)). rewrite in_seq, Z2Nat.id, bool_decide_eq_true in H by lia.
  apply H. lia.
Qed.
Lemma value_pad : value_of_sextet pad = None.
Proof. reflexivity. Qed.

Ltac sextets :=
  rewrite ?value_sextet, ?value_pad by (split; [|Z.div_mod_to_equations]; lia || (Z.div_mod_to_equations; lia)).

Lemma b64_round_trip l : b64_decode (b64_encode l) = Some l.
Proof.
  induction l as [l IH] using (induction_ltof1 _ length).
  assert (Hb : ∀ n c, n = ord c → chr n = c) by (intros ? ? ->; apply chr_ord).
  destruct l as [|a [|b [|c l]]]; [done|pose proof (ord_bound a)|pose proof (ord_bound a); pose proof (ord_bound b)
    |pose proof (ord_bound a); pose proof (ord_bound b); pose proof (ord_bound c)]; cbn [b64_encode b64_decode].
  - sextets. rewrite decide_True by done. repeat f_equal. apply Hb. Z.div_mod_to_equations; lia.
  - sextets. rewrite decide_True by done. repeat f_equal; apply Hb; Z.div_mod_to_equations; lia.
  - sextets. rewrite IH by (unfold ltof; cbn; lia). cbn. repeat f_equal; apply Hb; Z.div_mod_to_equations; lia.
Qed.
Lemma b64decode_b64encode s : b64decode (b64encode s) = Some s.
Proof.
  unfold b64decode, b64encode. rewrite String.list_ascii_of_string_of_list_ascii, b64_round_trip. cbn.
  by rewrite String.string_of_list_ascii_of_string.
Qed.
