(* ===== verification/Materiality.v ===== *)
(** * Adjudication: materiality

    adjudication/materiality.py: the policy and the measured inputs of a
    materiality score with the constraints pydantic checks, [assess], and the
    digest of a finding's material content.  SHA-256 is a parameter: a function
    from the text it digests. *)

From Stdlib Require Import Ascii.
From S2P Require Import Prelude PyFloat PyTime Ledger PyText.
Local Open Scope Z_scope.

Definition SEVERITY_ORDER : list string := ["low"; "medium"; "high"; "critical"].

(** [tuple.index]. *)
Fixpoint index_of (x : string) (l : list string) : option Z :=
  match l with
  | [] => None
  | y :: l => if decide (x = y) then Some 0 else (Z.succ <$> index_of x l)
  end.
Definition severity_rank (severity : string) : Z :=
  match index_of severity SEVERITY_ORDER with
  | Some i => i
  | None => Z.of_nat (length SEVERITY_ORDER) - 1
  end.

Module QualitativeFactor.
Inductive t :=
  | REGULATORY_REPORTABLE | FRAUD_INDICATOR | REPEAT_FINDING | CUSTOMER_IMPACT
  | FINANCIAL_STATEMENT_IMPACT | PERVASIVE_ACROSS_UNITS | CONTROL_ENVIRONMENT_WEAKNESS
  | MANAGEMENT_OVERRIDE.
#[global] Instance eq_dec : EqDecision t.
Proof. solve_decision. Defined.
End QualitativeFactor.
Abbreviation QualitativeFactor := QualitativeFactor.t.

Definition QualitativeFactor_value (f : QualitativeFactor) : string :=
  match f with
  | QualitativeFactor.REGULATORY_REPORTABLE => "regulatory_reportable"
  | QualitativeFactor.FRAUD_INDICATOR => "fraud_indicator"
  | QualitativeFactor.REPEAT_FINDING => "repeat_finding"
  | QualitativeFactor.CUSTOMER_IMPACT => "customer_impact"
  | QualitativeFactor.FINANCIAL_STATEMENT_IMPACT => "financial_statement_impact"
  | QualitativeFactor.PERVASIVE_ACROSS_UNITS => "pervasive_across_units"
  | QualitativeFactor.CONTROL_ENVIRONMENT_WEAKNESS => "control_environment_weakness"
  | QualitativeFactor.MANAGEMENT_OVERRIDE => "management_override"
  end.

#[export] Program Instance QualitativeFactor_str : StrEnum QualitativeFactor := {|
  value := QualitativeFactor_value;
  members := [QualitativeFactor.REGULATORY_REPORTABLE; QualitativeFactor.FRAUD_INDICATOR;
    QualitativeFactor.REPEAT_FINDING; QualitativeFactor.CUSTOMER_IMPACT;
    QualitativeFactor.FINANCIAL_STATEMENT_IMPACT; QualitativeFactor.PERVASIVE_ACROSS_UNITS;
    QualitativeFactor.CONTROL_ENVIRONMENT_WEAKNESS; QualitativeFactor.MANAGEMENT_OVERRIDE]
|}.
Solve Obligations with solve_str_enum.

Definition DEFAULT_FACTOR_WEIGHTS : list (QualitativeFactor * float) :=
  [(QualitativeFactor.REGULATORY_REPORTABLE, float_of_Z 2);
   (QualitativeFactor.FRAUD_INDICATOR, float_of_Z 3);
   (QualitativeFactor.MANAGEMENT_OVERRIDE, float_of_Z 3);
   (QualitativeFactor.REPEAT_FINDING, dec 15 1);
   (QualitativeFactor.FINANCIAL_STATEMENT_IMPACT, float_of_Z 2);
   (QualitativeFactor.CUSTOMER_IMPACT, float_of_Z 1);
   (QualitativeFactor.PERVASIVE_ACROSS_UNITS, dec 15 1);
   (QualitativeFactor.CONTROL_ENVIRONMENT_WEAKNESS, float_of_Z 1)].

(** ** Inputs *)

(** [Field(min_length=a, max_length=b)] on a text. *)
Definition length_within (a b : nat) (s : string) : bool :=
  (a <=? String.length s)%nat && (String.length s <=? b)%nat.

Record FactorAssertion := mkFactorAssertion {
  fa_factor : QualitativeFactor;
  fa_rationale : string;
  fa_evidence_ids : list string
}.
Definition FactorAssertion_valid (a : FactorAssertion) : bool :=
  length_within 3 2000 (fa_rationale a) && negb (bool_decide (fa_evidence_ids a = [])).

Record MaterialityPolicy := mkMaterialityPolicy {
  policy_id : string;
  exception_rate_threshold : float;
  population_floor : Z;
  monetary_threshold : option float;
  factor_weights : list (QualitativeFactor * float);
  severity_bands : list (float * string)
}.

Definition default_policy : MaterialityPolicy :=
  mkMaterialityPolicy "default-v1" (dec 5 2) 20 None DEFAULT_FACTOR_WEIGHTS
    [(float_of_Z 3, "critical"); (float_of_Z 2, "high"); (float_of_Z 1, "medium")].

(** A list [sorted(reverse=True)] leaves as it is. *)
Fixpoint descending (l : list float) : bool :=
  match l with
  | x :: (y :: _) as l' => negb (fltb x y) && descending l'
  | _ => true
  end.

Definition bands_must_descend (p : MaterialityPolicy) : bool :=
  descending (map fst (severity_bands p)) &&
  forallb (λ '(_, name), bool_decide (name ∈ SEVERITY_ORDER)) (severity_bands p).

(** The field constraints and [bands_must_descend]. *)
Definition MaterialityPolicy_valid (p : MaterialityPolicy) : bool :=
  length_within 1 64 (policy_id p) &&
  fltb zero (exception_rate_threshold p) && fleb (exception_rate_threshold p) one &&
  (0 <=? population_floor p) &&
  match monetary_threshold p with Some t => fltb zero t | None => true end &&
  bands_must_descend p.

Record MaterialityInputs := mkMaterialityInputs {
  population_size : Z;
  exception_count : Z;
  monetary_exposure : option float;
  factors : list FactorAssertion
}.

Definition population_must_reconcile (i : MaterialityInputs) : bool :=
  negb (population_size i <? exception_count i) &&
  bool_decide (NoDup (map fa_factor (factors i))).

Definition MaterialityInputs_valid (i : MaterialityInputs) : bool :=
  (0 <=? population_size i) && (0 <=? exception_count i) &&
  match monetary_exposure i with Some x => fleb zero x | None => true end &&
  forallb FactorAssertion_valid (factors i) && population_must_reconcile i.

Record MaterialityResult := mkMaterialityResult {
  res_policy_id : string;
  res_score : float;
  res_material : bool;
  res_severity_floor : string;
  res_components : dict;
  res_rationale : string
}.

(** ** [assess] *)

(** [rate] and [quantitative]. *)
Definition quantitative_term (i : MaterialityInputs) (p : MaterialityPolicy) : Res (float * float) :=
  if (population_floor p <=? population_size i) && (0 <? population_size i) then
    let rate := int_truediv (exception_count i) (population_size i) in
    let? quantitative := float_truediv rate (exception_rate_threshold p) in
    Ok (rate, quantitative)
  else
    Ok (if population_size i =? 0 then zero
        else int_truediv (exception_count i) (population_size i), zero).

Definition monetary_term (i : MaterialityInputs) (p : MaterialityPolicy) : Res float :=
  match monetary_threshold p, monetary_exposure i with
  | Some t, Some x => if feqb t zero then Ok zero else float_truediv x t
  | _, _ => Ok zero
  end.

(** [policy.factor_weights.get(factor, 0.0)]. *)
Definition factor_weight (p : MaterialityPolicy) (f : QualitativeFactor) : float :=
  default zero (snd <$> (snd <$> list_find (λ kv, fst kv = f) (factor_weights p))).

Definition qualitative_term (i : MaterialityInputs) (p : MaterialityPolicy) : float :=
  match map (λ a, factor_weight p (fa_factor a)) (factors i) with
  | [] => zero
  | x :: l => fsum x l
  end.

(** The first band, strongest first, whose threshold the score reaches. *)
Fixpoint severity_floor (bands : list (float * string)) (score : float) : string :=
  match bands with
  | [] => "low"
  | (threshold, name) :: bands => if fleb threshold score then name else severity_floor bands score
  end.

(** [max(..., key=lambda item: item[1])[0]]. *)
Definition dominant_term (quantitative monetary qualitative score : float) : string :=
  let pick (best item : string * float) := if fltb (snd best) (snd item) then item else best in
  if feqb score zero then "none"
  else fst (pick (pick ("quantitative", quantitative) ("monetary", monetary))
                 ("qualitative", qualitative)).

Definition factor_values (i : MaterialityInputs) : list string :=
  map (λ a, value (fa_factor a)) (factors i).

Definition assessment_components (i : MaterialityInputs) (p : MaterialityPolicy)
    (rate quantitative monetary qualitative : float) (dominant : string) : dict :=
  [("quantitative", JFloat (fround quantitative 6));
   ("monetary", JFloat (fround monetary 6));
   ("qualitative", match factors i with [] => JInt 0 | _ => JFloat (fround qualitative 6) end);
   ("exception_rate", JFloat (fround rate 6));
   ("population_below_floor", JBool (population_size i <? population_floor p));
   ("dominant_term", JStr dominant);
   ("factors", JList (map JStr (factor_values i)))].

Definition assessment_rationale (i : MaterialityInputs) (p : MaterialityPolicy)
    (rate score : float) (dominant : string) : string :=
  "score " +:+ fixed 2 score +:+ " under policy " +:+ policy_id p +:+ " driven by the " +:+
  dominant +:+ " term: " +:+
  (if population_size i <? population_floor p
   then "population " +:+ pretty (population_size i) +:+ " is below the policy floor " +:+
        pretty (population_floor p) +:+ ", so the exception rate is not scored"
   else pretty (exception_count i) +:+ " of " +:+ pretty (population_size i) +:+ " (" +:+
        percent 1 rate +:+ ") against a " +:+ percent 1 (exception_rate_threshold p) +:+
        " threshold") +:+
  (match factors i with
   | [] => "; no qualitative factors asserted"
   | _ => "; qualitative factors: " +:+ join ", " (factor_values i)
   end).

(** A result names one of the four severities, or pydantic refuses it. *)
Definition assess (i : MaterialityInputs) (policy : option MaterialityPolicy)
    : Res MaterialityResult :=
  let p := default default_policy policy in
  let? rq := quantitative_term i p in
  let '(rate, quantitative) := rq in
  let? monetary := monetary_term i p in
  let qualitative := qualitative_term i p in
  let score := fmax (fmax quantitative monetary) qualitative in
  let floor := severity_floor (severity_bands p) score in
  let dominant := dominant_term quantitative monetary qualitative score in
  if bool_decide (floor ∈ SEVERITY_ORDER) then
    Ok (mkMaterialityResult (policy_id p) (fround score 6) (fleb one score) floor
          (assessment_components i p rate quantitative monetary qualitative dominant)
          (assessment_rationale i p rate score dominant))
  else Err (Py ValueError).

Example assess_example :
  (λ r, (res_score r, res_material r, res_severity_floor r, res_rationale r)) <$>
    match assess (mkMaterialityInputs 40 3 None
                    [mkFactorAssertion QualitativeFactor.REPEAT_FINDING "seen before" ["ev1"]]) None with
    | Ok r => Some r | Err _ => None
    end =
  Some (dec 15 1, true, "medium",
        "score 1.50 under policy default-v1 driven by the qualitative term: " +:+
        "3 of 40 (7.5%) against a 5.0% threshold; qualitative factors: repeat_finding").
Proof. vm_compute. reflexivity. Qed.

(** ** The digest of the material content *)

Class Sha256 := sha256_hex : string → string.

(** The text [json.dumps] gives of the payload. *)
Definition content_text (code title severity criteria observed_condition risk_statement : string)
    (evidence_ids exception_keys : list string) : string :=
  json_object
    [("code", json_string code); ("title", json_string title);
     ("severity", json_string severity); ("criteria", json_string criteria);
     ("observed_condition", json_string observed_condition);
     ("risk_statement", json_string risk_statement);
     ("evidence_ids", json_strings (sort_by String.compare evidence_ids));
     ("exception_keys", json_strings (sort_by String.compare exception_keys))].

Definition content_hash `{Sha256}
    (code title severity criteria observed_condition risk_statement : string)
    (evidence_ids exception_keys : list string) : string :=
  sha256_hex (content_text code title severity criteria observed_condition risk_statement
    evidence_ids exception_keys).

Example content_text_example :
  String.list_ascii_of_string (content_text "C1" "t" "low" "c" "o" "r" ["b"; "a"] []) =
  map (λ c, if decide (c = "~"%char) then quote_char else c)
    (String.list_ascii_of_string ("{~code~:~C1~,~criteria~:~c~,~evidence_ids~:[~a~,~b~]," +:+
      "~exception_keys~:[],~observed_condition~:~o~,~risk_statement~:~r~," +:+
      "~severity~:~low~,~title~:~t~}")).
Proof. vm_compute. reflexivity. Qed.

(** ** The terms and the floor of a valid assessment *)

Lemma MaterialityPolicy_valid_threshold p :
  MaterialityPolicy_valid p = true →
  fltb zero (exception_rate_threshold p) = true ∧ is_inf (exception_rate_threshold p) = false ∧
  bands_must_descend p = true.
Proof.
  unfold MaterialityPolicy_valid. rewrite !andb_true_iff. intros (((((_ & H1) & H2) & _) & _) & H3).
  split_and!; [done| |done]. by destruct (exception_rate_threshold p) as [|[]| |].
Qed.

Lemma MaterialityInputs_valid_counts i :
  MaterialityInputs_valid i = true → 0 ≤ exception_count i ∧ exception_count i ≤ population_size i.
Proof.
  unfold MaterialityInputs_valid, population_must_reconcile.
  rewrite !andb_true_iff, negb_true_iff. lia.
Qed.

Lemma quantitative_term_Ok i p :
  MaterialityPolicy_valid p = true → MaterialityInputs_valid i = true →
  ∃ rate q, quantitative_term i p = Ok (rate, q) ∧ nonneg q = true.
Proof.
  intros (Ht & Hf & _)%MaterialityPolicy_valid_threshold Hi%MaterialityInputs_valid_counts.
  unfold quantitative_term. destruct (_ && (0 <? population_size i)) eqn:E; [|by repeat eexists].
  apply andb_true_iff in E as [_ E].
  assert (Hr : nonneg (int_truediv (exception_count i) (population_size i)) = true)
    by (apply int_truediv_nonneg; lia).
  pose proof (fdiv_nonneg _ _ Hr Ht Hf) as Hq.
  unfold float_truediv. destruct (exception_rate_threshold p) eqn:Ep; try done; by repeat eexists.
Qed.

Lemma monetary_term_Ok i p : ∃ m, monetary_term i p = Ok m.
Proof.
  unfold monetary_term. destruct (monetary_threshold p) as [t|], (monetary_exposure i) as [x|]; eauto.
  destruct t as [[]| | |]; cbn; eauto. destruct s; eauto. destruct s; eauto.
Qed.

Lemma severity_floor_spec bands score :
  (∃ l1 t l2, bands = l1 ++ (t, severity_floor bands score) :: l2 ∧ fleb t score = true ∧
     ∀ b, b ∈ l1 → fleb (fst b) score = false) ∨
  (severity_floor bands score = "low" ∧ ∀ b, b ∈ bands → fleb (fst b) score = false).
Proof.
  induction bands as [|[t n] bands IH]; cbn; [right; split; [done|by intros b ?%elem_of_nil]|].
  destruct (fleb t score) eqn:E.
  - left. exists [], t, bands. split_and!; [done..|by intros b ?%elem_of_nil].
  - destruct IH as [(l1 & t' & l2 & Hb & Ht & Hl)|[Hf Hl]].
    + left. exists ((t, n) :: l1), t', l2. split_and!; [by rewrite Hb at 1|done|].
      intros b [->|Hb']%elem_of_cons; [done|auto].
    + right. split; [done|]. intros b [->|Hb]%elem_of_cons; [done|auto].
Qed.

Lemma severity_floor_known p score :
  bands_must_descend p = true → severity_floor (severity_bands p) score ∈ SEVERITY_ORDER.
Proof.
  unfold bands_must_descend. rewrite andb_true_iff, forallb_elem. intros [_ Hn].
  destruct (severity_floor_spec (severity_bands p) score) as [(l1 & t & l2 & Hb & _)|[-> _]]; [|left].
  specialize (Hn (t, severity_floor (severity_bands p) score)). cbn in Hn.
  rewrite bool_decide_eq_true in Hn. apply Hn. rewrite Hb at 2. apply elem_of_app. right. left.
Qed.

(** In a descending list without NaN, what follows is not above. *)
Lemma descending_head x l :
  descending (x :: l) = true → (∀ y, y ∈ x :: l → is_nan y = false) → ∀ y, y ∈ l → fleb y x = true.
Proof.
  revert x. induction l as [|z l IH]; intros x Hd Hn y Hy; [by apply elem_of_nil in Hy|].
  cbn [descending] in Hd. apply andb_true_iff in Hd as [Hzx Hd].
  assert (Hz : fleb z x = true) by (rewrite fleb_fltb by (apply Hn; set_solver); done).
  apply elem_of_cons in Hy as [->|Hy]; [done|].
  apply (fleb_trans y z x); [apply Hn; set_solver..| |done].
  apply IH; [done| |done]. intros w Hw. apply Hn. by right.
Qed.

Lemma descending_app l1 l2 : descending (l1 ++ l2) = true → descending l2 = true.
Proof.
  induction l1 as [|x l1 IH]; [done|]. intros Hd. apply IH.
  cbn in Hd. destruct (l1 ++ l2) as [|y l]; [done|]. by apply andb_true_iff in Hd as [_ ?].
Qed.

(** What an assessment is computed from. *)
Record assessed (i : MaterialityInputs) (p : MaterialityPolicy) (q m s : float)
    (r : MaterialityResult) : Prop := {
  assessed_quantitative : ∃ rate, quantitative_term i p = Ok (rate, q);
  assessed_monetary : monetary_term i p = Ok m;
  assessed_score : s = fmax (fmax q m) (qualitative_term i p);
  assessed_stored : res_score r = fround s 6;
  assessed_material : res_material r = fleb one s;
  assessed_floor : res_severity_floor r = severity_floor (severity_bands p) s;
  assessed_policy : res_policy_id r = policy_id p
}.

Lemma assess_valid i p :
  MaterialityPolicy_valid p = true → MaterialityInputs_valid i = true →
  ∃ q m s r, assess i (Some p) = Ok r ∧ assessed i p q m s r ∧ nonneg q = true.
Proof.
  intros Hp Hi. destruct (quantitative_term_Ok i p Hp Hi) as (rate & q & Hq & Hnn).
  destruct (monetary_term_Ok i p) as [m Hm].
  apply MaterialityPolicy_valid_threshold in Hp as (_ & _ & Hb).
  set (s := fmax (fmax q m) (qualitative_term i p)).
  assert (E : ∃ r, assess i (Some p) = Ok r ∧ res_score r = fround s 6 ∧
    res_material r = fleb one s ∧ res_severity_floor r = severity_floor (severity_bands p) s ∧
    res_policy_id r = policy_id p).
  { eexists. unfold assess. cbv zeta. change (default default_policy (Some p)) with p.
    rewrite Hq. cbn [res_bind]. rewrite Hm. cbn [res_bind]. fold s.
    rewrite bool_decide_eq_true_2 by (by apply severity_floor_known). done. }
  destruct E as (r & E & ? & ? & ? & ?). exists q, m, s, r. split_and!; [done| |done]. by split; eauto.
Qed.

Lemma assess_floor_known i p r : assess i p = Ok r → res_severity_floor r ∈ SEVERITY_ORDER.
Proof.
  unfold assess. destruct (quantitative_term _ _) as [[rate q]|]; [|done]. cbn [res_bind].
  destruct (monetary_term _ _) as [m|]; [|done]. cbn [res_bind].
  destruct (bool_decide _) eqn:E; [|done]. intros [= <-]. by apply bool_decide_eq_true in E.
Qed.

(** ** The digest separates different contents *)

Lemma content_text_fields c t s cr o k ev ex :
  content_text c t s cr o k ev ex =
  "{" +:+ json_string "code" +:+ ":" +:+ json_string c +:+ "," +:+
  json_string "criteria" +:+ ":" +:+ json_string cr +:+ "," +:+
  json_string "evidence_ids" +:+ ":" +:+ json_strings (sort_by String.compare ev) +:+ "," +:+
  json_string "exception_keys" +:+ ":" +:+ json_strings (sort_by String.compare ex) +:+ "," +:+
  json_string "observed_condition" +:+ ":" +:+ json_string o +:+ "," +:+
  json_string "risk_statement" +:+ ":" +:+ json_string k +:+ "," +:+
  json_string "severity" +:+ ":" +:+ json_string s +:+ "," +:+
  json_string "title" +:+ ":" +:+ json_string t +:+ "}".
Proof.
  unfold content_text, json_object.
  set (e := json_strings (sort_by _ ev)). set (x := json_strings (sort_by _ ex)). clearbody e x.
  change (sort_by (cmp_on fst String.compare) _) with
    [("code", json_string c); ("criteria", json_string cr); ("evidence_ids", e);
     ("exception_keys", x); ("observed_condition", json_string o);
     ("risk_statement", json_string k); ("severity", json_string s); ("title", json_string t)].
  cbn [join map]. by rewrite <- !(assoc_L String.append).
Qed.

Lemma sort_strings_inj (l1 l2 : list string) :
  sort_by String.compare l1 = sort_by String.compare l2 → l1 ≡ₚ l2.
Proof. intros E. by rewrite <- (sort_by_Permutation String.compare l1), E, sort_by_Permutation. Qed.

(** Two findings have the same text exactly when they agree on every field, the
    two lists up to order. *)
Lemma content_text_inj c1 t1 s1 cr1 o1 k1 ev1 ex1 c2 t2 s2 cr2 o2 k2 ev2 ex2 :
  content_text c1 t1 s1 cr1 o1 k1 ev1 ex1 = content_text c2 t2 s2 cr2 o2 k2 ev2 ex2 →
  c1 = c2 ∧ t1 = t2 ∧ s1 = s2 ∧ cr1 = cr2 ∧ o1 = o2 ∧ k1 = k2 ∧ ev1 ≡ₚ ev2 ∧ ex1 ≡ₚ ex2.
Proof.
  rewrite !content_text_fields. intros E.
  repeat first [ apply json_strings_inj in E as [?%sort_strings_inj E]
               | apply json_string_inj in E as [? E]
               | apply (inj (String.append _)) in E ].
  by split_and!.
Qed.

(** Sorting makes the digest independent of the order of the lists. *)
Lemma sort_strings_Permutation (l1 l2 : list string) :
  l1 ≡ₚ l2 → sort_by String.compare l1 = sort_by String.compare l2.
Proof. intros Hp. apply sort_by_ext; try apply _; [|exact Hp].
  intros x y _ _. apply String.compare_eq_iff.
Qed.

