(* ===== verification/Quality.v ===== *)
(** * Adjudication: the quality review

    adjudication/quality.py: the mechanical checks a finding must pass before it
    may be approved.  Building a [CheckResult] raises when its detail exceeds the
    length pydantic allows. *)

From S2P Require Import Prelude PyFloat PyTime Ledger PyText Materiality.
Local Open Scope Z_scope.

Module QualityCheck.
Inductive t :=
  | EVIDENCE_CITED | CONTRADICTIONS_SEARCHED | POPULATION_RECONCILED | CRITERIA_STATED
  | CONDITION_OBSERVED | MATERIALITY_ASSESSED | SEVERITY_SUPPORTED | LIMITATIONS_DISCLOSED
  | NOT_SELF_REVIEWED.
#[global] Instance eq_dec : EqDecision t.
Proof. solve_decision. Defined.
End QualityCheck.
Abbreviation QualityCheck := QualityCheck.t.

Definition QualityCheck_value (c : QualityCheck) : string :=
  match c with
  | QualityCheck.EVIDENCE_CITED => "evidence_cited"
  | QualityCheck.CONTRADICTIONS_SEARCHED => "contradictions_searched"
  | QualityCheck.POPULATION_RECONCILED => "population_reconciled"
  | QualityCheck.CRITERIA_STATED => "criteria_stated"
  | QualityCheck.CONDITION_OBSERVED => "condition_observed"
  | QualityCheck.MATERIALITY_ASSESSED => "materiality_assessed"
  | QualityCheck.SEVERITY_SUPPORTED => "severity_supported"
  | QualityCheck.LIMITATIONS_DISCLOSED => "limitations_disclosed"
  | QualityCheck.NOT_SELF_REVIEWED => "not_self_reviewed"
  end.

#[export] Program Instance QualityCheck_str : StrEnum QualityCheck := {|
  value := QualityCheck_value;
  members := [QualityCheck.EVIDENCE_CITED; QualityCheck.CONTRADICTIONS_SEARCHED;
    QualityCheck.POPULATION_RECONCILED; QualityCheck.CRITERIA_STATED;
    QualityCheck.CONDITION_OBSERVED; QualityCheck.MATERIALITY_ASSESSED;
    QualityCheck.SEVERITY_SUPPORTED; QualityCheck.LIMITATIONS_DISCLOSED;
    QualityCheck.NOT_SELF_REVIEWED]
|}.
Solve Obligations with solve_str_enum.

Record CheckResult := mkCheckResult {
  check : QualityCheck;
  passed : bool;
  detail : string
}.

Record QualityReviewOutcome := mkQualityReviewOutcome {
  outcome_passed : bool;
  checks : list CheckResult;
  outcome_content_hash : string;
  outcome_reviewer_id : string
}.

Definition failures (o : QualityReviewOutcome) : list CheckResult :=
  filter (λ c, passed c = false) (checks o).
Definition summary (o : QualityReviewOutcome) : string :=
  if outcome_passed o then pretty (Z.of_nat (length (checks o))) +:+ " quality checks passed"
  else "quality review failed on: " +:+ join ", " (map (λ c, value (check c)) (failures o)).

(** [CheckResult(...)]. *)
Definition check_result (c : QualityCheck) (passed : bool) (detail : string) : Res CheckResult :=
  if (String.length detail <=? 2000)%nat then Ok (mkCheckResult c passed detail)
  else Err (Py ValueError).

(** [s.strip().lower()]. *)
Definition identity (s : string) : string := lower (strip s).

Definition stated (text : string) : bool := (10 <=? String.length (strip text))%nat.

(** The severity against the floor of the stored assessment. *)
Definition severity_check (severity : string) (materiality : option dict) : bool * string :=
  match materiality with
  | None => (false, "severity cannot be checked without a materiality assessment")
  | Some m =>
      let floor := py_str (default (JStr "low") (dict_get "severity_floor" m)) in
      let override := truthy_json (get "override_severity" m) in
      let meets := severity_rank floor <=? severity_rank severity in
      (meets || override,
       if meets then "severity " +:+ py_repr severity +:+ " meets the " +:+ py_repr floor +:+ " floor"
       else if override then
         "severity " +:+ py_repr severity +:+ " is below the " +:+ py_repr floor +:+
         " floor under recorded override"
       else
         "severity " +:+ py_repr severity +:+ " is below the computed " +:+ py_repr floor +:+
         " floor and carries no override")
  end.

Definition independent_check (reviewer_id : string) (authored_by : option string) : bool * string :=
  let independent := truthy authored_by &&
    negb (bool_decide (identity reviewer_id = identity (default "" authored_by))) in
  (independent,
   if independent then
     "reviewer " +:+ py_repr reviewer_id +:+ " is independent of author " +:+
     py_repr (default "" authored_by)
   else if truthy authored_by then
     "reviewer " +:+ py_repr reviewer_id +:+ " authored the finding"
   else "the finding records no author, so independence cannot be established").

#[export] Instance nonempty_Permutation {A} : Proper ((≡ₚ) ==> (=)) (@nonempty A).
Proof. by induction 1 as [| | |l1 l2 l3 _ -> _ ->]. Qed.

(** The checks in the order they run: each with its verdict and its detail. *)
Definition check_list (reviewer_id : string) (authored_by : option string) (severity : string)
    (evidence_ids : list string) (contradictions : list json) (exception_keys : list string)
    (criteria observed_condition : string) (limitations : list string)
    (materiality : option dict) (skeptic_ran : bool) : list (QualityCheck * bool * string) :=
  let undisclosed := nonempty contradictions && negb (nonempty limitations) in
  [(QualityCheck.EVIDENCE_CITED, nonempty evidence_ids,
    if nonempty evidence_ids
    then counted (zlen evidence_ids) "evidence record" None +:+ " cited"
    else "the finding cites no evidence");
   (QualityCheck.CONTRADICTIONS_SEARCHED, skeptic_ran,
    if skeptic_ran
    then "contradiction search ran and recorded " +:+ counted (zlen contradictions) "result" None
    else "no contradiction search is recorded against this finding");
   (QualityCheck.POPULATION_RECONCILED, nonempty exception_keys || nonempty evidence_ids,
    if nonempty exception_keys
    then counted (zlen exception_keys) "exception key" None +:+ " trace to the tested population"
    else "no exception keys; the finding rests on cited evidence alone");
   (QualityCheck.CRITERIA_STATED, stated criteria,
    if stated criteria then "criteria are stated"
    else "criteria are missing or too short to identify a standard");
   (QualityCheck.CONDITION_OBSERVED, stated observed_condition,
    if stated observed_condition then "the observed condition is stated"
    else "the observed condition is missing or too short");
   (QualityCheck.MATERIALITY_ASSESSED,
    match materiality with Some _ => true | None => false end,
    match materiality with
    | Some m => "materiality scored " +:+ py_str (get "score" m) +:+ " (" +:+
                py_str (get "severity_floor" m) +:+ " floor)"
    | None => "no materiality assessment exists for this version of the finding"
    end);
   (QualityCheck.SEVERITY_SUPPORTED, fst (severity_check severity materiality),
    snd (severity_check severity materiality));
   (QualityCheck.LIMITATIONS_DISCLOSED, negb undisclosed,
    if undisclosed
    then counted (zlen contradictions) "contradiction" None +:+ " found but no limitation is disclosed"
    else counted (zlen limitations) "limitation" None +:+ " disclosed");
   (QualityCheck.NOT_SELF_REVIEWED, fst (independent_check reviewer_id authored_by),
    snd (independent_check reviewer_id authored_by))].

Fixpoint check_results (l : list (QualityCheck * bool * string)) : Res (list CheckResult) :=
  match l with
  | [] => Ok []
  | (c, p, d) :: l =>
      let? r := check_result c p d in let? rest := check_results l in Ok (r :: rest)
  end.

Definition evaluate (reviewer_id : string) (authored_by : option string) (severity : string)
    (evidence_ids : list string) (contradictions : list json) (exception_keys : list string)
    (criteria observed_condition : string) (limitations : list string)
    (materiality : option dict) (skeptic_ran : bool) (content_hash : string)
    : Res QualityReviewOutcome :=
  let? checks := check_results (check_list reviewer_id authored_by severity evidence_ids
    contradictions exception_keys criteria observed_condition limitations materiality
    skeptic_ran) in
  Ok (mkQualityReviewOutcome (forallb passed checks) checks content_hash reviewer_id).

(** ** What an outcome says *)

Definition fits (c : QualityCheck * bool * string) : Prop := (String.length (snd c) ≤ 2000)%nat.

Lemma check_results_spec l :
  (Forall fits l ∧ check_results l = Ok (map (λ '(c, p, d), mkCheckResult c p d) l)) ∨
  (¬ Forall fits l ∧ check_results l = Err (Py ValueError)).
Proof.
  induction l as [|[[c p] d] l IH]; [left; by split|]. cbn [check_results map].
  unfold check_result. destruct (Nat.leb_spec (String.length d) 2000); cbn [res_bind].
  - destruct IH as [[HF ->]|[HF ->]]; [left; split; [by constructor|done]|right; split; [|done]].
    by intros [_ ?]%Forall_cons.
  - right. split; [|done]. intros [Hf _]%Forall_cons. unfold fits in Hf. cbn in Hf. lia.
Qed.

Lemma evaluate_Ok r a s ev ct ex cr ob li m sk h o :
  evaluate r a s ev ct ex cr ob li m sk h = Ok o →
  outcome_passed o = forallb (λ c, snd (fst c)) (check_list r a s ev ct ex cr ob li m sk) ∧
  outcome_content_hash o = h ∧ outcome_reviewer_id o = r.
Proof.
  unfold evaluate. intros (l & E & [= <-])%res_bind_Ok.
  destruct (check_results_spec (check_list r a s ev ct ex cr ob li m sk)) as [[_ E']|[_ E']];
    rewrite E in E'; [|done].
  injection E' as ->. split_and!; done.
Qed.
