(* ===== verification/AdjDefs.v ===== *)
(** * Adjudication: data definitions

    adjudication/definitions.py: the status of a finding and the transitions it
    may make, the decisions, the dispute grounds and resolutions, the outcomes of a
    retest, and the requests the service takes, with the constraints pydantic
    checks when one is built.  A [Literal] of severities is a text its validity
    restricts. *)

From Stdlib Require Import Ascii.
From S2P Require Import Prelude PyFloat PyTime Ledger PyText Materiality Quality.
Local Open Scope Z_scope.

(** ** Enumerations *)

Module FindingStatus.
Inductive t :=
  | PROPOSED | REJECTED | APPROVED | DISPUTED | WITHDRAWN | REMEDIATION_OPEN
  | REMEDIATION_DECLARED_COMPLETE | RETEST_IN_PROGRESS | CLOSED_VERIFIED | REOPENED
  | RISK_ACCEPTED | DEFERRED.
#[global] Instance eq_dec : EqDecision t.
Proof. solve_decision. Defined.
End FindingStatus.
Abbreviation FindingStatus := FindingStatus.t.

Definition FindingStatus_value (x : FindingStatus) : string :=
  match x with
  | FindingStatus.PROPOSED => "proposed"
  | FindingStatus.REJECTED => "rejected"
  | FindingStatus.APPROVED => "approved"
  | FindingStatus.DISPUTED => "disputed"
  | FindingStatus.WITHDRAWN => "withdrawn"
  | FindingStatus.REMEDIATION_OPEN => "remediation_open"
  | FindingStatus.REMEDIATION_DECLARED_COMPLETE => "remediation_declared_complete"
  | FindingStatus.RETEST_IN_PROGRESS => "retest_in_progress"
  | FindingStatus.CLOSED_VERIFIED => "closed_verified"
  | FindingStatus.REOPENED => "reopened"
  | FindingStatus.RISK_ACCEPTED => "risk_accepted"
  | FindingStatus.DEFERRED => "deferred"
  end.

#[export] Program Instance FindingStatus_str : StrEnum FindingStatus := {|
  value := FindingStatus_value;
  members := [FindingStatus.PROPOSED; FindingStatus.REJECTED; FindingStatus.APPROVED;
    FindingStatus.DISPUTED; FindingStatus.WITHDRAWN; FindingStatus.REMEDIATION_OPEN;
    FindingStatus.REMEDIATION_DECLARED_COMPLETE; FindingStatus.RETEST_IN_PROGRESS;
    FindingStatus.CLOSED_VERIFIED; FindingStatus.REOPENED; FindingStatus.RISK_ACCEPTED;
    FindingStatus.DEFERRED]
|}.
Solve Obligations with solve_str_enum.

Module HumanDecision.
Inductive t :=
  | APPROVE | REJECT | RETURN_FOR_REWORK | DEFER | ACCEPT_RISK.
#[global] Instance eq_dec : EqDecision t.
Proof. solve_decision. Defined.
End HumanDecision.
Abbreviation HumanDecision := HumanDecision.t.

Definition HumanDecision_value (x : HumanDecision) : string :=
  match x with
  | HumanDecision.APPROVE => "approve"
  | HumanDecision.REJECT => "reject"
  | HumanDecision.RETURN_FOR_REWORK => "return_for_rework"
  | HumanDecision.DEFER => "defer"
  | HumanDecision.ACCEPT_RISK => "accept_risk"
  end.

#[export] Program Instance HumanDecision_str : StrEnum HumanDecision := {|
  value := HumanDecision_value;
  members := [HumanDecision.APPROVE; HumanDecision.REJECT; HumanDecision.RETURN_FOR_REWORK;
    HumanDecision.DEFER; HumanDecision.ACCEPT_RISK]
|}.
Solve Obligations with solve_str_enum.

Module DisputeGround.
Inductive t :=
  | CRITERIA_INCORRECT | CONDITION_INACCURATE | SEVERITY_OVERSTATED | MATERIALITY_DISPUTED
  | EVIDENCE_SUPERSEDED | COMPENSATING_CONTROL_OMITTED | OUT_OF_SCOPE.
#[global] Instance eq_dec : EqDecision t.
Proof. solve_decision. Defined.
End DisputeGround.
Abbreviation DisputeGround := DisputeGround.t.

Definition DisputeGround_value (x : DisputeGround) : string :=
  match x with
  | DisputeGround.CRITERIA_INCORRECT => "criteria_incorrect"
  | DisputeGround.CONDITION_INACCURATE => "condition_inaccurate"
  | DisputeGround.SEVERITY_OVERSTATED => "severity_overstated"
  | DisputeGround.MATERIALITY_DISPUTED => "materiality_disputed"
  | DisputeGround.EVIDENCE_SUPERSEDED => "evidence_superseded"
  | DisputeGround.COMPENSATING_CONTROL_OMITTED => "compensating_control_omitted"
  | DisputeGround.OUT_OF_SCOPE => "out_of_scope"
  end.

#[export] Program Instance DisputeGround_str : StrEnum DisputeGround := {|
  value := DisputeGround_value;
  members := [DisputeGround.CRITERIA_INCORRECT; DisputeGround.CONDITION_INACCURATE;
    DisputeGround.SEVERITY_OVERSTATED; DisputeGround.MATERIALITY_DISPUTED;
    DisputeGround.EVIDENCE_SUPERSEDED; DisputeGround.COMPENSATING_CONTROL_OMITTED;
    DisputeGround.OUT_OF_SCOPE]
|}.
Solve Obligations with solve_str_enum.

Module DisputeResolution.
Inductive t :=
  | UPHELD | MODIFIED | WITHDRAWN.
#[global] Instance eq_dec : EqDecision t.
Proof. solve_decision. Defined.
End DisputeResolution.
Abbreviation DisputeResolution := DisputeResolution.t.

Definition DisputeResolution_value (x : DisputeResolution) : string :=
  match x with
  | DisputeResolution.UPHELD => "upheld"
  | DisputeResolution.MODIFIED => "modified"
  | DisputeResolution.WITHDRAWN => "withdrawn"
  end.

#[export] Program Instance DisputeResolution_str : StrEnum DisputeResolution := {|
  value := DisputeResolution_value;
  members := [DisputeResolution.UPHELD; DisputeResolution.MODIFIED; DisputeResolution.WITHDRAWN]
|}.
Solve Obligations with solve_str_enum.

Module RetestOutcome.
Inductive t :=
  | CLOSED_VERIFIED | PARTIALLY_REMEDIATED | INEFFECTIVE | INSUFFICIENT_EVIDENCE | REOPEN.
#[global] Instance eq_dec : EqDecision t.
Proof. solve_decision. Defined.
End RetestOutcome.
Abbreviation RetestOutcome := RetestOutcome.t.

Definition RetestOutcome_value (x : RetestOutcome) : string :=
  match x with
  | RetestOutcome.CLOSED_VERIFIED => "closed_verified"
  | RetestOutcome.PARTIALLY_REMEDIATED => "partially_remediated"
  | RetestOutcome.INEFFECTIVE => "ineffective"
  | RetestOutcome.INSUFFICIENT_EVIDENCE => "insufficient_evidence"
  | RetestOutcome.REOPEN => "reopen"
  end.

#[export] Program Instance RetestOutcome_str : StrEnum RetestOutcome := {|
  value := RetestOutcome_value;
  members := [RetestOutcome.CLOSED_VERIFIED; RetestOutcome.PARTIALLY_REMEDIATED;
    RetestOutcome.INEFFECTIVE; RetestOutcome.INSUFFICIENT_EVIDENCE; RetestOutcome.REOPEN]
|}.
Solve Obligations with solve_str_enum.

Module ContradictionKind.
Inductive t :=
  | APPROVED_EXCEPTION | OUT_OF_PERIOD | COMPENSATING_CONTROL | SUPERSEDED_EVIDENCE
  | DUPLICATE_OF_EXISTING.
#[global] Instance eq_dec : EqDecision t.
Proof. solve_decision. Defined.
End ContradictionKind.
Abbreviation ContradictionKind := ContradictionKind.t.

Definition ContradictionKind_value (x : ContradictionKind) : string :=
  match x with
  | ContradictionKind.APPROVED_EXCEPTION => "approved_exception"
  | ContradictionKind.OUT_OF_PERIOD => "out_of_period"
  | ContradictionKind.COMPENSATING_CONTROL => "compensating_control"
  | ContradictionKind.SUPERSEDED_EVIDENCE => "superseded_evidence"
  | ContradictionKind.DUPLICATE_OF_EXISTING => "duplicate_of_existing"
  end.

#[export] Program Instance ContradictionKind_str : StrEnum ContradictionKind := {|
  value := ContradictionKind_value;
  members := [ContradictionKind.APPROVED_EXCEPTION; ContradictionKind.OUT_OF_PERIOD;
    ContradictionKind.COMPENSATING_CONTROL; ContradictionKind.SUPERSEDED_EVIDENCE;
    ContradictionKind.DUPLICATE_OF_EXISTING]
|}.
Solve Obligations with solve_str_enum.

Definition CLOSING_OUTCOMES : list RetestOutcome := [RetestOutcome.CLOSED_VERIFIED].

Definition ALLOWED_TRANSITIONS (current : FindingStatus) : list FindingStatus :=
  match current with
  | FindingStatus.PROPOSED =>
      [FindingStatus.APPROVED; FindingStatus.REJECTED; FindingStatus.DEFERRED;
       FindingStatus.RISK_ACCEPTED; FindingStatus.DISPUTED]
  | FindingStatus.APPROVED => [FindingStatus.REMEDIATION_OPEN; FindingStatus.DISPUTED]
  | FindingStatus.DISPUTED =>
      [FindingStatus.PROPOSED; FindingStatus.APPROVED; FindingStatus.REJECTED;
       FindingStatus.WITHDRAWN]
  | FindingStatus.WITHDRAWN => []
  | FindingStatus.REMEDIATION_OPEN => [FindingStatus.REMEDIATION_DECLARED_COMPLETE]
  | FindingStatus.REMEDIATION_DECLARED_COMPLETE => [FindingStatus.RETEST_IN_PROGRESS]
  | FindingStatus.RETEST_IN_PROGRESS => [FindingStatus.CLOSED_VERIFIED; FindingStatus.REOPENED]
  | FindingStatus.REOPENED => [FindingStatus.REMEDIATION_OPEN]
  | FindingStatus.CLOSED_VERIFIED => []
  | FindingStatus.REJECTED => []
  | FindingStatus.RISK_ACCEPTED => []
  | FindingStatus.DEFERRED => [FindingStatus.APPROVED; FindingStatus.REJECTED]
  end.

(** ** Findings and verdicts *)

Record Contradiction := mkContradiction {
  ct_kind : ContradictionKind;
  ct_subject_ref : string;
  ct_detail : string;
  ct_evidence_ids : list string
}.
(** [Contradiction(...)]: pydantic bounds the detail. *)
Definition contradiction (kind : ContradictionKind) (subject detail : string)
    (evidence_ids : list string) : Res Contradiction :=
  if length_within 3 2000 detail then Ok (mkContradiction kind subject detail evidence_ids)
  else Err (Py ValueError).
(** [model_dump(mode="json")]. *)
Definition dump_contradiction (c : Contradiction) : json :=
  JObj [("kind", JStr (value (ct_kind c))); ("subject_ref", JStr (ct_subject_ref c));
        ("detail", JStr (ct_detail c)); ("evidence_ids", JList (map JStr (ct_evidence_ids c)))].

Record ProposedFinding := mkProposedFinding {
  pf_code : string;
  pf_title : string;
  pf_severity : string;
  pf_confidence : float;
  pf_criteria : string;
  pf_observed_condition : string;
  pf_risk_statement : string;
  pf_cause : option string;
  pf_consequence : option string;
  pf_business_objective : option string;
  pf_evidence_ids : list string;
  pf_exception_keys : list string;
  pf_affected_population : dict;
  pf_limitations : list string;
  pf_source_run_id : option string
}.

Definition is_upper (c : ascii) : bool := (65 <=? ord c) && (ord c <=? 90).
Definition code_char (c : ascii) : bool :=
  is_upper c || ((48 <=? ord c) && (ord c <=? 57)) || (ord c =? 95) || (ord c =? 45).
(** [^[A-Z][A-Z0-9_-]{2,63}$]. *)
Definition code_pattern (s : string) : bool :=
  match String.list_ascii_of_string s with
  | c :: l => is_upper c && forallb code_char l && (2 <=? length l)%nat && (length l <=? 63)%nat
  | [] => false
  end.
Definition must_cite_evidence (f : ProposedFinding) : bool := nonempty (pf_evidence_ids f).
Definition ProposedFinding_valid (f : ProposedFinding) : bool :=
  code_pattern (pf_code f) && length_within 3 255 (pf_title f) &&
  bool_decide (pf_severity f ∈ SEVERITY_ORDER) &&
  fleb zero (pf_confidence f) && fleb (pf_confidence f) one &&
  (3 <=? String.length (pf_criteria f))%nat && (3 <=? String.length (pf_observed_condition f))%nat &&
  (3 <=? String.length (pf_risk_statement f))%nat && must_cite_evidence f.

Record SkepticVerdict := mkSkepticVerdict {
  supported : bool;
  contradictions : list Contradiction;
  rationale : string
}.
(** [sorted({c.kind.value for c in ...})]. *)
Definition verdict_kinds (v : SkepticVerdict) : list string :=
  sort_by String.compare (remove_dups (map (λ c, value (ct_kind c)) (contradictions v))).
Definition rejection_reason (v : SkepticVerdict) : string :=
  if supported v then ""
  else let kinds := join ", " (verdict_kinds v) in
       if decide (kinds = "") then rationale v
       else "contradicted by " +:+ kinds +:+ ": " +:+ rationale v.

(** ** Requests *)

Record AdjudicationRequest := mkAdjudicationRequest {
  ar_finding_id : string;
  ar_decision : HumanDecision;
  ar_actor_id : string;
  ar_reason : string;
  ar_idempotency_key : string
}.
Definition AdjudicationRequest_valid (r : AdjudicationRequest) : bool :=
  length_within 1 128 (ar_actor_id r) && length_within 3 4000 (ar_reason r) &&
  length_within 3 255 (ar_idempotency_key r).

Record MaterialityRequest := mkMaterialityRequest {
  mr_finding_id : string;
  mr_inputs : MaterialityInputs;
  mr_policy : option MaterialityPolicy;
  mr_assessed_by : string
}.
Definition MaterialityRequest_valid (r : MaterialityRequest) : bool :=
  MaterialityInputs_valid (mr_inputs r) &&
  match mr_policy r with Some p => MaterialityPolicy_valid p | None => true end &&
  length_within 1 128 (mr_assessed_by r).

Record SeverityOverrideRequest := mkSeverityOverrideRequest {
  so_finding_id : string;
  so_severity : string;
  so_actor_id : string;
  so_reason : string
}.
Definition SeverityOverrideRequest_valid (r : SeverityOverrideRequest) : bool :=
  bool_decide (so_severity r ∈ SEVERITY_ORDER) && length_within 1 128 (so_actor_id r) &&
  length_within 10 4000 (so_reason r).

Record QualityReviewRequest := mkQualityReviewRequest {
  qr_finding_id : string;
  qr_reviewer_id : string;
  qr_notes : option string
}.
Definition QualityReviewRequest_valid (r : QualityReviewRequest) : bool :=
  length_within 1 128 (qr_reviewer_id r) &&
  match qr_notes r with Some n => length_within 0 4000 n | None => true end.

Record DisputeRequest := mkDisputeRequest {
  dr_finding_id : string;
  dr_ground : DisputeGround;
  dr_statement : string;
  dr_raised_by : string;
  dr_evidence_ids : list string
}.
Definition DisputeRequest_valid (r : DisputeRequest) : bool :=
  length_within 10 4000 (dr_statement r) && length_within 1 128 (dr_raised_by r).

Record DisputeResolutionRequest := mkDisputeResolutionRequest {
  rr_dispute_id : string;
  rr_resolution : DisputeResolution;
  rr_reason : string;
  rr_resolved_by : string
}.
Definition DisputeResolutionRequest_valid (r : DisputeResolutionRequest) : bool :=
  length_within 10 4000 (rr_reason r) && length_within 1 128 (rr_resolved_by r).

Record RemediationRequest := mkRemediationRequest {
  rm_finding_id : string;
  rm_owner_ref : string;
  rm_due_date : date;
  rm_action_plan : string;
  rm_idempotency_key : string;
  rm_closure_evidence_required : bool;
  rm_escalation_policy : dict;
  rm_external_system : string;
  rm_external_target : option string
}.
Definition RemediationRequest_valid (r : RemediationRequest) : bool :=
  length_within 1 255 (rm_owner_ref r) && length_within 3 4000 (rm_action_plan r) &&
  length_within 3 255 (rm_idempotency_key r) &&
  bool_decide (rm_external_system r ∈ ["none"; "jira"; "servicenow"]) &&
  match rm_external_target r with Some t => length_within 0 128 t | None => true end.

Record ClosureSubmission := mkClosureSubmission {
  cs_action_id : string;
  cs_response_text : string;
  cs_submitted_by : string;
  cs_closure_evidence_ids : list string;
  cs_action_plan : option string
}.
Definition ClosureSubmission_valid (r : ClosureSubmission) : bool :=
  length_within 3 4000 (cs_response_text r) && length_within 1 128 (cs_submitted_by r).

Record RetestRequest := mkRetestRequest {
  rt_action_id : string;
  rt_procedure_ref : string;
  rt_performed_by : string;
  rt_idempotency_key : string;
  rt_outcome : RetestOutcome;
  rt_evidence_ids : list string;
  rt_detail : string;
  rt_fresh_evidence_collected_at : option datetime
}.
Definition RetestRequest_valid (r : RetestRequest) : bool :=
  length_within 1 255 (rt_procedure_ref r) && length_within 1 128 (rt_performed_by r) &&
  length_within 3 255 (rt_idempotency_key r) && length_within 0 4000 (rt_detail r).

Record RecurrenceMatch := mkRecurrenceMatch {
  rec_code : string;
  rec_engagement_ids : list string;
  occurrences : Z;
  latest_status : FindingStatus
}.
