(* ===== verification/Skeptic.v ===== *)
(** * Adjudication: the contradiction search

    adjudication/skeptic.py: the deterministic search for reasons a proposed
    finding should not stand.  The rows it reads are decoded JSON: an instant
    (which [as_date] would return as it is) does not occur in them. *)

From S2P Require Import Prelude PyFloat PyTime Ledger PyText Materiality Quality AdjDefs.
Local Open Scope Z_scope.

(** [_as_date]. *)
Definition as_date (v : json) : option date :=
  match v with JStr s => fromisoformat (slice 10 s) | _ => None end.

Record SkepticReviewer := mkSkepticReviewer {
  approved_exceptions : list dict;
  period_start : option date;
  period_end : option date;
  compensating_controls : list dict;
  existing_codes : list string
}.
Definition default_skeptic : SkepticReviewer := mkSkepticReviewer [] None None [] [].

(** [for x in l: y = body(x); if y is not None: found.append(y)]. *)
Fixpoint collect {A B} (body : A → Res (option B)) (l : list A) : Res (list B) :=
  match l with
  | [] => Ok []
  | x :: l =>
      let? y := body x in
      let? ys := collect body l in
      Ok (match y with Some y => y :: ys | None => ys end)
  end.

(** The loop over a register, left at the first entry that yields a result. *)
Fixpoint first_match {A B} (body : A → Res (option B)) (l : list A) : Res (option B) :=
  match l with
  | [] => Ok None
  | x :: l =>
      let? y := body x in
      match y with Some y => Ok (Some y) | None => first_match body l end
  end.

(** [str(row.get("subject_ref") or row.get("exception_key") or "")]. *)
Definition subject_of (row : dict) : string :=
  py_str (json_or (get "subject_ref" row) (json_or (get "exception_key" row) (JStr ""))).
(** [str(row.get("subject_ref") or row.get("exception_key"))]. *)
Definition row_subject (row : dict) : string :=
  py_str (json_or (get "subject_ref" row) (get "exception_key" row)).

(** [[str(d["evidence_id"])] if d.get("evidence_id") else []]. *)
Definition cited_evidence (d : dict) : list string :=
  if truthy_json (get "evidence_id" d) then [py_str (get "evidence_id" d)] else [].

(** [d.get(k, "unknown")] in an f-string. *)
Definition get_or_unknown (k : string) (d : dict) : string :=
  py_str (default (JStr "unknown") (dict_get k d)).

(** The waiver covers the subject and had not expired by the end of the period. *)
Definition approval_applies (s : SkepticReviewer) (subject : string) (approval : dict) : bool :=
  bool_decide (py_str (get "subject_ref" approval) = subject) &&
  negb match as_date (get "expires_on" approval), period_end s with
       | Some expires, Some stop => expires <? stop
       | _, _ => false
       end.

Definition search_approved (s : SkepticReviewer) (rows : list dict) : Res (list Contradiction) :=
  collect (λ row,
    let subject := subject_of row in
    first_match (λ approval,
      if approval_applies s subject approval then
        let? c := contradiction ContradictionKind.APPROVED_EXCEPTION subject
          (subject +:+ " is covered by approved exception " +:+ get_or_unknown "reference" approval +:+
           match as_date (get "expires_on" approval) with
           | Some expires => ", valid to " +:+ date_isoformat expires
           | None => ""
           end)
          (cited_evidence approval) in
        Ok (Some c)
      else Ok None) (approved_exceptions s)) rows.

(** The date of the [attributes], or of the row itself. *)
Definition occurred_on (row : dict) : option date :=
  match (match get "attributes" row with JObj d => as_date (get "occurred_on" d) | _ => None end) with
  | Some d => Some d
  | None => as_date (get "occurred_on" row)
  end.

Definition search_out_of_period (s : SkepticReviewer) (rows : list dict) : Res (list Contradiction) :=
  match period_start s, period_end s with
  | Some start, Some stop =>
      collect (λ row,
        match occurred_on row with
        | None => Ok None
        | Some occurred =>
            if (start <=? occurred) && (occurred <=? stop) then Ok None
            else
              let subject := subject_of row in
              let? c := contradiction ContradictionKind.OUT_OF_PERIOD subject
                (subject +:+ " occurred on " +:+ date_isoformat occurred +:+
                 ", outside the audit period " +:+ date_isoformat start +:+ " to " +:+
                 date_isoformat stop) [] in
              Ok (Some c)
        end) rows
  | _, _ => Ok []
  end.

(** [{str(item) for item in covered}]: iterating over a number raises. *)
Definition covered_subjects (control : dict) : Res (list string) :=
  match json_or (get "covers_subjects" control) (JList []) with
  | JList l => Ok (map py_str l)
  | JStr s => Ok (map (λ c, String c "") (String.list_ascii_of_string s))
  | JObj d => Ok (map fst d)
  | _ => Err (Py TypeError)
  end.

Definition search_compensating (s : SkepticReviewer) (rows : list dict) : Res (list Contradiction) :=
  collect (λ row,
    let subject := subject_of row in
    first_match (λ control,
      let? covered := covered_subjects control in
      if bool_decide (subject ∈ covered) && truthy_json (get "tested_effective" control) then
        let? c := contradiction ContradictionKind.COMPENSATING_CONTROL subject
          (subject +:+ " is covered by compensating control " +:+
           get_or_unknown "control_ref" control +:+ ", tested effective")
          (cited_evidence control) in
        Ok (Some c)
      else Ok None) (compensating_controls s)) rows.

Definition search_duplicate (s : SkepticReviewer) (f : ProposedFinding) : Res (list Contradiction) :=
  if bool_decide (pf_code f ∈ existing_codes s) then
    let? c := contradiction ContradictionKind.DUPLICATE_OF_EXISTING (pf_code f)
      ("a finding with code " +:+ pf_code f +:+ " already exists in this engagement") [] in
    Ok [c]
  else Ok [].

Definition is_duplicate (c : Contradiction) : bool :=
  bool_decide (ct_kind c = ContradictionKind.DUPLICATE_OF_EXISTING).

(** The subjects no contradiction explains. *)
Definition surviving (subjects : list string) (found : list Contradiction) : list string :=
  let contradicted := map ct_subject_ref (filter (λ c, is_duplicate c = false) found) in
  filter (λ x, x ∉ contradicted) subjects.

Definition verdict_of (f : ProposedFinding) (rows : list dict) (found : list Contradiction)
    : SkepticVerdict :=
  let subjects := remove_dups (map row_subject rows) in
  if negb (nonempty rows) then mkSkepticVerdict true found ""
  else if existsb is_duplicate found then
    mkSkepticVerdict false found (pf_code f +:+ " is already raised in this engagement")
  else if negb (nonempty (surviving subjects found)) then
    mkSkepticVerdict false found
      ("all " +:+ counted (zlen subjects) "exception" None +:+ " behind " +:+ pf_code f +:+
       " are explained by canonical records")
  else
    mkSkepticVerdict true found
      (pretty (zlen (surviving subjects found)) +:+ " of " +:+
       counted (zlen subjects) "exception" None +:+ " remain unexplained").

Definition review (s : SkepticReviewer) (f : ProposedFinding) (rows : list dict)
    : Res SkepticVerdict :=
  let? approved := search_approved s rows in
  let? out := search_out_of_period s rows in
  let? compensating := search_compensating s rows in
  let? duplicate := search_duplicate s f in
  Ok (verdict_of f rows (approved ++ out ++ compensating ++ duplicate)).

(** [finding_from_exceptions] of adjudication/service.py: the observed condition
    and the population are computed from the rows; pydantic may refuse the
    result. *)
Definition finding_from_exceptions (code title severity criteria risk_statement : string)
    (exceptions : list dict) (evidence_ids : list string) (source_run_id : option string)
    (confidence : float) (period : option (date * date)) (limitations : list string)
    : Res ProposedFinding :=
  let subjects := map row_subject exceptions in
  let sorted := sort_by String.compare subjects in
  let condition :=
    (if nonempty subjects
     then counted (zlen subjects) "exception" None +:+ " identified: " +:+ join ", " (take 20 sorted)
     else "no exceptions identified") +:+
    match period with
    | Some (a, b) => " (period " +:+ date_isoformat a +:+ " to " +:+ date_isoformat b +:+ ")"
    | None => ""
    end in
  let f := mkProposedFinding code title severity confidence criteria condition risk_statement
    None None None evidence_ids (map (λ row, py_str (get "exception_key" row)) exceptions)
    [("exception_count", JInt (zlen subjects)); ("subjects", JList (map JStr sorted))]
    limitations source_run_id in
  if ProposedFinding_valid f then Ok f else Err (Py ValueError).

(** ** What the search finds *)

Lemma collect_Ok {A B} (body : A → Res (option B)) l ys :
  collect body l = Ok ys →
  (∀ x, x ∈ l → ∃ y, body x = Ok y) ∧ (∀ y, y ∈ ys ↔ ∃ x, x ∈ l ∧ body x = Ok (Some y)).
Proof.
  revert ys. induction l as [|x l IH]; intros ys E; cbn in E.
  { injection E as <-. split; [by intros x ?%elem_of_nil|]. intros y.
    split; [by intros ?%elem_of_nil|by intros (x & ?%elem_of_nil & _)]. }
  apply res_bind_Ok in E as (y & Ey & (zs & Ez & [= <-])%res_bind_Ok).
  destruct (IH zs Ez) as [Hall Hiff]. split.
  { intros x' [->|Hx]%elem_of_cons; eauto. }
  intros w. destruct y as [y|]; rewrite ?elem_of_cons, Hiff.
  - split.
    + intros [->|(x' & Hx & E)]; [exists x|exists x']; by rewrite elem_of_cons; auto.
    + intros (x' & [->|Hx]%elem_of_cons & E); [left; congruence|right; eauto].
  - split.
    + intros (x' & Hx & E). exists x'. by rewrite elem_of_cons; auto.
    + intros (x' & [->|Hx]%elem_of_cons & E); [congruence|eauto].
Qed.

Lemma first_match_Some {A B} (body : A → Res (option B)) l y :
  first_match body l = Ok (Some y) → ∃ x, x ∈ l ∧ body x = Ok (Some y).
Proof.
  induction l as [|x l IH]; cbn; [done|]. intros ([z|] & Ez & E)%res_bind_Ok.
  - exists x. split; [left|congruence].
  - destruct (IH E) as (x' & ? & ?). exists x'. split; [by right|done].
Qed.
Lemma first_match_None {A B} (body : A → Res (option B)) l :
  first_match body l = Ok None → ∀ x, x ∈ l → body x = Ok None.
Proof.
  induction l as [|x l IH]; cbn; [by intros _ x ?%elem_of_nil|]. intros ([z|] & Ez & E)%res_bind_Ok.
  { done. }
  intros x' [->|Hx]%elem_of_cons; eauto.
Qed.

Lemma contradiction_Ok k x d ev c :
  contradiction k x d ev = Ok c → ct_kind c = k ∧ ct_subject_ref c = x.
Proof. unfold contradiction. case_match; [|done]. by intros [= <-]. Qed.

(** A list of contradictions of one kind, about the subjects of the rows [P] holds of. *)
Definition explains (k : ContradictionKind) (rows : list dict) (P : dict → Prop)
    (found : list Contradiction) : Prop :=
  (∀ c, c ∈ found → ct_kind c = k) ∧
  ∀ x, (∃ c, c ∈ found ∧ ct_subject_ref c = x) ↔ ∃ row, row ∈ rows ∧ subject_of row = x ∧ P row.

Lemma collect_explains k rows (P : dict → Prop) body found :
  (∀ row c, body row = Ok (Some c) → ct_kind c = k ∧ ct_subject_ref c = subject_of row ∧ P row) →
  (∀ row, body row = Ok None → ¬ P row) →
  collect body rows = Ok found → explains k rows P found.
Proof.
  intros Hs Hn [Hall Hiff]%collect_Ok. split.
  - intros c (row & _ & E)%Hiff. by apply Hs in E as (? & _).
  - intros x. split.
    + intros (c & (row & Hr & E)%Hiff & <-). apply Hs in E as (_ & ? & ?). eauto.
    + intros (row & Hr & <- & HP). destruct (Hall row Hr) as [[c|] E].
      * exists c. split; [apply Hiff; eauto|]. by apply Hs in E as (_ & ? & _).
      * by apply Hn in E.
Qed.

(** The row's exception is a registered one. *)
Definition approved (s : SkepticReviewer) (row : dict) : Prop :=
  ∃ a, a ∈ approved_exceptions s ∧ approval_applies s (subject_of row) a = true.
(** It falls outside the audit period. *)
Definition out_of_period (s : SkepticReviewer) (row : dict) : Prop :=
  match period_start s, period_end s, occurred_on row with
  | Some a, Some b, Some d => ¬ (a ≤ d ∧ d ≤ b)
  | _, _, _ => False
  end.
(** A control tested effective covers its subject. *)
Definition compensated (s : SkepticReviewer) (row : dict) : Prop :=
  ∃ c covered, c ∈ compensating_controls s ∧ covered_subjects c = Ok covered ∧
    subject_of row ∈ covered ∧ truthy_json (get "tested_effective" c) = true.
Definition explained (s : SkepticReviewer) (row : dict) : Prop :=
  approved s row ∨ out_of_period s row ∨ compensated s row.

Lemma search_approved_spec s rows found :
  search_approved s rows = Ok found →
  explains ContradictionKind.APPROVED_EXCEPTION rows (approved s) found.
Proof.
  apply collect_explains.
  - intros row c (a & Ha & E)%first_match_Some.
    destruct (approval_applies s (subject_of row) a) eqn:Ea; [|done].
    apply res_bind_Ok in E as (c' & [? ?]%contradiction_Ok & [= ->]).
    split_and!; [done..|]. by exists a.
  - intros row Hn (a & Ha & Hap). apply (first_match_None _ _ Hn) in Ha. rewrite Hap in Ha.
    by apply res_bind_Ok in Ha as (c' & _ & [=]).
Qed.

Lemma search_out_of_period_spec s rows found :
  search_out_of_period s rows = Ok found →
  explains ContradictionKind.OUT_OF_PERIOD rows (out_of_period s) found.
Proof.
  unfold search_out_of_period, out_of_period.
  destruct (period_start s) as [a|], (period_end s) as [b|];
    try (intros [= <-]; split; [by intros c ?%elem_of_nil|]; intros x; split;
         [by intros (c & ?%elem_of_nil & _)|by intros (row & _ & _ & [])]).
  apply collect_explains; intros row.
  - intros c E. destruct (occurred_on row) as [d|]; [|done].
    destruct (_ && _) eqn:Ed; [done|]. apply res_bind_Ok in E as (c' & [? ?]%contradiction_Ok & [= ->]).
    split_and!; [done..|]. apply andb_false_iff in Ed. lia.
  - intros E. destruct (occurred_on row) as [d|]; [|tauto].
    destruct (_ && _) eqn:Ed; [apply andb_true_iff in Ed; lia|].
    by apply res_bind_Ok in E as (c' & _ & [=]).
Qed.

Lemma search_compensating_spec s rows found :
  search_compensating s rows = Ok found →
  explains ContradictionKind.COMPENSATING_CONTROL rows (compensated s) found.
Proof.
  apply collect_explains.
  - intros row c (a & Ha & (covered & Ec & E)%res_bind_Ok)%first_match_Some.
    destruct (_ && _) eqn:Ed; [|done]. apply andb_true_iff in Ed as [Hc%bool_decide_eq_true Ht].
    apply res_bind_Ok in E as (c' & [? ?]%contradiction_Ok & [= ->]).
    split_and!; [done..|]. by exists a, covered.
  - intros row Hn (a & covered & Ha & Ec & Hc & Ht). apply (first_match_None _ _ Hn) in Ha.
    rewrite Ec in Ha. cbn [res_bind] in Ha. rewrite bool_decide_eq_true_2, Ht in Ha by done.
    by apply res_bind_Ok in Ha as (c' & _ & [=]).
Qed.

Lemma search_duplicate_spec s f found :
  search_duplicate s f = Ok found →
  (∀ c, c ∈ found → is_duplicate c = true) ∧ (found = [] ↔ pf_code f ∉ existing_codes s).
Proof.
  unfold search_duplicate. case_bool_decide as Hc.
  - intros (c & [Hk _]%contradiction_Ok & [= <-])%res_bind_Ok. split; [|done].
    intros c' ->%list_elem_of_singleton. unfold is_duplicate. by rewrite Hk.
  - intros [= <-]. split; [by intros c ?%elem_of_nil|done].
Qed.

Lemma explains_not_duplicate k rows P found c :
  explains k rows P found → k ≠ ContradictionKind.DUPLICATE_OF_EXISTING → c ∈ found →
  is_duplicate c = false.
Proof. intros [Hk _] Hne Hc. unfold is_duplicate. rewrite (Hk c Hc). by apply bool_decide_eq_false. Qed.

(** The contradictions a review returns, and its verdict. *)
Lemma review_Ok s f rows v :
  review s f rows = Ok v →
  ∃ found, v = verdict_of f rows found ∧
    (existsb is_duplicate found = true ↔ pf_code f ∈ existing_codes s) ∧
    ∀ x, (∃ c, c ∈ found ∧ is_duplicate c = false ∧ ct_subject_ref c = x) ↔
         ∃ row, row ∈ rows ∧ subject_of row = x ∧ explained s row.
Proof.
  intros (l1 & H1%search_approved_spec & (l2 & H2%search_out_of_period_spec & (l3 &
    H3%search_compensating_spec & (l4 & [H4 H5]%search_duplicate_spec & [= <-])%res_bind_Ok)
    %res_bind_Ok)%res_bind_Ok)%res_bind_Ok.
  exists (l1 ++ l2 ++ l3 ++ l4). split; [done|]. split.
  - rewrite existsb_elem. split.
    + intros (c & Hc & Hd). destruct (decide (pf_code f ∈ existing_codes s)) as [|Hn]; [done|].
      apply H5 in Hn as ->. rewrite !elem_of_app in Hc.
      destruct Hc as [Hc|[Hc|[Hc|?%elem_of_nil]]]; [..|done].
      * rewrite (explains_not_duplicate _ _ _ _ _ H1) in Hd; done.
      * rewrite (explains_not_duplicate _ _ _ _ _ H2) in Hd; done.
      * rewrite (explains_not_duplicate _ _ _ _ _ H3) in Hd; done.
    + intros Hc. destruct l4 as [|c l4]; [exfalso; by apply H5|].
      exists c. rewrite !elem_of_app. split; [|apply H4; left]. do 3 right. left.
  - intros x. unfold explained. split.
    + intros (c & Hc & Hd & Hx). rewrite !elem_of_app in Hc. destruct Hc as [Hc|[Hc|[Hc|Hc]]].
      * destruct (proj1 (proj2 H1 x)) as (row & ? & ? & ?); eauto 6.
      * destruct (proj1 (proj2 H2 x)) as (row & ? & ? & ?); eauto 6.
      * destruct (proj1 (proj2 H3 x)) as (row & ? & ? & ?); eauto 7.
      * apply H4 in Hc. congruence.
    + intros (row & Hr & Hx & [Hp|[Hp|Hp]]).
      * destruct (proj2 (proj2 H1 x)) as (c & Hc & ?); [eauto|]. exists c. rewrite !elem_of_app.
        split_and!; [auto|by eapply (explains_not_duplicate _ _ _ _ _ H1)|done].
      * destruct (proj2 (proj2 H2 x)) as (c & Hc & ?); [eauto|]. exists c. rewrite !elem_of_app.
        split_and!; [auto|by eapply (explains_not_duplicate _ _ _ _ _ H2)|done].
      * destruct (proj2 (proj2 H3 x)) as (c & Hc & ?); [eauto|]. exists c. rewrite !elem_of_app.
        split_and!; [auto|by eapply (explains_not_duplicate _ _ _ _ _ H3)|done].
Qed.

(** An exception of [rows] no canonical record explains. *)
Definition unexplained (s : SkepticReviewer) (rows : list dict) (row : dict) : Prop :=
  row ∈ rows ∧ ∀ row', row' ∈ rows → subject_of row' = row_subject row → ¬ explained s row'.

Lemma verdict_supported s f rows v :
  review s f rows = Ok v →
  (supported v = true ↔
   rows = [] ∨ ((pf_code f ∉ existing_codes s) ∧ ∃ row, unexplained s rows row)).
Proof.
  intros E. destruct (review_Ok _ _ _ _ E) as (found & -> & Hd & Hx). clear E. unfold verdict_of.
  destruct rows as [|r rows]; cbn [nonempty negb]; [cbn; tauto|].
  destruct (existsb is_duplicate found) eqn:Ed; cbn [supported].
  { split; [done|]. intros [?|[Hn _]]; [done|]. destruct Hn. by apply Hd. }
  assert (Hne : pf_code f ∉ existing_codes s) by (rewrite <- Hd; congruence).
  assert (Hs : ∀ x, x ∈ surviving (remove_dups (map row_subject (r :: rows))) found ↔
     ∃ row, row ∈ r :: rows ∧ row_subject row = x ∧ unexplained s (r :: rows) row).
  { intros x. unfold surviving, unexplained.
    rewrite list_elem_of_filter, elem_of_remove_dups, !list_elem_of_fmap. split.
    - intros [Hn (row & -> & Hr)]. exists row. split_and!; [done..|].
      intros row' Hr' E Hex. destruct (proj2 (Hx (row_subject row))) as (c & Hc & Hcd & Hcs); [eauto|].
      apply Hn. exists c. split; [done|]. by apply list_elem_of_filter.
    - intros (row & Hr & <- & _ & Hun). split; [|eauto].
      intros (c & Hcs & [Hcd Hc]%list_elem_of_filter).
      destruct (proj1 (Hx (row_subject row))) as (row' & ? & ? & ?); [by exists c|]. by eapply Hun. }
  destruct (surviving _ found) as [|x l]; cbn [nonempty negb supported].
  - split; [done|]. intros [?|(_ & row & Hrow)]; [done|]. exfalso.
    apply (not_elem_of_nil (row_subject row)), Hs. exists row. split_and!; [apply Hrow|done..].
  - split; [intros _; right|done]. split; [done|].
    destruct (proj1 (Hs x)) as (row & _ & _ & ?); [left|]. by exists row.
Qed.
