(* ===== verification/AdjStore.v ===== *)
(** * Adjudication: the store

    The rows of db/models/findings.py, the queries of adjudication/repository.py
    over them, and [_emit] of adjudication/service.py.  A row is split into the
    columns written when it is inserted and those the lifecycle changes.  Primary
    keys, unique keys, the foreign keys of a new finding and the check constraints
    are enforced on insertion.  Every operation reads before it writes, so no query
    depends on when the session flushes; rows with equal sort keys come in the
    order they were inserted. *)

From S2P Require Import Prelude Tables PyFloat PyTime Ledger PyText Materiality Quality AdjDefs Skeptic.
Local Open Scope Z_scope.

(** ** Rows *)

Record FindingSpec := mkFindingSpec {
  finding_id : string;
  fnd_tenant_id : string;
  fnd_engagement_id : string;
  fnd_code : string;
  fnd_version : Z;
  fnd_title : string;
  confidence : float;
  business_objective : option string;
  risk_statement : string;
  criteria : string;
  observed_condition : string;
  cause : option string;
  consequence : option string;
  affected_population_json : dict;
  limitations_json : list string;
  requires_human_approval : bool;
  evidence_ids_json : list string;
  contradictions_json : list json;
  exception_keys_json : list string;
  skeptic_reviewed_at : option datetime;
  skeptic_rationale : option string;
  source_run_id : option string;
  authored_by : option string;
  fnd_created_at : datetime
}.
Record Finding := mkFinding {
  fspec : FindingSpec;
  fnd_status : FindingStatus;
  severity : string
}.
Definition fid (f : Finding) : string := finding_id (fspec f).
Definition set_fnd_status (v : FindingStatus) (f : Finding) : Finding :=
  mkFinding (fspec f) v (severity f).
Definition set_severity (v : string) (f : Finding) : Finding :=
  mkFinding (fspec f) (fnd_status f) v.

Record ApprovalDecision := mkApprovalDecision {
  decision_id : string;
  apd_tenant_id : string;
  apd_engagement_id : option string;
  apd_finding_id : string;
  decision_type : string;
  apd_actor_id : string;
  apd_reason : string;
  decided_at : datetime
}.

Record ManagementResponse := mkManagementResponse {
  response_id : string;
  rsp_tenant_id : string;
  rsp_finding_id : string;
  rsp_version : Z;
  response_text : string;
  rsp_action_plan : option string;
  rsp_submitted_by : string;
  submitted_at : datetime;
  rsp_closure_evidence_ids_json : list string
}.

Record ActionSpec := mkActionSpec {
  action_id : string;
  act_tenant_id : string;
  act_finding_id : string;
  owner_ref : string;
  escalation_policy_json : dict;
  closure_evidence_required : bool;
  act_idempotency_key : option string;
  external_system : string;
  external_target : option string;
  act_created_at : datetime
}.
Record RemediationAction := mkRemediationAction {
  aspec : ActionSpec;
  act_status : string;
  due_date : date;
  action_plan : string;
  declared_complete_at : option datetime;
  completed_by : option string;
  external_ref : option string;
  external_url : option string;
  external_sync_state : string;
  external_synced_at : option datetime;
  external_error : option string
}.
Definition aid (a : RemediationAction) : string := action_id (aspec a).
Definition set_act_status (v : string) (a : RemediationAction) : RemediationAction :=
  mkRemediationAction (aspec a) v (due_date a) (action_plan a) (declared_complete_at a)
    (completed_by a) (external_ref a) (external_url a) (external_sync_state a)
    (external_synced_at a) (external_error a).

Record MaterialityAssessment := mkMaterialityAssessment {
  assessment_id : string;
  mat_tenant_id : string;
  mat_finding_id : string;
  mat_content_hash : string;
  mat_policy_id : string;
  policy_json : dict;
  mat_population_size : Z;
  mat_exception_count : Z;
  mat_monetary_exposure : option float;
  factors_json : list json;
  components_json : dict;
  score : float;
  material : bool;
  mat_severity_floor : string;
  mat_rationale : string;
  assessed_by : string;
  assessed_at : datetime;
  override_severity_ : option string;
  override_reason : option string;
  override_by : option string
}.
(** The assignments of [override_severity]. *)
Definition set_override (severity reason actor hash : string) (a : MaterialityAssessment)
    : MaterialityAssessment :=
  mkMaterialityAssessment (assessment_id a) (mat_tenant_id a) (mat_finding_id a) hash
    (mat_policy_id a) (policy_json a) (mat_population_size a) (mat_exception_count a)
    (mat_monetary_exposure a) (factors_json a) (components_json a) (score a) (material a)
    (mat_severity_floor a) (mat_rationale a) (assessed_by a) (assessed_at a)
    (Some severity) (Some reason) (Some actor).

Record QualityReview := mkQualityReview {
  review_id : string;
  qrv_tenant_id : string;
  qrv_finding_id : string;
  qrv_content_hash : string;
  reviewer_id : string;
  qrv_passed : bool;
  checks_json : list json;
  notes : option string;
  reviewed_at : datetime
}.

Record DisputeSpec := mkDisputeSpec {
  dispute_id : string;
  dsp_tenant_id : string;
  dsp_finding_id : string;
  round_no : Z;
  ground : DisputeGround;
  statement : string;
  raised_by : string;
  raised_at : datetime;
  dsp_evidence_ids_json : list string;
  prior_status : FindingStatus;
  escalated : bool
}.
Record FindingDispute := mkFindingDispute {
  dspec : DisputeSpec;
  dsp_status : string;
  resolution : option DisputeResolution;
  resolution_reason : option string;
  resolved_by : option string;
  resolved_at : option datetime
}.
Definition did (d : FindingDispute) : string := dispute_id (dspec d).

Record Retest := mkRetest {
  retest_id : string;
  rts_tenant_id : string;
  rts_action_id : string;
  rts_engagement_id : option string;
  rts_status : string;
  outcome : RetestOutcome;
  procedure_ref : string;
  performed_by : string;
  result_json : dict;
  rts_completed_at : datetime;
  rts_evidence_ids_json : list string;
  rts_idempotency_key : string;
  independence_basis_json : dict;
  rts_created_at : datetime
}.

(** The tables; of the tenants and the engagements, only their keys. *)
Record AdjDb := mkAdjDb {
  tenant_ids : list string;
  engagement_ids : list string;
  findings : list Finding;
  approval_decisions : list ApprovalDecision;
  management_responses : list ManagementResponse;
  remediation_actions : list RemediationAction;
  materiality_assessments : list MaterialityAssessment;
  quality_reviews : list QualityReview;
  finding_disputes : list FindingDispute;
  retests : list Retest;
  adj_ledger : Ledger
}.

Definition set_findings v (db : AdjDb) : AdjDb :=
  mkAdjDb (tenant_ids db) (engagement_ids db) v (approval_decisions db)
    (management_responses db) (remediation_actions db) (materiality_assessments db)
    (quality_reviews db) (finding_disputes db) (retests db) (adj_ledger db).
Definition set_approval_decisions v (db : AdjDb) : AdjDb :=
  mkAdjDb (tenant_ids db) (engagement_ids db) (findings db) v (management_responses db)
    (remediation_actions db) (materiality_assessments db) (quality_reviews db)
    (finding_disputes db) (retests db) (adj_ledger db).
Definition set_management_responses v (db : AdjDb) : AdjDb :=
  mkAdjDb (tenant_ids db) (engagement_ids db) (findings db) (approval_decisions db) v
    (remediation_actions db) (materiality_assessments db) (quality_reviews db)
    (finding_disputes db) (retests db) (adj_ledger db).
Definition set_remediation_actions v (db : AdjDb) : AdjDb :=
  mkAdjDb (tenant_ids db) (engagement_ids db) (findings db) (approval_decisions db)
    (management_responses db) v (materiality_assessments db) (quality_reviews db)
    (finding_disputes db) (retests db) (adj_ledger db).
Definition set_materiality_assessments v (db : AdjDb) : AdjDb :=
  mkAdjDb (tenant_ids db) (engagement_ids db) (findings db) (approval_decisions db)
    (management_responses db) (remediation_actions db) v (quality_reviews db)
    (finding_disputes db) (retests db) (adj_ledger db).
Definition set_quality_reviews v (db : AdjDb) : AdjDb :=
  mkAdjDb (tenant_ids db) (engagement_ids db) (findings db) (approval_decisions db)
    (management_responses db) (remediation_actions db) (materiality_assessments db) v
    (finding_disputes db) (retests db) (adj_ledger db).
Definition set_finding_disputes v (db : AdjDb) : AdjDb :=
  mkAdjDb (tenant_ids db) (engagement_ids db) (findings db) (approval_decisions db)
    (management_responses db) (remediation_actions db) (materiality_assessments db)
    (quality_reviews db) v (retests db) (adj_ledger db).
Definition set_retests v (db : AdjDb) : AdjDb :=
  mkAdjDb (tenant_ids db) (engagement_ids db) (findings db) (approval_decisions db)
    (management_responses db) (remediation_actions db) (materiality_assessments db)
    (quality_reviews db) (finding_disputes db) v (adj_ledger db).
Definition set_adj_ledger v (db : AdjDb) : AdjDb :=
  mkAdjDb (tenant_ids db) (engagement_ids db) (findings db) (approval_decisions db)
    (management_responses db) (remediation_actions db) (materiality_assessments db)
    (quality_reviews db) (finding_disputes db) (retests db) v.

Abbreviation AdjTx := (Tx AdjDb).

Definition save_finding (id : string) (f : Finding → Finding) : AdjTx unit :=
  modify (λ db, set_findings (update_row fid id f (findings db)) db).
Definition save_action (id : string) (f : RemediationAction → RemediationAction) : AdjTx unit :=
  modify (λ db, set_remediation_actions (update_row aid id f (remediation_actions db)) db).
Definition save_assessment (id : string) (f : MaterialityAssessment → MaterialityAssessment)
    : AdjTx unit :=
  modify (λ db, set_materiality_assessments
    (update_row assessment_id id f (materiality_assessments db)) db).
Definition save_dispute (id : string) (f : FindingDispute → FindingDispute) : AdjTx unit :=
  modify (λ db, set_finding_disputes (update_row did id f (finding_disputes db)) db).

(** ** AdjudicationRepository *)

Definition add_finding (f : Finding) : AdjTx unit :=
  db ← gets (λ db, db);
  require (bool_decide (fnd_tenant_id (fspec f) ∈ tenant_ids db) &&
           bool_decide (fnd_engagement_id (fspec f) ∈ engagement_ids db) &&
           fleb zero (confidence (fspec f)) && fleb (confidence (fspec f)) one &&
           absent (λ f', bool_decide (fid f' = fid f) ||
             bool_decide (fnd_engagement_id (fspec f') = fnd_engagement_id (fspec f) ∧
                          fnd_code (fspec f') = fnd_code (fspec f) ∧
                          fnd_version (fspec f') = fnd_version (fspec f))) (findings db))
    (Py IntegrityError) ;;
  modify (set_findings (findings db ++ [f])).

Definition get_finding (db : AdjDb) (tenant_id id : string) : option Finding :=
  scalar (filter (λ f, fnd_tenant_id (fspec f) = tenant_id ∧ fid f = id) (findings db)).

Definition find_by_code (db : AdjDb) (tenant_id engagement_id code : string) : option Finding :=
  scalar (sort_by (cmp_desc (cmp_on (λ f, fnd_version (fspec f)) Z.compare))
    (filter (λ f, fnd_tenant_id (fspec f) = tenant_id ∧
                  fnd_engagement_id (fspec f) = engagement_id ∧ fnd_code (fspec f) = code)
       (findings db))).

Definition finding_rows (db : AdjDb) (tenant_id : string) (engagement_id : option string)
    : list Finding :=
  sort_by (cmp_then (cmp_on (λ f, fnd_code (fspec f)) String.compare)
             (cmp_on (λ f, fnd_version (fspec f)) Z.compare))
    (filter (λ f, fnd_tenant_id (fspec f) = tenant_id ∧
                  (truthy engagement_id = true → Some (fnd_engagement_id (fspec f)) = engagement_id))
       (findings db)).

Definition list_findings_by_code (db : AdjDb) (tenant_id code : string) : list Finding :=
  sort_by (cmp_on (λ f, fnd_created_at (fspec f)) Z.compare)
    (filter (λ f, fnd_tenant_id (fspec f) = tenant_id ∧ fnd_code (fspec f) = code) (findings db)).

Definition add_decision (d : ApprovalDecision) : AdjTx unit :=
  db ← gets (λ db, db);
  require (absent (λ d', bool_decide (decision_id d' = decision_id d)) (approval_decisions db))
    (Py IntegrityError) ;;
  modify (set_approval_decisions (approval_decisions db ++ [d])).

Definition decisions (db : AdjDb) (tenant_id id : string) : list ApprovalDecision :=
  sort_by (cmp_then (cmp_on decided_at Z.compare) (cmp_on decision_id String.compare))
    (filter (λ d, apd_tenant_id d = tenant_id ∧ apd_finding_id d = id) (approval_decisions db)).

Definition add_action (a : RemediationAction) : AdjTx unit :=
  db ← gets (λ db, db);
  require (absent (λ a', bool_decide (aid a' = aid a)) (remediation_actions db))
    (Py IntegrityError) ;;
  modify (set_remediation_actions (remediation_actions db ++ [a])).

Definition get_action (db : AdjDb) (tenant_id id : string) : option RemediationAction :=
  scalar (filter (λ a, act_tenant_id (aspec a) = tenant_id ∧ aid a = id) (remediation_actions db)).

Definition actions (db : AdjDb) (tenant_id id : string) : list RemediationAction :=
  sort_by (cmp_on (λ a, act_created_at (aspec a)) Z.compare)
    (filter (λ a, act_tenant_id (aspec a) = tenant_id ∧ act_finding_id (aspec a) = id)
       (remediation_actions db)).
Definition open_action_for (db : AdjDb) (tenant_id id : string) : option RemediationAction :=
  scalar (actions db tenant_id id).

Definition add_response (r : ManagementResponse) : AdjTx unit :=
  db ← gets (λ db, db);
  require (absent (λ r', bool_decide (response_id r' = response_id r) ||
             bool_decide (rsp_finding_id r' = rsp_finding_id r ∧ rsp_version r' = rsp_version r))
             (management_responses db)) (Py IntegrityError) ;;
  modify (set_management_responses (management_responses db ++ [r])).

Definition responses (db : AdjDb) (tenant_id id : string) : list ManagementResponse :=
  sort_by (cmp_on rsp_version Z.compare)
    (filter (λ r, rsp_tenant_id r = tenant_id ∧ rsp_finding_id r = id) (management_responses db)).

Definition add_retest (r : Retest) : AdjTx unit :=
  db ← gets (λ db, db);
  require (absent (λ r', bool_decide (retest_id r' = retest_id r)) (retests db))
    (Py IntegrityError) ;;
  modify (set_retests (retests db ++ [r])).

Definition retests_of (db : AdjDb) (tenant_id id : string) : list Retest :=
  sort_by (cmp_on rts_created_at Z.compare)
    (filter (λ r, rts_tenant_id r = tenant_id ∧ rts_action_id r = id) (retests db)).

Definition add_assessment (a : MaterialityAssessment) : AdjTx unit :=
  db ← gets (λ db, db);
  require (fleb zero (score a) && (0 <=? mat_population_size a) && (0 <=? mat_exception_count a) &&
           absent (λ a', bool_decide (assessment_id a' = assessment_id a))
             (materiality_assessments db)) (Py IntegrityError) ;;
  modify (set_materiality_assessments (materiality_assessments db ++ [a])).

Definition latest_assessment (db : AdjDb) (tenant_id id : string) (content_hash : option string)
    : option MaterialityAssessment :=
  scalar (sort_by (cmp_desc (cmp_on assessed_at Z.compare))
    (filter (λ a, mat_tenant_id a = tenant_id ∧ mat_finding_id a = id ∧
                  matches_opt content_hash (Some (mat_content_hash a)))
       (materiality_assessments db))).

Definition add_quality_review (r : QualityReview) : AdjTx unit :=
  db ← gets (λ db, db);
  require (absent (λ r', bool_decide (review_id r' = review_id r)) (quality_reviews db))
    (Py IntegrityError) ;;
  modify (set_quality_reviews (quality_reviews db ++ [r])).

Definition passing_review (db : AdjDb) (tenant_id id content_hash : string) : option QualityReview :=
  scalar (sort_by (cmp_desc (cmp_on reviewed_at Z.compare))
    (filter (λ r, qrv_tenant_id r = tenant_id ∧ qrv_finding_id r = id ∧
                  qrv_content_hash r = content_hash ∧ qrv_passed r = true) (quality_reviews db))).

Definition reviews_of (db : AdjDb) (tenant_id id : string) : list QualityReview :=
  sort_by (cmp_on reviewed_at Z.compare)
    (filter (λ r, qrv_tenant_id r = tenant_id ∧ qrv_finding_id r = id) (quality_reviews db)).

Definition add_dispute (d : FindingDispute) : AdjTx unit :=
  db ← gets (λ db, db);
  require (absent (λ d', bool_decide (did d' = did d) ||
             bool_decide (dsp_finding_id (dspec d') = dsp_finding_id (dspec d) ∧
                          round_no (dspec d') = round_no (dspec d))) (finding_disputes db))
    (Py IntegrityError) ;;
  modify (set_finding_disputes (finding_disputes db ++ [d])).

Definition get_dispute (db : AdjDb) (tenant_id id : string) : option FindingDispute :=
  scalar (filter (λ d, dsp_tenant_id (dspec d) = tenant_id ∧ did d = id) (finding_disputes db)).

Definition disputes (db : AdjDb) (tenant_id id : string) : list FindingDispute :=
  sort_by (cmp_on (λ d, round_no (dspec d)) Z.compare)
    (filter (λ d, dsp_tenant_id (dspec d) = tenant_id ∧ dsp_finding_id (dspec d) = id)
       (finding_disputes db)).

Definition open_dispute (db : AdjDb) (tenant_id id : string) : option FindingDispute :=
  scalar (sort_by (cmp_desc (cmp_on (λ d, round_no (dspec d)) Z.compare))
    (filter (λ d, dsp_tenant_id (dspec d) = tenant_id ∧ dsp_finding_id (dspec d) = id ∧
                  dsp_status d = "open") (finding_disputes db))).

(** ** Recording *)

Section ids.
Context `{UuidSource}.

Definition on_ledger {A} (m : Tx Ledger A) : AdjTx A := zoom adj_ledger set_adj_ledger m.
Definition fresh (prefix : string) : AdjTx string := on_ledger (new_id prefix).
Definition utc_now : AdjTx datetime := gets (λ db, wall_clock (adj_ledger db)).

(** [_emit]. *)
Definition emit (tenant_id : string) (engagement_id : option string) (aggregate_id event_type : string)
    (payload : dict) (key aggregate_type : string) (outbox : bool) : AdjTx unit :=
  event ← on_ledger new_event_id;
  now ← utc_now;
  on_ledger (append (mkAuditEvent event event_type tenant_id engagement_id None now payload)) ;;
  if outbox
  then on_ledger (outbox_add tenant_id aggregate_type aggregate_id event_type payload key)
  else mret tt.
End ids.
