(* ===== verification/Adjudication.v ===== *)
(** * Adjudication: the service

    [AdjudicationService] of adjudication/service.py: each operation is the body
    of one transaction, except [sync_remediation_ticket] (Ticketing.v), which
    calls the ticket provider between two.  What [utc_now] returns is constant in
    a transaction. *)

From S2P Require Import Prelude Tables PyFloat PyTime Ledger PyText Materiality Quality AdjDefs Skeptic.
From S2P Require Import AdjStore.
Local Open Scope Z_scope.

(** What the service is built with. *)
Record AdjudicationService := mkAdjudicationService {
  agent_role_prefixes : list string;
  require_quality_review : bool;
  max_dispute_rounds : Z
}.
Definition default_service : AdjudicationService :=
  mkAdjudicationService ["agent:"; "svc:"; "system:"] true 3.

Definition _DECISION_TARGET (d : HumanDecision) : FindingStatus :=
  match d with
  | HumanDecision.APPROVE => FindingStatus.APPROVED
  | HumanDecision.REJECT => FindingStatus.REJECTED
  | HumanDecision.DEFER => FindingStatus.DEFERRED
  | HumanDecision.ACCEPT_RISK => FindingStatus.RISK_ACCEPTED
  | HumanDecision.RETURN_FOR_REWORK => FindingStatus.PROPOSED
  end.

Definition is_agent (s : AdjudicationService) (actor : string) : bool :=
  startswith (lower actor) (agent_role_prefixes s).
Definition jstrs (l : list string) : json := JList (map JStr l).
Definition reading : AdjTx AdjDb := gets (λ db, db).

Definition require_finding (db : AdjDb) (tenant_id id : string) : AdjTx Finding :=
  some_or_raise (Adj FindingNotFoundError) (get_finding db tenant_id id).
Definition require_transition (current target : FindingStatus) : AdjTx unit :=
  require (bool_decide (target ∈ ALLOWED_TRANSITIONS current))
    (Adj (InvalidTransitionError (value current) (value target))).

Section service.
Context `{UuidSource} `{Sha256}.

Definition _content_hash (f : Finding) : string :=
  content_hash (fnd_code (fspec f)) (fnd_title (fspec f)) (severity f) (criteria (fspec f))
    (observed_condition (fspec f)) (risk_statement (fspec f)) (evidence_ids_json (fspec f))
    (exception_keys_json (fspec f)).

(** [repository.add_decision(ApprovalDecision(...))]. *)
Definition decide_on (tenant_id : string) (f : Finding) (decision_type actor_id reason : string)
    : AdjTx unit :=
  id ← fresh "apd";
  now ← utc_now;
  add_decision (mkApprovalDecision id tenant_id (Some (fnd_engagement_id (fspec f))) (fid f)
    decision_type actor_id reason now).

(** *** Proposal *)

Definition proposed_row (id tenant_id engagement_id : string) (version : Z) (f : ProposedFinding)
    (verdict : SkepticVerdict) (authored_by : string) (now : datetime) : Finding :=
  mkFinding
    (mkFindingSpec id tenant_id engagement_id (pf_code f) version (pf_title f) (pf_confidence f)
       (pf_business_objective f) (pf_risk_statement f) (pf_criteria f) (pf_observed_condition f)
       (pf_cause f) (pf_consequence f) (pf_affected_population f) (pf_limitations f) true
       (pf_evidence_ids f) (map dump_contradiction (contradictions verdict))
       (pf_exception_keys f) (Some now)
       (if decide (rationale verdict = "") then None else Some (rationale verdict))
       (pf_source_run_id f) (Some authored_by) now)
    (if supported verdict then FindingStatus.PROPOSED else FindingStatus.REJECTED)
    (pf_severity f).

Definition propose (tenant_id engagement_id : string) (f : ProposedFinding) (authored_by : string)
    (skeptic : option SkepticReviewer) (exception_rows : list dict)
    : AdjTx (string * SkepticVerdict) :=
  verdict ← from_res (review (default default_skeptic skeptic) f exception_rows);
  db ← reading;
  let version := match find_by_code db tenant_id engagement_id (pf_code f) with
                 | Some existing => fnd_version (fspec existing) + 1
                 | None => 1
                 end in
  id ← fresh "fnd";
  now ← utc_now;
  let record := proposed_row id tenant_id engagement_id version f verdict authored_by now in
  add_finding record ;;
  (if supported verdict then mret tt
   else decide_on tenant_id record "skeptic_reject" "agent:skeptic" (rejection_reason verdict)) ;;
  emit tenant_id (Some engagement_id) id
    (if supported verdict then "finding.proposed" else "finding.skeptic_rejected")
    [("finding_id", JStr id); ("code", JStr (pf_code f)); ("version", JInt version);
     ("severity", JStr (pf_severity f)); ("status", JStr (value (fnd_status record)));
     ("authored_by", JStr authored_by); ("evidence_ids", jstrs (pf_evidence_ids f));
     ("contradictions", JList (map dump_contradiction (contradictions verdict)))]
    ("finding-proposed:" +:+ id) "finding" true ;;
  mret (id, verdict).

(** *** The approval gates *)

Definition _approval_blockers (s : AdjudicationService) (db : AdjDb) (tenant_id : string)
    (f : Finding) : list string :=
  let digest := _content_hash f in
  (match open_dispute db tenant_id (fid f) with
   | Some _ => ["an open dispute must be resolved before approval"]
   | None => []
   end) ++
  (match latest_assessment db tenant_id (fid f) (Some digest) with
   | None => ["no materiality assessment exists for the current text of the finding"]
   | Some _ => []
   end) ++
  (if require_quality_review s then
     match passing_review db tenant_id (fid f) digest with
     | Some _ => []
     | None =>
         [if existsb (λ r, qrv_passed r && negb (bool_decide (qrv_content_hash r = digest)))
               (reviews_of db tenant_id (fid f))
          then "the finding changed after its last passing quality review"
          else "no passing quality review exists for the current text of the finding"]
     end
   else []).

Definition approval_blockers (s : AdjudicationService) (db : AdjDb) (tenant_id id : string)
    : list string :=
  match get_finding db tenant_id id with
  | Some f =>
      if bool_decide (fnd_status f = FindingStatus.PROPOSED)
      then _approval_blockers s db tenant_id f else []
  | None => []
  end.

Definition require_approval_preconditions (s : AdjudicationService) (db : AdjDb)
    (tenant_id : string) (f : Finding) (approver_id : string) : AdjTx unit :=
  let blockers := _approval_blockers s db tenant_id f in
  require (bool_decide (blockers = [])) (Adj (QualityGateError blockers)) ;;
  if require_quality_review s then
    match passing_review db tenant_id (fid f) (_content_hash f) with
    | Some r => require (negb (bool_decide (identity (reviewer_id r) = identity approver_id)))
                  (Adj (IndependenceError "quality reviewer"))
    | None => mret tt
    end
  else mret tt.

(** *** Human adjudication *)

Definition adjudicate (s : AdjudicationService) (tenant_id : string) (r : AdjudicationRequest)
    : AdjTx FindingStatus :=
  require (negb (is_agent s (ar_actor_id r))) (Adj HumanGateError) ;;
  db ← reading;
  f ← require_finding db tenant_id (ar_finding_id r);
  let current := fnd_status f in
  let target := _DECISION_TARGET (ar_decision r) in
  let kind := "human:" +:+ value (ar_decision r) in
  if existsb (λ p, bool_decide (decision_type p = kind) && bool_decide (apd_actor_id p = ar_actor_id r))
       (decisions db tenant_id (fid f))
  then mret current
  else
    (if bool_decide (ar_decision r = HumanDecision.RETURN_FOR_REWORK)
     then require (bool_decide (current = FindingStatus.PROPOSED))
            (Adj (InvalidTransitionError (value current) (value target)))
     else require_transition current target) ;;
    (if bool_decide (ar_decision r = HumanDecision.APPROVE)
     then require_approval_preconditions s db tenant_id f (ar_actor_id r)
     else mret tt) ;;
    save_finding (fid f) (set_fnd_status target) ;;
    decide_on tenant_id f kind (ar_actor_id r) (ar_reason r) ;;
    emit tenant_id (Some (fnd_engagement_id (fspec f))) (fid f)
      ("finding." +:+ value (ar_decision r))
      [("finding_id", JStr (fid f)); ("code", JStr (fnd_code (fspec f)));
       ("status", JStr (value target)); ("actor_id", JStr (ar_actor_id r));
       ("reason", JStr (ar_reason r))]
      ("finding-decision:" +:+ ar_idempotency_key r) "finding" true ;;
    mret target.

(** *** Materiality *)

Definition opt_float (o : option float) : json :=
  match o with Some x => JFloat x | None => JNull end.
Definition dump_policy (p : MaterialityPolicy) : dict :=
  [("policy_id", JStr (policy_id p));
   ("exception_rate_threshold", JFloat (exception_rate_threshold p));
   ("population_floor", JInt (population_floor p));
   ("monetary_threshold", opt_float (monetary_threshold p));
   ("factor_weights", JObj (map (λ '(f, w), (value f, JFloat w)) (factor_weights p)));
   ("severity_bands", JList (map (λ '(t, n), JList [JFloat t; JStr n]) (severity_bands p)))].
Definition dump_factor (a : FactorAssertion) : json :=
  JObj [("factor", JStr (value (fa_factor a))); ("rationale", JStr (fa_rationale a));
        ("evidence_ids", jstrs (fa_evidence_ids a))].

Definition assessment_row (id tenant_id : string) (f : Finding) (r : MaterialityRequest)
    (p : MaterialityPolicy) (res : MaterialityResult) (now : datetime) : MaterialityAssessment :=
  mkMaterialityAssessment id tenant_id (fid f) (_content_hash f) (policy_id p) (dump_policy p)
    (population_size (mr_inputs r)) (exception_count (mr_inputs r))
    (monetary_exposure (mr_inputs r)) (map dump_factor (factors (mr_inputs r)))
    (res_components res) (res_score res) (res_material res) (res_severity_floor res)
    (res_rationale res) (mr_assessed_by r) now None None None.

Definition assess_materiality (tenant_id : string) (r : MaterialityRequest)
    : AdjTx MaterialityAssessment :=
  let p := default default_policy (mr_policy r) in
  res ← from_res (assess (mr_inputs r) (Some p));
  db ← reading;
  f ← require_finding db tenant_id (mr_finding_id r);
  let escalate := severity_rank (severity f) <? severity_rank (res_severity_floor res) in
  let f' := if escalate then set_severity (res_severity_floor res) f else f in
  (if escalate then save_finding (fid f) (set_severity (res_severity_floor res)) else mret tt) ;;
  id ← fresh "mat";
  now ← utc_now;
  let a := assessment_row id tenant_id f' r p res now in
  add_assessment a ;;
  emit tenant_id (Some (fnd_engagement_id (fspec f))) (fid f) "finding.materiality_assessed"
    [("finding_id", JStr (fid f)); ("assessment_id", JStr id);
     ("score", JFloat (res_score res)); ("material", JBool (res_material res));
     ("severity_floor", JStr (res_severity_floor res));
     ("severity_escalated_from", if escalate then JStr (severity f) else JNull);
     ("policy_id", JStr (policy_id p)); ("components", JObj (res_components res));
     ("assessed_by", JStr (mr_assessed_by r))]
    ("materiality:" +:+ id) "finding" true ;;
  mret a.

Definition override_severity (s : AdjudicationService) (tenant_id : string)
    (r : SeverityOverrideRequest) : AdjTx MaterialityAssessment :=
  require (negb (is_agent s (so_actor_id r))) (Adj HumanGateError) ;;
  db ← reading;
  f ← require_finding db tenant_id (so_finding_id r);
  a ← some_or_raise (Adj MaterialityError)
        (latest_assessment db tenant_id (fid f) (Some (_content_hash f)));
  require (negb (severity_rank (mat_severity_floor a) <=? severity_rank (so_severity r)))
    (Adj MaterialityError) ;;
  let f' := set_severity (so_severity r) f in
  let a' := set_override (so_severity r) (so_reason r) (so_actor_id r) (_content_hash f') a in
  save_finding (fid f) (set_severity (so_severity r)) ;;
  save_assessment (assessment_id a)
    (set_override (so_severity r) (so_reason r) (so_actor_id r) (_content_hash f')) ;;
  decide_on tenant_id f "human:severity_override" (so_actor_id r) (so_reason r) ;;
  emit tenant_id (Some (fnd_engagement_id (fspec f))) (fid f) "finding.severity_overridden"
    [("finding_id", JStr (fid f)); ("from_severity", JStr (severity f));
     ("to_severity", JStr (so_severity r)); ("computed_floor", JStr (mat_severity_floor a));
     ("actor_id", JStr (so_actor_id r)); ("reason", JStr (so_reason r))]
    ("severity-override:" +:+ fid f +:+ ":" +:+ so_severity r) "finding" true ;;
  mret a'.

(** *** Quality review *)

Definition review_materiality (a : MaterialityAssessment) : dict :=
  [("score", JFloat (score a)); ("severity_floor", JStr (mat_severity_floor a));
   ("override_severity", opt_json (override_severity_ a))].

(** The call of [quality.evaluate] on the stored finding. *)
Definition evaluate_finding (db : AdjDb) (tenant_id reviewer : string) (f : Finding)
    : Res QualityReviewOutcome :=
  let digest := _content_hash f in
  evaluate reviewer (authored_by (fspec f)) (severity f) (evidence_ids_json (fspec f))
    (contradictions_json (fspec f)) (exception_keys_json (fspec f)) (criteria (fspec f))
    (observed_condition (fspec f)) (limitations_json (fspec f))
    (review_materiality <$> latest_assessment db tenant_id (fid f) (Some digest))
    (match skeptic_reviewed_at (fspec f) with Some _ => true | None => false end) digest.

Definition dump_check (c : CheckResult) : json :=
  JObj [("check", JStr (value (check c))); ("passed", JBool (passed c)); ("detail", JStr (detail c))].

Definition review_quality (tenant_id : string) (r : QualityReviewRequest)
    : AdjTx QualityReviewOutcome :=
  db ← reading;
  f ← require_finding db tenant_id (qr_finding_id r);
  o ← from_res (evaluate_finding db tenant_id (qr_reviewer_id r) f);
  id ← fresh "qrv";
  now ← utc_now;
  add_quality_review (mkQualityReview id tenant_id (fid f) (_content_hash f) (qr_reviewer_id r)
    (outcome_passed o) (map dump_check (checks o)) (qr_notes r) now) ;;
  emit tenant_id (Some (fnd_engagement_id (fspec f))) (fid f)
    (if outcome_passed o then "finding.quality_review_passed" else "finding.quality_review_failed")
    [("finding_id", JStr (fid f)); ("reviewer_id", JStr (qr_reviewer_id r));
     ("passed", JBool (outcome_passed o)); ("content_hash", JStr (_content_hash f));
     ("failed_checks", jstrs (map (λ c, value (check c)) (failures o)));
     ("summary", JStr (summary o))]
    ("quality-review:" +:+ id) "finding" true ;;
  mret o.

(** *** Disputes *)

Definition raise_dispute (s : AdjudicationService) (tenant_id : string) (r : DisputeRequest)
    : AdjTx string :=
  db ← reading;
  f ← require_finding db tenant_id (dr_finding_id r);
  require (bool_decide (open_dispute db tenant_id (fid f) = None)) (Adj DisputeError) ;;
  require_transition (fnd_status f) FindingStatus.DISPUTED ;;
  let round := zlen (disputes db tenant_id (fid f)) + 1 in
  let escalate := max_dispute_rounds s <? round in
  id ← fresh "dsp";
  now ← utc_now;
  add_dispute (mkFindingDispute
    (mkDisputeSpec id tenant_id (fid f) round (dr_ground r) (dr_statement r) (dr_raised_by r) now
       (dr_evidence_ids r) (fnd_status f) escalate) "open" None None None None) ;;
  save_finding (fid f) (set_fnd_status FindingStatus.DISPUTED) ;;
  emit tenant_id (Some (fnd_engagement_id (fspec f))) (fid f) "finding.disputed"
    [("finding_id", JStr (fid f)); ("dispute_id", JStr id); ("round_no", JInt round);
     ("ground", JStr (value (dr_ground r))); ("raised_by", JStr (dr_raised_by r));
     ("prior_status", JStr (value (fnd_status f))); ("escalated", JBool escalate);
     ("evidence_ids", jstrs (dr_evidence_ids r))]
    ("dispute-raised:" +:+ id) "finding" true ;;
  mret id.

Definition resolution_target (d : FindingDispute) (r : DisputeResolution) : FindingStatus :=
  match r with
  | DisputeResolution.UPHELD => prior_status (dspec d)
  | DisputeResolution.MODIFIED => FindingStatus.PROPOSED
  | DisputeResolution.WITHDRAWN => FindingStatus.WITHDRAWN
  end.

Definition resolved (r : DisputeResolutionRequest) (now : datetime) (d : FindingDispute)
    : FindingDispute :=
  mkFindingDispute (dspec d) "resolved" (Some (rr_resolution r)) (Some (rr_reason r))
    (Some (rr_resolved_by r)) (Some now).

Definition resolve_dispute (s : AdjudicationService) (tenant_id : string)
    (r : DisputeResolutionRequest) : AdjTx FindingStatus :=
  require (negb (is_agent s (rr_resolved_by r))) (Adj HumanGateError) ;;
  db ← reading;
  d ← some_or_raise (Adj DisputeError) (get_dispute db tenant_id (rr_dispute_id r));
  require (bool_decide (dsp_status d = "open")) (Adj DisputeError) ;;
  f ← require_finding db tenant_id (dsp_finding_id (dspec d));
  let resolver := identity (rr_resolved_by r) in
  require (negb (bool_decide (resolver = identity (raised_by (dspec d)))))
    (Adj (IndependenceError "raiser of the dispute")) ;;
  require (negb (truthy (authored_by (fspec f)) &&
                 bool_decide (resolver = identity (default "" (authored_by (fspec f))))))
    (Adj (IndependenceError "author of the finding")) ;;
  let target := resolution_target d (rr_resolution r) in
  require_transition FindingStatus.DISPUTED target ;;
  now ← utc_now;
  save_dispute (did d) (resolved r now) ;;
  save_finding (fid f) (set_fnd_status target) ;;
  decide_on tenant_id f ("dispute:" +:+ value (rr_resolution r)) (rr_resolved_by r) (rr_reason r) ;;
  emit tenant_id (Some (fnd_engagement_id (fspec f))) (fid f)
    ("finding.dispute_" +:+ value (rr_resolution r))
    [("finding_id", JStr (fid f)); ("dispute_id", JStr (did d));
     ("round_no", JInt (round_no (dspec d))); ("resolution", JStr (value (rr_resolution r)));
     ("resolved_by", JStr (rr_resolved_by r)); ("status", JStr (value target));
     ("reason", JStr (rr_reason r))]
    ("dispute-resolved:" +:+ did d) "finding" true ;;
  mret target.

(** *** Remediation *)

Definition open_remediation (tenant_id : string) (r : RemediationRequest) : AdjTx (string * bool) :=
  db ← reading;
  f ← require_finding db tenant_id (rm_finding_id r);
  match open_action_for db tenant_id (fid f) with
  | Some existing =>
      require (negb (truthy (act_idempotency_key (aspec existing)) &&
                 negb (bool_decide (act_idempotency_key (aspec existing) = Some (rm_idempotency_key r))) &&
                 negb (bool_decide (action_plan existing = rm_action_plan r))))
        (Adj IdempotencyConflictError) ;;
      mret (aid existing, false)
  | None =>
      require_transition (fnd_status f) FindingStatus.REMEDIATION_OPEN ;;
      id ← fresh "rma";
      now ← utc_now;
      add_action (mkRemediationAction
        (mkActionSpec id tenant_id (fid f) (rm_owner_ref r) (rm_escalation_policy r)
           (rm_closure_evidence_required r) (Some (rm_idempotency_key r)) (rm_external_system r)
           (rm_external_target r) now)
        "open" (rm_due_date r) (rm_action_plan r) None None None None
        (if decide (rm_external_system r = "none") then "not_applicable" else "pending") None None) ;;
      save_finding (fid f) (set_fnd_status FindingStatus.REMEDIATION_OPEN) ;;
      emit tenant_id (Some (fnd_engagement_id (fspec f))) id "remediation.opened"
        [("action_id", JStr id); ("finding_id", JStr (fid f)); ("owner_ref", JStr (rm_owner_ref r));
         ("due_date", JStr (date_isoformat (rm_due_date r)));
         ("external_system", JStr (rm_external_system r));
         ("closure_evidence_required", JBool (rm_closure_evidence_required r))]
        ("remediation-opened:" +:+ id) "remediation_action" true ;;
      mret (id, true)
  end.

(** *** Closure *)

Definition require_action (db : AdjDb) (tenant_id id : string) : AdjTx RemediationAction :=
  some_or_raise (Adj RemediationNotFoundError) (get_action db tenant_id id).

Definition declared (submitted_by : string) (now : datetime) (a : RemediationAction)
    : RemediationAction :=
  mkRemediationAction (aspec a) "declared_complete" (due_date a) (action_plan a) (Some now)
    (Some submitted_by) (external_ref a) (external_url a) (external_sync_state a)
    (external_synced_at a) (external_error a).

Definition submit_closure (tenant_id : string) (c : ClosureSubmission) : AdjTx string :=
  db ← reading;
  a ← require_action db tenant_id (cs_action_id c);
  f ← require_finding db tenant_id (act_finding_id (aspec a));
  require (negb (closure_evidence_required (aspec a) && negb (nonempty (cs_closure_evidence_ids c))))
    (Adj ClosureEvidenceError) ;;
  require_transition (fnd_status f) FindingStatus.REMEDIATION_DECLARED_COMPLETE ;;
  let version := zlen (responses db tenant_id (fid f)) + 1 in
  id ← fresh "mgr";
  now ← utc_now;
  add_response (mkManagementResponse id tenant_id (fid f) version (cs_response_text c)
    (Some (str_or (cs_action_plan c) (action_plan a))) (cs_submitted_by c) now
    (cs_closure_evidence_ids c)) ;;
  save_action (aid a) (declared (cs_submitted_by c) now) ;;
  save_finding (fid f) (set_fnd_status FindingStatus.REMEDIATION_DECLARED_COMPLETE) ;;
  emit tenant_id (Some (fnd_engagement_id (fspec f))) (aid a) "remediation.closure_submitted"
    [("action_id", JStr (aid a)); ("finding_id", JStr (fid f)); ("response_id", JStr id);
     ("submitted_by", JStr (cs_submitted_by c));
     ("closure_evidence_ids", jstrs (cs_closure_evidence_ids c))]
    ("closure-submitted:" +:+ id) "remediation_action" true ;;
  mret id.

(** *** Independent retest *)

(** [_require_independence]: the first party to the work that is the candidate. *)
Definition require_independence (f : Finding) (a : RemediationAction) (performed_by : string)
    : AdjTx unit :=
  let candidate := identity performed_by in
  let conflict actor := negb (bool_decide (actor = "")) && bool_decide (actor = candidate) in
  require (negb (conflict (identity (str_or (authored_by (fspec f)) ""))))
    (Adj (IndependenceError "author of the finding")) ;;
  require (negb (conflict (identity (owner_ref (aspec a)))))
    (Adj (IndependenceError "owner of the remediation")) ;;
  require (negb (conflict (identity (str_or (completed_by a) ""))))
    (Adj (IndependenceError "declarer of completion")).

Definition closes (o : RetestOutcome) : bool := bool_decide (o ∈ CLOSING_OUTCOMES).

Definition retest (tenant_id : string) (r : RetestRequest) : AdjTx (string * FindingStatus) :=
  db ← reading;
  a ← require_action db tenant_id (rt_action_id r);
  f ← require_finding db tenant_id (act_finding_id (aspec a));
  require_independence f a (rt_performed_by r) ;;
  match scalar (filter (λ p, rts_idempotency_key p = rt_idempotency_key r)
                  (retests_of db tenant_id (aid a))) with
  | Some prior => mret (retest_id prior, fnd_status f)
  | None =>
      require_transition (fnd_status f) FindingStatus.RETEST_IN_PROGRESS ;;
      let closed := closes (rt_outcome r) in
      require (negb (closed && negb (nonempty (rt_evidence_ids r)))) (Adj ClosureEvidenceError) ;;
      let final := if closed then FindingStatus.CLOSED_VERIFIED else FindingStatus.REOPENED in
      id ← fresh "rts";
      now ← utc_now;
      add_retest (mkRetest id tenant_id (aid a) (Some (fnd_engagement_id (fspec f))) "completed"
        (rt_outcome r) (rt_procedure_ref r) (rt_performed_by r)
        [("detail", JStr (rt_detail r));
         ("fresh_evidence_collected_at",
            match rt_fresh_evidence_collected_at r with
            | Some t => JStr (isoformat t) | None => JNull end);
         ("resulting_status", JStr (value final))]
        now (rt_evidence_ids r) (rt_idempotency_key r)
        [("authored_by", opt_json (authored_by (fspec f)));
         ("remediated_by", opt_json (completed_by a)); ("performed_by", JStr (rt_performed_by r))]
        now) ;;
      save_action (aid a) (set_act_status (if closed then "closed" else "reopened")) ;;
      save_finding (fid f) (set_fnd_status final) ;;
      emit tenant_id (Some (fnd_engagement_id (fspec f))) (fid f)
        (if closed then "finding.closed_verified" else "finding.reopened")
        [("finding_id", JStr (fid f)); ("action_id", JStr (aid a)); ("retest_id", JStr id);
         ("outcome", JStr (value (rt_outcome r))); ("performed_by", JStr (rt_performed_by r));
         ("status", JStr (value final)); ("evidence_ids", jstrs (rt_evidence_ids r))]
        ("retest-completed:" +:+ id) "finding" true ;;
      mret (id, final)
  end.

Definition replanned (r : RemediationRequest) (a : RemediationAction) : RemediationAction :=
  mkRemediationAction (aspec a) "open" (rm_due_date r) (rm_action_plan r) None None
    (external_ref a) (external_url a) (external_sync_state a) (external_synced_at a)
    (external_error a).

Definition reopen_for_remediation (tenant_id id : string) (r : RemediationRequest) : AdjTx string :=
  db ← reading;
  f ← require_finding db tenant_id id;
  require_transition (fnd_status f) FindingStatus.REMEDIATION_OPEN ;;
  a ← some_or_raise (Adj RemediationNotFoundError) (open_action_for db tenant_id id);
  save_action (aid a) (replanned r) ;;
  save_finding (fid f) (set_fnd_status FindingStatus.REMEDIATION_OPEN) ;;
  emit tenant_id (Some (fnd_engagement_id (fspec f))) (aid a) "remediation.reopened"
    [("action_id", JStr (aid a)); ("finding_id", JStr id);
     ("due_date", JStr (date_isoformat (rm_due_date r)))]
    ("remediation-reopened:" +:+ aid a +:+ ":" +:+ rm_idempotency_key r) "remediation_action" true ;;
  mret (aid a).

(** *** Reads *)

Definition recurrence (db : AdjDb) (tenant_id code : string) : option RecurrenceMatch :=
  let raised := filter (λ f, fnd_status f ≠ FindingStatus.REJECTED)
                  (list_findings_by_code db tenant_id code) in
  let engagements := sort_by String.compare
                       (remove_dups (map (λ f, fnd_engagement_id (fspec f)) raised)) in
  if zlen engagements <? 2 then None
  else match last raised with
       | Some f => Some (mkRecurrenceMatch code engagements (zlen raised) (fnd_status f))
       | None => None
       end.

Record FindingView := mkFindingView {
  view_finding_id : string;
  view_tenant_id : string;
  view_engagement_id : string;
  view_code : string;
  view_version : Z;
  view_title : string;
  view_status : FindingStatus;
  view_severity : string;
  view_confidence : float;
  view_requires_human_approval : bool;
  view_evidence_ids : list string;
  view_limitations : list string;
  view_decisions : list dict;
  view_actions : list dict;
  view_retests : list dict;
  view_content_hash : string;
  view_materiality : option dict;
  view_quality_reviews : list dict;
  view_disputes : list dict;
  approval_ready : bool;
  view_approval_blockers : list string
}.

(** [check["check"] for check in checks if not check.get("passed")]. *)
Definition failed_checks (l : list json) : list json :=
  omap (λ c, match c with
             | JObj d => if truthy_json (get "passed" d) then None else Some (get "check" d)
             | _ => None
             end) l.

Definition opt_value `{StrEnum A} (o : option A) : json :=
  match o with Some x => JStr (value x) | None => JNull end.

Definition view (s : AdjudicationService) (db : AdjDb) (tenant_id id : string) : Res FindingView :=
  match get_finding db tenant_id id with
  | None => Err (Adj FindingNotFoundError)
  | Some f =>
      let acts := actions db tenant_id id in
      let digest := _content_hash f in
      let blockers := _approval_blockers s db tenant_id f in
      Ok (mkFindingView (fid f) (fnd_tenant_id (fspec f)) (fnd_engagement_id (fspec f))
        (fnd_code (fspec f)) (fnd_version (fspec f)) (fnd_title (fspec f)) (fnd_status f)
        (severity f) (confidence (fspec f)) (requires_human_approval (fspec f))
        (evidence_ids_json (fspec f)) (limitations_json (fspec f))
        (map (λ d, [("decision_id", JStr (decision_id d)); ("decision_type", JStr (decision_type d));
                    ("actor_id", JStr (apd_actor_id d)); ("reason", JStr (apd_reason d));
                    ("decided_at", JStr (isoformat (decided_at d)))]) (decisions db tenant_id id))
        (map (λ a, [("action_id", JStr (aid a)); ("status", JStr (act_status a));
                    ("owner_ref", JStr (owner_ref (aspec a)));
                    ("due_date", JStr (date_isoformat (due_date a)));
                    ("external_system", JStr (external_system (aspec a)));
                    ("external_target", opt_json (external_target (aspec a)));
                    ("external_ref", opt_json (external_ref a));
                    ("external_url", opt_json (external_url a));
                    ("external_sync_state", JStr (external_sync_state a));
                    ("completed_by", opt_json (completed_by a))]) acts)
        (flat_map (λ a, map (λ t,
            [("retest_id", JStr (retest_id t)); ("action_id", JStr (rts_action_id t));
             ("outcome", JStr (value (outcome t))); ("performed_by", JStr (performed_by t));
             ("evidence_ids", jstrs (rts_evidence_ids_json t));
             ("independence_basis", JObj (independence_basis_json t))])
            (retests_of db tenant_id (aid a))) acts)
        digest
        ((λ a, [("assessment_id", JStr (assessment_id a)); ("score", JFloat (score a));
                ("material", JBool (material a)); ("severity_floor", JStr (mat_severity_floor a));
                ("policy_id", JStr (mat_policy_id a)); ("components", JObj (components_json a));
                ("rationale", JStr (mat_rationale a)); ("assessed_by", JStr (assessed_by a));
                ("override_severity", opt_json (override_severity_ a));
                ("override_reason", opt_json (override_reason a));
                ("override_by", opt_json (override_by a))]) <$>
           latest_assessment db tenant_id (fid f) (Some digest))
        (map (λ r, [("review_id", JStr (review_id r)); ("reviewer_id", JStr (reviewer_id r));
                    ("passed", JBool (qrv_passed r)); ("content_hash", JStr (qrv_content_hash r));
                    ("applies_to_current_text", JBool (bool_decide (qrv_content_hash r = digest)));
                    ("failed_checks", JList (failed_checks (checks_json r)));
                    ("notes", opt_json (notes r));
                    ("reviewed_at", JStr (isoformat (reviewed_at r)))]) (reviews_of db tenant_id id))
        (map (λ d, [("dispute_id", JStr (did d)); ("round_no", JInt (round_no (dspec d)));
                    ("ground", JStr (value (ground (dspec d))));
                    ("statement", JStr (statement (dspec d)));
                    ("raised_by", JStr (raised_by (dspec d))); ("status", JStr (dsp_status d));
                    ("resolution", opt_value (resolution d));
                    ("resolution_reason", opt_json (resolution_reason d));
                    ("resolved_by", opt_json (resolved_by d));
                    ("escalated", JBool (escalated (dspec d)));
                    ("evidence_ids", jstrs (dsp_evidence_ids_json (dspec d)))])
           (disputes db tenant_id id))
        (negb (nonempty blockers)) blockers)
  end.

Definition list_findings (db : AdjDb) (tenant_id : string) (engagement_id : option string)
    : list dict :=
  map (λ f, [("finding_id", JStr (fid f)); ("code", JStr (fnd_code (fspec f)));
             ("version", JInt (fnd_version (fspec f))); ("title", JStr (fnd_title (fspec f)));
             ("status", JStr (value (fnd_status f))); ("severity", JStr (severity f));
             ("engagement_id", JStr (fnd_engagement_id (fspec f)))])
    (finding_rows db tenant_id engagement_id).

Definition get_remediation_action (db : AdjDb) (tenant_id id : string) : Res dict :=
  match get_action db tenant_id id with
  | None => Err (Adj RemediationNotFoundError)
  | Some a => Ok [("action_id", JStr (aid a)); ("external_system", JStr (external_system (aspec a)));
                  ("external_target", opt_json (external_target (aspec a)));
                  ("external_ref", opt_json (external_ref a))]
  end.
End service.
