(* ===== verification/Ticketing.v ===== *)
(** * Adjudication: external tickets

    adjudication/ticketing.py (the contract of a writer, its request and its
    result, the null writer) and [sync_remediation_ticket] of
    adjudication/service.py, which reads, calls the provider, and commits.  The
    provider is the environment: its call may find the database changed by other
    workers when it returns.  The Jira and ServiceNow writers are HTTP clients and
    are instances of the contract. *)

From S2P Require Import Prelude Tables PyFloat PyTime Ledger PyText Materiality Quality AdjDefs Skeptic.
From S2P Require Import AdjStore Adjudication.
Local Open Scope Z_scope.

Definition CORRELATION_PREFIX : string := "assuranceos".
Definition correlation_key (action_id : string) : string := CORRELATION_PREFIX +:+ ":" +:+ action_id.

Record TicketRequest := mkTicketRequest {
  tr_action_id : string;
  tr_finding_code : string;
  tr_title : string;
  tr_description : string;
  tr_owner_ref : string;
  tr_due_date : date;
  tr_severity : string;
  project_or_table : string;
  labels : list string
}.

Record TicketRef := mkTicketRef {
  ticket_system : string;
  ticket_external_ref : string;
  ticket_url : option string;
  ticket_created : bool;
  ticket_details : dict
}.

(** The database and the provider. *)
Record TicketSite (P : Type) := mkTicketSite { site_adj : AdjDb; site_provider : P }.
Arguments mkTicketSite {P} site_adj site_provider.
Arguments site_adj {P} t.
Arguments site_provider {P} t.
Definition set_site_adj {P} (db : AdjDb) (w : TicketSite P) : TicketSite P :=
  mkTicketSite db (site_provider w).

(** A writer: the system it files into, and its call, which returns a ticket or
    raises an exception with a text. *)
Record TicketWriter (P : Type) := mkTicketWriter {
  writer_system : string;
  create_or_get : TicketRequest → TicketSite P → (TicketRef + string) * TicketSite P
}.
Arguments mkTicketWriter {P} writer_system create_or_get.
Arguments writer_system {P} t.
Arguments create_or_get {P} t.

Definition NullTicketWriter {P} : TicketWriter P :=
  mkTicketWriter "none" (λ r w,
    (inl (mkTicketRef "none" (correlation_key (tr_action_id r)) None false
            [("tracked_in", JStr "assuranceos")]), w)).

Definition newline : string := String (chr 10) "".

Section sync.
Context `{UuidSource} {P : Type}.

Definition ticket_request (f : Finding) (a : RemediationAction) : TicketRequest :=
  mkTicketRequest (aid a) (fnd_code (fspec f))
    ("[" +:+ fnd_code (fspec f) +:+ "] " +:+ fnd_title (fspec f))
    ("Remediation for AssuranceOS finding " +:+ fnd_code (fspec f) +:+ " (severity " +:+
     severity f +:+ ")." +:+ newline +:+ newline +:+
     "Criteria: " +:+ criteria (fspec f) +:+ newline +:+ newline +:+
     "Observed condition: " +:+ observed_condition (fspec f) +:+ newline +:+ newline +:+
     "Agreed action: " +:+ action_plan a)
    (owner_ref (aspec a)) (due_date a) (severity f)
    (str_or (external_target (aspec a)) "none")
    ["assuranceos"; "finding-" +:+ lower (fnd_code (fspec f))].

Definition already (a : RemediationAction) (reason : string) : dict :=
  [("action_id", JStr (aid a)); ("external_system", JStr (external_system (aspec a)));
   ("external_ref", opt_json (external_ref a)); ("external_url", opt_json (external_url a));
   ("created", JBool false); ("reason", JStr reason)].

(** What the read session leaves: an answer, or a request to file. *)
Definition sync_read (tenant_id id : string) (writer : TicketWriter P)
    : AdjTx (dict + (Finding * RemediationAction)) :=
  db ← reading;
  a ← require_action db tenant_id id;
  f ← require_finding db tenant_id (act_finding_id (aspec a));
  if truthy (external_ref a) then mret (inl (already a "already filed"))
  else
    require (bool_decide (writer_system writer = external_system (aspec a))) (Adj TicketingError) ;;
    require (bool_decide (external_system (aspec a) = "none") || truthy (external_target (aspec a)))
      (Adj TicketingError) ;;
    mret (inr (f, a)).

Definition sync_failed (error : string) (a : RemediationAction) : RemediationAction :=
  mkRemediationAction (aspec a) (act_status a) (due_date a) (action_plan a)
    (declared_complete_at a) (completed_by a) (external_ref a) (external_url a) "failed"
    (external_synced_at a) (Some (slice 4000 error)).

(** The transaction that records a refusal of the provider. *)
Definition record_failure (tenant_id id : string) (f : Finding) (a : RemediationAction)
    (error : string) : AdjTx unit :=
  db ← reading;
  (match get_action db tenant_id id with
   | Some failed => save_action (aid failed) (sync_failed error)
   | None => mret tt
   end) ;;
  emit tenant_id (Some (fnd_engagement_id (fspec f))) id "remediation.ticket_failed"
    [("action_id", JStr id); ("finding_id", JStr (fid f));
     ("external_system", JStr (external_system (aspec a))); ("error", JStr (slice 1000 error))]
    ("ticket-failed:" +:+ id) "remediation_action" false.

Definition synced (t : TicketRef) (now : datetime) (a : RemediationAction) : RemediationAction :=
  mkRemediationAction (aspec a) (act_status a) (due_date a) (action_plan a)
    (declared_complete_at a) (completed_by a) (Some (ticket_external_ref t)) (ticket_url t) "synced"
    (Some now) None.

(** The transaction that records a ticket. *)
Definition record_ticket (tenant_id id : string) (f : Finding) (t : TicketRef) : AdjTx dict :=
  db ← reading;
  a ← require_action db tenant_id id;
  if truthy (external_ref a) then mret (already a "filed concurrently")
  else
    now ← utc_now;
    save_action (aid a) (synced t now) ;;
    emit tenant_id (Some (fnd_engagement_id (fspec f))) id
      (if ticket_created t then "remediation.ticket_filed" else "remediation.ticket_reconciled")
      [("action_id", JStr id); ("finding_id", JStr (fid f));
       ("external_system", JStr (ticket_system t)); ("external_ref", JStr (ticket_external_ref t));
       ("external_url", opt_json (ticket_url t)); ("correlation_key", JStr (correlation_key id));
       ("created", JBool (ticket_created t))]
      (if ticket_created t then "ticket-filed:" +:+ id
       else "ticket-reconciled:" +:+ id +:+ ":" +:+ ticket_external_ref t)
      "remediation_action" true ;;
    mret [("action_id", JStr id); ("external_system", JStr (ticket_system t));
          ("external_ref", JStr (ticket_external_ref t)); ("external_url", opt_json (ticket_url t));
          ("created", JBool (ticket_created t)); ("correlation_key", JStr (correlation_key id))].

Definition sync_remediation_ticket (tenant_id id : string) (writer : option (TicketWriter P))
    : Prog (TicketSite P) dict :=
  let writer := default NullTicketWriter writer in
  todo ← commit site_adj set_site_adj (sync_read tenant_id id writer);
  match todo with
  | inl answer => mret answer
  | inr (f, a) =>
      ticket ← external (create_or_get writer (ticket_request f a));
      match ticket with
      | inl t => commit site_adj set_site_adj (record_ticket tenant_id id f t)
      | inr error =>
          commit site_adj set_site_adj (record_failure tenant_id id f a error) ;;
          prog_raise (Adj TicketingError)
      end
  end.
End sync.
