(* ===== verification/AdjMachine.v ===== *)
(** * Adjudication: the life-cycle as a machine

    The abstract machine of the adjudication tables: one constructor of
    [lifecycle] per kind of move, with the guard that allows it, the rows it writes
    and the record it leaves in the ledger.  AdjRefinement.v shows that every
    operation of the service that commits is one move, or changes nothing. *)

From S2P Require Import Prelude Tables PyFloat PyTime Ledger PyText Materiality Quality AdjDefs Skeptic.
From S2P Require Import AdjStore Adjudication Ticketing.
Local Open Scope Z_scope.

(** ** The ledger during an operation *)

(** Identifiers were drawn and nothing was recorded. *)
Record drew (l l' : Ledger) : Prop := {
  drew_audit : audit_events l' = audit_events l;
  drew_outbox : outbox_events l' = outbox_events l;
  drew_uuids : (uuids_drawn l ≤ uuids_drawn l')%N;
  drew_clock : wall_clock l' = wall_clock l
}.

(** One event was appended to its stream and, unless it stays internal, handed to
    the outbox with the same type and payload. *)
Record recorded (l l' : Ledger) (e : AuditEvent) (published : bool) : Prop := {
  recorded_audit : audit_events l' = audit_events l ++
    [mkAuditEventRow e (stream_of e) (next_sequence l (ev_tenant_id e) (stream_of e))];
  recorded_outbox : if published
    then ∃ o, outbox_events l' = outbox_events l ++ [o] ∧ ob_tenant_id o = ev_tenant_id e ∧
              ob_event_type o = ev_event_type e ∧ ob_payload o = ev_payload e
    else outbox_events l' = outbox_events l;
  recorded_uuids : (uuids_drawn l ≤ uuids_drawn l')%N;
  recorded_clock : wall_clock l' = wall_clock l;
  recorded_at : ev_occurred_at e = wall_clock l
}.

#[export] Instance drew_refl : Reflexive drew.
Proof. intros l. by split. Qed.
#[export] Instance drew_trans : Transitive drew.
Proof. intros l1 l2 l3 [????] [????]. split; [congruence..|lia|congruence]. Qed.

Lemma drew_recorded l l1 l2 e b : drew l l1 → recorded l1 l2 e b → recorded l l2 e b.
Proof.
  intros [Ha Ho Hu Hc] [Ra Ro Ru Rc Rt]. split; [|by rewrite <- Ho|lia|congruence|congruence].
  rewrite Ra, Ha. unfold next_sequence. by rewrite Ha.
Qed.

Section machine.
Context `{UuidSource} `{Sha256}.

(** ** Moves *)

(** The condition [_require_approval_preconditions] enforces. *)
Record gates_open (s : AdjudicationService) (db : AdjDb) (t : string) (f : Finding)
    (approver : string) : Prop := {
  gate_dispute : open_dispute db t (fid f) = None;
  gate_materiality : is_Some (latest_assessment db t (fid f) (Some (_content_hash f)));
  gate_quality : require_quality_review s = true →
    ∃ r, passing_review db t (fid f) (_content_hash f) = Some r ∧
         identity (reviewer_id r) ≠ identity approver
}.

(** The retester is none of the parties to the work. *)
Record independent (f : Finding) (a : RemediationAction) (performed_by : string) : Prop := {
  not_author : ∀ x, authored_by (fspec f) = Some x → identity x ≠ "" → identity x ≠ identity performed_by;
  not_owner : identity (owner_ref (aspec a)) ≠ "" →
    identity (owner_ref (aspec a)) ≠ identity performed_by;
  not_declarer : ∀ x, completed_by a = Some x → identity x ≠ "" → identity x ≠ identity performed_by
}.

(** A decision of a person on a finding. *)
Record decided (s : AdjudicationService) (t : string) (f : Finding) (kind actor : string)
    (d : ApprovalDecision) : Prop := {
  decided_type : decision_type d = kind;
  decided_tenant : apd_tenant_id d = t;
  decided_finding : apd_finding_id d = fid f;
  decided_actor : apd_actor_id d = actor;
  decided_person : is_agent s actor = false
}.

(** The move an adjudication makes. *)
Definition decision_edge (d : HumanDecision) (current : FindingStatus) : Prop :=
  if decide (d = HumanDecision.RETURN_FOR_REWORK) then current = FindingStatus.PROPOSED
  else _DECISION_TARGET d ∈ ALLOWED_TRANSITIONS current.

Inductive lifecycle (s : AdjudicationService) (db : AdjDb) : AdjDb → Prop :=
  | lc_propose f ds e l' :
      Forall (λ f', fid f' ≠ fid f ∧ ¬ (fnd_engagement_id (fspec f') = fnd_engagement_id (fspec f) ∧
        fnd_code (fspec f') = fnd_code (fspec f) ∧ fnd_version (fspec f') = fnd_version (fspec f)))
        (findings db) →
      fnd_status f ∈ [FindingStatus.PROPOSED; FindingStatus.REJECTED] →
      Forall (λ d, decision_type d = "skeptic_reject") ds →
      ev_tenant_id e = fnd_tenant_id (fspec f) →
      recorded (adj_ledger db) l' e true →
      lifecycle s db (set_adj_ledger l' (set_approval_decisions (approval_decisions db ++ ds)
        (set_findings (findings db ++ [f]) db)))
  | lc_decide t f k d e l' :
      get_finding db t (fid f) = Some f →
      decision_edge k (fnd_status f) →
      (k = HumanDecision.APPROVE → gates_open s db t f (apd_actor_id d)) →
      decided s t f ("human:" +:+ value k) (apd_actor_id d) d →
      recorded (adj_ledger db) l' e true →
      lifecycle s db (set_adj_ledger l' (set_approval_decisions (approval_decisions db ++ [d])
        (set_findings (update_row fid (fid f) (set_fnd_status (_DECISION_TARGET k)) (findings db)) db)))
  | lc_assess t f v a e l' :
      get_finding db t (fid f) = Some f →
      severity_rank (severity f) ≤ severity_rank v →
      mat_finding_id a = fid f → mat_tenant_id a = t →
      mat_content_hash a = _content_hash (set_severity v f) →
      severity_rank (mat_severity_floor a) ≤ severity_rank v →
      recorded (adj_ledger db) l' e true →
      lifecycle s db (set_adj_ledger l'
        (set_materiality_assessments (materiality_assessments db ++ [a])
        (set_findings (if decide (v = severity f) then findings db
           else update_row fid (fid f) (set_severity v) (findings db)) db)))
  | lc_override t f a v reason actor d e l' :
      get_finding db t (fid f) = Some f →
      latest_assessment db t (fid f) (Some (_content_hash f)) = Some a →
      severity_rank v < severity_rank (mat_severity_floor a) →
      decided s t f "human:severity_override" actor d →
      recorded (adj_ledger db) l' e true →
      lifecycle s db (set_adj_ledger l' (set_approval_decisions (approval_decisions db ++ [d])
        (set_materiality_assessments (update_row assessment_id (assessment_id a)
           (set_override v reason actor (_content_hash (set_severity v f)))
           (materiality_assessments db))
        (set_findings (update_row fid (fid f) (set_severity v) (findings db)) db))))
  | lc_review t f r o e l' :
      get_finding db t (fid f) = Some f →
      evaluate_finding db t (reviewer_id r) f = Ok o →
      qrv_tenant_id r = t → qrv_finding_id r = fid f → qrv_content_hash r = _content_hash f →
      qrv_passed r = outcome_passed o →
      recorded (adj_ledger db) l' e true →
      lifecycle s db (set_adj_ledger l' (set_quality_reviews (quality_reviews db ++ [r]) db))
  | lc_dispute t f d e l' :
      get_finding db t (fid f) = Some f →
      open_dispute db t (fid f) = None →
      FindingStatus.DISPUTED ∈ ALLOWED_TRANSITIONS (fnd_status f) →
      dsp_tenant_id (dspec d) = t → dsp_finding_id (dspec d) = fid f → dsp_status d = "open" →
      prior_status (dspec d) = fnd_status f →
      round_no (dspec d) = zlen (disputes db t (fid f)) + 1 →
      Forall (λ d', did d' ≠ did d) (finding_disputes db) →
      recorded (adj_ledger db) l' e true →
      lifecycle s db (set_adj_ledger l'
        (set_findings (update_row fid (fid f) (set_fnd_status FindingStatus.DISPUTED) (findings db))
        (set_finding_disputes (finding_disputes db ++ [d]) db)))
  | lc_resolve t f x r now d e l' :
      get_dispute db t (did x) = Some x →
      dsp_status x = "open" →
      get_finding db t (dsp_finding_id (dspec x)) = Some f →
      resolution_target x (rr_resolution r) ∈ ALLOWED_TRANSITIONS FindingStatus.DISPUTED →
      identity (rr_resolved_by r) ≠ identity (raised_by (dspec x)) →
      (∀ y, authored_by (fspec f) = Some y → y ≠ "" → identity (rr_resolved_by r) ≠ identity y) →
      decided s t f ("dispute:" +:+ value (rr_resolution r)) (rr_resolved_by r) d →
      recorded (adj_ledger db) l' e true →
      lifecycle s db (set_adj_ledger l' (set_approval_decisions (approval_decisions db ++ [d])
        (set_findings (update_row fid (fid f)
           (set_fnd_status (resolution_target x (rr_resolution r))) (findings db))
        (set_finding_disputes (update_row did (did x) (resolved r now) (finding_disputes db)) db))))
  | lc_open t f a e l' :
      get_finding db t (fid f) = Some f →
      open_action_for db t (fid f) = None →
      FindingStatus.REMEDIATION_OPEN ∈ ALLOWED_TRANSITIONS (fnd_status f) →
      act_tenant_id (aspec a) = t → act_finding_id (aspec a) = fid f →
      Forall (λ a', aid a' ≠ aid a) (remediation_actions db) →
      external_ref a = None →
      recorded (adj_ledger db) l' e true →
      lifecycle s db (set_adj_ledger l'
        (set_findings (update_row fid (fid f) (set_fnd_status FindingStatus.REMEDIATION_OPEN) (findings db))
        (set_remediation_actions (remediation_actions db ++ [a]) db)))
  | lc_closure t f a m now e l' :
      get_action db t (aid a) = Some a →
      get_finding db t (act_finding_id (aspec a)) = Some f →
      FindingStatus.REMEDIATION_DECLARED_COMPLETE ∈ ALLOWED_TRANSITIONS (fnd_status f) →
      (closure_evidence_required (aspec a) = true → rsp_closure_evidence_ids_json m ≠ []) →
      rsp_finding_id m = fid f → rsp_tenant_id m = t →
      rsp_version m = zlen (responses db t (fid f)) + 1 →
      recorded (adj_ledger db) l' e true →
      lifecycle s db (set_adj_ledger l'
        (set_findings (update_row fid (fid f)
           (set_fnd_status FindingStatus.REMEDIATION_DECLARED_COMPLETE) (findings db))
        (set_remediation_actions (update_row aid (aid a) (declared (rsp_submitted_by m) now)
           (remediation_actions db))
        (set_management_responses (management_responses db ++ [m]) db))))
  | lc_retest t f a r e l' :
      get_action db t (aid a) = Some a →
      get_finding db t (act_finding_id (aspec a)) = Some f →
      independent f a (performed_by r) →
      FindingStatus.RETEST_IN_PROGRESS ∈ ALLOWED_TRANSITIONS (fnd_status f) →
      rts_tenant_id r = t → rts_action_id r = aid a →
      (closes (outcome r) = true → rts_evidence_ids_json r ≠ []) →
      Forall (λ p, rts_tenant_id p = t → rts_action_id p = aid a →
                   rts_idempotency_key p ≠ rts_idempotency_key r) (retests db) →
      recorded (adj_ledger db) l' e true →
      lifecycle s db (set_adj_ledger l'
        (set_findings (update_row fid (fid f) (set_fnd_status
           (if closes (outcome r) then FindingStatus.CLOSED_VERIFIED else FindingStatus.REOPENED))
           (findings db))
        (set_remediation_actions (update_row aid (aid a)
           (set_act_status (if closes (outcome r) then "closed" else "reopened"))
           (remediation_actions db))
        (set_retests (retests db ++ [r]) db))))
  | lc_reopen t f a r e l' :
      get_finding db t (fid f) = Some f →
      open_action_for db t (fid f) = Some a →
      FindingStatus.REMEDIATION_OPEN ∈ ALLOWED_TRANSITIONS (fnd_status f) →
      recorded (adj_ledger db) l' e true →
      lifecycle s db (set_adj_ledger l'
        (set_findings (update_row fid (fid f) (set_fnd_status FindingStatus.REMEDIATION_OPEN) (findings db))
        (set_remediation_actions (update_row aid (aid a) (replanned r) (remediation_actions db)) db)))
  | lc_ticket t a ref now e l' :
      get_action db t (aid a) = Some a →
      truthy (external_ref a) = false →
      recorded (adj_ledger db) l' e true →
      lifecycle s db (set_adj_ledger l'
        (set_remediation_actions (update_row aid (aid a) (synced ref now) (remediation_actions db)) db))
  | lc_ticket_failed id error e l' :
      recorded (adj_ledger db) l' e false →
      lifecycle s db (set_adj_ledger l'
        (set_remediation_actions (update_row aid id (sync_failed error) (remediation_actions db)) db))
  | lc_note e l' :
      recorded (adj_ledger db) l' e false →
      lifecycle s db (set_adj_ledger l' db).
End machine.
