(* ===== verification/AdjRefinement.v ===== *)
(** * Adjudication: every operation is one move

    What each building block of the operations does when it commits, and from it
    that each operation of the service that commits is one move of the life-cycle
    machine or leaves the tables as they were; then the states a history of
    operations reaches. *)

From S2P Require Import Prelude Tables PyFloat PyTime Ledger PyText Materiality Quality AdjDefs Skeptic.
From S2P Require Import AdjStore Adjudication Ticketing AdjMachine.
Local Open Scope Z_scope.

(** ** Building blocks *)

Section blocks.
Context `{UuidSource}.

Lemma absent_spec {A} (P : A → Prop) `{!∀ x, Decision (P x)} (c : A → bool) (l : list A) :
  (∀ x, c x = true ↔ P x) → absent c l = true → Forall (λ x, ¬ P x) l.
Proof.
  intros Hc Ha. apply Forall_forall. intros x Hx HP%Hc. unfold absent in Ha.
  apply negb_true_iff, not_true_iff_false in Ha. apply Ha, existsb_elem. eauto.
Qed.

Lemma fresh_Ok p db id db' :
  fresh p db = Ok (id, db') →
  ∃ l, db' = set_adj_ledger l db ∧ drew (adj_ledger db) l.
Proof.
  unfold fresh, on_ledger. intros (l & [_ ->]%new_id_Ok & ->)%zoom_Ok.
  eexists. split; [done|]. split; cbn; [done..|lia|done].
Qed.

Lemma emit_Ok t g ai ty pl key aty b db u db' :
  emit t g ai ty pl key aty b db = Ok (u, db') →
  ∃ l' e, db' = set_adj_ledger l' db ∧ recorded (adj_ledger db) l' e b ∧ ev_tenant_id e = t ∧
    ev_event_type e = ty ∧ ev_payload e = pl.
Proof.
  unfold emit, on_ledger, utc_now. intros E.
  apply tx_bind_Ok in E as (ev & db1 & (l1 & [_ ->]%new_event_id_Ok & ->)%zoom_Ok & E).
  apply tx_bind_Ok in E as (now & db2 & [-> ->]%gets_Ok & E).
  apply tx_bind_Ok in E as ([] & db3 & (l2 & (Ha & Ho & Hu & Hc)%append_Ok & ->)%zoom_Ok & E).
  cbn in *. destruct b.
  - apply zoom_Ok in E as (l3 & (_ & Ha3 & (o & Ho3 & [Hot Hok] & Hty & Hpl) & Hu3 & Hc3)%outbox_add_Ok & ->).
    cbn in *. exists l3, (mkAuditEvent ev ty t g None (wall_clock (adj_ledger db)) pl). split; [done|]. split; [|done]. split; cbn; [| |lia|congruence|done].
    + by rewrite Ha3, Ha.
    + exists o. rewrite Ho3, Ho. done.
  - apply tx_ret_Ok in E as [_ ->]. exists l2, (mkAuditEvent ev ty t g None (wall_clock (adj_ledger db)) pl). split; [done|]. split; [|done].
    split; cbn; [|done|lia|congruence|done]. by rewrite Ha.
Qed.

Lemma decide_on_Ok t f k a r db u db' :
  decide_on t f k a r db = Ok (u, db') →
  ∃ l d, db' = set_approval_decisions (approval_decisions db ++ [d]) (set_adj_ledger l db) ∧
    drew (adj_ledger db) l ∧ decision_type d = k ∧ apd_tenant_id d = t ∧
    apd_finding_id d = fid f ∧ apd_actor_id d = a ∧ apd_reason d = r.
Proof.
  unfold decide_on, utc_now, add_decision. intros E.
  apply tx_bind_Ok in E as (id & db1 & (l & -> & Hl)%fresh_Ok & E).
  apply tx_bind_Ok in E as (now & db2 & [-> ->]%gets_Ok & E).
  apply tx_bind_Ok in E as (db3 & db4 & [-> ->]%gets_Ok & E).
  apply tx_bind_Ok in E as ([] & db5 & [_ ->]%require_Ok & ->%modify_Ok).
  exists l. eexists. by split_and!.
Qed.

Lemma add_finding_Ok f db u db' :
  add_finding f db = Ok (u, db') →
  db' = set_findings (findings db ++ [f]) db ∧
  Forall (λ f', fid f' ≠ fid f ∧ ¬ (fnd_engagement_id (fspec f') = fnd_engagement_id (fspec f) ∧
    fnd_code (fspec f') = fnd_code (fspec f) ∧ fnd_version (fspec f') = fnd_version (fspec f)))
    (findings db).
Proof.
  unfold add_finding. intros E.
  apply tx_bind_Ok in E as (db3 & db4 & [-> ->]%gets_Ok & E).
  apply tx_bind_Ok in E as ([] & db5 & [[_ Ha]%andb_true_iff ->]%require_Ok & ->%modify_Ok).
  split; [done|].
  apply (absent_spec (λ f', fid f' = fid f ∨ fnd_engagement_id (fspec f') = fnd_engagement_id (fspec f) ∧
    fnd_code (fspec f') = fnd_code (fspec f) ∧ fnd_version (fspec f') = fnd_version (fspec f))) in Ha.
  - eapply Forall_impl; [exact Ha|]. cbn beta. intros f' Hf'. tauto.
  - intros f'. cbn beta. by rewrite orb_true_iff, !bool_decide_eq_true.
Qed.

Lemma add_assessment_Ok a db u db' :
  add_assessment a db = Ok (u, db') →
  db' = set_materiality_assessments (materiality_assessments db ++ [a]) db.
Proof.
  unfold add_assessment. intros E.
  apply tx_bind_Ok in E as (db3 & db4 & [-> ->]%gets_Ok & E).
  by apply tx_bind_Ok in E as ([] & db5 & [_ ->]%require_Ok & ->%modify_Ok).
Qed.

Lemma add_quality_review_Ok r db u db' :
  add_quality_review r db = Ok (u, db') → db' = set_quality_reviews (quality_reviews db ++ [r]) db.
Proof.
  unfold add_quality_review. intros E.
  apply tx_bind_Ok in E as (db3 & db4 & [-> ->]%gets_Ok & E).
  by apply tx_bind_Ok in E as ([] & db5 & [_ ->]%require_Ok & ->%modify_Ok).
Qed.

Lemma add_response_Ok r db u db' :
  add_response r db = Ok (u, db') →
  db' = set_management_responses (management_responses db ++ [r]) db.
Proof.
  unfold add_response. intros E.
  apply tx_bind_Ok in E as (db3 & db4 & [-> ->]%gets_Ok & E).
  by apply tx_bind_Ok in E as ([] & db5 & [_ ->]%require_Ok & ->%modify_Ok).
Qed.

Lemma add_retest_Ok r db u db' :
  add_retest r db = Ok (u, db') → db' = set_retests (retests db ++ [r]) db.
Proof.
  unfold add_retest. intros E.
  apply tx_bind_Ok in E as (db3 & db4 & [-> ->]%gets_Ok & E).
  by apply tx_bind_Ok in E as ([] & db5 & [_ ->]%require_Ok & ->%modify_Ok).
Qed.

Lemma add_dispute_Ok d db u db' :
  add_dispute d db = Ok (u, db') →
  db' = set_finding_disputes (finding_disputes db ++ [d]) db ∧
  Forall (λ d', did d' ≠ did d) (finding_disputes db).
Proof.
  unfold add_dispute. intros E.
  apply tx_bind_Ok in E as (db3 & db4 & [-> ->]%gets_Ok & E).
  apply tx_bind_Ok in E as ([] & db5 & [Ha ->]%require_Ok & ->%modify_Ok).
  split; [done|].
  apply (absent_spec (λ d', did d' = did d ∨ dsp_finding_id (dspec d') = dsp_finding_id (dspec d) ∧
    round_no (dspec d') = round_no (dspec d))) in Ha.
  - eapply Forall_impl; [exact Ha|]. cbn beta. intros f' Hf'. tauto.
  - intros f'. cbn beta. by rewrite orb_true_iff, !bool_decide_eq_true.
Qed.

Lemma add_action_Ok a db u db' :
  add_action a db = Ok (u, db') →
  db' = set_remediation_actions (remediation_actions db ++ [a]) db ∧
  Forall (λ a', aid a' ≠ aid a) (remediation_actions db).
Proof.
  unfold add_action. intros E.
  apply tx_bind_Ok in E as (db3 & db4 & [-> ->]%gets_Ok & E).
  apply tx_bind_Ok in E as ([] & db5 & [Ha ->]%require_Ok & ->%modify_Ok).
  split; [done|]. apply (absent_spec (λ a', aid a' = aid a)) in Ha; [exact Ha|].
  intros f'. cbn beta. by rewrite bool_decide_eq_true.
Qed.

Lemma save_finding_Ok id f db u db' :
  save_finding id f db = Ok (u, db') → db' = set_findings (update_row fid id f (findings db)) db.
Proof. by intros ->%modify_Ok. Qed.
Lemma save_action_Ok id f db u db' :
  save_action id f db = Ok (u, db') →
  db' = set_remediation_actions (update_row aid id f (remediation_actions db)) db.
Proof. by intros ->%modify_Ok. Qed.
Lemma save_assessment_Ok id f db u db' :
  save_assessment id f db = Ok (u, db') →
  db' = set_materiality_assessments (update_row assessment_id id f (materiality_assessments db)) db.
Proof. by intros ->%modify_Ok. Qed.
Lemma save_dispute_Ok id f db u db' :
  save_dispute id f db = Ok (u, db') →
  db' = set_finding_disputes (update_row did id f (finding_disputes db)) db.
Proof. by intros ->%modify_Ok. Qed.

Lemma require_finding_Ok d t id db f db' :
  require_finding d t id db = Ok (f, db') → get_finding d t id = Some f ∧ db' = db.
Proof. apply some_or_raise_Ok. Qed.
Lemma require_action_Ok d t id db a db' :
  require_action d t id db = Ok (a, db') → get_action d t id = Some a ∧ db' = db.
Proof. apply some_or_raise_Ok. Qed.
Lemma require_transition_Ok c x db u db' :
  require_transition c x db = Ok (u, db') → x ∈ ALLOWED_TRANSITIONS c ∧ db' = db.
Proof. by intros [?%bool_decide_eq_true ->]%require_Ok. Qed.
Lemma reading_Ok db d db' : reading db = Ok (d, db') → d = db ∧ db' = db.
Proof. by intros [-> ->]%gets_Ok. Qed.
Lemma utc_now_Ok db t db' : utc_now db = Ok (t, db') → t = wall_clock (adj_ledger db) ∧ db' = db.
Proof. by intros [-> ->]%gets_Ok. Qed.

Lemma get_finding_Some db t id f :
  get_finding db t id = Some f → f ∈ findings db ∧ fnd_tenant_id (fspec f) = t ∧ fid f = id.
Proof. by intros (? & ? & ?)%scalar_filter_Some. Qed.
Lemma get_action_Some db t id a :
  get_action db t id = Some a → a ∈ remediation_actions db ∧ act_tenant_id (aspec a) = t ∧ aid a = id.
Proof. by intros (? & ? & ?)%scalar_filter_Some. Qed.
Lemma get_dispute_Some db t id d :
  get_dispute db t id = Some d → d ∈ finding_disputes db ∧ dsp_tenant_id (dspec d) = t ∧ did d = id.
Proof. by intros (? & ? & ?)%scalar_filter_Some. Qed.
End blocks.

(** ** Inverting an operation *)

(** Reads through the assignments made so far. *)
Ltac adj_cbn :=
  cbn [tenant_ids engagement_ids findings approval_decisions management_responses
       remediation_actions materiality_assessments quality_reviews finding_disputes retests
       adj_ledger set_findings set_approval_decisions set_management_responses
       set_remediation_actions set_materiality_assessments set_quality_reviews
       set_finding_disputes set_retests set_adj_ledger] in *.

(** What one statement of an operation did. *)
Ltac adj_inv H :=
  lazymatch type of H with
  | reading _ = _ => apply reading_Ok in H as [-> ->]
  | utc_now _ = _ => apply utc_now_Ok in H as [-> ->]
  | require_finding _ _ _ _ = _ => apply require_finding_Ok in H as [H ->]
  | require_action _ _ _ _ = _ => apply require_action_Ok in H as [H ->]
  | require_transition _ _ _ = _ => apply require_transition_Ok in H as [H ->]
  | require _ _ _ = _ => apply require_Ok in H as [H ->]
  | some_or_raise _ _ _ = _ => apply some_or_raise_Ok in H as [H ->]
  | from_res _ _ = _ => apply from_res_Ok in H as [H ->]
  | mret _ _ = _ =>
      let Hx := fresh in apply tx_ret_Ok in H as [Hx ->];
      lazymatch type of Hx with ?v = _ => first [is_var v; subst v | clear Hx] end
  | fresh _ _ = _ => let l := fresh "l" in apply fresh_Ok in H as (l & -> & H)
  | decide_on _ _ _ _ _ _ = _ =>
      let l := fresh "l" in let d := fresh "d" in
      apply decide_on_Ok in H as (l & d & -> & H & ? & ? & ? & ? & ?)
  | emit _ _ _ _ _ _ _ _ _ = _ =>
      let l := fresh "l" in let e := fresh "ev" in
      apply emit_Ok in H as (l & e & -> & H & ? & ? & ?)
  | add_finding _ _ = _ => apply add_finding_Ok in H as [-> H]
  | add_assessment _ _ = _ => apply add_assessment_Ok in H as ->
  | add_quality_review _ _ = _ => apply add_quality_review_Ok in H as ->
  | add_response _ _ = _ => apply add_response_Ok in H as ->
  | add_retest _ _ = _ => apply add_retest_Ok in H as ->
  | add_dispute _ _ = _ => apply add_dispute_Ok in H as [-> H]
  | add_action _ _ = _ => apply add_action_Ok in H as [-> H]
  | save_finding _ _ _ = _ => apply save_finding_Ok in H as ->
  | save_action _ _ _ = _ => apply save_action_Ok in H as ->
  | save_assessment _ _ _ = _ => apply save_assessment_Ok in H as ->
  | save_dispute _ _ _ = _ => apply save_dispute_Ok in H as ->
  end.
Ltac adj_step E :=
  lazymatch type of E with
  | mbind _ _ _ = Ok _ =>
      let x := fresh "x" in let d := fresh "db" in let H := fresh "H" in
      apply tx_bind_Ok in E as (x & d & H & E); try (adj_inv H; adj_cbn)
  | _ => adj_inv E; adj_cbn
  end.
Ltac adj_steps E := repeat (adj_step E).

Ltac adj_recorded :=
  lazymatch goal with
  | |- recorded _ _ _ _ =>
      repeat first [ eassumption | eapply drew_recorded; [eassumption|] ]
  end.

Section refinement.
Context `{UuidSource} `{Sha256}.
Implicit Types (s : AdjudicationService) (db : AdjDb).

(** The move, or nothing. *)
Definition moves s db db' : Prop := db' = db ∨ lifecycle s db db'.

Lemma propose_moves s t g f a sk rows db r db' :
  propose t g f a sk rows db = Ok (r, db') → lifecycle s db db'.
Proof.
  unfold propose. intros E. do 5 adj_step E.
  apply tx_bind_Ok in E as ([] & db2 & E1 & E). set (p := proposed_row _ _ _ _ _ _ _ _) in *.
  assert (Hp : fnd_status p ∈ [FindingStatus.PROPOSED; FindingStatus.REJECTED])
    by (cbn; destruct (supported x); [left|right; left]).
  destruct (supported x); adj_inv E1; adj_steps E; adj_cbn.
  - pose proof (lc_propose s db p [] ev l0) as Hm. rewrite app_nil_r in Hm.
    apply Hm; try done. adj_recorded.
  - apply (lc_propose s db p [d] ev l1); try done; [by constructor|adj_recorded].
Qed.

Lemma not_agent s actor : negb (is_agent s actor) = true → is_agent s actor = false.
Proof. apply negb_true_iff. Qed.

(** [fid f] of the row an operation read is the key it asked for. *)
Lemma get_finding_again db t id f : get_finding db t id = Some f → get_finding db t (fid f) = Some f.
Proof. intros E. destruct (get_finding_Some _ _ _ _ E) as (_ & _ & ->). done. Qed.
Lemma get_action_again db t id a : get_action db t id = Some a → get_action db t (aid a) = Some a.
Proof. intros E. destruct (get_action_Some _ _ _ _ E) as (_ & _ & ->). done. Qed.
Lemma get_dispute_again db t id d : get_dispute db t id = Some d → get_dispute db t (did d) = Some d.
Proof. intros E. destruct (get_dispute_Some _ _ _ _ E) as (_ & _ & ->). done. Qed.

Lemma blockers_nil s db t f :
  _approval_blockers s db t f = [] →
  open_dispute db t (fid f) = None ∧ is_Some (latest_assessment db t (fid f) (Some (_content_hash f))) ∧
  (require_quality_review s = true → is_Some (passing_review db t (fid f) (_content_hash f))).
Proof.
  unfold _approval_blockers. intros E. repeat case_match; try discriminate E; split_and!; eauto; discriminate.
Qed.

Lemma require_approval_preconditions_Ok s d t f actor db u db' :
  require_approval_preconditions s d t f actor db = Ok (u, db') →
  db' = db ∧ gates_open s d t f actor.
Proof.
  unfold require_approval_preconditions. intros E.
  apply tx_bind_Ok in E as ([] & db1 & [Hb%bool_decide_eq_true ->]%require_Ok & E).
  apply blockers_nil in Hb as (Ho & Hm & Hq).
  destruct (require_quality_review s) eqn:Er.
  - destruct (Hq eq_refl) as [r Hr]. rewrite Hr in E. apply require_Ok in E as [Hne ->].
    apply negb_true_iff, bool_decide_eq_false in Hne. split; [done|]. split; eauto.
  - apply tx_ret_Ok in E as [_ ->]. split; [done|]. split; [done..|]. by rewrite Er.
Qed.

Lemma adjudicate_moves s t r db st db' :
  adjudicate s t r db = Ok (st, db') → moves s db db'.
Proof.
  unfold adjudicate. intros E. adj_step E. adj_step E. adj_step E.
  apply not_agent in H1. pose proof (get_finding_again _ _ _ _ H2) as Hf.
  destruct (existsb _ _); [adj_inv E; by left|right].
  apply tx_bind_Ok in E as ([] & db1 & E1 & E).
  assert (Hedge : db1 = db ∧ decision_edge (ar_decision r) (fnd_status x0)).
  { unfold decision_edge.
    destruct (bool_decide_reflect (ar_decision r = HumanDecision.RETURN_FOR_REWORK)) as [Hd|Hd].
    - rewrite decide_True by done. apply require_Ok in E1 as [?%bool_decide_eq_true ->]. done.
    - rewrite decide_False by done. apply require_transition_Ok in E1 as [? ->]. done. }
  destruct Hedge as [-> Hedge]. clear E1.
  apply tx_bind_Ok in E as ([] & db1 & E1 & E).
  assert (Hgates : db1 = db ∧ (ar_decision r = HumanDecision.APPROVE →
                               gates_open s db t x0 (ar_actor_id r))).
  { destruct (bool_decide_reflect (ar_decision r = HumanDecision.APPROVE)) as [Hd|Hd]; [|by apply tx_ret_Ok in E1 as [_ ->]].
    apply require_approval_preconditions_Ok in E1 as [-> ?]. done. }
  destruct Hgates as [-> Hgates]. clear E1. adj_steps E.
  apply (lc_decide s db t x0 (ar_decision r) d ev l0); try done; [| |adj_recorded].
  - match goal with Ha : apd_actor_id d = _ |- _ => by rewrite Ha end.
  - split; congruence.
Qed.
Lemma assess_moves s t r db a db' :
  assess_materiality t r db = Ok (a, db') → moves s db db'.
Proof.
  unfold assess_materiality. intros E. right. do 3 adj_step E.
  pose proof (get_finding_again _ _ _ _ H2) as Hf.
  apply tx_bind_Ok in E as ([] & db1 & E1 & E). set (fl := res_severity_floor x) in *.
  destruct (Z.ltb_spec (severity_rank (severity x0)) (severity_rank fl)) as [Hlt|Hge];
    adj_inv E1; adj_steps E; adj_cbn.
  - pose proof (lc_assess s db t x0 fl) as Hm. rewrite decide_False in Hm by (intros Heq; rewrite Heq in Hlt; lia).
    eapply (Hm _ ev l0); try done; [lia|adj_recorded].
  - pose proof (lc_assess s db t x0 (severity x0)) as Hm. rewrite decide_True in Hm by done.
    eapply (Hm _ ev l0); try done. adj_recorded.
Qed.

Lemma override_moves s t r db a db' :
  override_severity s t r db = Ok (a, db') → moves s db db'.
Proof.
  unfold override_severity. intros E. right. adj_steps E; adj_cbn.
  apply not_agent in H1. apply negb_true_iff, Z.leb_gt in H4.
  eapply (lc_override s db t); try done; [by eapply get_finding_again|adj_recorded].
Qed.

Lemma review_moves s t r db o db' :
  review_quality t r db = Ok (o, db') → moves s db db'.
Proof.
  unfold review_quality. intros E. right. adj_steps E; adj_cbn.
  eapply (lc_review s db t); try done; [by eapply get_finding_again|adj_recorded].
Qed.

Lemma dispute_moves s t r db i db' :
  raise_dispute s t r db = Ok (i, db') → moves s db db'.
Proof.
  unfold raise_dispute. intros E. right. adj_steps E; adj_cbn. apply bool_decide_eq_true in H2.
  eapply (lc_dispute s db t); try done; [by eapply get_finding_again|adj_recorded].
Qed.

Lemma resolve_moves s t r db st db' :
  resolve_dispute s t r db = Ok (st, db') → moves s db db'.
Proof.
  unfold resolve_dispute. intros E. right. adj_steps E; adj_cbn.
  repeat match goal with
  | Hb : bool_decide _ = true |- _ => apply bool_decide_eq_true in Hb
  | Hb : negb (is_agent _ _) = true |- _ => apply not_agent in Hb
  | Hb : negb (bool_decide _) = true |- _ => apply negb_true_iff, bool_decide_eq_false in Hb
  end.
  eapply (lc_resolve s db t); try done; [by eapply get_dispute_again| |adj_recorded].
  intros y Hy Hne.
  match goal with Hb : negb (truthy _ && _) = true |- _ => rewrite Hy in Hb; rename Hb into Hi end.
  apply negb_true_iff, andb_false_iff in Hi as [Hi|Hi%bool_decide_eq_false]; [|done].
  by apply negb_false_iff, bool_decide_eq_true in Hi.
Qed.

Lemma open_moves s t r db x db' :
  open_remediation t r db = Ok (x, db') → moves s db db'.
Proof.
  unfold open_remediation. intros E. adj_step E. adj_step E.
  destruct (open_action_for db t (fid _)) as [a|] eqn:Ea.
  { adj_steps E. by left. }
  right. adj_steps E; adj_cbn.
  eapply (lc_open s db t); try done; [by eapply get_finding_again|adj_recorded].
Qed.

Lemma closure_moves s t c db i db' :
  submit_closure t c db = Ok (i, db') → moves s db db'.
Proof.
  unfold submit_closure. intros E. right. adj_steps E; adj_cbn.
  pose proof (get_action_again _ _ _ _ H1) as Ha.
  match goal with Hm : recorded _ ?l' ?e true |- _ =>
    match goal with Hf : get_finding db t _ = Some ?f |- _ =>
    eapply (lc_closure s db t f _ (mkManagementResponse _ _ _ _ _ _ _ _ _) _ e l') end end;
    cbn; try done; [|adj_recorded].
  match goal with Hc : negb (closure_evidence_required _ && _) = true |- _ => rename Hc into Hcl end.
  intros Hr Hnil. by rewrite Hr, Hnil in Hcl.
Qed.

Lemma no_conflict x c :
  negb (negb (bool_decide (x = "")) && bool_decide (x = c)) = true → x ≠ "" → x ≠ c.
Proof. intros Hb Hne ->. by rewrite bool_decide_eq_false_2, bool_decide_eq_true_2 in Hb. Qed.

Lemma no_conflict_opt o c :
  negb (negb (bool_decide (identity (str_or o "") = "")) &&
        bool_decide (identity (str_or o "") = c)) = true →
  ∀ x, o = Some x → identity x ≠ "" → identity x ≠ c.
Proof.
  intros Hb x -> Hx. unfold str_or in Hb.
  destruct (decide (x = "")) as [->|]; [done|]. by apply no_conflict.
Qed.

Lemma independence_Ok f a p db u db' :
  require_independence f a p db = Ok (u, db') → db' = db ∧ independent f a p.
Proof.
  unfold require_independence. intros E.
  apply tx_bind_Ok in E as ([] & db1 & [H1 ->]%require_Ok & E).
  apply tx_bind_Ok in E as ([] & db1 & [H2 ->]%require_Ok & [H3 ->]%require_Ok).
  split; [done|]. split; [by apply no_conflict_opt|by apply no_conflict|by apply no_conflict_opt].
Qed.

Lemma no_prior db t i key :
  scalar (filter (λ p, rts_idempotency_key p = key) (retests_of db t i)) = None →
  Forall (λ p, rts_tenant_id p = t → rts_action_id p = i → rts_idempotency_key p ≠ key) (retests db).
Proof.
  intros E%head_None. apply Forall_forall. intros p Hp Ht Hi Hk. apply (not_elem_of_nil p).
  rewrite <- E. unfold retests_of. by rewrite list_elem_of_filter, elem_of_sort_by, list_elem_of_filter.
Qed.

Lemma retest_moves s t r db x db' :
  retest t r db = Ok (x, db') → moves s db db'.
Proof.
  unfold retest. intros E. do 3 adj_step E.
  apply tx_bind_Ok in E as ([] & db1 & [-> Hi]%independence_Ok & E).
  destruct (scalar _) as [p|] eqn:Ep; [adj_steps E; by left|].
  right. apply no_prior in Ep. adj_steps E; adj_cbn.
  pose proof (get_action_again _ _ _ _ H1) as Ha.
  match goal with Hm : recorded _ ?l' ?e true |- _ =>
    match goal with Hf : get_finding db t _ = Some ?f |- _ =>
    eapply (lc_retest s db t f _ (mkRetest _ _ _ _ _ _ _ _ _ _ _ _ _ _) e l') end end;
    cbn [outcome rts_evidence_ids_json rts_tenant_id rts_action_id performed_by
         rts_idempotency_key]; try done; [|adj_recorded].
  match goal with Hc : negb (closes _ && _) = true |- _ => rename Hc into Hcl end.
  destruct r. cbn in *. intros Hr Hnil. by rewrite Hr, Hnil in Hcl.
Qed.

Lemma reopen_moves s t i r db x db' :
  reopen_for_remediation t i r db = Ok (x, db') → moves s db db'.
Proof.
  unfold reopen_for_remediation. intros E. right. adj_steps E; adj_cbn.
  destruct (get_finding_Some _ _ _ _ H1) as (_ & _ & <-).
  by eapply (lc_reopen s db t).
Qed.

Lemma record_ticket_moves s t i f k db x db' :
  record_ticket t i f k db = Ok (x, db') → moves s db db'.
Proof.
  unfold record_ticket. intros E. do 2 adj_step E. destruct (truthy _) eqn:Et.
  { adj_inv E. by left. }
  right. adj_steps E; adj_cbn.
  eapply (lc_ticket s db t); try done. by eapply get_action_again.
Qed.

Lemma record_failure_moves s t i f a e db x db' :
  record_failure t i f a e db = Ok (x, db') → moves s db db'.
Proof.
  unfold record_failure. intros E. adj_step E. right.
  apply tx_bind_Ok in E as ([] & db1 & E1 & E).
  destruct (get_action db t i) as [y|]; adj_inv E1; adj_inv E; adj_cbn.
  - eapply (lc_ticket_failed s db). adj_recorded.
  - eapply (lc_note s db). adj_recorded.
Qed.

Lemma sync_read_Ok {P} t i (w : TicketWriter P) db x db' :
  sync_read t i w db = Ok (x, db') → db' = db.
Proof.
  unfold sync_read. intros E. do 3 adj_step E. destruct (truthy _); [by adj_inv E|].
  by adj_steps E.
Qed.

(** ** Histories *)

(** A call of an operation that changes state and is one transaction. *)
Inductive adj_operation :=
  | Propose (tenant_id engagement_id : string) (f : ProposedFinding) (authored_by : string)
      (skeptic : option SkepticReviewer) (rows : list dict)
  | Adjudicate (tenant_id : string) (r : AdjudicationRequest)
  | AssessMateriality (tenant_id : string) (r : MaterialityRequest)
  | OverrideSeverity (tenant_id : string) (r : SeverityOverrideRequest)
  | ReviewQuality (tenant_id : string) (r : QualityReviewRequest)
  | RaiseDispute (tenant_id : string) (r : DisputeRequest)
  | ResolveDispute (tenant_id : string) (r : DisputeResolutionRequest)
  | OpenRemediation (tenant_id : string) (r : RemediationRequest)
  | SubmitClosure (tenant_id : string) (c : ClosureSubmission)
  | RunRetest (tenant_id : string) (r : RetestRequest)
  | ReopenForRemediation (tenant_id finding_id : string) (r : RemediationRequest)
  | RecordTicket (tenant_id action_id : string) (f : Finding) (ticket : TicketRef)
  | RecordFailure (tenant_id action_id : string) (f : Finding) (a : RemediationAction)
      (error : string).

Definition discard_result {A} (m : AdjTx A) : AdjTx unit := _ ← m; mret tt.

Definition perform (s : AdjudicationService) (o : adj_operation) : AdjTx unit :=
  match o with
  | Propose t g f a k rows => discard_result (propose t g f a k rows)
  | Adjudicate t r => discard_result (adjudicate s t r)
  | AssessMateriality t r => discard_result (assess_materiality t r)
  | OverrideSeverity t r => discard_result (override_severity s t r)
  | ReviewQuality t r => discard_result (review_quality t r)
  | RaiseDispute t r => discard_result (raise_dispute s t r)
  | ResolveDispute t r => discard_result (resolve_dispute s t r)
  | OpenRemediation t r => discard_result (open_remediation t r)
  | SubmitClosure t c => discard_result (submit_closure t c)
  | RunRetest t r => discard_result (retest t r)
  | ReopenForRemediation t i r => discard_result (reopen_for_remediation t i r)
  | RecordTicket t i f k => discard_result (record_ticket t i f k)
  | RecordFailure t i f a e => record_failure t i f a e
  end.

Lemma perform_moves s o db db' : perform s o db = Ok (tt, db') → moves s db db'.
Proof.
  destruct o; cbn [perform]; unfold discard_result; intros E;
    try (apply tx_bind_Ok in E as (x & db1 & E & [_ ->]%tx_ret_Ok)).
  - right. by eapply propose_moves.
  - by eapply adjudicate_moves.
  - by eapply assess_moves.
  - by eapply override_moves.
  - by eapply review_moves.
  - by eapply dispute_moves.
  - by eapply resolve_moves.
  - by eapply open_moves.
  - by eapply closure_moves.
  - by eapply retest_moves.
  - by eapply reopen_moves.
  - by eapply record_ticket_moves.
  - by eapply record_failure_moves.
Qed.

(** The first state: tenants and engagements, and no finding. *)
Definition initial (tenants engagements : list string) (l : Ledger) : AdjDb :=
  mkAdjDb tenants engagements [] [] [] [] [] [] [] [] l.

(** The states a history of operations leads to.  Between two operations the
    other components may create tenants and engagements and extend the ledger. *)
Inductive adj_reachable (s : AdjudicationService) : AdjDb → Prop :=
  | adj_reachable_init ts es l : adj_reachable s (initial ts es l)
  | adj_reachable_perform o db db' :
      adj_reachable s db → perform s o db = Ok (tt, db') → adj_reachable s db'
  | adj_reachable_env ts es l db :
      adj_reachable s db →
      adj_reachable s (mkAdjDb ts es (findings db) (approval_decisions db)
        (management_responses db) (remediation_actions db) (materiality_assessments db)
        (quality_reviews db) (finding_disputes db) (retests db) l).

(** An invariant of the tables that every move keeps holds in every reachable
    state. *)
Lemma adj_invariant s (I : AdjDb → Prop) :
  (∀ ts es l, I (initial ts es l)) →
  (∀ db ts es l, I db → I (mkAdjDb ts es (findings db) (approval_decisions db)
     (management_responses db) (remediation_actions db) (materiality_assessments db)
     (quality_reviews db) (finding_disputes db) (retests db) l)) →
  (∀ db db', I db → lifecycle s db db' → I db') →
  ∀ db, adj_reachable s db → I db.
Proof.
  intros Hinit Henv Hstep db. induction 1 as [| o db db' Hr IH E |]; [done| |by apply Henv].
  apply perform_moves in E as [->|Hl]; eauto.
Qed.
End refinement.
