(* ===== verification/AdjInvariants.v ===== *)
(** * Adjudication: invariants of the life-cycle

    What holds of the tables in every state a history of operations reaches: keys
    are unique and every action and dispute belongs to a finding of its tenant; a
    finding past approval carries the decision of a person; a closed finding
    carries an independent retest that cites evidence; disputes are numbered, at
    most one is open, and an open one pins the finding. *)

From S2P Require Import Prelude Tables PyFloat PyTime Ledger PyText Materiality Quality AdjDefs Skeptic.
From S2P Require Import AdjStore Adjudication Ticketing AdjMachine AdjRefinement.
Local Open Scope Z_scope.

Section invariants.
Context `{UuidSource} `{Sha256}.
Implicit Types (s : AdjudicationService) (db : AdjDb).

(** The findings after a move: each is still there with its own content, and a
    move about one finding leaves the others as they are. *)
Lemma set_fnd_status_spec v f : fspec (set_fnd_status v f) = fspec f.
Proof. done. Qed.

(** ** Keys and owners *)

(** [t] owns a finding with this identifier. *)
Definition owned db (t i : string) : Prop :=
  ∃ f, f ∈ findings db ∧ fid f = i ∧ fnd_tenant_id (fspec f) = t.

Record tables_wf db : Prop := {
  wf_findings : NoDup (map fid (findings db));
  wf_actions : NoDup (map aid (remediation_actions db));
  wf_disputes : NoDup (map did (finding_disputes db));
  wf_one_action : NoDup (map (λ a, act_finding_id (aspec a)) (remediation_actions db));
  wf_action_owner : ∀ a, a ∈ remediation_actions db →
    owned db (act_tenant_id (aspec a)) (act_finding_id (aspec a));
  wf_dispute_owner : ∀ d, d ∈ finding_disputes db →
    owned db (dsp_tenant_id (dspec d)) (dsp_finding_id (dspec d))
}.

(** Two owners of one finding are the same tenant. *)
Lemma owned_unique db t1 t2 i : NoDup (map fid (findings db)) → owned db t1 i → owned db t2 i → t1 = t2.
Proof.
  intros Hn (f1 & H1 & E1 & <-) (f2 & H2 & E2 & <-).
  assert (f1 = f2) as -> by (apply (same_row fid (findings db)); congruence). done.
Qed.

(** What a move does to the findings: it adds one, or rewrites the status or the
    severity of one. *)
Inductive findings_change (l : list Finding) : list Finding → Prop :=
  | fc_same : findings_change l l
  | fc_add f : Forall (λ f', fid f' ≠ fid f) l → findings_change l (l ++ [f])
  | fc_update i g : (∀ f, fspec (g f) = fspec f) → findings_change l (update_row fid i g l).

Lemma lifecycle_findings s db db' : lifecycle s db db' → findings_change (findings db) (findings db').
Proof.
  destruct 1; adj_cbn; try by constructor.
  - apply fc_add. eapply Forall_impl; [eassumption|]. cbn beta. tauto.
  - case_decide; [apply fc_same|by apply fc_update].
Qed.

Lemma findings_change_owned l db db' :
  findings db = l → findings_change l (findings db') → ∀ t i, owned db t i → owned db' t i.
Proof.
  intros <- Hc t i (f & Hf & Ei & Et). unfold owned. revert Hc. generalize (findings db').
  intros l' [|f' Hf'|j g Hg]; [by exists f| |].
  - exists f. rewrite elem_of_app. auto.
  - exists (if decide (fid f = j) then g f else f). split; [by apply update_row_intro|].
    unfold fid in *. destruct (decide _); by rewrite ?Hg.
Qed.

Lemma findings_change_NoDup l l' :
  findings_change l l' → NoDup (map fid l) → NoDup (map fid l').
Proof.
  intros [|f Hf|i g Hg] Hn; [done|by apply NoDup_map_snoc|].
  rewrite map_update_row; [done|]. intros f. unfold fid. by rewrite Hg.
Qed.

(** What a move does to the actions and to the disputes: it adds one for a finding
    that exists, or rewrites one and keeps its identity. *)
Inductive actions_change db (l : list RemediationAction) : list RemediationAction → Prop :=
  | ac_same : actions_change db l l
  | ac_add a : Forall (λ a', aid a' ≠ aid a) l →
      open_action_for db (act_tenant_id (aspec a)) (act_finding_id (aspec a)) = None →
      owned db (act_tenant_id (aspec a)) (act_finding_id (aspec a)) → actions_change db l (l ++ [a])
  | ac_update i g : (∀ a, aspec (g a) = aspec a) → actions_change db l (update_row aid i g l).
Inductive disputes_change db (l : list FindingDispute) : list FindingDispute → Prop :=
  | dc_same : disputes_change db l l
  | dc_add d : Forall (λ d', did d' ≠ did d) l →
      owned db (dsp_tenant_id (dspec d)) (dsp_finding_id (dspec d)) → disputes_change db l (l ++ [d])
  | dc_update i g : (∀ d, dspec (g d) = dspec d) → disputes_change db l (update_row did i g l).

Lemma get_finding_owned db t i f : get_finding db t i = Some f → owned db t i.
Proof. intros (? & ? & ?)%get_finding_Some. by exists f. Qed.

Lemma lifecycle_actions s db db' :
  lifecycle s db db' → actions_change db (remediation_actions db) (remediation_actions db').
Proof.
  destruct 1; adj_cbn; try by constructor.
  apply ac_add; [done|congruence|]. replace (act_tenant_id (aspec a)) with t by done.
  rewrite H5. by eapply get_finding_owned.
Qed.

Lemma lifecycle_disputes s db db' :
  lifecycle s db db' → disputes_change db (finding_disputes db) (finding_disputes db').
Proof.
  destruct 1; adj_cbn; try by constructor.
  apply dc_add; [done|]. replace (dsp_tenant_id (dspec d)) with t by done.
  rewrite H5. by eapply get_finding_owned.
Qed.

Lemma tables_wf_step s db db' : tables_wf db → lifecycle s db db' → tables_wf db'.
Proof.
  intros [Hf Ha Hd H1 Hao Hdo] Hl.
  pose proof (lifecycle_findings _ _ _ Hl) as Fc. pose proof (lifecycle_actions _ _ _ Hl) as Ac.
  pose proof (lifecycle_disputes _ _ _ Hl) as Dc. clear Hl.
  pose proof (findings_change_owned _ db db' eq_refl Fc) as Ho.
  split.
  - by eapply findings_change_NoDup.
  - destruct Ac as [|a Hfr _ _|i g Hg]; [done|by apply NoDup_map_snoc|].
    rewrite map_update_row; [done|]. intros a. unfold aid. by rewrite Hg.
  - destruct Dc as [|d Hfr _|i g Hg]; [done|by apply NoDup_map_snoc|].
    rewrite map_update_row; [done|]. intros a. unfold did. by rewrite Hg.
  - destruct Ac as [|a Hfr Hnone Hown|i g Hg]; [done| |].
    + apply NoDup_map_snoc; [done|]. apply Forall_forall. intros a' Ha' E.
      eapply scalar_sort_None in Hnone; [|exact Ha']. apply Hnone. split; [|done].
      apply (owned_unique db _ _ (act_finding_id (aspec a))); [done| |done]. rewrite <- E. by apply Hao.
    + rewrite map_update_row; [done|]. intros a. by rewrite Hg.
  - destruct Ac as [|a Hfr Hnone Hown|i g Hg]; [by eauto| |].
    + intros a' [Ha'| ->%list_elem_of_singleton]%elem_of_app; eauto.
    + intros a' (a & Hin & ->)%elem_of_update_row. destruct (decide _); rewrite ?Hg; eauto.
  - destruct Dc as [|d Hfr Hown|i g Hg]; [by eauto| |].
    + intros a' [Ha'| ->%list_elem_of_singleton]%elem_of_app; eauto.
    + intros a' (a & Hin & ->)%elem_of_update_row. destruct (decide _); rewrite ?Hg; eauto.
Qed.

Lemma tables_wf_reachable s db : adj_reachable s db → tables_wf db.
Proof.
  apply adj_invariant.
  - intros ts es l. split; cbn; try apply NoDup_nil_2; by intros ? ?%elem_of_nil.
  - by intros db0 ts es l [].
  - apply tables_wf_step.
Qed.

(** ** Statuses move along the table *)

(** The moves a finding makes: the transitions of the table; the two steps of a
    retest, taken in one transaction; and the answer to a dispute whose finding was
    rejected in the meantime. *)
Inductive status_edge : FindingStatus → FindingStatus → Prop :=
  | edge_stay c : status_edge c c
  | edge_allowed c c' : c' ∈ ALLOWED_TRANSITIONS c → status_edge c c'
  | edge_retest c c' : FindingStatus.RETEST_IN_PROGRESS ∈ ALLOWED_TRANSITIONS c →
      c' ∈ ALLOWED_TRANSITIONS FindingStatus.RETEST_IN_PROGRESS → status_edge c c'
  | edge_late_answer c' :
      c' ∈ ALLOWED_TRANSITIONS FindingStatus.DISPUTED → status_edge FindingStatus.REJECTED c'.

(** An open dispute pins its finding: it is disputed, or was rejected since. *)
Definition pinned db : Prop :=
  ∀ d f, d ∈ finding_disputes db → dsp_status d = "open" → f ∈ findings db →
    fid f = dsp_finding_id (dspec d) →
    fnd_status f = FindingStatus.DISPUTED ∨ fnd_status f = FindingStatus.REJECTED.

(** At most one dispute of a finding is open. *)
Definition one_open db : Prop :=
  ∀ d1 d2, d1 ∈ finding_disputes db → d2 ∈ finding_disputes db →
    dsp_status d1 = "open" → dsp_status d2 = "open" →
    dsp_finding_id (dspec d1) = dsp_finding_id (dspec d2) → d1 = d2.

(** A move rewrites the status of at most one finding, and along an edge. *)
Inductive status_change db (l : list Finding) : list Finding → Prop :=
  | sc_add f : (∀ d, d ∈ finding_disputes db → dsp_finding_id (dspec d) ≠ fid f) →
      status_change db l (l ++ [f])
  | sc_keep i g : (∀ f, fspec (g f) = fspec f ∧ fnd_status (g f) = fnd_status f) →
      status_change db l (update_row fid i g l)
  | sc_move f c : f ∈ l → status_edge (fnd_status f) c →
      status_change db l (update_row fid (fid f) (set_fnd_status c) l).


Lemma decision_edge_status k c : decision_edge k c → status_edge c (_DECISION_TARGET k).
Proof.
  unfold decision_edge. destruct (decide _) as [->|]; [intros ->; apply edge_stay|apply edge_allowed].
Qed.

Lemma get_finding_in db t i f : get_finding db t i = Some f → f ∈ findings db.
Proof. by intros (? & _)%get_finding_Some. Qed.

Lemma lifecycle_status s db db' :
  tables_wf db → pinned db → lifecycle s db db' →
  findings db' = findings db ∨ status_change db (findings db) (findings db').
Proof.
  intros [Hf _ _ _ _ Hdo] Hp Hl.
  destruct Hl; adj_cbn; try (by left); right;
    try (apply sc_move; [by eapply get_finding_in|by apply edge_allowed]).
  - apply sc_add. intros d Hd E. destruct (Hdo d Hd) as (f' & Hf' & E' & _).
    rewrite Forall_forall in H1. destruct (H1 f' Hf'). congruence.
  - apply sc_move; [by eapply get_finding_in|by apply decision_edge_status].
  - case_decide; [|by apply sc_keep]. pose proof (sc_keep db (findings db) "" id) as Hk.
    rewrite update_row_id in Hk. by apply Hk.
  - by apply sc_keep.
  - destruct (get_finding_Some _ _ _ _ H3) as (Hin & _ & Ei).
    destruct (get_dispute_Some _ _ _ _ H1) as (Hx & _ & _).
    apply sc_move; [done|].
    destruct (Hp x f Hx H2 Hin Ei) as [-> | ->]; [by apply edge_allowed|by apply edge_late_answer].
  - apply sc_move; [by eapply get_finding_in|]. apply edge_retest; [done|].
    destruct (closes _); cbn; set_solver.
Qed.

(** What a status change does to one finding. *)
Lemma status_change_row db l' f :
  NoDup (map fid (findings db)) → status_change db (findings db) l' → f ∈ findings db →
  ∃ f', f' ∈ l' ∧ fspec f' = fspec f ∧ status_edge (fnd_status f) (fnd_status f').
Proof.
  intros Hn [f0 _|i g Hg|f0 c Hf0 He] Hf.
  - exists f. rewrite elem_of_app. split_and!; [by left|done|apply edge_stay].
  - exists (if decide (fid f = i) then g f else f). split; [by apply update_row_intro|].
    destruct (decide _); [destruct (Hg f) as [-> ->]|]; (split; [done|apply edge_stay]).
  - exists (if decide (fid f = fid f0) then set_fnd_status c f else f).
    split; [by apply update_row_intro|]. destruct (decide _) as [E|]; [|split; [done|apply edge_stay]].
    by assert (f = f0) as -> by (by apply (same_row fid (findings db))).
Qed.

(** ** Disputes *)

(** [pinned] over explicit tables. *)
Definition pins (fs : list Finding) (ds : list FindingDispute) : Prop :=
  ∀ d f, d ∈ ds → dsp_status d = "open" → f ∈ fs → fid f = dsp_finding_id (dspec d) →
    fnd_status f = FindingStatus.DISPUTED ∨ fnd_status f = FindingStatus.REJECTED.

Lemma pins_keep fs ds i g :
  pins fs ds → (∀ f, fspec (g f) = fspec f ∧ fnd_status (g f) = fnd_status f) →
  pins (update_row fid i g fs) ds.
Proof.
  intros Hp Hg d y Hd Ho (x & Hx & ->)%elem_of_update_row. unfold fid.
  destruct (decide _); [|by apply Hp]. destruct (Hg x) as [-> ->]. by apply Hp.
Qed.

(** Moving one finding keeps the pins if it may not have an open dispute, or stays
    where one leaves it. *)
Lemma pins_move fs ds ds' f c :
  NoDup (map fid fs) → f ∈ fs → pins fs ds →
  (∀ d, d ∈ ds' → dsp_status d = "open" → dsp_finding_id (dspec d) = fid f →
     c = FindingStatus.DISPUTED ∨ c = FindingStatus.REJECTED) →
  (∀ d, d ∈ ds' → dsp_status d = "open" → dsp_finding_id (dspec d) ≠ fid f → d ∈ ds) →
  pins (update_row fid (fid f) (set_fnd_status c) fs) ds'.
Proof.
  intros Hn Hf Hp Hc Hds d y Hd Ho (x & Hx & ->)%elem_of_update_row.
  destruct (decide (fid x = fid f)) as [E|E].
  - cbn. unfold fid in *. cbn. intros Ei. eapply Hc; [exact Hd|done|congruence].
  - intros Ei. apply (Hp d); try done. apply Hds; congruence.
Qed.

(** The statuses an open dispute allows lead nowhere but to a rejection. *)
Lemma pinned_allowed f c :
  fnd_status f = FindingStatus.DISPUTED ∨ fnd_status f = FindingStatus.REJECTED →
  c ∈ ALLOWED_TRANSITIONS (fnd_status f) →
  c ∈ [FindingStatus.PROPOSED; FindingStatus.APPROVED; FindingStatus.REJECTED; FindingStatus.WITHDRAWN].
Proof. intros [-> | ->]; cbn; [done|by intros ?%elem_of_nil]. Qed.

Lemma open_dispute_None db t i d :
  open_dispute db t i = None → owned db t i → tables_wf db → d ∈ finding_disputes db →
  dsp_finding_id (dspec d) = i → dsp_status d ≠ "open".
Proof.
  intros Hn Ho Hw Hd Ei Hop. eapply scalar_sort_None in Hn; [|exact Hd]. apply Hn.
  split_and!; [|done..]. apply (owned_unique db _ _ i); [apply Hw| |done].
  rewrite <- Ei. by apply Hw.
Qed.

(** A move that leaves the disputes as they are. *)
Lemma pins_step db f c :
  tables_wf db → pinned db → f ∈ findings db → c ∈ ALLOWED_TRANSITIONS (fnd_status f) →
  c ≠ FindingStatus.PROPOSED → c ≠ FindingStatus.WITHDRAWN →
  (c = FindingStatus.APPROVED → ∀ d, d ∈ finding_disputes db → dsp_finding_id (dspec d) = fid f →
     dsp_status d ≠ "open") →
  pins (update_row fid (fid f) (set_fnd_status c) (findings db)) (finding_disputes db).
Proof.
  intros Hw Hp Hf Hc H1 H2 H3. eapply pins_move; [apply Hw|done|exact Hp| |done].
  intros d Hd Ho E.
  assert (Hs := pinned_allowed f c (Hp d f Hd Ho Hf (eq_sym E)) Hc).
  assert (c ≠ FindingStatus.APPROVED) by (intros E'; by apply (H3 E' d)).
  right. set_solver.
Qed.

Lemma decision_edge_pinned k f :
  decision_edge k (fnd_status f) →
  k = HumanDecision.RETURN_FOR_REWORK ∧ fnd_status f = FindingStatus.PROPOSED ∨
  _DECISION_TARGET k ∈ ALLOWED_TRANSITIONS (fnd_status f) ∧ _DECISION_TARGET k ≠ FindingStatus.PROPOSED ∧
  _DECISION_TARGET k ≠ FindingStatus.WITHDRAWN ∧
  (_DECISION_TARGET k = FindingStatus.APPROVED → k = HumanDecision.APPROVE).
Proof. unfold decision_edge. destruct k; cbn; intuition discriminate. Qed.

Lemma pinned_step s db db' :
  tables_wf db → one_open db → pinned db → lifecycle s db db' → pins (findings db') (finding_disputes db').
Proof.
  intros Hw H1 Hp Hl. destruct Hl; adj_cbn; try exact Hp;
    try (apply pins_step; [done..|by eapply get_finding_in|done|done|done|done]).
  - (* propose *)
    intros d f' Hd Ho [Hf'| ->%list_elem_of_singleton]%elem_of_app Ei; [by apply (Hp d)|].
    destruct (wf_dispute_owner _ Hw d Hd) as (f0 & Hf0 & E0 & _).
    rewrite Forall_forall in H2. destruct (H2 f0 Hf0). congruence.
  - (* decide *)
    apply decision_edge_pinned in H3 as [[-> Hs]|(Hc & ? & ? & Ha)].
    + eapply pins_move; [apply Hw|by eapply get_finding_in|exact Hp| |done].
      intros d0 Hd Ho E. destruct (Hp d0 f Hd Ho) as [?|?]; [by eapply get_finding_in|done|congruence..].
    + apply pins_step; try done; [by eapply get_finding_in|].
      intros E d0 Hd Ed. eapply open_dispute_None; try done; [by apply H4, Ha|].
      by eapply get_finding_owned.
  - (* assess *)
    case_decide; [exact Hp|by apply pins_keep].
  - (* override *)
    by apply pins_keep.
  - (* dispute *)
    eapply pins_move; [apply Hw|by eapply get_finding_in|exact Hp|by left|].
    intros d0 [Hd| ->%list_elem_of_singleton]%elem_of_app; [done|congruence].
  - (* resolve *)
    destruct (get_finding_Some _ _ _ _ H4) as (Hin & _ & Ei).
    destruct (get_dispute_Some _ _ _ _ H2) as (Hx & _ & _).
    eapply pins_move; [apply Hw|done|exact Hp| |].
    + intros d0 (y & Hy & ->)%elem_of_update_row. destruct (decide (did y = did x)) as [|Hne]; [done|].
      intros Ho E. destruct Hne. f_equal. apply H1; congruence.
    + intros d0 (y & Hy & ->)%elem_of_update_row. by destruct (decide (did y = did x)).
  - (* retest *)
    eapply pins_move; [apply Hw|by eapply get_finding_in|exact Hp| |done].
    intros d0 Hd Ho E.
    destruct (Hp d0 f Hd Ho) as [Es|Es]; [by eapply get_finding_in|done|rewrite Es in *; set_solver..].
Qed.

Lemma one_open_step s db db' :
  tables_wf db → one_open db → lifecycle s db db' → one_open db'.
Proof.
  intros Hw H1 Hl. unfold one_open. destruct Hl; adj_cbn; try exact H1.
  - intros d1 d2 Hd1 Hd2 O1 O2 E.
    assert (Hno : ∀ d0, d0 ∈ finding_disputes db → dsp_finding_id (dspec d0) = fid f → dsp_status d0 ≠ "open").
    { intros d0 Hd0 E0. eapply open_dispute_None; try done. by eapply get_finding_owned. }
    apply elem_of_app in Hd1 as [Hd1|Hd1%list_elem_of_singleton],
      Hd2 as [Hd2|Hd2%list_elem_of_singleton]; subst; [by apply H1| | |done].
    + by destruct (Hno d1); [|congruence|].
    + by destruct (Hno d2); [|congruence|].
  - intros d1 d2 (y1 & Hy1 & ->)%elem_of_update_row (y2 & Hy2 & ->)%elem_of_update_row.
    destruct (decide (did y1 = did x)), (decide (did y2 = did x)); try done. by apply H1.
Qed.

Definition dispute_inv db : Prop := tables_wf db ∧ one_open db ∧ pinned db.

Lemma dispute_inv_reachable s db : adj_reachable s db → dispute_inv db.
Proof.
  apply adj_invariant.
  - intros ts es l. split_and!; [|by intros d ? ?%elem_of_nil..].
    split; cbn; try apply NoDup_nil_2; by intros ? ?%elem_of_nil.
  - intros db0 ts es l [[] Hr]. done.
  - intros db0 db1 (Hw & H1 & Hp) Hl.
    split_and!; [by eapply tables_wf_step|by eapply one_open_step|by eapply pinned_step].
Qed.

Lemma moves_status s o db db' f :
  dispute_inv db → perform s o db = Ok (tt, db') → f ∈ findings db →
  ∃ f', f' ∈ findings db' ∧ fspec f' = fspec f ∧ status_edge (fnd_status f) (fnd_status f').
Proof.
  intros (Hw & _ & Hp) [->|Hl]%perform_moves Hf.
  - exists f. split_and!; [done..|apply edge_stay].
  - destruct (lifecycle_status s db db' Hw Hp Hl) as [->|Hs].
    + exists f. split_and!; [done..|apply edge_stay].
    + by apply (status_change_row db); [apply Hw| |].
Qed.

(** ** Approval is on record *)

(** A person's approval of the finding. *)
Definition approved_on_record s db (i : string) : Prop :=
  ∃ d, d ∈ approval_decisions db ∧ apd_finding_id d = i ∧ decision_type d = "human:approve" ∧
       is_agent s (apd_actor_id d) = false.

(** The statuses only an approved finding reaches. *)
Definition past_approval (c : FindingStatus) : bool :=
  match c with
  | FindingStatus.APPROVED | FindingStatus.REMEDIATION_OPEN
  | FindingStatus.REMEDIATION_DECLARED_COMPLETE | FindingStatus.RETEST_IN_PROGRESS
  | FindingStatus.CLOSED_VERIFIED | FindingStatus.REOPENED => true
  | _ => false
  end.

Definition approval_inv s db : Prop :=
  (∀ f, f ∈ findings db → past_approval (fnd_status f) = true → approved_on_record s db (fid f)) ∧
  (∀ d, d ∈ finding_disputes db → past_approval (prior_status (dspec d)) = true →
     approved_on_record s db (dsp_finding_id (dspec d))) ∧
  (∀ d, d ∈ approval_decisions db → String.prefix "human:" (decision_type d) = true →
     is_agent s (apd_actor_id d) = false).

(** Only approving, or moving on from an approved status, goes past approval. *)
Lemma past_approval_edge c c' :
  c' ∈ ALLOWED_TRANSITIONS c → past_approval c' = true → c' ≠ FindingStatus.APPROVED →
  past_approval c = true.
Proof. destruct c, c'; try done; cbn; set_solver. Qed.

Lemma decisions_grow s db db' : lifecycle s db db' → approval_decisions db ⊆ approval_decisions db'.
Proof. destruct 1; adj_cbn; set_solver. Qed.

Lemma approved_grow s db db' i :
  lifecycle s db db' → approved_on_record s db i → approved_on_record s db' i.
Proof. intros Hl%decisions_grow (d & Hd & ?). exists d. auto. Qed.

(** The statuses of a moved table. *)
Lemma moved_status fs f c y :
  NoDup (map fid fs) → f ∈ fs → y ∈ update_row fid (fid f) (set_fnd_status c) fs →
  (fid y = fid f ∧ fnd_status y = c) ∨ (y ∈ fs ∧ fid y ≠ fid f).
Proof.
  intros Hn Hf (x & Hx & ->)%elem_of_update_row. destruct (decide (fid x = fid f)) as [E|E]; [|by right].
  left. cbn. by unfold fid in *.
Qed.

Lemma kept_status fs i g y :
  (∀ f, fspec (g f) = fspec f ∧ fnd_status (g f) = fnd_status f) →
  y ∈ update_row fid i g fs → ∃ x, x ∈ fs ∧ fid y = fid x ∧ fspec y = fspec x ∧ fnd_status y = fnd_status x.
Proof.
  intros Hg (x & Hx & ->)%elem_of_update_row. exists x. unfold fid.
  destruct (decide _); [|done]. by destruct (Hg x) as [-> ->].
Qed.

(** Where the status of a finding after a move comes from. *)
Lemma lifecycle_past_approval s db db' y :
  tables_wf db → lifecycle s db db' → approval_inv s db → y ∈ findings db' →
  past_approval (fnd_status y) = true → approved_on_record s db' (fid y).
Proof.
  intros Hw Hl (If & Id & _) Hy Hpy.
  assert (Hold : ∀ x, x ∈ findings db → fid y = fid x → fnd_status y = fnd_status x →
    approved_on_record s db' (fid y)).
  { intros x Hx E Es. rewrite E. eapply approved_grow; [done|]. apply If; [done|congruence]. }
  assert (Hmove : ∀ f c, f ∈ findings db → c ∈ ALLOWED_TRANSITIONS (fnd_status f) →
    c ≠ FindingStatus.APPROVED → y ∈ update_row fid (fid f) (set_fnd_status c) (findings db) →
    approved_on_record s db' (fid y)).
  { intros f c Hf Hc Hne Hyc. apply moved_status in Hyc as [[E Es]|[Hin _]]; [|by eauto|apply Hw|done].
    rewrite E. eapply approved_grow; [done|]. apply If; [done|].
    apply (past_approval_edge _ c); congruence. }
  destruct Hl; adj_cbn; try (by eauto using get_finding_in);
    try (by eapply Hmove; [by eapply get_finding_in|done|done|done]).
  - apply elem_of_app in Hy as [Hy| ->%list_elem_of_singleton]; [by eauto|].
    by apply elem_of_cons in H2 as [E|E%list_elem_of_singleton]; rewrite E in Hpy.
  - pose proof (get_finding_in _ _ _ _ H1) as Hin.
    apply moved_status in Hy as [[E Es]|[Hy _]]; [|by eauto|apply Hw|done].
    rewrite Es in Hpy. destruct k; try done.
    rewrite E. destruct H4 as [Ht _ Hfi Ha Hp]. exists d. split_and!; [apply elem_of_app; right; left|done|done|congruence].
  - case_decide; [by eauto|]. apply kept_status in Hy as (x & ? & ? & _ & ?); [by eauto|done].
  - apply kept_status in Hy as (x & ? & ? & _ & ?); [by eauto|done].
  - destruct (get_finding_Some _ _ _ _ H3) as (Hin & _ & Ei).
    apply moved_status in Hy as [[E Es]|[Hy _]]; [|by eauto|apply Hw|done].
    destruct (get_dispute_Some _ _ _ _ H1) as (Hx & _ & _).
    assert (Ho : approved_on_record s db (fid f)).
    { rewrite Ei. apply Id; [done|]. rewrite Es in Hpy. by destruct (rr_resolution r). }
    rewrite E. destruct Ho as (d0 & Hd0 & ?). exists d0. split; [apply elem_of_app; by left|done].
  - apply moved_status in Hy as [[E Es]|[Hy _]]; [|by eauto|apply Hw|by eapply get_finding_in].
    rewrite E. eapply approved_grow; [by econstructor|]. apply If; [by eapply get_finding_in|].
    apply (past_approval_edge _ FindingStatus.RETEST_IN_PROGRESS); done.
Qed.

Lemma approval_inv_step s db db' :
  tables_wf db → approval_inv s db → lifecycle s db db' → approval_inv s db'.
Proof.
  intros Hw Hi Hl. split_and!.
  - intros y Hy Hp. by eapply lifecycle_past_approval.
  - destruct Hi as (If & Id & _).
    assert (Hd : ∀ d, d ∈ finding_disputes db → past_approval (prior_status (dspec d)) = true →
      approved_on_record s db' (dsp_finding_id (dspec d))) by eauto using approved_grow.
    destruct Hl; adj_cbn; try exact Hd.
    + intros d0 [Hd0| ->%list_elem_of_singleton]%elem_of_app; [by apply Hd|].
      intros Hp. destruct (get_finding_Some _ _ _ _ H1) as (Hin & _).
      destruct (If f Hin) as (d1 & Hd1 & ?); [congruence|]. exists d1. split; [done|congruence].
    + intros d0 (x0 & Hx0 & ->)%elem_of_update_row.
      destruct (decide _); cbn; by apply Hd.
  - destruct Hi as (_ & _ & Ih). destruct Hl; adj_cbn; try exact Ih.
    all: intros d0 [Hd0|Hd0]%elem_of_app; [by apply Ih|].
    + rewrite Forall_forall in H3. by rewrite (H3 d0 Hd0).
    + apply list_elem_of_singleton in Hd0 as ->. intros _. destruct H4; congruence.
    + apply list_elem_of_singleton in Hd0 as ->. intros _. destruct H4; congruence.
    + apply list_elem_of_singleton in Hd0 as ->. intros _. destruct H7; congruence.
Qed.

Lemma approval_inv_reachable s db : adj_reachable s db → approval_inv s db.
Proof.
  intros Hr. enough (tables_wf db ∧ approval_inv s db) by tauto. revert db Hr. apply adj_invariant.
  - intros ts es l. split; [|split_and!; by intros ? ?%elem_of_nil].
    split; cbn; try apply NoDup_nil_2; by intros ? ?%elem_of_nil.
  - intros db0 ts es l [[] Hr]. done.
  - intros db0 db1 (Hw & Hi) Hl. split; [by eapply tables_wf_step|by eapply approval_inv_step].
Qed.

(** ** Closure is verified *)

(** An independent retest of the finding's action that closes it and cites
    evidence. *)
Definition verified db (f : Finding) : Prop :=
  ∃ a r, a ∈ remediation_actions db ∧ act_finding_id (aspec a) = fid f ∧ r ∈ retests db ∧
    rts_action_id r = aid a ∧ closes (outcome r) = true ∧ rts_evidence_ids_json r ≠ [] ∧
    independent f a (performed_by r).

Definition closure_inv db : Prop :=
  ∀ f, f ∈ findings db → fnd_status f = FindingStatus.CLOSED_VERIFIED → verified db f.

(** The parties to the work of an action. *)
Definition same_parties (a a' : RemediationAction) : Prop :=
  aspec a' = aspec a ∧ completed_by a' = completed_by a.

Lemma independent_parties f f' a a' p :
  fspec f' = fspec f → same_parties a a' → independent f a p → independent f' a' p.
Proof. intros Ef [Ea Ec] [H1 H2 H3]. split; rewrite ?Ef, ?Ea, ?Ec; auto. Qed.

Lemma verified_keep db db' f f' :
  fspec f' = fspec f → retests db ⊆ retests db' →
  (∀ a, a ∈ remediation_actions db → act_finding_id (aspec a) = fid f →
     ∃ a', a' ∈ remediation_actions db' ∧ same_parties a a') →
  verified db f → verified db' f'.
Proof.
  intros Ef Hr Ha (a & r & Hin & Eid & Hrt & Ei & Hc & Hev & Hi).
  destruct (Ha a Hin Eid) as (a' & Ha' & [Es Ec]). exists a', r. unfold fid, aid in *.
  rewrite Ef, Es. split_and!; auto. by eapply (independent_parties f f' a a').
Qed.

(** What a move does to the actions of another finding. *)
Lemma other_actions (l : list RemediationAction) a0 g i :
  NoDup (map aid l) → a0 ∈ l → act_finding_id (aspec a0) ≠ i →
  ∀ a, a ∈ l → act_finding_id (aspec a) = i →
    ∃ a', a' ∈ update_row aid (aid a0) g l ∧ same_parties a a'.
Proof.
  intros Hn Hin0 Hne a Ha Ei. exists a. split; [|done]. apply elem_of_update_row. exists a.
  split; [done|]. rewrite decide_False; [done|]. intros E.
  assert (a = a0) as -> by (by apply (same_row aid l)). done.
Qed.
Lemma updated_actions (l : list RemediationAction) g j :
  (∀ a, same_parties a (g a)) → ∀ a, a ∈ l → ∃ a', a' ∈ update_row aid j g l ∧ same_parties a a'.
Proof.
  intros Hg a Ha. exists (if decide (aid a = j) then g a else a).
  split; [by apply update_row_intro|]. by destruct (decide _).
Qed.

(** A finding closed after a move that does not close it was closed before. *)
Lemma closed_before db db' f c y :
  NoDup (map fid (findings db)) → f ∈ findings db → c ≠ FindingStatus.CLOSED_VERIFIED →
  y ∈ update_row fid (fid f) (set_fnd_status c) (findings db) →
  fnd_status y = FindingStatus.CLOSED_VERIFIED → y ∈ findings db ∧ fid y ≠ fid f.
Proof. intros Hn Hf Hc [[_ E]|?]%moved_status; [congruence|done..]. Qed.

Lemma open_action_for_Some db t i a :
  open_action_for db t i = Some a → a ∈ remediation_actions db ∧ act_finding_id (aspec a) = i.
Proof. by intros (? & _ & ?)%scalar_sort_Some. Qed.

Lemma closure_inv_step s db db' :
  tables_wf db → closure_inv db → lifecycle s db db' → closure_inv db'.
Proof.
  intros Hw Hi Hl y Hy Hc.
  assert (Hself : ∀ a, a ∈ remediation_actions db → act_finding_id (aspec a) = fid y →
    ∃ a', a' ∈ remediation_actions db ∧ same_parties a a') by (intros a ? _; by exists a).
  pose proof (wf_findings _ Hw) as Hn. pose proof (wf_actions _ Hw) as Hna.
  destruct Hl; adj_cbn.
  - apply elem_of_app in Hy as [Hy| ->%list_elem_of_singleton].
    + eapply (verified_keep db); [done|done| |by apply Hi]. done.
    + apply elem_of_cons in H2 as [E|E%list_elem_of_singleton]; congruence.
  - apply closed_before in Hy as [Hy _]; [|done|done|by eapply get_finding_in|by destruct k|done].
    eapply (verified_keep db); [done|done|done|by apply Hi].
  - assert (∃ x, x ∈ findings db ∧ fspec y = fspec x ∧ fnd_status y = fnd_status x) as (x & Hx & Ex & Es).
    { case_decide; [by exists y|]. apply kept_status in Hy as (x & ? & _ & ? & ?); [by exists x|done]. }
    eapply (verified_keep db _ x); [done|done| |apply Hi; congruence]. intros a0 ? _. by exists a0.
  - apply kept_status in Hy as (x & Hx & _ & Ex & Es); [|done].
    eapply (verified_keep db _ x); [done|done| |apply Hi; congruence]. intros a0 ? _. by exists a0.
  - eapply (verified_keep db); [done|done|done|by apply Hi].
  - apply closed_before in Hy as [Hy _]; [|done|done|by eapply get_finding_in|done|done].
    eapply (verified_keep db); [done|done|done|by apply Hi].
  - apply closed_before in Hy as [Hy _]; [|done|done|by eapply get_finding_in| |done].
    + eapply (verified_keep db); [done|done|done|by apply Hi].
    + intros E. rewrite E in H4. cbn in H4. set_solver.
  - apply closed_before in Hy as [Hy _]; [|done|done|by eapply get_finding_in|done|done].
    eapply (verified_keep db); [done|done| |by apply Hi]. intros a0 ? _. exists a0. split; [adj_cbn; set_solver|done].
  - apply closed_before in Hy as [Hy Hne]; [|done|done|by eapply get_finding_in|done|done].
    destruct (get_action_Some _ _ _ _ H1) as (Ha & _). destruct (get_finding_Some _ _ _ _ H2) as (_ & _ & Ef).
    eapply (verified_keep db); [done|done| |by apply Hi]. apply other_actions; [done..|congruence].
  - destruct (get_action_Some _ _ _ _ H1) as (Ha & _). destruct (get_finding_Some _ _ _ _ H2) as (Hf & _ & Ef).
    apply moved_status in Hy as Hy'; [|done|done]. destruct Hy' as [[E Es]|[Hy' Hne]].
    + destruct (closes (outcome r)) eqn:Ecl; [|congruence].
      exists (set_act_status "closed" a), r. adj_cbn. split_and!; try done; [|cbn; congruence|set_solver|auto|].
      * pose proof (update_row_intro aid (aid a) (set_act_status "closed") _ _ Ha) as Hu.
        by rewrite decide_True in Hu.
      * apply elem_of_update_row in Hy as (x & Hx & ->).
        assert (x = f) as -> by (apply (same_row fid (findings db)); try done; by destruct (decide _)).
        rewrite decide_True by done. by eapply (independent_parties f _ a).
    + eapply (verified_keep db); [done|adj_cbn; set_solver| |by apply Hi]. apply other_actions; [done..|congruence].
  - apply closed_before in Hy as [Hy Hne]; [|done|done|by eapply get_finding_in|done|done].
    destruct (open_action_for_Some _ _ _ _ H2) as (Ha & Ef).
    eapply (verified_keep db); [done|done| |by apply Hi]. apply other_actions; [done..|congruence].
  - eapply (verified_keep db); [done|done| |by apply Hi]. intros a0 Ha0 _. by apply updated_actions.
  - eapply (verified_keep db); [done|done| |by apply Hi]. intros a0 Ha0 _. by apply updated_actions.
  - eapply (verified_keep db); [done|done|done|by apply Hi].
Qed.

Lemma closure_inv_reachable s db : adj_reachable s db → closure_inv db.
Proof.
  intros Hr. enough (tables_wf db ∧ closure_inv db) by tauto. revert db Hr. apply adj_invariant.
  - intros ts es l. split; [|by intros ? ?%elem_of_nil].
    split; cbn; try apply NoDup_nil_2; by intros ? ?%elem_of_nil.
  - intros db0 ts es l [[] Hr]. done.
  - intros db0 db1 (Hw & Hi) Hl. split; [by eapply tables_wf_step|by eapply closure_inv_step].
Qed.
End invariants.
