(* ===== verification/AdjBehaviour.v ===== *)
(** * Adjudication: what the operations answer

    The refusals of an adjudication and their exact conditions, the replays that
    change nothing, the severity an assessment leaves, the outcome of a retest and
    of a remediation request, and the synchronisation of a ticket. *)

From S2P Require Import Prelude Tables PyFloat PyTime Ledger PyText Materiality Quality AdjDefs Skeptic.
From S2P Require Import AdjStore Adjudication Ticketing AdjMachine AdjRefinement AdjInvariants.
Local Open Scope Z_scope.

Section behaviour.
Context `{UuidSource} `{Sha256}.
Implicit Types (s : AdjudicationService) (db : AdjDb).

(** ** The writes raise only what the database raises *)

Lemma never_draw e : never (Adj e) draw.
Proof. done. Qed.
Lemma never_fresh e p : never (Adj e) (fresh p).
Proof. unfold fresh, on_ledger, new_id. eauto using never_draw with tx. Qed.
Lemma never_decide_on e t f k a r : never (Adj e) (decide_on t f k a r).
Proof. unfold decide_on, add_decision, utc_now. eauto 10 using never_fresh with tx. Qed.
Lemma never_emit e t g ai ty pl key aty b : never (Adj e) (emit t g ai ty pl key aty b).
Proof.
  unfold emit, on_ledger, new_event_id, append, outbox_add, new_id, utc_now.
  apply never_bind; [eauto using never_draw with tx|]. intros ev.
  apply never_bind; [auto with tx|]. intros now.
  apply never_bind; [auto with tx|]. intros []. destruct b; [|auto with tx].
  apply never_zoom. repeat first [apply never_bind; [|intros ?] | apply never_draw | by auto with tx].
Qed.

(** ** Adjudication *)

(** The decision is already on record, by the same person. *)
Definition replayed db t (r : AdjudicationRequest) (f : Finding) : bool :=
  existsb (λ p, bool_decide (decision_type p = "human:" +:+ value (ar_decision r)) &&
                bool_decide (apd_actor_id p = ar_actor_id r)) (decisions db t (fid f)).

Lemma adjudicate_replay s t r db f :
  is_agent s (ar_actor_id r) = false → get_finding db t (ar_finding_id r) = Some f →
  replayed db t r f = true → adjudicate s t r db = Ok (fnd_status f, db).
Proof.
  intros Ha Hf Hr. unfold adjudicate. rewrite Ha.
  rewrite (tx_bind_step _ _ db tt db) by done.
  rewrite (tx_bind_step _ _ db db db) by done.
  rewrite (tx_bind_step _ _ db f db) by (unfold require_finding; by rewrite Hf).
  unfold replayed in Hr. by rewrite Hr.
Qed.

Lemma gates_blockers s db t f actor :
  gates_open s db t f actor → _approval_blockers s db t f = [].
Proof.
  intros [Ho [a Ha] Hq]. unfold _approval_blockers. rewrite Ho, Ha.
  destruct (require_quality_review s); [|done]. destruct Hq as (r & -> & _); done.
Qed.

Lemma preconditions_hold s d t f actor db :
  gates_open s d t f actor → require_approval_preconditions s d t f actor db = Ok (tt, db).
Proof.
  intros Hg. unfold require_approval_preconditions. rewrite (gates_blockers s d t f actor Hg).
  rewrite (tx_bind_step _ _ db tt db) by done. destruct Hg as [_ _ Hq].
  destruct (require_quality_review s); [|done]. destruct Hq as (r & -> & Hne); [done|].
  by rewrite bool_decide_eq_false_2.
Qed.

(** The guard of a decision other than its replay. *)
Definition guard_holds s db t (r : AdjudicationRequest) (f : Finding) : Prop :=
  decision_edge (ar_decision r) (fnd_status f) ∧
  (ar_decision r = HumanDecision.APPROVE → gates_open s db t f (ar_actor_id r)).

(** The checks of a decision, as the code runs them. *)
Definition guards s db t (r : AdjudicationRequest) (f : Finding) : AdjTx unit :=
  (if bool_decide (ar_decision r = HumanDecision.RETURN_FOR_REWORK)
   then require (bool_decide (fnd_status f = FindingStatus.PROPOSED))
          (Adj (InvalidTransitionError (value (fnd_status f)) (value (_DECISION_TARGET (ar_decision r)))))
   else require_transition (fnd_status f) (_DECISION_TARGET (ar_decision r))) ;;
  (if bool_decide (ar_decision r = HumanDecision.APPROVE)
   then require_approval_preconditions s db t f (ar_actor_id r)
   else mret tt).

Lemma guards_Ok s db t r f db1 u db2 :
  guards s db t r f db1 = Ok (u, db2) → db2 = db1 ∧ guard_holds s db t r f.
Proof.
  unfold guards, guard_holds, decision_edge. intros ([] & d & E1 & E2)%tx_bind_Ok.
  split.
  - transitivity d.
    + destruct (bool_decide (ar_decision r = HumanDecision.APPROVE));
        [by apply require_approval_preconditions_Ok in E2 as [-> _]|by apply tx_ret_Ok in E2 as [_ ->]].
    + destruct (bool_decide _); [by apply require_Ok in E1 as [_ ->]|by apply require_transition_Ok in E1 as [_ ->]].
  - split.
    + destruct (bool_decide_reflect (ar_decision r = HumanDecision.RETURN_FOR_REWORK)).
      * rewrite decide_True by done. by apply require_Ok in E1 as [?%bool_decide_eq_true _].
      * rewrite decide_False by done. by apply require_transition_Ok in E1 as [? _].
    + intros Ha. rewrite bool_decide_eq_true_2 in E2 by done.
      by apply require_approval_preconditions_Ok in E2 as [_ ?].
Qed.

Lemma guards_hold s db t r f db1 : guard_holds s db t r f → guards s db t r f db1 = Ok (tt, db1).
Proof.
  unfold guards, guard_holds, decision_edge. intros [He Hg].
  rewrite (tx_bind_step _ _ db1 tt db1).
  - case_bool_decide; [|done]. by apply preconditions_hold, Hg.
  - destruct (bool_decide_reflect (ar_decision r = HumanDecision.RETURN_FOR_REWORK)) as [Hr|Hr].
    + rewrite decide_True in He by done. unfold require. by rewrite bool_decide_eq_true_2.
    + rewrite decide_False in He by done. unfold require_transition, require.
      by rewrite bool_decide_eq_true_2.
Qed.

(** Nothing but a refusal stops a guard. *)
Definition refuses {A} (m : AdjTx A) : Prop := ∀ db e, m db = Err e → ∃ e', e = Adj e'.

Lemma refuses_require b e : refuses (require b (Adj e)).
Proof. intros db e'. unfold require. destruct b; [done|]. intros [= <-]. eauto. Qed.
Lemma refuses_ret {A} (x : A) : refuses (mret x).
Proof. intros db e'. done. Qed.
Lemma refuses_bind {A B} (m : AdjTx A) (f : A → AdjTx B) :
  refuses m → (∀ x, refuses (f x)) → refuses (m ≫= f).
Proof.
  intros Hm Hf db e. unfold mbind, tx_bind. destruct (m db) as [[x db']|e'] eqn:E; [apply Hf|].
  intros [= <-]. by apply (Hm db).
Qed.

Lemma guards_refuse s db t r f : refuses (guards s db t r f).
Proof.
  unfold guards, require_transition, require_approval_preconditions.
  repeat first [apply refuses_bind; [|intros ?] | apply refuses_require | apply refuses_ret | case_match].
Qed.

(** An adjudication refuses exactly when an agent asks, the finding is unknown, or
    the decision is not on record yet and its guard does not hold. *)
Definition refused s db t (r : AdjudicationRequest) : Prop :=
  is_agent s (ar_actor_id r) = true ∨ get_finding db t (ar_finding_id r) = None ∨
  ∃ f, get_finding db t (ar_finding_id r) = Some f ∧ replayed db t r f = false ∧
       ¬ guard_holds s db t r f.

(** What follows the checks. *)
Definition carry_out (t : string) (f : Finding) (r : AdjudicationRequest) : AdjTx FindingStatus :=
  let target := _DECISION_TARGET (ar_decision r) in
  save_finding (fid f) (set_fnd_status target) ;;
  decide_on t f ("human:" +:+ value (ar_decision r)) (ar_actor_id r) (ar_reason r) ;;
  emit t (Some (fnd_engagement_id (fspec f))) (fid f) ("finding." +:+ value (ar_decision r))
    [("finding_id", JStr (fid f)); ("code", JStr (fnd_code (fspec f)));
     ("status", JStr (value target)); ("actor_id", JStr (ar_actor_id r));
     ("reason", JStr (ar_reason r))]
    ("finding-decision:" +:+ ar_idempotency_key r) "finding" true ;;
  mret target.

Lemma never_carry_out e t f r : never (Adj e) (carry_out t f r).
Proof.
  unfold carry_out, save_finding.
  apply never_bind; [auto with tx|]. intros _.
  apply never_bind; [apply never_decide_on|]. intros _.
  apply never_bind; [apply never_emit|]. intros _. auto with tx.
Qed.

Lemma adjudicate_checks s t r db f :
  is_agent s (ar_actor_id r) = false → get_finding db t (ar_finding_id r) = Some f →
  replayed db t r f = false →
  adjudicate s t r db = (guards s db t r f ;; carry_out t f r) db.
Proof.
  intros Ha Hf Hr. unfold adjudicate. rewrite Ha.
  rewrite (tx_bind_step _ _ db tt db) by done.
  rewrite (tx_bind_step _ _ db db db) by done.
  rewrite (tx_bind_step _ _ db f db) by (unfold require_finding; by rewrite Hf).
  unfold replayed in Hr. rewrite Hr. unfold guards. by rewrite tx_bind_assoc.
Qed.

Lemma adjudicate_refused s t r db e : adjudicate s t r db = Err (Adj e) → refused s db t r.
Proof.
  intros E. unfold refused. destruct (is_agent s (ar_actor_id r)) eqn:Ha; [by left|right].
  destruct (get_finding db t (ar_finding_id r)) as [f|] eqn:Hf; [right|by left].
  exists f. split; [done|]. destruct (replayed db t r f) eqn:Hr.
  - by rewrite (adjudicate_replay s t r db f Ha Hf Hr) in E.
  - split; [done|]. intros Hg. rewrite (adjudicate_checks s t r db f) in E by done.
    rewrite (tx_bind_step _ _ db tt db) in E by by apply guards_hold.
    by apply never_carry_out in E.
Qed.

Lemma refused_adjudicate s t r db : refused s db t r → ∃ e, adjudicate s t r db = Err (Adj e).
Proof.
  destruct (is_agent s (ar_actor_id r)) eqn:Ha.
  { intros _. exists HumanGateError. unfold adjudicate. by rewrite Ha. }
  intros [?|[Hf|(f & Hf & Hr & Hg)]]; [congruence|..].
  - exists FindingNotFoundError. unfold adjudicate. rewrite Ha.
    rewrite (tx_bind_step _ _ db tt db) by done. rewrite (tx_bind_step _ _ db db db) by done.
    unfold require_finding. by rewrite Hf.
  - rewrite (adjudicate_checks s t r db f) by done.
    destruct (guards s db t r f db) as [[u db2]|e] eqn:E.
    + by apply guards_Ok in E as [_ ?].
    + destruct (guards_refuse s db t r f db e E) as [e' ->]. exists e'.
      unfold mbind, tx_bind. by rewrite E.
Qed.

(** ** Rereading a finding a move rewrote *)

Lemma get_finding_update db db' t i g :
  (∀ f, fspec (g f) = fspec f) → findings db' = update_row fid i g (findings db) →
  get_finding db' t i = g <$> get_finding db t i.
Proof.
  intros Hg E. unfold get_finding. rewrite E. apply scalar_update_row; [tauto|].
  intros f. unfold fid. by rewrite Hg.
Qed.

(** ** An assessment only raises the severity *)

Lemma assess_severity t r db a db' :
  assess_materiality t r db = Ok (a, db') →
  ∃ f v, get_finding db t (mr_finding_id r) = Some f ∧
    get_finding db' t (mr_finding_id r) = Some (set_severity v f) ∧
    severity_rank v = Z.max (severity_rank (severity f)) (severity_rank (mat_severity_floor a)) ∧
    mat_content_hash a = _content_hash (set_severity v f) ∧
    materiality_assessments db' = materiality_assessments db ++ [a].
Proof.
  unfold assess_materiality. intros E. do 3 adj_step E.
  match goal with HH : get_finding db t _ = Some ?x |- _ => rename HH into Hf; rename x into f end.
  destruct (get_finding_Some _ _ _ _ Hf) as (_ & _ & Hid).
  apply tx_bind_Ok in E as ([] & db1 & E1 & E). set (fl := res_severity_floor _) in *.
  exists f, (if severity_rank (severity f) <? severity_rank fl then fl else severity f).
  destruct (Z.ltb_spec (severity_rank (severity f)) (severity_rank fl)) as [Hlt|Hge];
    adj_inv E1; adj_steps E; adj_cbn; (split; [done|]).
  - rewrite (get_finding_update db _ t _ (set_severity fl)) by (try done; cbn; by rewrite Hid).
    rewrite Hf. unfold assessment_row. cbn [mat_severity_floor mat_content_hash]. fold fl. split_and!; [done|lia|done..].
  - change (get_finding _ t (mr_finding_id r)) with (get_finding db t (mr_finding_id r)).
    rewrite Hf. unfold assessment_row. cbn [mat_severity_floor mat_content_hash]. fold fl. split_and!; [by destruct f|lia|by destruct f|done].
Qed.

(** ** An accepted adjudication, and an accepted retest *)

Lemma adjudicate_outcome s t r db st db' :
  adjudicate s t r db = Ok (st, db') →
  is_agent s (ar_actor_id r) = false ∧
  ∃ f, get_finding db t (ar_finding_id r) = Some f ∧
    if replayed db t r f then st = fnd_status f ∧ db' = db
    else guard_holds s db t r f ∧ st = _DECISION_TARGET (ar_decision r) ∧
         get_finding db' t (ar_finding_id r) = Some (set_fnd_status st f) ∧
         ∃ d, approval_decisions db' = approval_decisions db ++ [d] ∧
           decided s t f ("human:" +:+ value (ar_decision r)) (ar_actor_id r) d.
Proof.
  intros E. destruct (is_agent s (ar_actor_id r)) eqn:Ha.
  { destruct (refused_adjudicate s t r db) as [e E']; [by left|congruence]. }
  split; [done|]. destruct (get_finding db t (ar_finding_id r)) as [f|] eqn:Hf.
  2:{ destruct (refused_adjudicate s t r db) as [e E']; [by right; left|congruence]. }
  exists f. split; [done|]. destruct (replayed db t r f) eqn:Hr.
  { rewrite (adjudicate_replay s t r db f) in E by done. by injection E as <- <-. }
  rewrite (adjudicate_checks s t r db f) in E by done.
  apply tx_bind_Ok in E as (u & db1 & [-> Hg]%guards_Ok & E). unfold carry_out in E.
  destruct (get_finding_Some _ _ _ _ Hf) as (_ & _ & Hid). adj_steps E.
  split_and!; [done..| |].
  - rewrite (get_finding_update db _ t _ (set_fnd_status (_DECISION_TARGET (ar_decision r))));
      [by rewrite Hf|done|cbn; by rewrite Hid].
  - eexists. split; [done|]. by split.
Qed.

Lemma retest_outcome t r db x db' :
  retest t r db = Ok (x, db') →
  ∃ a f, get_action db t (rt_action_id r) = Some a ∧
    get_finding db t (act_finding_id (aspec a)) = Some f ∧ independent f a (rt_performed_by r) ∧
    ((∃ p, p ∈ retests db ∧ rts_action_id p = aid a ∧
        rts_idempotency_key p = rt_idempotency_key r ∧ snd x = fnd_status f ∧ db' = db) ∨
     fnd_status f = FindingStatus.REMEDIATION_DECLARED_COMPLETE ∧
     (closes (rt_outcome r) = true → rt_evidence_ids r ≠ []) ∧
     snd x = (if closes (rt_outcome r) then FindingStatus.CLOSED_VERIFIED else FindingStatus.REOPENED) ∧
     get_finding db' t (act_finding_id (aspec a)) = Some (set_fnd_status (snd x) f)).
Proof.
  unfold retest. intros E. do 3 adj_step E.
  match goal with HH : get_action db t _ = Some ?y |- _ => rename HH into Ha; rename y into a end.
  match goal with HH : get_finding db t _ = Some ?y |- _ => rename HH into Hf; rename y into f end.
  apply tx_bind_Ok in E as ([] & db1 & [-> Hi]%independence_Ok & E).
  exists a, f. split_and!; [done..|]. destruct (get_finding_Some _ _ _ _ Hf) as (_ & _ & Hid).
  destruct (scalar _) as [p|] eqn:Ep.
  { left. exists p. apply scalar_filter_Some in Ep as [Hp Hk]. unfold retests_of in Hp.
    rewrite elem_of_sort_by, list_elem_of_filter in Hp. apply tx_ret_Ok in E as [-> ->]. cbn. tauto. }
  right. adj_step E. apply tx_bind_Ok in E as ([] & db1 & [He ->]%require_Ok & E).
  adj_steps E. split_and!.
  - destruct (fnd_status f); try done; cbn in *; set_solver.
  - intros Hc Hn. by rewrite Hc, Hn in He.
  - done.
  - rewrite (get_finding_update db _ t _ (set_fnd_status
      (if closes (rt_outcome r) then FindingStatus.CLOSED_VERIFIED else FindingStatus.REOPENED)));
      [by rewrite Hf|done|cbn; by rewrite Hid].
Qed.
End behaviour.
