(* ===== verification/AdjScenario.v ===== *)
(** * Adjudication: a worked history

    A finding that is proposed, assessed, reviewed, approved, remediated and closed,
    and the histories on which the life-cycle does not do what its documentation
    says, evaluated by the kernel.  Identifiers count the draws and the digest is
    the text it digests. *)

From S2P Require Import Prelude Tables PyFloat PyTime Ledger PyText Materiality Quality AdjDefs Skeptic.
From S2P Require Import AdjStore Adjudication Ticketing AdjMachine AdjRefinement AdjInvariants.
Local Open Scope Z_scope.

#[export] Existing Instance counting_ids.
#[export] Instance plain_digest : Sha256 := λ text, text.

Definition svc : AdjudicationService := default_service.

Fixpoint adj_history (ops : list adj_operation) (db : AdjDb) : Res AdjDb :=
  match ops with
  | [] => Ok db
  | o :: ops => match perform svc o db with Ok (_, db') => adj_history ops db' | Err e => Err e end
  end.

Definition first_db : AdjDb := initial ["t1"] ["eng"] (empty_ledger 1786000000000000).
Definition state_after (ops : list adj_operation) : AdjDb :=
  match adj_history ops first_db with Ok db => db | Err _ => first_db end.

Lemma adj_history_reachable ops db db' :
  adj_reachable svc db → adj_history ops db = Ok db' → adj_reachable svc db'.
Proof.
  revert db. induction ops as [|o ops IH]; intros db Hr E; cbn in E; [by injection E as <-|].
  destruct (perform svc o db) as [[[] db1]|] eqn:E1; [|done]. eapply IH; [|done].
  by eapply adj_reachable_perform.
Qed.

Lemma state_reachable ops : adj_reachable svc (state_after ops).
Proof.
  unfold state_after. destruct (adj_history ops first_db) as [db|] eqn:E; [|constructor].
  eapply adj_history_reachable; [constructor|exact E].
Qed.

Definition sample_finding : ProposedFinding :=
  mkProposedFinding "AC-001" "Leavers keep access" "low" (dec 9 1)
    "Access is removed within one day" "Two accounts were active after leaving"
    "Unauthorised access" None None None ["ev-1"] ["ex-1"; "ex-2"] [] [] None.
Definition repeat_factor : FactorAssertion :=
  mkFactorAssertion QualitativeFactor.REPEAT_FINDING "raised last year" ["ev-2"].
Definition fraud_factor : FactorAssertion :=
  mkFactorAssertion QualitativeFactor.FRAUD_INDICATOR "altered log" ["ev-3"].
Definition sample_inputs : MaterialityInputs := mkMaterialityInputs 40 3 None [repeat_factor].

Definition proposing : adj_operation := Propose "t1" "eng" sample_finding "agent:tester" None [].
Definition assessing (fs : list FactorAssertion) : adj_operation :=
  AssessMateriality "t1" (mkMaterialityRequest "fnd_0" (mkMaterialityInputs 40 3 None fs) None "agent:tester").
Definition reviewing : adj_operation :=
  ReviewQuality "t1" (mkQualityReviewRequest "fnd_0" "ann" None).
Definition deciding (d : HumanDecision) (actor key : string) : adj_operation :=
  Adjudicate "t1" (mkAdjudicationRequest "fnd_0" d actor "considered" key).
Definition disputing : adj_operation :=
  RaiseDispute "t1" (mkDisputeRequest "fnd_0" DisputeGround.SEVERITY_OVERSTATED
    "the accounts were dormant" "mgr" []).
Definition resolving (id : string) (r : DisputeResolution) : adj_operation :=
  ResolveDispute "t1" (mkDisputeResolutionRequest id r "reconsidered by the panel" "eve").
Definition remediation : RemediationRequest :=
  mkRemediationRequest "fnd_0" "it-ops" 739500 "disable accounts" "plan-1" true [] "none" None.

Definition reviewed_ops : list adj_operation := [proposing; assessing [repeat_factor]; reviewing].
Definition approved_ops : list adj_operation :=
  reviewed_ops ++ [deciding HumanDecision.APPROVE "bob" "key-1"].
Definition open_ops : list adj_operation := approved_ops ++ [OpenRemediation "t1" remediation].

Definition reviewed_db : AdjDb := state_after reviewed_ops.
Definition approved_db : AdjDb := state_after approved_ops.
Definition open_db : AdjDb := state_after open_ops.

Definition closure : ClosureSubmission :=
  mkClosureSubmission "rma_12" "accounts disabled" "carol" ["ev-4"] None.
Definition retesting (by_ key : string) (o : RetestOutcome) (evidence : list string) : RetestRequest :=
  mkRetestRequest "rma_12" "AC-001-R" by_ key o evidence "" None.

Definition declared_ops : list adj_operation := open_ops ++ [SubmitClosure "t1" closure].
Definition closed_ops : list adj_operation :=
  declared_ops ++ [RunRetest "t1" (retesting "dave" "rt-1" RetestOutcome.CLOSED_VERIFIED ["ev-5"])].
Definition reopened_ops : list adj_operation :=
  declared_ops ++ [RunRetest "t1" (retesting "dave" "rt-1" RetestOutcome.INEFFECTIVE [])].
Definition declared_db : AdjDb := state_after declared_ops.
Definition closed_db : AdjDb := state_after closed_ops.
Definition reopened_db : AdjDb := state_after reopened_ops.

(** A disputed finding is rejected, and the dispute is answered afterwards. *)
Definition disputed_ops : list adj_operation := approved_ops ++ [disputing].
Definition rejected_ops : list adj_operation :=
  disputed_ops ++ [deciding HumanDecision.REJECT "bob" "key-2"].
Definition disputed_db : AdjDb := state_after disputed_ops.
Definition rejected_db : AdjDb := state_after rejected_ops.

(** An approved finding is disputed and sent back to be modified. *)
Definition modified_ops : list adj_operation :=
  disputed_ops ++ [resolving "dsp_12" DisputeResolution.MODIFIED].
Definition modified_db : AdjDb := state_after modified_ops.

(** An approved finding is assessed again. *)
Definition escalated_ops : list adj_operation := approved_ops ++ [assessing [fraud_factor]].
Definition escalated_db : AdjDb := state_after escalated_ops.

(** The one finding of the example. *)
Definition blank_finding : Finding :=
  mkFinding (mkFindingSpec "" "" "" "" 0 "" zero None "" "" "" None None [] [] false [] [] [] None None
               None None 0) FindingStatus.PROPOSED "".
Definition the_finding (db : AdjDb) : Finding := default blank_finding (get_finding db "t1" "fnd_0").

Example statuses :
  map (λ db, (fnd_status (the_finding db), severity (the_finding db)))
    [reviewed_db; approved_db; open_db; declared_db; closed_db; reopened_db; disputed_db;
     rejected_db; modified_db; escalated_db] =
  [(FindingStatus.PROPOSED, "medium"); (FindingStatus.APPROVED, "medium");
   (FindingStatus.REMEDIATION_OPEN, "medium");
   (FindingStatus.REMEDIATION_DECLARED_COMPLETE, "medium");
   (FindingStatus.CLOSED_VERIFIED, "medium"); (FindingStatus.REOPENED, "medium");
   (FindingStatus.DISPUTED, "medium"); (FindingStatus.REJECTED, "medium");
   (FindingStatus.PROPOSED, "medium"); (FindingStatus.APPROVED, "critical")].
Proof. vm_compute. reflexivity. Qed.
