(* ===== verification/AdjProperties.v ===== *)
(** * Adjudication: the properties

    The statements the adjudication of findings is relied on for, each about every
    state a history of its operations reaches or every call of an operation, and
    each applied once to the worked history of AdjScenario.v. *)

From S2P Require Import Prelude Tables PyFloat PyTime Ledger PyText Materiality Quality AdjDefs Skeptic.
From S2P Require Import AdjStore Adjudication Ticketing AdjMachine AdjRefinement AdjInvariants.
From S2P Require Import AdjBehaviour AdjScenario.
Local Open Scope Z_scope.

Section properties.
Context `{UuidSource} `{Sha256}.

(** C31: every operation of the adjudication service that commits is one guarded move of
    the abstract life-cycle, recorded in the audit ledger in the same transaction, or
    changes nothing. *)
Theorem adjudication_refines_lifecycle (s : AdjudicationService) (o : adj_operation) (db db' : AdjDb) :
  perform s o db = Ok (tt, db') → db' = db ∨ lifecycle s db db'.
Proof. apply perform_moves. Qed.


(** C33: a closed finding has a remediation action with a retest
    that closes it, cites evidence, and was performed by someone who is neither
    the author of the finding, nor the owner of the action, nor who declared it
    complete. *)
Theorem closed_means_verified (s : AdjudicationService) (db : AdjDb) (f : Finding) :
  adj_reachable s db → f ∈ findings db → fnd_status f = FindingStatus.CLOSED_VERIFIED →
  verified db f.
Proof. intros Hr Hf Hc. by apply (closure_inv_reachable s db Hr). Qed.

(** An operation keeps every finding with its content, and
    moves its status only along the transition table (a retest along two of its
    edges at once), or out of REJECTED when it answers the dispute the finding was
    rejected under. *)
Theorem statuses_follow_table (s : AdjudicationService) (o : adj_operation) (db db' : AdjDb) (f : Finding) :
  adj_reachable s db → perform s o db = Ok (tt, db') → f ∈ findings db →
  ∃ f', f' ∈ findings db' ∧ fspec f' = fspec f ∧ status_edge (fnd_status f) (fnd_status f').
Proof. intros Hr%dispute_inv_reachable E Hf. by eapply moves_status. Qed.

(** the disputes of a finding have distinct rows in its own tenant,
    at most one is open, and while one is open the finding is disputed or
    rejected. *)
Theorem one_dispute_pins (s : AdjudicationService) (db : AdjDb) :
  adj_reachable s db → one_open db ∧ pinned db ∧
  NoDup (map did (finding_disputes db)) ∧
  ∀ d, d ∈ finding_disputes db → owned db (dsp_tenant_id (dspec d)) (dsp_finding_id (dspec d)).
Proof. intros ([] & ? & ?)%dispute_inv_reachable. by split_and!. Qed.


(** a retest is accepted only from someone independent of the work; a
    repeated request returns the first answer and changes nothing, and a new one
    needs the action declared complete, evidence when it closes, and leaves the
    finding closed or reopened as its outcome says. *)
Theorem retest_exact (t : string) (r : RetestRequest) (db : AdjDb) x db' :
  retest t r db = Ok (x, db') →
  ∃ a f, get_action db t (rt_action_id r) = Some a ∧
    get_finding db t (act_finding_id (aspec a)) = Some f ∧ independent f a (rt_performed_by r) ∧
    ((∃ p, p ∈ retests db ∧ rts_action_id p = aid a ∧
        rts_idempotency_key p = rt_idempotency_key r ∧ snd x = fnd_status f ∧ db' = db) ∨
     fnd_status f = FindingStatus.REMEDIATION_DECLARED_COMPLETE ∧
     (closes (rt_outcome r) = true → rt_evidence_ids r ≠ []) ∧
     snd x = (if closes (rt_outcome r) then FindingStatus.CLOSED_VERIFIED else FindingStatus.REOPENED) ∧
     get_finding db' t (act_finding_id (aspec a)) = Some (set_fnd_status (snd x) f)).
Proof. apply retest_outcome. Qed.

(** An operation that changes anything appends exactly one event to
    the audit stream of the finding's tenant, in sequence, and hands the same event
    to the outbox in the same transaction; what stays out of the outbox changes no
    finding, decision, dispute or retest. *)
Theorem every_move_recorded (s : AdjudicationService) (o : adj_operation) (db db' : AdjDb) :
  perform s o db = Ok (tt, db') →
  db' = db ∨ ∃ e published, recorded (adj_ledger db) (adj_ledger db') e published ∧
    (published = false → findings db' = findings db ∧
       approval_decisions db' = approval_decisions db ∧
       finding_disputes db' = finding_disputes db ∧ retests db' = retests db).
Proof.
  intros [->|Hl]%perform_moves; [by left|right].
  destruct Hl; adj_cbn; do 2 eexists; (split; [eassumption|]); done.
Qed.

(** A committed assessment leaves the finding, apart from its
    severity, as it was, and its severity is the higher of what it was and of the
    computed floor; the assessment is bound to the text with that severity. *)
Theorem assess_never_lowers (t : string) (r : MaterialityRequest) (db : AdjDb) a db' :
  assess_materiality t r db = Ok (a, db') →
  ∃ f v, get_finding db t (mr_finding_id r) = Some f ∧
    get_finding db' t (mr_finding_id r) = Some (set_severity v f) ∧
    severity_rank v = Z.max (severity_rank (severity f)) (severity_rank (mat_severity_floor a)) ∧
    mat_content_hash a = _content_hash (set_severity v f) ∧
    materiality_assessments db' = materiality_assessments db ++ [a].
Proof. apply assess_severity. Qed.

(** the digest reviews and assessments are bound to is the same for
    two findings exactly when they agree on the code, the title, the severity, the
    criteria, the condition and the risk, and cite the same evidence and exceptions
    up to order, provided SHA-256 does not collide. *)
Theorem content_digest_binds (f f' : Finding) :
  Inj (=) (=) sha256_hex →
  _content_hash f = _content_hash f' ↔
  fnd_code (fspec f) = fnd_code (fspec f') ∧ fnd_title (fspec f) = fnd_title (fspec f') ∧
  severity f = severity f' ∧ criteria (fspec f) = criteria (fspec f') ∧
  observed_condition (fspec f) = observed_condition (fspec f') ∧
  risk_statement (fspec f) = risk_statement (fspec f') ∧
  evidence_ids_json (fspec f) ≡ₚ evidence_ids_json (fspec f') ∧
  exception_keys_json (fspec f) ≡ₚ exception_keys_json (fspec f').
Proof.
  intros Hinj. unfold _content_hash, content_hash. split.
  - intros E%Hinj%content_text_inj. tauto.
  - intros (-> & -> & -> & -> & -> & -> & Hev & Hex). unfold content_text.
    by rewrite (sort_strings_Permutation _ _ Hev), (sort_strings_Permutation _ _ Hex).
Qed.
End properties.

(** The score is at least each of its terms, as far as they are numbers. *)
Definition dominates (i : MaterialityInputs) (p : MaterialityPolicy) (q m s : float) : Prop :=
  is_nan s = false ∧ fleb q s = true ∧ (is_nan m = false → fleb m s = true) ∧
  (is_nan (qualitative_term i p) = false → fleb (qualitative_term i p) s = true) ∧
  (s = q ∨ s = m ∨ s = qualitative_term i p).

(** The highest band the score reaches. *)
Definition highest_band (bands : list (float * string)) (s : float) (name : string) : Prop :=
  (∃ t, (t, name) ∈ bands ∧ fleb t s = true ∧
     ∀ b, b ∈ bands → fleb (fst b) s = true → fleb (fst b) t = true) ∨
  (name = "low" ∧ ∀ b, b ∈ bands → fleb (fst b) s = false).

Lemma severity_floor_highest p s :
  bands_must_descend p = true → (∀ b, b ∈ severity_bands p → is_nan (fst b) = false) →
  highest_band (severity_bands p) s (severity_floor (severity_bands p) s).
Proof.
  intros [Hd _]%andb_true_iff Hn.
  destruct (severity_floor_spec (severity_bands p) s) as [(l1 & t & l2 & E & Ht & Hl)|?]; [left|by right].
  set (n := severity_floor _ s) in *. clearbody n. exists t. rewrite E in *.
  rewrite map_app in Hd. apply descending_app in Hd.
  split; [apply elem_of_app; right; left|]. split; [done|].
  intros b [Hb|[->|Hb]%elem_of_cons]%elem_of_app Hr.
  - by rewrite Hl in Hr.
  - apply fleb_refl, (Hn (t, n)). apply elem_of_app. right. left.
  - apply (descending_head t (map fst l2)); [exact Hd| |by apply list_elem_of_fmap_2].
    intros y Hy. change (t :: map fst l2) with (map fst ((t, n) :: l2)) in Hy.
    apply list_elem_of_fmap in Hy as (b' & -> & Hb'). apply Hn, elem_of_app. by right.
Qed.

(** C35: On inputs and a policy pydantic accepts, where no threshold of the policy's
    severity bands is NaN (pydantic and the check that they descend let one through), an
    assessment always returns; its score is one of its three terms and at least each of
    them, never NaN; the finding is material exactly when the score reaches one, and the
    severity floor is the highest band of the policy the score reaches, or low. *)
Theorem assessment_exact (i : MaterialityInputs) (p : MaterialityPolicy) :
  MaterialityPolicy_valid p = true → MaterialityInputs_valid i = true →
  (∀ b, b ∈ severity_bands p → is_nan (fst b) = false) →
  ∃ q m s r, assess i (Some p) = Ok r ∧ assessed i p q m s r ∧ dominates i p q m s ∧
    (res_material r = true ↔ fleb one s = true) ∧
    highest_band (severity_bands p) s (res_severity_floor r).
Proof.
  intros Hp Hi Hb. destruct (assess_valid i p Hp Hi) as (q & m & s & r & E & Ha & Hq%nonneg_not_nan).
  apply MaterialityPolicy_valid_threshold in Hp as (_ & _ & Hd).
  exists q, m, s, r. destruct Ha as [H1 H2 -> H4 H5 H6 H7]. split_and!; [done|by split| |by rewrite H5|].
  - pose proof (fmax_keeps_number q m Hq) as Hqm.
    pose proof (fmax_keeps_number _ (qualitative_term i p) Hqm) as Hs.
    pose proof (fmax_ge_left _ (qualitative_term i p) Hqm) as Hl. split_and!; [done|..].
    + eapply fleb_trans; [..|exact Hl]; [done..|by apply fmax_ge_left].
    + intros Hm. eapply fleb_trans; [..|exact Hl]; [done..|by apply fmax_ge_right].
    + by apply fmax_ge_right.
    + unfold fmax. repeat case_match; auto.
  - rewrite H6. by apply severity_floor_highest.
Qed.

Lemma nonempty_spec {A} (l : list A) : nonempty l = true ↔ l ≠ [].
Proof. by destruct l. Qed.

Lemma severity_check_spec severity m :
  fst (severity_check severity m) = true ↔
  ∃ d, m = Some d ∧ (truthy_json (get "override_severity" d) = true ∨
    severity_rank (py_str (default (JStr "low") (dict_get "severity_floor" d))) ≤ severity_rank severity).
Proof.
  destruct m as [d|]; cbn [severity_check fst]; [|naive_solver].
  rewrite orb_true_iff, Z.leb_le. naive_solver.
Qed.

Lemma independent_check_spec reviewer author :
  fst (independent_check reviewer author) = true ↔
  ∃ a, author = Some a ∧ a ≠ "" ∧ identity reviewer ≠ identity a.
Proof.
  unfold independent_check, truthy. destruct author as [a|]; cbn [fst default]; [|naive_solver].
  rewrite andb_true_iff, !negb_true_iff, !bool_decide_eq_false. naive_solver.
Qed.

Lemma disclosed_spec {A B} (found : list A) (limitations : list B) :
  negb (nonempty found && negb (nonempty limitations)) = true ↔ (found ≠ [] → limitations ≠ []).
Proof. destruct found, limitations; naive_solver. Qed.

(** a review returns unless the detail of one of its checks is longer
    than pydantic allows, and then raises the ValueError; it passes exactly when
    each of the nine conditions holds. *)
Theorem quality_review_exact reviewer author severity evidence found keys criteria condition limitations m ran h :
  let checks := check_list reviewer author severity evidence found keys criteria condition limitations m ran in
  let o := evaluate reviewer author severity evidence found keys criteria condition limitations m ran h in
  (Forall fits checks ∧ ∃ out, o = Ok out ∧ outcome_content_hash out = h ∧
     (outcome_passed out = true ↔
        evidence ≠ [] ∧ ran = true ∧ stated criteria = true ∧ stated condition = true ∧
        (∃ d, m = Some d ∧ (truthy_json (get "override_severity" d) = true ∨
           severity_rank (py_str (default (JStr "low") (dict_get "severity_floor" d))) ≤ severity_rank severity)) ∧
        (found ≠ [] → limitations ≠ []) ∧
        (∃ a, author = Some a ∧ a ≠ "" ∧ identity reviewer ≠ identity a))) ∨
  (¬ Forall fits checks ∧ o = Err (Py ValueError)).
Proof.
  intros checks o. unfold o, evaluate.
  destruct (check_results_spec checks) as [[HF E]|[HF E]]; fold checks; rewrite E; [left|by right].
  split; [done|]. eexists. split; [done|]. split; [done|]. cbn [outcome_passed].
  unfold checks, check_list. cbn [map forallb passed fst snd].
  rewrite !andb_true_iff, orb_true_iff, severity_check_spec, independent_check_spec, !nonempty_spec,
    disclosed_spec.
  assert (Hm : ∀ P : dict → Prop, (∃ d, m = Some d ∧ P d) →
    match m with Some _ => true | None => false end = true) by (by intros P (d & -> & _)).
  split; [tauto|]. intros (H1 & H2 & H3 & H4 & H5 & H6 & H7). pose proof (Hm _ H5). tauto.
Qed.

(** a proposal always leaves a record: a finding for a person to
    adjudicate exactly when nothing was tested against it, or when its code is new
    and some exception behind it is explained by no canonical record; and otherwise
    a rejected finding with the skeptic's decision and reason beside it. *)
Theorem proposal_challenged `{UuidSource} t g f author sk rows db x db' :
  propose t g f author sk rows db = Ok (x, db') →
  let s := default default_skeptic sk in
  ∃ f' ds, findings db' = findings db ++ [f'] ∧ fid f' = fst x ∧
    approval_decisions db' = approval_decisions db ++ ds ∧
    ((rows = [] ∨ ((pf_code f ∉ existing_codes s) ∧ ∃ row, unexplained s rows row)) →
       fnd_status f' = FindingStatus.PROPOSED ∧ ds = []) ∧
    (¬ (rows = [] ∨ ((pf_code f ∉ existing_codes s) ∧ ∃ row, unexplained s rows row)) →
       fnd_status f' = FindingStatus.REJECTED ∧
       ∃ d, ds = [d] ∧ decision_type d = "skeptic_reject" ∧ apd_finding_id d = fid f' ∧
         apd_reason d = rejection_reason (snd x)).
Proof.
  unfold propose. intros E. cbv zeta.
  apply tx_bind_Ok in E as (v & db1 & [Hv ->]%from_res_Ok & E).
  pose proof (verdict_supported _ _ _ _ Hv) as Hs. clear Hv.
  destruct (supported v) eqn:Ev; adj_steps E; adj_cbn.
  - eexists _, []. split; [done|]. rewrite app_nil_r. cbn [proposed_row fnd_status]. rewrite Ev.
    split_and!; [done..|]. intros Hn. destruct Hn. by apply Hs.
  - eexists _, [d]. split; [done|]. cbn [proposed_row fnd_status]. rewrite Ev. split_and!; [done..| |].
    + intros Hu. by apply Hs in Hu.
    + intros _. split; [done|]. exists d. by split_and!.
Qed.

(** ** Each property at the worked history *)

Definition approving : adj_operation := deciding HumanDecision.APPROVE "bob" "key-1".
Definition approval : AdjudicationRequest :=
  mkAdjudicationRequest "fnd_0" HumanDecision.APPROVE "bob" "considered" "key-1".
Definition dave_retests : RetestRequest :=
  retesting "dave" "rt-1" RetestOutcome.CLOSED_VERIFIED ["ev-5"].
Definition assessment : MaterialityRequest :=
  mkMaterialityRequest "fnd_0" (mkMaterialityInputs 40 3 None [fraud_factor]) None "agent:tester".

Lemma approving_commits : perform svc approving reviewed_db = Ok (tt, approved_db).
Proof. vm_compute. reflexivity. Qed.

Lemma the_finding_in db : get_finding db "t1" "fnd_0" ≠ None → the_finding db ∈ findings db.
Proof.
  unfold the_finding. destruct (get_finding db "t1" "fnd_0") as [f|] eqn:E; [|done].
  intros _. by apply (get_finding_in db "t1" "fnd_0").
Qed.

Lemma adjudication_refines_lifecycle_witness :
  perform svc approving reviewed_db = Ok (tt, approved_db) ∧
  (approved_db = reviewed_db ∨ lifecycle svc reviewed_db approved_db).
Proof.
  split; [apply approving_commits|].
  apply (adjudication_refines_lifecycle svc approving). apply approving_commits.
Defined.


Lemma closed_means_verified_witness :
  fnd_status (the_finding closed_db) = FindingStatus.CLOSED_VERIFIED ∧
  verified closed_db (the_finding closed_db).
Proof.
  split; [by vm_compute|]. apply (closed_means_verified svc).
  - apply state_reachable.
  - apply the_finding_in. by vm_compute.
  - by vm_compute.
Defined.

Lemma statuses_follow_table_witness :
  ∃ f', f' ∈ findings approved_db ∧ fspec f' = fspec (the_finding reviewed_db) ∧
    status_edge FindingStatus.PROPOSED (fnd_status f').
Proof.
  apply (statuses_follow_table svc approving reviewed_db approved_db (the_finding reviewed_db)).
  - apply state_reachable.
  - apply approving_commits.
  - apply the_finding_in. by vm_compute.
Defined.

Lemma one_dispute_pins_witness :
  length (finding_disputes disputed_db) = 1%nat ∧ one_open disputed_db ∧ pinned disputed_db.
Proof.
  split; [by vm_compute|].
  destruct (one_dispute_pins svc disputed_db) as (H1 & H2 & _); [apply state_reachable|by split].
Defined.

Lemma retest_exact_witness :
  ∃ x db', retest "t1" dave_retests declared_db = Ok (x, db') ∧
    ∃ a f, get_action declared_db "t1" "rma_12" = Some a ∧
      get_finding declared_db "t1" (act_finding_id (aspec a)) = Some f ∧ independent f a "dave" ∧
      snd x = FindingStatus.CLOSED_VERIFIED.
Proof.
  destruct (after_run_Ok (retest "t1" dave_retests) declared_db) as [x E]; [by vm_compute|].
  exists x. eexists. split; [exact E|].
  destruct (retest_exact _ _ _ _ _ E) as (a & f & Ha & Hf & Hi & [(p & Hp & _)|(_ & _ & Hx & _)]);
    [exfalso; vm_compute in Hp; exact (not_elem_of_nil _ Hp)|]. exists a, f. split_and!; assumption.
Defined.

Lemma every_move_recorded_witness :
  approved_db = reviewed_db ∨ ∃ e published,
    recorded (adj_ledger reviewed_db) (adj_ledger approved_db) e published ∧
    (published = false → findings approved_db = findings reviewed_db ∧
       approval_decisions approved_db = approval_decisions reviewed_db ∧
       finding_disputes approved_db = finding_disputes reviewed_db ∧
       retests approved_db = retests reviewed_db).
Proof. apply (every_move_recorded svc approving). apply approving_commits. Defined.

Lemma assess_never_lowers_witness :
  ∃ a db', assess_materiality "t1" assessment approved_db = Ok (a, db') ∧
    ∃ f v, get_finding approved_db "t1" "fnd_0" = Some f ∧
      get_finding db' "t1" "fnd_0" = Some (set_severity v f) ∧
      severity_rank v = Z.max (severity_rank (severity f)) (severity_rank (mat_severity_floor a)).
Proof.
  destruct (after_run_Ok (assess_materiality "t1" assessment) approved_db) as [a E]; [by vm_compute|].
  exists a. eexists. split; [exact E|].
  destruct (assess_never_lowers _ _ _ _ _ E) as (f & v & H1 & H2 & H3 & _). exists f, v. split_and!; assumption.
Defined.

Lemma content_digest_binds_witness :
  _content_hash (the_finding approved_db) = _content_hash (the_finding reviewed_db) ∧
  severity (the_finding approved_db) = severity (the_finding reviewed_db).
Proof.
  assert (E : _content_hash (the_finding approved_db) = _content_hash (the_finding reviewed_db))
    by (by vm_compute).
  assert (Hinj : Inj (=) (=) (sha256_hex (Sha256:=plain_digest))) by (by intros x y).
  split; [exact E|].
  exact (proj1 (proj2 (proj2 (proj1
    (content_digest_binds (the_finding approved_db) (the_finding reviewed_db) Hinj) E)))).
Defined.

Lemma assessment_exact_witness :
  ∃ q m s r, assess sample_inputs (Some default_policy) = Ok r ∧
    assessed sample_inputs default_policy q m s r ∧ dominates sample_inputs default_policy q m s ∧
    (res_material r = true ↔ fleb one s = true) ∧
    highest_band (severity_bands default_policy) s (res_severity_floor r).
Proof.
  apply assessment_exact; [by vm_compute..|].
  intros b Hb. repeat (apply elem_of_cons in Hb as [->|Hb]; [by vm_compute|]). by apply elem_of_nil in Hb.
Defined.

Lemma proposal_challenged_witness :
  ∃ x db', propose "t1" "eng" sample_finding "agent:tester" None [] first_db = Ok (x, db') ∧
    ∃ f', findings db' = [f'] ∧ fid f' = fst x ∧ fnd_status f' = FindingStatus.PROPOSED.
Proof.
  destruct (after_run_Ok (propose "t1" "eng" sample_finding "agent:tester" None []) first_db) as [x E]; [by vm_compute|].
  exists x. eexists. split; [exact E|].
  destruct (proposal_challenged _ _ _ _ _ _ _ _ _ E) as (f' & ds & H1 & H2 & _ & H4 & _).
  exists f'. split; [exact H1|]. split; [exact H2|]. apply H4. left. reflexivity.
Defined.

(** ** Where the code departs from what it documents *)

(** A finding rejected while a dispute is open goes back to
    PROPOSED when the dispute is answered, although nothing leaves REJECTED in the
    transition table. *)
Theorem rejected_finding_revived :
  adj_reachable svc rejected_db ∧
  fnd_status (the_finding rejected_db) = FindingStatus.REJECTED ∧
  ALLOWED_TRANSITIONS FindingStatus.REJECTED = [] ∧
  ∃ db', perform svc (resolving "dsp_12" DisputeResolution.MODIFIED) rejected_db = Ok (tt, db') ∧
    fnd_status (the_finding db') = FindingStatus.PROPOSED.
Proof.
  split; [apply state_reachable|]. split; [by vm_compute|]. split; [done|].
  destruct (after_run_Ok (perform svc (resolving "dsp_12" DisputeResolution.MODIFIED)) rejected_db) as [[] E]; [by vm_compute|].
  eexists. split; [exact E|]. by vm_compute.
Qed.

(** The person who approved a finding before it was disputed and modified cannot
    approve it again, under any key: the second approval is taken for the first,
    and leaves the finding proposed. *)
Lemma reapproval_ignored :
  fnd_status (the_finding modified_db) = FindingStatus.PROPOSED ∧
  ∀ reason key, adjudicate svc "t1"
      (mkAdjudicationRequest "fnd_0" HumanDecision.APPROVE "bob" reason key) modified_db =
    Ok (FindingStatus.PROPOSED, modified_db).
Proof.
  split; [by vm_compute|]. intros reason key.
  destruct (get_finding modified_db "t1" "fnd_0") as [f|] eqn:Hf; [|vm_compute in Hf; discriminate Hf].
  assert (Hs : fnd_status f = FindingStatus.PROPOSED).
  { change (fnd_status (default blank_finding (Some f)) = FindingStatus.PROPOSED). rewrite <- Hf.
    by vm_compute. }
  rewrite <- Hs. apply adjudicate_replay; [by vm_compute|done|].
  assert (Hid : fid f = "fnd_0") by by destruct (get_finding_Some _ _ _ _ Hf) as (_ & _ & ?).
  unfold replayed. rewrite Hid. by vm_compute.
Qed.

(** An assessment of an approved finding may raise its severity; the finding stays
    approved while no passing review covers its current text. *)
Lemma escalation_keeps_approval :
  fnd_status (the_finding escalated_db) = FindingStatus.APPROVED ∧
  severity (the_finding approved_db) = "medium" ∧ severity (the_finding escalated_db) = "critical" ∧
  passing_review escalated_db "t1" "fnd_0" (_content_hash (the_finding escalated_db)) = None.
Proof. split_and!; by vm_compute. Qed.
