(* ===== verification/PortScoring.v ===== *)
(** * Portfolio: risk scoring

    portfolio/scoring.py: the declared inputs of a risk rating, the versioned
    policy, and the arithmetic that turns them into an inherent risk, a residual
    risk and an audit priority.  Everything is a function of its arguments; the
    constraints pydantic checks on the inputs are boolean predicates. *)

From S2P Require Import Prelude PyFloat PyFloatBounds PyTime Ledger PyText Materiality Quality.
Local Open Scope Z_scope.

Module AssuranceSource.
Inductive t :=
  | INTERNAL_AUDIT | EXTERNAL_AUDIT | CONTINUOUS_MONITOR | MANAGEMENT_TESTING
  | REGULATORY_EXAMINATION | NONE.
#[global] Instance eq_dec : EqDecision t.
Proof. solve_decision. Defined.
End AssuranceSource.
Abbreviation AssuranceSource := AssuranceSource.t.

Definition AssuranceSource_value (a : AssuranceSource) : string :=
  match a with
  | AssuranceSource.INTERNAL_AUDIT => "internal_audit"
  | AssuranceSource.EXTERNAL_AUDIT => "external_audit"
  | AssuranceSource.CONTINUOUS_MONITOR => "continuous_monitor"
  | AssuranceSource.MANAGEMENT_TESTING => "management_testing"
  | AssuranceSource.REGULATORY_EXAMINATION => "regulatory_examination"
  | AssuranceSource.NONE => "none"
  end.

#[export] Program Instance AssuranceSource_str : StrEnum AssuranceSource := {|
  value := AssuranceSource_value;
  members := [AssuranceSource.INTERNAL_AUDIT; AssuranceSource.EXTERNAL_AUDIT;
    AssuranceSource.CONTINUOUS_MONITOR; AssuranceSource.MANAGEMENT_TESTING;
    AssuranceSource.REGULATORY_EXAMINATION; AssuranceSource.NONE]
|}.
Solve Obligations with solve_str_enum.

Definition DEFAULT_RATING_BANDS : list (float * string) :=
  [(dec 75 2, "critical"); (dec 50 2, "high"); (dec 25 2, "medium")].

Definition DEFAULT_RELIANCE : list (AssuranceSource * float) :=
  [(AssuranceSource.INTERNAL_AUDIT, dec 80 2); (AssuranceSource.EXTERNAL_AUDIT, dec 70 2);
   (AssuranceSource.REGULATORY_EXAMINATION, dec 60 2);
   (AssuranceSource.CONTINUOUS_MONITOR, dec 50 2);
   (AssuranceSource.MANAGEMENT_TESTING, dec 25 2); (AssuranceSource.NONE, zero)].

(** [Field(ge=a, le=b)] on a float. *)
Definition float_within (a b x : float) : bool := fleb a x && fleb x b.
Definition unit_interval : float → bool := float_within zero one.

Record ControlEvidence := mkControlEvidence {
  control_ref : string;
  maturity : float;
  ce_coverage : float;
  tested_effective : bool;
  last_tested_on : option date;
  ce_evidence_ids : list string
}.

Definition a_tested_control_must_say_when (c : ControlEvidence) : bool :=
  negb (tested_effective c && bool_decide (last_tested_on c = None)) &&
  negb (tested_effective c && negb (nonempty (ce_evidence_ids c))).

Definition ControlEvidence_valid (c : ControlEvidence) : bool :=
  length_within 1 64 (control_ref c) && unit_interval (maturity c) &&
  unit_interval (ce_coverage c) && a_tested_control_must_say_when c.

Record CoverageRecord := mkCoverageRecord {
  source : AssuranceSource;
  obtained_on : date;
  scope_note : string;
  cov_reference : option string
}.
Definition CoverageRecord_valid (r : CoverageRecord) : bool :=
  length_within 0 2000 (scope_note r) &&
  match cov_reference r with Some x => length_within 0 255 x | None => true end.

Record RiskFactors := mkRiskFactors {
  impact : float;
  likelihood : float;
  velocity : float;
  change_intensity : float;
  detectability : float;
  external_exposure : float;
  controls : list ControlEvidence;
  coverage : list CoverageRecord;
  rf_evidence_ids : list string
}.
Definition RiskFactors_valid (f : RiskFactors) : bool :=
  forallb unit_interval [impact f; likelihood f; velocity f; change_intensity f;
                         detectability f; external_exposure f] &&
  forallb ControlEvidence_valid (controls f) && forallb CoverageRecord_valid (coverage f).

Record ScoringPolicy := mkScoringPolicy {
  sp_policy_id : string;
  max_control_reduction : float;
  test_staleness_days : Z;
  velocity_weight : float;
  change_weight : float;
  exposure_weight : float;
  reliance : list (AssuranceSource * float);
  coverage_staleness_days : Z;
  rating_bands : list (float * string);
  confidence_floor : float;
  uncertainty_premium : float
}.

Definition default_scoring : ScoringPolicy :=
  mkScoringPolicy "default-v1" (dec 75 2) 365 (dec 15 2) (dec 20 2) (dec 15 2) DEFAULT_RELIANCE 548
    DEFAULT_RATING_BANDS (dec 5 1) (dec 5 1).

(** The field constraints and [bands_must_descend]; unlike a materiality policy,
    nothing is asked of the names of the bands. *)
Definition ScoringPolicy_valid (p : ScoringPolicy) : bool :=
  length_within 1 64 (sp_policy_id p) &&
  fltb zero (max_control_reduction p) && fltb (max_control_reduction p) one &&
  (1 <=? test_staleness_days p) && unit_interval (velocity_weight p) &&
  unit_interval (change_weight p) && unit_interval (exposure_weight p) &&
  (1 <=? coverage_staleness_days p) && unit_interval (confidence_floor p) &&
  float_within zero (float_of_Z 2) (uncertainty_premium p) &&
  descending (map fst (rating_bands p)).

Record RiskScore := mkRiskScore {
  rs_policy_id : string;
  inherent : float;
  residual : float;
  rating : string;
  rs_confidence : float;
  audit_priority : float;
  uncovered : bool;
  rs_components : dict;
  rs_rationale : string
}.

(** ** The terms *)

Definition _rating_for (score : float) (p : ScoringPolicy) : string :=
  severity_floor (rating_bands p) score.

Definition _days_between (later earlier : date) : Z := later - earlier.

(** One turn of the loop: what remains, and the notes. *)
Definition reduce_by (p : ScoringPolicy) (as_at : date) (acc : float * list string)
    (c : ControlEvidence) : Res (float * list string) :=
  let '(remaining, notes) := acc in
  if negb (tested_effective c) then
    Ok (remaining, notes ++ [control_ref c +:+ ": not tested effective, contributes no reduction"])
  else
    match last_tested_on c with
    | None => Err (Py AssertionError)
    | Some tested =>
        let age := _days_between as_at tested in
        if test_staleness_days p <? age then
          Ok (remaining, notes ++ [control_ref c +:+ ": last tested " +:+ pretty age +:+
                " days ago, beyond the " +:+ pretty (test_staleness_days p) +:+
                "-day currency window"])
        else
          let contribution := (maturity c * ce_coverage c)%float in
          Ok ((remaining * (one - contribution))%float,
              notes ++ [control_ref c +:+ ": tested effective " +:+ pretty age +:+
                " days ago, maturity " +:+ fixed 2 (maturity c) +:+ " x coverage " +:+
                fixed 2 (ce_coverage c)])
    end.

Fixpoint fold_res {A B} (f : A → B → Res A) (acc : A) (l : list B) : Res A :=
  match l with
  | [] => Ok acc
  | x :: l => let? acc := f acc x in fold_res f acc l
  end.

Definition control_reduction (f : RiskFactors) (p : ScoringPolicy) (as_at : date)
    : Res (float * list string) :=
  let? r := fold_res (reduce_by p as_at) (one, []) (controls f) in
  Ok (((one - fst r) * max_control_reduction p)%float, snd r).

(** [policy.reliance.get(source, 0.0)]. *)
Definition reliance_on (p : ScoringPolicy) (s : AssuranceSource) : float :=
  default zero (snd <$> (snd <$> list_find (λ kv, fst kv = s) (reliance p))).

Definition strongest (p : ScoringPolicy) (as_at : date) (best : float * option string)
    (r : CoverageRecord) : float * option string :=
  if coverage_staleness_days p <? _days_between as_at (obtained_on r) then best
  else let v := reliance_on p (source r) in
       if fltb (fst best) v then (v, Some (value (source r))) else best.

Definition assurance_reliance (f : RiskFactors) (p : ScoringPolicy) (as_at : date)
    : float * option string :=
  fold_left (strongest p as_at) (coverage f) (zero, None).

(** [min] over the ages of the coverage is at most a year when one of them is. *)
Definition recently_covered (f : RiskFactors) (as_at : date) : bool :=
  existsb (λ r, _days_between as_at (obtained_on r) <=? 365) (coverage f).

Definition confidence_in (f : RiskFactors) (as_at : date) : float :=
  let add (b : bool) (w s : float) := if b then (s + w)%float else s in
  let signals :=
    add (nonempty (coverage f) && recently_covered f as_at) (dec 2 1)
      (add (existsb (λ c, nonempty (ce_evidence_ids c)) (controls f)) (dec 2 1)
        (add (nonempty (rf_evidence_ids f)) (dec 2 1)
          (add (existsb tested_effective (controls f)) (dec 4 1) zero))) in
  fround (fmin signals one) 4.

Definition aggravation (f : RiskFactors) (p : ScoringPolicy) : float :=
  (velocity_weight p * velocity f + change_weight p * change_intensity f +
   exposure_weight p * external_exposure f +
   velocity_weight p * (one - detectability f))%float.

Definition inherent_risk (f : RiskFactors) (p : ScoringPolicy) : float :=
  let base := (impact f * likelihood f)%float in
  fmin one (base + (one - base) * fmin (aggravation f p) one)%float.

(** ** [score] *)

Definition untested_controls (f : RiskFactors) : list string :=
  map control_ref (filter (λ c, tested_effective c = false) (controls f)).
Definition tested_controls (f : RiskFactors) : list string :=
  map control_ref (filter (λ c, tested_effective c = true) (controls f)).

Definition score_components (f : RiskFactors) (p : ScoringPolicy) (reduction rel uncertainty : float)
    (rel_source : option string) (notes : list string) : dict :=
  [("impact", JFloat (impact f)); ("likelihood", JFloat (likelihood f));
   ("aggravation", JFloat (fround (fmin (aggravation f p) one) 6));
   ("control_reduction", JFloat (fround reduction 6));
   ("assurance_reliance", JFloat (fround rel 6));
   ("assurance_source", match rel_source with Some s => JStr s | None => JNull end);
   ("uncertainty_premium", JFloat (fround uncertainty 6));
   ("tested_controls", JList (map JStr (tested_controls f)));
   ("untested_controls", JList (map JStr (untested_controls f)));
   ("control_notes", JList (map JStr notes))].

Definition score_rationale (f : RiskFactors) (p : ScoringPolicy)
    (inherent reduction rel confidence uncertainty : float) (rel_source : option string) : string :=
  let untested := untested_controls f in
  join "; "
    (["inherent " +:+ fixed 2 inherent +:+ " from impact " +:+ fixed 2 (impact f) +:+
      " x likelihood " +:+ fixed 2 (likelihood f) +:+ " aggravated by " +:+
      fixed 2 (fmin (aggravation f p) one);
      (if negb (feqb reduction zero)
       then "controls reduce it by " +:+ fixed 2 reduction
       else "no tested control reduces it")] ++
     (if nonempty untested
      then [counted (zlen untested) "control" None +:+
            " are asserted but untested and contribute nothing: " +:+
            join ", " (sort_by String.compare untested)]
      else []) ++
     [match rel_source with
      | Some s => if decide (s = "") then "no current assurance from any source"
                  else "current " +:+ s +:+ " assurance lowers the need for fresh work by " +:+
                       percent 0 rel
      | None => "no current assurance from any source"
      end] ++
     (if fltb confidence (confidence_floor p)
      then ["confidence " +:+ fixed 2 confidence +:+ " is below the " +:+
            fixed 2 (confidence_floor p) +:+ " floor, raising audit priority by " +:+
            percent 0 uncertainty]
      else [])).

Definition score (f : RiskFactors) (policy : option ScoringPolicy) (as_at : date) : Res RiskScore :=
  let p := default default_scoring policy in
  let inherent := inherent_risk f p in
  let? r := control_reduction f p as_at in
  let '(reduction, notes) := r in
  let residual := (inherent * (one - reduction))%float in
  let '(rel, rel_source) := assurance_reliance f p as_at in
  let confidence := confidence_in f as_at in
  let uncertainty := (uncertainty_premium p * (one - confidence))%float in
  let audit_priority := (residual * (one - rel) * (one + uncertainty))%float in
  let rating := _rating_for residual p in
  if bool_decide (rating ∈ SEVERITY_ORDER) then
    Ok (mkRiskScore (sp_policy_id p) (fround inherent 6) (fround residual 6) rating confidence
          (fround audit_priority 6) (bool_decide (rel_source = None))
          (score_components f p reduction rel uncertainty rel_source notes)
          (score_rationale f p inherent reduction rel confidence uncertainty rel_source))
  else Err (Py ValueError).

(** ** The terms of a valid score stay in the unit interval *)

(** Every float of the inputs is a binary64 float. *)
Definition factors_binary64 (f : RiskFactors) : bool :=
  forallb binary64 [impact f; likelihood f; velocity f; change_intensity f; detectability f;
                    external_exposure f] &&
  forallb (λ c, binary64 (maturity c) && binary64 (ce_coverage c)) (controls f).
Definition policy_binary64 (p : ScoringPolicy) : bool :=
  forallb binary64 [max_control_reduction p; velocity_weight p; change_weight p; exposure_weight p;
                    uncertainty_premium p].

Lemma unit_fraction x : binary64 x = true → unit_interval x = true → fraction x = true.
Proof. intros Hb [H0 H1]%andb_true_iff. by apply fraction_between. Qed.

(** What validity gives each float of the inputs. *)
Record sound_factors (f : RiskFactors) : Prop := {
  sound_impact : fraction (impact f) = true;
  sound_likelihood : fraction (likelihood f) = true;
  sound_velocity : fraction (velocity f) = true;
  sound_change : fraction (change_intensity f) = true;
  sound_detectability : fraction (detectability f) = true;
  sound_exposure : fraction (external_exposure f) = true;
  sound_controls c : c ∈ controls f →
    fraction (maturity c) = true ∧ fraction (ce_coverage c) = true ∧
    (tested_effective c = true → last_tested_on c ≠ None)
}.
Record sound_policy (p : ScoringPolicy) : Prop := {
  sound_reduction : fraction (max_control_reduction p) = true;
  sound_velocity_weight : fraction (velocity_weight p) = true;
  sound_change_weight : fraction (change_weight p) = true;
  sound_exposure_weight : fraction (exposure_weight p) = true;
  sound_premium : magnitude (uncertainty_premium p) = true ∧ fleb (uncertainty_premium p) two = true
}.

Lemma sound_factors_valid f : RiskFactors_valid f = true → factors_binary64 f = true → sound_factors f.
Proof.
  unfold RiskFactors_valid, factors_binary64. cbn [forallb]. rewrite !andb_true_iff.
  intros [[(?&?&?&?&?&?&_) Hc] _] [(?&?&?&?&?&?&_) Hb].
  split; try by apply unit_fraction.
  rewrite forallb_elem in Hc, Hb. intros c Hin. specialize (Hc c Hin). specialize (Hb c Hin).
  unfold ControlEvidence_valid, a_tested_control_must_say_when in Hc. rewrite !andb_true_iff in Hc. rewrite andb_true_iff in Hb.
  destruct Hc as (((_ & ?) & ?) & Ht & _), Hb. split_and!; try by apply unit_fraction.
  intros E En. by rewrite E, En in Ht.
Qed.

Lemma sound_policy_valid p : ScoringPolicy_valid p = true → policy_binary64 p = true → sound_policy p.
Proof.
  unfold ScoringPolicy_valid, policy_binary64. cbn [forallb]. rewrite !andb_true_iff.
  intros ((((((((((_ & H1) & H2) & _) & Hv) & Hc) & He) & _) & _) & [H3 H4]%andb_true_iff) & _) (Hb & Bv & Bc & Be & Hb' & _).
  split; try by apply unit_fraction.
  - apply fraction_between; [done|by destruct (max_control_reduction p) as [|[]| |[]]|].
    apply fltb_fleb; [|done|done]. by destruct (max_control_reduction p).
  - split; [|done]. unfold magnitude. rewrite Hb'. by destruct (uncertainty_premium p) as [|[]| |[]].
Qed.

Lemma inherent_fraction f p : sound_factors f → sound_policy p → fraction (inherent_risk f p) = true.
Proof.
  intros [Hi Hl Hv Hc Hd He _] [_ Hvw Hcw Hew _]. unfold inherent_risk.
  assert (Ha : plain (aggravation f p) = true).
  { unfold aggravation. repeat apply fadd_plain; apply fraction_plain, fmul_fraction; try done.
    by apply fsub_fraction. }
  pose proof (fmul_fraction _ _ Hi Hl) as Hb.
  destruct (fmin_fraction (aggravation f p) one Ha eq_refl) as [Hm _].
  refine (proj2 (fmin_fraction _ one _ eq_refl)). apply fadd_plain; [by apply fraction_plain|].
  apply fraction_plain, fmul_fraction; [by apply fsub_fraction|done].
Qed.

(** The controls that count: tested effective, and recently enough. *)
Definition current (p : ScoringPolicy) (as_at : date) (c : ControlEvidence) : bool :=
  tested_effective c &&
  match last_tested_on c with
  | Some d => _days_between as_at d <=? test_staleness_days p
  | None => false
  end.

Definition gap (r : float) (c : ControlEvidence) : float := (r * (one - maturity c * ce_coverage c))%float.

Lemma reduce_by_spec p as_at r notes c :
  (tested_effective c = true → last_tested_on c ≠ None) →
  ∃ notes', reduce_by p as_at (r, notes) c = Ok (if current p as_at c then gap r c else r, notes').
Proof.
  intros Hc. unfold reduce_by, current. destruct (tested_effective c); cbn [negb andb]; [|eauto].
  destruct (last_tested_on c) as [d|]; [|by destruct Hc].
  rewrite Z.leb_antisym. destruct (test_staleness_days p <? _days_between as_at d); cbn [negb]; eauto.
Qed.

(** What the loop leaves is the product over the current controls alone. *)
Lemma reduce_fold p as_at l r notes :
  (∀ c, c ∈ l → tested_effective c = true → last_tested_on c ≠ None) →
  ∃ notes', fold_res (reduce_by p as_at) (r, notes) l =
    Ok (fold_left gap (filter (λ c, current p as_at c = true) l) r, notes').
Proof.
  revert r notes. induction l as [|c l IH]; intros r notes Hl; cbn [fold_res]; [by exists notes|].
  destruct (reduce_by_spec p as_at r notes c) as [n ->]; [apply Hl; left|]. cbn [res_bind].
  rewrite filter_cons. destruct (current p as_at c); [rewrite decide_True by done|rewrite decide_False by done];
    apply IH; intros ??; apply Hl; by right.
Qed.

Lemma gaps_fraction l r :
  (∀ c, c ∈ l → fraction (maturity c) = true ∧ fraction (ce_coverage c) = true) →
  fraction r = true → fraction (fold_left gap l r) = true.
Proof.
  revert r. induction l as [|c l IH]; intros r Hl Hr; [done|]. cbn [fold_left].
  destruct (Hl c ltac:(left)) as [Hm Hc]. apply IH; [intros ??; apply Hl; by right|].
  by apply fmul_fraction, fsub_fraction, fmul_fraction.
Qed.

(** The reduction: nothing but the current controls contributes to it. *)
Definition reduction_of (f : RiskFactors) (p : ScoringPolicy) (as_at : date) : float :=
  ((one - fold_left gap (filter (λ c, current p as_at c = true) (controls f)) one) *
   max_control_reduction p)%float.

Lemma control_reduction_spec f p as_at :
  sound_factors f → sound_policy p →
  ∃ notes, control_reduction f p as_at = Ok (reduction_of f p as_at, notes) ∧
    fraction (reduction_of f p as_at) = true.
Proof.
  intros Hf Hp. unfold control_reduction.
  destruct (reduce_fold p as_at (controls f) one []) as [notes E]; [intros c Hc; by apply (sound_controls f Hf)|].
  rewrite E. exists notes. split; [done|]. apply fmul_fraction; [|apply Hp].
  apply fsub_fraction, gaps_fraction; [|done].
  intros c [_ Hc]%list_elem_of_filter. by destruct (sound_controls f Hf c Hc) as (? & ? & _).
Qed.

Lemma no_current_no_reduction f p as_at :
  sound_policy p → filter (λ c, current p as_at c = true) (controls f) = [] →
  feqb (reduction_of f p as_at) zero = true.
Proof.
  intros [Hr _ _ _ _] E. unfold reduction_of. rewrite E. cbn [fold_left].
  change (one - one)%float with zero. revert Hr. by destruct (max_control_reduction p) as [[]|[]| |[]].
Qed.

(** The strongest current assurance. *)
Lemma strongest_spec p as_at l best :
  (∀ s, fraction (reliance_on p s) = true) → fraction (fst best) = true →
  let r := fold_left (strongest p as_at) l best in
  fraction (fst r) = true ∧ fleb (fst best) (fst r) = true ∧
  ∀ c, c ∈ l → _days_between as_at (obtained_on c) ≤ coverage_staleness_days p →
    fleb (reliance_on p (source c)) (fst r) = true.
Proof.
  intros Hp. revert best. induction l as [|c l IH]; intros best Hb; cbn [fold_left].
  { split_and!; [done|by apply fleb_refl, fraction_not_nan|by intros c ?%elem_of_nil]. }
  assert (Hc : fraction (fst (strongest p as_at best c)) = true ∧
    fleb (fst best) (fst (strongest p as_at best c)) = true ∧
    (_days_between as_at (obtained_on c) ≤ coverage_staleness_days p →
     fleb (reliance_on p (source c)) (fst (strongest p as_at best c)) = true)).
  { unfold strongest. pose proof (fraction_not_nan _ Hb) as Hn.
    pose proof (fraction_not_nan _ (Hp (source c))) as Hn'.
    destruct (Z.ltb_spec (coverage_staleness_days p) (_days_between as_at (obtained_on c))).
    - split_and!; [done|by apply fleb_refl|lia].
    - destruct (fltb (fst best) (reliance_on p (source c))) eqn:E; cbn [fst].
      + split_and!; [done|by apply fltb_fleb|by intros _; apply fleb_refl].
      + split_and!; [done|by apply fleb_refl|]. intros _. by rewrite fleb_fltb, E. }
  destruct Hc as (H1 & H2 & H3). destruct (IH _ H1) as (H4 & H5 & H6). cbv zeta in *.
  pose proof (fraction_not_nan _ Hb). pose proof (fraction_not_nan _ H1). pose proof (fraction_not_nan _ H4).
  split_and!; [done|by eapply fleb_trans; [..|exact H5]|].
  intros c' [->|Hc']%elem_of_cons Hs; [|by apply H6].
  eapply fleb_trans; [..|exact H5]; [by apply fraction_not_nan|done|done|by apply H3].
Qed.

Lemma confidence_fraction f as_at : fraction (confidence_in f as_at) = true.
Proof.
  unfold confidence_in. destruct (existsb tested_effective _), (nonempty (rf_evidence_ids f)),
    (existsb _ (controls f)), (nonempty (coverage f) && _); by vm_compute.
Qed.

(** ** The score in closed form *)

Definition residual_risk (f : RiskFactors) (p : ScoringPolicy) (as_at : date) : float :=
  (inherent_risk f p * (one - reduction_of f p as_at))%float.
(** What existing assurance leaves to be looked at. *)
Definition fresh_need (f : RiskFactors) (p : ScoringPolicy) (as_at : date) : float :=
  (residual_risk f p as_at * (one - fst (assurance_reliance f p as_at)))%float.
Definition uncertainty_of (f : RiskFactors) (p : ScoringPolicy) (as_at : date) : float :=
  (uncertainty_premium p * (one - confidence_in f as_at))%float.
Definition priority_of (f : RiskFactors) (p : ScoringPolicy) (as_at : date) : float :=
  (fresh_need f p as_at * (one + uncertainty_of f p as_at))%float.

Lemma score_closed f p as_at :
  sound_factors f → sound_policy p →
  if bool_decide (_rating_for (residual_risk f p as_at) p ∈ SEVERITY_ORDER) then
    ∃ r, score f (Some p) as_at = Ok r ∧ inherent r = fround (inherent_risk f p) 6 ∧
      residual r = fround (residual_risk f p as_at) 6 ∧
      rating r = _rating_for (residual_risk f p as_at) p ∧
      rs_confidence r = confidence_in f as_at ∧ audit_priority r = fround (priority_of f p as_at) 6 ∧
      uncovered r = bool_decide (snd (assurance_reliance f p as_at) = None)
  else score f (Some p) as_at = Err (Py ValueError).
Proof.
  intros Hf Hp. destruct (control_reduction_spec f p as_at Hf Hp) as (notes & E & _).
  unfold score. cbv zeta. change (default default_scoring (Some p)) with p. rewrite E. cbn [res_bind].
  unfold priority_of, fresh_need, uncertainty_of, residual_risk.
  destruct (assurance_reliance f p as_at) as [rel rel_source]. cbn [fst snd].
  destruct (bool_decide _); [|done]. eexists. split; [done|]. by split_and!.
Qed.

Lemma residual_bounds f p as_at :
  sound_factors f → sound_policy p →
  fraction (inherent_risk f p) = true ∧ fraction (residual_risk f p as_at) = true ∧
  fleb (residual_risk f p as_at) (inherent_risk f p) = true.
Proof.
  intros Hf Hp. pose proof (inherent_fraction f p Hf Hp) as Hi.
  destruct (control_reduction_spec f p as_at Hf Hp) as (_ & _ & Hr%fsub_fraction).
  split_and!; [done|by apply fmul_fraction|by apply fmul_below; [apply fraction_magnitude|]].
Qed.

Lemma priority_bounds f p as_at :
  sound_factors f → sound_policy p → (∀ s, fraction (reliance_on p s) = true) →
  fraction (fresh_need f p as_at) = true ∧
  fleb (fresh_need f p as_at) (residual_risk f p as_at) = true ∧
  fleb (fresh_need f p as_at) (priority_of f p as_at) = true.
Proof.
  intros Hf Hp Hrel. destruct (residual_bounds f p as_at Hf Hp) as (_ & Hr & _).
  destruct (strongest_spec p as_at (coverage f) (zero, None) Hrel eq_refl) as (Hs%fsub_fraction & _).
  assert (Hn : fraction (fresh_need f p as_at) = true) by (by apply fmul_fraction).
  destruct (sound_premium p Hp) as [Hm H2].
  pose proof (fsub_fraction _ (confidence_fraction f as_at)) as Hc.
  pose proof (fmul_magnitude _ _ Hm Hc) as Hu.
  assert (Hu2 : fleb (uncertainty_of f p as_at) two = true).
  { pose proof (fmul_below _ _ Hm Hc) as Hle. eapply fleb_trans; [..|exact Hle|exact H2].
    - by apply plain_not_nan, magnitude_plain.
    - by apply plain_not_nan, magnitude_plain.
    - done. }
  split_and!; [done|by apply fmul_below; [apply fraction_magnitude|]|].
  apply fmul_above; [by apply fraction_magnitude|by apply fadd_one_magnitude|by apply fadd_above].
Qed.

(** What is not tested, or not recently, does not move the score. *)
Lemma reduction_current f p as_at :
  reduction_of f p as_at =
  reduction_of (mkRiskFactors (impact f) (likelihood f) (velocity f) (change_intensity f)
    (detectability f) (external_exposure f) (filter (λ c, current p as_at c = true) (controls f))
    (coverage f) (rf_evidence_ids f)) p as_at.
Proof. unfold reduction_of. cbn [controls]. by rewrite list_filter_filter_l by auto. Qed.
