(* ===== verification/PortPlanning.v ===== *)
(** * Portfolio: the plan

    portfolio/planning.py: a plan selected under a capacity and a minimum
    coverage.  The ranking compares floats; on floats that are not NaN [float_compare]
    is the order [<] computes.  With a NaN among the keys the order of the source is
    what its sort makes of comparisons that are all false, and is not modelled: what
    is proved of plans is about candidates without one.  The candidates that must be covered are told apart from the others
    by value in the source; equal candidates need coverage alike, so the others
    are those that do not need it. *)

From S2P Require Import Prelude PyFloat PyFloatBounds PyTime Ledger PyText Materiality Quality PortScoring.
Local Open Scope Z_scope.

(** The order of the floats that are not NaN; of a NaN it says nothing the source does. *)
Definition float_compare : float → float → comparison :=
  cmp_on order_key (cmp_then (cmp_on (λ k, fst (fst k)) Z.compare)
    (cmp_then (cmp_on (λ k, snd (fst k)) Z.compare) (cmp_on snd Z.compare))).

Inductive disruption := disruption_low | disruption_medium | disruption_high.
#[export] Instance disruption_eq_dec : EqDecision disruption.
Proof. solve_decision. Defined.

Record Candidate := mkCandidate {
  candidate_key : string;
  entity_ref : string;
  risk_ref : string;
  cand_title : string;
  objective : string;
  cand_score : RiskScore;
  effort_days : float;
  criticality : float;
  cand_disruption : disruption;
  expertise_required : list string;
  expertise_available : bool;
  last_audited_on : option date;
  data_dependencies : list string;
  suggested_cadence_months : Z;
  cand_audit_pack_ref : option string
}.
Definition Candidate_valid (c : Candidate) : bool :=
  length_within 1 128 (candidate_key c) && length_within 1 128 (entity_ref c) &&
  length_within 1 64 (risk_ref c) && length_within 3 255 (cand_title c) &&
  (10 <=? String.length (objective c))%nat && fltb zero (effort_days c) &&
  float_within zero (float_of_Z 5) (criticality c) &&
  (1 <=? suggested_cadence_months c) && (suggested_cadence_months c <=? 60).

(** Audit priority per day; a candidate's effort is positive, so this does not raise. *)
Definition value_density (c : Candidate) : float := (audit_priority (cand_score c) / effort_days c)%float.

Record CapacityPolicy := mkCapacityPolicy {
  horizon_start : date;
  horizon_end : date;
  available_days : float;
  minimum_coverage_criticality : float;
  coverage_interval_months : Z;
  contingency_fraction : float;
  max_high_disruption : Z
}.
Definition horizon_must_be_ordered (p : CapacityPolicy) : bool := horizon_start p <? horizon_end p.
Definition CapacityPolicy_valid (p : CapacityPolicy) : bool :=
  fltb zero (available_days p) && float_within zero (float_of_Z 5) (minimum_coverage_criticality p) &&
  (1 <=? coverage_interval_months p) && (coverage_interval_months p <=? 120) &&
  float_within zero (dec 5 1) (contingency_fraction p) && (0 <=? max_high_disruption p) &&
  horizon_must_be_ordered p.

Definition plannable_days (p : CapacityPolicy) : float :=
  (available_days p * (one - contingency_fraction p))%float.

Record PlannedItem := mkPlannedItem {
  pl_candidate_key : string;
  pl_entity_ref : string;
  pl_risk_ref : string;
  pl_title : string;
  pl_objective : string;
  pl_effort_days : float;
  pl_audit_priority : float;
  pl_value_density : float;
  pl_rating : string;
  pl_confidence : float;
  cadence_months : Z;
  pl_reason : string;
  forced_by_minimum_coverage : bool;
  pl_audit_pack_ref : option string
}.
Record ExcludedItem := mkExcludedItem {
  ex_candidate_key : string;
  ex_entity_ref : string;
  ex_risk_ref : string;
  ex_title : string;
  ex_effort_days : float;
  ex_audit_priority : float;
  ex_rating : string;
  ex_reason : string;
  ex_uncovered : bool
}.
Record PlanRecommendation := mkPlanRecommendation {
  rec_horizon_start : date;
  rec_horizon_end : date;
  rec_planned : list PlannedItem;
  rec_excluded : list ExcludedItem;
  blind_spots : list dict;
  planned_days : float;
  rec_plannable_days : float;
  contingency_days : float;
  coverage_ratio : float;
  uncovered_priority : float;
  policy_notes : list string
}.
Definition is_deliverable (r : PlanRecommendation) : bool := fleb (planned_days r) (rec_plannable_days r).

(** [int(months * 30.44)]. *)
Definition interval_days (months : Z) : Z :=
  let '(a, b) := as_fraction (float_of_Z months * dec 3044 2)%float in Z.quot a b.

Definition _needs_coverage (c : Candidate) (p : CapacityPolicy) : Res bool :=
  if fltb (criticality c) (minimum_coverage_criticality p) then Ok false
  else match last_audited_on c with
       | None => Ok true
       | Some d =>
           let? due := add_days d (interval_days (coverage_interval_months p)) in
           Ok (due <=? horizon_end p)
       end.

(** ** Selection *)

(** [spent], [planned], [excluded] and [high_disruption]. *)
Record Selection := mkSelection {
  spent : float;
  planned : list PlannedItem;
  excluded : list ExcludedItem;
  high_disruption : Z
}.

Definition planned_item (c : Candidate) (reason : string) (forced_flag : bool) : PlannedItem :=
  mkPlannedItem (candidate_key c) (entity_ref c) (risk_ref c) (cand_title c) (objective c)
    (effort_days c) (audit_priority (cand_score c)) (fround (value_density c) 6)
    (rating (cand_score c)) (rs_confidence (cand_score c)) (suggested_cadence_months c) reason
    forced_flag (cand_audit_pack_ref c).
Definition excluded_item (c : Candidate) (reason : string) : ExcludedItem :=
  mkExcludedItem (candidate_key c) (entity_ref c) (risk_ref c) (cand_title c) (effort_days c)
    (audit_priority (cand_score c)) (rating (cand_score c)) reason (uncovered (cand_score c)).

Definition admit_candidate (c : Candidate) (reason : string) (forced_flag : bool) (high : Z)
    (s : Selection) : Selection :=
  mkSelection (spent s + effort_days c)%float (planned s ++ [planned_item c reason forced_flag])
    (excluded s) high.
Definition refuse (c : Candidate) (reason : string) (s : Selection) : Selection :=
  mkSelection (spent s) (planned s) (excluded s ++ [excluded_item c reason]) (high_disruption s).

(** One turn of the loop over the forced candidates. *)
Definition force (s : Selection) (c : Candidate) : Selection :=
  if negb (expertise_available c) then
    refuse c ("minimum coverage requires this audit, but the function does not hold the required " +:+
              "expertise (" +:+ join ", " (expertise_required c) +:+
              "); it needs sourcing before it can be planned") s
  else
    admit_candidate c
      ("minimum coverage: criticality " +:+ fixed 1 (criticality c) +:+ " and " +:+
       match last_audited_on c with
       | None => "never audited"
       | Some d => "last audited " +:+ date_isoformat d
       end) true (high_disruption s) s.

Definition is_high (c : Candidate) : bool := bool_decide (cand_disruption c = disruption_high).

(** One turn of the loop over the others. *)
Definition consider (p : CapacityPolicy) (s : Selection) (c : Candidate) : Selection :=
  if negb (expertise_available c) then
    refuse c ("the function does not hold the required expertise: " +:+
              join ", " (expertise_required c)) s
  else if is_high c && (max_high_disruption p <=? high_disruption s) then
    refuse c ("the plan already carries " +:+ pretty (high_disruption s) +:+
              " high-disruption engagement(s), the configured maximum") s
  else if fltb (plannable_days p) (spent s + effort_days c)%float then
    refuse c ("does not fit remaining capacity (" +:+
              fixed 1 (plannable_days p - spent s)%float +:+ " of " +:+
              fixed 1 (plannable_days p) +:+ " days left)") s
  else
    admit_candidate c
      ("value density " +:+ fixed 4 (value_density c) +:+ " (priority " +:+
       fixed 3 (audit_priority (cand_score c)) +:+ " over " +:+ fixed 0 (effort_days c) +:+ " days)")
      false (if is_high c then high_disruption s + 1 else high_disruption s) s.

Definition by_criticality : Candidate → Candidate → comparison :=
  cmp_then (cmp_desc (cmp_on criticality float_compare)) (cmp_on candidate_key String.compare).
Definition by_density : Candidate → Candidate → comparison :=
  cmp_then (cmp_desc (cmp_on value_density float_compare)) (cmp_on candidate_key String.compare).

Definition empty_selection : Selection := mkSelection zero [] [] 0.

(** The pairs of a planned item and a high-disruption candidate of its key. *)
Definition count_high (planned : list PlannedItem) (candidates : list Candidate) : Z :=
  zlen (i ← planned; filter (λ c, candidate_key c = pl_candidate_key i ∧ is_high c = true) candidates).

Definition selection (forced optional candidates : list Candidate) (p : CapacityPolicy)
    : Selection * Selection :=
  let first := fold_left force (sort_by by_criticality forced) empty_selection in
  let counted := mkSelection (spent first) (planned first) (excluded first)
                   (count_high (planned first) candidates) in
  (first, fold_left (consider p) (sort_by by_density optional) counted).

(** [sum] of a list of floats; the sum of none is the integer 0. *)
Definition sum_floats (l : list float) : float := match l with [] => zero | x :: l => fsum x l end.

Definition blind_spot (c : Candidate) : dict :=
  [("candidate_key", JStr (candidate_key c)); ("entity_ref", JStr (entity_ref c));
   ("risk_ref", JStr (risk_ref c)); ("rating", JStr (rating (cand_score c)));
   ("audit_priority", JFloat (audit_priority (cand_score c)));
   ("confidence", JFloat (rs_confidence (cand_score c)));
   ("why", JStr "no current assurance from any source and not covered by this plan")].

Definition recommend_notes (p : CapacityPolicy) (first : Selection) (blind : list dict) : list string :=
  let notes :=
    (if fltb (plannable_days p) (spent first)
     then ["minimum coverage alone requires " +:+ fixed 1 (spent first) +:+ " days against " +:+
           fixed 1 (plannable_days p) +:+ " plannable; capacity or scope needs a decision"]
     else []) ++
    (if nonempty blind
     then [counted (zlen blind) "risk" None +:+
           " have no assurance from any source and no place in this plan"]
     else []) in
  if nonempty notes then notes else ["every constraint was satisfied within the plannable capacity"].

Fixpoint flagged (p : CapacityPolicy) (l : list Candidate) : Res (list (Candidate * bool)) :=
  match l with
  | [] => Ok []
  | c :: l => let? b := _needs_coverage c p in let? rest := flagged p l in Ok ((c, b) :: rest)
  end.

Definition recommend (candidates : list Candidate) (p : CapacityPolicy) : Res PlanRecommendation :=
  let? l := flagged p candidates in
  let forced := map fst (filter (λ x, snd x = true) l) in
  let optional := map fst (filter (λ x, snd x = false) l) in
  let '(first, s) := selection forced optional candidates p in
  let planned_keys := map pl_candidate_key (planned s) in
  let blind := map blind_spot
    (filter (λ c, uncovered (cand_score c) = true ∧ candidate_key c ∉ planned_keys) candidates) in
  let total_priority := sum_floats (map (λ c, audit_priority (cand_score c)) candidates) in
  let planned_priority := sum_floats (map pl_audit_priority (planned s)) in
  let ratio := if feqb total_priority zero then one else (planned_priority / total_priority)%float in
  Ok (mkPlanRecommendation (horizon_start p) (horizon_end p) (planned s) (excluded s) blind
        (fround (spent s) 4) (fround (plannable_days p) 4)
        (fround (available_days p - plannable_days p)%float 4) (fround ratio 6)
        (fround (total_priority - planned_priority)%float 6) (recommend_notes p first blind)).

(** ** What a selection holds *)

#[export] Instance float_compare_comparator : Comparator float_compare.
Proof. unfold float_compare. apply _. Qed.
#[export] Instance float_compare_trans : CmpTrans float_compare.
Proof. unfold float_compare. apply _. Qed.
#[export] Instance by_criticality_comparator : Comparator by_criticality.
Proof. unfold by_criticality. apply _. Qed.
#[export] Instance by_criticality_trans : CmpTrans by_criticality.
Proof. unfold by_criticality. apply _. Qed.
#[export] Instance by_density_comparator : Comparator by_density.
Proof. unfold by_density. apply _. Qed.
#[export] Instance by_density_trans : CmpTrans by_density.
Proof. unfold by_density. apply _. Qed.

(** The two ways a candidate leaves a loop. *)
Inductive placed (c : Candidate) (flag : bool) (s s' : Selection) : Prop :=
  | placed_in reason high : expertise_available c = true → s' = admit_candidate c reason flag high s → placed c flag s s'
  | placed_out reason : s' = refuse c reason s → placed c flag s s'.

Lemma force_placed s c : placed c true s (force s c).
Proof.
  unfold force. destruct (expertise_available c) eqn:E; cbn [negb]; [by eapply placed_in|by eapply placed_out].
Qed.
Lemma consider_placed p s c : placed c false s (consider p s c).
Proof.
  unfold consider. destruct (expertise_available c) eqn:E; cbn [negb]; [|by eapply placed_out].
  destruct (_ && _); [by eapply placed_out|]. destruct (fltb _ _); [by eapply placed_out|by eapply placed_in].
Qed.

(** A loop body that places its candidate. *)
Class Places (flag : bool) (body : Selection → Candidate → Selection) :=
  places s c : placed c flag s (body s c).
#[export] Instance force_places : Places true force := force_placed.
#[export] Instance consider_places p : Places false (consider p) := consider_placed p.

Definition selection_keys (s : Selection) : list string :=
  map pl_candidate_key (planned s) ++ map ex_candidate_key (excluded s).

Section loop.
Context {flag : bool} (body : Selection → Candidate → Selection) `{!Places flag body}.

Lemma loop_keys l s :
  selection_keys (fold_left body l s) ≡ₚ selection_keys s ++ map candidate_key l.
Proof.
  revert s. induction l as [|c l IH]; intros s; cbn [fold_left map]; [by rewrite app_nil_r|].
  rewrite IH. unfold selection_keys.
  destruct (places s c) as [r h _ ->|r ->]; cbn [admit_candidate refuse planned excluded]; rewrite map_app;
    cbn [map pl_candidate_key ex_candidate_key planned_item excluded_item]; solve_Permutation.
Qed.

(** What is placed stays where it is. *)
Lemma loop_grows l s :
  planned s `prefix_of` planned (fold_left body l s) ∧ excluded s `prefix_of` excluded (fold_left body l s).
Proof.
  revert s. induction l as [|c l IH]; intros s; cbn [fold_left]; [done|].
  destruct (IH (body s c)) as [H1 H2].
  destruct (places s c) as [r h He E|r E]; rewrite E in H1, H2; rewrite E;
    cbn [admit_candidate refuse planned excluded] in *; split; (done || by eapply prefix_app_l).
Qed.

(** Every planned item of the loop is a candidate of it, with the loop's flag. *)
Lemma loop_planned l s i :
  i ∈ planned (fold_left body l s) →
  i ∈ planned s ∨ ∃ c r, c ∈ l ∧ expertise_available c = true ∧ i = planned_item c r flag.
Proof.
  revert s. induction l as [|c l IH]; intros s Hi; cbn [fold_left] in Hi; [by left|].
  destruct (IH _ Hi) as [H1|(c' & r & Hc & He & ->)]; [|right; exists c', r; by rewrite elem_of_cons; auto].
  destruct (places s c) as [r h He E|r E]; rewrite E in H1; cbn [admit_candidate refuse planned] in H1; [|by left].
  apply elem_of_app in H1 as [?| ->%list_elem_of_singleton]; [by left|right].
  exists c, r. split_and!; [left|done..].
Qed.
End loop.

(** ** How the candidates are told apart *)

(** Whether minimum coverage forces a candidate, where its due date exists. *)
Definition needs (p : CapacityPolicy) (c : Candidate) : bool :=
  match _needs_coverage c p with Ok b => b | Err _ => false end.
Definition forced_of (p : CapacityPolicy) (l : list Candidate) : list Candidate :=
  filter (λ c, needs p c = true) l.
Definition optional_of (p : CapacityPolicy) (l : list Candidate) : list Candidate :=
  filter (λ c, needs p c = false) l.

Lemma needs_error c p e : _needs_coverage c p = Err e → e = Py OverflowError.
Proof.
  unfold _needs_coverage, add_days. destruct (fltb _ _); [done|]. destruct (last_audited_on c); [|done].
  destruct (_ && _); cbn [res_bind]; by intros [= <-] || done.
Qed.

Lemma flagged_cases p l :
  flagged p l = Ok (map (λ c, (c, needs p c)) l) ∧ (∀ c, c ∈ l → _needs_coverage c p = Ok (needs p c)) ∨
  flagged p l = Err (Py OverflowError) ∧ ∃ c, c ∈ l ∧ _needs_coverage c p = Err (Py OverflowError).
Proof.
  induction l as [|c l IH]; [left; split; [done|by intros c ?%elem_of_nil]|].
  cbn [flagged map]. unfold needs at 1 2. destruct (_needs_coverage c p) as [b|e] eqn:E; cbn [res_bind].
  - destruct IH as [[-> H]|[-> (c' & Hc & E')]]; [left|right]; cbn [res_bind]; (split; [done|]).
    + intros c' [->|Hc]%elem_of_cons; [unfold needs; by rewrite E|by apply H].
    + exists c'. split; [by right|done].
  - right. apply needs_error in E as E'. subst e. split; [done|]. exists c. split; [left|done].
Qed.

Lemma split_flags p l :
  map fst (filter (λ x : Candidate * bool, snd x = true) (map (λ c, (c, needs p c)) l)) = forced_of p l ∧
  map fst (filter (λ x : Candidate * bool, snd x = false) (map (λ c, (c, needs p c)) l)) = optional_of p l.
Proof.
  unfold forced_of, optional_of. induction l as [|c l [IH1 IH2]]; [done|]. cbn [map].
  rewrite !filter_cons. cbn [snd]. destruct (needs p c); repeat case_decide; try done; cbn [map fst]; by rewrite IH1, IH2.
Qed.

Lemma forced_optional p l : l ≡ₚ forced_of p l ++ optional_of p l.
Proof.
  unfold forced_of, optional_of. induction l as [|c l IH]; [done|]. rewrite !filter_cons.
  destruct (needs p c); repeat case_decide; try done; rewrite IH at 1; [done|apply Permutation_middle].
Qed.

(** The two passes of a recommendation over its candidates. *)
Definition passes (candidates : list Candidate) (p : CapacityPolicy) : Selection * Selection :=
  selection (forced_of p candidates) (optional_of p candidates) candidates p.

Definition recommendation (candidates : list Candidate) (p : CapacityPolicy) : PlanRecommendation :=
  let '(first, s) := passes candidates p in
  let planned_keys := map pl_candidate_key (planned s) in
  let blind := map blind_spot
    (filter (λ c, uncovered (cand_score c) = true ∧ candidate_key c ∉ planned_keys) candidates) in
  let total_priority := sum_floats (map (λ c, audit_priority (cand_score c)) candidates) in
  let planned_priority := sum_floats (map pl_audit_priority (planned s)) in
  let ratio := if feqb total_priority zero then one else (planned_priority / total_priority)%float in
  mkPlanRecommendation (horizon_start p) (horizon_end p) (planned s) (excluded s) blind
    (fround (spent s) 4) (fround (plannable_days p) 4)
    (fround (available_days p - plannable_days p)%float 4) (fround ratio 6)
    (fround (total_priority - planned_priority)%float 6) (recommend_notes p first blind).

Lemma recommend_cases l p :
  recommend l p = Ok (recommendation l p) ∧ (∀ c, c ∈ l → _needs_coverage c p = Ok (needs p c)) ∨
  recommend l p = Err (Py OverflowError) ∧ ∃ c, c ∈ l ∧ _needs_coverage c p = Err (Py OverflowError).
Proof.
  unfold recommend. destruct (flagged_cases p l) as [[-> H]|[-> H]]; [left|by right].
  split; [|done]. cbn [res_bind]. cbv zeta. destruct (split_flags p l) as [-> ->].
  unfold recommendation, passes. by destruct (selection _ _ _ _) as [first s].
Qed.

Lemma recommend_Ok l p r :
  recommend l p = Ok r →
  r = recommendation l p ∧ ∀ c, c ∈ l → _needs_coverage c p = Ok (needs p c).
Proof. destruct (recommend_cases l p) as [[-> H]|[-> _]]; [by intros [= <-]|done]. Qed.

(** ** What the loops spend *)

(** The days of a list of items, summed in the order they were planned. *)
Definition total_days (l : list PlannedItem) : float :=
  fold_left (λ s i, (s + pl_effort_days i)%float) l zero.

Lemma total_days_app l l' :
  total_days (l ++ l') = fold_left (λ s i, (s + pl_effort_days i)%float) l' (total_days l).
Proof. apply fold_left_app. Qed.

Lemma loop_spent {flag} (body : Selection → Candidate → Selection) `{!Places flag body} l s :
  spent s = total_days (planned s) →
  spent (fold_left body l s) = total_days (planned (fold_left body l s)).
Proof.
  revert s. induction l as [|c l IH]; intros s Hs; cbn [fold_left]; [done|]. apply IH.
  destruct (places s c) as [r h _ ->|r ->]; cbn [admit_candidate refuse spent planned]; [|done].
  by rewrite total_days_app, Hs.
Qed.

(** What the second loop plans an optional candidate as. *)
Definition optional_item (c : Candidate) : PlannedItem :=
  planned_item c
    ("value density " +:+ fixed 4 (value_density c) +:+ " (priority " +:+
     fixed 3 (audit_priority (cand_score c)) +:+ " over " +:+ fixed 0 (effort_days c) +:+ " days)") false.

(** One turn: the candidate is in, or out for one of three reasons. *)
Inductive considered (p : CapacityPolicy) (s : Selection) (c : Candidate) (s' : Selection) : Prop :=
  | considered_in :
      expertise_available c = true → (is_high c = true → high_disruption s < max_high_disruption p) →
      fltb (plannable_days p) (spent s + effort_days c)%float = false →
      planned s' = planned s ++ [optional_item c] → excluded s' = excluded s →
      spent s' = (spent s + effort_days c)%float →
      high_disruption s' = high_disruption s + (if is_high c then 1 else 0) → considered p s c s'
  | considered_out reason :
      (expertise_available c = false ∨
       is_high c = true ∧ max_high_disruption p ≤ high_disruption s ∨
       fltb (plannable_days p) (spent s + effort_days c)%float = true) →
      s' = refuse c reason s → considered p s c s'.

Lemma consider_considered p s c : considered p s c (consider p s c).
Proof.
  unfold consider. destruct (expertise_available c) eqn:Ee; cbn [negb]; [|eapply considered_out; eauto].
  destruct (is_high c) eqn:Eh, (Z.leb_spec (max_high_disruption p) (high_disruption s)); cbn [andb];
    try (eapply considered_out; eauto; fail);
    (destruct (fltb _ _) eqn:Ef; [eapply considered_out; eauto|]);
    (apply considered_in; cbn [admit_candidate planned excluded spent high_disruption]; rewrite ?Eh; (done || lia)).
Qed.

(** The loop plans a sublist of its candidates, and keeps both limits. *)
Lemma loop_limits p l s :
  let s' := fold_left (consider p) l s in
  ∃ adm, sublist adm l ∧ planned s' = planned s ++ map optional_item adm ∧
    high_disruption s' = high_disruption s + zlen (filter (λ c, is_high c = true) adm) ∧
    high_disruption s' ≤ Z.max (high_disruption s) (max_high_disruption p) ∧
    (adm = [] ∨ fltb (plannable_days p) (spent s') = false).
Proof.
  cbv zeta. induction l as [|c l IH] using rev_ind.
  { exists []. rewrite !app_nil_r. cbn [fold_left]. unfold zlen. cbn. split_and!; auto; lia. }
  rewrite fold_left_app. cbn [fold_left]. destruct IH as (adm & Hs & Hp & Hh & Hm & Hd).
  destruct (consider_considered p (fold_left (consider p) l s) c) as [_ Hc Hf Hp' _ Hs' Hh'|r _ E].
  - assert (Hz : zlen (filter (λ c, is_high c = true) [c]) = if is_high c then 1 else 0).
    { rewrite filter_cons. by destruct (is_high c). }
    exists (adm ++ [c]). rewrite Hp', Hp, Hs', Hh', map_app, <- app_assoc, filter_app, zlen_app, Hz.
    split_and!; [by apply sublist_app|done|lia| |by right].
    destruct (is_high c); [specialize (Hc eq_refl)|]; lia.
  - exists adm. rewrite E. cbn [refuse planned high_disruption spent].
    split_and!; [by apply sublist_inserts_r|done..].
Qed.

Lemma filter_by_key {A B} `{EqDecision B} (f : A → B) (b : A → bool) (l : list A) x :
  NoDup (map f l) → x ∈ l →
  filter (λ y, f y = f x ∧ b y = true) l = if b x then [x] else [].
Proof.
  induction l as [|y l IH]; cbn [map]; intros Hn Hx; [by apply elem_of_nil in Hx|].
  apply NoDup_cons in Hn as [Hy Hn]. rewrite filter_cons. apply elem_of_cons in Hx as [->|Hx].
  - rewrite (filter_none _ l).
    + destruct (b y); by repeat case_decide; naive_solver.
    + intros z Hz [E _]. apply Hy. rewrite <- E. by apply list_elem_of_fmap_2.
  - rewrite IH by done. case_decide as E; [|done]. destruct E as [E _]. destruct Hy.
    rewrite E. by apply list_elem_of_fmap_2.
Qed.

Lemma count_high_app a b cs : count_high (a ++ b) cs = count_high a cs + count_high b cs.
Proof. unfold count_high. by rewrite bind_app, zlen_app. Qed.

(** With the keys distinct, the planned items count their own candidates. *)
Lemma count_high_items cs adm :
  NoDup (map candidate_key cs) → adm ⊆ cs →
  count_high (map optional_item adm) cs = zlen (filter (λ c, is_high c = true) adm).
Proof.
  intros Hn. induction adm as [|c adm IH]; intros Hs; [done|].
  change (map optional_item (c :: adm)) with ([optional_item c] ++ map optional_item adm).
  change (c :: adm) with ([c] ++ adm).
  rewrite count_high_app, filter_app, zlen_app, IH by set_solver. f_equal.
  unfold count_high. cbn [mbind list_bind optional_item planned_item pl_candidate_key].
  rewrite app_nil_r, filter_by_key by (done || set_solver). rewrite filter_cons. by destruct (is_high c).
Qed.

(** Whether an optional candidate is planned, and if not, why. *)
Lemma loop_fate p l s c :
  c ∈ l →
  ∃ l1 l2, l = l1 ++ c :: l2 ∧ let s1 := fold_left (consider p) l1 s in
    (optional_item c ∈ planned (fold_left (consider p) l s) ∨
     (∃ reason, excluded_item c reason ∈ excluded (fold_left (consider p) l s)) ∧
     (expertise_available c = false ∨
      is_high c = true ∧ max_high_disruption p ≤ high_disruption s1 ∨
      fltb (plannable_days p) (spent s1 + effort_days c)%float = true)).
Proof.
  intros (l1 & l2 & ->)%list_elem_of_split. exists l1, l2. split; [done|]. cbv zeta.
  rewrite fold_left_app. cbn [fold_left].
  destruct (loop_grows (consider p) l2 (consider p (fold_left (consider p) l1 s) c)) as [Hp He].
  destruct (consider_considered p (fold_left (consider p) l1 s) c) as [_ _ _ E _ _ _|r H E].
  - left. eapply elem_of_prefix; [|exact Hp]. rewrite E. set_solver.
  - right. split; [|done]. exists r. eapply elem_of_prefix; [|exact He]. rewrite E. cbn [refuse excluded]. set_solver.
Qed.

(** A forced candidate is planned as such, or left out for want of expertise. *)
Lemma force_fate l s c :
  c ∈ l →
  if expertise_available c
  then ∃ reason, planned_item c reason true ∈ planned (fold_left force l s)
  else ∃ reason, excluded_item c reason ∈ excluded (fold_left force l s).
Proof.
  intros (l1 & l2 & ->)%list_elem_of_split. rewrite fold_left_app. cbn [fold_left].
  destruct (loop_grows force l2 (force (fold_left force l1 s) c)) as [Hp He]. revert Hp He.
  generalize (planned (fold_left force l2 (force (fold_left force l1 s) c))).
  generalize (excluded (fold_left force l2 (force (fold_left force l1 s) c))). intros ex pl.
  unfold force. destruct (expertise_available c); cbn [negb admit_candidate refuse planned excluded]; intros Hp He;
    eexists; (eapply elem_of_prefix; [apply elem_of_app; right; by apply list_elem_of_singleton|eassumption]).
Qed.
