(* ===== verification/PortStore.v ===== *)
(** * Portfolio: the store

    The rows of db/models/portfolio.py, of the universe and risk tables of
    db/models/organization.py and of the plans of db/models/planning.py, with
    portfolio/repository.py over them, and the JSON the service stores: what
    [model_dump(mode="json")] makes of the declared fields of a model.  A row is
    split into the columns written once and those a later decision writes; unique
    keys, foreign keys and check constraints are enforced.  Of the tenants, the
    profiles and the engagements only their keys are kept.  Columns the service
    neither reads nor writes are left out; rows with equal sort keys come in the
    order they were inserted. *)

From S2P Require Import Prelude Tables PyFloat PyTime Ledger PyText Materiality Quality PortScoring PortPlanning.
Local Open Scope Z_scope.

(** ** Rows *)

Record AuditUniverseEntity := mkAuditUniverseEntity {
  entity_id : string;
  ent_tenant_id : string;
  ent_profile_id : option string;
  entity_type : string;
  external_ref : option string;
  ent_name : string;
  ent_criticality : float;
  ent_active : bool;
  attributes_json : dict
}.
(** The assignments of [register_entity] to the entity it finds. *)
Definition refresh_entity (name : string) (criticality : float) (attributes : dict)
    (e : AuditUniverseEntity) : AuditUniverseEntity :=
  mkAuditUniverseEntity (entity_id e) (ent_tenant_id e) (ent_profile_id e) (entity_type e)
    (external_ref e) name criticality true attributes.

(** The numbers of a risk's latest assessment. *)
Record RiskNumbers := mkRiskNumbers {
  inherent_impact : option float;
  inherent_likelihood : option float;
  rsk_velocity : option float;
  rsk_residual : option float;
  rsk_confidence : float;
  rsk_evidence_json : list string
}.
Definition no_numbers : RiskNumbers := mkRiskNumbers None None None None zero [].

Record Risk := mkRisk {
  risk_id : string;
  rsk_tenant_id : string;
  rsk_code : string;
  rsk_title : string;
  rsk_description : option string;
  rsk_numbers : RiskNumbers
}.
Definition set_rsk_text (title : string) (description : option string) (r : Risk) : Risk :=
  mkRisk (risk_id r) (rsk_tenant_id r) (rsk_code r) title
    (if truthy description then description else rsk_description r) (rsk_numbers r).
Definition set_rsk_numbers (v : RiskNumbers) (r : Risk) : Risk :=
  mkRisk (risk_id r) (rsk_tenant_id r) (rsk_code r) (rsk_title r) (rsk_description r) v.

Record AssessmentSpec := mkAssessmentSpec {
  ras_id : string;
  ras_tenant_id : string;
  ras_risk_id : string;
  ras_version : Z;
  ras_policy_id : string;
  ras_policy_json : dict;
  ras_factors_json : dict;
  ras_components_json : dict;
  ras_inherent : float;
  ras_residual : float;
  ras_rating : string;
  ras_confidence : float;
  ras_audit_priority : float;
  ras_uncovered : bool;
  ras_rationale : string;
  ras_assessed_by : string;
  as_at : date;
  ras_assessed_at : datetime
}.
(** A rating a person set in the place of the computed one. *)
Record Override := mkOverride {
  official_rating : option string;
  official_reason : option string;
  official_by : option string
}.
Record RiskAssessment := mkRiskAssessment { rspec : AssessmentSpec; override : Override }.
Definition set_override (v : Override) (a : RiskAssessment) : RiskAssessment := mkRiskAssessment (rspec a) v.
Definition rasid (a : RiskAssessment) : string := ras_id (rspec a).

Record AssuranceCoverage := mkAssuranceCoverage {
  coverage_id : string;
  cvg_tenant_id : string;
  cvg_risk_id : string;
  cvg_entity_id : option string;
  cvg_source : string;
  cvg_obtained_on : date;
  cvg_scope_note : option string;
  cvg_reference : option string;
  cvg_engagement_id : option string;
  recorded_by : string;
  recorded_at : datetime
}.

Record ProposalSpec := mkProposalSpec {
  proposal_id : string;
  prp_tenant_id : string;
  prp_name : string;
  prp_version : Z;
  scenario : string;
  prp_horizon_start : date;
  prp_horizon_end : date;
  prp_policy_json : dict;
  planned_json : list json;
  excluded_json : list json;
  blind_spots_json : list json;
  prp_planned_days : float;
  prp_plannable_days : float;
  prp_coverage_ratio : float;
  prp_uncovered_priority : float;
  notes_json : list string;
  proposed_by : string
}.
(** What an approval writes. *)
Record Approval := mkApproval {
  prp_status : string;
  prp_plan_id : option string;
  prp_approved_at : option datetime;
  prp_approved_by : option string;
  prp_approval_reason : option string;
  accepted_residual_json : dict
}.
Definition not_approved : Approval := mkApproval "proposed" None None None None [].
Record PlanProposal := mkPlanProposal { pspec : ProposalSpec; approval : Approval }.
Definition set_approval (v : Approval) (p : PlanProposal) : PlanProposal := mkPlanProposal (pspec p) v.
Definition pid (p : PlanProposal) : string := proposal_id (pspec p).
Definition pstatus (p : PlanProposal) : string := prp_status (approval p).

Record AuditPlan := mkAuditPlan {
  plan_id : string;
  pln_tenant_id : string;
  pln_name : string;
  pln_version : Z;
  pln_status : string;
  pln_horizon_start : option date;
  pln_horizon_end : option date;
  coverage_policy_json : dict;
  pln_approved_at : option datetime;
  pln_approved_by : option string
}.

Record PortDB := mkPortDB {
  tenant_keys : list string;
  profile_keys : list string;
  engagement_keys : list string;
  entities : list AuditUniverseEntity;
  risks : list Risk;
  risk_assessments : list RiskAssessment;
  assurance_coverage : list AssuranceCoverage;
  plan_proposals : list PlanProposal;
  audit_plans : list AuditPlan;
  port_ledger : Ledger
}.
Definition set_entities v (db : PortDB) : PortDB :=
  mkPortDB (tenant_keys db) (profile_keys db) (engagement_keys db) v (risks db) (risk_assessments db)
    (assurance_coverage db) (plan_proposals db) (audit_plans db) (port_ledger db).
Definition set_risks v (db : PortDB) : PortDB :=
  mkPortDB (tenant_keys db) (profile_keys db) (engagement_keys db) (entities db) v (risk_assessments db)
    (assurance_coverage db) (plan_proposals db) (audit_plans db) (port_ledger db).
Definition set_assessments v (db : PortDB) : PortDB :=
  mkPortDB (tenant_keys db) (profile_keys db) (engagement_keys db) (entities db) (risks db) v
    (assurance_coverage db) (plan_proposals db) (audit_plans db) (port_ledger db).
Definition set_coverage v (db : PortDB) : PortDB :=
  mkPortDB (tenant_keys db) (profile_keys db) (engagement_keys db) (entities db) (risks db)
    (risk_assessments db) v (plan_proposals db) (audit_plans db) (port_ledger db).
Definition set_proposals v (db : PortDB) : PortDB :=
  mkPortDB (tenant_keys db) (profile_keys db) (engagement_keys db) (entities db) (risks db)
    (risk_assessments db) (assurance_coverage db) v (audit_plans db) (port_ledger db).
Definition set_plans v (db : PortDB) : PortDB :=
  mkPortDB (tenant_keys db) (profile_keys db) (engagement_keys db) (entities db) (risks db)
    (risk_assessments db) (assurance_coverage db) (plan_proposals db) v (port_ledger db).
Definition set_port_ledger v (db : PortDB) : PortDB :=
  mkPortDB (tenant_keys db) (profile_keys db) (engagement_keys db) (entities db) (risks db)
    (risk_assessments db) (assurance_coverage db) (plan_proposals db) (audit_plans db) v.

Abbreviation PortTx := (Tx PortDB).
Definition reading : PortTx PortDB := gets (λ db, db).

(** ** PortfolioRepository *)

Definition opt_within (keys : list string) (o : option string) : bool :=
  match o with Some k => bool_decide (k ∈ keys) | None => true end.
(** [CheckConstraint("criticality >= 0 AND criticality <= 5")]. *)
Definition criticality_range (x : float) : bool := float_within zero (float_of_Z 5) x.

Definition add_entity (e : AuditUniverseEntity) : PortTx unit :=
  db ← reading;
  require (bool_decide (ent_tenant_id e ∈ tenant_keys db) && opt_within (profile_keys db) (ent_profile_id e) &&
           criticality_range (ent_criticality e) &&
           absent (λ e', bool_decide (entity_id e' = entity_id e) ||
             bool_decide (external_ref e ≠ None ∧ ent_tenant_id e' = ent_tenant_id e ∧
                          entity_type e' = entity_type e ∧ external_ref e' = external_ref e)) (entities db))
    (Py IntegrityError) ;;
  modify (set_entities (entities db ++ [e])).
Definition save_entity (id : string) (f : AuditUniverseEntity → AuditUniverseEntity) : PortTx unit :=
  modify (λ db, set_entities (update_row entity_id id f (entities db)) db).

Definition entity_by_ref (db : PortDB) (tenant_id etype : string) (ref : option string)
    : option AuditUniverseEntity :=
  match ref with
  | None => None
  | Some _ =>
      scalar (filter (λ e, ent_tenant_id e = tenant_id ∧ entity_type e = etype ∧ external_ref e = ref)
                (entities db))
  end.
Definition list_entities (db : PortDB) (tenant_id : string) : list AuditUniverseEntity :=
  sort_by (cmp_then (cmp_on entity_type String.compare) (cmp_on ent_name String.compare))
    (filter (λ e, ent_tenant_id e = tenant_id ∧ ent_active e = true) (entities db)).

Definition add_risk (r : Risk) : PortTx unit :=
  db ← reading;
  require (bool_decide (rsk_tenant_id r ∈ tenant_keys db) &&
           unit_interval (rsk_confidence (rsk_numbers r)) &&
           absent (λ r', bool_decide (risk_id r' = risk_id r) ||
             bool_decide (rsk_tenant_id r' = rsk_tenant_id r ∧ rsk_code r' = rsk_code r)) (risks db))
    (Py IntegrityError) ;;
  modify (set_risks (risks db ++ [r])).
Definition save_risk (id : string) (f : Risk → Risk) : PortTx unit :=
  modify (λ db, set_risks (update_row risk_id id f (risks db)) db).

Definition risk_by_code (db : PortDB) (tenant_id code : string) : option Risk :=
  scalar (filter (λ r, rsk_tenant_id r = tenant_id ∧ rsk_code r = code) (risks db)).
Definition list_risks (db : PortDB) (tenant_id : string) : list Risk :=
  sort_by (cmp_on rsk_code String.compare) (filter (λ r, rsk_tenant_id r = tenant_id) (risks db)).

Definition assessments_of (db : PortDB) (risk : string) : list RiskAssessment :=
  filter (λ a, ras_risk_id (rspec a) = risk) (risk_assessments db).
Definition add_assessment (a : RiskAssessment) : PortTx unit :=
  db ← reading;
  require (bool_decide (ras_tenant_id (rspec a) ∈ tenant_keys db) &&
           bool_decide (ras_risk_id (rspec a) ∈ map risk_id (risks db)) &&
           unit_interval (ras_confidence (rspec a)) && unit_interval (ras_residual (rspec a)) &&
           absent (λ a', bool_decide (rasid a' = rasid a) ||
             bool_decide (ras_risk_id (rspec a') = ras_risk_id (rspec a) ∧
                          ras_version (rspec a') = ras_version (rspec a))) (risk_assessments db))
    (Py IntegrityError) ;;
  modify (set_assessments (risk_assessments db ++ [a])).
Definition save_assessment (id : string) (f : RiskAssessment → RiskAssessment) : PortTx unit :=
  modify (λ db, set_assessments (update_row rasid id f (risk_assessments db)) db).

(** [int(select max(version) or 0) + 1]. *)
Definition max_version (l : list Z) : Z := foldr Z.max 0 l.
Definition next_assessment_version (db : PortDB) (risk : string) : Z :=
  max_version (map (λ a, ras_version (rspec a)) (assessments_of db risk)) + 1.
Definition by_version : RiskAssessment → RiskAssessment → comparison := cmp_on (λ a, ras_version (rspec a)) Z.compare.
Definition latest_assessment (db : PortDB) (risk : string) : option RiskAssessment :=
  scalar (sort_by (cmp_desc by_version) (assessments_of db risk)).
Definition assessment_history (db : PortDB) (risk : string) : list RiskAssessment :=
  sort_by by_version (assessments_of db risk).

Definition add_coverage (c : AssuranceCoverage) : PortTx unit :=
  db ← reading;
  require (bool_decide (cvg_tenant_id c ∈ tenant_keys db) && bool_decide (cvg_risk_id c ∈ map risk_id (risks db)) &&
           opt_within (map entity_id (entities db)) (cvg_entity_id c) &&
           opt_within (engagement_keys db) (cvg_engagement_id c) &&
           absent (λ c', bool_decide (coverage_id c' = coverage_id c)) (assurance_coverage db))
    (Py IntegrityError) ;;
  modify (set_coverage (assurance_coverage db ++ [c])).
Definition coverage_for (db : PortDB) (tenant_id risk : string) : list AssuranceCoverage :=
  sort_by (cmp_desc (cmp_on cvg_obtained_on Z.compare))
    (filter (λ c, cvg_tenant_id c = tenant_id ∧ cvg_risk_id c = risk) (assurance_coverage db)).

Definition proposals_named (db : PortDB) (tenant_id name : string) : list PlanProposal :=
  filter (λ p, prp_tenant_id (pspec p) = tenant_id ∧ prp_name (pspec p) = name) (plan_proposals db).
Definition next_proposal_version (db : PortDB) (tenant_id name : string) : Z :=
  max_version (map (λ p, prp_version (pspec p)) (proposals_named db tenant_id name)) + 1.
Definition add_proposal (p : PlanProposal) : PortTx unit :=
  db ← reading;
  require (bool_decide (prp_tenant_id (pspec p) ∈ tenant_keys db) && fleb zero (prp_planned_days (pspec p)) &&
           opt_within (map plan_id (audit_plans db)) (prp_plan_id (approval p)) &&
           absent (λ p', bool_decide (pid p' = pid p) ||
             bool_decide (prp_tenant_id (pspec p') = prp_tenant_id (pspec p) ∧
                          prp_name (pspec p') = prp_name (pspec p) ∧
                          prp_version (pspec p') = prp_version (pspec p))) (plan_proposals db))
    (Py IntegrityError) ;;
  modify (set_proposals (plan_proposals db ++ [p])).
Definition save_proposal (id : string) (f : PlanProposal → PlanProposal) : PortTx unit :=
  modify (λ db, set_proposals (update_row pid id f (plan_proposals db)) db).
Definition get_proposal (db : PortDB) (tenant_id id : string) : option PlanProposal :=
  scalar (filter (λ p, prp_tenant_id (pspec p) = tenant_id ∧ pid p = id) (plan_proposals db)).
Definition list_proposals (db : PortDB) (tenant_id : string) : list PlanProposal :=
  sort_by (cmp_then (cmp_on (λ p, prp_name (pspec p)) String.compare)
             (cmp_on (λ p, prp_version (pspec p)) Z.compare))
    (filter (λ p, prp_tenant_id (pspec p) = tenant_id) (plan_proposals db)).
Definition add_plan (p : AuditPlan) : PortTx unit :=
  db ← reading;
  require (bool_decide (pln_tenant_id p ∈ tenant_keys db) &&
           absent (λ p', bool_decide (plan_id p' = plan_id p) ||
             bool_decide (pln_tenant_id p' = pln_tenant_id p ∧ pln_name p' = pln_name p ∧
                          pln_version p' = pln_version p)) (audit_plans db)) (Py IntegrityError) ;;
  modify (set_plans (audit_plans db ++ [p])).

(** ** What the service stores as JSON *)

Definition jstrs (l : list string) : json := JList (map JStr l).
Definition date_json (d : date) : json := JStr (date_isoformat d).
Definition opt_date_json (d : option date) : json := match d with Some d => date_json d | None => JNull end.

Definition dump_control (c : ControlEvidence) : json :=
  JObj [("control_ref", JStr (control_ref c)); ("maturity", JFloat (maturity c));
        ("coverage", JFloat (ce_coverage c)); ("tested_effective", JBool (tested_effective c));
        ("last_tested_on", opt_date_json (last_tested_on c)); ("evidence_ids", jstrs (ce_evidence_ids c))].
Definition dump_coverage (r : CoverageRecord) : json :=
  JObj [("source", JStr (value (source r))); ("obtained_on", date_json (obtained_on r));
        ("scope_note", JStr (scope_note r)); ("reference", opt_json (cov_reference r))].
Definition dump_factors (f : RiskFactors) : dict :=
  [("impact", JFloat (impact f)); ("likelihood", JFloat (likelihood f)); ("velocity", JFloat (velocity f));
   ("change_intensity", JFloat (change_intensity f)); ("detectability", JFloat (detectability f));
   ("external_exposure", JFloat (external_exposure f)); ("controls", JList (map dump_control (controls f)));
   ("coverage", JList (map dump_coverage (coverage f))); ("evidence_ids", jstrs (rf_evidence_ids f))].
Definition dump_scoring (p : ScoringPolicy) : dict :=
  [("policy_id", JStr (sp_policy_id p)); ("max_control_reduction", JFloat (max_control_reduction p));
   ("test_staleness_days", JInt (test_staleness_days p)); ("velocity_weight", JFloat (velocity_weight p));
   ("change_weight", JFloat (change_weight p)); ("exposure_weight", JFloat (exposure_weight p));
   ("reliance", JObj (map (λ '(s, x), (value s, JFloat x)) (reliance p)));
   ("coverage_staleness_days", JInt (coverage_staleness_days p));
   ("rating_bands", JList (map (λ '(x, s), JList [JFloat x; JStr s]) (rating_bands p)));
   ("confidence_floor", JFloat (confidence_floor p)); ("uncertainty_premium", JFloat (uncertainty_premium p))].
Definition dump_capacity (p : CapacityPolicy) : dict :=
  [("horizon_start", date_json (horizon_start p)); ("horizon_end", date_json (horizon_end p));
   ("available_days", JFloat (available_days p));
   ("minimum_coverage_criticality", JFloat (minimum_coverage_criticality p));
   ("coverage_interval_months", JInt (coverage_interval_months p));
   ("contingency_fraction", JFloat (contingency_fraction p)); ("max_high_disruption", JInt (max_high_disruption p))].
Definition dump_planned (i : PlannedItem) : dict :=
  [("candidate_key", JStr (pl_candidate_key i)); ("entity_ref", JStr (pl_entity_ref i));
   ("risk_ref", JStr (pl_risk_ref i)); ("title", JStr (pl_title i)); ("objective", JStr (pl_objective i));
   ("effort_days", JFloat (pl_effort_days i)); ("audit_priority", JFloat (pl_audit_priority i));
   ("value_density", JFloat (pl_value_density i)); ("rating", JStr (pl_rating i));
   ("confidence", JFloat (pl_confidence i)); ("cadence_months", JInt (cadence_months i));
   ("reason", JStr (pl_reason i)); ("forced_by_minimum_coverage", JBool (forced_by_minimum_coverage i));
   ("audit_pack_ref", opt_json (pl_audit_pack_ref i))].
Definition dump_excluded (i : ExcludedItem) : dict :=
  [("candidate_key", JStr (ex_candidate_key i)); ("entity_ref", JStr (ex_entity_ref i));
   ("risk_ref", JStr (ex_risk_ref i)); ("title", JStr (ex_title i)); ("effort_days", JFloat (ex_effort_days i));
   ("audit_priority", JFloat (ex_audit_priority i)); ("rating", JStr (ex_rating i));
   ("reason", JStr (ex_reason i)); ("uncovered", JBool (ex_uncovered i))].
Definition dump_recommendation (r : PlanRecommendation) : dict :=
  [("horizon_start", date_json (rec_horizon_start r)); ("horizon_end", date_json (rec_horizon_end r));
   ("planned", JList (map (λ i, JObj (dump_planned i)) (rec_planned r)));
   ("excluded", JList (map (λ i, JObj (dump_excluded i)) (rec_excluded r)));
   ("blind_spots", JList (map JObj (blind_spots r))); ("planned_days", JFloat (planned_days r));
   ("plannable_days", JFloat (rec_plannable_days r)); ("contingency_days", JFloat (contingency_days r));
   ("coverage_ratio", JFloat (coverage_ratio r)); ("uncovered_priority", JFloat (uncovered_priority r));
   ("policy_notes", jstrs (policy_notes r))].

(** [item.get(key)] of an item of a stored list. *)
Definition item_get (key : string) (item : json) : json :=
  match item with JObj fields => default JNull (dict_get key fields) | _ => JNull end.
