(* ===== verification/PortService.v ===== *)
(** * Portfolio: the service

    [PortfolioService] of portfolio/service.py: the audit universe, the ratings of
    risks and the plans they justify.  One definition per operation, the body of its
    transaction with the checks made before it opens. *)

From S2P Require Import Prelude Tables PyFloat PyTime Ledger PyText Materiality Quality PortScoring PortPlanning PortStore.
Local Open Scope Z_scope.

Record PortfolioService := mkPortfolioService { agent_role_prefixes : list string }.
Definition default_service : PortfolioService := mkPortfolioService ["agent:"; "svc:"; "system:"].
Definition is_agent (s : PortfolioService) (actor : string) : bool :=
  startswith (lower actor) (agent_role_prefixes s).

(** [risk.inherent_impact = ...] and the assignments after it. *)
Definition numbers_of (f : RiskFactors) (r : RiskScore) : RiskNumbers :=
  mkRiskNumbers (Some (impact f)) (Some (likelihood f)) (Some (velocity f)) (Some (residual r))
    (rs_confidence r) (rf_evidence_ids f).

Section service.
Context `{UuidSource}.

Definition on_ledger {A} (m : Tx Ledger A) : PortTx A := zoom port_ledger set_port_ledger m.
Definition fresh (prefix : string) : PortTx string := on_ledger (new_id prefix).
Definition utc_now : PortTx datetime := gets (λ db, wall_clock (port_ledger db)).

Definition _emit (tenant_id aggregate_id event_type : string) (payload : dict) (key aggregate_type : string)
    : PortTx unit :=
  event ← on_ledger new_event_id;
  now ← utc_now;
  on_ledger (append (mkAuditEvent event event_type tenant_id None None now payload)) ;;
  on_ledger (outbox_add tenant_id aggregate_type aggregate_id event_type payload key).

Definition _require_risk (db : PortDB) (tenant_id code : string) : PortTx Risk :=
  some_or_raise (Port RiskNotFoundError) (risk_by_code db tenant_id code).

(** ** The universe *)

Definition register_entity (tenant_id etype name : string) (criticality : float) (ref : option string)
    (attributes : dict) (profile : option string) : PortTx string :=
  db ← reading;
  match (if truthy ref then entity_by_ref db tenant_id etype ref else None) with
  | Some existing =>
      require (criticality_range criticality) (Py IntegrityError) ;;
      save_entity (entity_id existing) (refresh_entity name criticality attributes) ;;
      mret (entity_id existing)
  | None =>
      id ← fresh "ent";
      add_entity (mkAuditUniverseEntity id tenant_id profile etype ref name criticality true attributes) ;;
      mret id
  end.

Definition register_risk (tenant_id code title : string) (description : option string) : PortTx string :=
  db ← reading;
  match risk_by_code db tenant_id code with
  | Some existing =>
      save_risk (risk_id existing) (set_rsk_text title description) ;;
      mret (risk_id existing)
  | None =>
      id ← fresh "rsk";
      add_risk (mkRisk id tenant_id code title description no_numbers) ;;
      mret id
  end.

Definition record_coverage (tenant_id code : string) (src : AssuranceSource) (obtained : date) (by_ : string)
    (note : string) (reference engagement entity : option string) : PortTx string :=
  db ← reading;
  risk ← _require_risk db tenant_id code;
  id ← fresh "cov";
  now ← utc_now;
  add_coverage (mkAssuranceCoverage id tenant_id (risk_id risk) entity (value src) obtained
    (if decide (note = "") then None else Some note) reference engagement by_ now) ;;
  mret id.

(** ** Risk assessment *)

Definition assess_risk (tenant_id code : string) (factors : RiskFactors) (by_ : string) (at_ : date)
    (policy : option ScoringPolicy) : PortTx RiskAssessment :=
  let policy := default default_scoring policy in
  result ← from_res (score factors (Some policy) at_);
  db ← reading;
  risk ← _require_risk db tenant_id code;
  let version := next_assessment_version db (risk_id risk) in
  id ← fresh "rsa";
  now ← utc_now;
  let record := mkRiskAssessment
    (mkAssessmentSpec id tenant_id (risk_id risk) version (sp_policy_id policy) (dump_scoring policy)
       (dump_factors factors) (rs_components result) (inherent result) (residual result) (rating result)
       (rs_confidence result) (audit_priority result) (uncovered result) (rs_rationale result) by_ at_ now)
    (mkOverride None None None) in
  add_assessment record ;;
  save_risk (risk_id risk) (set_rsk_numbers (numbers_of factors result)) ;;
  untested ← some_or_raise (Py KeyError) (dict_get "untested_controls" (rs_components result));
  _emit tenant_id (risk_id risk) "risk.assessed"
    [("risk_id", JStr (risk_id risk)); ("code", JStr code); ("version", JInt version);
     ("inherent", JFloat (inherent result)); ("residual", JFloat (residual result));
     ("rating", JStr (rating result)); ("confidence", JFloat (rs_confidence result));
     ("audit_priority", JFloat (audit_priority result)); ("untested_controls", untested);
     ("assessed_by", JStr by_)]
    ("risk-assessed:" +:+ id) "risk" ;;
  mret record.

Definition set_official_rating (s : PortfolioService) (tenant_id code rating actor reason : string)
    : PortTx RiskAssessment :=
  require (negb (is_agent s actor)) (Port PlanStateError) ;;
  db ← reading;
  risk ← _require_risk db tenant_id code;
  a ← some_or_raise (Port RiskNotFoundError) (latest_assessment db (risk_id risk));
  let decided := set_override (mkOverride (Some rating) (Some reason) (Some actor)) in
  save_assessment (rasid a) decided ;;
  _emit tenant_id (risk_id risk) "risk.rating_overridden"
    [("risk_id", JStr (risk_id risk)); ("code", JStr code); ("computed_rating", JStr (ras_rating (rspec a)));
     ("official_rating", JStr rating); ("actor_id", JStr actor); ("reason", JStr reason)]
    ("risk-override:" +:+ rasid a) "risk" ;;
  mret (decided a).

(** A line of the register: a risk and its latest assessment. *)
Definition register_row (db : PortDB) (r : Risk) : dict :=
  let a := latest_assessment db (risk_id r) in
  let show {A} (f : RiskAssessment → A) (j : A → json) : json :=
    match a with Some a => j (f a) | None => JNull end in
  [("code", JStr (rsk_code r)); ("title", JStr (rsk_title r));
   ("computed_rating", show (λ a, ras_rating (rspec a)) JStr);
   ("official_rating", show (λ a, official_rating (override a)) opt_json);
   ("effective_rating", show (λ a, str_or (official_rating (override a)) (ras_rating (rspec a))) JStr);
   ("residual", show (λ a, ras_residual (rspec a)) JFloat);
   ("confidence", show (λ a, ras_confidence (rspec a)) JFloat);
   ("audit_priority", show (λ a, ras_audit_priority (rspec a)) JFloat);
   ("uncovered", match a with Some a => JBool (ras_uncovered (rspec a)) | None => JBool true end);
   ("assessed_as_at", show (λ a, as_at (rspec a)) date_json);
   ("untested_controls",
    match a with
    | Some a => default (JList []) (dict_get "untested_controls" (ras_components_json (rspec a)))
    | None => JList []
    end)].
Definition register_view (tenant_id : string) : PortTx (list dict) :=
  db ← reading; mret (map (register_row db) (list_risks db tenant_id)).

(** ** Planning *)

Definition propose_plan (tenant_id name : string) (candidates : list Candidate) (policy : CapacityPolicy)
    (by_ scenario : string) : PortTx dict :=
  require (nonempty candidates) (Port CapacityError) ;;
  r ← from_res (recommend candidates policy);
  db ← reading;
  let version := next_proposal_version db tenant_id name in
  id ← fresh "plp";
  let record := mkPlanProposal
    (mkProposalSpec id tenant_id name version scenario (horizon_start policy) (horizon_end policy)
       (dump_capacity policy) (map (λ i, JObj (dump_planned i)) (rec_planned r))
       (map (λ i, JObj (dump_excluded i)) (rec_excluded r)) (map JObj (blind_spots r))
       (planned_days r) (rec_plannable_days r) (coverage_ratio r) (uncovered_priority r) (policy_notes r) by_)
    not_approved in
  add_proposal record ;;
  _emit tenant_id id "plan.proposed"
    [("proposal_id", JStr id); ("name", JStr name); ("version", JInt version); ("scenario", JStr scenario);
     ("planned", JInt (zlen (rec_planned r))); ("excluded", JInt (zlen (rec_excluded r)));
     ("blind_spots", JInt (zlen (blind_spots r))); ("planned_days", JFloat (planned_days r));
     ("coverage_ratio", JFloat (coverage_ratio r)); ("proposed_by", JStr by_)]
    ("plan-proposed:" +:+ id) "plan_proposal" ;;
  mret (dict_update
    [("proposal_id", JStr id); ("name", JStr name); ("version", JInt version); ("scenario", JStr scenario)]
    (dump_recommendation r ++ [("deliverable", JBool (is_deliverable r))])).

(** [simulate] opens no session. *)
Definition simulate (candidates : list Candidate) (policy : CapacityPolicy) : Res dict :=
  let? r := recommend candidates policy in
  Ok (dump_recommendation r ++ [("deliverable", JBool (is_deliverable r))]).

(** What accepting a proposal accepts. *)
Definition accepted_residual (p : ProposalSpec) (by_ : string) (now : datetime) : dict :=
  [("accepted_by", JStr by_); ("accepted_at", JStr (isoformat now));
   ("uncovered_priority", JFloat (prp_uncovered_priority p));
   ("excluded", JList (map (λ i, JObj [("candidate_key", item_get "candidate_key" i);
      ("risk_ref", item_get "risk_ref" i); ("rating", item_get "rating" i); ("reason", item_get "reason" i)])
      (excluded_json p)));
   ("blind_spots", JList (map (λ i, JObj [("candidate_key", item_get "candidate_key" i);
      ("risk_ref", item_get "risk_ref" i); ("rating", item_get "rating" i)]) (blind_spots_json p)))].

Definition approve_plan (s : PortfolioService) (tenant_id id by_ reason : string) : PortTx dict :=
  require (negb (is_agent s by_)) (Port PlanStateError) ;;
  db ← reading;
  p ← some_or_raise (Port PlanNotFoundError) (get_proposal db tenant_id id);
  if decide (pstatus p = "approved") then
    mret [("proposal_id", JStr id); ("plan_id", opt_json (prp_plan_id (approval p))); ("created", JBool false)]
  else
    require (bool_decide (pstatus p = "proposed")) (Port PlanStateError) ;;
    require (negb (fltb (prp_plannable_days (pspec p)) (prp_planned_days (pspec p)))) (Port CapacityError) ;;
    plan ← fresh "pln";
    now ← utc_now;
    add_plan (mkAuditPlan plan tenant_id (prp_name (pspec p)) (prp_version (pspec p)) "approved"
      (Some (prp_horizon_start (pspec p))) (Some (prp_horizon_end (pspec p))) (prp_policy_json (pspec p))
      (Some now) (Some by_)) ;;
    let residual := accepted_residual (pspec p) by_ now in
    save_proposal id
      (set_approval (mkApproval "approved" (Some plan) (Some now) (Some by_) (Some reason) residual)) ;;
    _emit tenant_id id "plan.approved"
      [("proposal_id", JStr id); ("plan_id", JStr plan); ("approved_by", JStr by_); ("reason", JStr reason);
       ("planned", JInt (zlen (planned_json (pspec p)))); ("excluded", JInt (zlen (excluded_json (pspec p))));
       ("blind_spots", JInt (zlen (blind_spots_json (pspec p))));
       ("uncovered_priority", JFloat (prp_uncovered_priority (pspec p)))]
      ("plan-approved:" +:+ id) "plan_proposal" ;;
    mret [("proposal_id", JStr id); ("plan_id", JStr plan); ("created", JBool true);
          ("accepted_residual", JObj residual)].

Definition proposal_view (tenant_id id : string) : PortTx dict :=
  db ← reading;
  p ← some_or_raise (Port PlanNotFoundError) (get_proposal db tenant_id id);
  let s := pspec p in
  mret [("proposal_id", JStr (proposal_id s)); ("name", JStr (prp_name s)); ("version", JInt (prp_version s));
        ("status", JStr (pstatus p)); ("scenario", JStr (scenario s));
        ("horizon_start", date_json (prp_horizon_start s)); ("horizon_end", date_json (prp_horizon_end s));
        ("planned", JList (planned_json s)); ("excluded", JList (excluded_json s));
        ("blind_spots", JList (blind_spots_json s)); ("planned_days", JFloat (prp_planned_days s));
        ("plannable_days", JFloat (prp_plannable_days s)); ("coverage_ratio", JFloat (prp_coverage_ratio s));
        ("uncovered_priority", JFloat (prp_uncovered_priority s)); ("notes", jstrs (notes_json s));
        ("plan_id", opt_json (prp_plan_id (approval p))); ("approved_by", opt_json (prp_approved_by (approval p)));
        ("accepted_residual", JObj (accepted_residual_json (approval p)))].
End service.
