(* ===== verification/PortProperties.v ===== *)
(** * Portfolio: properties

    What a risk score and a recommended plan guarantee, with their witnesses. *)

From S2P Require Import Prelude PyFloat PyFloatBounds PyTime Ledger PyText Materiality Quality PortScoring.
From S2P Require Import PortPlanning.
Local Open Scope Z_scope.

(** ** The passes of a recommendation *)

(** The selection after minimum coverage, that with its high-disruption work
    counted, and the final one. *)
Definition forced_pass (cs : list Candidate) (p : CapacityPolicy) : Selection :=
  fold_left force (sort_by by_criticality (forced_of p cs)) empty_selection.
Definition counted_pass (cs : list Candidate) (p : CapacityPolicy) : Selection :=
  let s := forced_pass cs p in
  mkSelection (spent s) (planned s) (excluded s) (count_high (planned s) cs).
Definition ranked (cs : list Candidate) (p : CapacityPolicy) : list Candidate :=
  sort_by by_density (optional_of p cs).
Definition final_pass (cs : list Candidate) (p : CapacityPolicy) : Selection :=
  fold_left (consider p) (ranked cs p) (counted_pass cs p).

Section passes.
Context (cs : list Candidate) (p : CapacityPolicy).

Local Abbreviation forced_loop := (forced_pass cs p).
Local Abbreviation final := (final_pass cs p).

Lemma passes_eq : passes cs p = (forced_loop, final).
Proof. done. Qed.

Lemma recommendation_fields :
  rec_planned (recommendation cs p) = planned final ∧ rec_excluded (recommendation cs p) = excluded final ∧
  planned_days (recommendation cs p) = fround (spent final) 4.
Proof. unfold recommendation. by rewrite passes_eq. Qed.

Lemma forced_elem c : c ∈ sort_by by_criticality (forced_of p cs) ↔ c ∈ cs ∧ needs p c = true.
Proof. rewrite elem_of_sort_by. unfold forced_of. rewrite list_elem_of_filter. tauto. Qed.
Lemma ranked_elem c : c ∈ ranked cs p ↔ c ∈ cs ∧ needs p c = false.
Proof. unfold ranked. rewrite elem_of_sort_by. unfold optional_of. rewrite list_elem_of_filter. tauto. Qed.

Lemma final_keys : selection_keys final ≡ₚ map candidate_key cs.
Proof.
  unfold final_pass. rewrite (loop_keys (consider p)).
  change (selection_keys (counted_pass cs p)) with (selection_keys forced_loop).
  unfold forced_pass, ranked. rewrite (loop_keys force), <- app_assoc, <- map_app.
  by rewrite !sort_by_Permutation, <- forced_optional.
Qed.

Lemma final_grows :
  planned forced_loop `prefix_of` planned final ∧ excluded forced_loop `prefix_of` excluded final.
Proof. apply (loop_grows (consider p) _ (counted_pass cs p)). Qed.

(** Everything planned is a candidate the function has the expertise for. *)
Lemma final_planned i :
  i ∈ planned final →
  ∃ c r, c ∈ cs ∧ expertise_available c = true ∧ i = planned_item c r (needs p c).
Proof.
  intros [Hi|(c & r & [Hc <-]%ranked_elem & He & ->)]%(loop_planned (consider p)); [|by exists c, r].
  apply (loop_planned force) in Hi as [Hi%elem_of_nil|(c & r & [Hc <-]%forced_elem & He & ->)]; [done|].
  by exists c, r.
Qed.

Lemma final_forced c :
  c ∈ cs → needs p c = true →
  if expertise_available c
  then ∃ reason, planned_item c reason true ∈ planned final
  else ∃ reason, excluded_item c reason ∈ excluded final.
Proof.
  intros Hc Hn. pose proof (force_fate _ empty_selection c (proj2 (forced_elem c) (conj Hc Hn))) as H.
  destruct final_grows as [Hp He].
  destruct (expertise_available c), H as [r H]; exists r; by eapply elem_of_prefix.
Qed.

Lemma forced_flags i : i ∈ planned forced_loop → forced_by_minimum_coverage i = true.
Proof. by intros [Hi%elem_of_nil|(c & r & _ & _ & ->)]%(loop_planned force). Qed.

Lemma counted_spent : spent (counted_pass cs p) = total_days (planned (counted_pass cs p)).
Proof. by apply (loop_spent force). Qed.
Lemma final_spent : spent final = total_days (planned final).
Proof. apply (loop_spent (consider p)), counted_spent. Qed.

(** The loop's counter is the number of high-disruption candidates planned. *)
Lemma second_count l :
  NoDup (map candidate_key cs) → l ⊆ cs →
  let s := fold_left (consider p) l (counted_pass cs p) in high_disruption s = count_high (planned s) cs.
Proof.
  intros Hk Hl. cbv zeta. destruct (loop_limits p l (counted_pass cs p)) as (adm & Hs & -> & -> & _).
  rewrite count_high_app, count_high_items; [done|done|].
  intros x Hx. apply Hl. by eapply elem_of_sublist.
Qed.

Lemma second_items l i :
  i ∈ planned (fold_left (consider p) l (counted_pass cs p)) →
  forced_by_minimum_coverage i = true ∨ ∃ c, c ∈ l ∧ i = optional_item c.
Proof.
  destruct (loop_limits p l (counted_pass cs p)) as (adm & Hs & -> & _).
  intros [?|(c & -> & Hc)%list_elem_of_fmap]%elem_of_app; [left; by apply forced_flags|right].
  exists c. split; [by eapply elem_of_sublist|done].
Qed.

(** Minimum coverage planned what is flagged so. *)
Lemma final_forced_items :
  filter (λ i, forced_by_minimum_coverage i = true) (planned final) = planned forced_loop.
Proof.
  unfold final_pass. destruct (loop_limits p (ranked cs p) (counted_pass cs p)) as (adm & _ & -> & _).
  rewrite filter_app, (filter_all _ (planned (counted_pass cs p))), filter_none, app_nil_r; [done|..].
  - by intros i (c & -> & _)%list_elem_of_fmap.
  - apply forced_flags.
Qed.

Lemma ranked_subseteq : ranked cs p ⊆ cs.
Proof. by intros x [Hx _]%ranked_elem. Qed.
End passes.
(** What a plan leaves out of the optional candidates, and why. *)
Definition passed_over (cs : list Candidate) (p : CapacityPolicy) (pl : list PlannedItem) (c : Candidate) : Prop :=
  expertise_available c = false ∨
  is_high c = true ∧ max_high_disruption p ≤ count_high pl cs ∨
  ∃ k, fltb (plannable_days p) (total_days (take k pl) + effort_days c)%float = true ∧
    ∀ i, i ∈ take k pl → forced_by_minimum_coverage i = true ∨
      ∃ c', c' ∈ cs ∧ i = optional_item c' ∧ by_density c' c ≠ Gt.

Lemma optional_passed_over cs p c :
  NoDup (map candidate_key cs) → c ∈ cs → needs p c = false →
  let r := recommendation cs p in
  optional_item c ∈ rec_planned r ∨
  (∃ reason, excluded_item c reason ∈ rec_excluded r) ∧ passed_over cs p (rec_planned r) c.
Proof.
  intros Hk Hc Hn. cbv zeta. destruct (recommendation_fields cs p) as (-> & -> & _). unfold final_pass.
  pose proof (proj2 (ranked_elem cs p c) (conj Hc Hn)) as Hin.
  assert (Hsorted : StronglySorted (λ x y, by_density x y ≠ Gt) (ranked cs p)) by exact (sort_by_sorted by_density (optional_of p cs)).
  pose proof (ranked_subseteq cs p) as Hsub. revert Hin Hsorted Hsub. generalize (ranked cs p). intros l Hin Hsorted Hsub.
  destruct (loop_fate p l (counted_pass cs p) c Hin) as (l1 & l2 & -> & [Hp|[He Hwhy]]); [by left|right].
  split; [done|]. destruct Hwhy as [Hx|[[Hh Hm]|Hf]]; [by left|right; left|right; right].
  - split; [done|]. rewrite <- second_count by done. rewrite fold_left_app.
    destruct (loop_limits p (c :: l2) (fold_left (consider p) l1 (counted_pass cs p))) as (adm & _ & _ & -> & _).
    unfold zlen. lia.
  - rewrite (loop_spent (consider p)) in Hf by apply counted_spent. rewrite fold_left_app.
    destruct (loop_grows (consider p) (c :: l2) (fold_left (consider p) l1 (counted_pass cs p))) as [[rest ->] _].
    exists (length (planned (fold_left (consider p) l1 (counted_pass cs p)))). rewrite take_app_length.
    split; [done|]. intros i [Hi|(c' & Hc' & ->)]%second_items; [by left|right]. exists c'.
    split_and!; [apply Hsub, elem_of_app; by left|done|].
    by apply (StronglySorted_app_1_elem_of (λ x y, by_density x y ≠ Gt) l1 (c :: l2)); [..|left].
Qed.

(** A recommendation loses no candidate and
    invents none: each is either planned or excluded, and what is planned is a
    candidate of the list the function has the expertise for.  Minimum coverage is
    not ranked: a candidate it forces is planned whatever its priority and the
    capacity left, and left out only for want of expertise.  Every uncovered risk
    the plan leaves out is reported as a blind spot.  The only way a recommendation
    fails is a due date past the end of the calendar. *)
Theorem plan_accounts_for_every_candidate cs p :
  match recommend cs p with
  | Ok r =>
      map pl_candidate_key (rec_planned r) ++ map ex_candidate_key (rec_excluded r) ≡ₚ
        map candidate_key cs ∧
      (∀ i, i ∈ rec_planned r → ∃ c reason, c ∈ cs ∧ expertise_available c = true ∧
        _needs_coverage c p = Ok (forced_by_minimum_coverage i) ∧
        i = planned_item c reason (forced_by_minimum_coverage i)) ∧
      (∀ c, c ∈ cs → _needs_coverage c p = Ok true →
        if expertise_available c
        then ∃ reason, planned_item c reason true ∈ rec_planned r
        else ∃ reason, excluded_item c reason ∈ rec_excluded r) ∧
      (∀ c, c ∈ cs → uncovered (cand_score c) = true →
        candidate_key c ∈ map pl_candidate_key (rec_planned r) ∨ blind_spot c ∈ blind_spots r)
  | Err e => e = Py OverflowError ∧ ∃ c, c ∈ cs ∧ _needs_coverage c p = Err (Py OverflowError)
  end.
Proof.
  destruct (recommend_cases cs p) as [[-> Hn]|[-> H]]; [|done].
  destruct (recommendation_fields cs p) as (Hp & He & _). rewrite Hp, He. split_and!.
  - apply final_keys.
  - intros i (c & r & Hc & Hx & ->)%final_planned. exists c, r. cbn. by rewrite Hn.
  - intros c Hc E. rewrite Hn in E by done. injection E as E. by apply final_forced.
  - intros c Hc Hu. destruct (decide (candidate_key c ∈ map pl_candidate_key (rec_planned (recommendation cs p))))
      as [Hk|Hk]; [left; by rewrite Hp in Hk|right].
    unfold recommendation in *. rewrite passes_eq in *. cbn [rec_planned blind_spots] in *.
    apply list_elem_of_fmap_2, list_elem_of_filter. done.
Qed.



(** ** The order the candidates come in *)

Lemma tie_key c x y : cmp_then c (cmp_on candidate_key String.compare) x y = Eq → candidate_key x = candidate_key y.
Proof.
  unfold cmp_then, cmp_on. destruct (c x y); [|done|done]. apply String.compare_eq_iff.
Qed.

Section reordered.
Context (cs cs' : list Candidate) (p : CapacityPolicy).
Context (Hp : cs ≡ₚ cs') (Hk : NoDup (map candidate_key cs)).

Lemma sort_reordered c (P : Candidate → Prop) `{!∀ x, Decision (P x)}
    `{!Comparator (cmp_then c (cmp_on candidate_key String.compare)),
      !CmpTrans (cmp_then c (cmp_on candidate_key String.compare))} :
  sort_by (cmp_then c (cmp_on candidate_key String.compare)) (filter P cs) =
  sort_by (cmp_then c (cmp_on candidate_key String.compare)) (filter P cs').
Proof.
  apply (sort_by_ext _ (filter P cs) (filter P cs')); [|by rewrite Hp].
  intros x y [_ Hx]%list_elem_of_filter [_ Hy]%list_elem_of_filter E%tie_key.
  by eapply NoDup_map_inj.
Qed.

Lemma count_reordered pl : count_high pl cs = count_high pl cs'.
Proof.
  induction pl as [|i pl IH]; [done|].
  change (i :: pl) with ([i] ++ pl). rewrite !count_high_app, IH. f_equal.
  unfold count_high, zlen. cbn [mbind list_bind]. by rewrite !app_nil_r, Hp.
Qed.

Lemma passes_reordered : passes cs p = passes cs' p.
Proof.
  rewrite !passes_eq. unfold final_pass, counted_pass, ranked, optional_of.
  assert (E : forced_pass cs p = forced_pass cs' p).
  { unfold forced_pass, forced_of, by_criticality.
    by rewrite (sort_reordered (cmp_desc (cmp_on criticality float_compare)) (λ c, needs p c = true)). }
  rewrite E, count_reordered. unfold by_density.
  by rewrite (sort_reordered (cmp_desc (cmp_on value_density float_compare)) (λ c, needs p c = false)).
Qed.

Lemma needs_reordered e : (∃ c, c ∈ cs ∧ _needs_coverage c p = Err e) ↔ (∃ c, c ∈ cs' ∧ _needs_coverage c p = Err e).
Proof. split; intros (c & Hc & E); exists c; (rewrite Hp in Hc || rewrite <- Hp in Hc); done. Qed.
End reordered.

#[export] Instance recommend_notes_Permutation p first : Proper ((≡ₚ) ==> (=)) (recommend_notes p first).
Proof. intros a b Hb. unfold recommend_notes. cbv zeta. rewrite !Hb. reflexivity. Qed.

(** The plan does not depend on the order the candidates (none of them with a NaN in what it is ranked by)
    are given in: with distinct keys, a reordering gives the same planned items in
    the same order, the same exclusions, days and notes, and the same blind spots up
    to their order; it fails exactly when the other fails, in the same way. *)
Theorem plan_order_independent cs cs' p :
  cs ≡ₚ cs' → NoDup (map candidate_key cs) →
  match recommend cs p, recommend cs' p with
  | Ok r, Ok r' =>
      rec_planned r = rec_planned r' ∧ rec_excluded r = rec_excluded r' ∧
      planned_days r = planned_days r' ∧ policy_notes r = policy_notes r' ∧ blind_spots r ≡ₚ blind_spots r'
  | Err e, Err e' => e = e'
  | _, _ => False
  end.
Proof.
  intros Hp Hk. pose proof (needs_reordered cs cs' p Hp (Py OverflowError)) as Hn.
  destruct (recommend_cases cs p) as [[-> H]|[-> H]], (recommend_cases cs' p) as [[-> H']|[-> H']]; [|exfalso..|done].
  2: { apply Hn in H' as (c & Hc & E). by rewrite H in E. }
  2: { apply Hn in H as (c & Hc & E). by rewrite H' in E. }
  unfold recommendation. rewrite (passes_reordered cs cs' p Hp Hk). destruct (passes cs' p) as [first s].
  cbn [rec_planned rec_excluded planned_days policy_notes blind_spots].
  by rewrite Hp.
Qed.

(** ** Risk scores *)

Lemma fraction_unit x : fraction x = true → unit_interval x = true.
Proof.
  unfold fraction, unit_interval, float_within. rewrite !andb_true_iff. intros [[_ Hn] H1].
  split; [by destruct x as [|[]| |[]]|done].
Qed.


(** ** Witnesses *)

Definition sample_control : ControlEvidence :=
  mkControlEvidence "CTL-1" (dec 8 1) (dec 9 1) true (Some 738900) ["ev-1"].
Definition paper_control : ControlEvidence := mkControlEvidence "CTL-2" one one false None [].
Definition sample_factors : RiskFactors :=
  mkRiskFactors (dec 9 1) (dec 7 1) (dec 5 1) (dec 3 1) (dec 5 1) (dec 2 1) [sample_control; paper_control]
    [mkCoverageRecord AssuranceSource.MANAGEMENT_TESTING 738800 "quarterly self-test" None] ["ev-2"].

Lemma default_reliance_fractions s : fraction (reliance_on default_scoring s) = true.
Proof. by destruct s; vm_compute. Qed.


Definition sample_score (priority : float) (covered : bool) : RiskScore :=
  mkRiskScore "default-v1" (dec 8 1) (dec 5 1) "high" (dec 6 1) priority (negb covered) [] "sample".
Definition sample_candidate (key : string) (priority effort criticality : float) (d : disruption)
    (covered : bool) : Candidate :=
  mkCandidate key "ENT-1" "RSK-1" "A candidate audit" "Objective of the audit" (sample_score priority covered)
    effort criticality d [] true None [] 12 None.

(** One forced candidate, one that fits, one that does not, and one over the
    high-disruption maximum. *)
Definition critical_entity := sample_candidate "C1" (dec 1 1) (float_of_Z 6) (float_of_Z 5) disruption_low true.
Definition dense_candidate := sample_candidate "C2" (dec 8 1) (float_of_Z 2) one disruption_low true.
Definition heavy_candidate := sample_candidate "C3" (dec 9 1) (float_of_Z 9) one disruption_low false.
Definition intrusive_candidate := sample_candidate "C4" (dec 3 1) one one disruption_high true.
Definition sample_candidates : list Candidate :=
  [heavy_candidate; intrusive_candidate; dense_candidate; critical_entity].
Definition sample_capacity : CapacityPolicy :=
  mkCapacityPolicy 738886 739251 (float_of_Z 12) (float_of_Z 4) 24 (dec 15 2) 0.

Lemma sample_recommended : recommend sample_candidates sample_capacity = Ok (recommendation sample_candidates sample_capacity).
Proof.
  destruct (recommend_cases sample_candidates sample_capacity) as [[H _]|[_ (c & Hc & E)]]; [exact H|exfalso].
  assert (H : Forall (λ c, is_ok (_needs_coverage c sample_capacity) = true) sample_candidates)
    by (repeat constructor).
  rewrite Forall_forall in H. apply H in Hc. by rewrite E in Hc.
Qed.

Lemma sample_keys : NoDup (map candidate_key sample_candidates).
Proof. apply (bool_decide_unpack _). by vm_compute. Qed.

Example sample_plan :
  map pl_candidate_key (rec_planned (recommendation sample_candidates sample_capacity)) = ["C1"; "C2"] ∧
  map ex_candidate_key (rec_excluded (recommendation sample_candidates sample_capacity)) = ["C4"; "C3"].
Proof. split; by vm_compute. Qed.


Lemma plan_order_independent_witness :
  match recommend sample_candidates sample_capacity, recommend (reverse sample_candidates) sample_capacity with
  | Ok r, Ok r' => rec_planned r = rec_planned r'
  | _, _ => False
  end.
Proof.
  pose proof (plan_order_independent sample_candidates (reverse sample_candidates) sample_capacity
    (symmetry (reverse_Permutation _)) sample_keys) as H.
  rewrite sample_recommended in H |- *. destruct (recommend (reverse sample_candidates) sample_capacity); [apply H|exact H].
Defined.
