(* ===== verification/PortHistory.v ===== *)
(** * Portfolio: histories of the service

    What holds of the tables after any history of operations, and what no operation
    takes back.  A rating on record can be computed again from the inputs stored
    with it; a proposal is what [recommend] made of its candidates; an approval is a
    person's and accepts exactly what the proposal leaves out. *)

From S2P Require Import Prelude Tables PyFloat PyTime Ledger PyText Materiality Quality PortScoring PortPlanning.
From S2P Require Import PortStore PortService PortProperties.
Local Open Scope Z_scope.

(** ** Versions *)

Lemma versions_snoc {A} (f : A → Z) l x : versions f l → f x = max_version (map f l) + 1 → versions f (l ++ [x]).
Proof.
  unfold versions, max_version. intros Hl E. rewrite Hl, max_numbering in E.
  rewrite map_app, Hl, length_app, Nat.add_1_r, seq_S, map_app. cbn [map]. rewrite E. repeat f_equal. lia.
Qed.

(** ** What the operations do *)

Section history.
Context `{UuidSource}.
Implicit Types (db : PortDB) (s : PortfolioService).

(** [l'] has everything [l] recorded. *)
Record grows (l l' : Ledger) : Prop := {
  grows_events : audit_events l `prefix_of` audit_events l';
  grows_outbox : outbox_events l `prefix_of` outbox_events l'
}.
#[export] Instance grows_refl : Reflexive grows.
Proof. intros l. by split. Qed.
#[export] Instance grows_trans : Transitive grows.
Proof. intros l1 l2 l3 [] []. split; by etrans. Qed.

(** The idempotency keys in use. *)
Definition keys (l : Ledger) : list string := map ob_idempotency_key (outbox_events l).

(** One event and its outbox row are added, under a key not used before. *)
Definition emitted (t ai ty key : string) (payload : dict) (l l' : Ledger) : Prop :=
  grows l l' ∧ keys l' = keys l ++ [key] ∧ Forall (λ o, ¬ has_key t key o) (outbox_events l) ∧
  (∃ r, r ∈ audit_events l' ∧ ev_event_type (row_event r) = ty ∧ ev_tenant_id (row_event r) = t ∧
     ev_payload (row_event r) = payload) ∧
  ∃ o, o ∈ outbox_events l' ∧ has_key t key o ∧ ob_event_type o = ty ∧ ob_payload o = payload.

Lemma port_fresh_Ok prefix db id db' :
  fresh prefix db = Ok (id, db') →
  id = prefix +:+ "_" +:+ uuid4_hex 20 (uuids_drawn (port_ledger db)) ∧
  ∃ l, db' = set_port_ledger l db ∧ audit_events l = audit_events (port_ledger db) ∧
    outbox_events l = outbox_events (port_ledger db) ∧ wall_clock l = wall_clock (port_ledger db).
Proof.
  intros (l & [-> ->]%new_id_Ok & ->)%zoom_Ok. split; [done|]. by eexists.
Qed.

Lemma port_emit_Ok t ai ty payload key aty db u db' :
  _emit t ai ty payload key aty db = Ok (u, db') →
  ∃ l, db' = set_port_ledger l db ∧ emitted t ai ty key payload (port_ledger db) l.
Proof.
  unfold _emit, on_ledger, utc_now. intros E. inv_tx.
  repeat match goal with
  | E : new_event_id _ = _ |- _ => apply new_event_id_Ok in E as [-> ->]
  | E : append _ _ = _ |- _ => apply append_Ok in E as (Ha & Ho & _ & Hc)
  | E : outbox_add _ _ _ _ _ _ _ = _ |- _ =>
      apply outbox_add_Ok in E as (Hk & Ha' & (o & Ho' & Hok & Hty & Hpl) & _ & _)
  end.
  cbn in *. rewrite Ha in Ha'. rewrite Ho in Ho', Hk. eexists. split; [done|].
  split; [split; [rewrite Ha'|rewrite Ho']; by apply prefix_app_r|].
  split; [by unfold keys; rewrite Ho', map_app, <- (proj2 Hok)|]. split; [done|]. split.
  - eexists. rewrite Ha'. split; [apply elem_of_app; right; by apply list_elem_of_singleton|done].
  - exists o. rewrite Ho'. split; [apply elem_of_app; right; by apply list_elem_of_singleton|done].
Qed.

(** [spec] records the score [r] of the inputs [f] under the policy [p]. *)
Definition computed (spec : AssessmentSpec) (f : RiskFactors) (p : ScoringPolicy) (r : RiskScore) : Prop :=
  score f (Some p) (as_at spec) = Ok r ∧
  ras_policy_id spec = sp_policy_id p ∧ ras_policy_json spec = dump_scoring p ∧
  ras_factors_json spec = dump_factors f ∧ ras_components_json spec = rs_components r ∧
  ras_inherent spec = inherent r ∧ ras_residual spec = residual r ∧ ras_rating spec = rating r ∧
  ras_confidence spec = rs_confidence r ∧ ras_audit_priority spec = audit_priority r ∧
  ras_uncovered spec = uncovered r ∧ ras_rationale spec = rs_rationale r.

(** [spec] records the plan [r] recommended for the candidates [cs] under [c]. *)
Definition recommended (spec : ProposalSpec) (cs : list Candidate) (c : CapacityPolicy) (r : PlanRecommendation) : Prop :=
  recommend cs c = Ok r ∧ cs ≠ [] ∧ prp_policy_json spec = dump_capacity c ∧
  prp_horizon_start spec = horizon_start c ∧ prp_horizon_end spec = horizon_end c ∧
  planned_json spec = map (λ i, JObj (dump_planned i)) (rec_planned r) ∧
  excluded_json spec = map (λ i, JObj (dump_excluded i)) (rec_excluded r) ∧
  blind_spots_json spec = map JObj (blind_spots r) ∧ prp_planned_days spec = planned_days r ∧
  prp_plannable_days spec = rec_plannable_days r ∧ prp_coverage_ratio spec = coverage_ratio r ∧
  prp_uncovered_priority spec = uncovered_priority r ∧ notes_json spec = policy_notes r.

Lemma risk_by_code_Some db t code r :
  risk_by_code db t code = Some r → r ∈ risks db ∧ rsk_tenant_id r = t ∧ rsk_code r = code.
Proof. by intros (? & ? & ?)%scalar_filter_Some. Qed.
Lemma get_proposal_Some db t id p :
  get_proposal db t id = Some p → p ∈ plan_proposals db ∧ prp_tenant_id (pspec p) = t ∧ pid p = id.
Proof. by intros (? & ? & ?)%scalar_filter_Some. Qed.

(** Insertions that commit. *)
Ltac inserted :=
  unfold reading; intros E; inv_tx;
  match goal with E : _ && _ = true |- _ => rewrite !andb_true_iff, absent_rows in E; destruct_and? end;
  repeat match goal with E : bool_decide _ = true |- _ => apply bool_decide_eq_true in E end;
  match goal with E : ∀ x, _ → _ = false |- _ => rename E into Habs end.
Lemma add_entity_Ok e db u db' :
  add_entity e db = Ok (u, db') →
  (∀ x, x ∈ entities db → entity_id x ≠ entity_id e) ∧ db' = set_entities (entities db ++ [e]) db.
Proof.
  unfold add_entity. inserted. split; [|done]. intros x Hx Ek. specialize (Habs x Hx).
  by apply orb_false_iff in Habs as [?%bool_decide_eq_false _].
Qed.
Lemma add_risk_Ok r db u db' :
  add_risk r db = Ok (u, db') →
  (∀ x, x ∈ risks db → risk_id x ≠ risk_id r ∧ ¬ (rsk_tenant_id x = rsk_tenant_id r ∧ rsk_code x = rsk_code r)) ∧
  db' = set_risks (risks db ++ [r]) db.
Proof.
  unfold add_risk. inserted. split; [|done]. intros x Hx. specialize (Habs x Hx).
  by apply orb_false_iff in Habs as [?%bool_decide_eq_false ?%bool_decide_eq_false].
Qed.
Lemma port_add_assessment_Ok a db u db' :
  add_assessment a db = Ok (u, db') →
  (∀ x, x ∈ risk_assessments db → rasid x ≠ rasid a) ∧ db' = set_assessments (risk_assessments db ++ [a]) db.
Proof.
  unfold add_assessment. inserted. split; [|done]. intros x Hx Ek. specialize (Habs x Hx).
  by apply orb_false_iff in Habs as [?%bool_decide_eq_false _].
Qed.
Lemma add_coverage_Ok c db u db' :
  add_coverage c db = Ok (u, db') → db' = set_coverage (assurance_coverage db ++ [c]) db.
Proof. unfold add_coverage. by inserted. Qed.
Lemma add_proposal_Ok p db u db' :
  add_proposal p db = Ok (u, db') →
  (∀ x, x ∈ plan_proposals db → pid x ≠ pid p) ∧ db' = set_proposals (plan_proposals db ++ [p]) db.
Proof.
  unfold add_proposal. inserted. split; [|done]. intros x Hx Ek. specialize (Habs x Hx).
  by apply orb_false_iff in Habs as [?%bool_decide_eq_false _].
Qed.
Lemma add_plan_Ok p db u db' :
  add_plan p db = Ok (u, db') →
  (∀ x, x ∈ audit_plans db → plan_id x ≠ plan_id p) ∧ db' = set_plans (audit_plans db ++ [p]) db.
Proof.
  unfold add_plan. inserted. split; [|done]. intros x Hx Ek. specialize (Habs x Hx).
  by apply orb_false_iff in Habs as [?%bool_decide_eq_false _].
Qed.

Definition no_override : Override := mkOverride None None None.

Lemma assess_Ok t code f by_ at_ pol db a db' :
  assess_risk t code f by_ at_ pol db = Ok (a, db') →
  ∃ risk r l, risk_by_code db t code = Some risk ∧ computed (rspec a) f (default default_scoring pol) r ∧
    as_at (rspec a) = at_ ∧ ras_tenant_id (rspec a) = t ∧ ras_risk_id (rspec a) = risk_id risk ∧
    ras_version (rspec a) = next_assessment_version db (risk_id risk) ∧ override a = no_override ∧
    (∀ a', a' ∈ risk_assessments db → rasid a' ≠ rasid a) ∧ grows (port_ledger db) l ∧
    keys l = keys (port_ledger db) ++ ["risk-assessed:" +:+ rasid a] ∧
    db' = set_port_ledger l (set_risks (update_row risk_id (risk_id risk) (set_rsk_numbers (numbers_of f r)) (risks db))
            (set_assessments (risk_assessments db ++ [a]) db)).
Proof.
  unfold assess_risk, reading, utc_now, _require_risk, save_risk. intros E. inv_tx.
  match goal with E : fresh _ _ = _ |- _ => apply port_fresh_Ok in E as [-> (l1 & -> & Ha & Ho & _)] end.
  match goal with E : _emit _ _ _ _ _ _ _ = _ |- _ => apply port_emit_Ok in E as (l & -> & Hg & Hks & _) end.
  match goal with E : add_assessment _ _ = _ |- _ => apply port_add_assessment_Ok in E as [Habs ->] end.
  eexists _, _, l. split_and!; try done.
  - destruct Hg as [He Hb]. cbn in He, Hb. rewrite Ha in He. rewrite Ho in Hb. by split.
  - unfold keys in *. cbn in Hks. by rewrite Hks, Ho.
Qed.

Lemma override_Ok s t code rating actor reason db a db' :
  set_official_rating s t code rating actor reason db = Ok (a, db') →
  ∃ risk a0 l, is_agent s actor = false ∧ risk_by_code db t code = Some risk ∧
    latest_assessment db (risk_id risk) = Some a0 ∧
    let g := set_override (mkOverride (Some rating) (Some reason) (Some actor)) in
    a = g a0 ∧ grows (port_ledger db) l ∧ keys l = keys (port_ledger db) ++ ["risk-override:" +:+ rasid a0] ∧
    Forall (λ o, ¬ has_key t ("risk-override:" +:+ rasid a0) o) (outbox_events (port_ledger db)) ∧
    (∃ o, o ∈ outbox_events l ∧ has_key t ("risk-override:" +:+ rasid a0) o) ∧
    db' = set_port_ledger l (set_assessments (update_row rasid (rasid a0) g (risk_assessments db)) db).
Proof.
  unfold set_official_rating, reading, _require_risk, save_assessment. intros E. inv_tx.
  match goal with E : _emit _ _ _ _ _ _ _ = _ |- _ => apply port_emit_Ok in E as (l & -> & Hg & Hks & Hk & _ & o & Ho & Hok & _) end.
  match goal with E : negb _ = true |- _ => apply negb_true_iff in E end.
  eexists _, _, l. split_and!; try done. by exists o.
Qed.

Lemma propose_Ok t name cs c by_ sc db d db' :
  propose_plan t name cs c by_ sc db = Ok (d, db') →
  ∃ p r l, recommended (pspec p) cs c r ∧ prp_tenant_id (pspec p) = t ∧ prp_name (pspec p) = name ∧
    prp_version (pspec p) = next_proposal_version db t name ∧ approval p = not_approved ∧
    (∀ p', p' ∈ plan_proposals db → pid p' ≠ pid p) ∧ grows (port_ledger db) l ∧
    keys l = keys (port_ledger db) ++ ["plan-proposed:" +:+ pid p] ∧
    db' = set_port_ledger l (set_proposals (plan_proposals db ++ [p]) db).
Proof.
  unfold propose_plan, reading. intros E. inv_tx.
  match goal with E : fresh _ _ = _ |- _ => apply port_fresh_Ok in E as [-> (l1 & -> & Ha & Ho & _)] end.
  match goal with E : add_proposal _ _ = _ |- _ => apply add_proposal_Ok in E as [Habs ->] end.
  match goal with E : _emit _ _ _ _ _ _ _ = _ |- _ => apply port_emit_Ok in E as (l & -> & Hg & Hks & _) end.
  match goal with E : recommend _ _ = Ok ?r |- _ => eexists _, r, l end. split_and!; [..|reflexivity]; try done.
  - by destruct cs.
  - destruct Hg as [He Hb]. cbn in He, Hb. rewrite Ha in He. rewrite Ho in Hb. by split.
  - unfold keys in *. cbn in Hks. by rewrite Hks, Ho.
Qed.

(** What an approval writes, and the plan it makes. *)
Record approved_by (p : PlanProposal) (v : Approval) (q : AuditPlan) (by_ : string) : Prop := {
  ap_status : prp_status v = "approved";
  ap_plan : prp_plan_id v = Some (plan_id q);
  ap_person : prp_approved_by v = Some by_;
  ap_residual : ∃ now, prp_approved_at v = Some now ∧
    accepted_residual_json v = accepted_residual (pspec p) by_ now;
  ap_tenant : pln_tenant_id q = prp_tenant_id (pspec p);
  ap_name : pln_name q = prp_name (pspec p);
  ap_version : pln_version q = prp_version (pspec p);
  ap_plan_status : pln_status q = "approved";
  ap_start : pln_horizon_start q = Some (prp_horizon_start (pspec p));
  ap_end : pln_horizon_end q = Some (prp_horizon_end (pspec p));
  ap_policy : coverage_policy_json q = prp_policy_json (pspec p);
  ap_approver : pln_approved_by q = Some by_;
  ap_fits : fltb (prp_plannable_days (pspec p)) (prp_planned_days (pspec p)) = false
}.

Lemma approve_plan_Ok s t id by_ reason db d db' :
  approve_plan s t id by_ reason db = Ok (d, db') →
  is_agent s by_ = false ∧ ∃ p, get_proposal db t id = Some p ∧
    if decide (pstatus p = "approved") then
      db' = db ∧ d = [("proposal_id", JStr id); ("plan_id", opt_json (prp_plan_id (approval p))); ("created", JBool false)]
    else ∃ v q l, pstatus p = "proposed" ∧ approved_by p v q by_ ∧ prp_approval_reason v = Some reason ∧
      (∀ q', q' ∈ audit_plans db → plan_id q' ≠ plan_id q) ∧
      emitted t id "plan.approved" ("plan-approved:" +:+ id)
        [("proposal_id", JStr id); ("plan_id", JStr (plan_id q)); ("approved_by", JStr by_); ("reason", JStr reason);
         ("planned", JInt (zlen (planned_json (pspec p)))); ("excluded", JInt (zlen (excluded_json (pspec p))));
         ("blind_spots", JInt (zlen (blind_spots_json (pspec p))));
         ("uncovered_priority", JFloat (prp_uncovered_priority (pspec p)))] (port_ledger db) l ∧
      db' = set_port_ledger l (set_proposals (update_row pid id (set_approval v) (plan_proposals db))
              (set_plans (audit_plans db ++ [q]) db)) ∧
      d = [("proposal_id", JStr id); ("plan_id", JStr (plan_id q)); ("created", JBool true);
           ("accepted_residual", JObj (accepted_residual_json v))].
Proof.
  unfold approve_plan, reading, utc_now, save_proposal. intros E. inv_tx.
  match goal with E : negb (is_agent _ _) = true |- _ => apply negb_true_iff in E end.
  split; [done|]. eexists. split; [done|]. destruct (decide _) as [Hs|Hs]; [by inv_tx|]. inv_tx.
  match goal with E : fresh _ _ = _ |- _ => apply port_fresh_Ok in E as [-> (l1 & -> & Ha & Ho & _)] end.
  match goal with E : add_plan _ _ = _ |- _ => apply add_plan_Ok in E as [Habs ->] end.
  match goal with E : _emit _ _ _ _ _ _ _ = _ |- _ => apply port_emit_Ok in E as (l & -> & Hg & Hks & Hk & Hev & Hob) end.
  repeat match goal with
  | E : bool_decide _ = true |- _ => apply bool_decide_eq_true in E
  | E : negb _ = true |- _ => apply negb_true_iff in E
  end.
  eexists _, _, l. split_and!; [..|reflexivity|reflexivity]; try done.
  - split; try done; [by eexists|]. match goal with E : get_proposal _ _ _ = _ |- _ => apply get_proposal_Some in E as (_ & Et & _); symmetry; exact Et end.
  - split; [|split; [unfold keys in *; cbn in Hks; by rewrite Hks, Ho|split; [by rewrite <- Ho|done]]]. destruct Hg as [He Hb]. cbn in He, Hb. rewrite Ha in He. rewrite Ho in Hb. by split.
Qed.

(** Operations on the universe. *)
Lemma entity_Ok t ety name cr ref attrs prof db id db' :
  register_entity t ety name cr ref attrs prof db = Ok (id, db') →
  ∃ es l, db' = set_port_ledger l (set_entities es db) ∧ grows (port_ledger db) l ∧ keys l = keys (port_ledger db) ∧
    ((∃ e, es = entities db ++ [e] ∧ entity_id e = id ∧ ent_tenant_id e = t ∧ entity_type e = ety ∧
        external_ref e = ref ∧ ∀ x, x ∈ entities db → entity_id x ≠ id) ∨
     ∃ e, entity_by_ref db t ety ref = Some e ∧ id = entity_id e ∧
       es = update_row entity_id id (refresh_entity name cr attrs) (entities db)).
Proof.
  unfold register_entity, reading, save_entity. intros E. inv_tx.
  destruct (if truthy ref then _ else _) as [e|] eqn:Er; inv_tx.
  - eexists _, (port_ledger db). split; [reflexivity|]. split; [done|]. split; [done|]. right. exists e.
    destruct (truthy ref); by simplify_eq.
  - match goal with E : fresh _ _ = _ |- _ => apply port_fresh_Ok in E as [-> (l1 & -> & Ha & Ho & _)] end.
    match goal with E : add_entity _ _ = _ |- _ => apply add_entity_Ok in E as [Habs ->] end.
    eexists _, l1. split; [done|]. split; [split; by rewrite ?Ha, ?Ho|]. split; [by unfold keys; rewrite Ho|].
    left. by eexists.
Qed.

Lemma risk_Ok t code title d db id db' :
  register_risk t code title d db = Ok (id, db') →
  ∃ rs l, db' = set_port_ledger l (set_risks rs db) ∧ grows (port_ledger db) l ∧ keys l = keys (port_ledger db) ∧
    ((∃ r, rs = risks db ++ [r] ∧ rsk_numbers r = no_numbers ∧
        ∀ x, x ∈ risks db → risk_id x ≠ risk_id r ∧ ¬ (rsk_tenant_id x = rsk_tenant_id r ∧ rsk_code x = rsk_code r)) ∨
     ∃ r, risk_by_code db t code = Some r ∧ rs = update_row risk_id (risk_id r) (set_rsk_text title d) (risks db)).
Proof.
  unfold register_risk, reading, save_risk. intros E. inv_tx.
  destruct (risk_by_code db t code) as [r|] eqn:Er; inv_tx.
  - eexists _, (port_ledger db). split; [reflexivity|]. split; [done|]. split; [done|]. right. by exists r.
  - match goal with E : fresh _ _ = _ |- _ => apply port_fresh_Ok in E as [-> (l1 & -> & Ha & Ho & _)] end.
    match goal with E : add_risk _ _ = _ |- _ => apply add_risk_Ok in E as [Habs ->] end.
    eexists _, l1. split; [done|]. split; [split; by rewrite ?Ha, ?Ho|]. split; [by unfold keys; rewrite Ho|].
    left. by eexists.
Qed.

Lemma coverage_Ok t code src ob by_ note ref eng ent db id db' :
  record_coverage t code src ob by_ note ref eng ent db = Ok (id, db') →
  ∃ c l, db' = set_port_ledger l (set_coverage (assurance_coverage db ++ [c]) db) ∧ grows (port_ledger db) l ∧
    keys l = keys (port_ledger db).
Proof.
  unfold record_coverage, reading, utc_now, _require_risk. intros E. inv_tx.
  match goal with E : fresh _ _ = _ |- _ => apply port_fresh_Ok in E as [-> (l1 & -> & Ha & Ho & _)] end.
  match goal with E : add_coverage _ _ = _ |- _ => apply add_coverage_Ok in E as -> end.
  eexists _, l1. split; [done|]. split; [split; by rewrite ?Ha, ?Ho|by unfold keys; rewrite Ho].
Qed.

(** ** The invariant *)

(** What is stored of a decision on a proposal. *)
Definition decision_sound s db (p : PlanProposal) : Prop :=
  approval p = not_approved ∨
  ∃ q by_, q ∈ audit_plans db ∧ approved_by p (approval p) q by_ ∧ is_agent s by_ = false.

Record port_inv s db : Prop := {
  inv_risk_keys : NoDup (map risk_id (risks db));
  inv_risk_codes r r' : r ∈ risks db → r' ∈ risks db →
    rsk_tenant_id r = rsk_tenant_id r' → rsk_code r = rsk_code r' → r = r';
  inv_assessment_keys : NoDup (map rasid (risk_assessments db));
  inv_assessed risk : versions (λ a, ras_version (rspec a)) (assessments_of db risk);
  inv_owner a : a ∈ risk_assessments db →
    ∃ r, r ∈ risks db ∧ risk_id r = ras_risk_id (rspec a) ∧ rsk_tenant_id r = ras_tenant_id (rspec a);
  inv_computed a : a ∈ risk_assessments db → ∃ f p r, computed (rspec a) f p r;
  inv_overridden a : a ∈ risk_assessments db → override a = no_override ∨
    ∃ rating reason who, override a = mkOverride (Some rating) (Some reason) (Some who) ∧ is_agent s who = false ∧
      ∃ o, o ∈ outbox_events (port_ledger db) ∧ has_key (ras_tenant_id (rspec a)) ("risk-override:" +:+ rasid a) o;
  inv_shown r : r ∈ risks db →
    match last (assessments_of db (risk_id r)) with
    | None => rsk_numbers r = no_numbers
    | Some a => ∃ f p res, computed (rspec a) f p res ∧ rsk_numbers r = numbers_of f res
    end;
  inv_proposal_keys : NoDup (map pid (plan_proposals db));
  inv_proposed t n : versions (λ p, prp_version (pspec p)) (proposals_named db t n);
  inv_recommended p : p ∈ plan_proposals db → ∃ cs c r, recommended (pspec p) cs c r;
  inv_decided p : p ∈ plan_proposals db → decision_sound s db p;
  inv_plan_keys : NoDup (map plan_id (audit_plans db));
  inv_override_keys id : "risk-override:" +:+ id ∈ keys (port_ledger db) →
    ∃ a, a ∈ risk_assessments db ∧ rasid a = id ∧ override a ≠ no_override
}.

(** The tables before the first operation: plans and events of other components may
    be there, but no key of an override. *)
Definition fresh_db db : Prop :=
  entities db = [] ∧ risks db = [] ∧ risk_assessments db = [] ∧ assurance_coverage db = [] ∧
  plan_proposals db = [] ∧ NoDup (map plan_id (audit_plans db)) ∧
  ∀ id, "risk-override:" +:+ id ∉ keys (port_ledger db).

Lemma port_inv_fresh s db : fresh_db db → port_inv s db.
Proof.
  intros (He & Hr & Ha & Hc & Hp & Hq & Hk).
  split; unfold assessments_of, proposals_named; rewrite ?Hr, ?Ha, ?Hp; try done; try apply NoDup_nil_2.
  all: try (intros ? ?%elem_of_nil; done).
  - intros r r' ?%elem_of_nil. done.
  - intros id Hin. by destruct (Hk id).
Qed.

(** Rows that the change of another table leaves alone. *)
Lemma decision_sound_mono s db db' p :
  (∀ q, q ∈ audit_plans db → q ∈ audit_plans db') → decision_sound s db p → decision_sound s db' p.
Proof. intros Hq [?|(q & b & H1 & H2 & H3)]; [by left|right; exists q, b; auto]. Qed.

Lemma overridden_mono s (l l' : Ledger) (a : RiskAssessment) :
  grows l l' →
  (override a = no_override ∨
   ∃ rating reason who, override a = mkOverride (Some rating) (Some reason) (Some who) ∧ is_agent s who = false ∧
     ∃ o, o ∈ outbox_events l ∧ has_key (ras_tenant_id (rspec a)) ("risk-override:" +:+ rasid a) o) →
  override a = no_override ∨
   ∃ rating reason who, override a = mkOverride (Some rating) (Some reason) (Some who) ∧ is_agent s who = false ∧
     ∃ o, o ∈ outbox_events l' ∧ has_key (ras_tenant_id (rspec a)) ("risk-override:" +:+ rasid a) o.
Proof.
  intros [_ [k Hk]] [?|(x & y & z & H1 & H2 & o & Ho & Hok)]; [by left|right].
  exists x, y, z. split_and!; [done..|]. exists o. rewrite Hk. split; [set_solver|done].
Qed.

(** Only the ledger, the entities or the coverage change. *)
Lemma inv_elsewhere s db l es cs :
  port_inv s db → grows (port_ledger db) l → keys l = keys (port_ledger db) →
  port_inv s (set_port_ledger l (set_entities es db)) ∧ port_inv s (set_port_ledger l (set_coverage cs db)).
Proof.
  intros [] Hg Hk. split; split; try done; try (intros a Ha; eapply overridden_mono; cbn; by eauto).
  all: intros id; cbn; rewrite Hk; apply inv_override_keys0.
Qed.

(** A key that is not an override's adds nothing to the last part of the invariant. *)
Lemma other_key (ks : list string) k (P : string → Prop) :
  (∀ id, k ≠ "risk-override:" +:+ id) → (∀ id, "risk-override:" +:+ id ∈ ks → P id) →
  ∀ id, "risk-override:" +:+ id ∈ ks ++ [k] → P id.
Proof. intros Hk HP id [Hin|E%list_elem_of_singleton]%elem_of_app; [by apply HP|]. by destruct (Hk id). Qed.

Lemma entity_keeps s t ety name cr ref attrs prof : preserves (port_inv s) (register_entity t ety name cr ref attrs prof).
Proof.
  intros db id db' Hinv (es & l & -> & Hg & Hk & _)%entity_Ok. by apply (inv_elsewhere s db l es []).
Qed.
Lemma coverage_keeps s t code src ob by_ note ref eng ent :
  preserves (port_inv s) (record_coverage t code src ob by_ note ref eng ent).
Proof. intros db id db' Hinv (c & l & -> & Hg & Hk)%coverage_Ok. by apply (inv_elsewhere s db l [] _). Qed.

(** A change of the columns of the rows that leaves their keys. *)
Lemma risk_rows_keep s db g i :
  (∀ r, risk_id (g r) = risk_id r ∧ rsk_tenant_id (g r) = rsk_tenant_id r ∧ rsk_code (g r) = rsk_code r) →
  port_inv s db →
  let rs := update_row risk_id i g (risks db) in
  NoDup (map risk_id rs) ∧
  (∀ r r', r ∈ rs → r' ∈ rs → rsk_tenant_id r = rsk_tenant_id r' → rsk_code r = rsk_code r' → r = r') ∧
  (∀ r, r ∈ risks db → ∃ r', r' ∈ rs ∧ risk_id r' = risk_id r ∧ rsk_tenant_id r' = rsk_tenant_id r).
Proof.
  intros Hg Hinv. cbv zeta. split_and!.
  - rewrite map_update_row; [apply (inv_risk_keys _ _ Hinv)|apply Hg].
  - intros r r' (x & Hx & ->)%elem_of_update_row (y & Hy & ->)%elem_of_update_row Et Ec.
    assert (x = y) as ->; [|done]. apply (inv_risk_codes _ _ Hinv); [done..| |].
    + destruct (decide (risk_id x = i)), (decide (risk_id y = i)); revert Et; rewrite ?(proj1 (proj2 (Hg _))); done.
    + destruct (decide (risk_id x = i)), (decide (risk_id y = i)); revert Ec; rewrite ?(proj2 (proj2 (Hg _))); done.
  - intros r Hr. eexists. split; [by apply update_row_intro|]. destruct (decide _); [apply and_comm|done].
    split; apply Hg.
Qed.

Lemma risk_keeps s t code title d : preserves (port_inv s) (register_risk t code title d).
Proof.
  intros db id db' Hinv (rs & l & -> & Hg & Hk & [(r & -> & Hn & Habs)|(r & Hr & ->)])%risk_Ok.
  - destruct Hinv. split; cbn [risks set_risks set_port_ledger]; try done.
    + apply NoDup_map_snoc; [done|]. apply Forall_forall. intros x Hx. by apply (Habs x Hx).
    + intros x y [Hx| ->%list_elem_of_singleton]%elem_of_app [Hy| ->%list_elem_of_singleton]%elem_of_app Et Ec; auto.
      * by destruct (proj2 (Habs x Hx)).
      * by destruct (proj2 (Habs y Hy)).
    + intros a Ha. destruct (inv_owner0 a Ha) as (x & Hx & E). exists x. split; [set_solver|done].
    + intros a Ha. eapply overridden_mono; cbn; eauto.
    + intros x [Hx| ->%list_elem_of_singleton]%elem_of_app; [by apply inv_shown0|].
      change (assessments_of _ (risk_id r)) with (assessments_of db (risk_id r)).
      destruct (last (assessments_of db (risk_id r))) as [a|] eqn:E; [|done].
      apply last_Some_elem_of in E. apply list_elem_of_filter in E as [E1 E2].
      destruct (inv_owner0 a E2) as (x & Hx & Ex & _). exfalso. apply (proj1 (Habs x Hx)). congruence.
    + intros k0. cbn. rewrite Hk. apply inv_override_keys0.
  - destruct (risk_rows_keep s db (set_rsk_text title d) (risk_id r)) as (H1 & H2 & H3); [done..|].
    destruct Hinv. split; cbn [risks set_risks set_port_ledger]; try done.
    + intros a Ha. destruct (inv_owner0 a Ha) as (x & Hx & E1 & E2). destruct (H3 x Hx) as (x' & ? & ? & ?).
      exists x'. split_and!; [done|congruence..].
    + intros a Ha. eapply overridden_mono; cbn; eauto.
    + intros y (x & Hx & ->)%elem_of_update_row. specialize (inv_shown0 x Hx). by destruct (decide _).
    + intros k0. cbn. rewrite Hk. apply inv_override_keys0.
Qed.

Lemma assessments_snoc db l rs a risk :
  assessments_of (set_port_ledger l (set_risks rs (set_assessments (risk_assessments db ++ [a]) db))) risk =
    assessments_of db risk ++ if decide (ras_risk_id (rspec a) = risk) then [a] else [].
Proof.
  unfold assessments_of. cbn [risk_assessments set_assessments set_risks set_port_ledger].
  rewrite filter_app, filter_cons, filter_nil. by destruct (decide _).
Qed.

Lemma assess_keeps s t code f by_ at_ pol : preserves (port_inv s) (assess_risk t code f by_ at_ pol).
Proof.
  intros db a db' Hinv (risk & r & l & Hr & Hc & _ & Ht & Hid & Hv & Hno & Habs & Hg & Hk & ->)%assess_Ok.
  apply risk_by_code_Some in Hr as (Hr & Htr & _).
  destruct (risk_rows_keep s db (set_rsk_numbers (numbers_of f r)) (risk_id risk)) as (H1 & H2 & H3); [done..|].
  destruct Hinv. split; cbn [risks set_risks set_port_ledger]; try done.
  - apply NoDup_map_snoc; [done|]. apply Forall_forall. auto.
  - intros i. rewrite assessments_snoc. destruct (decide _) as [E|E]; [|by rewrite app_nil_r].
    apply versions_snoc; [done|]. rewrite Hv, <- Hid, E. done.
  - intros b [Hb| ->%list_elem_of_singleton]%elem_of_app.
    + destruct (inv_owner0 b Hb) as (x & Hx & E1 & E2). destruct (H3 x Hx) as (x' & ? & ? & ?).
      exists x'. split_and!; [done|congruence..].
    + destruct (H3 risk Hr) as (x' & ? & ? & ?). exists x'. split_and!; [done|congruence..].
  - intros b [Hb| ->%list_elem_of_singleton]%elem_of_app; [by apply inv_computed0|by eexists _, _, _].
  - intros b [Hb| ->%list_elem_of_singleton]%elem_of_app; [|by left].
    eapply overridden_mono; cbn; eauto.
  - intros y (x & Hx & ->)%elem_of_update_row. rewrite assessments_snoc. specialize (inv_shown0 x Hx).
    destruct (decide (risk_id x = risk_id risk)) as [E|E]; cbn [risk_id set_rsk_numbers].
    + rewrite decide_True by congruence. rewrite last_snoc. by eexists _, _, _.
    + rewrite decide_False by congruence. by rewrite app_nil_r.
  - intros id. cbn. rewrite Hk. revert id. apply other_key; [done|]. intros id Hin.
    destruct (inv_override_keys0 id Hin) as (x & Hx & Hxo). exists x. split; [set_solver|done].
Qed.

Lemma assessments_overridden db l i v risk :
  assessments_of (set_port_ledger l (set_assessments (update_row rasid i (set_override v) (risk_assessments db)) db)) risk =
    update_row rasid i (set_override v) (assessments_of db risk).
Proof. unfold assessments_of. cbn [risk_assessments set_assessments set_port_ledger]. by apply filter_update_row. Qed.

Lemma versions_update {A} (f : A → Z) key i g l :
  (∀ x, f (g x) = f x) → versions f l → versions f (update_row key i g l).
Proof.
  unfold versions. intros Hg Hl. rewrite map_update_row by done. rewrite Hl. unfold update_row. by rewrite length_map.
Qed.

Lemma latest_elem db risk a : latest_assessment db risk = Some a → a ∈ risk_assessments db ∧ ras_risk_id (rspec a) = risk.
Proof. unfold latest_assessment, assessments_of. intros E. by apply scalar_sort_Some in E as [??]. Qed.

Lemma override_keeps s t code rating actor reason : preserves (port_inv s) (set_official_rating s t code rating actor reason).
Proof.
  intros db a db' Hinv (risk & a0 & l & Hag & Hr & Hl & _ & Hg & Hk & _ & (o & Ho & Hok) & ->)%override_Ok.
  apply risk_by_code_Some in Hr as (Hr & Htr & _). apply latest_elem in Hl as [Ha0 Hid].
  destruct Hinv. split; cbn [risks set_assessments set_port_ledger]; try done.
  - cbn. rewrite map_update_row; done.
  - intros i. rewrite assessments_overridden. by apply versions_update.
  - intros b (x & Hx & ->)%elem_of_update_row. destruct (inv_owner0 x Hx) as (y & Hy).
    exists y. by destruct (decide _).
  - intros b (x & Hx & ->)%elem_of_update_row. destruct (inv_computed0 x Hx) as (f & p & r & Hc).
    exists f, p, r. by destruct (decide _).
  - intros b (x & Hx & ->)%elem_of_update_row. destruct (decide (rasid x = rasid a0)) as [E|E].
    + right. eexists _, _, _. split; [done|]. split; [done|]. exists o. split; [done|].
      assert (x = a0) as -> by by eapply same_row.
      destruct (inv_owner0 a0 Ha0) as (y & Hy & Ey & Ety). cbn [rspec set_override].
      assert (y = risk) as -> by (eapply same_row; [exact inv_risk_keys0|done..|congruence]). by rewrite <- Ety, Htr.
    + eapply overridden_mono; cbn; eauto.
  - intros r Hrr. rewrite assessments_overridden, last_update_row. specialize (inv_shown0 r Hrr).
    destruct (last _) as [x|]; [|done]. cbn. by destruct (decide _).
  - intros id. cbn. rewrite Hk. intros [Hin|E%list_elem_of_singleton]%elem_of_app.
    + destruct (inv_override_keys0 id Hin) as (x & Hx & Ex & Hxo). eexists. split; [by apply update_row_intro|].
      by destruct (decide _).
    + apply (inj (String.append _)) in E as ->. eexists. split; [by apply (update_row_intro _ _ _ _ a0)|].
      by rewrite decide_True.
Qed.

Lemma proposals_snoc db l p t n :
  proposals_named (set_port_ledger l (set_proposals (plan_proposals db ++ [p]) db)) t n =
    proposals_named db t n ++
      if decide (prp_tenant_id (pspec p) = t ∧ prp_name (pspec p) = n) then [p] else [].
Proof.
  unfold proposals_named. cbn [plan_proposals set_proposals set_port_ledger].
  rewrite filter_app, filter_cons, filter_nil. by destruct (decide _).
Qed.

Lemma propose_keeps s t name cs c by_ sc : preserves (port_inv s) (propose_plan t name cs c by_ sc).
Proof.
  intros db d db' Hinv (p & r & l & Hrec & Ht & Hn & Hv & Hno & Habs & Hg & Hk & ->)%propose_Ok.
  destruct Hinv. split; cbn [risks set_proposals set_port_ledger]; try done.
  - intros a Ha. eapply overridden_mono; cbn; eauto.
  - apply NoDup_map_snoc; [done|]. apply Forall_forall. auto.
  - intros t' n'. rewrite proposals_snoc. destruct (decide _) as [[E1 E2]|]; [|by rewrite app_nil_r].
    apply versions_snoc; [done|]. rewrite Hv. by subst.
  - intros q [Hq| ->%list_elem_of_singleton]%elem_of_app; [by apply inv_recommended0|by eexists _, _, _].
  - intros q [Hq| ->%list_elem_of_singleton]%elem_of_app; [by apply inv_decided0|by left].
  - intros id. cbn. rewrite Hk. revert id. by apply other_key.
Qed.

Lemma proposals_approved db l i v qs t n :
  proposals_named (set_port_ledger l (set_proposals (update_row pid i (set_approval v) (plan_proposals db)) (set_plans qs db))) t n =
    update_row pid i (set_approval v) (proposals_named db t n).
Proof. unfold proposals_named. cbn [plan_proposals set_proposals set_port_ledger]. by apply filter_update_row. Qed.

Lemma approve_plan_keeps s t id by_ reason : preserves (port_inv s) (approve_plan s t id by_ reason).
Proof.
  intros db d db' Hinv (Hag & p & Hp & E)%approve_plan_Ok. destruct (decide (pstatus p = "approved")) as [_|Hnot]; [by destruct E as [-> _]|].
  destruct E as (v & q & l & Hs & Hap & _ & Habs & (Hg & Hk & _) & -> & _).
  apply get_proposal_Some in Hp as (Hp & Htp & Hid).
  destruct Hinv. split; cbn [risks set_proposals set_plans set_port_ledger]; try done.
  - intros a Ha. eapply overridden_mono; cbn; eauto.
  - cbn. rewrite map_update_row; done.
  - intros t' n'. rewrite proposals_approved. by apply versions_update.
  - intros x (y & Hy & ->)%elem_of_update_row. destruct (inv_recommended0 y Hy) as (cs & c & r & Hr).
    exists cs, c, r. by destruct (decide _).
  - intros x (y & Hy & ->)%elem_of_update_row. destruct (decide (pid y = id)) as [E|E].
    + right. exists q, by_. split; [set_solver|]. split; [|done].
      assert (y = p) as -> by (eapply same_row; [exact inv_proposal_keys0|done..|congruence]).
      by destruct Hap; split.
    + eapply decision_sound_mono, inv_decided0, Hy. set_solver.
  - cbn. apply NoDup_map_snoc; [done|]. apply Forall_forall. auto.
  - intros i. cbn. rewrite Hk. revert i. by apply other_key.
Qed.

(** ** What no operation takes back *)

Record port_lasts (db db' : PortDB) : Prop := {
  last_ledger : grows (port_ledger db) (port_ledger db');
  last_risks r : r ∈ risks db →
    ∃ r', r' ∈ risks db' ∧ risk_id r' = risk_id r ∧ rsk_tenant_id r' = rsk_tenant_id r ∧ rsk_code r' = rsk_code r;
  last_assessments a : a ∈ risk_assessments db →
    ∃ a', a' ∈ risk_assessments db' ∧ rspec a' = rspec a ∧ (override a ≠ no_override → a' = a);
  last_coverage c : c ∈ assurance_coverage db → c ∈ assurance_coverage db';
  last_proposals p : p ∈ plan_proposals db →
    ∃ p', p' ∈ plan_proposals db' ∧ pspec p' = pspec p ∧ (pstatus p = "approved" → p' = p);
  last_plans q : q ∈ audit_plans db → q ∈ audit_plans db'
}.
#[export] Instance port_lasts_refl : Reflexive port_lasts.
Proof. intros db. split; try done; intros x Hx; by exists x. Qed.
#[export] Instance port_lasts_trans : Transitive port_lasts.
Proof.
  intros d1 d2 d3 [G1 R1 A1 C1 P1 Q1] [G2 R2 A2 C2 P2 Q2]. split; [by etrans| | |by auto| |by auto].
  - intros r Hr. destruct (R1 r Hr) as (r1 & H1 & ? & ? & ?), (R2 r1 H1) as (r2 & ? & ? & ? & ?).
    exists r2. split_and!; congruence.
  - intros a Ha. destruct (A1 a Ha) as (a1 & H1 & E1 & K1), (A2 a1 H1) as (a2 & ? & E2 & K2).
    exists a2. split_and!; [done|congruence|]. intros Hn. specialize (K1 Hn) as ->. auto.
  - intros p Hp. destruct (P1 p Hp) as (p1 & H1 & E1 & K1), (P2 p1 H1) as (p2 & ? & E2 & K2).
    exists p2. split_and!; [done|congruence|]. intros Hs. specialize (K1 Hs) as ->. auto.
Qed.

(** The tables other than those named stay; what remains is about the named ones. *)
Ltac lasting := split; cbn [port_ledger risks risk_assessments assurance_coverage plan_proposals audit_plans
    set_port_ledger set_risks set_assessments set_proposals set_plans set_coverage set_entities];
  [try done|intros r Hr; try (by exists r)|intros a Ha; try (by exists a)|intros cv Hcv; try done
  |intros p0 Hp0; try (by exists p0)|intros q0 Hq0; try done].

Definition lasting_op {A} s (m : PortTx A) : Prop := ∀ db a db', port_inv s db → m db = Ok (a, db') → port_lasts db db'.

Lemma entity_lasts s t ety name cr ref attrs prof : lasting_op s (register_entity t ety name cr ref attrs prof).
Proof. intros db id db' _ (es & l & -> & Hg & _)%entity_Ok. by lasting. Qed.
Lemma coverage_lasts s t code src ob by_ note ref eng ent :
  lasting_op s (record_coverage t code src ob by_ note ref eng ent).
Proof. intros db id db' _ (c & l & -> & Hg & _)%coverage_Ok. lasting. set_solver. Qed.
Lemma risk_lasts s t code title d : lasting_op s (register_risk t code title d).
Proof.
  intros db id db' _ (rs & l & -> & Hg & _ & [(r0 & -> & _)|(r0 & _ & ->)])%risk_Ok; lasting.
  - exists r. split; [set_solver|done].
  - eexists. split; [by apply update_row_intro|]. by destruct (decide _).
Qed.
Lemma assess_lasts s t code f by_ at_ pol : lasting_op s (assess_risk t code f by_ at_ pol).
Proof.
  intros db a0 db' _ (risk & r0 & l & _ & _ & _ & _ & _ & _ & _ & _ & Hg & _ & ->)%assess_Ok. lasting.
  - eexists. split; [by apply update_row_intro|]. by destruct (decide _).
  - exists a. split; [set_solver|done].
Qed.
Lemma override_lasts s t code rating actor reason : lasting_op s (set_official_rating s t code rating actor reason).
Proof.
  intros db a0 db' Hinv (risk & a1 & l & _ & Hri & Hl & _ & Hg & _ & Hk & _ & ->)%override_Ok. lasting.
  eexists. split; [by apply update_row_intro|]. destruct (decide _) as [E|]; [|done]. split; [done|]. intros Hn. exfalso.
  apply risk_by_code_Some in Hri as (Hri & Htr & _). apply latest_elem in Hl as [Ha1 Hid].
  assert (a = a1) as -> by (eapply same_row; [apply (inv_assessment_keys _ _ Hinv)|done..]).
  destruct (inv_overridden _ _ Hinv a1 Ha) as [?|(x & y & z & _ & _ & o & Ho & Hok)]; [done|].
  destruct (inv_owner _ _ Hinv a1 Ha) as (rr & Hrr & Er & Et).
  assert (rr = risk) as -> by (eapply same_row; [apply (inv_risk_keys _ _ Hinv)|done..|congruence]).
  rewrite Forall_forall in Hk. apply (Hk o Ho). by rewrite <- Htr, Et.
Qed.
Lemma propose_lasts s t name cs c by_ sc : lasting_op s (propose_plan t name cs c by_ sc).
Proof.
  intros db d db' _ (p & r0 & l & _ & _ & _ & _ & _ & _ & Hg & _ & ->)%propose_Ok. lasting.
  exists p0. split; [set_solver|done].
Qed.
Lemma approve_lasts s t id by_ reason : lasting_op s (approve_plan s t id by_ reason).
Proof.
  intros db d db' Hinv (_ & p & Hp & E)%approve_plan_Ok. destruct (decide (pstatus p = "approved")) as [|Hnot]; [by destruct E as [-> _]|].
  destruct E as (v & q & l & Hs & _ & _ & _ & [Hg _] & -> & _). apply get_proposal_Some in Hp as (Hp & Htp & Hid). lasting.
  - eexists. split; [by apply update_row_intro|]. destruct (decide _) as [E|]; [|done]. split; [done|].
    assert (p0 = p) as -> by (eapply same_row; [apply (inv_proposal_keys _ _ Hinv)|done..|congruence]). congruence.
  - set_solver.
Qed.

(** ** Histories *)

Inductive port_operation :=
  | RegisterEntity (tenant etype name : string) (criticality : float) (ref : option string) (attributes : dict)
      (profile : option string)
  | RegisterRisk (tenant code title : string) (description : option string)
  | RecordCoverage (tenant code : string) (src : AssuranceSource) (obtained : date) (by_ note : string)
      (reference engagement entity : option string)
  | AssessRisk (tenant code : string) (factors : RiskFactors) (by_ : string) (at_ : date) (policy : option ScoringPolicy)
  | SetOfficialRating (tenant code rating actor reason : string)
  | ProposePlan (tenant name : string) (candidates : list Candidate) (policy : CapacityPolicy) (by_ scenario : string)
  | ApprovePlan (tenant id by_ reason : string).

Definition ignore {A} (m : PortTx A) : PortTx unit := m ;; mret tt.
Definition perform s (o : port_operation) : PortTx unit :=
  match o with
  | RegisterEntity t ety name cr ref attrs prof => ignore (register_entity t ety name cr ref attrs prof)
  | RegisterRisk t code title d => ignore (register_risk t code title d)
  | RecordCoverage t code src ob by_ note ref eng ent => ignore (record_coverage t code src ob by_ note ref eng ent)
  | AssessRisk t code f by_ at_ pol => ignore (assess_risk t code f by_ at_ pol)
  | SetOfficialRating t code rating actor reason => ignore (set_official_rating s t code rating actor reason)
  | ProposePlan t name cs c by_ sc => ignore (propose_plan t name cs c by_ sc)
  | ApprovePlan t id by_ reason => ignore (approve_plan s t id by_ reason)
  end.

Lemma ignore_Ok {A} (m : PortTx A) db u db' : ignore m db = Ok (u, db') → ∃ a, m db = Ok (a, db').
Proof. unfold ignore. intros E. inv_tx. by eexists. Qed.

Lemma perform_keeps s o db u db' :
  port_inv s db → perform s o db = Ok (u, db') → port_inv s db' ∧ port_lasts db db'.
Proof.
  intros Hinv E. destruct o; apply ignore_Ok in E as [a E]; split;
    first [by eapply entity_keeps|by eapply risk_keeps|by eapply coverage_keeps|by eapply assess_keeps
          |by eapply override_keeps|by eapply propose_keeps|by eapply approve_plan_keeps
          |by eapply entity_lasts|by eapply risk_lasts|by eapply coverage_lasts|by eapply assess_lasts
          |by eapply override_lasts|by eapply propose_lasts|by eapply approve_lasts].
Qed.

(** The states a history of committed operations reaches, on tables that begin empty. *)
Inductive port_happens s : PortDB → Prop :=
  | port_first db : fresh_db db → port_happens s db
  | port_next db o u db' : port_happens s db → perform s o db = Ok (u, db') → port_happens s db'.

Lemma port_happens_inv s db : port_happens s db → port_inv s db.
Proof.
  induction 1 as [db Hf|db o u db' _ IH E]; [by apply port_inv_fresh|by apply (perform_keeps s o db u db' IH E)].
Qed.
End history.
