(* ===== verification/PortServiceProperties.v ===== *)
(** * Portfolio service: the properties

    The ratings, overrides and plan approvals of [PortfolioService], over every
    history of its operations. *)

From S2P Require Import Prelude Tables PyFloat PyTime Ledger PyText Materiality Quality PortScoring PortPlanning.
From S2P Require Import PortStore PortService PortProperties PortHistory.
Local Open Scope Z_scope.

Section properties.
Context `{UuidSource}.
Implicit Types (db : PortDB) (s : PortfolioService).

(** The assessments of a risk are numbered without gap in the order they were
    made; each records a score that its stored factors and policy give again; the risk
    shows the numbers of the latest, or none; a rating in the place of the computed
    one, which stays beside it, was set by a person with a reason. *)
Theorem ratings_reproducible s db r :
  port_happens s db → r ∈ risks db →
  let h := assessments_of db (risk_id r) in
  map (λ a, ras_version (rspec a)) h = map Z.of_nat (seq 1 (length h)) ∧
  (∀ a, a ∈ h → (∃ f p res, computed (rspec a) f p res) ∧
     (override a = no_override ∨ ∃ rating reason who,
        override a = mkOverride (Some rating) (Some reason) (Some who) ∧ is_agent s who = false)) ∧
  match latest_assessment db (risk_id r) with
  | None => h = [] ∧ rsk_numbers r = no_numbers
  | Some a => last h = Some a ∧ ∃ f p res, computed (rspec a) f p res ∧ rsk_numbers r = numbers_of f res
  end.
Proof.
  intros Hh%port_happens_inv Hr. cbv zeta. split; [apply (inv_assessed _ _ Hh)|]. split.
  - intros a [_ Ha]%list_elem_of_filter. split; [by apply (inv_computed _ _ Hh)|].
    destruct (inv_overridden _ _ Hh a Ha) as [?|(x & y & z & E & Hz & _)]; [by left|right; by exists x, y, z].
  - unfold latest_assessment, by_version. rewrite versions_latest by apply (inv_assessed _ _ Hh).
    pose proof (inv_shown _ _ Hh r Hr) as Hs.
    destruct (last (assessments_of db (risk_id r))) as [a|] eqn:E; [done|]. by apply last_None in E.
Qed.

(** The items accepted under a key of an accepted residual. *)
Definition accepted_items (key : string) (residual : dict) : list json :=
  match dict_get key residual with Some (JList l) => l | _ => [] end.

Lemma residual_keys p by_ now :
  map (item_get "candidate_key") (accepted_items "excluded" (accepted_residual p by_ now)) =
    map (item_get "candidate_key") (excluded_json p).
Proof.
  transitivity (map (item_get "candidate_key") (map (λ i, JObj [("candidate_key", item_get "candidate_key" i);
    ("risk_ref", item_get "risk_ref" i); ("rating", item_get "rating" i); ("reason", item_get "reason" i)])
    (excluded_json p))); [reflexivity|]. by rewrite map_map.
Qed.

Lemma recommended_keys spec cs c r :
  recommended spec cs c r →
  map (item_get "candidate_key") (planned_json spec) ++ map (item_get "candidate_key") (excluded_json spec) ≡ₚ
    map (λ x, JStr (candidate_key x)) cs.
Proof.
  intros (Hr & _ & _ & _ & _ & -> & -> & _). apply recommend_Ok in Hr as [-> _].
  destruct (recommendation_fields cs c) as (-> & -> & _). rewrite !map_map.
  pose proof (final_keys cs c) as Hk. apply (Permutation_map JStr) in Hk. rewrite map_map in Hk. rewrite <- Hk.
  unfold selection_keys. by rewrite map_app, !map_map.
Qed.

(** A plan proposal is approved only by a person, with a plan of its own that
    carries its name, version, horizon and policy, and only when what it plans fits
    what can be delivered.  It is what [recommend] makes of the candidates it was
    proposed for, and what the approval accepts as residual, with the items planned,
    is every candidate, once. *)
Theorem approvals_accept_the_rest s db p :
  port_happens s db → p ∈ plan_proposals db → pstatus p = "approved" →
  ∃ cs c r q by_, recommended (pspec p) cs c r ∧ is_agent s by_ = false ∧ q ∈ audit_plans db ∧
    approved_by p (approval p) q by_ ∧
    map (item_get "candidate_key") (planned_json (pspec p)) ++
      map (item_get "candidate_key") (accepted_items "excluded" (accepted_residual_json (approval p))) ≡ₚ
      map (λ x, JStr (candidate_key x)) cs ∧
    ∀ p', p' ∈ plan_proposals db → prp_plan_id (approval p') = prp_plan_id (approval p) → p' = p.
Proof.
  intros Hh%port_happens_inv Hp Hs. destruct (inv_recommended _ _ Hh p Hp) as (cs & c & r & Hr).
  destruct (inv_decided _ _ Hh p Hp) as [E|(q & b & Hq & Ha & Hb)]; [by unfold pstatus in Hs; rewrite E in Hs|].
  exists cs, c, r, q, b. split_and!; try done.
  - destruct (ap_residual _ _ _ _ Ha) as (now & _ & ->). rewrite residual_keys. by apply (recommended_keys _ _ c r).
  - intros p' Hp' E. rewrite (ap_plan _ _ _ _ Ha) in E.
    destruct (inv_decided _ _ Hh p' Hp') as [E'|(q' & b' & Hq' & Ha' & _)]; [by rewrite E' in E|].
    rewrite (ap_plan _ _ _ _ Ha') in E. injection E as E.
    assert (q' = q) as -> by (eapply same_row; [apply (inv_plan_keys _ _ Hh)|done..]).
    destruct Ha, Ha'. eapply versions_inj; [apply (inv_proposed _ _ Hh (prp_tenant_id (pspec p)) (prp_name (pspec p)))|..].
    + apply list_elem_of_filter. split; [split; congruence|done].
    + apply list_elem_of_filter. done.
    + cbn. congruence.
Qed.

(** The states a further history reaches. *)
Definition later s : relation PortDB := rtc (λ db db', ∃ o u, perform s o db = Ok (u, db')).

(** Nothing recorded is taken back: events, outbox rows, risks, assessments,
    coverage, proposals and plans stay; an assessment keeps what it computed and, once
    a person has set its rating, that rating; an approved proposal does not change. *)
Theorem portfolio_history_lasts s db db' : port_happens s db → later s db db' → port_lasts db db'.
Proof.
  intros Hh%port_happens_inv Hl. induction Hl as [db|db db1 db' (o & u & E) _ IH]; [done|].
  destruct (perform_keeps s o db u db1 Hh E) as [Hh1 Hl1]. etrans; [exact Hl1|by apply IH].
Qed.

(** Recording an event fails only when its key is in use. *)
Lemma emit_refused t ai ty payload key aty db e :
  _emit t ai ty payload key aty db = Err e → e = Py IntegrityError ∧ key ∈ keys (port_ledger db).
Proof.
  unfold _emit, on_ledger, zoom, utc_now, new_event_id, draw, gets, append, modify.
  unfold mbind, tx_bind, mret, tx_ret. cbn. unfold outbox_add, new_id, draw, gets, modify, require, mbind, tx_bind, mret, tx_ret.
  cbn. destruct (existsb _ (outbox_events (port_ledger db))) eqn:Ex; cbn; [|done]. intros [= <-]. split; [done|].
  apply existsb_decide in Ex as (o & Ho & [_ Hk]).
  rewrite <- Hk. exact (list_elem_of_fmap_2 ob_idempotency_key _ _ Ho).
Qed.

(** Setting the official rating of a risk: an automated actor is refused, an
    unknown risk and one without assessment are refused, and a rating a person has
    already set cannot be set again: the second attempt violates the unique key of the
    outbox.  Otherwise the latest assessment keeps its computed rating and carries the
    decision. *)
Theorem override_exact s db t code rating actor reason :
  port_happens s db →
  let latest := risk_by_code db t code ≫= λ r, latest_assessment db (risk_id r) in
  match set_official_rating s t code rating actor reason db with
  | Ok (a, db') => is_agent s actor = false ∧ ∃ a0, latest = Some a0 ∧ override a0 = no_override ∧
      a = set_override (mkOverride (Some rating) (Some reason) (Some actor)) a0 ∧
      (risk_by_code db' t code ≫= λ r, latest_assessment db' (risk_id r)) = Some a
  | Err e =>
      is_agent s actor = true ∧ e = Port PlanStateError ∨
      is_agent s actor = false ∧ latest = None ∧ e = Port RiskNotFoundError ∨
      is_agent s actor = false ∧ (∃ a0, latest = Some a0 ∧ override a0 ≠ no_override) ∧ e = Py IntegrityError
  end.
Proof.
  intros Hh%port_happens_inv. cbv zeta.
  destruct (set_official_rating s t code rating actor reason db) as [[a db']|e] eqn:E.
  - apply override_Ok in E as (risk & a0 & l & Hag & Hr & Hl & Ea & _ & _ & Hk & _ & ->). split; [done|].
    exists a0. rewrite Hr. cbn. split; [done|]. split.
    + apply risk_by_code_Some in Hr as (Hr & Htr & _). apply latest_elem in Hl as [Ha0 Hid].
      destruct (inv_overridden _ _ Hh a0 Ha0) as [?|(x & y & z & _ & _ & o & Ho & Hok)]; [done|exfalso].
      destruct (inv_owner _ _ Hh a0 Ha0) as (rr & Hrr & Er & Et).
      assert (rr = risk) as -> by (eapply same_row; [apply (inv_risk_keys _ _ Hh)|done..|congruence]).
      rewrite Forall_forall in Hk. apply (Hk o Ho). by rewrite <- Htr, Et.
    + split; [done|]. match goal with |- context [risk_by_code ?d t code] => change (risk_by_code d t code) with (risk_by_code db t code) end.
      rewrite Hr. cbn [mbind option_bind]. revert Hl. unfold latest_assessment, by_version.
      rewrite !versions_latest; [|rewrite assessments_overridden; apply versions_update; [done|]|]; try apply (inv_assessed _ _ Hh).
      rewrite assessments_overridden, last_update_row. intros ->. cbn. by rewrite decide_True, Ea.
  - unfold set_official_rating, require in E. destruct (is_agent s actor); [by left; injection E as <-|right].
    cbn [negb] in E. rewrite (tx_bind_step _ _ db tt db), (tx_bind_step _ _ db db db) in E by done.
    unfold _require_risk, some_or_raise in E. destruct (risk_by_code db t code) as [r|] eqn:Hr; [|by left; injection E as <-].
    rewrite (tx_bind_step _ _ db r db) in E by done. cbn [mbind option_bind].
    destruct (latest_assessment db (risk_id r)) as [a0|] eqn:Hl; [|by left; injection E as <-].
    right. rewrite (tx_bind_step _ _ db a0 db) in E by done. unfold save_assessment in E.
    erewrite tx_bind_step in E by done. unfold mbind at 1, tx_bind in E.
    destruct (_emit _ _ _ _ _ _ _) as [[u db1]|e1] eqn:Em; [done|]. injection E as <-.
    apply emit_refused in Em as [-> Hk]. split; [done|]. split; [|done]. exists a0. split; [done|].
    destruct (inv_override_keys _ _ Hh _ Hk) as (x & Hx & Ex & Hxo). apply latest_elem in Hl as [Ha0 _].
    by assert (x = a0) as -> by (eapply same_row; [apply (inv_assessment_keys _ _ Hh)|done..]).
Qed.
End properties.

(** ** Witnesses: a risk is rated, its rating set aside, and a plan approved *)

#[local] Existing Instance counting_ids.

Definition first_db : PortDB := mkPortDB ["t1"] [] [] [] [] [] [] [] [] (empty_ledger 1786000000000000).
Definition state_after (ops : list port_operation) : PortDB :=
  fold_left (λ db o, after_run (perform default_service o) db) ops first_db.

Lemma state_later ops1 ops2 : later default_service (state_after ops1) (state_after (ops1 ++ ops2)).
Proof.
  unfold state_after. rewrite fold_left_app. generalize (fold_left (λ db o, after_run (perform default_service o) db) ops1 first_db).
  induction ops2 as [|o ops2 IH]; intros db; [apply rtc_refl|]. cbn [fold_left].
  destruct (perform default_service o db) as [[u db1]|e] eqn:E.
  - unfold after_run. rewrite E. eapply rtc_l; [by exists o, u|apply IH].
  - unfold after_run. rewrite E. apply IH.
Qed.

Lemma state_happens ops : port_happens default_service (state_after ops).
Proof.
  assert (H0 : port_happens default_service first_db).
  { apply port_first. do 5 (split; [done|]). split; [constructor|]. intros id. apply not_elem_of_nil. }
  pose proof (state_later [] ops) as Hl. change (state_after []) with first_db in Hl. cbn [app] in Hl.
  revert H0. induction Hl as [|x y z (o & u & E) _ IH]; [done|]. intros Hx. apply IH. by eapply port_next.
Qed.

Definition rated : list port_operation :=
  [RegisterRisk "t1" "R-1" "Leavers keep access" None;
   AssessRisk "t1" "R-1" sample_factors "agent:scorer" 738900 None;
   AssessRisk "t1" "R-1" sample_factors "ann" 739000 None].
Definition overridden : list port_operation := [SetOfficialRating "t1" "R-1" "high" "bob" "board appetite"].
Definition planning : list port_operation :=
  [ProposePlan "t1" "2027" sample_candidates sample_capacity "agent:planner" "baseline";
   ApprovePlan "t1" "plp_7" "bob" "agreed"].

Definition the_risk : Risk := default (mkRisk "" "" "" "" None no_numbers) (head (risks (state_after (rated ++ overridden)))).
Lemma ratings_reproducible_witness :
  let db := state_after (rated ++ overridden) in
  the_risk ∈ risks db ∧
  map (λ a, (ras_version (rspec a), ras_rating (rspec a), official_rating (override a))) (assessments_of db (risk_id the_risk)) =
    [(1, "medium", None); (2, "medium", Some "high")] ∧
  ∃ f p res, computed (rspec (default (mkRiskAssessment (mkAssessmentSpec "" "" "" 0 "" [] [] [] zero zero "" zero zero false "" "" 0 0) no_override)
    (latest_assessment db (risk_id the_risk)))) f p res.
Proof.
  cbv zeta. assert (Hr : the_risk ∈ risks (state_after (rated ++ overridden))) by (vm_compute; left).
  split; [exact Hr|]. split; [vm_compute; reflexivity|].
  destruct (ratings_reproducible default_service (state_after (rated ++ overridden)) the_risk
    (state_happens _) Hr) as (_ & _ & H).
  assert (Hs : match latest_assessment (state_after (rated ++ overridden)) (risk_id the_risk) with Some _ => true | None => false end = true)
    by (vm_compute; reflexivity).
  destruct (latest_assessment _ _) as [a|]; [|discriminate Hs].
  destruct H as (_ & f & p & res & Hc & _). exists f, p, res. exact Hc.
Defined.

Definition the_proposal : PlanProposal :=
  default (mkPlanProposal (mkProposalSpec "" "" "" 0 "" 0 0 [] [] [] [] zero zero zero zero [] "") not_approved)
    (head (plan_proposals (state_after (rated ++ planning)))).

Lemma approvals_accept_the_rest_witness :
  let db := state_after (rated ++ planning) in
  the_proposal ∈ plan_proposals db ∧ pstatus the_proposal = "approved" ∧
  map (item_get "candidate_key") (accepted_items "excluded" (accepted_residual_json (approval the_proposal))) =
    [JStr "C4"; JStr "C3"] ∧
  ∃ q, q ∈ audit_plans db ∧ prp_plan_id (approval the_proposal) = Some (plan_id q) ∧ pln_status q = "approved".
Proof.
  cbv zeta. assert (Hp : the_proposal ∈ plan_proposals (state_after (rated ++ planning))) by (vm_compute; left).
  assert (Hs : pstatus the_proposal = "approved") by (vm_compute; reflexivity).
  split; [exact Hp|]. split; [exact Hs|]. split; [vm_compute; reflexivity|].
  destruct (approvals_accept_the_rest default_service (state_after (rated ++ planning)) the_proposal
    (state_happens _) Hp Hs) as (cs & c & r & q & b & _ & _ & Hq & Ha & _).
  exists q. split; [exact Hq|]. split; [exact (ap_plan _ _ _ _ Ha)|exact (ap_plan_status _ _ _ _ Ha)].
Defined.

Lemma portfolio_history_lasts_witness :
  port_lasts (state_after rated) (state_after (rated ++ overridden)) ∧
  map (λ r, ev_event_type (row_event r)) (audit_events (port_ledger (state_after (rated ++ overridden)))) =
    ["risk.assessed"; "risk.assessed"; "risk.rating_overridden"].
Proof.
  split; [|vm_compute; reflexivity].
  exact (portfolio_history_lasts default_service _ _ (state_happens rated) (state_later rated overridden)).
Defined.

(** A second override of the same assessment is refused. *)
Lemma override_exact_witness :
  let db := state_after (rated ++ overridden) in
  let m := set_official_rating default_service "t1" "R-1" "low" "cid" "new facts" in
  m db = Err (Py IntegrityError) ∧
  ∃ a0, (risk_by_code db "t1" "R-1" ≫= λ r, latest_assessment db (risk_id r)) = Some a0 ∧ override a0 ≠ no_override.
Proof.
  cbv zeta. assert (Hm : set_official_rating default_service "t1" "R-1" "low" "cid" "new facts" (state_after (rated ++ overridden)) = Err (Py IntegrityError))
    by (vm_compute; reflexivity).
  split; [exact Hm|].
  pose proof (override_exact default_service _ "t1" "R-1" "low" "cid" "new facts" (state_happens (rated ++ overridden))) as H.
  cbv zeta in H. rewrite Hm in H. destruct H as [[_ H]|[(_ & _ & H)|(_ & H & _)]]; [discriminate H|discriminate H|exact H].
Defined.
