(* ===== verification/Outbox.v ===== *)
(** * The transactional outbox

    db/repositories.py [OutboxRepository] and outbox.py: the rows that
    [OutboxRepository.add] (Ledger.v) leaves are leased by dispatchers, handed to
    a publisher, and marked published, failed or dead-lettered.  Each repository
    call is one transaction on the ledger; a dispatcher commits several of them
    and its publisher and clock are its environment.  What one dispatch is to do of that
    environment's answers is the relation [all_settled], over the events [first_due]. *)

From S2P Require Import Prelude PyFloat PyTime Ledger.
Local Open Scope Z_scope.

(** ** OutboxRepository *)

Definition set_outbox (rows : list OutboxEvent) (l : Ledger) : Ledger :=
  mkLedger (audit_events l) rows (uuids_drawn l) (wall_clock l).

(** The condition of [claim] and of [pending] at an instant. *)
Definition claimable_event (now : datetime) (o : OutboxEvent) : bool :=
  bool_decide (ob_published_at o = None) && bool_decide (ob_dead_lettered_at o = None) &&
  (ob_available_at o <=? now) &&
  match ob_lease_expires_at o with Some e => e <=? now | None => true end.

Definition outbox_cmp : OutboxEvent → OutboxEvent → comparison :=
  cmp_then (cmp_on ob_available_at Z.compare)
    (cmp_then (cmp_on ob_occurred_at Z.compare) (cmp_on outbox_id String.compare)).

Definition pending_events (now : option datetime) (limit : nat) (l : Ledger) : list OutboxEvent :=
  take limit (sort_by outbox_cmp (filter (λ o,
    match now with
    | Some now => claimable_event now o
    | None => bool_decide (ob_published_at o = None) && bool_decide (ob_dead_lettered_at o = None)
    end = true) (outbox_events l))).

(** [UPDATE ... WHERE p]: the number of rows it changed. *)
Definition update_where (p : OutboxEvent → bool) (f : OutboxEvent → OutboxEvent) : Tx Ledger nat :=
  λ l, Ok (length (filter (λ o, p o = true) (outbox_events l)),
           set_outbox (map (λ o, if p o then f o else o) (outbox_events l)) l).

Definition set_lease (owner : option string) (expires : option datetime) (o : OutboxEvent)
    : OutboxEvent :=
  mkOutboxEvent (outbox_id o) (ob_tenant_id o) (ob_aggregate_type o) (ob_aggregate_id o)
    (ob_event_type o) (ob_payload o) (ob_idempotency_key o) (ob_occurred_at o) (ob_available_at o)
    owner expires (ob_published_at o) (ob_published_message_id o) (ob_dead_lettered_at o)
    (ob_publish_attempts o) (ob_last_error o).

Definition refresh (id : string) : Tx Ledger OutboxEvent :=
  l ← gets (λ l, l);
  some_or_raise (Py RuntimeError) (snd <$> list_find (λ o, outbox_id o = id) (outbox_events l)).

Fixpoint claim_each (worker_id : string) (now expires : datetime) (ids : list string)
    : Tx Ledger (list OutboxEvent) :=
  match ids with
  | [] => mret []
  | id :: ids =>
      n ← update_where (λ o, bool_decide (outbox_id o = id) && claimable_event now o)
            (set_lease (Some worker_id) (Some expires));
      if bool_decide (n = 1%nat) then
        o ← refresh id;
        rest ← claim_each worker_id now expires ids;
        mret (o :: rest)
      else claim_each worker_id now expires ids
  end.

Definition claim (worker_id : string) (now : datetime) (lease_seconds limit : Z)
    : Tx Ledger (list OutboxEvent) :=
  require ((0 <? lease_seconds) && (0 <? limit)) (Py ValueError) ;;
  expires ← from_res (add_us now (seconds lease_seconds));
  candidates ← gets (pending_events (Some now) (Z.to_nat limit));
  claim_each worker_id now expires (map outbox_id candidates).

(** The row of an event whose lease the worker holds and that is not published. *)
Definition held (id worker_id : string) (o : OutboxEvent) : bool :=
  bool_decide (outbox_id o = id) && bool_decide (ob_published_at o = None) &&
  bool_decide (ob_lease_owner o = Some worker_id).

Definition published_row (at_ : datetime) (message_id : string) (o : OutboxEvent) : OutboxEvent :=
  mkOutboxEvent (outbox_id o) (ob_tenant_id o) (ob_aggregate_type o) (ob_aggregate_id o)
    (ob_event_type o) (ob_payload o) (ob_idempotency_key o) (ob_occurred_at o) (ob_available_at o)
    None None (Some at_) (Some message_id) (ob_dead_lettered_at o)
    (ob_publish_attempts o + 1) None.

Definition mark_published (id worker_id : string) (at_ : datetime) (message_id : string)
    : Tx Ledger bool :=
  n ← update_where (held id worker_id) (published_row at_ message_id);
  mret (bool_decide (n = 1%nat)).

Definition failed_row (now available : datetime) (error : string) (dead_letter : bool)
    (o : OutboxEvent) : OutboxEvent :=
  mkOutboxEvent (outbox_id o) (ob_tenant_id o) (ob_aggregate_type o) (ob_aggregate_id o)
    (ob_event_type o) (ob_payload o) (ob_idempotency_key o) (ob_occurred_at o) available
    None None (ob_published_at o) (ob_published_message_id o)
    (if dead_letter then Some now else ob_dead_lettered_at o)
    (ob_publish_attempts o + 1) (Some (String.substring 0 4000 error)).

Definition mark_failed (id worker_id : string) (now : datetime) (error : string)
    (retry_delay_seconds : Z) (dead_letter : bool) : Tx Ledger bool :=
  available ← from_res (add_us now (seconds (Z.max retry_delay_seconds 0)));
  n ← update_where (held id worker_id) (failed_row now available error dead_letter);
  mret (bool_decide (n = 1%nat)).

(** ** OutboxDispatcher *)

Record PublishedMessage := mkPublishedMessage {
  msg_outbox_id : string;
  msg_message_id : string;
  msg_event_type : string;
  msg_tenant_id : string
}.

Record DispatchReport := mkDispatchReport {
  rep_claimed : Z;
  rep_published : Z;
  rep_failed : Z;
  rep_dead_lettered : Z;
  rep_messages : list PublishedMessage
}.

(** What a dispatcher is built from: its publisher, which returns a message
    identifier or raises an exception with a class name and a text, and its clock,
    over the state [P] of both. *)
Record Publisher (P : Type) := mkPublisher {
  publish : OutboxEvent → P → (string + string * string) * P;
  clock : P → datetime * P
}.
Arguments publish {P}.
Arguments clock {P}.

Record DispatcherConfig := mkDispatcherConfig {
  disp_max_attempts : Z;
  disp_max_backoff_seconds : Z
}.
(** [__init__] refuses [max_attempts < 1]. *)
Definition DispatcherConfig_valid (c : DispatcherConfig) : bool := 1 <=? disp_max_attempts c.

Record World (P : Type) := mkWorld { w_ledger : Ledger; w_env : P }.
Arguments mkWorld {P}.
Arguments w_ledger {P}.
Arguments w_env {P}.

Definition backoff (c : DispatcherConfig) (attempt_no : Z) : Z :=
  Z.min (2 ^ Z.max (attempt_no - 1) 0) (disp_max_backoff_seconds c).

Section dispatcher.
Context {P : Type} (pub : Publisher P) (config : DispatcherConfig).

Definition set_w_ledger (l : Ledger) (w : World P) : World P := mkWorld l (w_env w).
Definition in_transaction {A} (m : Tx Ledger A) : Prog (World P) A := commit w_ledger set_w_ledger m.
Definition call {A} (f : P → A * P) : Prog (World P) A :=
  external (λ w, let '(a, p) := f (w_env w) in (a, mkWorld (w_ledger w) p)).

(** The body of the loop: the message it published, or whether the failed event
    was dead-lettered. *)
Definition dispatch_event (worker_id : string) (event : OutboxEvent)
    : Prog (World P) (PublishedMessage + bool) :=
  answer ← call (publish pub event);
  match answer with
  | inr (name, text) =>
      let attempt_no := ob_publish_attempts event + 1 in
      let is_dead := disp_max_attempts config <=? attempt_no in
      now ← call (clock pub);
      in_transaction (
        updated ← mark_failed (outbox_id event) worker_id now (name +:+ ": " +:+ text)
                    (backoff config attempt_no) is_dead;
        require updated (Py RuntimeError)) ;;
      mret (inr is_dead)
  | inl message_id =>
      published_at ← call (clock pub);
      in_transaction (
        updated ← mark_published (outbox_id event) worker_id published_at message_id;
        require updated (Py RuntimeError)) ;;
      mret (inl (mkPublishedMessage (outbox_id event) message_id (ob_event_type event)
                   (ob_tenant_id event)))
  end.

Fixpoint dispatch_events (worker_id : string) (events : list OutboxEvent) (published : list PublishedMessage)
    (failures dead_lettered : Z) : Prog (World P) (list PublishedMessage * Z * Z) :=
  match events with
  | [] => mret (published, failures, dead_lettered)
  | event :: events =>
      outcome ← dispatch_event worker_id event;
      match outcome with
      | inl message => dispatch_events worker_id events (published ++ [message]) failures dead_lettered
      | inr is_dead =>
          dispatch_events worker_id events published (failures + 1)
            (if is_dead : bool then dead_lettered + 1 else dead_lettered)
      end
  end.

Definition dispatch_once (worker_id : string) (limit lease_seconds : Z)
    : Prog (World P) DispatchReport :=
  now ← call (clock pub);
  claimed ← in_transaction (claim worker_id now lease_seconds limit);
  result ← dispatch_events worker_id claimed [] 0 0;
  let '(published, failures, dead_lettered) := result in
  mret (mkDispatchReport (Z.of_nat (length claimed)) (Z.of_nat (length published)) failures
          dead_lettered published).
End dispatcher.

(** ** InMemoryPublisher *)

Section in_memory.
Context `{UuidSource}.

Record InMemoryPublisher := mkInMemoryPublisher {
  events : list dict;
  ids_drawn : N
}.

Definition in_memory_publish (event : OutboxEvent) (p : InMemoryPublisher)
    : (string + string * string) * InMemoryPublisher :=
  let message_id := "mem_" +:+ uuid4_hex 20 (ids_drawn p) in
  (inl message_id,
   mkInMemoryPublisher
     (events p ++
      [[("message_id", JStr message_id);
        ("outbox_id", JStr (outbox_id event));
        ("tenant_id", JStr (ob_tenant_id event));
        ("event_type", JStr (ob_event_type event));
        ("aggregate_type", JStr (ob_aggregate_type event));
        ("aggregate_id", JStr (ob_aggregate_id event));
        ("idempotency_key", JStr (ob_idempotency_key event));
        ("occurred_at", JStr (isoformat (ob_occurred_at event)));
        ("payload", JObj (ob_payload event))]]) (ids_drawn p + 1)).
End in_memory.

(** ** What a transaction does to a row *)

Inductive row_step (o o' : OutboxEvent) : Prop :=
  | row_leased worker now expires
      (Hc : claimable_event now o = true) (Hlt : now < expires)
      (Ho : o' = set_lease (Some worker) (Some expires) o)
  | row_published worker at_ message_id
      (Hh : held (outbox_id o) worker o = true) (Ho : o' = published_row at_ message_id o)
  | row_failed worker now available error dead
      (Hh : held (outbox_id o) worker o = true) (Hle : now ≤ available)
      (Ho : o' = failed_row now available error dead o).

(** What never changes of a row. *)
Definition row_identity (o : OutboxEvent) :=
  (outbox_id o, ob_tenant_id o, ob_aggregate_type o, ob_aggregate_id o, ob_event_type o,
   ob_payload o, ob_idempotency_key o, ob_occurred_at o).

(** A row is leased, published, dead-lettered or free, and only one of them. *)
Record row_ok (o : OutboxEvent) : Prop := {
  ok_lease : is_Some (ob_lease_owner o) ↔ is_Some (ob_lease_expires_at o);
  ok_message : is_Some (ob_published_message_id o) ↔ is_Some (ob_published_at o);
  ok_published : is_Some (ob_published_at o) → ob_lease_owner o = None ∧ ob_dead_lettered_at o = None;
  ok_dead : is_Some (ob_dead_lettered_at o) → ob_lease_owner o = None;
  ok_attempts : 0 ≤ ob_publish_attempts o
}.

Lemma claimable_event_spec now o :
  claimable_event now o = true ↔
  ob_published_at o = None ∧ ob_dead_lettered_at o = None ∧ ob_available_at o ≤ now ∧
  ∀ e, ob_lease_expires_at o = Some e → e ≤ now.
Proof.
  unfold claimable_event. rewrite !andb_true_iff, !bool_decide_eq_true, Z.leb_le.
  destruct (ob_lease_expires_at o); [rewrite Z.leb_le|]; naive_solver.
Qed.

Lemma held_spec id worker o :
  held id worker o = true ↔
  outbox_id o = id ∧ ob_published_at o = None ∧ ob_lease_owner o = Some worker.
Proof. unfold held. rewrite !andb_true_iff, !bool_decide_eq_true. tauto. Qed.

Lemma row_step_identity o o' : row_step o o' → row_identity o' = row_identity o.
Proof. by destruct 1 as [????? ->|???? ->|?????? ? ->]. Qed.

Lemma row_step_ok o o' : row_step o o' → row_ok o → row_ok o'.
Proof.
  intros Hs [H1 H2 H3 H4 H5].
  destruct Hs as [w n e (Hp & Hd & _)%claimable_event_spec _ ->|w a m (_ & Hp & Ho)%held_spec ->|
    w n a e d (_ & Hp & Ho)%held_spec _ ->];
    rewrite ?Hp, ?Hd, ?Ho in *; split; simpl; rewrite ?Hp, ?Hd; try done; try lia;
    try (by split; intros _; eexists); try (by intros [? ?]);
    try (by destruct d; intros _).
  intros _. split; [done|]. destruct (ob_dead_lettered_at o); [|done].
  discriminate H4. by eexists.
Qed.

(** A published row and a dead-lettered row are never touched again. *)
Lemma row_step_open o o' :
  row_ok o → row_step o o' → ob_published_at o = None ∧ ob_dead_lettered_at o = None.
Proof.
  intros Hok Hs. destruct Hs as [? ? ? (? & ? & _)%claimable_event_spec _ _|
    ? ? ? (_ & Hp & Ho)%held_spec _|? ? ? ? ? (_ & Hp & Ho)%held_spec _ _]; [done|..];
    (split; [done|]); destruct (ob_dead_lettered_at o) eqn:Hd; try done;
    rewrite (ok_dead o Hok) in Ho; (done || (rewrite Hd; by eexists)).
Qed.

(** ** What a transaction does to the table *)

(** Every row takes steps, none is removed, and new rows come last. *)
Definition table_step (rows rows' : list OutboxEvent) : Prop :=
  ∃ old new, rows' = old ++ new ∧ Forall2 (rtc row_step) rows old.

Record outbox_wf `{UuidSource} (l : Ledger) : Prop := {
  wf_ids : NoDup (map outbox_id (outbox_events l));
  wf_drawn : ∀ o n, o ∈ outbox_events l → (uuids_drawn l ≤ n)%N →
    outbox_id o ≠ "obx_" +:+ uuid4_hex 20 n;
  wf_rows : Forall row_ok (outbox_events l)
}.

Lemma rows_identity_map rows old :
  Forall2 (rtc row_step) rows old → map row_identity old = map row_identity rows.
Proof.
  induction 1 as [|o o' rows old Hs _ IH]; [done|]. simpl. rewrite IH. f_equal.
  induction Hs as [|o1 o2 o3 Hs _ IHs]; [done|]. rewrite IHs. by apply row_step_identity.
Qed.

Lemma rows_ok_map rows old :
  Forall2 (rtc row_step) rows old → Forall row_ok rows → Forall row_ok old.
Proof.
  induction 1 as [|o o' rows old Hs _ IH]; [done|]. intros [Ho Hr]%Forall_cons. constructor; [|auto].
  clear -Hs Ho. induction Hs; eauto using row_step_ok.
Qed.

Lemma ids_of_identity rows old :
  map row_identity old = map row_identity rows → map outbox_id old = map outbox_id rows.
Proof.
  intros E. apply (f_equal (map (λ i, i.1.1.1.1.1.1.1))) in E. by rewrite !map_map in E.
Qed.

(** A transaction that only updates rows. *)
Lemma outbox_wf_update `{UuidSource} l l' :
  Forall2 (rtc row_step) (outbox_events l) (outbox_events l') →
  uuids_drawn l' = uuids_drawn l → outbox_wf l → outbox_wf l'.
Proof.
  intros Hs Hu [Hn Hd Hr]. pose proof (ids_of_identity _ _ (rows_identity_map _ _ Hs)) as Hids.
  split; [by rewrite Hids| |by eapply rows_ok_map].
  intros o n Ho. rewrite Hu. intros Hle.
  assert (Hin : outbox_id o ∈ map outbox_id (outbox_events l)) by (rewrite <- Hids; by apply list_elem_of_fmap_2).
  apply list_elem_of_fmap in Hin as (o0 & -> & Ho0). by apply Hd.
Qed.

Lemma outbox_wf_empty `{UuidSource} now : outbox_wf (empty_ledger now).
Proof. split; [constructor|by intros ?? ?%elem_of_nil|constructor]. Qed.

(** ** Updates by identifier *)

Section by_id.
Context (rows : list OutboxEvent) (Hnd : NoDup (map outbox_id rows)).

Lemma id_unique o o' : o ∈ rows → o' ∈ rows → outbox_id o = outbox_id o' → o = o'.
Proof. clear -Hnd. intros. by eapply NoDup_map_inj. Qed.

Lemma filter_by_id (p : OutboxEvent → bool) o :
  o ∈ rows → p o = true → (∀ o', p o' = true → outbox_id o' = outbox_id o) →
  filter (λ o, p o = true) rows = [o].
Proof.
  intros Ho Hp Hid. apply Permutation_singleton_r, NoDup_Permutation.
  - apply NoDup_filter. by eapply NoDup_fmap_1.
  - apply NoDup_singleton.
  - intros x. rewrite list_elem_of_filter, list_elem_of_singleton. split; [|by intros ->].
    intros [Hx Hin]. apply id_unique; auto.
Qed.

Lemma find_by_id o : o ∈ rows → snd <$> list_find (λ x, outbox_id x = outbox_id o) rows = Some o.
Proof.
  intros Ho. destruct (list_find_elem_of (λ x, outbox_id x = outbox_id o) rows o Ho eq_refl) as [[i x] E].
  rewrite E. simpl. f_equal. apply list_find_Some in E as (Hx & Hid & _).
  apply id_unique; [by eapply list_elem_of_lookup_2|done..].
Qed.
End by_id.

(** ** The functional behaviour of the repository *)

Definition leased (worker : string) (expires : datetime) : OutboxEvent → OutboxEvent :=
  set_lease (Some worker) (Some expires).

(** The table after the rows of [ids] are leased. *)
Definition lease_rows (worker : string) (expires : datetime) (ids : list string)
    (rows : list OutboxEvent) : list OutboxEvent :=
  map (λ o, if decide (outbox_id o ∈ ids) then leased worker expires o else o) rows.

Lemma lease_rows_nil worker expires rows : lease_rows worker expires [] rows = rows.
Proof.
  unfold lease_rows. rewrite <- (map_id rows) at 2. apply map_ext. intros o.
  by rewrite decide_False by apply not_elem_of_nil.
Qed.

Lemma lease_rows_ids worker expires ids rows :
  map outbox_id (lease_rows worker expires ids rows) = map outbox_id rows.
Proof. unfold lease_rows. rewrite map_map. apply map_ext. intros o. by case_decide. Qed.

Lemma lease_rows_cons worker expires id ids rows :
  id ∉ ids →
  lease_rows worker expires ids (lease_rows worker expires [id] rows) =
    lease_rows worker expires (id :: ids) rows.
Proof.
  intros Hid. unfold lease_rows. rewrite map_map. apply map_ext. intros o.
  destruct (decide (outbox_id o = id)) as [<-|Hne].
  - rewrite (decide_True (P:=outbox_id o ∈ [outbox_id o])) by left.
    rewrite decide_False by done. by rewrite decide_True by left.
  - rewrite (decide_False (P:=outbox_id o ∈ [id])) by (by rewrite list_elem_of_singleton).
    destruct (decide (outbox_id o ∈ ids)).
    + by rewrite decide_True by (by right).
    + by rewrite decide_False by (by apply not_elem_of_cons).
Qed.

(** Claiming one candidate. *)
Lemma claim_one worker now expires l c :
  NoDup (map outbox_id (outbox_events l)) → c ∈ outbox_events l → claimable_event now c = true →
  update_where (λ o, bool_decide (outbox_id o = outbox_id c) && claimable_event now o)
    (leased worker expires) l =
  Ok (1%nat, set_outbox (lease_rows worker expires [outbox_id c] (outbox_events l)) l).
Proof.
  intros Hnd Hc Hcc. unfold update_where. rewrite (filter_by_id _ Hnd _ c); [|done| |].
  - f_equal. f_equal. f_equal. apply map_ext_elem. intros o Ho. case_bool_decide as Hid; simpl.
    + rewrite (id_unique _ Hnd o c) by done. rewrite Hcc.
      by rewrite decide_True by (by apply list_elem_of_singleton).
    + by rewrite decide_False by (by rewrite list_elem_of_singleton).
  - by rewrite bool_decide_true, Hcc.
  - by intros o [H%bool_decide_eq_true _]%andb_true_iff.
Qed.

Lemma refresh_leased worker expires l c :
  NoDup (map outbox_id (outbox_events l)) → c ∈ outbox_events l →
  let l1 := set_outbox (lease_rows worker expires [outbox_id c] (outbox_events l)) l in
  refresh (outbox_id c) l1 = Ok (leased worker expires c, l1).
Proof.
  intros Hnd Hc l1. unfold refresh. rewrite (tx_bind_step _ _ _ l1 l1) by done.
  assert (Hf : snd <$> list_find (λ x, outbox_id x = outbox_id c) (outbox_events l1) =
               Some (leased worker expires c)).
  { assert (Hnd1 : NoDup (map outbox_id (outbox_events l1))) by (simpl; by rewrite lease_rows_ids).
    apply (find_by_id (outbox_events l1) Hnd1 (leased worker expires c)).
    apply list_elem_of_fmap. exists c. split; [|done].
    by rewrite decide_True by (by apply list_elem_of_singleton). }
  by rewrite Hf.
Qed.

Lemma claim_each_spec worker now expires cs l :
  NoDup (map outbox_id (outbox_events l)) → NoDup (map outbox_id cs) →
  (∀ o, o ∈ cs → o ∈ outbox_events l ∧ claimable_event now o = true) →
  claim_each worker now expires (map outbox_id cs) l =
    Ok (map (leased worker expires) cs,
        set_outbox (lease_rows worker expires (map outbox_id cs) (outbox_events l)) l).
Proof.
  revert l. induction cs as [|c cs IH]; intros l Hnd Hcs Hin.
  { simpl. rewrite lease_rows_nil. by destruct l. }
  cbn [map] in Hcs. apply NoDup_cons in Hcs as [Hc Hcs]. destruct (Hin c) as [Hcl Hcc]; [left|].
  assert (Hnd1 : NoDup (map outbox_id (lease_rows worker expires [outbox_id c] (outbox_events l))))
    by (by rewrite lease_rows_ids).
  assert (Hin1 : ∀ o, o ∈ cs →
    o ∈ lease_rows worker expires [outbox_id c] (outbox_events l) ∧ claimable_event now o = true).
  { intros o Ho. destruct (Hin o) as [Ho1 Ho2]; [by right|]. split; [|done].
    apply list_elem_of_fmap. exists o. split; [|done]. rewrite decide_False; [done|].
    rewrite list_elem_of_singleton. intros Hid. apply Hc. rewrite <- Hid. by apply list_elem_of_fmap_2. }
  cbn [map claim_each]. fold (leased worker expires).
  rewrite (tx_bind_step _ _ _ _ _ (claim_one worker now expires l c Hnd Hcl Hcc)).
  rewrite bool_decide_true by done.
  rewrite (tx_bind_step _ _ _ _ _ (refresh_leased worker expires l c Hnd Hcl)).
  rewrite <- (lease_rows_cons _ _ (outbox_id c) (map outbox_id cs)) by exact Hc. rewrite (tx_bind_step _ _ _ _ _ (IH (set_outbox _ l) Hnd1 Hcs Hin1)).
  reflexivity.
Qed.

Lemma pending_events_spec now limit l o :
  o ∈ pending_events (Some now) limit l → o ∈ outbox_events l ∧ claimable_event now o = true.
Proof.
  intros [i Hi]%list_elem_of_lookup. unfold pending_events in Hi.
  apply lookup_take_Some in Hi as [Hi _]. apply list_elem_of_lookup_2 in Hi.
  apply elem_of_sort_by, list_elem_of_filter in Hi. tauto.
Qed.

Lemma pending_events_ids now limit l :
  NoDup (map outbox_id (outbox_events l)) → NoDup (map outbox_id (pending_events now limit l)).
Proof.
  intros Hnd. unfold pending_events. rewrite <- firstn_map.
  eapply sublist_NoDup; [|apply sublist_take]. rewrite sort_by_Permutation.
  by apply NoDup_map_filter.
Qed.

(** [claim] leases the first [limit] pending rows, in the order of [pending], and
    changes no other. *)
Lemma claim_spec worker now lease_seconds limit expires l :
  NoDup (map outbox_id (outbox_events l)) →
  0 < lease_seconds → 0 < limit → add_us now (seconds lease_seconds) = Ok expires →
  let ready := pending_events (Some now) (Z.to_nat limit) l in
  claim worker now lease_seconds limit l =
    Ok (map (leased worker expires) ready,
        set_outbox (lease_rows worker expires (map outbox_id ready) (outbox_events l)) l).
Proof.
  intros Hnd Hs Hl Hexp ready. unfold claim, require.
  rewrite (proj2 (Z.ltb_lt _ _) Hs), (proj2 (Z.ltb_lt _ _) Hl). simpl.
  rewrite (tx_bind_step _ _ l tt l), Hexp by done. simpl.
  rewrite (tx_bind_step _ _ l expires l), (tx_bind_step _ _ l ready l) by done.
  apply claim_each_spec; [done|by apply pending_events_ids|]. intros o. apply pending_events_spec.
Qed.

(** A claim either refuses its arguments, overflows the calendar, or is [claim_spec]. *)
Lemma claim_Ok worker now lease_seconds limit l claimed l' :
  claim worker now lease_seconds limit l = Ok (claimed, l') →
  0 < lease_seconds ∧ 0 < limit ∧
  ∃ expires, add_us now (seconds lease_seconds) = Ok expires ∧ now < expires.
Proof.
  intros E. unfold claim in E. apply tx_bind_Ok in E as ([] & s1 & [Hr ->]%require_Ok & E).
  apply andb_true_iff in Hr as [Hs%Z.ltb_lt Hl%Z.ltb_lt].
  apply tx_bind_Ok in E as (expires & s1 & [Hexp ->]%from_res_Ok & _).
  split; [done|]. split; [done|]. exists expires. split; [done|].
  unfold add_us, seconds, us_per_second in Hexp. destruct (in_range _); [|done].
  injection Hexp as <-. lia.
Qed.

(** The outcome of a mark: the row of the event, if its worker holds it. *)
Lemma update_held id worker f l o :
  NoDup (map outbox_id (outbox_events l)) → o ∈ outbox_events l → held id worker o = true →
  update_where (held id worker) f l =
    Ok (1%nat, set_outbox (map (λ x, if decide (outbox_id x = id) then f x else x) (outbox_events l)) l).
Proof.
  intros Hnd Ho Hh. pose proof Hh as (Hid & _)%held_spec. unfold update_where.
  rewrite (filter_by_id _ Hnd _ o); [|done..|by intros x (Hx & _)%held_spec; rewrite Hx].
  f_equal. f_equal. f_equal. apply map_ext_elem. intros x Hx. case_decide as Hxi.
  - rewrite (id_unique _ Hnd x o); [by rewrite Hh|done..|congruence].
  - destruct (held id worker x) eqn:Hhx; [|done]. by apply held_spec in Hhx as (? & _).
Qed.

Lemma update_not_held id worker f l :
  (∀ o, o ∈ outbox_events l → held id worker o = false) →
  update_where (held id worker) f l = Ok (0%nat, l).
Proof.
  intros Hh. unfold update_where. rewrite filter_none by (intros o Ho; by rewrite Hh).
  f_equal. f_equal. destruct l as [a rows u c]. unfold set_outbox. simpl in *. f_equal.
  rewrite <- (map_id rows) at 2. apply map_ext_elem. intros o Ho. by rewrite Hh.
Qed.

(** ** Every transaction is a step of the rows *)

Lemma update_where_steps p f l n l' :
  (∀ o, o ∈ outbox_events l → p o = true → row_step o (f o)) →
  update_where p f l = Ok (n, l') →
  Forall2 (rtc row_step) (outbox_events l) (outbox_events l') ∧ uuids_drawn l' = uuids_drawn l ∧
  audit_events l' = audit_events l.
Proof.
  intros Hp [= <- <-]. split; [|done]. simpl.
  assert (Hgen : ∀ rows, (∀ o, o ∈ rows → p o = true → row_step o (f o)) →
    Forall2 (rtc row_step) rows (map (λ o, if p o then f o else o) rows)); [|by apply Hgen].
  induction rows as [|o rows IH]; intros Hr; [constructor|]. simpl. constructor.
  - destruct (p o) eqn:E; [|apply rtc_refl]. apply rtc_once, Hr; [left|done].
  - apply IH. intros x ?. apply Hr. by right.
Qed.

(** What the transactions of a dispatcher do to the ledger. *)
Definition outbox_steps (l l' : Ledger) : Prop :=
  Forall2 (rtc row_step) (outbox_events l) (outbox_events l') ∧ uuids_drawn l' = uuids_drawn l ∧
  audit_events l' = audit_events l.

Lemma outbox_steps_refl l : outbox_steps l l.
Proof. split; [|done]. apply Forall2_same_length_lookup_2; [done|]. intros i x y Hx Hy. simplify_eq. apply rtc_refl. Qed.

Lemma outbox_steps_trans l1 l2 l3 : outbox_steps l1 l2 → outbox_steps l2 l3 → outbox_steps l1 l3.
Proof.
  intros (H1 & ? & ?) (H2 & ? & ?). split; [|split; congruence].
  by etrans.
Qed.

Lemma claim_steps worker now lease_seconds limit l claimed l' :
  NoDup (map outbox_id (outbox_events l)) →
  claim worker now lease_seconds limit l = Ok (claimed, l') → outbox_steps l l'.
Proof.
  intros Hnd E. pose proof E as (Hs & Hl & expires & Hexp & Hlt)%claim_Ok.
  rewrite (claim_spec _ _ _ _ expires) in E by done. injection E as _ <-. split; [|done].
  simpl. unfold lease_rows. set (ready := pending_events _ _ _).
  assert (Hgen : ∀ rows, (∀ o, o ∈ rows → o ∈ outbox_events l) → Forall2 (rtc row_step) rows
    (map (λ o, if decide (outbox_id o ∈ map outbox_id ready) then leased worker expires o else o) rows));
    [|by apply Hgen].
  induction rows as [|o rows IH]; intros Hr; [constructor|]. simpl. constructor; [|apply IH; intros; apply Hr; by right].
  case_decide as Hid; [|apply rtc_refl]. apply rtc_once.
  apply list_elem_of_fmap in Hid as (c & Hid & [Hc Hcc]%pending_events_spec).
  rewrite (id_unique _ Hnd o c) by (done || (apply Hr; left)).
  by eapply row_leased.
Qed.

Lemma mark_published_steps id worker at_ m l b l' :
  mark_published id worker at_ m l = Ok (b, l') → outbox_steps l l'.
Proof.
  intros (n & l1 & E & [_ ->]%tx_ret_Ok)%tx_bind_Ok. eapply update_where_steps; [|exact E].
  intros o _ Hh. pose proof Hh as (Hid & _)%held_spec. subst id. by eapply row_published.
Qed.

Lemma mark_failed_steps id worker now err delay dead l b l' :
  mark_failed id worker now err delay dead l = Ok (b, l') → outbox_steps l l'.
Proof.
  intros (available & l0 & [Ha ->]%from_res_Ok & (n & l1 & E & [_ ->]%tx_ret_Ok)%tx_bind_Ok)%tx_bind_Ok.
  eapply update_where_steps; [|exact E].
  intros o _ Hh. pose proof Hh as (Hid & _)%held_spec. subst id. eapply row_failed; [done| |done].
  unfold add_us, seconds, us_per_second in Ha. destruct (in_range _); [|done]. injection Ha as <-. lia.
Qed.

Lemma outbox_wf_steps `{UuidSource} l l' : outbox_steps l l' → outbox_wf l → outbox_wf l'.
Proof. intros (Hs & Hu & _). by apply outbox_wf_update. Qed.

(** ** The transactions of the repository, in any order *)

Inductive outbox_op :=
  | AddEvent (tenant_id aggregate_type aggregate_id event_type : string) (payload : dict) (key : string)
  | Claim (worker_id : string) (now : datetime) (lease_seconds limit : Z)
  | MarkPublished (id worker_id : string) (at_ : datetime) (message_id : string)
  | MarkFailed (id worker_id : string) (now : datetime) (error : string) (delay : Z) (dead : bool).

Section histories.
Context `{UuidSource}.

Definition outbox_run (op : outbox_op) : Tx Ledger unit :=
  match op with
  | AddEvent t aty ai ty pl key => outbox_add t aty ai ty pl key
  | Claim w now s n => _ ← claim w now s n; mret tt
  | MarkPublished id w a m => _ ← mark_published id w a m; mret tt
  | MarkFailed id w now err d dead => _ ← mark_failed id w now err d dead; mret tt
  end.

(** The outboxes a history of these transactions leads to, while other components
    draw identifiers and append audit events. *)
Inductive outbox_reachable : Ledger → Prop :=
  | outbox_empty now : outbox_reachable (empty_ledger now)
  | outbox_step op l l' : outbox_reachable l → outbox_run op l = Ok (tt, l') → outbox_reachable l'
  | outbox_other l l' : outbox_reachable l → outbox_events l' = outbox_events l →
      (uuids_drawn l ≤ uuids_drawn l')%N → outbox_reachable l'.

Lemma outbox_add_wf t aty ai ty pl key : preserves outbox_wf (outbox_add t aty ai ty pl key).
Proof.
  intros l u l' [Hn Hd Hr] E. unfold outbox_add in E.
  apply tx_bind_Ok in E as (id & l1 & [-> ->]%new_id_Ok & E).
  apply tx_bind_Ok in E as (l2 & l3 & [-> ->]%gets_Ok & E).
  apply tx_bind_Ok in E as ([] & l2 & [_ ->]%require_Ok & ->%modify_Ok).
  split; simpl in *.
  - rewrite map_app. apply NoDup_app. split; [done|]. split; [|apply NoDup_singleton].
    intros i Hi ->%list_elem_of_singleton. apply list_elem_of_fmap in Hi as (o & Hid & Ho).
    by apply (Hd o (uuids_drawn l)) in Ho; [|done].
  - intros o n [Ho|Ho]%elem_of_app Hle; [apply Hd; [done|lia]|].
    apply list_elem_of_singleton in Ho as ->. simpl. intros Heq.
    simpl in Heq. injection Heq as Heq. apply uuid4_hex_inj' in Heq; lia.
  - apply Forall_app. split; [done|]. apply Forall_singleton.
    by split; simpl; rewrite ?is_Some_alt.
Qed.

Lemma outbox_run_steps op l u l' :
  outbox_wf l → outbox_run op l = Ok (u, l') →
  outbox_wf l' ∧ table_step (outbox_events l) (outbox_events l').
Proof.
  intros Hwf E. pose proof (wf_ids _ Hwf) as Hnd.
  assert (Hupd : outbox_steps l l' → outbox_wf l' ∧ table_step (outbox_events l) (outbox_events l')).
  { intros Hs. split; [by eapply outbox_wf_steps|]. exists (outbox_events l'), [].
    rewrite app_nil_r. split; [done|apply Hs]. }
  destruct op; simpl in E.
  - split; [by eapply outbox_add_wf|]. apply outbox_add_Ok in E as (_ & _ & (o & -> & _) & _).
    exists (outbox_events l), [o]. split; [done|]. apply outbox_steps_refl.
  - apply tx_bind_Ok in E as (? & ? & E & [_ ->]%tx_ret_Ok). apply Hupd. by eapply claim_steps.
  - apply tx_bind_Ok in E as (? & ? & E & [_ ->]%tx_ret_Ok). apply Hupd. by eapply mark_published_steps.
  - apply tx_bind_Ok in E as (? & ? & E & [_ ->]%tx_ret_Ok). apply Hupd. by eapply mark_failed_steps.
Qed.

Lemma outbox_reachable_wf l : outbox_reachable l → outbox_wf l.
Proof.
  induction 1 as [now|op l l' _ IH E|l l' _ IH E Hle]; [apply outbox_wf_empty|by eapply outbox_run_steps|].
  destruct IH as [Hn Hd Hr]. split; rewrite E; [done| |done].
  intros o n Ho Hn'. apply Hd; [done|lia].
Qed.
End histories.

(** ** One dispatch *)

(** What one dispatch is to do, over the states [P] of its publisher and clock.  An
    event is put to the publisher once and the clock is read once after the answer:
    the row that is left, and the message reported or whether it is dead-lettered. *)
Section specification.
Context {P : Type} (pub : Publisher P) (config : DispatcherConfig).

(** The pause before the [n]-th attempt is repeated, in microseconds. *)
Definition pause (n : Z) : Z := Z.max (Z.min (2 ^ Z.max (n - 1) 0) (disp_max_backoff_seconds config)) 0 * 1000000.

Inductive settled (o : OutboxEvent) (p : P) : OutboxEvent → PublishedMessage + bool → P → Prop :=
  | settled_published message p1 at_ p2 o'
      (Hp : publish pub o p = (inl message, p1)) (Hc : clock pub p1 = (at_, p2)) (Hid : row_identity o' = row_identity o)
      (Hpub : (ob_published_at o', ob_published_message_id o') = (Some at_, Some message))
      (Hlease : (ob_lease_owner o', ob_lease_expires_at o') = (None, None))
      (Hrest : (ob_available_at o', ob_dead_lettered_at o', ob_publish_attempts o', ob_last_error o') =
               (ob_available_at o, ob_dead_lettered_at o, ob_publish_attempts o + 1, None)) :
      settled o p o' (inl (mkPublishedMessage (outbox_id o) message (ob_event_type o) (ob_tenant_id o))) p2
  | settled_failed name text p1 now p2 o' dead
      (Hp : publish pub o p = (inr (name, text), p1)) (Hc : clock pub p1 = (now, p2)) (Hid : row_identity o' = row_identity o)
      (Hpub : (ob_published_at o', ob_published_message_id o') = (ob_published_at o, ob_published_message_id o))
      (Hlease : (ob_lease_owner o', ob_lease_expires_at o') = (None, None))
      (Hdead : dead = true ↔ disp_max_attempts config ≤ ob_publish_attempts o + 1)
      (Hrest : (ob_available_at o', ob_dead_lettered_at o', ob_publish_attempts o', ob_last_error o') =
               (now + pause (ob_publish_attempts o + 1), if dead then Some now else ob_dead_lettered_at o,
                ob_publish_attempts o + 1, Some (String.substring 0 4000 (name +:+ ": " +:+ text)))) :
      settled o p o' (inr dead) p2.
(** Several events, one after the other. *)
Inductive all_settled : list OutboxEvent → P → list OutboxEvent → list (PublishedMessage + bool) → P → Prop :=
  | none_settled p : all_settled [] p [] [] p
  | next_settled o os p o' out p1 os' outs p2 (Ho : settled o p o' out p1) (Hos : all_settled os p1 os' outs p2) :
      all_settled (o :: os) p (o' :: os') (out :: outs) p2.
(** An event the publisher refuses when its next attempt would be past the calendar. *)
Definition unsettled (o : OutboxEvent) (p : P) : Prop :=
  ∃ x p1 now p2, publish pub o p = (inr x, p1) ∧ clock pub p1 = (now, p2) ∧
    in_range (now + pause (ob_publish_attempts o + 1)) = false.

Definition sent (out : PublishedMessage + bool) : option PublishedMessage := match out with inl m => Some m | inr _ => None end.
Definition dead (out : PublishedMessage + bool) : option unit := match out with inr true => Some tt | _ => None end.

(** An event that is due, and the order of claims. *)
Definition due (now : datetime) (o : OutboxEvent) : Prop :=
  ob_published_at o = None ∧ ob_dead_lettered_at o = None ∧ ob_available_at o ≤ now ∧ ∀ e, ob_lease_expires_at o = Some e → e ≤ now.
Definition sooner (o o' : OutboxEvent) : Prop :=
  ob_available_at o < ob_available_at o' ∨ ob_available_at o = ob_available_at o' ∧
    (ob_occurred_at o < ob_occurred_at o' ∨ ob_occurred_at o = ob_occurred_at o' ∧ String.compare (outbox_id o) (outbox_id o') ≠ Gt).
(** [ready] are the first [limit] due events of [rows]. *)
Definition first_due (now : datetime) (limit : Z) (rows ready : list OutboxEvent) : Prop :=
  ∃ queue, StronglySorted sooner queue ∧ NoDup (map outbox_id queue) ∧ (∀ o, o ∈ queue ↔ o ∈ rows ∧ due now o) ∧
    ready = take (Z.to_nat limit) queue.
(** A row with a lease, and otherwise as it is. *)
Definition leased_as (worker : string) (expires : datetime) (o o' : OutboxEvent) : Prop :=
  row_identity o' = row_identity o ∧ (ob_lease_owner o', ob_lease_expires_at o') = (Some worker, Some expires) ∧
  (ob_available_at o', ob_published_at o', ob_published_message_id o', ob_dead_lettered_at o', ob_publish_attempts o', ob_last_error o') =
  (ob_available_at o, ob_published_at o, ob_published_message_id o, ob_dead_lettered_at o, ob_publish_attempts o, ob_last_error o).

Lemma settled_id o p o' out p' : settled o p o' out p' → outbox_id o' = outbox_id o.
Proof. destruct 1; unfold row_identity in Hid; congruence. Qed.
Lemma all_settled_ids os p os' outs p' : all_settled os p os' outs p' → map outbox_id os' = map outbox_id os.
Proof. induction 1 as [|o os p o' out p1 os' outs p2 Ho _ IH]; [done|]. cbn. by rewrite IH, (settled_id _ _ _ _ _ Ho). Qed.
End specification.

(** The rows of [os'] replaced in a table. *)
Definition with_rows (os' rows rows' : list OutboxEvent) : Prop :=
  map outbox_id rows' = map outbox_id rows ∧ (∀ o', o' ∈ os' → o' ∈ rows') ∧
  ∀ o, o ∈ rows → outbox_id o ∉ map outbox_id os' → o ∈ rows'.

(** The row with an identifier replaced. *)
Definition replace_row (o' : OutboxEvent) (rows : list OutboxEvent) : list OutboxEvent :=
  map (λ x, if decide (outbox_id x = outbox_id o') then o' else x) rows.

Lemma replace_row_ids o' rows : map outbox_id (replace_row o' rows) = map outbox_id rows.
Proof. unfold replace_row. rewrite map_map. apply map_ext. intros x. by case_decide. Qed.

Lemma elem_of_replace_row o' rows x : x ∈ rows → outbox_id x ≠ outbox_id o' → x ∈ replace_row o' rows.
Proof. intros Hx Hne. apply list_elem_of_fmap. exists x. by rewrite decide_False. Qed.

Lemma replace_row_self o' rows : outbox_id o' ∈ map outbox_id rows → o' ∈ replace_row o' rows.
Proof.
  intros (x & Hid & Hx)%list_elem_of_fmap. apply list_elem_of_fmap. exists x. by rewrite decide_True.
Qed.

Section dispatch.
Context {P : Type} (pub : Publisher P) (config : DispatcherConfig).

(** A mark on an event its worker holds replaces its row. *)
Lemma update_held_replace f worker o l :
  NoDup (map outbox_id (outbox_events l)) → o ∈ outbox_events l →
  held (outbox_id o) worker o = true → outbox_id (f o) = outbox_id o →
  update_where (held (outbox_id o) worker) f l =
    Ok (1%nat, set_outbox (replace_row (f o) (outbox_events l)) l).
Proof.
  intros Hnd Ho Hh Hf. rewrite (update_held _ _ _ _ o) by done.
  f_equal. f_equal. f_equal. unfold replace_row. rewrite Hf. apply map_ext_elem. intros x Hx.
  case_decide as Hid; [|done]. by rewrite (id_unique _ Hnd x o).
Qed.

Lemma mark_published_held worker at_ m o l :
  NoDup (map outbox_id (outbox_events l)) → o ∈ outbox_events l →
  held (outbox_id o) worker o = true →
  mark_published (outbox_id o) worker at_ m l =
    Ok (true, set_outbox (replace_row (published_row at_ m o) (outbox_events l)) l).
Proof.
  intros Hnd Ho Hh. unfold mark_published.
  by rewrite (tx_bind_step _ _ _ _ _ (update_held_replace (published_row at_ m) worker o l Hnd Ho Hh eq_refl)).
Qed.

Lemma mark_failed_held worker now available err delay dead o l :
  NoDup (map outbox_id (outbox_events l)) → o ∈ outbox_events l →
  held (outbox_id o) worker o = true → add_us now (seconds (Z.max delay 0)) = Ok available →
  mark_failed (outbox_id o) worker now err delay dead l =
    Ok (true, set_outbox (replace_row (failed_row now available err dead o) (outbox_events l)) l).
Proof.
  intros Hnd Ho Hh Ha. unfold mark_failed. rewrite Ha, (tx_bind_step _ _ l available l) by done.
  by rewrite (tx_bind_step _ _ _ _ _
    (update_held_replace (failed_row now available err dead) worker o l Hnd Ho Hh eq_refl)).
Qed.

(** The transaction that marks an event and requires that the lease was not lost. *)
Lemma in_transaction_marked (mark : Tx Ledger bool) (w : World P) l' :
  mark (w_ledger w) = Ok (true, l') →
  in_transaction (updated ← mark; require updated (Py RuntimeError)) w = (Ok tt, set_w_ledger l' w).
Proof. intros E. unfold in_transaction, commit. by rewrite (tx_bind_step _ _ _ _ _ E). Qed.

Lemma add_us_Ok t us v : add_us t us = Ok v → v = t + us.
Proof. unfold add_us. by destruct (in_range _); intros [= ->]. Qed.

(** A dispatched event is settled, unless its retry falls outside the calendar. *)
Lemma dispatch_event_spec worker event w :
  NoDup (map outbox_id (outbox_events (w_ledger w))) → event ∈ outbox_events (w_ledger w) →
  held (outbox_id event) worker event = true →
  (∃ w', dispatch_event pub config worker event w = (Err (Py OverflowError), w') ∧ unsettled pub config event (w_env w) ∧
     w_ledger w' = w_ledger w) ∨
  ∃ out o' w', dispatch_event pub config worker event w = (Ok out, w') ∧ settled pub config event (w_env w) o' out (w_env w') ∧
    w_ledger w' = set_outbox (replace_row o' (outbox_events (w_ledger w))) (w_ledger w).
Proof.
  intros Hnd Ho Hh. unfold dispatch_event.
  destruct (publish pub event (w_env w)) as [answer p] eqn:Ep.
  rewrite (prog_bind_step _ _ w answer (mkWorld (w_ledger w) p))
    by (unfold call, external; by rewrite Ep).
  destruct (clock pub p) as [now p1] eqn:Ec. set (w1 := mkWorld (w_ledger w) p1).
  assert (Eclock : call (clock pub) (mkWorld (w_ledger w) p) = (Ok now, w1))
    by (unfold call, external; simpl; by rewrite Ec).
  destruct answer as [m|[name text]]; rewrite (prog_bind_step _ _ _ _ _ Eclock).
  - right. eexists _, (published_row now m event), _. split; [|split].
    + rewrite (prog_bind_step _ _ _ _ _
        (in_transaction_marked _ w1 _ (mark_published_held worker now m event _ Hnd Ho Hh))). done.
    + by eapply settled_published.
    + done.
  - set (delay := backoff config (ob_publish_attempts event + 1)).
    destruct (add_us now (seconds (Z.max delay 0))) as [available|e] eqn:Ha.
    + right. pose proof (add_us_Ok _ _ _ Ha) as Hav.
      eexists _, (failed_row now available (name +:+ ": " +:+ text) (disp_max_attempts config <=? ob_publish_attempts event + 1) event), _.
      split; [|split].
      * rewrite (prog_bind_step _ _ _ _ _ (in_transaction_marked _ w1 _
          (mark_failed_held worker now available _ delay _ event _ Hnd Ho Hh Ha))). done.
      * rewrite Hav. by eapply settled_failed; [done..|apply Z.leb_le|].
      * done.
    + left. exists w1. unfold add_us in Ha. destruct (in_range _) eqn:Hr; [done|]. injection Ha as <-. split_and!; [|by eexists _, p, now, p1|done].
      apply prog_bind_err. unfold in_transaction, commit, mark_failed. unfold add_us. by rewrite Hr.
Qed.

(** What the loop of [dispatch_once] relies on: it holds every event it has not
    handled yet. *)
Definition holds (worker : string) (events : list OutboxEvent) (l : Ledger) : Prop :=
  NoDup (map outbox_id (outbox_events l)) ∧ NoDup (map outbox_id events) ∧
  ∀ o, o ∈ events → o ∈ outbox_events l ∧ held (outbox_id o) worker o = true.

Lemma holds_next worker event events l o' :
  holds worker (event :: events) l → outbox_id o' = outbox_id event →
  holds worker events (set_outbox (replace_row o' (outbox_events l)) l).
Proof.
  intros (Hnd & [He Hne]%NoDup_cons & Hh) Hs. split; [by simpl; rewrite replace_row_ids|].
  split; [done|]. intros o Ho. destruct (Hh o) as [Hin Hheld]; [by right|]. split; [|done].
  apply elem_of_replace_row; [done|]. rewrite Hs. intros Heq. apply He. rewrite <- Heq.
  by apply list_elem_of_fmap_2.
Qed.

Lemma with_rows_nil rows : with_rows [] rows rows.
Proof. split_and!; [done|by intros ? ?%elem_of_nil|done]. Qed.
Lemma with_rows_cons o' os' rows rows' :
  outbox_id o' ∈ map outbox_id rows → outbox_id o' ∉ map outbox_id os' →
  with_rows os' (replace_row o' rows) rows' → with_rows (o' :: os') rows rows'.
Proof.
  intros Hin Hni (H1 & H2 & H3). split_and!; [by rewrite H1, replace_row_ids| |].
  - intros x [->|Hx]%elem_of_cons; [|by apply H2]. apply H3; [by apply replace_row_self|done].
  - intros o Ho [Hne Hno]%not_elem_of_cons. apply H3; [|done]. by apply elem_of_replace_row.
Qed.

(** The loop settles every event, or stops at the first whose retry falls outside the
    calendar. *)
Lemma dispatch_events_spec worker events pubs f d w :
  holds worker events (w_ledger w) →
  (∃ w' before o after os' outs p, dispatch_events pub config worker events pubs f d w = (Err (Py OverflowError), w') ∧
    events = before ++ o :: after ∧ all_settled pub config before (w_env w) os' outs p ∧ unsettled pub config o p ∧
    with_rows os' (outbox_events (w_ledger w)) (outbox_events (w_ledger w'))) ∨
  ∃ os' outs w', dispatch_events pub config worker events pubs f d w =
      (Ok (pubs ++ omap sent outs, f + (Z.of_nat (length outs) - Z.of_nat (length (omap sent outs))), d + Z.of_nat (length (omap dead outs))), w') ∧
    all_settled pub config events (w_env w) os' outs (w_env w') ∧
    with_rows os' (outbox_events (w_ledger w)) (outbox_events (w_ledger w')).
Proof.
  revert pubs f d w. induction events as [|event events IH]; intros pubs f d w Hholds.
  { right. exists [], [], w. split_and!; [|constructor|apply with_rows_nil]. cbn. by rewrite app_nil_r, !Z.add_0_r. }
  pose proof Hholds as (Hnd & Hne & Hh). cbn [map] in Hne. apply NoDup_cons in Hne as [He Hne].
  destruct (Hh event) as [Hin Hheld]; [left|].
  destruct (dispatch_event_spec worker event w Hnd Hin Hheld) as [(w1 & E & Hun & Hl)|(out & o' & w1 & E & Hs & Hw1)].
  { left. exists w1, [], event, events, [], [], (w_env w). rewrite Hl. split_and!; [|done|constructor|done|apply with_rows_nil].
    cbn [dispatch_events]. by apply prog_bind_err. }
  pose proof (settled_id _ _ _ _ _ _ _ Hs) as Hid. pose proof (holds_next _ _ _ _ _ Hholds Hid) as Hnext. rewrite <- Hw1 in Hnext.
  assert (Hone : ∀ os', map outbox_id os' `sublist_of` map outbox_id events → ∀ rows',
    with_rows os' (outbox_events (w_ledger w1)) rows' → with_rows (o' :: os') (outbox_events (w_ledger w)) rows').
  { intros os' Hsub rows' Hr. apply with_rows_cons; [rewrite Hid; by apply list_elem_of_fmap_2| |by rewrite Hw1 in Hr].
    rewrite Hid. intros Hx. apply He. by eapply elem_of_sublist. }
  cbn [dispatch_events]. rewrite (prog_bind_step _ _ _ _ _ E).
  assert (Hnx : ∀ pubs1 f1 d1 g, g = dispatch_events pub config worker events pubs1 f1 d1 w1 →
    (∃ w' before o after os' outs p, g = (Err (Py OverflowError), w') ∧ event :: events = before ++ o :: after ∧
      all_settled pub config before (w_env w) os' outs p ∧ unsettled pub config o p ∧
      with_rows os' (outbox_events (w_ledger w)) (outbox_events (w_ledger w'))) ∨
    ∃ os' outs w', g = (Ok (pubs1 ++ omap sent outs, f1 + (Z.of_nat (length outs) - Z.of_nat (length (omap sent outs))),
        d1 + Z.of_nat (length (omap dead outs))), w') ∧
      all_settled pub config (event :: events) (w_env w) (o' :: os') (out :: outs) (w_env w') ∧
      with_rows (o' :: os') (outbox_events (w_ledger w)) (outbox_events (w_ledger w'))).
  { intros pubs1 f1 d1 g ->. destruct (IH pubs1 f1 d1 w1 Hnext)
      as [(w' & before & o & after & os' & outs & p & E2 & -> & Hall & Hun & Hr)|(os' & outs & w' & E2 & Hall & Hr)].
    - left. exists w', (event :: before), o, after, (o' :: os'), (out :: outs), p. split_and!; [done|done|by econstructor|done|].
      apply Hone; [|done]. rewrite (all_settled_ids _ _ _ _ _ _ _ Hall), map_app. by apply sublist_inserts_r.
    - right. exists os', outs, w'. split_and!; [done|by econstructor|]. apply Hone; [|done]. by rewrite (all_settled_ids _ _ _ _ _ _ _ Hall). }
  specialize (Hnx (match out with inl m => pubs ++ [m] | inr _ => pubs end) (match out with inl _ => f | inr _ => f + 1 end)
    (match out with inr true => d + 1 | _ => d end)).
  destruct out as [m|[]]; (destruct (Hnx _ eq_refl) as [Hstop|(os' & outs & w' & E2 & Hall & Hr)]; [by left|right]);
    (eexists (o' :: os'), (_ :: outs), w'; split; swap 1 2; [by split|]); (etrans; [exact E2|]); cbn; rewrite <- ?app_assoc;
    apply (f_equal (λ x, (Ok x, w'))); repeat apply (f_equal2 pair); try done; lia.
Qed.

Lemma claim_errors worker now lease_seconds limit l :
  NoDup (map outbox_id (outbox_events l)) →
  let ready := pending_events (Some now) (Z.to_nat limit) l in
  (∃ e, claim worker now lease_seconds limit l = Err e ∧
     (e = Py OverflowError ∧ in_range (now + lease_seconds * 1000000) = false ∨ e = Py ValueError ∧ (lease_seconds ≤ 0 ∨ limit ≤ 0))) ∨
  let expires := now + lease_seconds * 1000000 in now < expires ∧ claim worker now lease_seconds limit l =
    Ok (map (leased worker expires) ready,
        set_outbox (lease_rows worker expires (map outbox_id ready) (outbox_events l)) l).
Proof.
  intros Hnd ready. destruct (decide (0 < lease_seconds ∧ 0 < limit)) as [[Hs Hl]|Hbad].
  - destruct (in_range (now + lease_seconds * 1000000)) eqn:Hr.
    + right. intros expires. split; [lia|]. apply claim_spec; [done..|]. unfold add_us, seconds, us_per_second. by rewrite Hr.
    + left. exists (Py OverflowError). split; [|by left].
      unfold claim, require. rewrite (proj2 (Z.ltb_lt _ _) Hs), (proj2 (Z.ltb_lt _ _) Hl). simpl.
      rewrite (tx_bind_step _ _ l tt l) by done. unfold add_us, seconds, us_per_second. by rewrite Hr.
  - left. exists (Py ValueError). split; [|right; split; [done|lia]]. unfold claim, require.
    destruct (0 <? lease_seconds) eqn:?, (0 <? limit) eqn:?; try done. lia.
Qed.

(** A claimed event is held by its claimer. *)
Lemma claimed_holds worker now expires limit l :
  NoDup (map outbox_id (outbox_events l)) →
  let ready := pending_events (Some now) limit l in
  holds worker (map (leased worker expires) ready)
    (set_outbox (lease_rows worker expires (map outbox_id ready) (outbox_events l)) l).
Proof.
  intros Hnd ready. split; [by simpl; rewrite lease_rows_ids|]. split.
  { rewrite map_map. by apply pending_events_ids. }
  intros o (c & -> & Hc)%list_elem_of_fmap.
  pose proof Hc as [Hin (Hp & _)%claimable_event_spec]%pending_events_spec. split.
  - apply list_elem_of_fmap. exists c. split; [|done].
    by rewrite decide_True by (by apply list_elem_of_fmap_2).
  - by apply held_spec.
Qed.

Lemma sorted_impl {A} (R R' : relation A) l : (∀ x y, R x y → R' x y) → StronglySorted R l → StronglySorted R' l.
Proof. intros HR. induction 1 as [|x l _ IH Hx]; constructor; [done|]. eapply Forall_impl; [exact Hx|auto]. Qed.
(** The events a claim takes are the first that are due. *)
Lemma pending_first_due now limit l : NoDup (map outbox_id (outbox_events l)) →
  first_due now limit (outbox_events l) (pending_events (Some now) (Z.to_nat limit) l).
Proof.
  intros Hnd. unfold pending_events. set (queue := sort_by _ _). exists queue. split_and!; [| | |done].
  - eapply sorted_impl; [|apply sort_by_sorted; apply _]. intros o o'. unfold outbox_cmp, cmp_then, cmp_on, sooner.
    destruct (Z.compare_spec (ob_available_at o) (ob_available_at o')); [|by left|done].
    destruct (Z.compare_spec (ob_occurred_at o) (ob_occurred_at o')); [|by right; split; [|left]|done]. right. split; [done|]. by right.
  - unfold queue. rewrite sort_by_Permutation. by apply NoDup_map_filter.
  - intros o. unfold queue. rewrite elem_of_sort_by, list_elem_of_filter, claimable_event_spec. unfold due. tauto.
Qed.
(** [dispatch_once] never loses the lease of an event it claimed. *)
Lemma dispatch_once_spec `{UuidSource} worker limit lease_seconds w :
  outbox_wf (w_ledger w) →
  let now := (clock pub (w_env w)).1 in let p := (clock pub (w_env w)).2 in let expires := now + lease_seconds * 1000000 in
  let rows := outbox_events (w_ledger w) in
  ∃ ready claimed, first_due now limit rows ready ∧ Forall2 (leased_as worker expires) ready claimed ∧
  match dispatch_once pub config worker limit lease_seconds w with
  | (Ok report, w') => ∃ os' outs, all_settled pub config claimed p os' outs (w_env w') ∧ with_rows os' rows (outbox_events (w_ledger w')) ∧
      report = mkDispatchReport (Z.of_nat (length ready)) (Z.of_nat (length (omap sent outs)))
        (Z.of_nat (length outs) - Z.of_nat (length (omap sent outs))) (Z.of_nat (length (omap dead outs))) (omap sent outs)
  | (Err e, w') =>
      outbox_events (w_ledger w') = rows ∧
        (e = Py OverflowError ∧ in_range expires = false ∨ e = Py ValueError ∧ (lease_seconds ≤ 0 ∨ limit ≤ 0)) ∨
      e = Py OverflowError ∧ ∃ before o after os' outs p', claimed = before ++ o :: after ∧ all_settled pub config before p os' outs p' ∧
        unsettled pub config o p' ∧ with_rows (os' ++ o :: after) rows (outbox_events (w_ledger w'))
  end.
Proof.
  intros [Hnd _ _] now p expires rows. set (ready := pending_events (Some now) (Z.to_nat limit) (w_ledger w)).
  exists ready, (map (leased worker expires) ready). split_and!; [by apply pending_first_due|apply Forall2_fmap_r, Forall_Forall2_diag, Forall_forall; by intros|].
  unfold dispatch_once. rewrite (prog_bind_step _ _ w now (mkWorld (w_ledger w) p)) by (unfold call, external, now, p; by destruct (clock pub _)).
  set (w0 := mkWorld (w_ledger w) p).
  destruct (claim_errors worker now lease_seconds limit (w_ledger w) Hnd) as [(e & E & He)|[Hlt E]].
  { erewrite (prog_bind_err _ _ w0 e w0) by (unfold in_transaction, commit; simpl; by rewrite E). by left. }
  fold ready expires in E. set (leased_rows := lease_rows worker expires (map outbox_id ready) rows) in *.
  set (w1 := mkWorld (set_outbox leased_rows (w_ledger w)) p).
  rewrite (prog_bind_step _ _ w0 (map (leased worker expires) ready) w1) by (unfold in_transaction, commit; simpl; by rewrite E).
  assert (Hids : map outbox_id (map (leased worker expires) ready) = map outbox_id ready) by by rewrite map_map.
  assert (Hleft : ∀ o, o ∈ rows → outbox_id o ∉ map outbox_id ready → o ∈ leased_rows).
  { intros o Ho Hni. apply list_elem_of_fmap. exists o. by rewrite decide_False. }
  pose proof (claimed_holds worker now expires (Z.to_nat limit) (w_ledger w) Hnd) as Hh. fold ready in Hh.
  destruct (dispatch_events_spec worker (map (leased worker expires) ready) [] 0 0 w1 Hh)
    as [(w' & before & o & after & os' & outs & p' & E' & Esplit & Hall & Hun & Hr)|(os' & outs & w' & E' & Hall & Hr)].
  - rewrite (prog_bind_err _ _ _ _ _ E'). right. split; [done|]. exists before, o, after, os', outs, p'. split_and!; [done..|].
    destruct Hr as (R1 & R2 & R3). pose proof (all_settled_ids _ _ _ _ _ _ _ Hall) as Hb.
    destruct Hh as (Hlr & Hnc & Hh'). rewrite Esplit, map_app, NoDup_app in Hnc. destruct Hnc as (_ & Hdis & _). split_and!.
    + rewrite R1. apply lease_rows_ids.
    + intros x [Hx|Hx]%elem_of_app; [by apply R2|]. apply R3; [apply Hh'; rewrite Esplit; apply elem_of_app; by right|].
      rewrite Hb. intros Hx'. apply (Hdis _ Hx'). by apply list_elem_of_fmap_2.
    + intros x Hx Hni. rewrite map_app, Hb, <- map_app, <- Esplit, Hids in Hni. apply R3; [by apply Hleft|]. rewrite Hb. intros Hx'. apply Hni.
      rewrite <- Hids, Esplit, map_app. apply elem_of_app. by left.
  - rewrite (prog_bind_step _ _ _ _ _ E'). cbn. exists os', outs. destruct Hr as (R1 & R2 & R3). split_and!; [done| |].
    + split_and!; [rewrite R1; apply lease_rows_ids|done|]. intros x Hx Hni. apply R3; [|done]. apply Hleft; [done|].
      by rewrite (all_settled_ids _ _ _ _ _ _ _ Hall), Hids in Hni.
    + by rewrite length_map.
Qed.
End dispatch.

(** ** A dispatch is a sequence of steps of the rows, however it ends *)

Section dispatch_steps.
Context `{UuidSource} {P : Type} (pub : Publisher P) (config : DispatcherConfig).

Definition world_steps (w w' : World P) : Prop :=
  outbox_wf (w_ledger w) → outbox_steps (w_ledger w) (w_ledger w').

#[local] Instance world_steps_refl : Reflexive world_steps.
Proof. intros w _. apply outbox_steps_refl. Qed.
#[local] Instance world_steps_trans : Transitive world_steps.
Proof.
  intros w1 w2 w3 H1 H2 Hwf. eapply outbox_steps_trans; [by apply H1|]. apply H2. by eapply outbox_wf_steps; [apply H1|].
Qed.

Lemma call_keeps {A} (f : P → A * P) : prog_keeps world_steps (call f).
Proof.
  intros w r w' E _. unfold call, external in E. destruct (f (w_env w)). injection E as _ <-.
  apply outbox_steps_refl.
Qed.

Lemma in_transaction_keeps {A} (m : Tx Ledger A) :
  (∀ l a l', outbox_wf l → m l = Ok (a, l') → outbox_steps l l') →
  prog_keeps world_steps (in_transaction m).
Proof.
  intros Hm w r w' E Hwf. unfold in_transaction, commit in E.
  destruct (m (w_ledger w)) as [[a l']|e] eqn:Em; injection E as _ <-; [by eapply Hm|].
  apply outbox_steps_refl.
Qed.

Lemma mark_keeps (mark : Tx Ledger bool) :
  (∀ l b l', mark l = Ok (b, l') → outbox_steps l l') →
  prog_keeps world_steps (in_transaction (P:=P) (updated ← mark; require updated (Py RuntimeError))).
Proof.
  intros Hm. apply in_transaction_keeps. intros l a l' _ E.
  apply tx_bind_Ok in E as (b & l1 & E & [_ ->]%require_Ok). by eapply Hm.
Qed.

Lemma dispatch_event_keeps worker event :
  prog_keeps world_steps (dispatch_event pub config worker event).
Proof.
  apply prog_keeps_bind; [apply _|apply call_keeps|]. intros [m|[name text]].
  - apply prog_keeps_bind; [apply _|apply call_keeps|]. intros at_.
    apply prog_keeps_bind; [apply _| |intros _; by apply prog_keeps_ret, _].
    apply mark_keeps. apply mark_published_steps.
  - apply prog_keeps_bind; [apply _|apply call_keeps|]. intros now.
    apply prog_keeps_bind; [apply _| |intros _; by apply prog_keeps_ret, _].
    apply mark_keeps. apply mark_failed_steps.
Qed.

Lemma dispatch_events_keeps worker events pubs f d :
  prog_keeps world_steps (dispatch_events pub config worker events pubs f d).
Proof.
  revert pubs f d. induction events as [|event events IH]; intros pubs f d; [by apply prog_keeps_ret, _|].
  apply prog_keeps_bind; [apply _|apply dispatch_event_keeps|]. intros [m|dead]; apply IH.
Qed.

Lemma dispatch_once_keeps worker limit lease_seconds :
  prog_keeps world_steps (dispatch_once pub config worker limit lease_seconds).
Proof.
  apply prog_keeps_bind; [apply _|apply call_keeps|]. intros now.
  apply prog_keeps_bind; [apply _| |].
  - apply in_transaction_keeps. intros l a l' [Hnd _ _]. by apply claim_steps.
  - intros claimed. apply prog_keeps_bind; [apply _|apply dispatch_events_keeps|].
    intros [[pubs f] d]. by apply prog_keeps_ret, _.
Qed.
End dispatch_steps.
