(* ===== verification/OrchDefs.v ===== *)
(** * Orchestration: data definitions

    orchestration/definitions.py: the status enumerations, the retry policy, the
    workflow definitions a client submits with the constraints pydantic checks
    when one is built, and the values the orchestrator returns. *)

From Stdlib Require Import Ascii.
From S2P Require Import Prelude PyFloat PyTime Ledger.
Local Open Scope Z_scope.

(** ** Enumerations *)

Module TaskStatus.
Inductive t :=
  | PENDING | READY | RUNNING | RETRY_WAIT | WAITING_APPROVAL
  | SUCCEEDED | FAILED | BLOCKED | CANCELLED | SKIPPED.
#[global] Instance eq_dec : EqDecision t.
Proof. solve_decision. Defined.
End TaskStatus.
Abbreviation TaskStatus := TaskStatus.t.

Module EngagementStatus.
Inductive t :=
  | PLANNED | RUNNING | WAITING_APPROVAL | BLOCKED | FAILED | CANCELLED | COMPLETED.
#[global] Instance eq_dec : EqDecision t.
Proof. solve_decision. Defined.
End EngagementStatus.
Abbreviation EngagementStatus := EngagementStatus.t.

Module FailureClass.
Inductive t :=
  | TRANSIENT_INFRASTRUCTURE | CONNECTOR_RATE_LIMIT | AUTHENTICATION_EXPIRED
  | SOURCE_SCHEMA_CHANGE | MODEL_TIMEOUT | MODEL_POLICY_VIOLATION
  | MALFORMED_STRUCTURED_OUTPUT | DETERMINISTIC_TEST_FAILURE | INSUFFICIENT_EVIDENCE
  | CONFLICTING_EVIDENCE | HUMAN_RESPONSE_OVERDUE | REVOKED_AUTHORIZATION
  | SECURITY_INCIDENT | CONFIGURATION_ERROR | INTERNAL_ERROR | LEASE_EXPIRED
  | HUMAN_REJECTED.
#[global] Instance eq_dec : EqDecision t.
Proof. solve_decision. Defined.
End FailureClass.
Abbreviation FailureClass := FailureClass.t.

Definition TaskStatus_value (s : TaskStatus) : string :=
  match s with
    | TaskStatus.PENDING => "pending" | TaskStatus.READY => "ready"
    | TaskStatus.RUNNING => "running" | TaskStatus.RETRY_WAIT => "retry_wait"
    | TaskStatus.WAITING_APPROVAL => "waiting_approval"
    | TaskStatus.SUCCEEDED => "succeeded" | TaskStatus.FAILED => "failed"
    | TaskStatus.BLOCKED => "blocked" | TaskStatus.CANCELLED => "cancelled"
    | TaskStatus.SKIPPED => "skipped"
    end.

#[export] Program Instance TaskStatus_str : StrEnum TaskStatus := {|
  value := TaskStatus_value;
  members := [TaskStatus.PENDING; TaskStatus.READY; TaskStatus.RUNNING;
    TaskStatus.RETRY_WAIT; TaskStatus.WAITING_APPROVAL; TaskStatus.SUCCEEDED;
    TaskStatus.FAILED; TaskStatus.BLOCKED; TaskStatus.CANCELLED; TaskStatus.SKIPPED]
|}.
Solve Obligations with solve_str_enum.

Definition EngagementStatus_value (s : EngagementStatus) : string :=
  match s with
    | EngagementStatus.PLANNED => "planned" | EngagementStatus.RUNNING => "running"
    | EngagementStatus.WAITING_APPROVAL => "waiting_approval"
    | EngagementStatus.BLOCKED => "blocked" | EngagementStatus.FAILED => "failed"
    | EngagementStatus.CANCELLED => "cancelled" | EngagementStatus.COMPLETED => "completed"
    end.

#[export] Program Instance EngagementStatus_str : StrEnum EngagementStatus := {|
  value := EngagementStatus_value;
  members := [EngagementStatus.PLANNED; EngagementStatus.RUNNING;
    EngagementStatus.WAITING_APPROVAL; EngagementStatus.BLOCKED; EngagementStatus.FAILED;
    EngagementStatus.CANCELLED; EngagementStatus.COMPLETED]
|}.
Solve Obligations with solve_str_enum.

Definition FailureClass_value (s : FailureClass) : string :=
  match s with
    | FailureClass.TRANSIENT_INFRASTRUCTURE => "transient_infrastructure"
    | FailureClass.CONNECTOR_RATE_LIMIT => "connector_rate_limit"
    | FailureClass.AUTHENTICATION_EXPIRED => "authentication_expired"
    | FailureClass.SOURCE_SCHEMA_CHANGE => "source_schema_change"
    | FailureClass.MODEL_TIMEOUT => "model_timeout"
    | FailureClass.MODEL_POLICY_VIOLATION => "model_policy_violation"
    | FailureClass.MALFORMED_STRUCTURED_OUTPUT => "malformed_structured_output"
    | FailureClass.DETERMINISTIC_TEST_FAILURE => "deterministic_test_failure"
    | FailureClass.INSUFFICIENT_EVIDENCE => "insufficient_evidence"
    | FailureClass.CONFLICTING_EVIDENCE => "conflicting_evidence"
    | FailureClass.HUMAN_RESPONSE_OVERDUE => "human_response_overdue"
    | FailureClass.REVOKED_AUTHORIZATION => "revoked_authorization"
    | FailureClass.SECURITY_INCIDENT => "security_incident"
    | FailureClass.CONFIGURATION_ERROR => "configuration_error"
    | FailureClass.INTERNAL_ERROR => "internal_error"
    | FailureClass.LEASE_EXPIRED => "lease_expired"
    | FailureClass.HUMAN_REJECTED => "human_rejected"
    end.

#[export] Program Instance FailureClass_str : StrEnum FailureClass := {|
  value := FailureClass_value;
  members := [FailureClass.TRANSIENT_INFRASTRUCTURE; FailureClass.CONNECTOR_RATE_LIMIT;
    FailureClass.AUTHENTICATION_EXPIRED; FailureClass.SOURCE_SCHEMA_CHANGE;
    FailureClass.MODEL_TIMEOUT; FailureClass.MODEL_POLICY_VIOLATION;
    FailureClass.MALFORMED_STRUCTURED_OUTPUT; FailureClass.DETERMINISTIC_TEST_FAILURE;
    FailureClass.INSUFFICIENT_EVIDENCE; FailureClass.CONFLICTING_EVIDENCE;
    FailureClass.HUMAN_RESPONSE_OVERDUE; FailureClass.REVOKED_AUTHORIZATION;
    FailureClass.SECURITY_INCIDENT; FailureClass.CONFIGURATION_ERROR;
    FailureClass.INTERNAL_ERROR; FailureClass.LEASE_EXPIRED; FailureClass.HUMAN_REJECTED]
|}.
Solve Obligations with solve_str_enum.

(** ** Retry policy *)

Definition DEFAULT_RETRYABLE_FAILURES : list FailureClass :=
  [FailureClass.TRANSIENT_INFRASTRUCTURE; FailureClass.CONNECTOR_RATE_LIMIT;
   FailureClass.AUTHENTICATION_EXPIRED; FailureClass.MODEL_TIMEOUT;
   FailureClass.MALFORMED_STRUCTURED_OUTPUT; FailureClass.INTERNAL_ERROR;
   FailureClass.LEASE_EXPIRED].

Record RetryPolicy := mkRetryPolicy {
  max_attempts : Z;
  initial_delay_seconds : float;
  backoff_multiplier : float;
  max_delay_seconds : float;
  retryable_failures : list FailureClass
}.

Definition default_retry_policy : RetryPolicy :=
  mkRetryPolicy 3 (float_of_Z 5) (float_of_Z 2) (float_of_Z 300) DEFAULT_RETRYABLE_FAILURES.

(** The field constraints of [RetryPolicy]; a NaN fails each of them. *)
Definition RetryPolicy_valid (p : RetryPolicy) : bool :=
  (1 <=? max_attempts p) && (max_attempts p <=? 100) &&
  (zero <=? initial_delay_seconds p)%float &&
  (one <=? backoff_multiplier p)%float &&
  (zero <=? max_delay_seconds p)%float.

(** The product is computed before the cap is applied. *)
Definition delay_for_attempt (p : RetryPolicy) (attempt_count : Z) : Res float :=
  let exponent := Z.max (attempt_count - 1) 0 in
  match fpow (backoff_multiplier p) exponent with
  | Ok power => Ok (fmin (initial_delay_seconds p * power)%float (max_delay_seconds p))
  | Err e => Err e
  end.

(** ** Workflow definitions *)

Record DependencyDefinition := mkDependencyDefinition {
  dep_task_key : string;
  allowed_statuses : list TaskStatus
}.

(** [terminal_statuses_only]. *)
Definition terminal_statuses_only (d : DependencyDefinition) : bool :=
  match allowed_statuses d with
  | [] => false
  | l => forallb (λ s, bool_decide (s ∈ [TaskStatus.SUCCEEDED; TaskStatus.SKIPPED])) l
  end.

Inductive gate_position := Before | After.
#[export] Instance gate_position_eq_dec : EqDecision gate_position.
Proof. solve_decision. Defined.
Definition gate_position_value (p : gate_position) : string :=
  match p with Before => "before" | After => "after" end.

Record TaskDefinition := mkTaskDefinition {
  def_key : string;
  def_task_type : string;
  def_definition_version : string;
  def_dependencies : list DependencyDefinition;
  def_assigned_agent_role : option string;
  def_input_refs : list string;
  def_execution_policy : dict;
  def_model_policy : option string;
  def_tool_policy : option string;
  def_retry_policy : RetryPolicy;
  def_priority : Z;
  def_deadline_seconds : option Z;
  def_human_gate : option string;
  def_human_gate_position : gate_position
}.

Definition length_between (lo hi : nat) (s : string) : bool :=
  (lo <=? String.length s)%nat && (String.length s <=? hi)%nat.
Definition max_length (hi : nat) (o : option string) : bool :=
  match o with Some s => length_between 0 hi s | None => true end.

Definition lower_or_digit (c : ascii) : bool :=
  let n := Z.of_nat (nat_of_ascii c) in
  (97 <=? n) && (n <=? 122) || (48 <=? n) && (n <=? 57).
(** [^[a-z0-9][a-z0-9._-]*$]. *)
Definition key_pattern (s : string) : bool :=
  match s with
  | EmptyString => false
  | String c s =>
      lower_or_digit c &&
      forallb (λ c, lower_or_digit c || bool_decide (c ∈ ["."; "_"; "-"]%char))
        (String.list_ascii_of_string s)
  end.

Definition gate_position_requires_gate (d : TaskDefinition) : bool :=
  match def_human_gate d with
  | None => bool_decide (def_human_gate_position d = Before)
  | Some _ => true
  end.

(** The field constraints of [TaskDefinition] and of the values in it. *)
Definition TaskDefinition_valid (d : TaskDefinition) : bool :=
  length_between 1 128 (def_key d) && key_pattern (def_key d) &&
  length_between 1 64 (def_task_type d) && length_between 1 64 (def_definition_version d) &&
  forallb (λ p, length_between 1 128 (dep_task_key p) && terminal_statuses_only p)
    (def_dependencies d) &&
  max_length 128 (def_assigned_agent_role d) &&
  max_length 128 (def_model_policy d) && max_length 128 (def_tool_policy d) &&
  RetryPolicy_valid (def_retry_policy d) &&
  (0 <=? def_priority d) && (def_priority d <=? 10000) &&
  match def_deadline_seconds d with Some n => 1 <=? n | None => true end &&
  max_length 128 (def_human_gate d) && gate_position_requires_gate d.

(** The [execution_policy_json] column: the fields of the client's dict, and the
    value under the key ["retry_policy"] kept as the policy it is the dump of. *)
Record ExecutionPolicy := mkExecutionPolicy {
  policy_fields : dict;
  policy_retry : option RetryPolicy
}.

Definition persisted_execution_policy (d : TaskDefinition) : ExecutionPolicy :=
  let policy := def_execution_policy d in
  let policy :=
    if truthy (def_human_gate d)
    then dict_set "human_gate_position"
           (JStr (gate_position_value (def_human_gate_position d))) policy
    else policy in
  mkExecutionPolicy policy (Some (def_retry_policy d)).

(** [execution_policy_json.get("human_gate_position", "before") == text]. *)
Definition gate_position_is (p : ExecutionPolicy) (text : string) : bool :=
  match dict_get "human_gate_position" (policy_fields p) with
  | None => bool_decide (text = "before")
  | Some (JStr s) => bool_decide (s = text)
  | Some _ => false
  end.

(** [RetryPolicy.model_validate(execution_policy_json.get("retry_policy", {}))]. *)
Definition retry_policy_of (p : ExecutionPolicy) : RetryPolicy :=
  default default_retry_policy (policy_retry p).

Record WorkflowDefinition := mkWorkflowDefinition {
  workflow_version : string;
  wf_tasks : list TaskDefinition;
  wf_metadata : dict
}.

Definition WorkflowDefinition_valid (w : WorkflowDefinition) : bool :=
  length_between 1 64 (workflow_version w) &&
  negb (bool_decide (length (wf_tasks w) = 0%nat)) &&
  forallb TaskDefinition_valid (wf_tasks w).

(** ** Values the orchestrator exchanges with its callers *)

Record TaskLease := mkTaskLease {
  lease_tenant_id : string;
  lease_engagement_id : string;
  lease_task_id : string;
  lease_task_key : string;
  lease_task_type : string;
  lease_assigned_agent_role : option string;
  lease_attempt_count : Z;
  lease_lease_owner : string;
  lease_lease_expires_at : datetime;
  lease_input_refs : list string;
  lease_execution_policy : ExecutionPolicy;
  lease_model_policy : option string;
  lease_tool_policy : option string;
  lease_deadline_at : option datetime;
  lease_human_gate : option string
}.

Record TaskExecutionResult := mkTaskExecutionResult {
  res_output_refs : list string;
  res_result : dict
}.

Record GateDecision := mkGateDecision {
  actor_id : string;
  decision_reason : string
}.

Record TaskSnapshot := mkTaskSnapshot {
  snap_task_id : string;
  snap_task_key : string;
  snap_status : TaskStatus;
  snap_attempt_count : Z;
  snap_lease_owner : option string;
  snap_lease_expires_at : option datetime;
  snap_available_at : option datetime;
  snap_human_gate : option string;
  snap_review_status : option string;
  snap_error_class : option string;
  snap_output_refs : list string
}.

Record EngagementSnapshot := mkEngagementSnapshot {
  snap_tenant_id : string;
  snap_engagement_id : string;
  snap_engagement_status : EngagementStatus;
  snap_tasks : list TaskSnapshot
}.

(** ** The position of a gate as persisted *)

Lemma dict_get_set k v d : dict_get k (dict_set k v d) = Some v.
Proof.
  induction d as [|[k' v'] d IH]; simpl; [by rewrite decide_True|].
  destruct (decide (k = k')) as [->|]; simpl; [by rewrite decide_True|by rewrite decide_False].
Qed.

Lemma dict_get_set_ne k k' v d : k ≠ k' → dict_get k (dict_set k' v d) = dict_get k d.
Proof.
  intros Hk. induction d as [|[k2 v2] d IH]; simpl; [by rewrite decide_False|].
  destruct (decide (k' = k2)) as [->|]; simpl; [by rewrite !decide_False|].
  by destruct (decide (k = k2)).
Qed.

Lemma dict_get_update_ne k d extra :
  k ∉ extra.*1 → dict_get k (dict_update d extra) = dict_get k d.
Proof.
  unfold dict_update. revert d. induction extra as [|[k' v] extra IH]; intros d Hk; [done|].
  simpl in *. apply not_elem_of_cons in Hk as [??]. rewrite IH by done. by apply dict_get_set_ne.
Qed.

Lemma dict_get_safe k d : dict_get k (dict_safe d) = json_safe <$> dict_get k d.
Proof. induction d as [|[k' v] d IH]; simpl; [done|]. by destruct (decide (k = k')). Qed.

Lemma persisted_gate_position d text :
  truthy (def_human_gate d) = true →
  gate_position_is (persisted_execution_policy d) text =
    bool_decide (gate_position_value (def_human_gate_position d) = text).
Proof.
  intros H. unfold gate_position_is, persisted_execution_policy. simpl. rewrite H.
  by rewrite dict_get_set.
Qed.
