(* ===== verification/OrchStore.v ===== *)
(** * Orchestration: the store

    The rows of db/models/engagement.py and the queries and updates of
    orchestration/repository.py over them, with the transactional record of an
    event ([Orchestrator._record]) every transition makes.  A task is split into
    the columns written when it is compiled ([TaskSpec]) and those execution
    changes ([TaskState]).  A session is sequential and flushes before every
    query, so a query sees the assignments made before it; an instant read back
    from the database is the one written, so [_as_utc] is the identity. *)

From S2P Require Import Prelude PyFloat PyTime Ledger OrchDefs.
Local Open Scope Z_scope.

(** ** Rows *)

Record Engagement := mkEngagement {
  engagement_id : string;
  eng_tenant_id : string;
  template_id : option string;
  code : string;
  title : string;
  eng_status : EngagementStatus;
  audit_pack_ref : string;
  period_start : date;
  period_end : date;
  scope_version : Z;
  scope_json : dict;
  eng_started_at : option datetime;
  eng_completed_at : option datetime;
  eng_created_at : datetime
}.

Definition set_eng_status (v : EngagementStatus) (e : Engagement) : Engagement :=
  mkEngagement (engagement_id e) (eng_tenant_id e) (template_id e) (code e) (title e) v
    (audit_pack_ref e) (period_start e) (period_end e) (scope_version e) (scope_json e)
    (eng_started_at e) (eng_completed_at e) (eng_created_at e).
Definition set_eng_started_at (v : option datetime) (e : Engagement) : Engagement :=
  mkEngagement (engagement_id e) (eng_tenant_id e) (template_id e) (code e) (title e) (eng_status e)
    (audit_pack_ref e) (period_start e) (period_end e) (scope_version e) (scope_json e)
    v (eng_completed_at e) (eng_created_at e).
Definition set_eng_completed_at (v : option datetime) (e : Engagement) : Engagement :=
  mkEngagement (engagement_id e) (eng_tenant_id e) (template_id e) (code e) (title e) (eng_status e)
    (audit_pack_ref e) (period_start e) (period_end e) (scope_version e) (scope_json e)
    (eng_started_at e) v (eng_created_at e).

(** The columns of [EngagementTask] no operation changes. *)
Record TaskSpec := mkTaskSpec {
  task_id : string;
  task_tenant_id : string;
  task_engagement_id : string;
  task_key : string;
  task_type : string;
  definition_version : string;
  priority : Z;
  assigned_agent_role : option string;
  input_refs : list string;
  idempotency_key : string;
  execution_policy : ExecutionPolicy;
  model_policy : option string;
  tool_policy : option string;
  human_gate : option string;
  deadline_at : option datetime;
  created_at : datetime
}.

(** The columns execution changes. *)
Record TaskState := mkTaskState {
  status : TaskStatus;
  attempt_count : Z;
  lease_owner : option string;
  lease_expires_at : option datetime;
  available_at : option datetime;
  started_at : option datetime;
  completed_at : option datetime;
  output_refs : list string;
  result : option dict;
  error_class : option string;
  last_error : option string;
  review_status : option string
}.

Definition set_status (v : TaskStatus) (s : TaskState) : TaskState :=
  mkTaskState v (attempt_count s) (lease_owner s) (lease_expires_at s) (available_at s)
    (started_at s) (completed_at s) (output_refs s) (result s) (error_class s)
    (last_error s) (review_status s).
Definition set_attempt_count (v : Z) (s : TaskState) : TaskState :=
  mkTaskState (status s) v (lease_owner s) (lease_expires_at s) (available_at s)
    (started_at s) (completed_at s) (output_refs s) (result s) (error_class s)
    (last_error s) (review_status s).
Definition set_lease_owner (v : option string) (s : TaskState) : TaskState :=
  mkTaskState (status s) (attempt_count s) v (lease_expires_at s) (available_at s)
    (started_at s) (completed_at s) (output_refs s) (result s) (error_class s)
    (last_error s) (review_status s).
Definition set_lease_expires_at (v : option datetime) (s : TaskState) : TaskState :=
  mkTaskState (status s) (attempt_count s) (lease_owner s) v (available_at s) (started_at s)
    (completed_at s) (output_refs s) (result s) (error_class s) (last_error s)
    (review_status s).
Definition set_available_at (v : option datetime) (s : TaskState) : TaskState :=
  mkTaskState (status s) (attempt_count s) (lease_owner s) (lease_expires_at s) v
    (started_at s) (completed_at s) (output_refs s) (result s) (error_class s)
    (last_error s) (review_status s).
Definition set_started_at (v : option datetime) (s : TaskState) : TaskState :=
  mkTaskState (status s) (attempt_count s) (lease_owner s) (lease_expires_at s)
    (available_at s) v (completed_at s) (output_refs s) (result s) (error_class s)
    (last_error s) (review_status s).
Definition set_completed_at (v : option datetime) (s : TaskState) : TaskState :=
  mkTaskState (status s) (attempt_count s) (lease_owner s) (lease_expires_at s)
    (available_at s) (started_at s) v (output_refs s) (result s) (error_class s)
    (last_error s) (review_status s).
Definition set_output_refs (v : list string) (s : TaskState) : TaskState :=
  mkTaskState (status s) (attempt_count s) (lease_owner s) (lease_expires_at s)
    (available_at s) (started_at s) (completed_at s) v (result s) (error_class s)
    (last_error s) (review_status s).
Definition set_result (v : option dict) (s : TaskState) : TaskState :=
  mkTaskState (status s) (attempt_count s) (lease_owner s) (lease_expires_at s)
    (available_at s) (started_at s) (completed_at s) (output_refs s) v (error_class s)
    (last_error s) (review_status s).
Definition set_error_class (v : option string) (s : TaskState) : TaskState :=
  mkTaskState (status s) (attempt_count s) (lease_owner s) (lease_expires_at s)
    (available_at s) (started_at s) (completed_at s) (output_refs s) (result s) v
    (last_error s) (review_status s).
Definition set_last_error (v : option string) (s : TaskState) : TaskState :=
  mkTaskState (status s) (attempt_count s) (lease_owner s) (lease_expires_at s)
    (available_at s) (started_at s) (completed_at s) (output_refs s) (result s)
    (error_class s) v (review_status s).
Definition set_review_status (v : option string) (s : TaskState) : TaskState :=
  mkTaskState (status s) (attempt_count s) (lease_owner s) (lease_expires_at s)
    (available_at s) (started_at s) (completed_at s) (output_refs s) (result s)
    (error_class s) (last_error s) v.

(** Assignments to a row, in the order the code makes them. *)
Definition assign (changes : list (TaskState → TaskState)) (s : TaskState) : TaskState :=
  fold_left (λ s change, change s) changes s.

Record EngagementTask := mkEngagementTask { spec : TaskSpec; state : TaskState }.
Definition set_state (s : TaskState) (t : EngagementTask) : EngagementTask :=
  mkEngagementTask (spec t) s.

Record TaskAttempt := mkTaskAttempt {
  attempt_id : string;
  att_tenant_id : string;
  att_engagement_id : string;
  att_task_id : string;
  attempt_no : Z;
  att_worker_id : string;
  att_status : string;
  att_started_at : datetime;
  att_completed_at : option datetime;
  att_lease_expires_at : option datetime;
  att_failure_class : option string;
  att_error_message : option string;
  att_result : option dict;
  att_output_refs : list string;
  trace_id : option string
}.

Record TaskDependency := mkTaskDependency {
  dependency_id : string;
  dep_tenant_id : string;
  dep_task_id : string;
  depends_on_task_id : string;
  condition_allowed_statuses : option (list string)
}.

(** The tables, by primary key where the code reads rows by it. *)
Record OrchDB := mkOrchDB {
  engagements : gmap string Engagement;
  tasks : gmap string EngagementTask;
  dependencies : list TaskDependency;
  attempts : list TaskAttempt;
  ledger : Ledger
}.

Definition set_engagements v db := mkOrchDB v (tasks db) (dependencies db) (attempts db) (ledger db).
Definition set_tasks v db := mkOrchDB (engagements db) v (dependencies db) (attempts db) (ledger db).
Definition set_dependencies v db := mkOrchDB (engagements db) (tasks db) v (attempts db) (ledger db).
Definition set_attempts v db := mkOrchDB (engagements db) (tasks db) (dependencies db) v (ledger db).
Definition set_ledger v db := mkOrchDB (engagements db) (tasks db) (dependencies db) (attempts db) v.

Abbreviation OrchTx := (Tx OrchDB).

(** Assigning to an attached row: the update is flushed before the next query. *)
Definition save (id : string) (changes : list (TaskState → TaskState)) : OrchTx unit :=
  modify (λ db, set_tasks (alter (λ t, set_state (assign changes (state t)) t) id (tasks db)) db).
Definition save_engagement (id : string) (change : Engagement → Engagement) : OrchTx unit :=
  modify (λ db, set_engagements (alter change id (engagements db)) db).
(** Reading an attribute of an attached row. *)
Definition row (id : string) : OrchTx EngagementTask :=
  db ← gets (λ db, db); some_or_raise (Py KeyError) (tasks db !! id).

(** ** OrchestrationRepository *)

(** *** Reads *)

Definition get_engagement (db : OrchDB) (tenant_id id : string) : option Engagement :=
  e ← engagements db !! id; guard (eng_tenant_id e = tenant_id);; Some e.

Definition get_task (db : OrchDB) (tenant_id id : string) : option EngagementTask :=
  t ← tasks db !! id; guard (task_tenant_id (spec t) = tenant_id);; Some t.

Definition active_statuses : list EngagementStatus :=
  [EngagementStatus.RUNNING; EngagementStatus.WAITING_APPROVAL; EngagementStatus.BLOCKED].

Definition engagement_cmp : Engagement → Engagement → comparison :=
  cmp_then (cmp_on eng_created_at Z.compare) (cmp_on engagement_id String.compare).

Definition list_active_engagements (db : OrchDB) (tenant_id : string) : list Engagement :=
  sort_by engagement_cmp
    (filter (λ e, eng_tenant_id e = tenant_id ∧ eng_status e ∈ active_statuses)
       (map snd (map_to_list (engagements db)))).

(** Every row of the task table. *)
Definition all_tasks (db : OrchDB) : list EngagementTask := map snd (map_to_list (tasks db)).

(** [ORDER BY priority, created_at, task_key]. *)
Definition task_cmp : EngagementTask → EngagementTask → comparison :=
  cmp_then (cmp_on (λ t, priority (spec t)) Z.compare)
    (cmp_then (cmp_on (λ t, created_at (spec t)) Z.compare)
       (cmp_on (λ t, task_key (spec t)) String.compare)).

Definition list_tasks (db : OrchDB) (tenant_id engagement_id : string) : list EngagementTask :=
  sort_by task_cmp
    (filter (λ t, task_tenant_id (spec t) = tenant_id ∧
                  task_engagement_id (spec t) = engagement_id) (all_tasks db)).

Definition dependency_cmp : TaskDependency → TaskDependency → comparison :=
  cmp_then (cmp_on dep_task_id String.compare) (cmp_on depends_on_task_id String.compare).

Definition list_dependencies (db : OrchDB) (tenant_id engagement_id : string) : list TaskDependency :=
  sort_by dependency_cmp
    (filter (λ d, dep_tenant_id d = tenant_id ∧
       (task_engagement_id ∘ spec) <$> tasks db !! dep_task_id d = Some engagement_id)
       (dependencies db)).

Definition get_attempt (db : OrchDB) (tenant_id id : string) (no : Z) : option TaskAttempt :=
  snd <$> list_find (λ a, att_tenant_id a = tenant_id ∧ att_task_id a = id ∧ attempt_no a = no)
    (attempts db).

Definition attempt_cmp : TaskAttempt → TaskAttempt → comparison :=
  cmp_then (cmp_on att_started_at Z.compare)
    (cmp_then (cmp_on att_task_id String.compare) (cmp_on attempt_no Z.compare)).

Definition repo_list_attempts (db : OrchDB) (tenant_id : string)
    (engagement_id task_id : option string) : list TaskAttempt :=
  sort_by attempt_cmp
    (filter (λ a, att_tenant_id a = tenant_id ∧ matches_opt engagement_id (Some (att_engagement_id a)) ∧
                  matches_opt task_id (Some (att_task_id a))) (attempts db)).

(** [column IS NOT NULL AND column <= now]. *)
Definition due (column : option datetime) (now : datetime) : Prop :=
  match column with Some t => t ≤ now | None => False end.
#[export] Instance due_dec c n : Decision (due c n).
Proof. unfold due. destruct c; apply _. Defined.

Definition expired_cmp (column : EngagementTask → option datetime) :
    EngagementTask → EngagementTask → comparison :=
  cmp_then (cmp_on (λ t, default 0 (column t)) Z.compare)
    (cmp_on (λ t, task_id (spec t)) String.compare).

Definition expired_running_tasks (db : OrchDB) (tenant_id : string) (now : datetime)
    : list EngagementTask :=
  sort_by (expired_cmp (λ t, lease_expires_at (state t)))
    (filter (λ t, task_tenant_id (spec t) = tenant_id ∧ status (state t) = TaskStatus.RUNNING ∧
                  due (lease_expires_at (state t)) now) (all_tasks db)).

Definition due_retry_tasks (db : OrchDB) (tenant_id : string) (now : datetime)
    : list EngagementTask :=
  sort_by (expired_cmp (λ t, available_at (state t)))
    (filter (λ t, task_tenant_id (spec t) = tenant_id ∧ status (state t) = TaskStatus.RETRY_WAIT ∧
                  due (available_at (state t)) now) (all_tasks db)).

Definition TERMINAL_TASK_STATUSES : list TaskStatus :=
  [TaskStatus.SUCCEEDED; TaskStatus.FAILED; TaskStatus.BLOCKED; TaskStatus.CANCELLED;
   TaskStatus.SKIPPED].
Definition FAILURE_TASK_STATUSES : list TaskStatus :=
  [TaskStatus.FAILED; TaskStatus.BLOCKED; TaskStatus.CANCELLED].

Definition overdue_nonterminal_tasks (db : OrchDB) (tenant_id : string) (now : datetime)
    : list EngagementTask :=
  sort_by (expired_cmp (λ t, deadline_at (spec t)))
    (filter (λ t, task_tenant_id (spec t) = tenant_id ∧
                  ¬ (status (state t) ∈ TERMINAL_TASK_STATUSES) ∧
                  due (deadline_at (spec t)) now) (all_tasks db)).

Definition lease_matches (t : EngagementTask) (worker_id : string) (now : datetime) : bool :=
  bool_decide (status (state t) = TaskStatus.RUNNING) &&
  bool_decide (lease_owner (state t) = Some worker_id) &&
  match lease_expires_at (state t) with Some e => now <? e | None => false end.

(** *** Claiming *)

(** [available_at IS NULL OR available_at <= now]. *)
Definition available (s : TaskState) (now : datetime) : bool :=
  match available_at s with Some a => a <=? now | None => true end.

(** [if names: column IN names]: an absent or an empty collection filters nothing. *)
Definition in_filter (names : option (list string)) (column : option string) : bool :=
  match names with
  | None | Some [] => true
  | Some names => match column with Some c => bool_decide (c ∈ names) | None => false end
  end.

(** The rows [claim_next] selects. *)
Definition claimable (tenant_id : string) (now : datetime) (engagement_id : option string)
    (task_types agent_roles : option (list string)) (t : EngagementTask) : bool :=
  bool_decide (task_tenant_id (spec t) = tenant_id) &&
  bool_decide (status (state t) = TaskStatus.READY) &&
  available (state t) now &&
  match deadline_at (spec t) with Some d => now <? d | None => true end &&
  bool_decide (matches_opt engagement_id (Some (task_engagement_id (spec t)))) &&
  in_filter task_types (Some (task_type (spec t))) &&
  in_filter agent_roles (assigned_agent_role (spec t)).

Definition claim_candidates (db : OrchDB) (tenant_id : string) (now : datetime)
    (engagement_id : option string) (task_types agent_roles : option (list string))
    : list EngagementTask :=
  take 20 (sort_by task_cmp
    (filter (λ t, claimable tenant_id now engagement_id task_types agent_roles t = true)
       (all_tasks db))).

(** The guarded [UPDATE] of one candidate; its row count is 1 exactly when the
    row still matches. *)
Definition claim_changes (worker_id : string) (now expires : datetime) (s : TaskState) :=
  [set_status TaskStatus.RUNNING; set_lease_owner (Some worker_id);
   set_lease_expires_at (Some expires); set_attempt_count (attempt_count s + 1);
   set_started_at (Some now); set_available_at None; set_error_class None;
   set_last_error None].

Fixpoint claim_loop (tenant_id worker_id : string) (now : datetime) (lease_seconds : Z)
    (candidates : list EngagementTask) : OrchTx (option string) :=
  match candidates with
  | [] => mret None
  | candidate :: rest =>
      let id := task_id (spec candidate) in
      expires ← from_res (add_us now (seconds lease_seconds));
      db ← gets (λ db, db);
      match get_task db tenant_id id with
      | Some t =>
          if bool_decide (status (state t) = TaskStatus.READY) && available (state t) now
          then save id (claim_changes worker_id now expires (state t)) ;; mret (Some id)
          else claim_loop tenant_id worker_id now lease_seconds rest
      | None => claim_loop tenant_id worker_id now lease_seconds rest
      end
  end.

Definition repo_claim_next (tenant_id worker_id : string) (now : datetime) (lease_seconds : Z)
    (engagement_id : option string) (task_types agent_roles : option (list string))
    : OrchTx (option string) :=
  db ← gets (λ db, db);
  claim_loop tenant_id worker_id now lease_seconds
    (claim_candidates db tenant_id now engagement_id task_types agent_roles).

(** The guarded [UPDATE] of a heartbeat. *)
Definition extend_lease (tenant_id id worker_id : string) (now : datetime) (lease_seconds : Z)
    : OrchTx (option EngagementTask) :=
  expires ← from_res (add_us now (seconds lease_seconds));
  db ← gets (λ db, db);
  match get_task db tenant_id id with
  | Some t =>
      if lease_matches t worker_id now
      then save id [set_lease_expires_at (Some expires)] ;;
           db ← gets (λ db, db); mret (get_task db tenant_id id)
      else mret None
  | None => mret None
  end.

(** *** Attempts and rows *)

Section ids.
Context `{UuidSource}.

Definition fresh_id (prefix : string) : OrchTx string := zoom ledger set_ledger (new_id prefix).

(** The table holds each (task_id, attempt_no) once, and only positive numbers. *)
Definition start_attempt (id worker_id : string) (now : datetime) : OrchTx unit :=
  t ← row id;
  att ← fresh_id "att";
  db ← gets (λ db, db);
  require (bool_decide (Forall (λ a, ¬ (att_task_id a = id ∧
             attempt_no a = attempt_count (state t))) (attempts db)) &&
           (0 <? attempt_count (state t))) (Py IntegrityError) ;;
  modify (set_attempts (attempts db ++
    [mkTaskAttempt att (task_tenant_id (spec t)) (task_engagement_id (spec t)) id
       (attempt_count (state t)) worker_id "running" now None (lease_expires_at (state t))
       None None None [] None])).

(** A row of the task table must not repeat a primary or a unique key. *)
Definition task_conflict (t : TaskSpec) (t' : EngagementTask) : bool :=
  bool_decide (task_id (spec t') = task_id t) ||
  bool_decide (task_engagement_id (spec t') = task_engagement_id t ∧
               task_key (spec t') = task_key t) ||
  bool_decide (task_tenant_id (spec t') = task_tenant_id t ∧
               idempotency_key (spec t') = idempotency_key t).

Definition add_task (t : EngagementTask) : OrchTx unit :=
  db ← gets (λ db, db);
  require (negb (existsb (task_conflict (spec t)) (all_tasks db))) (Py IntegrityError) ;;
  modify (set_tasks (insert (task_id (spec t)) t (tasks db))).

Definition add_dependency (d : TaskDependency) : OrchTx unit :=
  db ← gets (λ db, db);
  require (negb (existsb (λ d', bool_decide (dep_task_id d' = dep_task_id d ∧
             depends_on_task_id d' = depends_on_task_id d)) (dependencies db)))
    (Py IntegrityError) ;;
  modify (set_dependencies (dependencies db ++ [d])).
End ids.

Definition update_attempt_lease (tenant_id id : string) (no : Z) (expires : option datetime)
    : OrchTx unit :=
  modify (λ db, set_attempts (map (λ a,
    if decide (att_tenant_id a = tenant_id ∧ att_task_id a = id ∧ attempt_no a = no ∧
               att_status a = "running")
    then mkTaskAttempt (attempt_id a) (att_tenant_id a) (att_engagement_id a) (att_task_id a)
           (attempt_no a) (att_worker_id a) (att_status a) (att_started_at a)
           (att_completed_at a) expires (att_failure_class a) (att_error_message a)
           (att_result a) (att_output_refs a) (trace_id a)
    else a) (attempts db)) db).

(** The values [finish_attempt] writes besides the status and the instant. *)
Record Finish := mkFinish {
  fin_failure_class : option string;
  fin_error_message : option string;
  fin_result : option dict;
  fin_output_refs : list string
}.

Definition finish_attempt (id : string) (new_status : string) (now : datetime) (f : Finish)
    : OrchTx unit :=
  t ← row id;
  modify (λ db, set_attempts (map (λ a,
    if decide (att_tenant_id a = task_tenant_id (spec t) ∧ att_task_id a = id ∧
               attempt_no a = attempt_count (state t) ∧ att_status a = "running")
    then mkTaskAttempt (attempt_id a) (att_tenant_id a) (att_engagement_id a) (att_task_id a)
           (attempt_no a) (att_worker_id a) new_status (att_started_at a) (Some now)
           (lease_expires_at (state t)) (fin_failure_class f) (fin_error_message f)
           (fin_result f) (fin_output_refs f) (trace_id a)
    else a) (attempts db)) db).
