(* ===== verification/OrchCompiler.v ===== *)
(** * Orchestration: the workflow compiler

    orchestration/compiler.py: validation of a task graph ([validate], with
    Kahn's algorithm in [assert_acyclic]) and its compilation to task and
    dependency rows ([compile]). *)

From S2P Require Import Prelude PyFloat PyTime Ledger OrchDefs OrchStore.
Local Open Scope Z_scope.

(** ** Definitions *)

Definition ValidationError : exn := Orch WorkflowValidationError.

Definition keys (ts : list TaskDefinition) : list string := map def_key ts.
Definition dep_keys (t : TaskDefinition) : list string := map dep_task_key (def_dependencies t).

(** [sorted] on strings. *)
Definition sorted_strings (l : list string) : list string := sort_by String.compare l.

(** [indegree = {task.key: 0 ...}], then [indegree[task.key] += 1] for each dependency. *)
Definition initial_indegree (ts : list TaskDefinition) : gmap string Z :=
  fold_left (λ m t, fold_left (λ m (_ : DependencyDefinition), alter (Z.add 1) (def_key t) m)
                      (def_dependencies t) m) ts
    (fold_left (λ m t, <[def_key t := 0]> m) ts ∅).

(** [children[dependency].append(task.key)]. *)
Definition children_of (ts : list TaskDefinition) (key : string) : list string :=
  t ← ts; map (λ _, def_key t) (filter (λ d, d = key) (dep_keys t)).

Record Kahn := mkKahn { indegree : gmap string Z; ready : list string; visited : nat }.

(** The body of [for child in sorted(children[key])]. *)
Definition release (k : Kahn) (child : string) : Kahn :=
  let d := default 0 (indegree k !! child) - 1 in
  mkKahn (<[child := d]> (indegree k))
    (if d =? 0 then ready k ++ [child] else ready k) (visited k).

(** [while ready]. *)
Fixpoint kahn (fuel : nat) (ts : list TaskDefinition) (k : Kahn) : Res Kahn :=
  match ready k with
  | [] => Ok k
  | key :: rest =>
      match fuel with
      | O => Err (Py OutOfFuel)
      | S fuel =>
          kahn fuel ts (fold_left release (sorted_strings (children_of ts key))
            (mkKahn (indegree k) rest (S (visited k))))
      end
  end.

Definition assert_acyclic (ts : list TaskDefinition) : Res unit :=
  let degrees := initial_indegree ts in
  let ready := sorted_strings (map fst (filter (λ p, p.2 = 0) (map_to_list degrees))) in
  match kahn (length ts) ts (mkKahn degrees ready 0) with
  | Ok k => if bool_decide (visited k = length ts) then Ok tt else Err ValidationError
  | Err e => Err e
  end.

(** The body of the loop over the tasks. *)
Definition validate_dependencies (known : list string) (t : TaskDefinition) : Res unit :=
  if negb (bool_decide (NoDup (dep_keys t))) then Err ValidationError
  else if negb (forallb (λ d, bool_decide (d ∈ known)) (dep_keys t)) then Err ValidationError
  else if bool_decide (def_key t ∈ dep_keys t) then Err ValidationError
  else Ok tt.

Fixpoint validate_all (known : list string) (ts : list TaskDefinition) : Res unit :=
  match ts with
  | [] => Ok tt
  | t :: ts =>
      match validate_dependencies known t with
      | Ok _ => validate_all known ts
      | Err e => Err e
      end
  end.

Definition validate (w : WorkflowDefinition) : Res unit :=
  let ts := wf_tasks w in
  if negb (bool_decide (NoDup (keys ts))) then Err ValidationError
  else match validate_all (keys ts) ts with
       | Ok _ => assert_acyclic ts
       | Err e => Err e
       end.

(** [WorkflowCompiler.compile] *)

Section compile.
Context `{UuidSource}.

(** [{key: id, ...}]: a repeated key keeps the last value. *)
Definition dict_of (l : list (string * string)) : gmap string string :=
  fold_left (λ m p, <[p.1 := p.2]> m) l ∅.

Definition deadline_of (compiled_at : datetime) (d : TaskDefinition) : Res (option datetime) :=
  match def_deadline_seconds d with
  | Some n =>
      match add_us compiled_at (seconds n) with
      | Ok t => Ok (Some t)
      | Err e => Err e
      end
  | None => Ok None
  end.

Definition compiled_row (tenant_id engagement_id version id : string)
    (deadline : option datetime) (created : datetime) (d : TaskDefinition) : EngagementTask :=
  mkEngagementTask
    (mkTaskSpec id tenant_id engagement_id (def_key d) (def_task_type d)
       (def_definition_version d) (def_priority d) (def_assigned_agent_role d)
       (def_input_refs d)
       (engagement_id +:+ ":" +:+ version +:+ ":" +:+ def_key d +:+ ":" +:+
        def_definition_version d)
       (persisted_execution_policy d) (def_model_policy d) (def_tool_policy d)
       (def_human_gate d) deadline created)
    (mkTaskState TaskStatus.PENDING 0 None None None None None [] None None None None).

Definition compile_task (tenant_id engagement_id version : string) (compiled_at : datetime)
    (task_ids : gmap string string) (d : TaskDefinition) : OrchTx string :=
  deadline ← from_res (deadline_of compiled_at d);
  id ← some_or_raise (Py KeyError) (task_ids !! def_key d);
  created ← gets (λ db, wall_clock (ledger db));
  add_task (compiled_row tenant_id engagement_id version id deadline created d) ;;
  mret id.

Definition compile_dependency (tenant_id : string) (task_ids : gmap string string)
    (d : TaskDefinition) (p : DependencyDefinition) : OrchTx unit :=
  dep ← fresh_id "dep";
  id ← some_or_raise (Py KeyError) (task_ids !! def_key d);
  on ← some_or_raise (Py KeyError) (task_ids !! dep_task_key p);
  add_dependency (mkTaskDependency dep tenant_id id on
    (Some (sorted_strings (map value (allowed_statuses p))))).

Definition compile (tenant_id engagement_id : string) (w : WorkflowDefinition)
    (compiled_at : datetime) : OrchTx (list string) :=
  from_res (validate w) ;;
  db ← gets (λ db, db);
  require (bool_decide (list_tasks db tenant_id engagement_id = []))
    (Orch WorkflowAlreadyCompiledError) ;;
  pairs ← tx_map (λ d, id ← fresh_id "tsk"; mret (def_key d, id)) (wf_tasks w);
  rows ← tx_map (compile_task tenant_id engagement_id (workflow_version w) compiled_at
                   (dict_of pairs)) (wf_tasks w);
  for_each (wf_tasks w) (λ d,
    for_each (def_dependencies d) (compile_dependency tenant_id (dict_of pairs) d)) ;;
  mret rows.
End compile.

(** ** Correctness of the validation *)

(** The task [k] declares a dependency on [d]. *)
Definition needs (ts : list TaskDefinition) (k d : string) : Prop :=
  ∃ t, t ∈ ts ∧ def_key t = k ∧ d ∈ dep_keys t.
Definition acyclic (ts : list TaskDefinition) : Prop := ∀ k, ¬ tc (needs ts) k k.

(** What the compiler promises of a graph it accepts, but acyclicity. *)
Record well_formed (ts : list TaskDefinition) : Prop := {
  wf_keys : NoDup (keys ts);
  wf_deps : ∀ t, t ∈ ts → NoDup (dep_keys t);
  wf_known : ∀ k d, needs ts k d → d ∈ keys ts;
  wf_self : ∀ k, ¬ needs ts k k
}.

Lemma release_all cs k :
  NoDup cs →
  let k' := fold_left release cs k in
  (∀ c, indegree k' !! c =
    if decide (c ∈ cs) then Some (default 0 (indegree k !! c) - 1) else indegree k !! c) ∧
  ready k' = ready k ++ filter (λ c, default 0 (indegree k !! c) - 1 = 0) cs ∧
  visited k' = visited k.
Proof.
  revert k. induction cs as [|c cs IH]; intros k Hnd; simpl.
  { split; [|by rewrite app_nil_r]. done. }
  apply NoDup_cons in Hnd as [Hc Hnd]. destruct (IH (release k c) Hnd) as (Hi & Hr & ->).
  split; [|split; [|done]].
  - intros x. rewrite Hi. simpl. destruct (decide (x = c)) as [->|Hx].
    + rewrite decide_False by done. rewrite decide_True by left. by rewrite lookup_insert_eq.
    + rewrite lookup_insert_ne by done. by rewrite (decide_ext (x ∈ c :: cs) (x ∈ cs)) by set_solver.
  - rewrite Hr. simpl. rewrite filter_cons.
    assert (filter (λ x, default 0 (<[c:=default 0 (indegree k !! c) - 1]> (indegree k) !! x) - 1 = 0) cs
      = filter (λ x, default 0 (indegree k !! x) - 1 = 0) cs) as ->.
    { apply filter_ext_elem. intros x Hx. by rewrite lookup_insert_ne by (intros ->; done). }
    destruct (Z.eqb_spec (default 0 (indegree k !! c) - 1) 0);
      [rewrite decide_True by done|by rewrite decide_False by done].
    by rewrite <- app_assoc.
Qed.

Section kahn.
Context (ts : list TaskDefinition) (Hwf : well_formed ts).

(** The prerequisites of [t] that are not visited yet. *)
Definition pending (V : list string) (t : TaskDefinition) : list string :=
  filter (λ d, d ∉ V) (dep_keys t).

(** Every visited task comes after all its prerequisites. *)
Definition ordered (V : list string) : Prop :=
  ∀ V1 x V2, V = V1 ++ x :: V2 → ∀ d, needs ts x d → d ∈ V1.

Record kahn_inv (V : list string) (k : Kahn) : Prop := {
  ki_visited : visited k = length V;
  ki_nodup : NoDup (V ++ ready k);
  ki_known : ∀ x, x ∈ V ++ ready k → x ∈ keys ts;
  ki_degree : ∀ t, t ∈ ts → indegree k !! def_key t = Some (Z.of_nat (length (pending V t)));
  ki_ready : ∀ t, t ∈ ts → def_key t ∈ V ++ ready k ↔ pending V t = [];
  ki_ordered : ordered V
}.

Lemma key_unique t t' : t ∈ ts → t' ∈ ts → def_key t = def_key t' → t = t'.
Proof. apply NoDup_map_inj, Hwf. Qed.

Lemma elem_of_keys k : k ∈ keys ts ↔ ∃ t, t ∈ ts ∧ def_key t = k.
Proof. unfold keys. rewrite list_elem_of_fmap. naive_solver. Qed.

Lemma needs_iff d t : t ∈ ts → needs ts (def_key t) d ↔ d ∈ dep_keys t.
Proof.
  intros Ht. split.
  - intros (t' & Ht' & Hk & Hd). by rewrite (key_unique t t').
  - intros Hd. by exists t.
Qed.


Lemma elem_of_children k c : c ∈ children_of ts k ↔ needs ts c k.
Proof.
  unfold children_of, needs. rewrite list_elem_of_bind. split.
  - intros (t & (d & -> & Hd)%list_elem_of_fmap & Ht).
    apply list_elem_of_filter in Hd as [-> Hd]. by exists t.
  - intros (t & Ht & <- & Hd). exists t. split; [|done].
    apply list_elem_of_fmap. exists k. split; [done|]. by apply list_elem_of_filter.
Qed.

Lemma children_NoDup k : NoDup (children_of ts k).
Proof.
  apply NoDup_bind.
  - intros t1 t2 c H1 H2 (? & -> & _)%list_elem_of_fmap (? & Hk & _)%list_elem_of_fmap.
    by apply key_unique.
  - intros t Ht. destruct (Hwf) as [_ Hd _ _]. specialize (Hd t Ht).
    clear Ht. induction Hd as [|d l Hnotin Hd IH]; [constructor|].
    rewrite filter_cons. destruct (decide (d = k)) as [->|]; [|done].
    replace (filter (λ d, d = k) l) with ([] : list string); [apply NoDup_singleton|].
    clear IH Hd. induction l as [|x l IH]; [done|]. apply not_elem_of_cons in Hnotin as [??].
    rewrite filter_cons_False by done. auto.
  - destruct Hwf as [Hk _ _ _]. by eapply NoDup_fmap_1.
Qed.

Lemma pending_app V k t :
  t ∈ ts → k ∉ V →
  length (pending V t) =
    (length (pending (V ++ [k]) t) + (if decide (k ∈ dep_keys t) then 1 else 0))%nat.
Proof.
  intros Ht Hk. destruct Hwf as [_ Hd _ _]. specialize (Hd t Ht). unfold pending.
  assert (Heq : filter (λ d, d ∉ V ++ [k]) (dep_keys t) =
          filter (λ d, d ≠ k) (filter (λ d, d ∉ V) (dep_keys t))).
  { rewrite list_filter_filter. apply filter_ext_elem. intros x _.
    rewrite elem_of_app, list_elem_of_singleton. tauto. }
  rewrite Heq. case_decide as Hin.
  - rewrite Nat.add_1_r. symmetry. apply filter_ne_length.
    + by apply NoDup_filter.
    + by apply list_elem_of_filter.
  - rewrite (filter_all (λ d, d ≠ k)); [by rewrite Nat.add_0_r|].
    by intros x [_ Hx]%list_elem_of_filter ->.
Qed.


Definition visit (key : string) (rest : list string) (k : Kahn) : Kahn :=
  fold_left release (sorted_strings (children_of ts key))
    (mkKahn (indegree k) rest (S (visited k))).

Lemma elem_of_sorted_children key c : c ∈ sorted_strings (children_of ts key) ↔ needs ts c key.
Proof. unfold sorted_strings. by rewrite elem_of_sort_by, elem_of_children. Qed.

Lemma sorted_children_NoDup key : NoDup (sorted_strings (children_of ts key)).
Proof. unfold sorted_strings. rewrite sort_by_Permutation. apply children_NoDup. Qed.

(** The tasks one visit makes ready. *)
Definition released (k : Kahn) (key : string) : list string :=
  filter (λ c, default 0 (indegree k !! c) - 1 = 0) (sorted_strings (children_of ts key)).

Lemma visit_ready key rest k : ready (visit key rest k) = rest ++ released k key.
Proof. apply release_all, sorted_children_NoDup. Qed.

Lemma head_not_visited V k key rest : kahn_inv V k → ready k = key :: rest → key ∉ V.
Proof.
  intros [_ Hnd _ _ _ _] Hready ?. rewrite Hready in Hnd.
  apply NoDup_app in Hnd as (_ & Hd & _). eapply Hd; [done|left].
Qed.

Lemma visit_degree V k key rest t :
  kahn_inv V k → ready k = key :: rest → t ∈ ts →
  indegree (visit key rest k) !! def_key t = Some (Z.of_nat (length (pending (V ++ [key]) t))).
Proof.
  intros Hinv Hready Ht. pose proof (head_not_visited V k key rest Hinv Hready) as HkV.
  pose proof (pending_app V key t Ht HkV) as Hp. destruct Hinv as [_ _ _ Hdeg _ _].
  unfold visit.
  destruct (release_all _ (mkKahn (indegree k) rest (S (visited k))) (sorted_children_NoDup key))
    as (Hi & _). rewrite Hi. simpl. rewrite Hdeg by done. simpl.
  rewrite (decide_ext (def_key t ∈ _) (key ∈ dep_keys t))
    by (by rewrite elem_of_sorted_children, needs_iff).
  destruct (decide (key ∈ dep_keys t)); f_equal; lia.
Qed.

Lemma elem_of_released V k key rest c :
  kahn_inv V k → ready k = key :: rest →
  c ∈ released k key ↔
    ∃ t, t ∈ ts ∧ def_key t = c ∧ key ∈ dep_keys t ∧ pending (V ++ [key]) t = [].
Proof.
  intros Hinv Hready. pose proof (head_not_visited V k key rest Hinv Hready) as HkV.
  destruct Hinv as [_ _ _ Hdeg _ _]. unfold released.
  rewrite list_elem_of_filter, elem_of_sorted_children. split.
  - intros (Hz & t & Ht & <- & Hd). exists t. split_and!; [done..|].
    rewrite Hdeg in Hz by done. simpl in Hz. pose proof (pending_app V key t Ht HkV) as Hp.
    rewrite decide_True in Hp by done. apply nil_length_inv. lia.
  - intros (t & Ht & <- & Hd & Hp). split; [|by exists t].
    rewrite Hdeg by done. simpl. pose proof (pending_app V key t Ht HkV) as Hp'.
    rewrite decide_True, Hp in Hp' by done. simpl in Hp'. lia.
Qed.

(** Visiting a ready task keeps the visited tasks in dependency order. *)
Lemma ordered_visit V k key rest :
  kahn_inv V k → ready k = key :: rest → ordered (V ++ [key]).
Proof.
  intros [_ _ _ _ Hrd Hord] Hready V1 x V2 HV d Hd.
  destruct V2 as [|y V2 _] using rev_ind.
  - apply app_inj_tail in HV as [<- <-]. destruct Hd as (t & Ht & <- & Hd).
    assert (Hp : pending V t = []).
    { apply Hrd; [done|]. rewrite Hready. apply elem_of_app; right; left. }
    destruct (decide (d ∈ V)) as [|HdV]; [done|].
    exfalso. apply (not_elem_of_nil (A:=string) d). rewrite <- Hp. by apply list_elem_of_filter.
  - rewrite app_comm_cons, app_assoc in HV. apply app_inj_tail in HV as [-> _]. by eapply Hord.
Qed.

(** One iteration of [while ready]. *)
Lemma kahn_step V k key rest :
  kahn_inv V k → ready k = key :: rest → kahn_inv (V ++ [key]) (visit key rest k).
Proof.
  intros Hinv Hready.
  pose proof (elem_of_released V k key rest) as Hnew.
  pose proof (head_not_visited V k key rest Hinv Hready) as HkV.
  assert (Hr : (V ++ [key]) ++ ready (visit key rest k) = (V ++ ready k) ++ released k key).
  { rewrite visit_ready, Hready. by rewrite <- !app_assoc. }
  split; rewrite ?Hr.
  - unfold visit. rewrite (proj2 (proj2 (release_all _ _ (sorted_children_NoDup key)))). simpl.
    by rewrite (ki_visited _ _ Hinv), length_app, Nat.add_1_r.
  - apply NoDup_app. split; [apply Hinv|].
    split; [|apply NoDup_filter, sorted_children_NoDup].
    intros c Hc (t & Ht & <- & Hd & Hp)%Hnew; [|done..].
    apply (ki_ready _ _ Hinv) in Hc; [|done]. pose proof (pending_app V key t Ht HkV) as Hp'.
    rewrite decide_True, Hp, Hc in Hp' by done. simpl in Hp'. lia.
  - intros x. rewrite elem_of_app. intros [Hx|Hx]; [by apply Hinv|].
    apply Hnew in Hx as (t & Ht & <- & _); [|done..]. apply elem_of_keys. by exists t.
  - intros t Ht. by apply (visit_degree V).
  - intros t Ht. rewrite elem_of_app, (ki_ready _ _ Hinv), Hnew by done.
    pose proof (pending_app V key t Ht HkV) as Hp'. split.
    + intros [Hp|(t' & Ht' & Hk & _ & Hp)]; [|by rewrite <- (key_unique t' t)].
      rewrite Hp in Hp'. simpl in Hp'. apply nil_length_inv. lia.
    + intros Hp. destruct (decide (key ∈ dep_keys t)) as [Hd|Hd]; [right; by exists t|].
      left. apply nil_length_inv. by rewrite Hp', Hp.
  - by eapply ordered_visit.
Qed.

Lemma known_length l : NoDup l → (∀ x, x ∈ l → x ∈ keys ts) → (length l ≤ length ts)%nat.
Proof.
  intros Hnd Hl. replace (length ts) with (length (keys ts)) by apply length_map.
  by apply submseteq_length, NoDup_submseteq.
Qed.

(** The loop ends within one iteration per task. *)
Lemma kahn_total fuel V k :
  kahn_inv V k → (length ts ≤ length V + fuel)%nat →
  ∃ k' V', kahn fuel ts k = Ok k' ∧ kahn_inv V' k' ∧ ready k' = [].
Proof.
  revert V k. induction fuel as [|fuel IH]; intros V k Hinv Hlen; simpl;
    destruct (ready k) as [|key rest] eqn:Hready; [by exists k, V| |by exists k, V|].
  - exfalso. pose proof (known_length _ (ki_nodup _ _ Hinv) (ki_known _ _ Hinv)) as Hl.
    rewrite Hready, length_app in Hl. simpl in Hl. lia.
  - apply (IH (V ++ [key])); [by apply kahn_step|]. rewrite length_app. simpl. lia.
Qed.

Lemma count_dependencies {A} (l : list A) k (m : gmap string Z) x :
  fold_left (λ m (_ : A), alter (Z.add 1) k m) l m !! x =
    if decide (x = k) then Z.add (Z.of_nat (length l)) <$> m !! x else m !! x.
Proof.
  revert m. induction l as [|a l IH]; intros m; simpl.
  - destruct (decide (x = k)); [|done]. by destruct (m !! x).
  - rewrite IH. destruct (decide (x = k)) as [->|].
    + rewrite lookup_alter_eq. destruct (m !! k); simpl; [f_equal; lia|done].
    + by rewrite lookup_alter_ne.
Qed.

(** Adding up the dependencies of a list of tasks with distinct keys. *)
Lemma count_all l (m : gmap string Z) :
  NoDup (keys l) →
  let m' := fold_left (λ m t, fold_left (λ m (_ : DependencyDefinition), alter (Z.add 1) (def_key t) m)
              (def_dependencies t) m) l m in
  (∀ t, t ∈ l → m' !! def_key t = Z.add (Z.of_nat (length (dep_keys t))) <$> m !! def_key t) ∧
  (∀ x, x ∉ keys l → m' !! x = m !! x).
Proof.
  unfold keys. revert m. induction l as [|u l IH]; intros m Hnd; cbn [fold_left].
  { split; [|done]. by intros t ?%elem_of_nil. }
  apply NoDup_cons in Hnd as [Hu Hnd]. set (m1 := fold_left _ (def_dependencies u) m).
  destruct (IH m1 Hnd) as [H1 H2]. subst m1. split.
  - intros t [->|Ht]%elem_of_cons.
    + rewrite H2 by done. rewrite count_dependencies, decide_True by done.
      unfold dep_keys. by rewrite length_map.
    + rewrite H1 by done. rewrite count_dependencies, decide_False; [done|].
      intros Hk. apply Hu. rewrite <- Hk. by apply list_elem_of_fmap_2.
  - intros x [Hx ?]%not_elem_of_cons. rewrite H2 by done.
    by rewrite count_dependencies, decide_False.
Qed.

Lemma zero_degrees l (m : gmap string Z) x :
  fold_left (λ m t, <[def_key t := 0]> m) l m !! x =
    if decide (x ∈ keys l) then Some 0 else m !! x.
Proof.
  unfold keys. revert m. induction l as [|u l IH]; intros m; [done|]. cbn [fold_left]. rewrite IH.
  rewrite (decide_ext (x ∈ map def_key (u :: l)) (x = def_key u ∨ x ∈ map def_key l))
    by apply elem_of_cons.
  destruct (decide (x ∈ map def_key l)); [by rewrite decide_True by tauto|].
  destruct (decide (x = def_key u)) as [->|];
    [rewrite lookup_insert_eq, decide_True by tauto|
     rewrite lookup_insert_ne, decide_False by naive_solver]; done.
Qed.

Lemma initial_indegree_spec :
  (∀ t, t ∈ ts → initial_indegree ts !! def_key t = Some (Z.of_nat (length (dep_keys t)))) ∧
  (∀ x, x ∉ keys ts → initial_indegree ts !! x = None).
Proof.
  destruct (Hwf) as [Hnd _ _ _]. destruct (count_all ts (fold_left (λ m t, <[def_key t := 0]> m) ts ∅) Hnd)
    as [H1 H2]. split.
  - intros t Ht. unfold initial_indegree. rewrite H1, zero_degrees, decide_True by
      (done || by apply elem_of_keys; exists t). simpl. f_equal. lia.
  - intros x Hx. unfold initial_indegree. by rewrite H2, zero_degrees, decide_False.
Qed.

Definition initial_ready : list string :=
  sorted_strings (map fst (filter (λ p, p.2 = 0) (map_to_list (initial_indegree ts)))).

Lemma elem_of_initial_ready x : x ∈ initial_ready ↔ initial_indegree ts !! x = Some 0.
Proof.
  unfold initial_ready, sorted_strings. rewrite elem_of_sort_by, list_elem_of_fmap. split.
  - intros ([y n] & -> & [Hn Hy]%list_elem_of_filter). simpl in *. subst.
    by apply elem_of_map_to_list.
  - intros Hx. exists (x, 0). split; [done|].
    apply list_elem_of_filter. split; [done|]. by apply elem_of_map_to_list.
Qed.

Lemma initial_inv : kahn_inv [] (mkKahn (initial_indegree ts) initial_ready 0).
Proof.
  destruct initial_indegree_spec as [Hin Hout].
  assert (Hp : ∀ t, pending [] t = dep_keys t).
  { intros t. unfold pending. apply filter_all. intros x _. apply not_elem_of_nil. }
  split; simpl.
  - done.
  - unfold initial_ready, sorted_strings. rewrite sort_by_Permutation.
    apply NoDup_map_filter, NoDup_fst_map_to_list.
  - intros x. rewrite elem_of_initial_ready. intros Hx.
    destruct (decide (x ∈ keys ts)) as [|Hx']; [done|]. by rewrite Hout in Hx.
  - intros t Ht. by rewrite Hin, Hp.
  - intros t Ht. rewrite elem_of_initial_ready, Hin, Hp by done. split.
    + intros [= H]. apply nil_length_inv. lia.
    + by intros ->.
  - intros V1 x V2 HV. by destruct V1.
Qed.

Lemma ordered_tc V x y : ordered V → tc (needs ts) x y → ∀ V1 V2, V = V1 ++ x :: V2 → y ∈ V1.
Proof.
  intros Hord. induction 1 as [x y Hxy|x y z Hxy _ IH]; intros V1 V2 HV; [by eapply Hord|].
  assert (Hy : y ∈ V1) by (by eapply Hord).
  apply list_elem_of_split in Hy as (A & B & ->).
  rewrite elem_of_app. left. apply (IH A (B ++ x :: V2)). by rewrite HV, <- app_assoc.
Qed.

Lemma visited_acyclic V :
  ordered V → NoDup V → (∀ x, x ∈ keys ts → x ∈ V) → acyclic ts.
Proof.
  intros Hord Hnd Hall x Hx.
  assert (HxV : x ∈ V).
  { apply Hall. inversion Hx; subst; [destruct H as (t & Ht & <- & _)|destruct H as (t & Ht & <- & _)];
      apply elem_of_keys; by exists t. }
  apply list_elem_of_split in HxV as (V1 & V2 & ->).
  pose proof (ordered_tc _ x x Hord Hx V1 V2 eq_refl) as Hin.
  apply NoDup_app in Hnd as (_ & Hd & _). apply (Hd x Hin). left.
Qed.

Lemma needs_known x y : tc (needs ts) x y → y ∈ keys ts.
Proof. destruct (Hwf) as [_ _ Hk _]. induction 1; eauto. Qed.

Lemma acyclic_visited V k :
  kahn_inv V k → ready k = [] → acyclic ts → ∀ x, x ∈ keys ts → x ∈ V.
Proof.
  intros Hinv Hready Hac x. assert (Hsn : sn (needs ts) x).
  { apply tc_finite_sn; [exact Hac|]. exists (keys ts). intros y. apply needs_known. }
  induction Hsn as [x _ IH]. intros Hx. apply elem_of_keys in Hx as (t & Ht & <-).
  pose proof (ki_ready _ _ Hinv t Ht) as Hr. rewrite Hready, app_nil_r in Hr. apply Hr.
  apply filter_none. intros d Hd HdV. apply HdV, IH; [by exists t|].
  destruct (Hwf) as [_ _ Hk _]. apply (Hk (def_key t)). by exists t.
Qed.

(** Kahn's algorithm accepts exactly the acyclic graphs, and refuses the others. *)
Lemma assert_acyclic_spec :
  (assert_acyclic ts = Ok tt ↔ acyclic ts) ∧
  (assert_acyclic ts = Ok tt ∨ assert_acyclic ts = Err ValidationError).
Proof.
  unfold assert_acyclic. fold initial_ready.
  destruct (kahn_total (length ts) [] (mkKahn (initial_indegree ts) initial_ready 0))
    as (k & V & -> & Hinv & Hready); [apply initial_inv|done|].
  rewrite (ki_visited _ _ Hinv). pose proof (ki_nodup _ _ Hinv) as Hnd.
  rewrite Hready, app_nil_r in Hnd.
  assert (Hall : length V = length ts ↔ ∀ x, x ∈ keys ts → x ∈ V).
  { assert (Hk : length (keys ts) = length ts) by apply length_map. split.
    - intros Hl. assert (V ≡ₚ keys ts) as Hp; [|intros x; by rewrite Hp].
      apply submseteq_length_Permutation; [|lia]. apply NoDup_submseteq; [done|].
      intros x Hx. apply (ki_known _ _ Hinv). rewrite Hready, app_nil_r. done.
    - intros Hsub. apply Nat.le_antisymm.
      + apply known_length; [done|]. intros x Hx. apply (ki_known _ _ Hinv).
        by rewrite Hready, app_nil_r.
      + rewrite <- Hk. apply submseteq_length, NoDup_submseteq; [apply Hwf|done]. }
  split; [|case_bool_decide; auto].
  transitivity (length V = length ts); [case_bool_decide; naive_solver|]. rewrite Hall. split.
  - intros H. eapply visited_acyclic; [apply Hinv|done..].
  - intros H. by eapply acyclic_visited.
Qed.
End kahn.

Lemma validate_dependencies_spec known t :
  let ok := NoDup (dep_keys t) ∧ (∀ d, d ∈ dep_keys t → d ∈ known) ∧ def_key t ∉ dep_keys t in
  (validate_dependencies known t = Ok tt ↔ ok) ∧
  (validate_dependencies known t = Ok tt ∨ validate_dependencies known t = Err ValidationError).
Proof.
  unfold validate_dependencies. pose proof (forallb_decide (λ d, d ∈ known) (dep_keys t)) as Hall.
  case_bool_decide; simpl; [|naive_solver].
  destruct (forallb _ _); simpl; [|naive_solver].
  case_bool_decide; naive_solver.
Qed.

Lemma validate_all_spec known ts :
  (validate_all known ts = Ok tt ↔
     ∀ t, t ∈ ts → NoDup (dep_keys t) ∧ (∀ d, d ∈ dep_keys t → d ∈ known) ∧ def_key t ∉ dep_keys t) ∧
  (validate_all known ts = Ok tt ∨ validate_all known ts = Err ValidationError).
Proof.
  induction ts as [|t ts [IH1 IH2]]; simpl.
  { split; [|by left]. split; [|done]. by intros _ t ?%elem_of_nil. }
  destruct (validate_dependencies_spec known t) as [H1 H2].
  destruct H2 as [H2|H2]; rewrite H2.
  - split; [|done]. apply H1 in H2. rewrite IH1. split.
    + intros H u [->|Hu]%elem_of_cons; auto.
    + intros H u Hu. apply H. by right.
  - split; [|by right]. split; [done|]. intros H.
    rewrite (proj2 H1) in H2; [done|]. apply H. left.
Qed.

(** [validate] accepts exactly the task graphs whose keys and dependencies are
    distinct, known and acyclic, and raises [WorkflowValidationError] on every other. *)
Lemma validate_spec w :
  (validate w = Ok tt ↔ well_formed (wf_tasks w) ∧ acyclic (wf_tasks w)) ∧
  (validate w = Ok tt ∨ validate w = Err ValidationError).
Proof.
  unfold validate. set (ts := wf_tasks w). case_bool_decide as Hk; simpl; [|split; [|by right]].
  2: { split; [done|]. by intros [[? _ _ _] _]. }
  destruct (validate_all_spec (keys ts) ts) as [Ha [Ho|Ho]]; rewrite Ho.
  - assert (Hwf : well_formed ts).
    { pose proof (proj1 Ha Ho) as Hd. clear Ha Ho. split; [done| | |].
      - intros t Ht. by apply Hd.
      - intros k d (t & Ht & _ & Hin). by eapply Hd.
      - intros k (t & Ht & <- & Hin). by apply (Hd t Ht). }
    destruct (assert_acyclic_spec ts Hwf) as [-> ?]. split; [|done]. tauto.
  - split; [|by right]. split; [done|]. intros [Hwf _].
    rewrite (proj2 Ha) in Ho; [done|]. intros t Ht. split_and!.
    + by apply Hwf.
    + intros d Hd. apply (wf_known _ Hwf (def_key t)). by exists t.
    + intros Hd. apply (wf_self _ Hwf (def_key t)). by exists t.
Qed.
