(* ===== verification/Orchestrator.v ===== *)
(** * Orchestration: the orchestrator

    orchestration/service.py: one definition per public operation of
    [Orchestrator], each the body of its transaction with the clock's reading as
    [now], and one per helper, in the order of the source. *)

From S2P Require Import Prelude PyFloat PyTime Ledger OrchDefs OrchStore OrchCompiler.
Local Open Scope Z_scope.

Section orchestrator.
Context `{UuidSource}.

(** ** Recording *)

(** [_record]: the audit event and its outbox row. *)
Definition record (event_type tenant_id : string) (engagement_id task_id : option string)
    (aggregate_type aggregate_id : string) (payload : dict) (now : datetime) : OrchTx unit :=
  event_id ← zoom ledger set_ledger new_event_id;
  let payload := dict_safe payload in
  zoom ledger set_ledger
    (append (mkAuditEvent event_id event_type tenant_id engagement_id task_id now payload)) ;;
  zoom ledger set_ledger
    (outbox_add tenant_id aggregate_type aggregate_id event_type payload event_id).

Definition TASK_CREATED : string := "orchestration.task.created".
Definition TASK_TRANSITIONED : string := "orchestration.task.transitioned".
Definition ENGAGEMENT_TRANSITIONED : string := "orchestration.engagement.transitioned".

Definition record_task_created (id : string) (now : datetime) : OrchTx unit :=
  t ← row id;
  record TASK_CREATED (task_tenant_id (spec t)) (Some (task_engagement_id (spec t))) (Some id)
    "task" id
    [("task_key", JStr (task_key (spec t)));
     ("task_type", JStr (task_type (spec t)));
     ("status", JStr (value (status (state t))));
     ("definition_version", JStr (definition_version (spec t)));
     ("human_gate", opt_json (human_gate (spec t)))] now.

Definition record_task_transition (id : string) (from_status to_status : TaskStatus)
    (reason : string) (now : datetime) (extra : dict) : OrchTx unit :=
  t ← row id;
  record TASK_TRANSITIONED (task_tenant_id (spec t)) (Some (task_engagement_id (spec t)))
    (Some id) "task" id
    (dict_update
      [("task_key", JStr (task_key (spec t)));
       ("from_status", JStr (value from_status));
       ("to_status", JStr (value to_status));
       ("reason", JStr reason);
       ("attempt_count", JInt (attempt_count (state t)))] extra) now.

Definition transition_engagement (id : string) (target : EngagementStatus) (reason : string)
    (now : datetime) (extra : dict) : OrchTx unit :=
  db ← gets (λ db, db);
  e ← some_or_raise (Py KeyError) (engagements db !! id);
  if decide (eng_status e = target) then mret tt
  else
    save_engagement id (set_eng_status target) ;;
    record ENGAGEMENT_TRANSITIONED (eng_tenant_id e) (Some id) None "engagement" id
      (dict_update
        [("from_status", JStr (value (eng_status e)));
         ("to_status", JStr (value target));
         ("reason", JStr reason)] extra) now.

(** ** Guards *)

Definition require_engagement (tenant_id id : string) : OrchTx Engagement :=
  db ← gets (λ db, db);
  some_or_raise (Orch EngagementNotFoundError) (get_engagement db tenant_id id).

Definition require_task (tenant_id id : string) : OrchTx EngagementTask :=
  db ← gets (λ db, db);
  some_or_raise (Orch TaskNotFoundError) (get_task db tenant_id id).

Definition require_lease (t : EngagementTask) (worker_id : string) (now : datetime) : OrchTx unit :=
  require (lease_matches t worker_id now) (Orch LeaseConflictError).

Definition is_space (c : Ascii.ascii) : bool :=
  let n := Z.of_nat (Ascii.nat_of_ascii c) in
  (n =? 32) || (9 <=? n) && (n <=? 13) || (28 <=? n) && (n <=? 31).
(** [text.strip()] is empty, for ASCII text. *)
Definition blank (text : string) : bool := forallb is_space (String.list_ascii_of_string text).

(** ** Results *)

Definition snapshot_task (t : EngagementTask) : TaskSnapshot :=
  let s := state t in
  mkTaskSnapshot (task_id (spec t)) (task_key (spec t)) (status s) (attempt_count s)
    (lease_owner s) (lease_expires_at s) (available_at s) (human_gate (spec t))
    (review_status s) (error_class s) (output_refs s).

(** [_snapshot]; the session sees the assignments made to the engagement. *)
Definition snapshot_of (db : OrchDB) (e : Engagement) : EngagementSnapshot :=
  mkEngagementSnapshot (eng_tenant_id e) (engagement_id e) (eng_status e)
    (map snapshot_task (list_tasks db (eng_tenant_id e) (engagement_id e))).

Definition snapshot (tenant_id id : string) : OrchTx EngagementSnapshot :=
  e ← require_engagement tenant_id id;
  gets (λ db, snapshot_of db e).

Definition lease_from_task (t : EngagementTask) : Res TaskLease :=
  let s := state t in
  match lease_owner s, lease_expires_at s with
  | Some owner, Some expires =>
      Ok (mkTaskLease (task_tenant_id (spec t)) (task_engagement_id (spec t)) (task_id (spec t))
            (task_key (spec t)) (task_type (spec t)) (assigned_agent_role (spec t))
            (attempt_count s) owner expires (input_refs (spec t)) (execution_policy (spec t))
            (model_policy (spec t)) (tool_policy (spec t)) (deadline_at (spec t))
            (human_gate (spec t)))
  | _, _ => Err (Py AssertionError)
  end.

(** ** Reconciliation *)

(** [_dependencies_satisfied] *)
Fixpoint dependencies_satisfied (db : OrchDB) (deps : list TaskDependency) : bool :=
  match deps with
  | [] => true
  | d :: deps =>
      let allowed := default ["succeeded"; "skipped"] (condition_allowed_statuses d) in
      match tasks db !! depends_on_task_id d with
      | Some t =>
          if bool_decide (value (status (state t)) ∈ allowed)
          then dependencies_satisfied db deps else false
      | None => false
      end
  end.

(** [[tasks_by_id[item.depends_on_task_id] for item in task_dependencies]]: a
    prerequisite outside the engagement is a [KeyError]. *)
Definition dependency_rows (ids : list string) (deps : list TaskDependency)
    : OrchTx (list EngagementTask) :=
  tx_map (λ d, require (bool_decide (depends_on_task_id d ∈ ids)) (Py KeyError) ;;
               row (depends_on_task_id d)) deps.

(** What a pending task becomes once its dependencies are satisfied. *)
Definition runnable_changes (t : EngagementTask) (now : datetime)
    : list (TaskState → TaskState) * TaskStatus * string :=
  if match deadline_at (spec t) with Some d => d <=? now | None => false end then
    ([set_status TaskStatus.FAILED; set_completed_at (Some now);
      set_error_class (Some "deadline_exceeded");
      set_last_error (Some "task deadline elapsed before it became runnable")],
     TaskStatus.FAILED, "deadline_exceeded")
  else if truthy (human_gate (spec t)) && gate_position_is (execution_policy (spec t)) "before" &&
          negb (bool_decide (review_status (state t) = Some "approved")) then
    ([set_status TaskStatus.WAITING_APPROVAL; set_review_status (Some "pending")],
     TaskStatus.WAITING_APPROVAL, "pre_execution_gate_required")
  else
    ([set_status TaskStatus.READY; set_available_at (Some now)],
     TaskStatus.READY, "dependencies_satisfied").

(** The body of [for task in tasks]; the result says whether it changed the task. *)
Definition reconcile_task (ids : list string) (dependency_map : string → list TaskDependency)
    (now : datetime) (id : string) : OrchTx bool :=
  t ← row id;
  if negb (bool_decide (status (state t) = TaskStatus.PENDING)) then mret false
  else
    let task_dependencies := dependency_map id in
    rows ← dependency_rows ids task_dependencies;
    if existsb (λ r, bool_decide (status (state r) ∈ FAILURE_TASK_STATUSES)) rows then
      save id [set_status TaskStatus.BLOCKED; set_completed_at (Some now);
               set_error_class (Some "dependency_failed");
               set_last_error
                 (Some "one or more prerequisite tasks did not complete successfully")] ;;
      record_task_transition id TaskStatus.PENDING TaskStatus.BLOCKED "dependency_failed" now [] ;;
      mret true
    else
      db ← gets (λ db, db);
      if negb (dependencies_satisfied db task_dependencies) then mret false
      else
        let '(changes, to_status, reason) := runnable_changes t now in
        save id changes ;;
        record_task_transition id TaskStatus.PENDING to_status reason now [] ;;
        mret true.

Fixpoint reconcile_pass (body : string → OrchTx bool) (ids : list string) (changed : bool)
    : OrchTx bool :=
  match ids with
  | [] => mret changed
  | id :: ids => b ← body id; reconcile_pass body ids (changed || b)
  end.

(** [while changed] *)
Fixpoint reconcile_loop (fuel : nat) (body : string → OrchTx bool) (ids : list string)
    : OrchTx unit :=
  match fuel with
  | O => raise (Py OutOfFuel)
  | S fuel =>
      changed ← reconcile_pass body ids false;
      if changed : bool then reconcile_loop fuel body ids else mret tt
  end.

(** The status the tasks give their engagement. *)
Definition target_status (statuses : list TaskStatus) : EngagementStatus * string :=
  let any l := existsb (λ s, bool_decide (s ∈ (l : list TaskStatus))) statuses in
  if forallb (λ s, bool_decide (s ∈ [TaskStatus.SUCCEEDED; TaskStatus.SKIPPED])) statuses
  then (EngagementStatus.COMPLETED, "all_tasks_completed")
  else if any [TaskStatus.READY; TaskStatus.RUNNING; TaskStatus.RETRY_WAIT]
  then (EngagementStatus.RUNNING, "work_in_progress")
  else if any [TaskStatus.WAITING_APPROVAL]
  then (EngagementStatus.WAITING_APPROVAL, "human_decision_required")
  else if any [TaskStatus.FAILED] then (EngagementStatus.FAILED, "task_failed")
  else if any [TaskStatus.BLOCKED] then (EngagementStatus.BLOCKED, "dependency_blocked")
  else (EngagementStatus.RUNNING, "waiting_for_dependencies").

Definition reconcile_engagement_status (tenant_id id : string) (ids : list string)
    (now : datetime) : OrchTx unit :=
  db ← gets (λ db, db);
  e ← some_or_raise (Py KeyError) (engagements db !! id);
  if bool_decide (eng_status e = EngagementStatus.CANCELLED) then mret tt
  else
    rows ← tx_map row ids;
    let '(target, reason) := target_status (map (λ t, status (state t)) rows) in
    (if bool_decide (target ∈ [EngagementStatus.COMPLETED; EngagementStatus.FAILED])
     then save_engagement id (set_eng_completed_at (Some now)) else mret tt) ;;
    transition_engagement id target reason now [].

(** [_reconcile_engagement]: the loop changes at least one pending task in every
    iteration but the last, so one iteration more than there are tasks is enough. *)
Definition reconcile_engagement (tenant_id id : string) (now : datetime) : OrchTx unit :=
  db ← gets (λ db, db);
  let ids := map (λ t, task_id (spec t)) (list_tasks db tenant_id id) in
  if bool_decide (ids = []) then mret tt
  else
    let deps := list_dependencies db tenant_id id in
    let dependency_map task := filter (λ d, dep_task_id d = task) deps in
    reconcile_loop (S (length ids)) (reconcile_task ids dependency_map now) ids ;;
    reconcile_engagement_status tenant_id id ids now.

(** What every operation on a task ends with. *)
Definition reconcile_and_snapshot (tenant_id id : string) (now : datetime)
    : OrchTx EngagementSnapshot :=
  _ ← require_engagement tenant_id id;
  reconcile_engagement tenant_id id now ;;
  snapshot tenant_id id.

(** ** Failure of an execution *)

(** [_apply_failure] *)
Definition apply_failure (id : string) (failure_class : FailureClass) (message : string)
    (now : datetime) (force_retryable : option bool) : OrchTx unit :=
  t ← row id;
  let from_status := status (state t) in
  let retry_policy := retry_policy_of (execution_policy (spec t)) in
  let retryable := default (bool_decide (failure_class ∈ retryable_failures retry_policy))
                     force_retryable in
  let within_attempt_budget := attempt_count (state t) <? max_attempts retry_policy in
  let before_deadline := match deadline_at (spec t) with Some d => now <? d | None => true end in
  let failed := [set_lease_owner None; set_lease_expires_at None;
                 set_error_class (Some (value failure_class)); set_last_error (Some message)] in
  let common := [("failure_class", JStr (value failure_class)); ("message", JStr message)] in
  if retryable && within_attempt_budget && before_deadline then
    delay ← from_res (delay_for_attempt retry_policy (attempt_count (state t)));
    wait ← from_res (timedelta_seconds delay);
    available ← from_res (add_us now wait);
    save id (failed ++ [set_status TaskStatus.RETRY_WAIT; set_available_at (Some available)]) ;;
    record_task_transition id from_status TaskStatus.RETRY_WAIT "retry_scheduled" now
      (common ++ [("retry_delay_seconds", JFloat delay)])
  else
    save id (failed ++ [set_status TaskStatus.FAILED; set_available_at None;
                        set_completed_at (Some now)]) ;;
    record_task_transition id from_status TaskStatus.FAILED "execution_failed" now
      (common ++ [("retryable", JBool retryable);
                  ("attempt_budget_remaining", JBool within_attempt_budget)]).

(** ** Maintenance *)

Definition LEASE_EXPIRED_MESSAGE : string := "worker lease expired before task completion".
Definition OVERDUE_MESSAGE : string := "task deadline elapsed before successful completion".

Definition recover_expired_lease (now : datetime) (t : EngagementTask) : OrchTx unit :=
  let id := task_id (spec t) in
  apply_failure id FailureClass.LEASE_EXPIRED LEASE_EXPIRED_MESSAGE now None ;;
  finish_attempt id "lease_expired" now
    (mkFinish (Some (value FailureClass.LEASE_EXPIRED)) (Some LEASE_EXPIRED_MESSAGE) None []).

Definition recover_expired_leases (tenant_id : string) (now : datetime) : OrchTx nat :=
  db ← gets (λ db, db);
  let expired := expired_running_tasks db tenant_id now in
  for_each expired (recover_expired_lease now) ;;
  mret (length expired).

Definition promote_due_retry (now : datetime) (t : EngagementTask) : OrchTx unit :=
  let id := task_id (spec t) in
  save id [set_status TaskStatus.READY; set_available_at None] ;;
  record_task_transition id TaskStatus.RETRY_WAIT TaskStatus.READY "retry_delay_elapsed" now [].

Definition promote_due_retries (tenant_id : string) (now : datetime) : OrchTx nat :=
  db ← gets (λ db, db);
  let retries := due_retry_tasks db tenant_id now in
  for_each retries (promote_due_retry now) ;;
  mret (length retries).

Definition fail_overdue_task (now : datetime) (t : EngagementTask) : OrchTx unit :=
  let id := task_id (spec t) in
  t ← row id;
  let from_status := status (state t) in
  save id [set_status TaskStatus.FAILED; set_completed_at (Some now); set_lease_owner None;
           set_lease_expires_at None; set_available_at None;
           set_error_class (Some "deadline_exceeded"); set_last_error (Some OVERDUE_MESSAGE)] ;;
  (if decide (from_status = TaskStatus.RUNNING)
   then finish_attempt id "failed" now
          (mkFinish (Some "deadline_exceeded") (Some OVERDUE_MESSAGE) None [])
   else mret tt) ;;
  record_task_transition id from_status TaskStatus.FAILED "deadline_exceeded" now [].

Definition fail_overdue_tasks (tenant_id : string) (now : datetime) : OrchTx nat :=
  db ← gets (λ db, db);
  let overdue := overdue_nonterminal_tasks db tenant_id now in
  for_each overdue (fail_overdue_task now) ;;
  mret (length overdue).

Record TickReport := mkTickReport {
  expired_leases : nat;
  overdue_tasks : nat;
  promoted_retries : nat;
  reconciled_engagements : nat
}.

Definition tick (tenant_id : string) (now : datetime) : OrchTx TickReport :=
  expired ← recover_expired_leases tenant_id now;
  overdue ← fail_overdue_tasks tenant_id now;
  promoted ← promote_due_retries tenant_id now;
  db ← gets (λ db, db);
  let active := list_active_engagements db tenant_id in
  for_each active (λ e, reconcile_engagement (eng_tenant_id e) (engagement_id e) now) ;;
  mret (mkTickReport expired overdue promoted (length active)).

(** ** Engagements *)

Definition compile_workflow (tenant_id id : string) (w : WorkflowDefinition) (now : datetime)
    : OrchTx EngagementSnapshot :=
  _ ← require_engagement tenant_id id;
  rows ← compile tenant_id id w now;
  for_each rows (λ task, record_task_created task now) ;;
  record "orchestration.workflow.compiled" tenant_id (Some id) None "engagement" id
    [("workflow_version", JStr (workflow_version w));
     ("task_count", JInt (Z.of_nat (length rows)));
     ("metadata", JObj (wf_metadata w))] now ;;
  snapshot tenant_id id.

Definition start_engagement (tenant_id id : string) (now : datetime)
    : OrchTx EngagementSnapshot :=
  e ← require_engagement tenant_id id;
  require (bool_decide (eng_status e = EngagementStatus.PLANNED))
    (Orch InvalidStateTransitionError) ;;
  db ← gets (λ db, db);
  require (negb (bool_decide (list_tasks db tenant_id id = [])))
    (Orch InvalidStateTransitionError) ;;
  save_engagement id (set_eng_started_at (Some now)) ;;
  transition_engagement id EngagementStatus.RUNNING "engagement_started" now [] ;;
  reconcile_engagement tenant_id id now ;;
  snapshot tenant_id id.

Definition cancel_task (actor reason : string) (now : datetime) (t : EngagementTask)
    : OrchTx unit :=
  let id := task_id (spec t) in
  let from_status := status (state t) in
  if decide (from_status ∈ TERMINAL_TASK_STATUSES) then mret tt
  else
    save id [set_status TaskStatus.CANCELLED; set_lease_owner None; set_lease_expires_at None;
             set_available_at None; set_completed_at (Some now);
             set_error_class (Some "engagement_cancelled"); set_last_error (Some reason)] ;;
    (if decide (from_status = TaskStatus.RUNNING)
     then finish_attempt id "cancelled" now
            (mkFinish (Some "engagement_cancelled") (Some reason) None [])
     else mret tt) ;;
    record_task_transition id from_status TaskStatus.CANCELLED "engagement_cancelled" now
      [("actor_id", JStr actor); ("decision_reason", JStr reason)].

Definition cancel_engagement (tenant_id id actor reason : string) (now : datetime)
    : OrchTx EngagementSnapshot :=
  require (negb (blank reason)) (Py ValueError) ;;
  e ← require_engagement tenant_id id;
  require (negb (bool_decide (eng_status e ∈
             [EngagementStatus.COMPLETED; EngagementStatus.CANCELLED])))
    (Orch InvalidStateTransitionError) ;;
  db ← gets (λ db, db);
  for_each (list_tasks db tenant_id id) (cancel_task actor reason now) ;;
  save_engagement id (set_eng_completed_at (Some now)) ;;
  transition_engagement id EngagementStatus.CANCELLED "cancelled_by_user" now
    [("actor_id", JStr actor); ("decision_reason", JStr reason)] ;;
  snapshot tenant_id id.

Definition list_attempts (tenant_id : string) (engagement_id task_id : option string)
    : OrchTx (list TaskAttempt) :=
  require (negb (bool_decide (engagement_id = None ∧ task_id = None))) (Py ValueError) ;;
  gets (λ db, repo_list_attempts db tenant_id engagement_id task_id).

(** ** Execution *)

Definition claim_next (tenant_id worker_id : string) (lease_seconds : Z)
    (engagement_id : option string) (task_types agent_roles : option (list string))
    (now : datetime) : OrchTx (option TaskLease) :=
  require (0 <? lease_seconds) (Py ValueError) ;;
  claimed ← repo_claim_next tenant_id worker_id now lease_seconds engagement_id task_types
              agent_roles;
  match claimed with
  | None => mret None
  | Some id =>
      start_attempt id worker_id now ;;
      t ← row id;
      record_task_transition id TaskStatus.READY TaskStatus.RUNNING "worker_claimed" now
        [("worker_id", JStr worker_id);
         ("lease_expires_at",
           match lease_expires_at (state t) with Some e => JTime e | None => JNull end)] ;;
      lease ← from_res (lease_from_task t);
      mret (Some lease)
  end.

Definition heartbeat (tenant_id id worker_id : string) (lease_seconds : Z) (now : datetime)
    : OrchTx TaskLease :=
  require (0 <? lease_seconds) (Py ValueError) ;;
  extended ← extend_lease tenant_id id worker_id now lease_seconds;
  t ← some_or_raise (Orch LeaseConflictError) extended;
  update_attempt_lease tenant_id id (attempt_count (state t)) (lease_expires_at (state t)) ;;
  record "orchestration.task.heartbeat" tenant_id (Some (task_engagement_id (spec t))) (Some id)
    "task" id
    [("worker_id", JStr worker_id);
     ("lease_expires_at",
       match lease_expires_at (state t) with Some e => JTime e | None => JNull end);
     ("attempt_count", JInt (attempt_count (state t)))] now ;;
  from_res (lease_from_task t).

(** What [complete_task] assigns, with the status and the reason of the transition. *)
Definition completion (t : EngagementTask) (res : TaskExecutionResult) (now : datetime)
    : list (TaskState → TaskState) * TaskStatus * string :=
  let done := [set_output_refs (res_output_refs res); set_result (Some (res_result res));
               set_lease_owner None; set_lease_expires_at None; set_error_class None;
               set_last_error None] in
  if truthy (human_gate (spec t)) && gate_position_is (execution_policy (spec t)) "after"
  then (done ++ [set_status TaskStatus.WAITING_APPROVAL; set_review_status (Some "pending")],
        TaskStatus.WAITING_APPROVAL, "post_execution_gate_required")
  else (done ++ [set_status TaskStatus.SUCCEEDED; set_completed_at (Some now)],
        TaskStatus.SUCCEEDED, "execution_succeeded").

Definition complete_task (tenant_id id worker_id : string) (res : TaskExecutionResult)
    (now : datetime) : OrchTx EngagementSnapshot :=
  t ← require_task tenant_id id;
  require_lease t worker_id now ;;
  let '(changes, to_status, reason) := completion t res now in
  save id changes ;;
  finish_attempt id "succeeded" now
    (mkFinish None None (Some (res_result res)) (res_output_refs res)) ;;
  record_task_transition id (status (state t)) to_status reason now
    [("output_refs", JList (map JStr (res_output_refs res)))] ;;
  reconcile_and_snapshot tenant_id (task_engagement_id (spec t)) now.

Definition fail_task (tenant_id id worker_id : string) (failure_class : FailureClass)
    (message : string) (force_retryable : option bool) (now : datetime)
    : OrchTx EngagementSnapshot :=
  t ← require_task tenant_id id;
  require_lease t worker_id now ;;
  apply_failure id failure_class message now force_retryable ;;
  t ← row id;
  finish_attempt id
    (if decide (status (state t) = TaskStatus.RETRY_WAIT) then "retry_scheduled" else "failed")
    now (mkFinish (Some (value failure_class)) (Some message) None []) ;;
  reconcile_and_snapshot tenant_id (task_engagement_id (spec t)) now.

(** ** Human decisions *)

(** What [_decide_gate] assigns, with the status and the reason of the transition. *)
Definition gate_outcome (t : EngagementTask) (decision : GateDecision) (approved : bool)
    (now : datetime) : list (TaskState → TaskState) * TaskStatus * string :=
  let review :=
    [set_review_status (Some (if approved then "approved" else "rejected"));
     set_error_class (if approved then None else Some (value FailureClass.HUMAN_REJECTED));
     set_last_error (if approved then None else Some (decision_reason decision))] in
  if approved then
    if gate_position_is (execution_policy (spec t)) "before"
    then (review ++ [set_status TaskStatus.READY], TaskStatus.READY, "human_gate_approved")
    else (review ++ [set_status TaskStatus.SUCCEEDED; set_completed_at (Some now)],
          TaskStatus.SUCCEEDED, "human_gate_approved")
  else (review ++ [set_status TaskStatus.FAILED; set_completed_at (Some now)],
        TaskStatus.FAILED, "human_gate_rejected").

Definition decide_gate (tenant_id id : string) (decision : GateDecision) (approved : bool)
    (now : datetime) : OrchTx EngagementSnapshot :=
  t ← require_task tenant_id id;
  require (bool_decide (status (state t) = TaskStatus.WAITING_APPROVAL) &&
           truthy (human_gate (spec t))) (Orch InvalidStateTransitionError) ;;
  let '(changes, to_status, reason) := gate_outcome t decision approved now in
  save id changes ;;
  record_task_transition id TaskStatus.WAITING_APPROVAL to_status reason now
    [("gate", opt_json (human_gate (spec t)));
     ("gate_position",
       default (JStr "before")
         (dict_get "human_gate_position" (policy_fields (execution_policy (spec t)))));
     ("actor_id", JStr (actor_id decision));
     ("decision_reason", JStr (decision_reason decision))] ;;
  reconcile_and_snapshot tenant_id (task_engagement_id (spec t)) now.

Definition approve_gate (tenant_id id : string) (decision : GateDecision) (now : datetime) :=
  decide_gate tenant_id id decision true now.
Definition reject_gate (tenant_id id : string) (decision : GateDecision) (now : datetime) :=
  decide_gate tenant_id id decision false now.

Definition force_retry_task (tenant_id id actor reason : string) (now : datetime)
    : OrchTx EngagementSnapshot :=
  require (negb (blank reason)) (Py ValueError) ;;
  t ← require_task tenant_id id;
  let current := status (state t) in
  require (bool_decide (current ∈ [TaskStatus.FAILED; TaskStatus.BLOCKED; TaskStatus.RETRY_WAIT]))
    (Orch InvalidStateTransitionError) ;;
  save id [set_status TaskStatus.READY; set_available_at (Some now); set_completed_at None;
           set_lease_owner None; set_lease_expires_at None; set_error_class None;
           set_last_error None; set_review_status None] ;;
  record_task_transition id current TaskStatus.READY "administrative_retry" now
    [("actor_id", JStr actor); ("decision_reason", JStr reason)] ;;
  e ← require_engagement tenant_id (task_engagement_id (spec t));
  save_engagement (engagement_id e) (set_eng_completed_at None) ;;
  reconcile_engagement tenant_id (task_engagement_id (spec t)) now ;;
  snapshot tenant_id (task_engagement_id (spec t)).

Definition force_skip_task (tenant_id id actor reason : string) (now : datetime)
    : OrchTx EngagementSnapshot :=
  require (negb (blank reason)) (Py ValueError) ;;
  t ← require_task tenant_id id;
  let current := status (state t) in
  require (negb (bool_decide (current ∈
             [TaskStatus.SUCCEEDED; TaskStatus.SKIPPED; TaskStatus.CANCELLED])))
    (Orch InvalidStateTransitionError) ;;
  (if decide (current = TaskStatus.RUNNING)
   then finish_attempt id "cancelled" now
          (mkFinish (Some "administrative_skip") (Some reason) None [])
   else mret tt) ;;
  save id [set_status TaskStatus.SKIPPED; set_completed_at (Some now); set_available_at None;
           set_lease_owner None; set_lease_expires_at None; set_error_class None;
           set_last_error None] ;;
  record_task_transition id current TaskStatus.SKIPPED "administrative_skip" now
    [("actor_id", JStr actor); ("decision_reason", JStr reason)] ;;
  reconcile_and_snapshot tenant_id (task_engagement_id (spec t)) now.
End orchestrator.
