(* ===== verification/OrchMachine.v ===== *)
(** * Orchestration: the abstract workflow machine

    The contract of the orchestrator as a transition system: a step changes one task or
    one engagement at a time, under the guard its reason stands for, and records the
    change in the audit ledger and the outbox in the same step.  [own_step] is of the
    orchestrator alone, at an instant; in [db_step] the clients beside it move too.
    OrchRefinement.v proves that every public operation that commits is a
    sequence of such steps; the invariants of OrchInvariants.v are then proved
    once, on the machine. *)

From S2P Require Import Prelude PyFloat PyTime Ledger OrchDefs OrchStore OrchCompiler Orchestrator.
Local Open Scope Z_scope.

(** ** Guards *)

(** Every prerequisite of the task has reached one of the statuses its
    dependency allows. *)
Definition deps_ok (db : OrchDB) (t : EngagementTask) : Prop :=
  ∀ d, d ∈ dependencies db → dep_task_id d = task_id (spec t) →
    dep_tenant_id d = task_tenant_id (spec t) →
    ∃ t', tasks db !! depends_on_task_id d = Some t' ∧
      value (status (state t')) ∈ default ["succeeded"; "skipped"] (condition_allowed_statuses d).

Definition dep_failed (db : OrchDB) (t : EngagementTask) : Prop :=
  ∃ d t', d ∈ dependencies db ∧ dep_task_id d = task_id (spec t) ∧
    dep_tenant_id d = task_tenant_id (spec t) ∧ tasks db !! depends_on_task_id d = Some t' ∧ status (state t') ∈ FAILURE_TASK_STATUSES.

Definition gated (position : string) (t : EngagementTask) : Prop :=
  truthy (human_gate (spec t)) = true ∧ gate_position_is (execution_policy (spec t)) position = true.

Definition lease_kept (s s' : TaskState) : Prop :=
  lease_owner s' = lease_owner s ∧ lease_expires_at s' = lease_expires_at s.
Definition lease_released (s' : TaskState) : Prop :=
  lease_owner s' = None ∧ lease_expires_at s' = None.

(** [task_move db now t s' reason]: the task [t] may move to the state [s'] for
    [reason]; the constructors say what each reason requires and what becomes of
    the lease and of the review. *)
Inductive task_move (db : OrchDB) (now : datetime) (t : EngagementTask) (s' : TaskState)
    : string → Prop :=
  | move_ready :
      status (state t) = TaskStatus.PENDING → status s' = TaskStatus.READY →
      deps_ok db t → (gated "before" t → review_status (state t) = Some "approved") →
      lease_kept (state t) s' → review_status s' = review_status (state t) →
      task_move db now t s' "dependencies_satisfied"
  | move_before_gate :
      status (state t) = TaskStatus.PENDING → status s' = TaskStatus.WAITING_APPROVAL →
      deps_ok db t → gated "before" t → lease_kept (state t) s' →
      review_status s' = Some "pending" →
      task_move db now t s' "pre_execution_gate_required"
  | move_pending_overdue :
      status (state t) = TaskStatus.PENDING → status s' = TaskStatus.FAILED →
      due (deadline_at (spec t)) now → lease_kept (state t) s' →
      review_status s' = review_status (state t) →
      task_move db now t s' "deadline_exceeded"
  | move_blocked :
      status (state t) = TaskStatus.PENDING → status s' = TaskStatus.BLOCKED →
      dep_failed db t → lease_kept (state t) s' → review_status s' = review_status (state t) →
      task_move db now t s' "dependency_failed"
  | move_claimed worker expires :
      status (state t) = TaskStatus.READY → status s' = TaskStatus.RUNNING →
      available (state t) now = true → now < expires →
      lease_owner s' = Some worker → lease_expires_at s' = Some expires →
      review_status s' = review_status (state t) →
      task_move db now t s' "worker_claimed"
  | move_succeeded :
      status (state t) = TaskStatus.RUNNING → status s' = TaskStatus.SUCCEEDED →
      ¬ due (lease_expires_at (state t)) now → ¬ gated "after" t → lease_released s' →
      review_status s' = review_status (state t) →
      task_move db now t s' "execution_succeeded"
  | move_after_gate :
      status (state t) = TaskStatus.RUNNING → status s' = TaskStatus.WAITING_APPROVAL →
      ¬ due (lease_expires_at (state t)) now → gated "after" t → lease_released s' →
      review_status s' = Some "pending" →
      task_move db now t s' "post_execution_gate_required"
  | move_retry_wait :
      status (state t) = TaskStatus.RUNNING → status s' = TaskStatus.RETRY_WAIT →
      attempt_count (state t) < max_attempts (retry_policy_of (execution_policy (spec t))) →
      ¬ due (deadline_at (spec t)) now → lease_released s' →
      review_status s' = review_status (state t) →
      task_move db now t s' "retry_scheduled"
  | move_failed :
      status (state t) = TaskStatus.RUNNING → status s' = TaskStatus.FAILED →
      lease_released s' → review_status s' = review_status (state t) →
      task_move db now t s' "execution_failed"
  | move_retry :
      status (state t) = TaskStatus.RETRY_WAIT → status s' = TaskStatus.READY →
      due (available_at (state t)) now → lease_kept (state t) s' →
      review_status s' = review_status (state t) →
      task_move db now t s' "retry_delay_elapsed"
  | move_overdue :
      status (state t) ∉ TERMINAL_TASK_STATUSES → status s' = TaskStatus.FAILED →
      due (deadline_at (spec t)) now → lease_released s' →
      review_status s' = review_status (state t) →
      task_move db now t s' "deadline_exceeded"
  | move_approved_before :
      status (state t) = TaskStatus.WAITING_APPROVAL → status s' = TaskStatus.READY →
      gated "before" t → lease_kept (state t) s' → review_status s' = Some "approved" →
      task_move db now t s' "human_gate_approved"
  | move_approved_after :
      status (state t) = TaskStatus.WAITING_APPROVAL → status s' = TaskStatus.SUCCEEDED →
      ¬ gated "before" t → lease_kept (state t) s' → review_status s' = Some "approved" →
      task_move db now t s' "human_gate_approved"
  | move_rejected :
      status (state t) = TaskStatus.WAITING_APPROVAL → status s' = TaskStatus.FAILED →
      lease_kept (state t) s' → review_status s' = Some "rejected" →
      task_move db now t s' "human_gate_rejected"
  | move_cancelled :
      status (state t) ∉ TERMINAL_TASK_STATUSES → status s' = TaskStatus.CANCELLED →
      lease_released s' → review_status s' = review_status (state t) →
      task_move db now t s' "engagement_cancelled"
  | move_admin_retry :
      status (state t) ∈ [TaskStatus.FAILED; TaskStatus.BLOCKED; TaskStatus.RETRY_WAIT] →
      status s' = TaskStatus.READY → lease_released s' → review_status s' = None →
      task_move db now t s' "administrative_retry"
  | move_admin_skip :
      status (state t) ∉ [TaskStatus.SUCCEEDED; TaskStatus.SKIPPED; TaskStatus.CANCELLED] →
      status s' = TaskStatus.SKIPPED → lease_released s' →
      review_status s' = review_status (state t) →
      task_move db now t s' "administrative_skip".

(** ** Attempts *)

(** Leaving RUNNING closes the attempt that is open. *)
Definition finish_row (tenant id : string) (no : Z) (new_status : string) (now : datetime)
    (expires : option datetime) (f : Finish) (a : TaskAttempt) : TaskAttempt :=
  if decide (att_tenant_id a = tenant ∧ att_task_id a = id ∧ attempt_no a = no ∧
             att_status a = "running")
  then mkTaskAttempt (attempt_id a) (att_tenant_id a) (att_engagement_id a) (att_task_id a)
         (attempt_no a) (att_worker_id a) new_status (att_started_at a) (Some now) expires
         (fin_failure_class f) (fin_error_message f) (fin_result f) (fin_output_refs f) (trace_id a)
  else a.

(** A heartbeat moves the expiry of the attempt that is open. *)
Definition extend_row (t : EngagementTask) (expires : datetime) (a : TaskAttempt) : TaskAttempt :=
  if decide (att_tenant_id a = task_tenant_id (spec t) ∧ att_task_id a = task_id (spec t) ∧
             attempt_no a = attempt_count (state t) ∧ att_status a = "running")
  then mkTaskAttempt (attempt_id a) (att_tenant_id a) (att_engagement_id a) (att_task_id a)
         (attempt_no a) (att_worker_id a) (att_status a) (att_started_at a) (att_completed_at a)
         (Some expires) (att_failure_class a) (att_error_message a) (att_result a)
         (att_output_refs a) (trace_id a)
  else a.

Lemma extend_row_view t expires a :
  att_task_id (extend_row t expires a) = att_task_id a ∧
  att_tenant_id (extend_row t expires a) = att_tenant_id a ∧
  attempt_no (extend_row t expires a) = attempt_no a ∧
  att_status (extend_row t expires a) = att_status a.
Proof. unfold extend_row. by case_decide. Qed.

(** The attempt rows after a task moves: a claim starts one, and leaving RUNNING
    closes the one that is open. *)
Definition attempts_moved (now : datetime) (t : EngagementTask) (s' : TaskState)
    (l l' : list TaskAttempt) : Prop :=
  if decide (status s' = TaskStatus.RUNNING) then
    ∃ a, l' = l ++ [a] ∧ att_tenant_id a = task_tenant_id (spec t) ∧
      att_engagement_id a = task_engagement_id (spec t) ∧
      att_task_id a = task_id (spec t) ∧
      attempt_no a = attempt_count s' ∧ att_status a = "running"
  else if decide (status (state t) = TaskStatus.RUNNING) then
    ∃ st expires f, st ≠ "running" ∧
      l' = map (finish_row (task_tenant_id (spec t)) (task_id (spec t)) (attempt_count (state t))
                  st now expires f) l
  else l' = l.

(** ** Steps *)

Section machine.
Context `{UuidSource}.

(** The event of a task transition. *)
Definition transition_event (t : EngagementTask) (s' : TaskState) (reason : string)
    (now : datetime) (e : AuditEvent) : Prop :=
  ev_event_type e = TASK_TRANSITIONED ∧ ev_tenant_id e = task_tenant_id (spec t) ∧
  ev_engagement_id e = Some (task_engagement_id (spec t)) ∧ ev_task_id e = Some (task_id (spec t)) ∧
  ev_occurred_at e = now ∧
  dict_get "task_key" (ev_payload e) = Some (JStr (task_key (spec t))) ∧
  dict_get "from_status" (ev_payload e) = Some (JStr (value (status (state t)))) ∧
  dict_get "to_status" (ev_payload e) = Some (JStr (value (status s'))) ∧
  dict_get "reason" (ev_payload e) = Some (JStr reason) ∧
  dict_get "attempt_count" (ev_payload e) = Some (JInt (attempt_count s')).

Definition engagement_event (g : Engagement) (target : EngagementStatus) (now : datetime)
    (e : AuditEvent) : Prop :=
  ev_event_type e = ENGAGEMENT_TRANSITIONED ∧ ev_tenant_id e = eng_tenant_id g ∧
  ev_engagement_id e = Some (engagement_id g) ∧ ev_task_id e = None ∧ ev_occurred_at e = now ∧
  dict_get "from_status" (ev_payload e) = Some (JStr (value (eng_status g))) ∧
  dict_get "to_status" (ev_payload e) = Some (JStr (value target)).

Definition created_event (t : EngagementTask) (now : datetime) (e : AuditEvent) : Prop :=
  ev_event_type e = TASK_CREATED ∧ ev_tenant_id e = task_tenant_id (spec t) ∧
  ev_engagement_id e = Some (task_engagement_id (spec t)) ∧ ev_task_id e = Some (task_id (spec t)) ∧
  ev_occurred_at e = now ∧
  dict_get "task_key" (ev_payload e) = Some (JStr (task_key (spec t))) ∧
  dict_get "status" (ev_payload e) = Some (JStr (value (status (state t)))).

(** The event of a heartbeat names the worker that holds the task and the new
    expiry of its lease. *)
Definition heartbeat_event (t : EngagementTask) (expires now : datetime) (e : AuditEvent) : Prop :=
  ev_event_type e = "orchestration.task.heartbeat" ∧ ev_tenant_id e = task_tenant_id (spec t) ∧
  ev_engagement_id e = Some (task_engagement_id (spec t)) ∧ ev_task_id e = Some (task_id (spec t)) ∧
  ev_occurred_at e = now ∧
  (∃ worker, lease_owner (state t) = Some worker ∧
     dict_get "worker_id" (ev_payload e) = Some (JStr worker)) ∧
  dict_get "lease_expires_at" (ev_payload e) = Some (JStr (isoformat expires)) ∧
  dict_get "attempt_count" (ev_payload e) = Some (JInt (attempt_count (state t))).

(** The event that closes a compilation counts the tasks it made. *)
Definition compiled_event (tenant_id engagement_id : string) (made : nat) (now : datetime)
    (e : AuditEvent) : Prop :=
  ev_event_type e = "orchestration.workflow.compiled" ∧ ev_tenant_id e = tenant_id ∧
  ev_engagement_id e = Some engagement_id ∧ ev_task_id e = None ∧ ev_occurred_at e = now ∧
  dict_get "task_count" (ev_payload e) = Some (JInt (Z.of_nat made)).

(** The three types of event a replay interprets. *)
Definition state_event (e : AuditEvent) : Prop :=
  ev_event_type e ∈ [TASK_CREATED; TASK_TRANSITIONED; ENGAGEMENT_TRANSITIONED].

Lemma heartbeat_quiet t expires now e : heartbeat_event t expires now e → ¬ state_event e.
Proof.
  intros (E & _). unfold state_event. rewrite E.
  unfold TASK_CREATED, TASK_TRANSITIONED, ENGAGEMENT_TRANSITIONED. set_solver.
Qed.
Lemma compiled_quiet ten id n now e : compiled_event ten id n now e → ¬ state_event e.
Proof.
  intros (E & _). unfold state_event. rewrite E.
  unfold TASK_CREATED, TASK_TRANSITIONED, ENGAGEMENT_TRANSITIONED. set_solver.
Qed.

(** Appending a list of events one by one. *)
Inductive logs_all : Ledger → Ledger → list AuditEvent → Prop :=
  | logs_none l : logs_all l l []
  | logs_cons l1 l2 l3 e es : logs l1 l2 e → logs_all l2 l3 es → logs_all l1 l3 (e :: es).

(** The ledger may change under other components: identifiers are drawn, the
    clock advances, other events are recorded and the outbox is dispatched. *)
Record ledger_env (l l' : Ledger) : Prop := {
  env_audit : ∃ rows, audit_events l' = audit_events l ++ rows ∧
    Forall (λ r, ¬ state_event (row_event r)) rows;
  env_numbered : numbered l → numbered l';
  env_keys : keys_drawn l → keys_drawn l';
  env_outbox : ∀ t k, Exists (has_key t k) (outbox_events l) → Exists (has_key t k) (outbox_events l')
}.

(** The orchestrator itself, beside what it records, only draws identifiers. *)
Definition ledger_drawn (l l' : Ledger) : Prop :=
  audit_events l' = audit_events l ∧ outbox_events l' = outbox_events l ∧
  (uuids_drawn l ≤ uuids_drawn l')%N ∧ wall_clock l' = wall_clock l.

(** What may happen to the ledger beside the recorded events; [others] says whether
    the other components take part. *)
Definition ledger_beside (others : bool) (l l' : Ledger) : Prop :=
  if others then ledger_env l l' else ledger_drawn l l'.

(** The columns of an engagement no operation changes. *)
Definition eng_columns (g : Engagement) :=
  (engagement_id g, eng_tenant_id g, template_id g, code g, title g, audit_pack_ref g,
   period_start g, period_end g, scope_version g, scope_json g, eng_created_at g).

(** The row of a task as the compiler writes it. *)
Definition compiled (tenant_id engagement_id : string) (t : EngagementTask) : Prop :=
  task_tenant_id (spec t) = tenant_id ∧ task_engagement_id (spec t) = engagement_id ∧
  task_id (spec t) ≠ "" ∧
  state t = mkTaskState TaskStatus.PENDING 0 None None None None None [] None None None None.

(** A step at the instant [now].  With [others = false] it is a step of the
    orchestrator: the last two constructors, which stand for the scheduler or a
    client creating an engagement and for the rest of the system writing to the
    ledger, are then closed, up to drawing identifiers. *)
Inductive machine_step (others : bool) (now : datetime) (db db' : OrchDB) : Prop :=
  | step_task id t s' reason e
      (Ht : tasks db !! id = Some t)
      (Hmove : task_move db now t s' reason)
      (Hcount : attempt_count s' =
        attempt_count (state t) + (if decide (status s' = TaskStatus.RUNNING) then 1 else 0))
      (Htasks : tasks db' = <[id := set_state s' t]> (tasks db))
      (Heng : engagements db' = engagements db)
      (Hdeps : dependencies db' = dependencies db)
      (Hatt : attempts_moved now t s' (attempts db) (attempts db'))
      (Hlog : logs (ledger db) (ledger db') e)
      (Hev : transition_event t s' reason now e)
  | step_lease id t s' expires e
      (Ht : tasks db !! id = Some t)
      (Hrun : status (state t) = TaskStatus.RUNNING)
      (Hlive : ¬ due (lease_expires_at (state t)) now)
      (Hs' : now < expires ∧ s' = set_lease_expires_at (Some expires) (state t))
      (Htasks : tasks db' = <[id := set_state s' t]> (tasks db))
      (Heng : engagements db' = engagements db)
      (Hdeps : dependencies db' = dependencies db)
      (Hatt : attempts db' = map (extend_row t expires) (attempts db))
      (Hlog : logs (ledger db) (ledger db') e)
      (Hev : heartbeat_event t expires now e)
  | step_engagement id g g' e
      (Hg : engagements db !! id = Some g)
      (Hne : eng_status g' ≠ eng_status g)
      (Hsame : engagement_id g' = engagement_id g ∧ eng_tenant_id g' = eng_tenant_id g)
      (Hopen : eng_status g ≠ EngagementStatus.CANCELLED)
      (Hfixed : eng_columns g' = eng_columns g ∧ eng_status g' ≠ EngagementStatus.PLANNED)
      (Htasks : tasks db' = tasks db)
      (Heng : engagements db' = <[id := g']> (engagements db))
      (Hdeps : dependencies db' = dependencies db)
      (Hatt : attempts db' = attempts db)
      (Hlog : logs (ledger db) (ledger db') e)
      (Hev : engagement_event g (eng_status g') now e)
  | step_touch id g g'
      (Hg : engagements db !! id = Some g)
      (Hsame : engagement_id g' = engagement_id g ∧ eng_tenant_id g' = eng_tenant_id g ∧
         eng_status g' = eng_status g)
      (Hfixed : eng_columns g' = eng_columns g)
      (Htasks : tasks db' = tasks db)
      (Heng : engagements db' = <[id := g']> (engagements db))
      (Hdeps : dependencies db' = dependencies db)
      (Hatt : attempts db' = attempts db)
      (Hled : ledger db' = ledger db)
  | step_compile tenant_id id (new : list EngagementTask) new_deps l1 es e
      (Hid : is_Some (get_engagement db tenant_id id))
      (Hcompiled : Forall (compiled tenant_id id) new)
      (Hfresh : ∀ t, t ∈ new → tasks db !! task_id (spec t) = None)
      (Hnodup : NoDup (map (λ t, task_id (spec t)) new))
      (Htasks : tasks db' = foldr (λ t m, <[task_id (spec t) := t]> m) (tasks db) new)
      (Heng : engagements db' = engagements db)
      (Hdeps : dependencies db' = dependencies db ++ new_deps)
      (Hnew : ∀ d, d ∈ new_deps → dep_tenant_id d = tenant_id ∧
         dep_task_id d ∈ map (λ t, task_id (spec t)) new ∧
         depends_on_task_id d ∈ map (λ t, task_id (spec t)) new ∧
         ∃ l, condition_allowed_statuses d = Some l ∧ l ⊆ ["succeeded"; "skipped"])
      (Hatt : attempts db' = attempts db)
      (Hlog : logs_all l1 (ledger db') (es ++ [e]))
      (Henv : ledger_beside others (ledger db) l1)
      (Hes : Forall2 (λ t e, created_event t now e) new es)
      (He : compiled_event tenant_id id (length new) now e)
  | step_create id g
      (Hg : engagements db !! id = None)
      (Hrow : engagement_id g = id ∧ eng_status g = EngagementStatus.PLANNED)
      (Htasks : tasks db' = tasks db)
      (Heng : engagements db' = <[id := g]> (engagements db))
      (Hdeps : dependencies db' = dependencies db)
      (Hatt : attempts db' = attempts db)
      (Hled : ledger db' = ledger db)
      (Hothers : others = true)
  | step_env
      (Htasks : tasks db' = tasks db)
      (Heng : engagements db' = engagements db)
      (Hdeps : dependencies db' = dependencies db)
      (Hatt : attempts db' = attempts db)
      (Henv : ledger_beside others (ledger db) (ledger db')).

(** The steps of the whole system, at any instant, and the steps an operation of
    the orchestrator takes at the instant it is called. *)
Definition own_step (now : datetime) : relation OrchDB := machine_step false now.
Definition step (db db' : OrchDB) : Prop := ∃ now, machine_step true now db db'.
End machine.

Abbreviation db_step := (machine_step true).
