(* ===== verification/OrchRefinement.v ===== *)
(** * Orchestration: the operations refine the machine

    Every public operation of the orchestrator that commits is a sequence of
    steps of the machine of OrchMachine.v, and so is every history of operations,
    of engagements being created and of other components changing the ledger. *)

From S2P Require Import Prelude PyFloat PyTime Ledger OrchDefs OrchStore OrchCompiler Orchestrator OrchMachine.
Local Open Scope Z_scope.

(** ** What the primitives of the orchestrator do *)

Section primitives.
Context `{UuidSource}.

Lemma ledger_env_refl l : ledger_env l l.
Proof. split; [exists []; by rewrite app_nil_r|done..]. Qed.

Lemma ledger_env_trans l1 l2 l3 : ledger_env l1 l2 → ledger_env l2 l3 → ledger_env l1 l3.
Proof.
  intros [(r1 & E1 & F1) ? ? ?] [(r2 & E2 & F2) ? ? ?]. split; [|by auto..].
  exists (r1 ++ r2). split; [by rewrite E2, E1, app_assoc|]. by apply Forall_app.
Qed.

Lemma ledger_env_draw l :
  ledger_env l (mkLedger (audit_events l) (outbox_events l) (uuids_drawn l + 1) (wall_clock l)).
Proof.
  split; [exists []; by rewrite app_nil_r|done| |done].
  intros Hk o n Ho Hn. apply Hk; [done|]. simpl in Hn. lia.
Qed.

Lemma ledger_drawn_refl l : ledger_drawn l l.
Proof. by split_and!. Qed.

Lemma ledger_drawn_trans l1 l2 l3 : ledger_drawn l1 l2 → ledger_drawn l2 l3 → ledger_drawn l1 l3.
Proof. intros (? & ? & ? & ?) (? & ? & ? & ?). split_and!; [congruence..|lia|congruence]. Qed.

Lemma ledger_drawn_one l :
  ledger_drawn l (mkLedger (audit_events l) (outbox_events l) (uuids_drawn l + 1) (wall_clock l)).
Proof. split_and!; [done..| |done]. simpl. lia. Qed.

Lemma ledger_drawn_env l l' : ledger_drawn l l' → ledger_env l l'.
Proof.
  intros (Ha & Ho & Hu & _). split.
  - exists []. by rewrite app_nil_r.
  - intros Hn t s. unfold stream_rows. rewrite Ha. apply Hn.
  - intros Hk o n Hin Hn. rewrite Ho in Hin. apply Hk; [done|lia].
  - intros t k. by rewrite Ho.
Qed.

Lemma ledger_env_logs l l' e : logs l l' e → ¬ state_event e → ledger_env l l'.
Proof.
  intros Hl He. pose proof (logs_numbered _ _ _ Hl). pose proof (logs_keys_drawn _ _ _ Hl).
  destruct Hl as [_ Ha (o & Ho & _) _ _]. split; [|done..|].
  - rewrite Ha. eexists. split; [done|]. by apply Forall_singleton.
  - intros t k Hex. rewrite Ho. apply Exists_app. by left.
Qed.

Lemma heartbeat_env t expires now l l' e :
  heartbeat_event t expires now e → logs l l' e → ledger_env l l'.
Proof. intros He Hl. eapply ledger_env_logs; [exact Hl|by eapply heartbeat_quiet]. Qed.

Lemma save_Ok id changes db u db' :
  save id changes db = Ok (u, db') →
  db' = set_tasks (alter (λ t, set_state (assign changes (state t)) t) id (tasks db)) db.
Proof. intros E. by apply modify_Ok in E. Qed.

Lemma save_engagement_Ok id f db u db' :
  save_engagement id f db = Ok (u, db') → db' = set_engagements (alter f id (engagements db)) db.
Proof. intros E. by apply modify_Ok in E. Qed.

Lemma row_Ok id db t db' : row id db = Ok (t, db') → tasks db !! id = Some t ∧ db' = db.
Proof. unfold row. intros E. by inv_tx. Qed.

Lemma require_task_Ok tenant id db t db' :
  require_task tenant id db = Ok (t, db') →
  tasks db !! id = Some t ∧ task_tenant_id (spec t) = tenant ∧ db' = db.
Proof.
  unfold require_task, get_task. intros E. inv_tx.
  match goal with E : _ ≫= _ = Some _ |- _ =>
    apply bind_Some in E as (? & ? & (? & ?)%bind_Some) end.
  case_guard; naive_solver.
Qed.

Lemma get_engagement_Some db tenant id e :
  get_engagement db tenant id = Some e ↔ engagements db !! id = Some e ∧ eng_tenant_id e = tenant.
Proof.
  unfold get_engagement. rewrite bind_Some. split.
  - intros (e' & He & Hg). apply bind_Some in Hg as (? & ? & ?). case_guard; naive_solver.
  - intros [He Ht]. exists e. split; [done|]. by rewrite option_guard_True.
Qed.

Lemma require_engagement_Ok tenant id db e db' :
  require_engagement tenant id db = Ok (e, db') →
  engagements db !! id = Some e ∧ eng_tenant_id e = tenant ∧ db' = db.
Proof.
  unfold require_engagement. intros E. inv_tx.
  match goal with E : get_engagement _ _ _ = Some _ |- _ =>
    apply get_engagement_Some in E as [??] end. done.
Qed.

Lemma snapshot_reads tenant id : reads_only (snapshot tenant id).
Proof.
  intros db a db' E. unfold snapshot in E. inv_tx.
  by match goal with E : require_engagement _ _ _ = _ |- _ =>
    apply require_engagement_Ok in E as (_ & _ & ->) end.
Qed.

Lemma record_Ok ty tenant eng task aty aid pl now db u db' :
  record ty tenant eng task aty aid pl now db = Ok (u, db') →
  ∃ l' id, db' = set_ledger l' db ∧
    logs (ledger db) l' (mkAuditEvent id ty tenant eng task now (dict_safe pl)).
Proof.
  unfold record. intros E. inv_tx.
  repeat match goal with
  | E : new_event_id _ = _ |- _ => apply new_event_id_Ok in E as [-> ->]
  | E : append _ _ = _ |- _ => apply append_Ok in E as (Ha & Ho & Hu & Hw)
  | E : outbox_add _ _ _ _ _ _ _ = _ |- _ =>
      apply outbox_add_Ok in E as (Hf & Ha' & (o & Ho' & Hk & Hty & Hpl) & Hu' & Hw')
  end.
  simpl in *. eexists _, _. split; [done|]. split; simpl.
  - done.
  - by rewrite Ha', Ha.
  - exists o. by rewrite Ho', Ho.
  - rewrite Hu', Hu. lia.
  - by rewrite Hw', Hw.
Qed.

Lemma finish_attempt_Ok id st now f db u db' :
  finish_attempt id st now f db = Ok (u, db') →
  ∃ t, tasks db !! id = Some t ∧
    db' = set_attempts (map (finish_row (task_tenant_id (spec t)) id (attempt_count (state t)) st
                               now (lease_expires_at (state t)) f) (attempts db)) db.
Proof.
  unfold finish_attempt. intros E. inv_tx.
  match goal with E : row _ _ = _ |- _ => apply row_Ok in E as [? ->] end.
  by eexists.
Qed.

Lemma start_attempt_Ok id worker now db u db' :
  start_attempt id worker now db = Ok (u, db') →
  ∃ t a l', tasks db !! id = Some t ∧
    db' = set_attempts (attempts db ++ [a]) (set_ledger l' db) ∧ ledger_drawn (ledger db) l' ∧
    audit_events l' = audit_events (ledger db) ∧
    att_tenant_id a = task_tenant_id (spec t) ∧
    att_engagement_id a = task_engagement_id (spec t) ∧ att_task_id a = id ∧
    attempt_no a = attempt_count (state t) ∧ att_status a = "running".
Proof.
  unfold start_attempt, fresh_id. intros E. inv_tx.
  match goal with E : row _ _ = _ |- _ => apply row_Ok in E as [? ->] end.
  match goal with E : new_id _ _ = _ |- _ => apply new_id_Ok in E as [-> ->] end.
  eexists _, _, _. split; [done|]. split; [done|]. split; [apply ledger_drawn_one|]. done.
Qed.
End primitives.

(** ** Transitions of one task *)

Lemma alter_Some {A} (f : A → A) (m : gmap string A) i x :
  m !! i = Some x → alter f i m = <[i := f x]> m.
Proof.
  intros Hi. apply map_eq. intros j. destruct (decide (i = j)) as [->|].
  - by rewrite lookup_alter_eq, lookup_insert_eq, Hi.
  - by rewrite lookup_alter_ne, lookup_insert_ne.
Qed.

(** Rows are stored under their primary keys. *)
Record wf (db : OrchDB) : Prop := {
  wf_tasks_id : ∀ id t, tasks db !! id = Some t → task_id (spec t) = id;
  wf_engagements_id : ∀ id e, engagements db !! id = Some e → engagement_id e = id
}.

(** The keys of a payload [extra] must not redefine. *)
Definition free_of (reserved : list string) (extra : dict) : bool :=
  forallb (λ k, bool_decide (k ∉ extra.*1)) reserved.
Definition reserved_keys : list string :=
  ["task_key"; "from_status"; "to_status"; "reason"; "attempt_count"].

#[global] Arguments free_of : simpl never.

Lemma free_of_elem reserved extra k :
  free_of reserved extra = true → k ∈ reserved → k ∉ extra.*1.
Proof. unfold free_of. rewrite forallb_decide. auto. Qed.

Section moves.
Context `{UuidSource}.

Lemma record_task_transition_Ok id from to reason now extra db u db' t :
  record_task_transition id from to reason now extra db = Ok (u, db') →
  tasks db !! id = Some t → task_id (spec t) = id → free_of reserved_keys extra = true →
  ∃ l' e, db' = set_ledger l' db ∧ logs (ledger db) l' e ∧
    ∀ t0, spec t0 = spec t → status (state t0) = from → status (state t) = to →
      transition_event t0 (state t) reason now e.
Proof.
  unfold record_task_transition. intros E Ht Hid Hfree. inv_tx.
  match goal with E : row _ _ = _ |- _ => apply row_Ok in E as [Ht' ->] end.
  rewrite Ht in Ht'. injection Ht' as <-.
  apply record_Ok in E as (l' & eid & -> & Hlog).
  eexists _, _. split; [done|]. split; [exact Hlog|].
  intros t0 Hs <- <-. unfold transition_event. rewrite Hs. simpl.
  assert (Hget : ∀ k, k ∈ reserved_keys → ∀ d, dict_get k (dict_update d extra) = dict_get k d).
  { intros k Hk d. apply dict_get_update_ne. by eapply free_of_elem. }
  split_and!; try done; rewrite dict_get_safe, Hget; try done;
    unfold reserved_keys; set_solver.
Qed.

(** Assigning to a row and recording the transition, with the attempts changed
    in between, is one step of the machine. *)
Lemma moved_step now db id t changes reason from to extra atts1 atts2 u db' :
  wf db → tasks db !! id = Some t →
  let s' := assign changes (state t) in
  record_task_transition id from to reason now extra
    (set_attempts atts1 (set_tasks (<[id := set_state s' t]> (tasks db)) db)) = Ok (u, db') →
  free_of reserved_keys extra = true →
  status (state t) = from → status s' = to → task_move db now t s' reason →
  attempt_count s' =
    attempt_count (state t) + (if decide (status s' = TaskStatus.RUNNING) then 1 else 0) →
  attempts_moved now t s' (attempts db) atts2 →
  ∃ l', db' = set_ledger l' (set_attempts atts1 (set_tasks (<[id := set_state s' t]> (tasks db)) db)) ∧
    own_step now db (set_attempts atts2 db').
Proof.
  intros Hwf Ht s' E Hfree Hfrom Hto Hmove Hcount Hatt.
  destruct (record_task_transition_Ok _ _ _ _ _ _ _ _ _ (set_state s' t) E) as (l' & e & -> & Hlog & Hev);
    [apply lookup_insert_eq|exact (wf_tasks_id _ Hwf _ _ Ht)|done|].
  exists l'. split; [done|]. eapply (step_task _ now db _ id t s' reason e); eauto.
Qed.
End moves.

(** ** The pieces of the operations *)

Definition changed (id : string) (changes : list (TaskState → TaskState)) (db : OrchDB) : OrchDB :=
  set_tasks (alter (λ t, set_state (assign changes (state t)) t) id (tasks db)) db.

Lemma changed_eq id t changes db :
  tasks db !! id = Some t →
  changed id changes db = set_tasks (<[id := set_state (assign changes (state t)) t]> (tasks db)) db.
Proof. intros Ht. unfold changed. by rewrite (alter_Some _ _ _ _ Ht). Qed.

Lemma save_changed id changes db u db' :
  save id changes db = Ok (u, db') → db' = changed id changes db.
Proof. apply save_Ok. Qed.

(** Splits an execution into what its statements did. *)
Ltac prim :=
  repeat (inv_tx_step || match goal with
  | E : save _ _ _ = Ok (_, _) |- _ => apply save_changed in E as ->
  | E : save_engagement _ _ _ = Ok (_, _) |- _ => apply save_engagement_Ok in E as ->
  | E : row _ _ = Ok (_, _) |- _ => apply row_Ok in E as [? ->]
  | E : require_task _ _ _ = Ok (_, _) |- _ => apply require_task_Ok in E as (? & ? & ->)
  | E : require_engagement _ _ _ = Ok (_, _) |- _ => apply require_engagement_Ok in E as (? & ? & ->)
  | E : finish_attempt _ _ _ _ _ = Ok (_, _) |- _ =>
      let t := fresh "t" in apply finish_attempt_Ok in E as (t & ? & ->)
  | E : snapshot _ _ _ = Ok (_, _) |- _ => apply snapshot_reads in E as ->
  end; simplify_eq/=).

Section pieces.
Context `{UuidSource}.

(** One step that touches at most the task [id]. *)
Definition task_step (now : datetime) (id : string) (db db' : OrchDB) : Prop :=
  own_step now db db' ∧ (∀ id', id' ≠ id → tasks db' !! id' = tasks db !! id') ∧
  dependencies db' = dependencies db ∧ engagements db' = engagements db.

(** One move of a task whose attempts change from [atts1] when the event is
    recorded to [atts2] at the end. *)
Lemma moved_task_step now db id t changes reason from to extra atts1 atts2 u db' :
  wf db → tasks db !! id = Some t →
  let s' := assign changes (state t) in
  record_task_transition id from to reason now extra
    (set_attempts atts1 (set_tasks (<[id := set_state s' t]> (tasks db)) db)) = Ok (u, db') →
  free_of reserved_keys extra = true →
  status (state t) = from → status s' = to → task_move db now t s' reason →
  attempt_count s' =
    attempt_count (state t) + (if decide (status s' = TaskStatus.RUNNING) then 1 else 0) →
  attempts_moved now t s' (attempts db) atts2 →
  task_step now id db (set_attempts atts2 db') ∧ attempts db' = atts1 ∧
  tasks db' = <[id := set_state s' t]> (tasks db).
Proof.
  intros Hwf Ht s' E Hfree Hfrom Hto Hmove Hcount Hatt.
  destruct (moved_step _ _ _ _ _ _ _ _ _ _ _ _ _ Hwf Ht E Hfree Hfrom Hto Hmove Hcount Hatt)
    as (l' & -> & Hstep).
  split; [|done]. split; [done|]. split; [|done]. intros id' Hne. simpl. by rewrite lookup_insert_ne.
Qed.

Lemma set_attempts_id db : set_attempts (attempts db) db = db.
Proof. by destruct db. Qed.

(** The clock of a deadline that has not passed. *)
Lemma not_due_deadline o now :
  match o with Some d => now <? d | None => true end = true → ¬ due o now.
Proof. unfold due. destruct o; [|tauto]. intros ?%Z.ltb_lt. lia. Qed.
Lemma due_deadline o now :
  match o with Some d => d <=? now | None => false end = true → due o now.
Proof. unfold due. destruct o; [|done]. by intros ?%Z.leb_le. Qed.

Lemma lease_matches_inv t worker now :
  lease_matches t worker now = true →
  status (state t) = TaskStatus.RUNNING ∧ lease_owner (state t) = Some worker ∧
  ∃ expires, lease_expires_at (state t) = Some expires ∧ now < expires.
Proof.
  unfold lease_matches. rewrite !andb_true_iff, !bool_decide_eq_true. intros [[? ?] He].
  destruct (lease_expires_at (state t)) as [expires|]; [|done].
  split_and!; [done..|]. exists expires. split; [done|]. by apply Z.ltb_lt.
Qed.

(** A move of a task that is neither started nor stopped by it. *)
Lemma plain_step now db id t changes reason from to extra u db' :
  wf db → tasks db !! id = Some t →
  record_task_transition id from to reason now extra (changed id changes db) = Ok (u, db') →
  let s' := assign changes (state t) in
  free_of reserved_keys extra = true → status (state t) = from → status s' = to →
  from ≠ TaskStatus.RUNNING → to ≠ TaskStatus.RUNNING →
  attempt_count s' = attempt_count (state t) → task_move db now t s' reason →
  task_step now id db db'.
Proof.
  intros Hwf Ht E s' Hfree Hfrom Hto Hr1 Hr2 Hcount Hmove. subst from to.
  rewrite (changed_eq _ _ _ _ Ht), <- (set_attempts_id (set_tasks _ _)) in E. simpl in E.
  eapply moved_task_step with (atts2 := attempts db) in E as (Hs & Ha & _); try done.
  - by rewrite <- Ha, set_attempts_id in Hs.
  - fold s'. rewrite decide_False by done. lia.
  - unfold attempts_moved. fold s'. by rewrite !decide_False.
Qed.

(** Moves of a running task: the attempt is closed after the event or before it. *)
Lemma leave_record_finish now db id t changes reason from to extra st f u1 db1 u2 db2 :
  wf db → tasks db !! id = Some t →
  record_task_transition id from to reason now extra (changed id changes db) = Ok (u1, db1) →
  finish_attempt id st now f db1 = Ok (u2, db2) →
  let s' := assign changes (state t) in
  free_of reserved_keys extra = true → status (state t) = from → status s' = to →
  from = TaskStatus.RUNNING → to ≠ TaskStatus.RUNNING → st ≠ "running" →
  attempt_count s' = attempt_count (state t) → task_move db now t s' reason →
  task_step now id db db2.
Proof.
  intros Hwf Ht E1 E2 s' Hfree Hfrom Hto Hr1 Hr2 Hst Hcount Hmove. subst to.
  pose proof (wf_tasks_id _ Hwf _ _ Ht) as Hid. subst id.
  rewrite (changed_eq _ _ _ _ Ht), <- (set_attempts_id (set_tasks _ _)) in E1. simpl in E1.
  apply finish_attempt_Ok in E2 as (t2 & Ht2 & ->).
  eapply moved_task_step with (atts2 := map (finish_row (task_tenant_id (spec t)) (task_id (spec t))
    (attempt_count s') st now (lease_expires_at s') f) (attempts db)) in E1 as (Hs & Ha & Htasks); try done.
  - rewrite Htasks, lookup_insert_eq in Ht2. injection Ht2 as <-. rewrite Ha. exact Hs.
  - fold s'. rewrite decide_False by done. lia.
  - unfold attempts_moved. fold s'. rewrite decide_False, decide_True by congruence.
    exists st, (lease_expires_at s'), f. split; [done|]. by rewrite Hcount.
Qed.

Lemma leave_finish_record now db id t changes reason from to extra st f u1 db1 u2 db2 :
  wf db → tasks db !! id = Some t →
  finish_attempt id st now f (changed id changes db) = Ok (u1, db1) →
  record_task_transition id from to reason now extra db1 = Ok (u2, db2) →
  let s' := assign changes (state t) in
  free_of reserved_keys extra = true → status (state t) = from → status s' = to →
  from = TaskStatus.RUNNING → to ≠ TaskStatus.RUNNING → st ≠ "running" →
  attempt_count s' = attempt_count (state t) → task_move db now t s' reason →
  task_step now id db db2.
Proof.
  intros Hwf Ht E1 E2 s' Hfree Hfrom Hto Hr1 Hr2 Hst Hcount Hmove. subst to.
  pose proof (wf_tasks_id _ Hwf _ _ Ht) as Hid. subst id.
  rewrite (changed_eq _ _ _ _ Ht) in E1. apply finish_attempt_Ok in E1 as (t1 & Ht1 & ->).
  simpl in Ht1. rewrite lookup_insert_eq in Ht1. injection Ht1 as <-.
  eapply moved_task_step with (atts2 := map (finish_row (task_tenant_id (spec t)) (task_id (spec t))
    (attempt_count s') st now (lease_expires_at s') f) (attempts db)) in E2 as (Hs & Ha & _); try done.
  - rewrite <- (set_attempts_id db2), Ha. exact Hs.
  - fold s'. rewrite decide_False by done. lia.
  - unfold attempts_moved. fold s'. rewrite decide_False, decide_True by congruence.
    exists st, (lease_expires_at s'), f. split; [done|]. by rewrite Hcount.
Qed.
End pieces.

(** ** The moves the operations make *)

Section operations.
Context `{UuidSource}.

Ltac move_facts :=
  try done; try (by vm_compute); try congruence.

(** [_apply_failure], then the end of the attempt. *)
Lemma failure_step now db id t class message force st f u1 db1 u2 db2 :
  wf db → tasks db !! id = Some t → status (state t) = TaskStatus.RUNNING → st ≠ "running" →
  apply_failure id class message now force db = Ok (u1, db1) →
  finish_attempt id st now f db1 = Ok (u2, db2) →
  task_step now id db db2.
Proof.
  intros Hwf Ht Hrun Hst E1 E2. unfold apply_failure in E1.
  apply tx_bind_Ok in E1 as (t' & s1 & Er & E1). apply row_Ok in Er as [Ht' ->].
  rewrite Ht in Ht'. injection Ht' as <-.
  case_match eqn:Hc.
  - apply andb_true_iff in Hc as [[Hr Hb]%andb_true_iff Hd].
    apply tx_bind_Ok in E1 as (delay & ? & [? ->]%from_res_Ok & E1).
    apply tx_bind_Ok in E1 as (wait & ? & [? ->]%from_res_Ok & E1).
    apply tx_bind_Ok in E1 as (avail & ? & [? ->]%from_res_Ok & E1).
    apply tx_bind_Ok in E1 as ([] & ? & ->%save_changed & E1).
    eapply leave_record_finish; try exact E1; try exact E2; move_facts.
    eapply move_retry_wait; move_facts; [by apply Z.ltb_lt|by apply not_due_deadline].
  - apply tx_bind_Ok in E1 as ([] & ? & ->%save_changed & E1).
    eapply leave_record_finish; try exact E1; try exact E2; move_facts.
    eapply move_failed; move_facts.
Qed.

Lemma promote_step now db t u db' :
  wf db → tasks db !! task_id (spec t) = Some t →
  status (state t) = TaskStatus.RETRY_WAIT → due (available_at (state t)) now →
  promote_due_retry now t db = Ok (u, db') → task_step now (task_id (spec t)) db db'.
Proof.
  intros Hwf Ht Hst Hdue E. unfold promote_due_retry in E.
  apply tx_bind_Ok in E as ([] & ? & ->%save_changed & E).
  eapply plain_step; try exact E; move_facts. by apply move_retry.
Qed.

Lemma overdue_step now db t u db' :
  wf db → tasks db !! task_id (spec t) = Some t →
  status (state t) ∉ TERMINAL_TASK_STATUSES → due (deadline_at (spec t)) now →
  fail_overdue_task now t db = Ok (u, db') → task_step now (task_id (spec t)) db db'.
Proof.
  intros Hwf Ht Hst Hdue E. unfold fail_overdue_task in E.
  apply tx_bind_Ok in E as (t' & s1 & Er & E). apply row_Ok in Er as [Ht' ->].
  rewrite Ht in Ht'. injection Ht' as <-.
  apply tx_bind_Ok in E as ([] & ? & ->%save_changed & E).
  apply tx_bind_Ok in E as ([] & db1 & Ef & E). case_decide as Hrun.
  - eapply leave_finish_record; try exact Ef; try exact E; move_facts. by apply move_overdue.
  - apply tx_ret_Ok in Ef as [_ ->]. eapply plain_step; try exact E; move_facts.
    by apply move_overdue.
Qed.

Lemma cancel_step now actor reason db t u db' :
  wf db → tasks db !! task_id (spec t) = Some t →
  cancel_task actor reason now t db = Ok (u, db') →
  db' = db ∨ task_step now (task_id (spec t)) db db'.
Proof.
  intros Hwf Ht E. unfold cancel_task in E. case_decide as Hterm.
  { left. by apply tx_ret_Ok in E as [_ ->]. }
  right. apply tx_bind_Ok in E as ([] & ? & ->%save_changed & E).
  apply tx_bind_Ok in E as ([] & db1 & Ef & E). case_decide as Hrun.
  - eapply leave_finish_record; try exact Ef; try exact E; move_facts. by apply move_cancelled.
  - apply tx_ret_Ok in Ef as [_ ->]. eapply plain_step; try exact E; move_facts.
    by apply move_cancelled.
Qed.

Lemma completion_step now db id t res st f reason to changes extra u1 db1 u2 db2 :
  wf db → tasks db !! id = Some t → status (state t) = TaskStatus.RUNNING →
  ¬ due (lease_expires_at (state t)) now → st ≠ "running" →
  completion t res now = (changes, to, reason) →
  finish_attempt id st now f (changed id changes db) = Ok (u1, db1) →
  record_task_transition id (status (state t)) to reason now extra db1 = Ok (u2, db2) →
  free_of reserved_keys extra = true → task_step now id db db2.
Proof.
  intros Hwf Ht Hrun Hlive Hst Hc E1 E2 Hfree. unfold completion in Hc.
  case_match eqn:Hg; injection Hc as <- <- <-.
  - apply andb_true_iff in Hg as [Hg1 Hg2].
    eapply leave_finish_record; try exact E1; try exact E2; move_facts.
    by apply move_after_gate.
  - eapply leave_finish_record; try exact E1; try exact E2; move_facts.
    apply move_succeeded; move_facts. intros [Hg1 Hg2]. by rewrite Hg1, Hg2 in Hg.
Qed.

Lemma gate_step now db id t decision approved reason to changes extra u db' :
  wf db → tasks db !! id = Some t → status (state t) = TaskStatus.WAITING_APPROVAL →
  truthy (human_gate (spec t)) = true →
  gate_outcome t decision approved now = (changes, to, reason) →
  record_task_transition id TaskStatus.WAITING_APPROVAL to reason now extra
    (changed id changes db) = Ok (u, db') →
  free_of reserved_keys extra = true → task_step now id db db'.
Proof.
  intros Hwf Ht Hw Hgate Hc E Hfree. unfold gate_outcome in Hc.
  repeat case_match; simplify_eq; eapply plain_step; try exact E; move_facts.
  - by apply move_approved_before.
  - apply move_approved_after; move_facts. intros [_ ?]; congruence.
  - by apply move_rejected.
Qed.
End operations.

(** ** Sequences of steps *)

Section steps.
Context `{UuidSource}.

Definition steps : relation OrchDB := rtc step.
(** What one call of an operation does at the instant [now]. *)
Definition own_steps (now : datetime) : relation OrchDB := rtc (own_step now).

Lemma steps_one now db db' : db_step now db db' → steps db db'.
Proof. intros Hs. apply rtc_once. by exists now. Qed.

Lemma own_steps_one now db db' : own_step now db db' → own_steps now db db'.
Proof. apply rtc_once. Qed.

(** A step of the orchestrator is a step of the system. *)
Lemma own_step_step now db db' : own_step now db db' → db_step now db db'.
Proof.
  destruct 1; [by eapply step_task|by eapply step_lease|by eapply step_engagement|by eapply step_touch| |done|].
  - eapply step_compile; try done. by apply ledger_drawn_env.
  - apply step_env; try done. by apply ledger_drawn_env.
Qed.

Lemma own_steps_steps now db db' : own_steps now db db' → steps db db'.
Proof. intros Hs. eapply rtc_subrel; [|exact Hs]. intros db1 db2 H1. exists now. by apply own_step_step. Qed.

(** What no step changes: where rows are stored, and what their specification
    is; a step may only add tasks. *)
Definition spec_kept (db db' : OrchDB) : Prop :=
  ∀ id t, tasks db !! id = Some t → ∃ t', tasks db' !! id = Some t' ∧ spec t' = spec t.

Lemma lookup_new_tasks (new : list EngagementTask) (m : gmap string EngagementTask) id t :
  foldr (λ t m, <[task_id (spec t) := t]> m) m new !! id = Some t →
  m !! id = Some t ∨ t ∈ new ∧ task_id (spec t) = id.
Proof.
  induction new as [|u new IH]; simpl; [by left|].
  destruct (decide (task_id (spec u) = id)) as [<-|].
  - rewrite lookup_insert_eq. intros [= ->]. right. split; [left|done].
  - rewrite lookup_insert_ne by done. intros [?|[? ?]]%IH; [by left|right; by split; [right|]].
Qed.

Lemma lookup_old_tasks (new : list EngagementTask) (m : gmap string EngagementTask) id t :
  (∀ u, u ∈ new → m !! task_id (spec u) = None) → m !! id = Some t →
  foldr (λ t m, <[task_id (spec t) := t]> m) m new !! id = Some t.
Proof.
  induction new as [|u new IH]; simpl; intros Hf Ht; [done|].
  rewrite lookup_insert_ne; [apply IH; [|done]; intros; apply Hf; by right|].
  intros <-. rewrite Hf in Ht; [done|left].
Qed.

Lemma lookup_added_task (new : list EngagementTask) (m : gmap string EngagementTask) t :
  NoDup (map (λ t, task_id (spec t)) new) → t ∈ new →
  foldr (λ t m, <[task_id (spec t) := t]> m) m new !! task_id (spec t) = Some t.
Proof.
  induction new as [|u new IH]; simpl; [by intros _ ?%elem_of_nil|].
  intros [Hu Hnd]%NoDup_cons [->|Ht]%elem_of_cons; [apply lookup_insert_eq|].
  rewrite lookup_insert_ne; [by apply IH|]. intros Heq. apply Hu. rewrite Heq.
  by apply (list_elem_of_fmap_2 (λ t, task_id (spec t))).
Qed.

Lemma wf_step {others} now db db' : machine_step others now db db' → wf db → wf db'.
Proof.
  intros Hs [Wt We]. split; intros i x Hx; destruct Hs;
    repeat match goal with
    | Hq : tasks db' = _ |- _ => rewrite Hq in Hx
    | Hq : engagements db' = _ |- _ => rewrite Hq in Hx
    end; eauto.
  - apply lookup_insert_Some in Hx as [[<- <-]|[_ Hx]]; simpl; eauto.
  - apply lookup_insert_Some in Hx as [[<- <-]|[_ Hx]]; simpl; eauto.
  - apply lookup_new_tasks in Hx as [Hx|[_ Hx]]; eauto.
  - apply lookup_insert_Some in Hx as [[<- <-]|[_ Hx]]; [|eauto].
    destruct Hsame as [-> _]. eauto.
  - apply lookup_insert_Some in Hx as [[<- <-]|[_ Hx]]; [|eauto].
    destruct Hsame as [-> _]. eauto.
  - apply lookup_insert_Some in Hx as [[<- <-]|[_ Hx]]; [|eauto]. by destruct Hrow as [-> _].
Qed.

Lemma spec_kept_step {others} now db db' : machine_step others now db db' → spec_kept db db'.
Proof.
  intros Hs i x Hx; destruct Hs; rewrite Htasks; eauto.
  - destruct (decide (id = i)) as [->|]; [|rewrite lookup_insert_ne by done; eauto].
    rewrite lookup_insert_eq. eexists. split; [done|]. simpl. congruence.
  - destruct (decide (id = i)) as [->|]; [|rewrite lookup_insert_ne by done; eauto].
    rewrite lookup_insert_eq. eexists. split; [done|]. simpl. congruence.
  - exists x. split; [|done]. by apply lookup_old_tasks.
Qed.

Lemma wf_steps db db' : steps db db' → wf db → wf db'.
Proof. induction 1 as [|db1 db2 db3 [now Hs] _ IH]; eauto using wf_step. Qed.

Lemma own_steps_wf now db db' : own_steps now db db' → wf db → wf db'.
Proof. intros Hs. apply wf_steps. by eapply own_steps_steps. Qed.

Lemma spec_kept_steps db db' : steps db db' → spec_kept db db'.
Proof.
  induction 1 as [db|db1 db2 db3 [now Hs] _ IH]; [intros id t Ht; eauto|].
  intros id t Ht. apply (spec_kept_step _ _ _ Hs) in Ht as (t2 & Ht2 & Hsp).
  apply IH in Ht2 as (t3 & ? & ?). exists t3. split; congruence.
Qed.

(** A loop over rows read before it starts, whose body moves only the row it is
    given. *)
Lemma for_each_rows now (body : EngagementTask → OrchTx unit) (l : list EngagementTask) db u db' :
  (∀ t db u db', t ∈ l → wf db → tasks db !! task_id (spec t) = Some t →
     body t db = Ok (u, db') → db' = db ∨ task_step now (task_id (spec t)) db db') →
  NoDup (map (λ t, task_id (spec t)) l) →
  (∀ t, t ∈ l → tasks db !! task_id (spec t) = Some t) →
  wf db → for_each l body db = Ok (u, db') →
  own_steps now db db' ∧ engagements db' = engagements db.
Proof.
  revert db. induction l as [|t l IH]; intros db Hb Hnd Hl Hwf E; simpl in *.
  { apply tx_ret_Ok in E as [_ ->]. split; [apply rtc_refl|done]. }
  apply tx_bind_Ok in E as ([] & db1 & E1 & E). apply NoDup_cons in Hnd as [Ht Hnd].
  apply Hb in E1 as Hs; [|left|done|apply Hl; left].
  assert (Hkeep : ∀ t', t' ∈ l → tasks db1 !! task_id (spec t') = Some t').
  { intros t' Ht'. destruct Hs as [->|(_ & Hframe & _)]; [apply Hl; by right|].
    rewrite Hframe; [apply Hl; by right|]. intros Heq. apply Ht. rewrite <- Heq.
    by apply (list_elem_of_fmap_2 (λ t, task_id (spec t))). }
  assert (Hs1 : own_steps now db db1 ∧ engagements db1 = engagements db).
  { destruct Hs as [->|(Hs & _ & _ & He)]; [by split; [apply rtc_refl|]|].
    split; [by eapply own_steps_one|done]. }
  destruct Hs1 as [Hs1 <-].
  assert (Hrest : own_steps now db1 db' ∧ engagements db' = engagements db1).
  { eapply IH; eauto using own_steps_wf. intros t' ???? . apply Hb. by right. }
  destruct Hrest as [Hs2 ->]. split; [by etrans|done].
Qed.

(** Reads of the task table return rows of it, each once. *)
Lemma all_tasks_spec db :
  wf db → NoDup (map (λ t, task_id (spec t)) (all_tasks db)) ∧
  (∀ t, t ∈ all_tasks db ↔ tasks db !! task_id (spec t) = Some t).
Proof.
  intros [Hid _]. unfold all_tasks. split.
  - replace (map _ (map snd (map_to_list (tasks db)))) with (map_to_list (tasks db)).*1;
      [apply NoDup_fst_map_to_list|].
    rewrite map_map. apply list_fmap_ext. intros i [k t] Hi. simpl. symmetry. apply Hid.
    apply elem_of_map_to_list. by eapply list_elem_of_lookup_2.
  - intros t. rewrite list_elem_of_fmap. split.
    + intros ([k t'] & -> & Hk%elem_of_map_to_list). simpl. by rewrite (Hid _ _ Hk).
    + intros Ht. exists (task_id (spec t), t). split; [done|]. by apply elem_of_map_to_list.
Qed.

Lemma query_spec db (P : EngagementTask → Prop) `{!∀ t, Decision (P t)} c :
  wf db →
  let l := sort_by c (filter P (all_tasks db)) in
  NoDup (map (λ t, task_id (spec t)) l) ∧
  (∀ t, t ∈ l ↔ P t ∧ tasks db !! task_id (spec t) = Some t).
Proof.
  intros Hwf l. destruct (all_tasks_spec db Hwf) as [Hnd Hin]. split.
  - unfold l. rewrite sort_by_Permutation. by apply NoDup_map_filter.
  - intros t. unfold l. by rewrite elem_of_sort_by, list_elem_of_filter, Hin.
Qed.
End steps.

(** ** Reconciliation *)

Section reconciliation.
Context `{UuidSource}.

Lemma recorded_tasks id from to reason now extra db u db' :
  record_task_transition id from to reason now extra db = Ok (u, db') → tasks db' = tasks db.
Proof.
  unfold record_task_transition. intros E.
  apply tx_bind_Ok in E as (t & s1 & [Ht ->]%row_Ok & E). by apply record_Ok in E as (l' & id' & -> & _).
Qed.

Lemma dependency_rows_Ok ids deps db rows db' :
  dependency_rows ids deps db = Ok (rows, db') →
  db' = db ∧ Forall2 (λ d r, depends_on_task_id d ∈ ids ∧ tasks db !! depends_on_task_id d = Some r)
               deps rows.
Proof.
  unfold dependency_rows. apply tx_map_reads. intros d r s1 _ E.
  apply tx_bind_Ok in E as ([] & s2 & [Hd ->]%require_Ok & [? ->]%row_Ok).
  by rewrite bool_decide_eq_true in Hd.
Qed.

Lemma dependencies_satisfied_spec db deps :
  dependencies_satisfied db deps = true ↔
  ∀ d, d ∈ deps → ∃ t', tasks db !! depends_on_task_id d = Some t' ∧
    value (status (state t')) ∈ default ["succeeded"; "skipped"] (condition_allowed_statuses d).
Proof.
  induction deps as [|d deps IH]; simpl; [split; [by intros _ ? ?%elem_of_nil|done]|].
  split.
  - destruct (tasks db !! depends_on_task_id d) as [t'|] eqn:Ht; [|done].
    case_bool_decide as Hv; [|done]. intros Hs d' [->|Hd]%elem_of_cons; [by exists t'|].
    by apply IH.
  - intros Hall. destruct (Hall d) as (t' & -> & Hv); [left|]. rewrite bool_decide_true by done.
    apply IH. intros d' Hd. apply Hall. by right.
Qed.

(** A table of the dependencies of an engagement's tasks. *)
Definition dependency_table (tenant_id : string) (deps : list TaskDependency)
    (dm : string → list TaskDependency) (ids : list string) : Prop :=
  ∀ id, id ∈ ids → ∀ d,
    d ∈ dm id ↔ d ∈ deps ∧ dep_task_id d = id ∧ dep_tenant_id d = tenant_id.

(** The rows of one tenant. *)
Definition owned (db : OrchDB) (tenant_id : string) (ids : list string) : Prop :=
  ∀ id, id ∈ ids → ∃ t, tasks db !! id = Some t ∧ task_tenant_id (spec t) = tenant_id.

Lemma runnable_step now db t changes to reason u db' :
  wf db → tasks db !! task_id (spec t) = Some t → status (state t) = TaskStatus.PENDING →
  deps_ok db t → runnable_changes t now = (changes, to, reason) →
  record_task_transition (task_id (spec t)) TaskStatus.PENDING to reason now []
    (changed (task_id (spec t)) changes db) = Ok (u, db') →
  task_step now (task_id (spec t)) db db' ∧ status (assign changes (state t)) ≠ TaskStatus.PENDING.
Proof.
  intros Hwf Ht Hp Hok Hc E. unfold runnable_changes in Hc.
  assert (Hcase : ∀ changes reason to,
    record_task_transition (task_id (spec t)) TaskStatus.PENDING to reason now []
      (changed (task_id (spec t)) changes db) = Ok (u, db') →
    status (assign changes (state t)) = to → to ≠ TaskStatus.RUNNING → to ≠ TaskStatus.PENDING →
    attempt_count (assign changes (state t)) = attempt_count (state t) →
    task_move db now t (assign changes (state t)) reason →
    task_step now (task_id (spec t)) db db' ∧ status (assign changes (state t)) ≠ TaskStatus.PENDING).
  { intros changes' reason' to' E' <- ? ? ? ?. split; [|done]. by eapply plain_step. }
  destruct (match deadline_at (spec t) with Some d => d <=? now | None => false end) eqn:Hd;
    [|case_match eqn:Hg]; injection Hc as <- <- <-; apply (Hcase _ _ _ E); try done.
  - apply move_pending_overdue; try done. by apply due_deadline.
  - apply andb_true_iff in Hg as [[? ?]%andb_true_iff _]. by apply move_before_gate.
  - apply move_ready; try done. intros [Hg1 Hg2]. rewrite Hg1, Hg2 in Hg. simpl in Hg.
    by apply negb_false_iff, bool_decide_eq_true in Hg.
Qed.

(** One iteration either leaves the task alone or moves it out of PENDING. *)
Lemma reconcile_task_step tenant_id ids dm now id db b db' :
  wf db → id ∈ ids → owned db tenant_id ids → dependency_table tenant_id (dependencies db) dm ids →
  reconcile_task ids dm now id db = Ok (b, db') →
  b = false ∧ db' = db ∨
  b = true ∧ task_step now id db db' ∧
    ∃ t t', tasks db !! id = Some t ∧ status (state t) = TaskStatus.PENDING ∧
      tasks db' !! id = Some t' ∧ status (state t') ≠ TaskStatus.PENDING.
Proof.
  intros Hwf Hid Hown Hdm E. unfold reconcile_task in E.
  apply tx_bind_Ok in E as (t & s1 & [Ht ->]%row_Ok & E).
  destruct (Hown id Hid) as (t0 & Ht0 & Htenant). rewrite Ht in Ht0. injection Ht0 as <-.
  pose proof (wf_tasks_id _ Hwf _ _ Ht) as Hkey. subst id.
  case_bool_decide as Hp; simpl in E; [|left; by apply tx_ret_Ok in E as [-> ->]].
  apply tx_bind_Ok in E as (rows & s1 & [-> Hrows]%dependency_rows_Ok & E).
  assert (Hafter : ∀ changes reason to db',
    record_task_transition (task_id (spec t)) TaskStatus.PENDING to reason now []
      (changed (task_id (spec t)) changes db) = Ok (tt, db') →
    status (assign changes (state t)) ≠ TaskStatus.PENDING →
    ∃ t1 t', tasks db !! task_id (spec t) = Some t1 ∧ status (state t1) = TaskStatus.PENDING ∧
      tasks db' !! task_id (spec t) = Some t' ∧ status (state t') ≠ TaskStatus.PENDING).
  { intros changes reason to db2 Er Hne. exists t, (set_state (assign changes (state t)) t).
    split_and!; [done..| |done].
    rewrite (recorded_tasks _ _ _ _ _ _ _ _ _ Er), (changed_eq _ _ _ _ Ht). apply lookup_insert_eq. }
  case_match eqn:Hfail.
  - apply tx_bind_Ok in E as ([] & s1 & ->%save_changed & E).
    apply tx_bind_Ok in E as ([] & s2 & Er & [-> ->]%tx_ret_Ok).
    right. split; [done|]. split; [|by eapply Hafter].
    eapply plain_step; try exact Er; try done. apply move_blocked; try done.
    apply existsb_decide in Hfail as (r & Hr & Hst).
    apply list_elem_of_lookup in Hr as [i Hr].
    destruct (Forall2_lookup_r _ _ _ _ _ Hrows Hr) as (d & Hd & _ & Hrow).
    exists d, r. apply list_elem_of_lookup_2 in Hd. apply Hdm in Hd as (? & ? & ?); [|done].
    split_and!; [done..|congruence|done|done].
  - apply tx_bind_Ok in E as (db0 & s1 & [-> ->]%gets_Ok & E).
    destruct (dependencies_satisfied db (dm (task_id (spec t)))) eqn:Hsat; simpl in E;
      [|left; by apply tx_ret_Ok in E as [-> ->]].
    destruct (runnable_changes t now) as [[changes to] reason] eqn:Hc.
    apply tx_bind_Ok in E as ([] & s1 & ->%save_changed & E).
    apply tx_bind_Ok in E as ([] & s2 & Er & [-> ->]%tx_ret_Ok).
    right. split; [done|]. eapply runnable_step in Er as Hs; try done.
    + split; [apply Hs|]. eapply Hafter; [done|apply Hs].
    + intros d Hd Hdt Hten. eapply dependencies_satisfied_spec; [exact Hsat|].
      apply Hdm; [done|]. split_and!; [done..|congruence].
Qed.
End reconciliation.

(** *** The loop *)

Section loop.
Context `{UuidSource}.

Definition is_pending (db : OrchDB) (id : string) : Prop :=
  (λ t, status (state t)) <$> tasks db !! id = Some TaskStatus.PENDING.
#[export] Instance is_pending_dec db id : Decision (is_pending db id).
Proof. unfold is_pending. apply _. Defined.

(** Only pending tasks change. *)
Definition pending_only (db db' : OrchDB) : Prop :=
  ∀ id t, tasks db !! id = Some t → status (state t) ≠ TaskStatus.PENDING → tasks db' !! id = Some t.

Lemma pending_only_refl db : pending_only db db.
Proof. by intros id t. Qed.
Lemma pending_only_trans db1 db2 db3 :
  pending_only db1 db2 → pending_only db2 db3 → pending_only db1 db3.
Proof. intros H1 H2 id t Ht Hp. apply H2; auto. Qed.
Lemma pending_only_step now id db db' t :
  task_step now id db db' → tasks db !! id = Some t → status (state t) = TaskStatus.PENDING →
  pending_only db db'.
Proof.
  intros (_ & Hframe & _) Ht Hp i x Hx Hnp. rewrite Hframe; [done|]. intros ->. congruence.
Qed.

(** The number of pending tasks, which every iteration but the last decreases. *)
Definition pending_count (db : OrchDB) (ids : list string) : nat :=
  length (filter (is_pending db) ids).

Lemma never_row id : never (Py OutOfFuel) (row id).
Proof. unfold row. auto with tx. Qed.
Hint Resolve never_row : tx.

Lemma never_record ty tenant eng task aty aid pl now :
  never (Py OutOfFuel) (record ty tenant eng task aty aid pl now).
Proof.
  unfold record, new_event_id, append, outbox_add, new_id.
  repeat first [ apply never_bind; [|intros ?] | apply never_zoom | by apply never_require
               | apply never_modify | apply never_gets | apply never_ret | done ].
Qed.
Hint Resolve never_record : tx.

Lemma never_save id changes : never (Py OutOfFuel) (save id changes).
Proof. apply never_modify. Qed.
Hint Resolve never_save : tx.

Lemma never_transition id from to reason now extra :
  never (Py OutOfFuel) (record_task_transition id from to reason now extra).
Proof. unfold record_task_transition. auto with tx. Qed.
Hint Resolve never_transition : tx.

Lemma never_reconcile_task ids dm now id :
  never (Py OutOfFuel) (reconcile_task ids dm now id).
Proof.
  unfold reconcile_task, dependency_rows. apply never_bind; [auto with tx|]. intros t.
  case_match; [auto with tx|]. apply never_bind; [auto with tx|]. intros rows.
  case_match; [auto 10 with tx|]. apply never_bind; [auto with tx|]. intros db.
  case_match; [auto with tx|]. repeat case_match. auto 10 with tx.
Qed.

Lemma never_pass ids dm now l c :
  never (Py OutOfFuel) (reconcile_pass (reconcile_task ids dm now) l c).
Proof.
  revert c. induction l as [|id l IH]; intros c; simpl; [auto with tx|].
  apply never_bind; [apply never_reconcile_task|auto].
Qed.

Section engagement.
Context (tenant_id : string) (ids : list string) (dm : string → list TaskDependency)
  (now : datetime).

(** What the loop relies on. *)
Definition loop_ready (db : OrchDB) : Prop :=
  wf db ∧ owned db tenant_id ids ∧ dependency_table tenant_id (dependencies db) dm ids.

Lemma loop_ready_step id db db' : task_step now id db db' → loop_ready db → loop_ready db'.
Proof.
  intros (Hs & _ & Hd & _) (Hwf & Hown & Hdm). split; [by eapply wf_step|].
  split; [|by rewrite Hd]. intros i Hi. apply Hown in Hi as (t & Ht & Hten).
  apply (spec_kept_step _ _ _ Hs) in Ht as (t' & Ht' & Hsp). exists t'. split; congruence.
Qed.

Lemma pending_count_step id db db' t t' :
  id ∈ ids → task_step now id db db' →
  tasks db !! id = Some t → status (state t) = TaskStatus.PENDING →
  tasks db' !! id = Some t' → status (state t') ≠ TaskStatus.PENDING →
  (pending_count db' ids < pending_count db ids)%nat.
Proof.
  intros Hid (_ & Hframe & _) Ht Hp Ht' Hp'. apply filter_length_lt with (x := id); [|done|..].
  - intros y _. unfold is_pending. destruct (decide (y = id)) as [->|Hne].
    + rewrite Ht'. simpl. congruence.
    + by rewrite Hframe.
  - unfold is_pending. rewrite Ht. simpl. congruence.
  - unfold is_pending. rewrite Ht'. simpl. congruence.
Qed.

Lemma reconcile_pass_spec l changed db b db' :
  loop_ready db → (∀ id, id ∈ l → id ∈ ids) →
  reconcile_pass (reconcile_task ids dm now) l changed db = Ok (b, db') →
  own_steps now db db' ∧ loop_ready db' ∧ engagements db' = engagements db ∧ pending_only db db' ∧
  (b = changed ∧ db' = db ∨ b = true ∧ (pending_count db' ids < pending_count db ids)%nat).
Proof.
  revert changed db. induction l as [|id l IH]; intros c db Hready Hl E; simpl in E.
  { apply tx_ret_Ok in E as [-> ->]. split; [apply rtc_refl|]. auto 10 using pending_only_refl. }
  apply tx_bind_Ok in E as (b1 & db1 & E1 & E).
  assert (Hid : id ∈ ids) by (apply Hl; left).
  assert (Hl' : ∀ i, i ∈ l → i ∈ ids) by (intros; apply Hl; by right).
  pose proof Hready as (Hwf & Hown & Hdm).
  destruct (reconcile_task_step tenant_id ids dm now id db b1 db1)
    as [[-> ->]|(-> & Hs & t & t' & Ht & Hp & Ht' & Hp')]; try done.
  - rewrite orb_false_r in E. by apply IH in E.
  - rewrite orb_true_r in E.
    pose proof (pending_count_step id db db1 t t' Hid Hs Ht Hp Ht' Hp') as Hlt.
    apply IH in E as (Hst & Hr & He & Hpo & Hc); [|by eapply loop_ready_step|done].
    split; [|split; [done|split; [|split]]].
    + etrans; [eapply own_steps_one, Hs|done].
    + rewrite He. apply Hs.
    + eapply pending_only_trans; [by eapply pending_only_step|done].
    + right. destruct Hc as [[-> ->]|[-> ?]]; split; lia || done.
Qed.

Lemma reconcile_loop_spec fuel db u db' :
  loop_ready db → reconcile_loop fuel (reconcile_task ids dm now) ids db = Ok (u, db') →
  own_steps now db db' ∧ loop_ready db' ∧ engagements db' = engagements db ∧ pending_only db db' ∧
  reconcile_pass (reconcile_task ids dm now) ids false db' = Ok (false, db').
Proof.
  revert db. induction fuel as [|fuel IH]; intros db Hready E; simpl in E; [done|].
  apply tx_bind_Ok in E as (b & db1 & E1 & E).
  apply reconcile_pass_spec in E1 as Hp; [|done..]. destruct Hp as (Hs & Hr & He & Hpo & Hc).
  destruct b.
  - apply IH in E as (Hs2 & Hr2 & He2 & Hpo2 & Hfix); [|done].
    split; [by etrans|]. split; [done|]. split; [congruence|].
    split; [by eapply pending_only_trans|done].
  - apply tx_ret_Ok in E as [_ ->]. destruct Hc as [[_ ->]|[? _]]; done.
Qed.

(** The fuel is never used up. *)
Lemma reconcile_loop_total fuel db :
  loop_ready db → (pending_count db ids < fuel)%nat →
  reconcile_loop fuel (reconcile_task ids dm now) ids db ≠ Err (Py OutOfFuel).
Proof.
  revert db. induction fuel as [|fuel IH]; intros db Hready Hlt; [lia|]. simpl.
  unfold mbind at 1, tx_bind at 1.
  destruct (reconcile_pass _ ids false db) as [[b db1]|e] eqn:E1.
  - apply reconcile_pass_spec in E1 as (_ & Hr & _ & _ & Hc); [|done..]. destruct b; [|done].
    apply IH; [done|]. destruct Hc as [[? _]|[_ ?]]; [done|lia].
  - intros [= ->]. by apply (never_pass ids dm now ids false db).
Qed.
End engagement.
End loop.

(** *** An engagement *)

Section reconcile_engagement.
Context `{UuidSource}.

Lemma touch_steps now id f db :
  (∀ g, engagement_id (f g) = engagement_id g ∧ eng_tenant_id (f g) = eng_tenant_id g ∧
        eng_status (f g) = eng_status g) →
  (∀ g, eng_columns (f g) = eng_columns g) →
  own_steps now db (set_engagements (alter f id (engagements db)) db).
Proof.
  intros Hf Hc. destruct (engagements db !! id) as [g|] eqn:Hg.
  - rewrite (alter_Some _ _ _ _ Hg). apply own_steps_one.
    by eapply (step_touch _ now db _ id g (f g)).
  - replace (alter f id (engagements db)) with (engagements db);
      [destruct db; apply rtc_refl|].
    apply map_eq. intros i. destruct (decide (id = i)) as [<-|];
      [by rewrite lookup_alter_eq, Hg|by rewrite lookup_alter_ne].
Qed.

Definition reserved_engagement_keys : list string := ["from_status"; "to_status"; "reason"].

Lemma transition_engagement_steps id target reason now extra db u db' :
  wf db → (∀ g, engagements db !! id = Some g → eng_status g ≠ EngagementStatus.CANCELLED) →
  target ≠ EngagementStatus.PLANNED → free_of reserved_engagement_keys extra = true →
  transition_engagement id target reason now extra db = Ok (u, db') →
  own_steps now db db' ∧ tasks db' = tasks db ∧ dependencies db' = dependencies db.
Proof.
  intros Hwf Hopen Htarget Hfree E. unfold transition_engagement in E.
  apply tx_bind_Ok in E as (db0 & s1 & [-> ->]%gets_Ok & E).
  apply tx_bind_Ok in E as (g & s1 & [Hg ->]%some_or_raise_Ok & E).
  case_decide as Hst; [apply tx_ret_Ok in E as [_ ->]; split; [apply rtc_refl|done]|].
  apply tx_bind_Ok in E as ([] & s1 & ->%save_engagement_Ok & E).
  apply record_Ok in E as (l' & eid & -> & Hlog). split; [|done]. apply own_steps_one.
  pose proof (wf_engagements_id _ Hwf _ _ Hg) as Hid. subst id.
  rewrite (alter_Some _ _ _ _ Hg) in *.
  eapply (step_engagement _ now db _ (engagement_id g) g (set_eng_status target g));
    try done; [by apply Hopen|].
  assert (Hget : ∀ k, k ∈ reserved_engagement_keys → ∀ d, dict_get k (dict_update d extra) = dict_get k d).
  { intros k Hk d. apply dict_get_update_ne. by eapply free_of_elem. }
  unfold engagement_event. split_and!; try done; simpl; rewrite dict_get_safe, Hget; try done;
    unfold reserved_engagement_keys; set_solver.
Qed.

Lemma target_not_planned l : fst (target_status l) ≠ EngagementStatus.PLANNED.
Proof. unfold target_status. by repeat case_match. Qed.

Lemma reconcile_status_steps tenant_id id ids now db u db' :
  wf db → reconcile_engagement_status tenant_id id ids now db = Ok (u, db') →
  own_steps now db db' ∧ tasks db' = tasks db ∧ dependencies db' = dependencies db.
Proof.
  intros Hwf E. unfold reconcile_engagement_status in E.
  apply tx_bind_Ok in E as (db0 & s1 & [-> ->]%gets_Ok & E).
  apply tx_bind_Ok in E as (g & s1 & [Hg ->]%some_or_raise_Ok & E).
  case_bool_decide as Hst; [apply tx_ret_Ok in E as [_ ->]; split; [apply rtc_refl|done]|].
  apply tx_bind_Ok in E as (rows & s1 & Er & E).
  apply (tx_map_reads (λ _ _, True)) in Er as [-> _];
    [|by intros i t s2 _ [_ ->]%row_Ok].
  pose proof (target_not_planned (map (λ t, status (state t)) rows)) as Hnp.
  destruct (target_status _) as [target reason].
  apply tx_bind_Ok in E as ([] & db1 & Et & E).
  assert (Hs : own_steps now db db1 ∧ tasks db1 = tasks db ∧ dependencies db1 = dependencies db ∧
    ∀ g, engagements db1 !! id = Some g → eng_status g ≠ EngagementStatus.CANCELLED).
  { case_bool_decide.
    - apply save_engagement_Ok in Et as ->. split; [by apply touch_steps|].
      split; [done|]. split; [done|]. simpl. rewrite (alter_Some _ _ _ _ Hg), lookup_insert_eq.
      by intros g' [= <-].
    - apply tx_ret_Ok in Et as [_ ->]. split; [apply rtc_refl|].
      split; [done|]. split; [done|]. intros g'. rewrite Hg. by intros [= <-]. }
  destruct Hs as (Hs & Ht & Hd & Hopen).
  apply transition_engagement_steps in E as (Hs2 & Ht2 & Hd2); [|by eapply own_steps_wf|done..].
  split; [by etrans|]. split; congruence.
Qed.

Lemma list_tasks_spec db tenant_id id :
  wf db →
  NoDup (map (λ t, task_id (spec t)) (list_tasks db tenant_id id)) ∧
  ∀ t, t ∈ list_tasks db tenant_id id ↔
    (task_tenant_id (spec t) = tenant_id ∧ task_engagement_id (spec t) = id) ∧
    tasks db !! task_id (spec t) = Some t.
Proof. intros Hwf. apply (query_spec db _ task_cmp Hwf). Qed.

Definition task_ids (db : OrchDB) (tenant_id id : string) : list string :=
  map (λ t, task_id (spec t)) (list_tasks db tenant_id id).

Definition table_of (db : OrchDB) (tenant_id id : string) (task : string) : list TaskDependency :=
  filter (λ d, dep_task_id d = task) (list_dependencies db tenant_id id).

Lemma reconcile_ready db tenant_id id :
  wf db → loop_ready tenant_id (task_ids db tenant_id id) (table_of db tenant_id id) db.
Proof.
  intros Hwf. destruct (list_tasks_spec db tenant_id id Hwf) as [_ Hin].
  split; [done|]. split.
  - intros i (t & -> & Ht)%list_elem_of_fmap. apply Hin in Ht as [[? _] ?]. by exists t.
  - intros i (t & -> & Ht)%list_elem_of_fmap d. apply Hin in Ht as [[? He] Ht].
    unfold table_of, list_dependencies.
    rewrite list_elem_of_filter, elem_of_sort_by, list_elem_of_filter. split; [naive_solver|].
    intros (? & Hd & ?). rewrite Hd, Ht. simpl. rewrite He. done.
Qed.

Lemma reconcile_steps tenant_id id now db u db' :
  wf db → reconcile_engagement tenant_id id now db = Ok (u, db') →
  own_steps now db db' ∧ pending_only db db'.
Proof.
  intros Hwf E. unfold reconcile_engagement in E.
  apply tx_bind_Ok in E as (db0 & s1 & [-> ->]%gets_Ok & E).
  case_bool_decide; [apply tx_ret_Ok in E as [_ ->]; split; [apply rtc_refl|apply pending_only_refl]|].
  apply tx_bind_Ok in E as ([] & db1 & El & E).
  pose proof (reconcile_ready db tenant_id id Hwf) as Hready.
  eapply reconcile_loop_spec in El as (Hs & Hr & _ & Hpo & _); [|exact Hready].
  apply reconcile_status_steps in E as (Hs2 & Ht & _); [|apply Hr]. split; [by etrans|].
  intros i t Hi Hp. rewrite Ht. by apply Hpo.
Qed.

Lemma never_save_engagement id f : never (Py OutOfFuel) (save_engagement id f).
Proof. apply never_modify. Qed.
Hint Resolve never_record never_row never_save_engagement : tx.

Lemma never_transition_engagement id target reason now extra :
  never (Py OutOfFuel) (transition_engagement id target reason now extra).
Proof.
  unfold transition_engagement. apply never_bind; [auto with tx|]. intros db.
  apply never_bind; [auto with tx|]. intros g. case_decide; auto with tx.
Qed.

Lemma never_reconcile_status tenant_id id ids now :
  never (Py OutOfFuel) (reconcile_engagement_status tenant_id id ids now).
Proof.
  unfold reconcile_engagement_status. apply never_bind; [auto with tx|]. intros db.
  apply never_bind; [auto with tx|]. intros g. case_match; [auto with tx|].
  apply never_bind; [auto with tx|]. intros rows. destruct (target_status _).
  apply never_bind; [case_match; auto with tx|]. intros _. apply never_transition_engagement.
Qed.

(** [_reconcile_engagement] always leaves its loop. *)
Lemma reconcile_total tenant_id id now db :
  wf db → reconcile_engagement tenant_id id now db ≠ Err (Py OutOfFuel).
Proof.
  intros Hwf. unfold reconcile_engagement. unfold mbind at 1, tx_bind at 1, gets at 1.
  case_bool_decide; [done|]. unfold mbind at 1, tx_bind at 1.
  pose proof (reconcile_ready db tenant_id id Hwf) as Hready.
  fold (task_ids db tenant_id id). fold (table_of db tenant_id id).
  pose proof (reconcile_loop_total tenant_id _ _ now (S (length (task_ids db tenant_id id))) db Hready)
    as Hl.
  destruct (reconcile_loop _ _ _ db) as [[u db1]|e] eqn:El; [apply never_reconcile_status|].
  intros [= ->]. apply Hl; [|done]. unfold pending_count.
  apply Nat.lt_succ_r, submseteq_length, sublist_submseteq, sublist_filter.
Qed.
End reconcile_engagement.

(** ** Every operation is a sequence of steps *)

Section refinement.
Context `{UuidSource}.

Lemma get_task_Some db tenant_id id t :
  get_task db tenant_id id = Some t ↔ tasks db !! id = Some t ∧ task_tenant_id (spec t) = tenant_id.
Proof.
  unfold get_task. rewrite bind_Some. split.
  - intros (t' & Ht & Hg). apply bind_Some in Hg as (? & ? & ?). case_guard; naive_solver.
  - intros [Ht Hten]. exists t. split; [done|]. by rewrite option_guard_True.
Qed.

(** Skipping a running task closes its attempt before the row changes. *)
Lemma skip_running_step now db id t changes extra st f u1 db1 u2 db2 :
  wf db → tasks db !! id = Some t → status (state t) = TaskStatus.RUNNING →
  finish_attempt id st now f db = Ok (u1, db1) →
  record_task_transition id (status (state t)) TaskStatus.SKIPPED "administrative_skip" now extra
    (changed id changes db1) = Ok (u2, db2) →
  let s' := assign changes (state t) in
  free_of reserved_keys extra = true → status s' = TaskStatus.SKIPPED → st ≠ "running" →
  attempt_count s' = attempt_count (state t) → lease_released s' →
  review_status s' = review_status (state t) →
  task_step now id db db2.
Proof.
  intros Hwf Ht Hrun Ef E s' Hfree Hto Hst Hcount Hl Hr.
  pose proof (wf_tasks_id _ Hwf _ _ Ht) as Hid. subst id.
  apply finish_attempt_Ok in Ef as (t1 & Ht1 & ->). rewrite Ht in Ht1. injection Ht1 as <-.
  rewrite (changed_eq _ t) in E by done.
  eapply moved_task_step with (db := db) (atts2 := map (finish_row (task_tenant_id (spec t))
    (task_id (spec t)) (attempt_count (state t)) st now (lease_expires_at (state t)) f)
    (attempts db)) in E as (Hs & Ha & _); try done.
  - rewrite <- (set_attempts_id db2), Ha. exact Hs.
  - apply move_admin_skip; try done. rewrite Hrun. set_solver.
  - fold s'. rewrite Hto. simpl. lia.
  - unfold attempts_moved. fold s'. rewrite Hto, Hrun. simpl. by exists st, (lease_expires_at (state t)), f.
Qed.

Definition refines {A} (now : datetime) (m : OrchTx A) : Prop :=
  ∀ db a db', wf db → m db = Ok (a, db') → own_steps now db db'.

Lemma refines_reads {A} {now} (m : OrchTx A) : reads_only m → refines now m.
Proof. intros Hm db a db' _ E. apply Hm in E as ->. apply rtc_refl. Qed.

Lemma refines_bind {A B} {now} (m : OrchTx A) (f : A → OrchTx B) :
  refines now m → (∀ a, refines now (f a)) → refines now (mbind (M:=OrchTx) f m).
Proof.
  intros Hm Hf db b db' Hwf (a & db1 & E1 & E2)%tx_bind_Ok.
  etrans; [by eapply Hm|]. eapply Hf; [|done]. eapply own_steps_wf; [|done]. by eapply Hm.
Qed.

Lemma refines_for_each {A} {now} (l : list A) (body : A → OrchTx unit) :
  (∀ x, refines now (body x)) → refines now (for_each l body).
Proof.
  intros Hb. induction l; simpl; [apply refines_reads; auto with tx|]. by apply refines_bind.
Qed.

Lemma reconcile_refines tenant_id id now : refines now (reconcile_engagement tenant_id id now).
Proof. intros db u db' Hwf E. by eapply reconcile_steps in E as [? _]. Qed.

Lemma require_engagement_reads tenant_id id : reads_only (require_engagement tenant_id id).
Proof. by intros db e db' (_ & _ & ->)%require_engagement_Ok. Qed.

Lemma reconcile_and_snapshot_refines tenant_id id now :
  refines now (reconcile_and_snapshot tenant_id id now).
Proof.
  apply refines_bind; [apply refines_reads, require_engagement_reads|]. intros e.
  apply refines_bind; [apply reconcile_refines|]. intros _.
  apply refines_reads, snapshot_reads.
Qed.

Lemma recover_refines tenant_id now : refines now (recover_expired_leases tenant_id now).
Proof.
  intros db n db' Hwf E. unfold recover_expired_leases in E.
  apply tx_bind_Ok in E as (db0 & s1 & [-> ->]%gets_Ok & E).
  apply tx_bind_Ok in E as ([] & db1 & E & [_ ->]%tx_ret_Ok).
  destruct (query_spec db (λ t, task_tenant_id (spec t) = tenant_id ∧
    status (state t) = TaskStatus.RUNNING ∧ due (lease_expires_at (state t)) now)
    (expired_cmp (λ t, lease_expires_at (state t))) Hwf) as [Hnd Hin].
  eapply (for_each_rows now) in E as [? _]; try done.
  - intros t db2 [] db3 Ht Hwf1 Hrow Eb. right.
    apply Hin in Ht as [(_ & Hrun & _) _].
    unfold recover_expired_lease in Eb. apply tx_bind_Ok in Eb as ([] & db4 & E1 & E2).
    by eapply failure_step; try exact E1; try exact E2.
  - intros t Ht. by apply Hin in Ht as [_ ?].
Qed.

Lemma overdue_refines tenant_id now : refines now (fail_overdue_tasks tenant_id now).
Proof.
  intros db n db' Hwf E. unfold fail_overdue_tasks in E.
  apply tx_bind_Ok in E as (db0 & s1 & [-> ->]%gets_Ok & E).
  apply tx_bind_Ok in E as ([] & db1 & E & [_ ->]%tx_ret_Ok).
  destruct (query_spec db (λ t, task_tenant_id (spec t) = tenant_id ∧
    ¬ (status (state t) ∈ TERMINAL_TASK_STATUSES) ∧ due (deadline_at (spec t)) now)
    (expired_cmp (λ t, deadline_at (spec t))) Hwf) as [Hnd Hin].
  eapply (for_each_rows now) in E as [? _]; try done.
  - intros t db2 [] db3 Ht Hwf1 Hrow Eb. right.
    apply Hin in Ht as [(_ & Hst & Hdue) _]. by eapply overdue_step.
  - intros t Ht. by apply Hin in Ht as [_ ?].
Qed.

Lemma promote_refines tenant_id now : refines now (promote_due_retries tenant_id now).
Proof.
  intros db n db' Hwf E. unfold promote_due_retries in E.
  apply tx_bind_Ok in E as (db0 & s1 & [-> ->]%gets_Ok & E).
  apply tx_bind_Ok in E as ([] & db1 & E & [_ ->]%tx_ret_Ok).
  destruct (query_spec db (λ t, task_tenant_id (spec t) = tenant_id ∧
    status (state t) = TaskStatus.RETRY_WAIT ∧ due (available_at (state t)) now)
    (expired_cmp (λ t, available_at (state t))) Hwf) as [Hnd Hin].
  eapply (for_each_rows now) in E as [? _]; try done.
  - intros t db2 [] db3 Ht Hwf1 Hrow Eb. right.
    apply Hin in Ht as [(_ & Hst & Hdue) _]. by eapply promote_step.
  - intros t Ht. by apply Hin in Ht as [_ ?].
Qed.

Lemma tick_refines tenant_id now : refines now (tick tenant_id now).
Proof.
  unfold tick. apply refines_bind; [apply recover_refines|]. intros n1.
  apply refines_bind; [apply overdue_refines|]. intros n2.
  apply refines_bind; [apply promote_refines|]. intros n3.
  apply refines_bind; [apply refines_reads; auto with tx|]. intros db.
  apply refines_bind; [|intros _; apply refines_reads; auto with tx].
  apply refines_for_each. intros e. apply reconcile_refines.
Qed.

Lemma start_refines tenant_id id now : refines now (start_engagement tenant_id id now).
Proof.
  intros db a db' Hwf E. unfold start_engagement in E.
  apply tx_bind_Ok in E as (g & s1 & (Hg & Hten & ->)%require_engagement_Ok & E).
  apply tx_bind_Ok in E as ([] & s1 & [Hst ->]%require_Ok & E).
  apply tx_bind_Ok in E as (db0 & s1 & [-> ->]%gets_Ok & E).
  apply tx_bind_Ok in E as ([] & s1 & [_ ->]%require_Ok & E).
  apply tx_bind_Ok in E as ([] & s1 & ->%save_engagement_Ok & E).
  apply bool_decide_eq_true in Hst.
  assert (Hs : own_steps now db (set_engagements (alter (set_eng_started_at (Some now)) id (engagements db)) db))
    by (by apply touch_steps).
  etrans; [exact Hs|]. eapply own_steps_wf in Hs as Hwf1; [|done].
  apply tx_bind_Ok in E as ([] & db1 & E1 & E).
  apply transition_engagement_steps in E1 as (Hs1 & _); [|done| |done|done].
  2: { simpl. intros g'. rewrite lookup_alter_eq, Hg. intros [= <-]. simpl. congruence. }
  etrans; [exact Hs1|]. eapply own_steps_wf in Hs1 as Hwf2; [|done].
  apply tx_bind_Ok in E as ([] & db2 & E2 & E). apply snapshot_reads in E as ->.
  by eapply reconcile_steps in E2 as [? _].
Qed.

Lemma cancel_refines tenant_id id actor reason now :
  refines now (cancel_engagement tenant_id id actor reason now).
Proof.
  intros db a db' Hwf E. unfold cancel_engagement in E.
  apply tx_bind_Ok in E as ([] & s1 & [_ ->]%require_Ok & E).
  apply tx_bind_Ok in E as (g & s1 & (Hg & Hten & ->)%require_engagement_Ok & E).
  apply tx_bind_Ok in E as ([] & s1 & [Hst ->]%require_Ok & E).
  apply tx_bind_Ok in E as (db0 & s1 & [-> ->]%gets_Ok & E).
  apply tx_bind_Ok in E as ([] & db1 & El & E).
  destruct (list_tasks_spec db tenant_id id Hwf) as [Hnd Hin].
  assert (Heng : own_steps now db db1 ∧ engagements db1 = engagements db).
  { eapply (for_each_rows now); try exact El; try done.
    - intros t db2 [] db3 _ Hwf1 Hrow Eb. by eapply cancel_step.
    - intros t Ht. by apply Hin in Ht as [_ ?]. }
  destruct Heng as [Hs Heng]. etrans; [exact Hs|]. eapply own_steps_wf in Hs as Hwf1; [|done].
  apply tx_bind_Ok in E as ([] & s1 & ->%save_engagement_Ok & E).
  assert (Hs1 : own_steps now db1 (set_engagements (alter (set_eng_completed_at (Some now)) id (engagements db1)) db1))
    by (by apply touch_steps).
  etrans; [exact Hs1|]. eapply own_steps_wf in Hs1 as Hwf2; [|done].
  apply tx_bind_Ok in E as ([] & db2 & E1 & E). apply snapshot_reads in E as ->.
  apply transition_engagement_steps in E1 as (Hs2 & _); [done|done| |done|done].
  simpl. rewrite Heng. intros g'. rewrite lookup_alter_eq, Hg. intros [= <-]. simpl.
  apply negb_true_iff, bool_decide_eq_false in Hst. intros Hc. apply Hst. rewrite Hc. set_solver.
Qed.

(** A step on the task, then what every operation on a task ends with. *)
Lemma then_reconcile now id db db1 tenant_id eid a db' :
  wf db → task_step now id db db1 →
  reconcile_and_snapshot tenant_id eid now db1 = Ok (a, db') → own_steps now db db'.
Proof.
  intros Hwf [Hs _] E. etrans; [by eapply own_steps_one|].
  eapply reconcile_and_snapshot_refines; [by eapply wf_step|done].
Qed.

Lemma complete_refines tenant_id id worker res now :
  refines now (complete_task tenant_id id worker res now).
Proof.
  intros db a db' Hwf E. unfold complete_task in E.
  apply tx_bind_Ok in E as (t & s1 & (Ht & Hten & ->)%require_task_Ok & E).
  apply tx_bind_Ok in E as ([] & s1 & [Hl ->]%require_Ok & E).
  apply lease_matches_inv in Hl as (Hrun & Howner & expires & Hexp & Hlive).
  destruct (completion t res now) as [[changes to] reason] eqn:Hc.
  apply tx_bind_Ok in E as ([] & s1 & ->%save_changed & E).
  apply tx_bind_Ok in E as ([] & db1 & E1 & E).
  apply tx_bind_Ok in E as ([] & db2 & E2 & E).
  eapply then_reconcile; [done| |exact E].
  eapply completion_step; try exact Hc; try exact E1; try exact E2; try done.
  rewrite Hexp. simpl. lia.
Qed.

Lemma fail_refines tenant_id id worker class message force now :
  refines now (fail_task tenant_id id worker class message force now).
Proof.
  intros db a db' Hwf E. unfold fail_task in E.
  apply tx_bind_Ok in E as (t & s1 & (Ht & Hten & ->)%require_task_Ok & E).
  apply tx_bind_Ok in E as ([] & s1 & [Hl ->]%require_Ok & E).
  apply lease_matches_inv in Hl as (Hrun & _).
  apply tx_bind_Ok in E as ([] & db1 & E1 & E).
  apply tx_bind_Ok in E as (t1 & s1 & [Ht1 ->]%row_Ok & E).
  apply tx_bind_Ok in E as ([] & db2 & E2 & E).
  eapply then_reconcile; [done| |exact E].
  eapply failure_step; try exact E1; try exact E2; try done. by case_decide.
Qed.

Lemma decide_refines tenant_id id decision approved now :
  refines now (decide_gate tenant_id id decision approved now).
Proof.
  intros db a db' Hwf E. unfold decide_gate in E.
  apply tx_bind_Ok in E as (t & s1 & (Ht & Hten & ->)%require_task_Ok & E).
  apply tx_bind_Ok in E as ([] & s1 & [Hg ->]%require_Ok & E).
  apply andb_true_iff in Hg as [Hw%bool_decide_eq_true Hg].
  destruct (gate_outcome t decision approved now) as [[changes to] reason] eqn:Hc.
  apply tx_bind_Ok in E as ([] & s1 & ->%save_changed & E).
  apply tx_bind_Ok in E as ([] & db1 & E1 & E).
  eapply then_reconcile; [done| |exact E].
  by eapply gate_step; try exact Hc; try exact E1.
Qed.

Lemma force_retry_refines tenant_id id actor reason now :
  refines now (force_retry_task tenant_id id actor reason now).
Proof.
  intros db a db' Hwf E. unfold force_retry_task in E.
  apply tx_bind_Ok in E as ([] & s1 & [_ ->]%require_Ok & E).
  apply tx_bind_Ok in E as (t & s1 & (Ht & Hten & ->)%require_task_Ok & E).
  apply tx_bind_Ok in E as ([] & s1 & [Hst%bool_decide_eq_true ->]%require_Ok & E).
  apply tx_bind_Ok in E as ([] & s1 & ->%save_changed & E).
  apply tx_bind_Ok in E as ([] & db1 & E1 & E).
  assert (Hs1 : task_step now id db db1).
  { eapply plain_step; try exact E1; try done.
    - intros Hr. rewrite Hr in Hst. set_solver.
    - by apply move_admin_retry. }
  apply tx_bind_Ok in E as (g & s1 & (Hg & Hten' & ->)%require_engagement_Ok & E).
  apply tx_bind_Ok in E as ([] & s1 & ->%save_engagement_Ok & E).
  apply tx_bind_Ok in E as ([] & db2 & E2 & E). apply snapshot_reads in E as ->.
  destruct Hs1 as [Hs1 _]. eapply wf_step in Hs1 as Hwf1; [|done].
  assert (Hs2 : own_steps now db1 (set_engagements (alter (set_eng_completed_at None) (engagement_id g)
                             (engagements db1)) db1)) by (by apply touch_steps).
  etrans; [by eapply own_steps_one|]. etrans; [exact Hs2|].
  eapply reconcile_steps in E2 as [? _]; [done|]. by eapply own_steps_wf.
Qed.

Lemma force_skip_refines tenant_id id actor reason now :
  refines now (force_skip_task tenant_id id actor reason now).
Proof.
  intros db a db' Hwf E. unfold force_skip_task in E.
  apply tx_bind_Ok in E as ([] & s1 & [_ ->]%require_Ok & E).
  apply tx_bind_Ok in E as (t & s1 & (Ht & Hten & ->)%require_task_Ok & E).
  apply tx_bind_Ok in E as ([] & s1 & [Hst ->]%require_Ok & E).
  apply negb_true_iff, bool_decide_eq_false in Hst.
  apply tx_bind_Ok in E as ([] & db1 & Ef & E).
  apply tx_bind_Ok in E as ([] & s1 & ->%save_changed & E).
  apply tx_bind_Ok in E as ([] & db2 & E1 & E).
  eapply then_reconcile; [done| |exact E]. case_decide as Hrun.
  - by eapply skip_running_step.
  - apply tx_ret_Ok in Ef as [_ ->]. eapply plain_step; try exact E1; try done.
    by apply move_admin_skip.
Qed.

Lemma heartbeat_refines tenant_id id worker lease_seconds now :
  refines now (heartbeat tenant_id id worker lease_seconds now).
Proof.
  intros db a db' Hwf E. unfold heartbeat in E.
  apply tx_bind_Ok in E as ([] & s1 & [Hpos ->]%require_Ok & E).
  apply tx_bind_Ok in E as (ext & db1 & Ex & E).
  apply tx_bind_Ok in E as (t1 & s1 & [-> ->]%some_or_raise_Ok & E).
  unfold extend_lease in Ex.
  apply tx_bind_Ok in Ex as (expires & s1 & [Hexp ->]%from_res_Ok & Ex).
  apply tx_bind_Ok in Ex as (db0 & s1 & [-> ->]%gets_Ok & Ex).
  destruct (get_task db tenant_id id) as [t|] eqn:Hget; [|by apply tx_ret_Ok in Ex as [? _]].
  destruct (lease_matches t worker now) eqn:Hl; [|by apply tx_ret_Ok in Ex as [? _]].
  apply get_task_Some in Hget as [Ht Hten].
  apply lease_matches_inv in Hl as (Hrun & Hown & old & Hold & Hlive).
  pose proof (wf_tasks_id _ Hwf _ _ Ht) as Hid.
  apply tx_bind_Ok in Ex as ([] & s1 & ->%save_changed & Ex).
  apply tx_bind_Ok in Ex as (db0 & s1 & [-> ->]%gets_Ok & [Ht1 ->]%tx_ret_Ok).
  rewrite (changed_eq _ _ _ _ Ht) in *.
  symmetry in Ht1. apply get_task_Some in Ht1 as [Ht1 _]. simpl in Ht1.
  rewrite lookup_insert_eq in Ht1. injection Ht1 as <-. simpl in E.
  apply tx_bind_Ok in E as ([] & db2 & Eu & E).
  apply tx_bind_Ok in E as ([] & db3 & Er & E). apply from_res_Ok in E as [_ ->].
  apply modify_Ok in Eu as ->. apply record_Ok in Er as (l' & eid & -> & Hlog).
  apply own_steps_one.
  eapply (step_lease _ now db _ id t (set_lease_expires_at (Some expires) (state t))); try done.
  - rewrite Hold. simpl. lia.
  - split; [|done]. apply Z.ltb_lt in Hpos.
    unfold add_us in Hexp. case_match; simplify_eq. unfold seconds, us_per_second. lia.
  - by subst.
  - unfold heartbeat_event. simpl. subst. split_and!; try done. by exists worker.
Qed.
End refinement.

(** *** Claiming *)

Section claiming.
Context `{UuidSource}.

(** What the repository's loop over the candidates did. *)
Lemma claim_loop_Ok tenant_id worker now lease_seconds cands db r db' :
  claim_loop tenant_id worker now lease_seconds cands db = Ok (r, db') →
  match r with
  | None => db' = db
  | Some id => ∃ t expires, get_task db tenant_id id = Some t ∧
      status (state t) = TaskStatus.READY ∧ available (state t) now = true ∧
      add_us now (seconds lease_seconds) = Ok expires ∧
      db' = changed id (claim_changes worker now expires (state t)) db ∧
      id ∈ map (λ c, task_id (spec c)) cands
  end.
Proof.
  induction cands as [|c cands IH]; intros E; cbn [claim_loop] in E.
  { by apply tx_ret_Ok in E as [-> ->]. }
  apply tx_bind_Ok in E as (expires & s1 & [Hexp ->]%from_res_Ok & E).
  apply tx_bind_Ok in E as (db0 & s1 & [-> ->]%gets_Ok & E).
  assert (Hrest : claim_loop tenant_id worker now lease_seconds cands db = Ok (r, db') →
    match r with
    | None => db' = db
    | Some id => ∃ t expires, get_task db tenant_id id = Some t ∧
        status (state t) = TaskStatus.READY ∧ available (state t) now = true ∧
        add_us now (seconds lease_seconds) = Ok expires ∧
        db' = changed id (claim_changes worker now expires (state t)) db ∧
        id ∈ map (λ c, task_id (spec c)) (c :: cands)
    end).
  { intros Er. apply IH in Er. destruct r; [|done].
    destruct Er as (t & e & ? & ? & ? & ? & ? & ?). exists t, e. split_and!; [done..|]. by right. }
  destruct (get_task db tenant_id (task_id (spec c))) as [t|] eqn:Hget; [|exact (Hrest E)].
  destruct (bool_decide _ && _) eqn:Hc; [|exact (Hrest E)].
  apply andb_true_iff in Hc as [Hst%bool_decide_eq_true Hav].
  apply tx_bind_Ok in E as ([] & s1 & ->%save_changed & [-> ->]%tx_ret_Ok).
  exists t, expires. split_and!; [done..|]. left.
Qed.

Lemma claimed_later now lease_seconds expires :
  0 < lease_seconds → add_us now (seconds lease_seconds) = Ok expires → now < expires.
Proof. unfold add_us, seconds, us_per_second. intros ? ?. case_match; simplify_eq. lia. Qed.

Lemma claim_refines tenant_id worker lease_seconds eng types roles now :
  refines now (claim_next tenant_id worker lease_seconds eng types roles now).
Proof.
  intros db a db' Hwf E. unfold claim_next, repo_claim_next in E.
  apply tx_bind_Ok in E as ([] & s1 & [Hpos%Z.ltb_lt ->]%require_Ok & E).
  apply tx_bind_Ok in E as (r & db1 & Ec & E).
  apply tx_bind_Ok in Ec as (db0 & s1 & [-> ->]%gets_Ok & Ec). apply claim_loop_Ok in Ec.
  destruct r as [id|]; [|apply tx_ret_Ok in E as [_ ->]; subst; apply rtc_refl].
  destruct Ec as (t & expires & Hget & Hst & Hav & Hexp & -> & _).
  apply get_task_Some in Hget as [Ht Hten]. pose proof (wf_tasks_id _ Hwf _ _ Ht) as Hid. subst id.
  rewrite (changed_eq _ _ _ _ Ht) in E.
  apply tx_bind_Ok in E as ([] & db1 & Es & E).
  apply start_attempt_Ok in Es as (t1 & att & l1 & Ht1 & -> & Henv & _ & Ha1 & Ha2 & Ha3 & Ha4 & Ha5).
  simpl in Ht1. rewrite lookup_insert_eq in Ht1. injection Ht1 as <-.
  apply tx_bind_Ok in E as (t1 & s1 & [Ht1 ->]%row_Ok & E).
  simpl in Ht1. rewrite lookup_insert_eq in Ht1. injection Ht1 as <-.
  apply tx_bind_Ok in E as ([] & db2 & Er & E).
  apply tx_bind_Ok in E as (lease & s1 & [_ ->]%from_res_Ok & [-> ->]%tx_ret_Ok).
  assert (Hs1 : own_steps now db (set_ledger l1 db)).
  { apply own_steps_one. by apply step_env. }
  etrans; [exact Hs1|]. apply own_steps_one.
  eapply moved_task_step with (db := set_ledger l1 db) (atts1 := attempts db ++ [att])
    (atts2 := attempts db ++ [att]) (t := t) in Er as (Hs & Ha & _); try done.
  - destruct Hs as [Hs _]. by rewrite <- Ha, set_attempts_id in Hs.
  - by eapply own_steps_wf.
  - eapply move_claimed; try done. by eapply claimed_later.
  - unfold attempts_moved. simpl. exists att. by split_and!.
Qed.
End claiming.

(** *** Compilation *)

Section compilation.
Context `{UuidSource}.

Lemma fresh_id_Ok prefix db id db' :
  fresh_id prefix db = Ok (id, db') →
  ∃ n l', id = prefix +:+ "_" +:+ uuid4_hex 20 n ∧ db' = set_ledger l' db ∧ ledger_drawn (ledger db) l'.
Proof.
  intros E. unfold fresh_id in E. apply zoom_Ok in E as (l' & [-> ->]%new_id_Ok & ->).
  eexists _, _. split; [done|]. split; [done|]. apply ledger_drawn_one.
Qed.

(** Drawing the task identifiers. *)
Lemma draw_ids_Ok ts db pairs db' :
  tx_map (λ d, id ← fresh_id "tsk"; mret (def_key d, id)) ts db = Ok (pairs, db') →
  pairs.*1 = keys ts ∧ Forall (λ p, p.2 ≠ "") pairs ∧
  ∃ l', db' = set_ledger l' db ∧ ledger_drawn (ledger db) l'.
Proof.
  revert db pairs. induction ts as [|d ts IH]; intros db pairs E; cbn [tx_map] in E.
  { apply tx_ret_Ok in E as [-> ->]. split; [done|]. split; [done|]. exists (ledger db).
    split; [by destruct db|apply ledger_drawn_refl]. }
  apply tx_bind_Ok in E as (p & db1 & E1 & E).
  apply tx_bind_Ok in E1 as (id & s1 & (n & l1 & -> & -> & He1)%fresh_id_Ok & [-> ->]%tx_ret_Ok).
  apply tx_bind_Ok in E as (ps & db2 & E2 & [-> ->]%tx_ret_Ok).
  apply IH in E2 as (Hk & Hf & l2 & -> & He2). unfold keys in *.
  split; [change (def_key d :: ps.*1 = def_key d :: map def_key ts); by rewrite Hk|]. split; [by constructor|]. exists l2. split; [done|]. by eapply ledger_drawn_trans.
Qed.

Lemma dict_of_Some l k v : dict_of l !! k = Some v → (k, v) ∈ l.
Proof.
  unfold dict_of. enough (∀ m : gmap string string,
    fold_left (λ m p, <[p.1:=p.2]> m) l m !! k = Some v → (k, v) ∈ l ∨ m !! k = Some v) as Hm.
  { intros [?|Hn]%Hm; [done|]. by rewrite lookup_empty in Hn. }
  induction l as [|[k' v'] l IH]; intros m Hl; simpl in *; [by right|].
  apply IH in Hl as [?|Hl]; [left; by right|].
  apply lookup_insert_Some in Hl as [[-> ->]|[_ ?]]; [left; left|by right].
Qed.

Lemma foldr_insert_fresh (new : list EngagementTask) (m : gmap string EngagementTask) u :
  (∀ t, t ∈ new → task_id (spec t) ≠ task_id (spec u)) →
  foldr (λ t m, <[task_id (spec t) := t]> m) (<[task_id (spec u) := u]> m) new =
  <[task_id (spec u) := u]> (foldr (λ t m, <[task_id (spec t) := t]> m) m new).
Proof.
  induction new as [|t new IH]; simpl; intros Hne; [done|].
  rewrite IH by (intros; apply Hne; by right). apply insert_insert_ne. apply Hne. left.
Qed.

(** The rows of the task table. *)
Lemma compile_rows_Ok tenant_id eid version at_ (ids : gmap string string) ts db rows db' :
  wf db → (∀ k v, ids !! k = Some v → v ≠ "") →
  tx_map (compile_task tenant_id eid version at_ ids) ts db = Ok (rows, db') →
  ∃ new, rows = map (λ t, task_id (spec t)) new ∧ Forall (compiled tenant_id eid) new ∧
    (∀ t, t ∈ new → tasks db !! task_id (spec t) = None) ∧ NoDup rows ∧
    db' = set_tasks (foldr (λ t m, <[task_id (spec t) := t]> m) (tasks db) new) db ∧
    (∀ d, d ∈ ts → ∃ id, ids !! def_key d = Some id ∧ id ∈ rows).
Proof.
  intros Hwf Hids. revert db rows Hwf. induction ts as [|d ts IH]; intros db rows Hwf E; cbn [tx_map] in E.
  { apply tx_ret_Ok in E as [-> ->]. exists []. split; [done|]. split; [done|].
    split; [by intros ? ?%elem_of_nil|]. split; [constructor|]. split; [by destruct db|].
    by intros ? ?%elem_of_nil. }
  apply tx_bind_Ok in E as (id & db1 & E1 & E). unfold compile_task in E1.
  apply tx_bind_Ok in E1 as (dl & s1 & [_ ->]%from_res_Ok & E1).
  apply tx_bind_Ok in E1 as (id' & s1 & [Hid ->]%some_or_raise_Ok & E1).
  apply tx_bind_Ok in E1 as (cr & s1 & [-> ->]%gets_Ok & E1).
  apply tx_bind_Ok in E1 as ([] & s2 & Ea & [-> ->]%tx_ret_Ok).
  set (u := compiled_row tenant_id eid version id' dl (wall_clock (ledger db)) d) in *.
  unfold add_task in Ea. apply tx_bind_Ok in Ea as (db0 & s1 & [-> ->]%gets_Ok & Ea).
  apply tx_bind_Ok in Ea as ([] & s1 & [Hc ->]%require_Ok & ->%modify_Ok).
  assert (Hfresh : tasks db !! task_id (spec u) = None).
  { destruct (tasks db !! task_id (spec u)) as [t'|] eqn:Ht'; [|done]. exfalso.
    apply negb_true_iff, not_true_iff_false in Hc. apply Hc, existsb_elem. exists t'.
    rewrite (proj2 (all_tasks_spec db Hwf) t'). pose proof (wf_tasks_id _ Hwf _ _ Ht') as Hk.
    split; [by rewrite Hk|]. unfold task_conflict. by rewrite Hk, bool_decide_true. }
  apply tx_bind_Ok in E as (rows' & db2 & E2 & [-> ->]%tx_ret_Ok).
  apply IH in E2 as (new & -> & Hcomp & Hfr & Hnd & -> & Hall).
  2: { split; [|apply Hwf]. intros i t. simpl.
       intros [[<- <-]|[_ ?]]%lookup_insert_Some; [done|]. by apply (wf_tasks_id _ Hwf). }
  assert (Hne : ∀ t, t ∈ new → task_id (spec t) ≠ task_id (spec u)).
  { intros t Ht Heq. apply Hfr in Ht. simpl in Ht. rewrite Heq in Ht.
    by rewrite lookup_insert_eq in Ht. }
  exists (u :: new). split; [done|]. split.
  { constructor; [|done]. split_and!; try done. by eapply Hids. }
  split; [|split; [|split]].
  - intros t [->|Ht]%elem_of_cons; [done|]. pose proof (Hfr t Ht) as Hn. simpl in Hn.
    by rewrite lookup_insert_ne in Hn by (intros ?; by apply (Hne t)).
  - simpl. constructor; [|done]. intros (t & Heq & Ht)%list_elem_of_fmap. by apply (Hne t).
  - cbn [foldr]. by rewrite <- (foldr_insert_fresh new (tasks db) u Hne).
  - intros d' [->|Hd]%elem_of_cons; [exists id'; split; [done|left]|].
    destruct (Hall d' Hd) as (i & ? & ?). exists i. split; [done|]. by right.
Qed.

(** The rows of the dependency table. *)
Definition new_dependency (tenant_id : string) (rows : list string) (d : TaskDependency) : Prop :=
  dep_tenant_id d = tenant_id ∧ dep_task_id d ∈ rows ∧ depends_on_task_id d ∈ rows ∧
  ∃ l, condition_allowed_statuses d = Some l ∧ l ⊆ ["succeeded"; "skipped"].

(** What compiling dependencies changes. *)
Definition deps_added (tenant_id : string) (rows : list string) (db db' : OrchDB) : Prop :=
  ∃ new l', db' = set_dependencies (dependencies db ++ new) (set_ledger l' db) ∧
    ledger_drawn (ledger db) l' ∧ ∀ d, d ∈ new → new_dependency tenant_id rows d.

Lemma deps_added_refl tenant_id rows db : deps_added tenant_id rows db db.
Proof.
  exists [], (ledger db). rewrite app_nil_r. split; [by destruct db|].
  split; [apply ledger_drawn_refl|by intros ? ?%elem_of_nil].
Qed.
Lemma deps_added_trans tenant_id rows db1 db2 db3 :
  deps_added tenant_id rows db1 db2 → deps_added tenant_id rows db2 db3 →
  deps_added tenant_id rows db1 db3.
Proof.
  intros (n1 & l1 & -> & He1 & Hn1) (n2 & l2 & -> & He2 & Hn2). exists (n1 ++ n2), l2.
  split; [by rewrite app_assoc|]. split; [by eapply ledger_drawn_trans|].
  intros d [?|?]%elem_of_app; auto.
Qed.

Lemma terminal_values p :
  terminal_statuses_only p = true →
  sorted_strings (map value (allowed_statuses p)) ⊆ ["succeeded"; "skipped"].
Proof.
  intros Ht s. unfold sorted_strings. rewrite elem_of_sort_by, list_elem_of_fmap.
  intros (st & -> & Hst). unfold terminal_statuses_only in Ht.
  destruct (allowed_statuses p) as [|a l] eqn:Ha; [done|]. rewrite forallb_decide in Ht.
  apply Ht in Hst. apply elem_of_cons in Hst as [->|Hst%list_elem_of_singleton];
    [left|subst; right; left].
Qed.

Lemma compile_dependencies_Ok tenant_id (ids : gmap string string) (rows : list string) ts db u db' :
  (∀ k v, ids !! k = Some v → v ∈ rows) →
  Forall (λ d, Forall (λ p, terminal_statuses_only p = true) (def_dependencies d)) ts →
  for_each ts (λ d, for_each (def_dependencies d) (compile_dependency tenant_id ids d)) db =
    Ok (u, db') → deps_added tenant_id rows db db'.
Proof.
  intros Hids Hval. revert db. induction Hval as [|d ts Hd _ IH]; intros db E; cbn [for_each] in E.
  { apply tx_ret_Ok in E as [_ ->]. apply deps_added_refl. }
  apply tx_bind_Ok in E as ([] & db1 & E1 & E). eapply deps_added_trans; [|by apply IH].
  clear IH E. revert db E1. induction Hd as [|p ps Hp _ IH]; intros db E; cbn [for_each] in E.
  { apply tx_ret_Ok in E as [_ ->]. apply deps_added_refl. }
  apply tx_bind_Ok in E as ([] & db2 & E1 & E). eapply deps_added_trans; [|by apply IH].
  unfold compile_dependency, add_dependency in E1.
  apply tx_bind_Ok in E1 as (dep & s1 & (n & l' & _ & -> & Henv)%fresh_id_Ok & E1).
  apply tx_bind_Ok in E1 as (id & s1 & [Hid ->]%some_or_raise_Ok & E1).
  apply tx_bind_Ok in E1 as (on & s1 & [Hon ->]%some_or_raise_Ok & E1).
  apply tx_bind_Ok in E1 as (db0 & s1 & [-> ->]%gets_Ok & E1).
  apply tx_bind_Ok in E1 as ([] & s1 & [_ ->]%require_Ok & ->%modify_Ok).
  eexists [_], l'. split; [reflexivity|]. split; [done|].
  intros d' ->%list_elem_of_singleton. split; [done|]. split; [by eapply Hids|].
  split; [by eapply Hids|]. eexists. split; [reflexivity|]. by apply terminal_values.
Qed.

(** Recording the created tasks. *)
Lemma created_all_Ok now new db u db' :
  (∀ t, t ∈ new → tasks db !! task_id (spec t) = Some t) →
  for_each (map (λ t, task_id (spec t)) new) (λ id, record_task_created id now) db = Ok (u, db') →
  ∃ l' es, db' = set_ledger l' db ∧ logs_all (ledger db) l' es ∧
    Forall2 (λ t e, created_event t now e) new es.
Proof.
  revert db. induction new as [|t new IH]; intros db Hin E; cbn [for_each map] in E.
  { apply tx_ret_Ok in E as [_ ->]. exists (ledger db), []. split; [by destruct db|].
    split; constructor. }
  apply tx_bind_Ok in E as ([] & db1 & E1 & E). unfold record_task_created in E1.
  apply tx_bind_Ok in E1 as (t1 & s1 & [Ht1 ->]%row_Ok & E1).
  rewrite Hin in Ht1 by left. injection Ht1 as <-.
  apply record_Ok in E1 as (l1 & eid & -> & Hlog).
  apply IH in E as (l2 & es & -> & Hlogs & Hes); [|intros; apply Hin; by right].
  eexists l2, (_ :: es). split; [done|]. split; [by eapply logs_cons|].
  constructor; [|done]. by split_and!.
Qed.

Lemma logs_all_snoc l1 l2 l3 es e : logs_all l1 l2 es → logs l2 l3 e → logs_all l1 l3 (es ++ [e]).
Proof.
  induction 1 as [l|l1 l2 l2' e1 es Hl _ IH]; intros He; simpl.
  - eapply logs_cons; [done|constructor].
  - eapply logs_cons; [done|auto].
Qed.

Lemma valid_dependencies w :
  WorkflowDefinition_valid w = true →
  Forall (λ d, Forall (λ p, terminal_statuses_only p = true) (def_dependencies d)) (wf_tasks w).
Proof.
  unfold WorkflowDefinition_valid. rewrite !andb_true_iff. intros [_ Hv].
  rewrite forallb_elem in Hv. apply Forall_forall. intros d Hd. apply Forall_forall. intros p Hp.
  apply Hv in Hd. unfold TaskDefinition_valid in Hd. rewrite !andb_true_iff in Hd.
  destruct_and! Hd. match goal with H : forallb _ _ = true |- _ =>
    rewrite forallb_elem in H; apply H in Hp end.
  by apply andb_true_iff in Hp as [_ ?].
Qed.

(** A compilation is a step, and leaves the engagement a task. *)
Lemma compile_effect tenant_id id w now db a db' :
  WorkflowDefinition_valid w = true → wf db → compile_workflow tenant_id id w now db = Ok (a, db') →
  own_steps now db db' ∧ ∃ t, tasks db' !! task_id (spec t) = Some t ∧
    task_tenant_id (spec t) = tenant_id ∧ task_engagement_id (spec t) = id.
Proof.
  intros Hval Hwf E. unfold compile_workflow in E.
  apply tx_bind_Ok in E as (g & s1 & (Hg & Hten & ->)%require_engagement_Ok & E).
  apply tx_bind_Ok in E as (rows & db3 & Ec & E).
  apply tx_bind_Ok in E as ([] & db4 & Ecr & E).
  apply tx_bind_Ok in E as ([] & db5 & Er & E). apply snapshot_reads in E as ->.
  unfold compile in Ec.
  apply tx_bind_Ok in Ec as ([] & s1 & [_ ->]%from_res_Ok & Ec).
  apply tx_bind_Ok in Ec as (db0 & s1 & [-> ->]%gets_Ok & Ec).
  apply tx_bind_Ok in Ec as ([] & s1 & [_ ->]%require_Ok & Ec).
  apply tx_bind_Ok in Ec as (pairs & db1 & Ep & Ec).
  apply draw_ids_Ok in Ep as (Hkeys & Hne & l1 & -> & Henv1).
  apply tx_bind_Ok in Ec as (rows' & db2 & Erows & Ec).
  assert (Hids : ∀ k v, dict_of pairs !! k = Some v → v ≠ "").
  { intros k v Hk%dict_of_Some. rewrite Forall_forall in Hne. by apply (Hne (k, v)). }
  apply compile_rows_Ok in Erows as (new & -> & Hcomp & Hfresh & Hnd & -> & Hall);
    [|by split; apply Hwf|done].
  apply tx_bind_Ok in Ec as ([] & db2 & Ed & [-> ->]%tx_ret_Ok).
  eapply compile_dependencies_Ok in Ed as (deps & l2 & -> & Henv2 & Hdeps);
    [| |by apply valid_dependencies].
  2: { intros k v Hk. pose proof (dict_of_Some _ _ _ Hk) as Hin.
       apply (list_elem_of_fmap_2 fst) in Hin. rewrite Hkeys in Hin. simpl in Hin.
       apply list_elem_of_fmap in Hin as (d & -> & Hd).
       destruct (Hall d Hd) as (i & Hi & ?). rewrite Hk in Hi. by injection Hi as ->. }
  apply created_all_Ok in Ecr as (l3 & es & -> & Hlogs & Hes).
  2: { intros t Ht. simpl. by apply lookup_added_task. }
  apply record_Ok in Er as (l4 & eid & -> & Hlog). split.
  2: { assert (Hts : ∃ d, d ∈ wf_tasks w).
    { unfold WorkflowDefinition_valid in Hval. destruct (wf_tasks w) as [|d l]; [|exists d; left].
      by rewrite andb_false_r in Hval. }
    destruct Hts as [d (i & _ & (t & -> & Ht)%list_elem_of_fmap)%Hall]. exists t. cbn [tasks].
    split; [by apply lookup_added_task|]. rewrite Forall_forall in Hcomp. by destruct (Hcomp t Ht) as (? & ? & _). }
  apply own_steps_one.
  eapply (step_compile _ now db _ tenant_id id new deps l2 es); try done.
  - exists g. by apply get_engagement_Some.
  - by eapply logs_all_snoc.
  - by eapply ledger_drawn_trans.
  - unfold compiled_event. simpl. rewrite length_map. by split_and!.
Qed.

Lemma compile_refines tenant_id id w now :
  WorkflowDefinition_valid w = true → refines now (compile_workflow tenant_id id w now).
Proof. intros Hval db a db' Hwf E. by apply compile_effect in E as [? _]. Qed.
End compilation.

(** ** Histories *)

(** A call of a public operation that changes state. *)
Inductive operation :=
  | CompileWorkflow (tenant_id engagement_id : string) (workflow : WorkflowDefinition)
  | StartEngagement (tenant_id engagement_id : string)
  | Tick (tenant_id : string)
  | ClaimNext (tenant_id worker_id : string) (lease_seconds : Z) (engagement_id : option string)
      (task_types agent_roles : option (list string))
  | Heartbeat (tenant_id task_id worker_id : string) (lease_seconds : Z)
  | CompleteTask (tenant_id task_id worker_id : string) (res : TaskExecutionResult)
  | FailTask (tenant_id task_id worker_id : string) (failure_class : FailureClass)
      (message : string) (force_retryable : option bool)
  | ApproveGate (tenant_id task_id : string) (decision : GateDecision)
  | RejectGate (tenant_id task_id : string) (decision : GateDecision)
  | CancelEngagement (tenant_id engagement_id actor_id reason : string)
  | ForceRetryTask (tenant_id task_id actor_id reason : string)
  | ForceSkipTask (tenant_id task_id actor_id reason : string).

(** The arguments pydantic has validated before the call. *)
Definition valid_operation (o : operation) : bool :=
  match o with CompileWorkflow _ _ w => WorkflowDefinition_valid w | _ => true end.

Section histories.
Context `{UuidSource}.

Definition discard {A} (m : OrchTx A) : OrchTx unit := _ ← m; mret tt.

Definition run (o : operation) (now : datetime) : OrchTx unit :=
  match o with
  | CompileWorkflow t e w => discard (compile_workflow t e w now)
  | StartEngagement t e => discard (start_engagement t e now)
  | Tick t => discard (tick t now)
  | ClaimNext t w n e types roles => discard (claim_next t w n e types roles now)
  | Heartbeat t id w n => discard (heartbeat t id w n now)
  | CompleteTask t id w r => discard (complete_task t id w r now)
  | FailTask t id w c m f => discard (fail_task t id w c m f now)
  | ApproveGate t id d => discard (approve_gate t id d now)
  | RejectGate t id d => discard (reject_gate t id d now)
  | CancelEngagement t e a r => discard (cancel_engagement t e a r now)
  | ForceRetryTask t id a r => discard (force_retry_task t id a r now)
  | ForceSkipTask t id a r => discard (force_skip_task t id a r now)
  end.

Definition empty_db (now : datetime) : OrchDB := mkOrchDB ∅ ∅ [] [] (empty_ledger now).

Lemma run_refines o now : valid_operation o = true → refines now (run o now).
Proof.
  intros Hv. assert (Hd : ∀ A (m : OrchTx A), refines now m → refines now (discard m)).
  { intros A m Hm. apply refines_bind; [done|]. intros a. apply refines_reads. auto with tx. }
  destruct o; apply Hd.
  - by apply compile_refines.
  - apply start_refines.
  - apply tick_refines.
  - apply claim_refines.
  - apply heartbeat_refines.
  - apply complete_refines.
  - apply fail_refines.
  - apply decide_refines.
  - apply decide_refines.
  - apply cancel_refines.
  - apply force_retry_refines.
  - apply force_skip_refines.
Qed.

(** The states a history of operations leads to: any operation may run at any
    instant, engagements are created by the scheduler or the client, and the
    other components change the ledger in between.  An operation that raises
    leaves the state it found. *)
Inductive reachable : OrchDB → Prop :=
  | reachable_empty now : reachable (empty_db now)
  | reachable_run o now db db' :
      reachable db → valid_operation o = true → run o now db = Ok (tt, db') → reachable db'
  | reachable_create db g :
      reachable db → engagements db !! engagement_id g = None →
      eng_status g = EngagementStatus.PLANNED →
      reachable (set_engagements (<[engagement_id g := g]> (engagements db)) db)
  | reachable_env db l' :
      reachable db → ledger_env (ledger db) l' → reachable (set_ledger l' db).

Lemma wf_empty now : wf (empty_db now).
Proof. by split. Qed.

Lemma reachable_steps db : reachable db → ∃ now, steps (empty_db now) db.
Proof.
  induction 1 as [now|o now db db' _ [n IH] Hv Hrun|db g _ [n IH] Hg Hst|db l' _ [n IH] Henv].
  - exists now. apply rtc_refl.
  - exists n. etrans; [exact IH|]. eapply own_steps_steps, run_refines; [done| |done].
    by eapply wf_steps; [|apply wf_empty].
  - exists n. etrans; [exact IH|]. apply (steps_one 0).
    by eapply (step_create _ 0 _ _ (engagement_id g) g).
  - exists n. etrans; [exact IH|]. apply (steps_one 0). by apply step_env.
Qed.

Lemma reachable_wf db : reachable db → wf db.
Proof. intros [n Hs]%reachable_steps. by eapply wf_steps; [|apply (wf_empty n)]. Qed.

(** Invariants of the machine hold in every reachable state. *)
Lemma reachable_invariant (P : OrchDB → Prop) :
  (∀ now, P (empty_db now)) →
  (∀ now db db', db_step now db db' → wf db → P db → P db') →
  ∀ db, reachable db → P db.
Proof.
  intros Hinit Hstep db [n Hs]%reachable_steps.
  assert (Hgen : ∀ db1 db2, steps db1 db2 → wf db1 → P db1 → P db2).
  { induction 1 as [|db1 db2 db3 [now Hst] _ IH]; eauto using wf_step. }
  eapply Hgen; eauto using wf_empty.
Qed.
End histories.
