(* ===== verification/OrchStable.v ===== *)
(** * Orchestration: what lasts

    Facts about an engagement that no step of the workflow machine takes back, for
    the components that rely on them between their own transactions: rows are never
    removed, an engagement keeps its columns and never returns to planned, and the
    audit ledger only grows. *)

From S2P Require Import Prelude PyFloat PyTime Ledger OrchDefs OrchStore OrchCompiler Orchestrator.
From S2P Require Import OrchMachine OrchRefinement.
Local Open Scope Z_scope.

Section stable.
Context `{UuidSource}.

(** An engagement that has been started, and one with compiled tasks. *)
Definition started (db : OrchDB) (id : string) : Prop :=
  ∃ g, engagements db !! id = Some g ∧ eng_status g ≠ EngagementStatus.PLANNED.
Definition has_tasks (db : OrchDB) (tenant_id id : string) : Prop :=
  ∃ i t, tasks db !! i = Some t ∧ task_tenant_id (spec t) = tenant_id ∧ task_engagement_id (spec t) = id.

(** What later states keep of earlier ones. *)
Record outlasts (db db' : OrchDB) : Prop := {
  kept_engagements id g : engagements db !! id = Some g → ∃ g', engagements db' !! id = Some g' ∧
    eng_columns g' = eng_columns g ∧ (eng_status g' = EngagementStatus.PLANNED → eng_status g = EngagementStatus.PLANNED);
  kept_tasks : spec_kept db db';
  kept_events r : r ∈ audit_events (ledger db) → r ∈ audit_events (ledger db')
}.

#[export] Instance outlasts_refl : Reflexive outlasts.
Proof. intros db. split; [eauto|intros id t; eauto|done]. Qed.
#[export] Instance outlasts_trans : Transitive outlasts.
Proof.
  intros db1 db2 db3 [H1 H2 H3] [H4 H5 H6]. split; [|intros id t Ht|auto].
  - intros id g (g2 & Hg2 & Hc & Hp)%H1. apply H4 in Hg2 as (g3 & ? & ? & ?). exists g3. split_and!; [done|congruence|auto].
  - apply H2 in Ht as (t2 & Ht2 & ?). apply H5 in Ht2 as (t3 & ? & ?). exists t3. split; congruence.
Qed.

Lemma logs_kept l l' e r : logs l l' e → r ∈ audit_events l → r ∈ audit_events l'.
Proof. intros [_ E _ _ _] Hr. rewrite E. set_solver. Qed.
Lemma logs_all_kept l l' es r : logs_all l l' es → r ∈ audit_events l → r ∈ audit_events l'.
Proof. induction 1; eauto using logs_kept. Qed.
Lemma ledger_env_kept l l' r : ledger_env l l' → r ∈ audit_events l → r ∈ audit_events l'.
Proof. intros [(rows & E & _) _ _ _] Hr. rewrite E. set_solver. Qed.

Lemma step_outlasts now db db' : db_step now db db' → outlasts db db'.
Proof.
  intros Hs. split; [|by eapply spec_kept_step|].
  - intros i x Hx. destruct Hs; rewrite Heng; eauto.
    + destruct (decide (id = i)) as [->|]; [|rewrite lookup_insert_ne by done; eauto].
      rewrite Hg in Hx. injection Hx as <-. destruct Hfixed as [? ?]. exists g'. by rewrite lookup_insert_eq.
    + destruct (decide (id = i)) as [->|]; [|rewrite lookup_insert_ne by done; eauto].
      rewrite Hg in Hx. injection Hx as <-. exists g'. rewrite lookup_insert_eq. split_and!; [done..|].
      destruct Hsame as (_ & _ & ->). done.
    + destruct (decide (id = i)) as [->|]; [congruence|rewrite lookup_insert_ne by done; eauto].
  - intros r Hr. destruct Hs; try by rewrite Hled.
    + by eapply logs_kept.
    + by eapply logs_kept.
    + by eapply logs_kept.
    + eapply logs_all_kept; [done|]. by eapply ledger_env_kept.
    + by eapply ledger_env_kept.
Qed.

Lemma steps_outlast db db' : steps db db' → outlasts db db'.
Proof. induction 1 as [|db1 db2 db3 [now Hs] _ IH]; [done|]. etrans; [by eapply step_outlasts|done]. Qed.

Lemma started_lasts db db' id : outlasts db db' → started db id → started db' id.
Proof.
  intros Ho (g & Hg & Hs). destruct (kept_engagements _ _ Ho _ _ Hg) as (g' & Hg' & _ & Hp).
  exists g'. split; [done|]. intros E. by apply Hs, Hp.
Qed.
Lemma has_tasks_lasts db db' tenant_id id : outlasts db db' → has_tasks db tenant_id id → has_tasks db' tenant_id id.
Proof.
  intros Ho (i & t & Ht & E1 & E2). destruct (kept_tasks _ _ Ho _ _ Ht) as (t' & Ht' & E).
  exists i, t'. by rewrite E.
Qed.

(** A started engagement is no longer planned. *)
Lemma start_effect tenant_id id now db a db' :
  wf db → start_engagement tenant_id id now db = Ok (a, db') → steps db db' ∧ started db' id.
Proof.
  intros Hwf E. split; [by eapply own_steps_steps, start_refines|]. unfold start_engagement in E.
  apply tx_bind_Ok in E as (g & s1 & (Hg & Hten & ->)%require_engagement_Ok & E).
  apply tx_bind_Ok in E as ([] & s1 & [Hst ->]%require_Ok & E).
  apply tx_bind_Ok in E as (db0 & s1 & [-> ->]%gets_Ok & E).
  apply tx_bind_Ok in E as ([] & s1 & [_ ->]%require_Ok & E).
  apply tx_bind_Ok in E as ([] & s1 & ->%save_engagement_Ok & E).
  apply bool_decide_eq_true in Hst.
  set (db1 := set_engagements (alter (set_eng_started_at (Some now)) id (engagements db)) db) in *.
  assert (Hs : steps db db1) by (by eapply own_steps_steps, (touch_steps now)).
  eapply wf_steps in Hs as Hwf1; [|done].
  apply tx_bind_Ok in E as ([] & db2 & E1 & E).
  assert (Hrun : started db2 id).
  { unfold transition_engagement in E1. apply tx_bind_Ok in E1 as (db0 & s1 & [-> ->]%gets_Ok & E1).
    apply tx_bind_Ok in E1 as (g1 & s1 & [Hg1 ->]%some_or_raise_Ok & E1).
    case_decide as Hrun.
    - apply tx_ret_Ok in E1 as [_ ->]. exists g1. by rewrite Hrun.
    - apply tx_bind_Ok in E1 as ([] & s1 & ->%save_engagement_Ok & E1).
      apply record_Ok in E1 as (l' & eid & -> & _). exists (set_eng_status EngagementStatus.RUNNING g1).
      cbn [engagements set_ledger set_engagements]. by rewrite (alter_Some _ _ _ _ Hg1), lookup_insert_eq. }
  apply transition_engagement_steps in E1 as (Hs1 & _); [|done| |done|done].
  2: { unfold db1. simpl. intros g'. rewrite lookup_alter_eq, Hg. intros [= <-]. simpl. congruence. }
  eapply own_steps_wf in Hs1 as Hwf2; [|done].
  apply tx_bind_Ok in E as ([] & db3 & E2 & E). apply snapshot_reads in E as ->.
  eapply reconcile_steps in E2 as [Hs2 _]; [|done]. eapply started_lasts; [by eapply steps_outlast, own_steps_steps|done].
Qed.

(** ** No engagement is created *)

Section same_engagements.
Context (D : gset string).
Definition same_engagements (db : OrchDB) : Prop := dom (engagements db) = D.

Lemma same_ledger {A} (m : Tx Ledger A) : preserves same_engagements (zoom ledger set_ledger m).
Proof. by intros db a db' Hd (l & _ & ->)%zoom_Ok. Qed.
Lemma same_save_engagement id f : preserves same_engagements (save_engagement id f).
Proof. intros db a db' Hd ->%save_engagement_Ok. unfold same_engagements. simpl. by rewrite dom_alter_L. Qed.
Lemma same_modify f : (∀ db, engagements (f db) = engagements db) → preserves same_engagements (modify f).
Proof. intros Hf db a db' Hd ->%modify_Ok. unfold same_engagements. by rewrite Hf. Qed.
Lemma same_tx_map {A B} (body : A → OrchTx B) l :
  (∀ x, preserves same_engagements (body x)) → preserves same_engagements (tx_map body l).
Proof.
  intros Hb. induction l as [|x l IH]; [apply preserves_ret|]. apply preserves_bind; [apply Hb|]. intros y.
  apply preserves_bind; [done|]. intros ys. apply preserves_ret.
Qed.

Ltac same := repeat first
  [ apply same_ledger | apply same_save_engagement | by apply same_modify
  | by apply preserves_reads; auto with tx
  | apply preserves_bind; [|intros ?] | apply preserves_for_each; intros ? _ | apply same_tx_map; intros ?
  | case_match ].

Lemma same_transition id target reason now extra :
  preserves same_engagements (transition_engagement id target reason now extra).
Proof. unfold transition_engagement, record. same. Qed.

Lemma same_reconcile_task ids dm now id : preserves same_engagements (reconcile_task ids dm now id).
Proof. unfold reconcile_task, dependency_rows, record_task_transition, record, save, row. same. Qed.

Lemma same_pass ids dm now l c : preserves same_engagements (reconcile_pass (reconcile_task ids dm now) l c).
Proof.
  revert c. induction l as [|id l IH]; intros c; [apply preserves_ret|].
  apply preserves_bind; [apply same_reconcile_task|]. auto.
Qed.

Lemma same_reconcile tenant_id id now : preserves same_engagements (reconcile_engagement tenant_id id now).
Proof.
  unfold reconcile_engagement. apply preserves_bind; [same|]. intros db. case_match; [same|].
  apply preserves_bind; [|intros _; unfold reconcile_engagement_status, row; same; apply same_transition].
  generalize (S (length (map (λ t, task_id (spec t)) (list_tasks db tenant_id id)))). intros fuel.
  induction fuel as [|fuel IH]; simpl; [by intros ? ? ? ? ?%raise_Ok|].
  apply preserves_bind; [apply same_pass|]. intros []; [done|same].
Qed.

Lemma same_start tenant_id id now : preserves same_engagements (start_engagement tenant_id id now).
Proof.
  unfold start_engagement, require_engagement. do 5 (apply preserves_bind; [by same|intros ?]).
  apply preserves_bind; [apply same_transition|intros _].
  apply preserves_bind; [apply same_reconcile|intros _]. apply preserves_reads, snapshot_reads.
Qed.

Lemma same_compile tenant_id id w now : preserves same_engagements (compile_workflow tenant_id id w now).
Proof.
  unfold compile_workflow, require_engagement. apply preserves_bind; [same|intros _].
  apply preserves_bind; [|intros rows].
  - unfold compile, fresh_id, compile_task, fresh_id, compile_dependency. same.
  - apply preserves_bind; [unfold record_task_created, row, record; same|intros _].
    apply preserves_bind; [unfold record; same|intros _]. apply preserves_reads, snapshot_reads.
Qed.
End same_engagements.
End stable.
