(* ===== verification/OrchInvariants.v ===== *)
(** * Orchestration: invariants

    What holds in every state a history of operations leads to, proved by rule
    induction on the machine of OrchMachine.v: leases and attempts agree with
    the status of their task, tasks run only after their prerequisites and after
    their human gate, and a finished task stays finished. *)

From S2P Require Import Prelude PyFloat PyTime Ledger OrchDefs OrchStore OrchCompiler Orchestrator OrchMachine OrchRefinement.
Local Open Scope Z_scope.

(** Decides membership of a known status in a known list, in a hypothesis or in
    the goal. *)
Ltac known_status :=
  repeat match goal with Hq : status ?s = _ |- _ => rewrite Hq in *; clear Hq end;
  match goal with
  | |- _ ∈ _ => refine (bool_decide_unpack _ _); by vm_compute
  | Hx : ?a ∈ ?l |- _ => exfalso; refine (bool_decide_eq_false_1 (a ∈ l) _ Hx); by vm_compute
  | Hx : ?a ∉ ?l |- _ => exfalso; apply Hx; refine (bool_decide_unpack _ _); by vm_compute
  end.

Section invariants.
Context `{UuidSource}.

(** What a step did to one task. *)
Inductive task_change (now : datetime) (db db' : OrchDB) (id : string) (x : EngagementTask) : Prop :=
  | change_none (Hold : tasks db !! id = Some x)
  | change_move t s' reason e
      (Hold : tasks db !! id = Some t) (Hx : x = set_state s' t)
      (Hmove : task_move db now t s' reason)
      (Hcount : attempt_count s' =
        attempt_count (state t) + (if decide (status s' = TaskStatus.RUNNING) then 1 else 0))
      (Hatt : attempts_moved now t s' (attempts db) (attempts db'))
      (Hlog : logs (ledger db) (ledger db') e)
      (Hev : transition_event t s' reason now e)
  | change_lease t expires
      (Hold : tasks db !! id = Some t) (Hrun : status (state t) = TaskStatus.RUNNING)
      (Hx : x = set_state (set_lease_expires_at (Some expires) (state t)) t)
  | change_new tenant_id eid (Hnew : compiled tenant_id eid x) (Hold : tasks db !! id = None).

Lemma step_task_change now db db' id x :
  db_step now db db' → tasks db' !! id = Some x → task_change now db db' id x.
Proof.
  intros Hs Hx. destruct Hs; rewrite Htasks in Hx;
    try (by apply (change_none now)).
  - apply lookup_insert_Some in Hx as [[<- <-]|[_ Hx]]; [|by apply (change_none now)].
    by eapply change_move.
  - apply lookup_insert_Some in Hx as [[<- <-]|[_ Hx]]; [|by apply (change_none now)].
    destruct Hs' as [_ ->]. by eapply change_lease.
  - apply lookup_new_tasks in Hx as [Hx|[Hx <-]]; [by apply (change_none now)|].
    eapply change_new; [|by apply Hfresh]. rewrite Forall_forall in Hcompiled. by apply Hcompiled.
Qed.

(** ** Leases *)

(** A task has a lease exactly while it runs. *)
Definition lease_inv (db : OrchDB) : Prop :=
  ∀ id t, tasks db !! id = Some t →
    if decide (status (state t) = TaskStatus.RUNNING)
    then is_Some (lease_owner (state t)) ∧ is_Some (lease_expires_at (state t))
    else lease_released (state t).

Lemma lease_inv_reachable db : reachable db → lease_inv db.
Proof.
  apply reachable_invariant; [by intros now id t|].
  intros now db1 db2 Hs _ IH id x Hx. destruct (step_task_change _ _ _ _ _ Hs Hx) as [Hold|
    t s' reason e Hold -> Hmove _ _ _ _|t expires Hold Hrun ->|ten eid (_ & _ & _ & ->) _].
  - exact (IH _ _ Hold).
  - specialize (IH _ _ Hold). simpl. destruct Hmove;
      repeat match goal with
      | Hq : status _ = _ |- _ => rewrite Hq in *; clear Hq
      end; simpl in *; unfold lease_kept, lease_released in *; destruct_and?;
      try (split; congruence).
    by split; eexists.
  - specialize (IH _ _ Hold). rewrite decide_True in IH by done. simpl.
    rewrite decide_True by done. destruct IH. by split; [|eexists].
  - done.
Qed.

(** ** Attempts *)

(** Number, status and tenant of the attempts of a task, in the order they started. *)
Definition attempt_view (a : TaskAttempt) : Z * string * string :=
  (attempt_no a, att_status a, att_tenant_id a).
Definition attempts_of (l : list TaskAttempt) (id : string) : list (Z * string * string) :=
  map attempt_view (filter (λ a, att_task_id a = id) l).

Definition attempt_ok (t : EngagementTask) (a : Z * string * string) : Prop :=
  let '(no, st, tenant) := a in
  tenant = task_tenant_id (spec t) ∧
  (st = "running" ↔ status (state t) = TaskStatus.RUNNING ∧ no = attempt_count (state t)).

(** A task's attempts are numbered 1, 2, ... up to its attempt count, and the
    last of them is open exactly while the task runs. *)
Definition attempts_inv (db : OrchDB) : Prop :=
  (∀ id t, tasks db !! id = Some t →
    let l := attempts_of (attempts db) id in
    map (λ a, a.1.1) l = map Z.of_nat (seq 1 (length l)) ∧
    attempt_count (state t) = Z.of_nat (length l) ∧ Forall (attempt_ok t) l) ∧
  (∀ a, a ∈ attempts db → is_Some (tasks db !! att_task_id a)).

Lemma attempts_of_app l a id :
  attempts_of (l ++ [a]) id =
    attempts_of l id ++ (if decide (att_task_id a = id) then [attempt_view a] else []).
Proof.
  unfold attempts_of. rewrite filter_app, map_app, filter_cons. f_equal.
  by destruct (decide (att_task_id a = id)).
Qed.

Lemma attempts_of_map f g l id :
  (∀ a, att_task_id (f a) = att_task_id a) →
  (∀ a, att_task_id a = id → attempt_view (f a) = g (attempt_view a)) →
  attempts_of (map f l) id = map g (attempts_of l id).
Proof.
  intros Hid Hg. unfold attempts_of. induction l as [|a l IH]; [done|].
  simpl map at 2. rewrite !filter_cons. rewrite (decide_ext _ (att_task_id a = id)) by (by rewrite Hid).
  destruct (decide (att_task_id a = id)) as [Ha|]; [|done]. simpl. by rewrite Hg, IH.
Qed.

Lemma attempts_of_same f l id :
  (∀ a, att_task_id (f a) = att_task_id a) →
  (∀ a, att_task_id a = id → attempt_view (f a) = attempt_view a) →
  attempts_of (map f l) id = attempts_of l id.
Proof. intros Hid Hg. rewrite (attempts_of_map f (λ v, v)) by done. apply map_id. Qed.

Lemma finish_row_task tenant id no st now expires f a :
  att_task_id (finish_row tenant id no st now expires f a) = att_task_id a.
Proof. unfold finish_row. by case_decide. Qed.

(** A move starts a task only from READY. *)
Lemma move_running db now t s' reason :
  task_move db now t s' reason → status s' = TaskStatus.RUNNING →
  status (state t) = TaskStatus.READY.
Proof. destruct 1; congruence. Qed.

(** The attempts of the other tasks are left alone. *)
Lemma attempts_moved_other now t s' l l' id :
  attempts_moved now t s' l l' → id ≠ task_id (spec t) → attempts_of l' id = attempts_of l id.
Proof.
  unfold attempts_moved. intros Hm Hne. case_decide as Hr1; [|case_decide as Hr2].
  - destruct Hm as (a & -> & _ & _ & Ha & _). rewrite attempts_of_app, decide_False by congruence.
    apply app_nil_r.
  - destruct Hm as (st & e & f & _ & ->). apply attempts_of_same; [by intros; apply finish_row_task|].
    intros a Ha. unfold finish_row. rewrite decide_False; [done|]. intros (_ & ? & _). congruence.
  - by rewrite Hm.
Qed.

Lemma numbered_bound (v : list (Z * string * string)) p :
  map (λ a, a.1.1) v = map Z.of_nat (seq 1 (length v)) → p ∈ v → p.1.1 ≤ Z.of_nat (length v).
Proof.
  intros Hno [i Hi]%list_elem_of_lookup.
  assert (Hl : map (λ a : Z * string * string, a.1.1) v !! i = Some p.1.1)
    by (by rewrite list_lookup_fmap, Hi).
  rewrite Hno, list_lookup_fmap in Hl. apply fmap_Some in Hl as (n & [-> ?]%lookup_seq & ->). lia.
Qed.

Lemma attempts_moved_self db now t s' reason l l' :
  task_move db now t s' reason → attempts_moved now t s' l l' →
  attempt_count s' = attempt_count (state t) + (if decide (status s' = TaskStatus.RUNNING) then 1 else 0) →
  let v := attempts_of l (task_id (spec t)) in
  map (λ a, a.1.1) v = map Z.of_nat (seq 1 (length v)) →
  attempt_count (state t) = Z.of_nat (length v) → Forall (attempt_ok t) v →
  let v' := attempts_of l' (task_id (spec t)) in
  map (λ a, a.1.1) v' = map Z.of_nat (seq 1 (length v')) ∧
  attempt_count s' = Z.of_nat (length v') ∧ Forall (attempt_ok (set_state s' t)) v'.
Proof.
  intros Hmove Hm Hcount v Hno Hlen Hok. rewrite Forall_forall in Hok. unfold attempts_moved in Hm.
  case_decide as Hr1; [|case_decide as Hr2].
  - destruct Hm as (a & -> & Hten & _ & Ha & Han & Has). rewrite attempts_of_app, decide_True by done.
    fold v. intros v'. subst v'. unfold attempt_view. rewrite Hten, Han, Has.
    rewrite map_app, length_app, seq_app, map_app, Hno. simpl.
    assert (Hc : attempt_count s' = Z.of_nat (S (length v))) by lia.
    rewrite Hc. split; [done|]. split; [f_equal; lia|].
    apply Forall_app. split; [|by constructor]. apply Forall_forall. intros [[no st] ten] Hp.
    pose proof (numbered_bound v _ Hno Hp) as Hb. apply Hok in Hp as [-> Hst]. split; [done|].
    apply (move_running _ _ _ _ _ Hmove) in Hr1 as Hready. rewrite Hst, Hready. simpl in *.
    split; [naive_solver|]. rewrite Hc. intros [_ ->]. lia.
  - destruct Hm as (st & e & f & Hst & ->).
    set (g := λ p : Z * string * string,
      if decide (p.2 = task_tenant_id (spec t) ∧ p.1.1 = attempt_count (state t) ∧ p.1.2 = "running")
      then (p.1.1, st, p.2) else p).
    rewrite (attempts_of_map _ g); [|intros; apply finish_row_task|].
    2: { intros a Ha. unfold finish_row, g, attempt_view. simpl.
         repeat case_decide; simpl; naive_solver. }
    fold v. intros v'. subst v'. rewrite length_map, map_map. split; [|split; [lia|]].
    + rewrite <- Hno. apply map_ext. intros p. unfold g. by case_decide.
    + apply Forall_forall. intros p (q & -> & Hq)%list_elem_of_fmap. apply Hok in Hq.
      destruct q as [[no s0] ten]. destruct Hq as [-> Hq]. unfold g. simpl.
      case_decide as Hc; (split; [done|]); naive_solver.
  - subst l'. fold v. split; [done|]. split; [lia|]. apply Forall_forall. intros [[no st] ten] Hp.
    apply Hok in Hp as [-> Hp]. split; [done|]. simpl. tauto.
Qed.

Lemma attempts_inv_reachable db : reachable db → attempts_inv db.
Proof.
  apply reachable_invariant; [by split; [intros id t|intros a ?%elem_of_nil]|].
  intros now db1 db2 Hs Hwf [IH1 IH2]. split.
  - intros id x Hx. destruct Hs; rewrite Htasks in Hx; try (rewrite Hatt; by apply IH1).
    + destruct (decide (id0 = id)) as [->|Hne].
      * rewrite lookup_insert_eq in Hx. injection Hx as <-. pose proof (IH1 _ _ Ht) as (? & ? & ?).
        rewrite <- (wf_tasks_id _ Hwf _ _ Ht) in *. by eapply attempts_moved_self.
      * rewrite lookup_insert_ne in Hx by done.
        rewrite (attempts_moved_other now t s' (attempts db1)); [by apply IH1|done|].
        by rewrite (wf_tasks_id _ Hwf _ _ Ht).
    + rewrite Hatt, attempts_of_same; [|intros a; apply extend_row_view|].
      2: { intros a _. unfold attempt_view. by destruct (extend_row_view t expires a) as (_ & -> & -> & ->). }
      destruct Hs' as [_ ->].
      apply lookup_insert_Some in Hx as [[<- <-]|[_ Hx]]; [|by apply IH1].
      apply (IH1 _ _ Ht).
    + rewrite Hatt. apply lookup_new_tasks in Hx as [Hx|[Hx <-]]; [by apply IH1|].
      rewrite Forall_forall in Hcompiled. apply Hcompiled in Hx as Hc. destruct Hc as (_ & _ & _ & ->).
      unfold attempts_of. rewrite filter_none; [done|]. intros a Ha Heq.
      apply IH2 in Ha as [t' Ht']. rewrite Heq, Hfresh in Ht' by done. done.
  - intros a Ha. assert (Hold : is_Some (tasks db1 !! att_task_id a)).
    { destruct Hs; try (rewrite Hatt in Ha; by apply IH2).
      - unfold attempts_moved in Hatt. case_decide; [|case_decide].
        + destruct Hatt as (a' & Hl & _ & _ & Hid & _). rewrite Hl in Ha.
          apply elem_of_app in Ha as [Ha| ->%list_elem_of_singleton]; [by apply IH2|].
          rewrite Hid, (wf_tasks_id _ Hwf _ _ Ht). by eexists.
        + destruct Hatt as (st & e' & f & _ & Hl). rewrite Hl in Ha.
          apply list_elem_of_fmap in Ha as (a' & -> & Ha). rewrite finish_row_task. by apply IH2.
        + rewrite Hatt in Ha. by apply IH2.
      - rewrite Hatt in Ha. apply list_elem_of_fmap in Ha as (a' & -> & Ha).
        destruct (extend_row_view t expires a') as [-> _]. by apply IH2. }
    destruct Hold as [t Ht]. apply (spec_kept_step _ _ _ Hs) in Ht as (t' & ? & _). by eexists.
Qed.

(** ** The ledger *)

Lemma logs_all_grow l l' es :
  logs_all l l' es →
  ∃ rows, audit_events l' = audit_events l ++ rows ∧ map row_event rows = es ∧
    Forall (λ r, stream_id r = stream_of (row_event r)) rows.
Proof.
  induction 1 as [l|l1 l2 l3 e es Hl _ (rows & E & Hr & Hs)]; [exists []; by rewrite app_nil_r|].
  eexists. rewrite E, (logs_audit _ _ _ Hl), <- app_assoc. split; [done|]. simpl.
  rewrite Hr. split; [done|]. by constructor.
Qed.

(** No step removes or changes a row of the ledger. *)
Lemma step_audit_grows now db db' :
  db_step now db db' → ∃ rows, audit_events (ledger db') = audit_events (ledger db) ++ rows.
Proof.
  intros Hs. destruct Hs; try (rewrite Hled; exists []; by rewrite app_nil_r).
  - eexists. apply (logs_audit _ _ _ Hlog).
  - eexists. apply (logs_audit _ _ _ Hlog).
  - eexists. apply (logs_audit _ _ _ Hlog).
  - destruct Henv as [(rows & E & _) _ _ _]. apply logs_all_grow in Hlog as (rows' & E' & _).
    exists (rows ++ rows'). by rewrite E', E, app_assoc.
  - destruct Henv as [(rows & ? & _) _ _ _]. by exists rows.
Qed.

Lemma logs_all_numbered l l' es : logs_all l l' es → numbered l → numbered l'.
Proof. induction 1; eauto using logs_numbered. Qed.
Lemma logs_all_keys_drawn l l' es : logs_all l l' es → keys_drawn l → keys_drawn l'.
Proof. induction 1; eauto using logs_keys_drawn. Qed.

(** The streams stay numbered, and no future event identifier is taken. *)
Definition ledger_inv (db : OrchDB) : Prop := numbered (ledger db) ∧ keys_drawn (ledger db).

Lemma ledger_inv_step now db1 db2 : db_step now db1 db2 → ledger_inv db1 → ledger_inv db2.
Proof.
  intros Hs [IH1 IH2]. destruct Hs; try (by unfold ledger_inv; rewrite Hled).
  - split; [by eapply logs_numbered|by eapply logs_keys_drawn].
  - split; [by eapply logs_numbered|by eapply logs_keys_drawn].
  - split; [by eapply logs_numbered|by eapply logs_keys_drawn].
  - split; [eapply logs_all_numbered; [done|]; by apply Henv|].
    eapply logs_all_keys_drawn; [done|]. by apply Henv.
  - split; [by apply Henv|by apply Henv].
Qed.

Lemma ledger_inv_reachable db : reachable db → ledger_inv db.
Proof.
  apply reachable_invariant; [|intros now db1 db2 Hs _; by apply (ledger_inv_step now)].
  intros now. split; [by intros t s|]. by intros o n ?%elem_of_nil.
Qed.

(** Every state event was handed to the outbox under its own identifier. *)
Definition in_outbox (l : Ledger) (e : AuditEvent) : Prop :=
  Exists (has_key (ev_tenant_id e) (ev_event_id e)) (outbox_events l).
Definition outbox_inv (db : OrchDB) : Prop :=
  ∀ r, r ∈ audit_events (ledger db) → state_event (row_event r) → in_outbox (ledger db) (row_event r).

Lemma logs_in_outbox l l' e : logs l l' e → in_outbox l' e.
Proof.
  intros [_ _ (o & E & Hk & _) _ _]. unfold in_outbox. rewrite E, Exists_app. right.
  apply Exists_cons. by left.
Qed.
Lemma logs_outbox_kept l l' e t k :
  logs l l' e → Exists (has_key t k) (outbox_events l) → Exists (has_key t k) (outbox_events l').
Proof. intros [_ _ (o & E & _) _ _] He. rewrite E, Exists_app. by left. Qed.
Lemma logs_all_outbox l l' es :
  logs_all l l' es →
  (∀ t k, Exists (has_key t k) (outbox_events l) → Exists (has_key t k) (outbox_events l')) ∧
  Forall (in_outbox l') es.
Proof.
  induction 1 as [l|l1 l2 l3 e es Hl _ [IH1 IH2]]; [done|]. split.
  - intros t k He. by eapply IH1, logs_outbox_kept.
  - constructor; [|done]. by apply IH1, (logs_in_outbox _ _ _ Hl).
Qed.

Lemma outbox_inv_reachable db : reachable db → outbox_inv db.
Proof.
  apply reachable_invariant; [by intros now r ?%elem_of_nil|].
  intros now db1 db2 Hs _ IH r Hr Hst.
  destruct Hs; try (rewrite Hled in *; by apply IH).
  - rewrite (logs_audit _ _ _ Hlog) in Hr.
    apply elem_of_app in Hr as [Hr| ->%list_elem_of_singleton]; [|by eapply logs_in_outbox].
    eapply logs_outbox_kept; [done|by apply IH].
  - rewrite (logs_audit _ _ _ Hlog) in Hr.
    apply elem_of_app in Hr as [Hr| ->%list_elem_of_singleton]; [|by eapply logs_in_outbox].
    eapply logs_outbox_kept; [done|by apply IH].
  - rewrite (logs_audit _ _ _ Hlog) in Hr.
    apply elem_of_app in Hr as [Hr| ->%list_elem_of_singleton]; [|by eapply logs_in_outbox].
    eapply logs_outbox_kept; [done|by apply IH].
  - destruct Henv as [(rows & E & Hq) _ _ Ho]. rewrite Forall_forall in Hq.
    destruct (logs_all_outbox _ _ _ Hlog) as [Hk Hin].
    apply logs_all_grow in Hlog as (rows' & E' & Hm & _). rewrite E', E, !elem_of_app in Hr.
    destruct Hr as [[Hr|Hr]|Hr]; [by apply Hk, Ho, IH|by apply Hq in Hr|].
    rewrite Forall_forall in Hin. apply Hin. rewrite <- Hm. by apply list_elem_of_fmap_2.
  - destruct Henv as [(rows & E & Hq) _ _ Ho]. rewrite E in Hr. rewrite Forall_forall in Hq.
    apply elem_of_app in Hr as [Hr|Hr]; [by apply Ho, IH|by apply Hq in Hr].
Qed.

(** A transition of the task is recorded with this reason. *)
Definition transition_row (id reason : string) (r : AuditEventRow) : Prop :=
  ev_event_type (row_event r) = TASK_TRANSITIONED ∧ ev_task_id (row_event r) = Some id ∧
  dict_get "reason" (ev_payload (row_event r)) = Some (JStr reason).
Definition logged (db : OrchDB) (id reason : string) : Prop :=
  Exists (transition_row id reason) (audit_events (ledger db)).

Lemma logged_step now db db' id reason : db_step now db db' → logged db id reason → logged db' id reason.
Proof.
  intros (rows & E)%step_audit_grows. unfold logged. rewrite E, Exists_app. by left.
Qed.

Lemma move_logged now db db' t s' reason e :
  logs (ledger db) (ledger db') e → transition_event t s' reason now e →
  logged db' (task_id (spec t)) reason.
Proof.
  intros Hlog (Hty & _ & _ & Hid & _ & _ & _ & _ & Hr & _). unfold logged.
  rewrite (logs_audit _ _ _ Hlog), Exists_app. right. apply Exists_cons. by left.
Qed.

(** ** Prerequisites *)

(** The administrative retry is the only way past an unmet prerequisite, and it
    is recorded with its actor. *)
Definition started_statuses : list TaskStatus :=
  [TaskStatus.READY; TaskStatus.RUNNING; TaskStatus.RETRY_WAIT; TaskStatus.WAITING_APPROVAL;
   TaskStatus.SUCCEEDED].

Definition deps_inv (db : OrchDB) : Prop :=
  (∀ d, d ∈ dependencies db →
    is_Some (tasks db !! dep_task_id d) ∧ is_Some (tasks db !! depends_on_task_id d) ∧
    ∃ l, condition_allowed_statuses d = Some l ∧ l ⊆ ["succeeded"; "skipped"]) ∧
  (∀ id t, tasks db !! id = Some t → status (state t) ∈ started_statuses →
    deps_ok db t ∨ logged db id "administrative_retry").

(** A finished prerequisite stays finished. *)
Lemma finished_stays now db db' id t :
  db_step now db db' → tasks db !! id = Some t →
  status (state t) ∈ [TaskStatus.SUCCEEDED; TaskStatus.SKIPPED] →
  ∃ t', tasks db' !! id = Some t' ∧ status (state t') = status (state t).
Proof.
  intros Hs Ht Hfin. destruct (spec_kept_step _ _ _ Hs _ _ Ht) as (t' & Ht' & Hsp).
  exists t'. split; [done|].
  destruct (step_task_change _ _ _ _ _ Hs Ht') as [Hold|t0 s' reason e Hold -> Hmove _ _ _ _|
    t0 ex Hold Hrun ->|ten eid _ Hold]; rewrite Ht in Hold; [congruence|..|done];
    injection Hold as <-; [|done].
  apply elem_of_cons in Hfin as [Hf|Hf%list_elem_of_singleton]; destruct Hmove;
    congruence || known_status.
Qed.

Lemma deps_ok_step now db db' t t' :
  db_step now db db' → deps_inv db → tasks db !! task_id (spec t) = Some t →
  spec t' = spec t → deps_ok db t → deps_ok db' t'.
Proof.
  intros Hs [Hd _] Ht Hsp Hok d Hin Hdt Hten. rewrite Hsp in *.
  assert (Hin' : d ∈ dependencies db).
  { destruct Hs; try (by rewrite Hdeps in Hin). rewrite Hdeps in Hin.
    apply elem_of_app in Hin as [|Hin]; [done|]. exfalso.
    apply Hnew in Hin as (_ & Hin & _). rewrite Hdt in Hin.
    apply list_elem_of_fmap in Hin as (u & Heq & Hu). apply Hfresh in Hu.
    by rewrite <- Heq, Ht in Hu. }
  destruct (Hok d Hin' Hdt Hten) as (p & Hp & Hv).
  destruct (Hd d Hin') as (_ & _ & l & Hl & Hsub). rewrite Hl in *. simpl in *.
  destruct (finished_stays _ _ _ _ _ Hs Hp) as (p' & Hp' & Hst); [|exists p'; by rewrite Hst].
  apply Hsub in Hv. destruct (status (state p)); known_status.
Qed.

Lemma deps_inv_reachable db : reachable db → deps_inv db.
Proof.
  apply reachable_invariant; [by split; [intros d ?%elem_of_nil|intros id t]|].
  intros now db1 db2 Hs Hwf IH. pose proof IH as [IH1 IH2]. split.
  - intros d Hd. assert (Hkeep : ∀ id, is_Some (tasks db1 !! id) → is_Some (tasks db2 !! id)).
    { intros id [t Ht]. apply (spec_kept_step _ _ _ Hs) in Ht as (t' & ? & _). by eexists. }
    destruct Hs; rewrite Hdeps in Hd;
      try (by destruct (IH1 d Hd) as (? & ? & ?); split_and!; auto).
    apply elem_of_app in Hd as [Hd|Hd]; [by destruct (IH1 d Hd) as (? & ? & ?); split_and!; auto|].
    apply Hnew in Hd as (_ & H1 & H2 & H3).
    assert (Hadded : ∀ i, i ∈ map (λ t, task_id (spec t)) new → is_Some (tasks db2 !! i)).
    { intros i (t & -> & Ht)%list_elem_of_fmap. rewrite Htasks, lookup_added_task by done. by eexists. }
    split_and!; auto.
  - intros id x Hx Hst. pose proof (wf_step _ _ _ Hs Hwf) as Hwf2.
    destruct (step_task_change _ _ _ _ _ Hs Hx) as [Hold|t s' reason e Hold -> Hmove _ _ Hlog Hev|
      t ex Hold Hrun ->|ten eid (_ & _ & _ & Hnew) Hold].
    + destruct (IH2 _ _ Hold Hst) as [Hok|Hl]; [left|right; by eapply logged_step].
      eapply deps_ok_step; try done. by rewrite (wf_tasks_id _ Hwf _ _ Hold).
    + pose proof (wf_tasks_id _ Hwf _ _ Hold) as Hid. subst id.
      assert (Hmoved : deps_ok db1 t ∨ status (state t) ∈ started_statuses ∨
                reason = "administrative_retry").
      { unfold started_statuses in *. destruct Hmove; simpl in Hst;
          try (by left); try (by right; right); try (right; left; known_status); known_status. }
      destruct Hmoved as [Hok|[Hst'| ->]].
      * left. by eapply deps_ok_step.
      * destruct (IH2 _ _ Hold Hst') as [Hok|Hl]; [left|right; by eapply logged_step].
        by eapply deps_ok_step.
      * right. by eapply move_logged.
    + simpl in Hst. destruct (IH2 _ _ Hold) as [Hok|Hl]; [done|left|right; by eapply logged_step].
      eapply (deps_ok_step now db1 db2 t); try done. by rewrite (wf_tasks_id _ Hwf _ _ Hold).
    + rewrite Hnew in Hst. unfold started_statuses in Hst. simpl in Hst. known_status.
Qed.

(** ** Human gates *)

Definition past_before_gate : list TaskStatus :=
  [TaskStatus.READY; TaskStatus.RUNNING; TaskStatus.RETRY_WAIT; TaskStatus.SUCCEEDED].

Definition gate_inv_of (db : OrchDB) (id : string) (t : EngagementTask) : Prop :=
  (review_status (state t) = Some "approved" → logged db id "human_gate_approved") ∧
  (gated "before" t → status (state t) ∈ past_before_gate →
     review_status (state t) = Some "approved" ∨ logged db id "administrative_retry") ∧
  (gated "after" t → status (state t) = TaskStatus.SUCCEEDED →
     review_status (state t) = Some "approved").

Definition gate_inv (db : OrchDB) : Prop :=
  ∀ id t, tasks db !! id = Some t → gate_inv_of db id t.

Lemma gate_inv_weaken now db db' id t t' :
  db_step now db db' → gate_inv_of db id t → spec t' = spec t →
  status (state t') = status (state t) → review_status (state t') = review_status (state t) →
  gate_inv_of db' id t'.
Proof.
  intros Hs (H1 & H2 & H3) Hsp Hst Hrv. unfold gate_inv_of, gated. rewrite Hsp, Hst, Hrv.
  pose proof (logged_step now db db' id) as Hl. split; [by auto|]. split; [|done].
  intros Hg Hin. destruct (H2 Hg Hin); auto.
Qed.

Lemma gate_inv_move now db db' t s' reason e :
  db_step now db db' → task_move db now t s' reason → logs (ledger db) (ledger db') e →
  transition_event t s' reason now e → gate_inv_of db (task_id (spec t)) t →
  gate_inv_of db' (task_id (spec t)) (set_state s' t).
Proof.
  intros Hs Hmove Hlog Hev (H1 & H2 & H3). pose proof (logged_step now db db' (task_id (spec t))) as Hl.
  pose proof (move_logged _ _ _ _ _ _ _ Hlog Hev) as Hnew. unfold gate_inv_of, gated in *. simpl.
  assert (Hkept : review_status s' = review_status (state t) →
    status (state t) ∈ past_before_gate → gated "before" t →
    review_status s' = Some "approved" ∨ logged db' (task_id (spec t)) "administrative_retry").
  { intros -> Hin Hg. destruct (H2 Hg Hin); auto. }
  unfold past_before_gate in *.
  destruct Hmove;
    match goal with Hr : review_status s' = _ |- _ => rewrite Hr in * end;
    (split; [by auto || (intros; congruence)|]); split;
    intros Hg Hin; try congruence; try (by auto); try (known_status);
    try (by apply Hkept; [|known_status|]); try (by left); try (by right); try (by left; auto);
    match goal with Hneg : ¬ gated _ _ |- _ => by destruct Hneg end.
Qed.

Lemma gate_inv_reachable db : reachable db → gate_inv db.
Proof.
  apply reachable_invariant; [by intros now id t|].
  intros now db1 db2 Hs Hwf IH id x Hx.
  destruct (step_task_change _ _ _ _ _ Hs Hx) as [Hold|t s' reason e Hold -> Hmove _ _ Hlog Hev|
    t ex Hold Hrun ->|ten eid (_ & _ & _ & Hnew) Hold].
  - by eapply gate_inv_weaken; [|apply IH|..].
  - pose proof (wf_tasks_id _ Hwf _ _ Hold) as Hid. subst id. eapply gate_inv_move; eauto.
  - by eapply (gate_inv_weaken now db1 db2 id t); [|apply IH|..].
  - unfold gate_inv_of. rewrite Hnew. simpl. split; [done|]. split; [|done].
    intros _ Hin. unfold past_before_gate in Hin. known_status.
Qed.

(** ** Final statuses *)

Definition final_statuses : list TaskStatus :=
  [TaskStatus.SUCCEEDED; TaskStatus.SKIPPED; TaskStatus.CANCELLED].

(** No operation moves a task out of a final status. *)
Lemma final_stays now db db' id t :
  db_step now db db' → tasks db !! id = Some t → status (state t) ∈ final_statuses →
  ∃ t', tasks db' !! id = Some t' ∧ state t' = state t.
Proof.
  intros Hs Ht Hfin. destruct (spec_kept_step _ _ _ Hs _ _ Ht) as (t' & Ht' & Hsp).
  exists t'. split; [done|].
  destruct (step_task_change _ _ _ _ _ Hs Ht') as [Hold|t0 s' reason e Hold -> Hmove _ _ _ _|
    t0 ex Hold Hrun ->|ten eid _ Hold]; rewrite Ht in Hold; [congruence|..|done];
    injection Hold as <-.
  - exfalso. unfold final_statuses in Hfin.
    destruct (status (state t)) eqn:Hf; try (clear -Hfin; known_status);
      destruct Hmove; congruence || known_status.
  - exfalso. unfold final_statuses in Hfin. rewrite Hrun in Hfin. clear -Hfin. known_status.
Qed.

Lemma final_steps db db' id t :
  steps db db' → tasks db !! id = Some t → status (state t) ∈ final_statuses →
  ∃ t', tasks db' !! id = Some t' ∧ state t' = state t.
Proof.
  intros Hs. revert t. induction Hs as [db|db1 db2 db3 [now Hst] _ IH]; intros t Ht Hfin; [eauto|].
  destruct (final_stays _ _ _ _ _ Hst Ht Hfin) as (t2 & Ht2 & Heq).
  destruct (IH t2 Ht2) as (t3 & ? & ?); [by rewrite Heq|]. exists t3. split; congruence.
Qed.
End invariants.
