(* ===== verification/OrchReplay.v ===== *)
(** * Orchestration: replay

    orchestration/replay.py: the projection of an engagement rebuilt from the
    audit ledger alone ([replay_events]) and its comparison with the canonical
    rows ([verify_replay]).  The theorem of the file is that the two agree in
    every reachable state: the ledger is a complete record of the workflow. *)

From S2P Require Import Prelude PyFloat PyTime Ledger OrchDefs OrchStore OrchCompiler Orchestrator OrchMachine OrchRefinement OrchInvariants.
Local Open Scope Z_scope.

(** ** Definitions *)

Record ReplayTask := mkReplayTask {
  rp_task_id : string;
  rp_task_key : string;
  rp_status : TaskStatus;
  rp_attempt_count : Z
}.

Record ReplayProjection := mkReplayProjection {
  rp_tenant_id : string;
  rp_engagement_id : string;
  rp_engagement_status : EngagementStatus;
  rp_tasks : gmap string ReplayTask
}.

Definition set_rp_tasks (m : gmap string ReplayTask) (p : ReplayProjection) : ReplayProjection :=
  mkReplayProjection (rp_tenant_id p) (rp_engagement_id p) (rp_engagement_status p) m.
Definition set_rp_status (s : EngagementStatus) (p : ReplayProjection) : ReplayProjection :=
  mkReplayProjection (rp_tenant_id p) (rp_engagement_id p) s (rp_tasks p).

(** [payload[key]] *)
Definition payload_get (key : string) (d : dict) : Res json :=
  match dict_get key d with Some v => Ok v | None => Err (Py KeyError) end.
(** [TaskStatus(value)], for any string enumeration. *)
Definition enum_of `{StrEnum A} (v : json) : Res A :=
  match v with
  | JStr s => match of_value s with Some a => Ok a | None => Err (Py ValueError) end
  | _ => Err (Py ValueError)
  end.
Definition str_of (v : json) : Res string :=
  match v with JStr s => Ok s | _ => Err (Py ValueError) end.
(** [int(value)]; the recorder stores integers only, so text is not parsed. *)
Definition int_of (v : json) : Res Z :=
  match v with
  | JInt z => Ok z
  | JBool b => Ok (if b then 1 else 0)
  | JFloat f => let '(a, b) := as_fraction f in Ok (Z.quot a b)
  | _ => Err (Py ValueError)
  end.

(** The body of the loop over one stream. *)
Definition replay_event (p : ReplayProjection) (r : AuditEventRow) : Res ReplayProjection :=
  let e := row_event r in
  let payload := ev_payload e in
  if decide (ev_event_type e = TASK_CREATED) then
    match ev_task_id e with
    | None => Err (Py AssertionError)
    | Some id =>
        let? key_value := payload_get "task_key" payload in
        let? status_value := payload_get "status" payload in
        let? status := enum_of status_value in
        let? key := str_of key_value in
        Ok (set_rp_tasks (<[id := mkReplayTask id key status 0]> (rp_tasks p)) p)
    end
  else if decide (ev_event_type e = TASK_TRANSITIONED) then
    match ev_task_id e with
    | None => Ok p
    | Some id =>
        match rp_tasks p !! id with
        | None => Ok p
        | Some task =>
            let? status_value := payload_get "to_status" payload in
            let? status := enum_of status_value in
            let? count := match dict_get "attempt_count" payload with
                          | Some v => int_of v
                          | None => Ok (rp_attempt_count task)
                          end in
            Ok (set_rp_tasks (<[id := mkReplayTask (rp_task_id task) (rp_task_key task) status count]>
                                (rp_tasks p)) p)
        end
    end
  else if decide (ev_event_type e = ENGAGEMENT_TRANSITIONED) then
    let? status_value := payload_get "to_status" payload in
    let? status := enum_of status_value in
    Ok (set_rp_status status p)
  else Ok p.

Fixpoint replay_rows (p : ReplayProjection) (rows : list AuditEventRow) : Res ReplayProjection :=
  match rows with
  | [] => Ok p
  | r :: rows => let? p := replay_event p r in replay_rows p rows
  end.

(** [streams[event["stream_id"]].append(event)]: the streams in the order of
    their first event. *)
Fixpoint add_to_stream (r : AuditEventRow) (streams : list (string * list AuditEventRow))
    : list (string * list AuditEventRow) :=
  match streams with
  | [] => [(stream_id r, [r])]
  | (s, rows) :: streams =>
      if decide (s = stream_id r) then (s, rows ++ [r]) :: streams
      else (s, rows) :: add_to_stream r streams
  end.
Definition group_streams (rows : list AuditEventRow) : list (string * list AuditEventRow) :=
  fold_left (λ streams r, add_to_stream r streams) rows [].

Definition stream_cmp : AuditEventRow → AuditEventRow → comparison :=
  cmp_then (cmp_on sequence_no Z.compare) (cmp_on (λ r, ev_event_id (row_event r)) String.compare).

Definition replay_events (rows : list AuditEventRow) (tenant_id engagement_id : string)
    : Res ReplayProjection :=
  replay_rows (mkReplayProjection tenant_id engagement_id EngagementStatus.PLANNED ∅)
    (group_streams rows ≫= λ '(_, rows), sort_by stream_cmp rows).

Record ReplayComparison := mkReplayComparison {
  matches : bool;
  replayed_engagement_status : EngagementStatus;
  canonical_engagement_status : EngagementStatus;
  task_status_mismatches : list (string * (TaskStatus * TaskStatus));
  missing_in_replay : list string;
  missing_in_canonical : list string
}.

Definition compare_projection (replayed : ReplayProjection) (canonical : EngagementSnapshot)
    : ReplayComparison :=
  let canonical_by_id : gmap string TaskSnapshot :=
    fold_left (λ m t, <[snap_task_id t := t]> m) (snap_tasks canonical) ∅ in
  let replay_ids := dom (rp_tasks replayed) in
  let canonical_ids := dom canonical_by_id in
  let mismatches := sorted_strings (elements (replay_ids ∩ canonical_ids)) ≫= λ id,
    match rp_tasks replayed !! id, canonical_by_id !! id with
    | Some r, Some c =>
        if decide (rp_status r = snap_status c) then [] else [(id, (rp_status r, snap_status c))]
    | _, _ => []
    end in
  let missing_in_replay := sorted_strings (elements (canonical_ids ∖ replay_ids)) in
  let missing_in_canonical := sorted_strings (elements (replay_ids ∖ canonical_ids)) in
  mkReplayComparison
    (bool_decide (rp_engagement_status replayed = snap_engagement_status canonical) &&
     bool_decide (mismatches = []) && bool_decide (missing_in_replay = []) &&
     bool_decide (missing_in_canonical = []))
    (rp_engagement_status replayed) (snap_engagement_status canonical)
    mismatches missing_in_replay missing_in_canonical.

Definition verify_replay (db : OrchDB) (tenant_id engagement_id : string) : Res ReplayComparison :=
  let events := list_events (ledger db) tenant_id (Some engagement_id) in
  let? replayed := replay_events events tenant_id engagement_id in
  match snapshot tenant_id engagement_id db with
  | Ok (canonical, _) => Ok (compare_projection replayed canonical)
  | Err e => Err e
  end.

(** ** The order of processing *)

Section order.
Context `{UuidSource}.

Lemma StronglySorted_filter {A} (R : relation A) (P : A → Prop) `{!∀ x, Decision (P x)} l :
  StronglySorted R l → StronglySorted R (filter P l).
Proof.
  induction 1 as [|x l _ IH Hx]; [constructor|]. rewrite filter_cons.
  destruct (decide (P x)); [|done]. constructor; [done|].
  rewrite Forall_forall in *. intros y [_ ?]%list_elem_of_filter. by apply Hx.
Qed.

Lemma add_to_stream_spec r streams rows :
  NoDup streams.*1 →
  (∀ s l, (s, l) ∈ streams → l = filter (λ r, stream_id r = s) rows) →
  (∀ r, r ∈ rows → stream_id r ∈ streams.*1) →
  let streams' := add_to_stream r streams in
  NoDup streams'.*1 ∧
  (∀ s, s ∈ streams'.*1 ↔ s ∈ streams.*1 ∨ s = stream_id r) ∧
  (∀ s l, (s, l) ∈ streams' → l = filter (λ r, stream_id r = s) (rows ++ [r])).
Proof.
  intros Hnd Hl Hin.
  assert (Hin' : stream_id r ∈ streams.*1 ∨ filter (λ r', stream_id r' = stream_id r) rows = []).
  { destruct (decide (stream_id r ∈ streams.*1)); [by left|right].
    apply filter_none. intros r' Hr' Heq. apply n. rewrite <- Heq. auto. }
  clear Hin. induction streams as [|[s l] streams IH]; simpl.
  - split; [by apply NoDup_singleton|]. split; [intros s; set_solver|].
    intros s l [= -> ->]%list_elem_of_singleton.
    destruct Hin' as [?%elem_of_nil|Hn]; [done|]. rewrite filter_app, Hn. simpl.
    by rewrite filter_cons_True.
  - simpl in Hnd. apply NoDup_cons in Hnd as [Hs Hnd].
    assert (Happ : ∀ s' l', s' ≠ stream_id r → (s', l') ∈ (s, l) :: streams →
              l' = filter (λ r, stream_id r = s') (rows ++ [r])).
    { intros s' l' Hne Hin. rewrite filter_app, filter_cons_False by congruence.
      rewrite app_nil_r. by apply Hl. }
    destruct (decide (s = stream_id r)) as [->|Hne]; simpl.
    + split; [by apply NoDup_cons|]. split; [intros s; set_solver|].
      intros s' l' [[= -> ->]|Hin]%elem_of_cons.
      * rewrite filter_app, filter_cons_True by done. f_equal. apply Hl. left.
      * apply Happ; [|by right]. intros ->. apply Hs. by apply (list_elem_of_fmap_2 fst) in Hin.
    + destruct IH as (IH1 & IH2 & IH3); [done|by intros; apply Hl; right|simpl in Hin'; set_solver|].
      split; [|split].
      * apply NoDup_cons. split; [|done]. rewrite IH2. set_solver.
      * intros s'. rewrite !elem_of_cons, IH2. tauto.
      * intros s' l' [[= -> ->]|Hin]%elem_of_cons; [|by apply IH3].
        apply Happ; [done|left].
Qed.

Lemma group_streams_spec rows :
  NoDup (group_streams rows).*1 ∧
  (∀ r, r ∈ rows → stream_id r ∈ (group_streams rows).*1) ∧
  (∀ s l, (s, l) ∈ group_streams rows → l = filter (λ r, stream_id r = s) rows).
Proof.
  unfold group_streams. induction rows as [|r rows IH] using rev_ind; simpl.
  { split; [constructor|]. split; [by intros r ?%elem_of_nil|by intros s l ?%elem_of_nil]. }
  rewrite fold_left_app. simpl. destruct IH as (IH1 & IH2 & IH3).
  destruct (add_to_stream_spec r _ rows IH1 IH3 IH2) as (H1 & H2 & H3).
  split; [done|]. split; [|done]. intros r' [Hr| ->%list_elem_of_singleton]%elem_of_app; apply H2; auto.
Qed.

(** Sorting one stream by sequence number gives the order it was written in. *)
Lemma sorted_stream l tenant eng s :
  numbered l →
  sort_by stream_cmp (filter (λ r, stream_id r = s) (list_events l tenant (Some eng))) =
    filter (λ r, stream_id r = s) (filter (in_scope tenant (Some eng)) (audit_events l)).
Proof.
  intros Hn. unfold stream_cmp. apply sort_by_unique; [apply _| |].
  - pose proof (stream_rows_numbering l tenant s Hn) as Hs.
    apply (StronglySorted_filter _ (in_scope tenant (Some eng))) in Hs.
    unfold stream_rows in Hs. rewrite list_filter_filter in *.
    erewrite filter_ext_elem; [exact Hs|]. intros r _. simpl. unfold in_scope, in_stream. tauto.
  - unfold list_events. by rewrite sort_by_Permutation.
Qed.

Definition processed (rows : list AuditEventRow) : list AuditEventRow :=
  group_streams rows ≫= λ '(_, rows), sort_by stream_cmp rows.

(** Events of one stream are processed in the order they were recorded. *)
Lemma processed_stream l tenant eng s (Q : AuditEventRow → Prop) `{!∀ r, Decision (Q r)} :
  numbered l →
  (∀ r, r ∈ audit_events l → Q r → in_scope tenant (Some eng) r ∧ stream_id r = s) →
  filter Q (processed (list_events l tenant (Some eng))) = filter Q (audit_events l).
Proof.
  intros Hn HQ. set (rows := list_events l tenant (Some eng)).
  assert (Hrows : ∀ r, r ∈ rows ↔ in_scope tenant (Some eng) r ∧ r ∈ audit_events l).
  { intros r. unfold rows, list_events. by rewrite elem_of_sort_by, list_elem_of_filter. }
  destruct (group_streams_spec rows) as (Hnd & Hin & Hl).
  assert (Hother : ∀ g, (∀ s' l', (s', l') ∈ g → (s', l') ∈ group_streams rows ∧ s' ≠ s) →
            filter Q (g ≫= λ '(_, rows), sort_by stream_cmp rows) = []).
  { intros g Hg. apply filter_none. intros r Hr Hq.
    apply list_elem_of_bind in Hr as ([s' l'] & Hr & Hin').
    apply Hg in Hin' as [Hin' Hne]. rewrite elem_of_sort_by, (Hl _ _ Hin') in Hr.
    apply list_elem_of_filter in Hr as [Hs' Hr]. apply Hrows in Hr as [_ Hr].
    apply HQ in Hr as [_ Hs]; [congruence|done]. }
  unfold processed. destruct (decide (s ∈ (group_streams rows).*1)) as [Hs|Hs].
  - apply list_elem_of_fmap in Hs as ([s' k] & -> & Hs). simpl in *.
    pose proof (Hl _ _ Hs) as Hk. apply list_elem_of_split in Hs as (g1 & g2 & Hg).
    rewrite Hg in *. rewrite fmap_app, fmap_cons in Hnd. simpl in Hnd.
    apply NoDup_app in Hnd as (_ & Hd1 & Hnd2). apply NoDup_cons in Hnd2 as [Hd2 _].
    rewrite bind_app, bind_cons, !filter_app.
    rewrite (Hother g1), (Hother g2), app_nil_r; [simpl| |].
    + rewrite Hk. unfold rows. rewrite sorted_stream by done.
      rewrite !list_filter_filter. apply filter_ext_elem. intros r Hr. split; [tauto|].
      intros Hq. destruct (HQ r Hr Hq). tauto.
    + intros s1 l1 H1. split; [set_solver|]. intros ->. apply Hd2.
      by apply (list_elem_of_fmap_2 fst) in H1.
    + intros s1 l1 H1. split; [set_solver|]. intros ->. apply (Hd1 s').
      * by apply (list_elem_of_fmap_2 fst) in H1.
      * left.
  - rewrite (Hother (group_streams rows)).
    + symmetry. apply filter_none. intros r Hr Hq. destruct (HQ r Hr Hq) as [Hsc <-].
      apply Hs, Hin, Hrows. done.
    + intros s1 l1 H1. split; [done|]. intros ->. apply Hs.
      by apply (list_elem_of_fmap_2 fst) in H1.
Qed.

Lemma elem_of_processed l tenant eng r :
  r ∈ processed (list_events l tenant (Some eng)) → r ∈ audit_events l.
Proof.
  unfold processed. intros ([s k] & Hr & Hk)%list_elem_of_bind.
  destruct (group_streams_spec (list_events l tenant (Some eng))) as (_ & _ & Hl).
  rewrite elem_of_sort_by, (Hl _ _ Hk) in Hr. apply list_elem_of_filter in Hr as [_ Hr].
  unfold list_events in Hr. rewrite elem_of_sort_by in Hr. by apply list_elem_of_filter in Hr as [_ ?].
Qed.
End order.

(** ** What an event does to the projection *)

Inductive update :=
  | Created (id key : string) (st : TaskStatus)
  | Moved (id : string) (st : TaskStatus) (count : Z)
  | EngagementMoved (st : EngagementStatus)
  | Skip.

Definition json_enum `{StrEnum A} (v : json) : option A :=
  match v with JStr s => of_value s | _ => None end.

Definition update_of (e : AuditEvent) : update :=
  let payload := ev_payload e in
  if decide (ev_event_type e = TASK_CREATED) then
    match ev_task_id e, dict_get "task_key" payload, dict_get "status" payload ≫= json_enum with
    | Some id, Some (JStr key), Some st => Created id key st
    | _, _, _ => Skip
    end
  else if decide (ev_event_type e = TASK_TRANSITIONED) then
    match ev_task_id e, dict_get "to_status" payload ≫= json_enum, dict_get "attempt_count" payload with
    | Some id, Some st, Some (JInt n) => Moved id st n
    | _, _, _ => Skip
    end
  else if decide (ev_event_type e = ENGAGEMENT_TRANSITIONED) then
    match dict_get "to_status" payload ≫= json_enum with
    | Some st => EngagementMoved st
    | None => Skip
    end
  else Skip.

Definition apply_update (u : update) (p : ReplayProjection) : ReplayProjection :=
  match u with
  | Created id key st => set_rp_tasks (<[id := mkReplayTask id key st 0]> (rp_tasks p)) p
  | Moved id st n =>
      set_rp_tasks (alter (λ t, mkReplayTask (rp_task_id t) (rp_task_key t) st n) id (rp_tasks p)) p
  | EngagementMoved st => set_rp_status st p
  | Skip => p
  end.

(** A state event that decodes. *)
Definition proper (e : AuditEvent) : Prop := state_event e → update_of e ≠ Skip.

Lemma replay_event_update p r :
  proper (row_event r) → replay_event p r = Ok (apply_update (update_of (row_event r)) p).
Proof.
  unfold proper, replay_event, update_of, state_event, payload_get, enum_of, str_of, json_enum.
  set (e := row_event r). intros Hp.
  case_decide as H1; [|case_decide as H2; [|case_decide as H3; [|done]]].
  - specialize (Hp ltac:(rewrite H1; left)).
    destruct (ev_task_id e) as [id|]; [|done].
    destruct (dict_get "task_key" (ev_payload e)) as [[]|]; try done; simpl in *.
    destruct (dict_get "status" (ev_payload e)) as [[]|]; simpl in *; try done.
    by destruct (of_value _).
  - specialize (Hp ltac:(rewrite H2; right; left)).
    destruct (ev_task_id e) as [id|]; [|done].
    destruct (dict_get "to_status" (ev_payload e)) as [v|]; simpl in *; [|done].
    destruct v; try done. destruct (of_value _) as [st|]; simpl in *; [|done].
    destruct (dict_get "attempt_count" (ev_payload e)) as [[]|]; try done. simpl.
    destruct (rp_tasks p !! id) as [t|] eqn:Ht.
    + by rewrite (alter_Some _ _ _ _ Ht).
    + f_equal. destruct p as [ten eng st' m]. unfold set_rp_tasks. simpl in *. f_equal.
      apply map_eq. intros i. destruct (decide (i = id)) as [->|];
        [by rewrite lookup_alter_eq, Ht|by rewrite lookup_alter_ne].
  - specialize (Hp ltac:(rewrite H3; right; right; left)).
    destruct (dict_get "to_status" (ev_payload e)) as [v|]; simpl in *; [|done].
    destruct v; try done. by destruct (of_value _).
Qed.

Lemma replay_rows_update p rows :
  Forall (λ r, proper (row_event r)) rows →
  replay_rows p rows = Ok (fold_left (λ p r, apply_update (update_of (row_event r)) p) rows p).
Proof.
  intros Hp. revert p. induction Hp as [|r rows Hr _ IH]; intros p; [done|].
  simpl. rewrite replay_event_update by done. simpl. apply IH.
Qed.

(** The part of the projection about one task, and about the engagement. *)
Definition task_update (id : string) (t : option ReplayTask) (r : AuditEventRow) : option ReplayTask :=
  match update_of (row_event r) with
  | Created i key st => if decide (i = id) then Some (mkReplayTask i key st 0) else t
  | Moved i st n =>
      if decide (i = id)
      then (λ t, mkReplayTask (rp_task_id t) (rp_task_key t) st n) <$> t else t
  | _ => t
  end.
Definition engagement_update (s : EngagementStatus) (r : AuditEventRow) : EngagementStatus :=
  match update_of (row_event r) with EngagementMoved st => st | _ => s end.

Lemma fold_task rows p id :
  rp_tasks (fold_left (λ p r, apply_update (update_of (row_event r)) p) rows p) !! id =
  fold_left (task_update id) rows (rp_tasks p !! id).
Proof.
  revert p. induction rows as [|r rows IH]; intros p; [done|]. simpl. rewrite IH. f_equal.
  unfold task_update, apply_update. destruct (update_of (row_event r)) as [i key st|i st n| |]; simpl; try done.
  - case_decide as Hi; [subst; by rewrite lookup_insert_eq|by rewrite lookup_insert_ne].
  - case_decide as Hi; [subst; by rewrite lookup_alter_eq|by rewrite lookup_alter_ne].
Qed.

Lemma fold_engagement rows p :
  rp_engagement_status (fold_left (λ p r, apply_update (update_of (row_event r)) p) rows p) =
  fold_left engagement_update rows (rp_engagement_status p).
Proof.
  revert p. induction rows as [|r rows IH]; intros p; [done|]. simpl. rewrite IH. f_equal.
  unfold engagement_update, apply_update. by destruct (update_of (row_event r)).
Qed.

(** Rows a fold ignores may be dropped. *)
Lemma fold_filter {A B} (f : B → A → B) (Q : A → Prop) `{!∀ x, Decision (Q x)} l b :
  (∀ b x, x ∈ l → ¬ Q x → f b x = b) → fold_left f (filter Q l) b = fold_left f l b.
Proof.
  revert b. induction l as [|x l IH]; intros b Hf; [done|]. rewrite filter_cons.
  assert (Hf' : ∀ b x, x ∈ l → ¬ Q x → f b x = b) by (intros; apply Hf; [by right|done]).
  destruct (decide (Q x)); simpl; [by apply IH|]. rewrite (Hf b x) by (left || done). by apply IH.
Qed.

Section replay_invariant.
Context `{UuidSource}.

(** Replaying the whole ledger for one task and for one engagement. *)
Definition task_replay (rows : list AuditEventRow) (id : string) : option ReplayTask :=
  fold_left (task_update id) rows None.

Definition about_engagement (tenant_id id : string) (r : AuditEventRow) : Prop :=
  ev_event_type (row_event r) = ENGAGEMENT_TRANSITIONED ∧
  ev_tenant_id (row_event r) = tenant_id ∧ ev_engagement_id (row_event r) = Some id.
#[export] Instance about_engagement_dec t i r : Decision (about_engagement t i r).
Proof. unfold about_engagement. apply _. Defined.

Definition engagement_replay (rows : list AuditEventRow) (tenant_id id : string) : EngagementStatus :=
  fold_left engagement_update (filter (about_engagement tenant_id id) rows) EngagementStatus.PLANNED.

(** Who an event is about. *)
Definition owner_ok (db : OrchDB) (r : AuditEventRow) : Prop :=
  let e := row_event r in
  stream_id r = stream_of e ∧
  (ev_event_type e ∈ [TASK_CREATED; TASK_TRANSITIONED] →
    ∃ id t, ev_task_id e = Some id ∧ tasks db !! id = Some t ∧ id ≠ "" ∧
      ev_tenant_id e = task_tenant_id (spec t) ∧
      ev_engagement_id e = Some (task_engagement_id (spec t))) ∧
  (ev_event_type e = ENGAGEMENT_TRANSITIONED →
    ev_task_id e = None ∧
    ∃ id g, ev_engagement_id e = Some id ∧ engagements db !! id = Some g ∧
      ev_tenant_id e = eng_tenant_id g).

Definition task_image (t : EngagementTask) : ReplayTask :=
  mkReplayTask (task_id (spec t)) (task_key (spec t)) (status (state t)) (attempt_count (state t)).

Record replay_inv (db : OrchDB) : Prop := {
  ri_rows : ∀ r, r ∈ audit_events (ledger db) → state_event (row_event r) →
    proper (row_event r) ∧ owner_ok db r;
  ri_tasks : ∀ id t, tasks db !! id = Some t →
    id ≠ "" ∧ task_replay (audit_events (ledger db)) id = Some (task_image t);
  ri_engagements : ∀ id g, engagements db !! id = Some g →
    engagement_replay (audit_events (ledger db)) (eng_tenant_id g) id = eng_status g
}.

(** Events of other kinds change nothing. *)
Lemma update_skip e : ¬ state_event e → update_of e = Skip.
Proof.
  unfold state_event, update_of. intros Hn.
  rewrite !decide_False; [done|intros Heq; apply Hn; rewrite Heq; set_solver..].
Qed.

Lemma update_created t now e :
  created_event t now e → update_of e = Created (task_id (spec t)) (task_key (spec t)) (status (state t)).
Proof.
  intros (Hty & _ & _ & Hid & _ & Hkey & Hst). unfold update_of.
  rewrite decide_True by done. rewrite Hid, Hkey, Hst. simpl. by rewrite of_value_value.
Qed.

Lemma update_moved t s' reason now e :
  transition_event t s' reason now e →
  update_of e = Moved (task_id (spec t)) (status s') (attempt_count s').
Proof.
  intros (Hty & _ & _ & Hid & _ & _ & _ & Hst & _ & Hn). unfold update_of.
  rewrite decide_False by (rewrite Hty; done). rewrite decide_True by done.
  rewrite Hid, Hst, Hn. simpl. by rewrite of_value_value.
Qed.

Lemma update_engagement g target now e :
  engagement_event g target now e → update_of e = EngagementMoved target.
Proof.
  intros (Hty & _ & _ & _ & _ & _ & Hst). unfold update_of.
  rewrite decide_False by (rewrite Hty; done). rewrite decide_False by (rewrite Hty; done).
  rewrite decide_True by done. rewrite Hst. simpl. by rewrite of_value_value.
Qed.

Lemma task_replay_skip rows rows' id :
  Forall (λ r, ¬ state_event (row_event r)) rows' →
  task_replay (rows ++ rows') id = task_replay rows id.
Proof.
  intros Hs. unfold task_replay. rewrite fold_left_app. generalize (fold_left (task_update id) rows None).
  induction Hs as [|r rows' Hr _ IH]; intros o; [done|]. simpl.
  unfold task_update at 2. rewrite update_skip by done. apply IH.
Qed.

Lemma engagement_replay_app rows rows' tenant id :
  Forall (λ r, ¬ about_engagement tenant id r) rows' →
  engagement_replay (rows ++ rows') tenant id = engagement_replay rows tenant id.
Proof.
  intros Hs. unfold engagement_replay. rewrite filter_app, (filter_none _ rows'), app_nil_r; [done|].
  by apply Forall_forall.
Qed.

Lemma not_about r tenant id : ¬ state_event (row_event r) → ¬ about_engagement tenant id r.
Proof. intros Hn (Hty & _). apply Hn. unfold state_event. rewrite Hty. set_solver. Qed.

(** Tasks and engagements keep their owners. *)
Lemma engagement_kept now db db' id g :
  db_step now db db' → engagements db !! id = Some g →
  ∃ g', engagements db' !! id = Some g' ∧ eng_tenant_id g' = eng_tenant_id g.
Proof.
  intros Hs Hi. destruct Hs; rewrite Heng; eauto;
    (destruct (decide (id0 = id)) as [->|]; [|rewrite lookup_insert_ne by done; eauto]);
    rewrite lookup_insert_eq; eexists; (split; [done|]); naive_solver.
Qed.

Lemma owner_step now db db' r : db_step now db db' → owner_ok db r → owner_ok db' r.
Proof.
  intros Hs (Hst & Ht & He). split; [done|]. split.
  - intros Hty. destruct (Ht Hty) as (id & t & ? & Hl & ? & ? & ?).
    apply (spec_kept_step _ _ _ Hs) in Hl as (t' & Hl' & Hsp).
    exists id, t'. rewrite Hsp. by split_and!.
  - intros Hty. destruct (He Hty) as (? & id & g & ? & Hl & ?). split; [done|].
    apply (engagement_kept _ _ _ _ _ Hs) in Hl as (g' & ? & Hten). exists id, g'.
    rewrite Hten. by split_and!.
Qed.

(** A ledger without events about a task or an engagement. *)
Lemma task_replay_unknown db id :
  replay_inv db → tasks db !! id = None → task_replay (audit_events (ledger db)) id = None.
Proof.
  intros [Hrows _ _] Hid. unfold task_replay.
  rewrite <- (fold_filter _ (λ _, False)); [by rewrite filter_none by tauto|].
  intros o r Hr _. unfold task_update. destruct (update_of (row_event r)) as [i key st|i st n| |] eqn:Hu; try done.
  - case_decide as Hi; [|done]. subst i. exfalso.
    revert Hu. unfold update_of. case_decide as Hty; [|repeat case_match; done].
    destruct (Hrows r Hr) as [_ (_ & Ho & _)]; [unfold state_event; rewrite Hty; left|].
    destruct Ho as (i & t & Hi & Ht & _); [rewrite Hty; left|]. rewrite Hi.
    repeat case_match; intros [=]; congruence.
  - case_decide as Hi; [|done]. subst i. exfalso.
    revert Hu. unfold update_of. case_decide; [repeat case_match; done|].
    case_decide as Hty; [|repeat case_match; done].
    destruct (Hrows r Hr) as [_ (_ & Ho & _)]; [unfold state_event; rewrite Hty; right; left|].
    destruct Ho as (i & t & Hi & Ht & _); [rewrite Hty; right; left|]. rewrite Hi.
    repeat case_match; intros [=]; congruence.
Qed.

Lemma engagement_replay_unknown db tenant id :
  replay_inv db → engagements db !! id = None →
  engagement_replay (audit_events (ledger db)) tenant id = EngagementStatus.PLANNED.
Proof.
  intros [Hrows _ _] Hid. unfold engagement_replay. rewrite filter_none; [done|].
  intros r Hr (Hty & _ & He).
  destruct (Hrows r Hr) as [_ (_ & _ & Ho)]; [unfold state_event; rewrite Hty; set_solver|].
  destruct (Ho Hty) as (_ & i & g & Hi & Hg & _). congruence.
Qed.

(** Replaying the created events of a compiled workflow. *)
Lemma created_other now new rows id o :
  Forall2 (λ t e, created_event t now e) new (map row_event rows) →
  id ∉ map (λ t, task_id (spec t)) new → fold_left (task_update id) rows o = o.
Proof.
  revert new o. induction rows as [|r rows IH]; intros new o HF Hid; [done|].
  simpl in HF. apply Forall2_cons_inv_r in HF as (t & new' & He & HF & ->). simpl in Hid.
  apply not_elem_of_cons in Hid as [Hne Hid]. simpl.
  unfold task_update at 2. rewrite (update_created _ _ _ He). rewrite decide_False by done.
  by eapply IH.
Qed.

Lemma created_self now new rows t o :
  Forall2 (λ t e, created_event t now e) new (map row_event rows) →
  NoDup (map (λ t, task_id (spec t)) new) → t ∈ new →
  fold_left (task_update (task_id (spec t))) rows o =
    Some (mkReplayTask (task_id (spec t)) (task_key (spec t)) (status (state t)) 0).
Proof.
  revert new o. induction rows as [|r rows IH]; intros new o HF Hnd Ht; simpl in HF.
  { apply Forall2_nil_inv_r in HF as ->. by apply elem_of_nil in Ht. }
  apply Forall2_cons_inv_r in HF as (u & new' & He & HF & ->).
  simpl in Hnd. apply NoDup_cons in Hnd as [Hu Hnd].
  simpl. apply elem_of_cons in Ht as [->|Ht].
  - unfold task_update at 2. rewrite (update_created _ _ _ He), decide_True by done.
    by eapply created_other.
  - by eapply IH.
Qed.

(** The rows a step adds decode, and name their owners. *)
Lemma transition_row_ok db t s' reason now r :
  transition_event t s' reason now (row_event r) → stream_id r = stream_of (row_event r) →
  tasks db !! task_id (spec t) = Some (set_state s' t) → task_id (spec t) ≠ "" →
  proper (row_event r) ∧ owner_ok db r.
Proof.
  intros He Hs Ht Hne. split; [intros _; by rewrite (update_moved _ _ _ _ _ He)|].
  destruct He as (Hty & Hten & Heng & Hid & _). split; [done|]. split.
  - intros _. exists (task_id (spec t)), (set_state s' t). by split_and!.
  - intros Hty'. rewrite Hty in Hty'. done.
Qed.

Lemma created_row_ok db t now r :
  created_event t now (row_event r) → stream_id r = stream_of (row_event r) →
  tasks db !! task_id (spec t) = Some t → task_id (spec t) ≠ "" →
  proper (row_event r) ∧ owner_ok db r.
Proof.
  intros He Hs Ht Hne. split; [intros _; by rewrite (update_created _ _ _ He)|].
  destruct He as (Hty & Hten & Heng & Hid & _). split; [done|]. split.
  - intros _. exists (task_id (spec t)), t. by split_and!.
  - intros Hty'. rewrite Hty in Hty'. done.
Qed.

Lemma engagement_row_ok db g g' target now r :
  engagement_event g target now (row_event r) → stream_id r = stream_of (row_event r) →
  engagements db !! engagement_id g = Some g' → eng_tenant_id g' = eng_tenant_id g →
  proper (row_event r) ∧ owner_ok db r.
Proof.
  intros He Hs Hg Hten'. split; [intros _; by rewrite (update_engagement _ _ _ _ He)|].
  destruct He as (Hty & Hten & Heng & Hid & _). split; [done|]. split.
  - intros Hty'. rewrite Hty in Hty'. exfalso.
    refine (bool_decide_eq_false_1 (ENGAGEMENT_TRANSITIONED ∈ _) _ Hty'). by vm_compute.
  - intros _. split; [done|]. exists (engagement_id g), g'. split_and!; [done..|congruence].
Qed.

(** The rows are those there were and the [new] ones. *)
Lemma rows_step now db db' new :
  db_step now db db' → replay_inv db →
  audit_events (ledger db') = audit_events (ledger db) ++ new →
  (∀ r, r ∈ new → state_event (row_event r) → proper (row_event r) ∧ owner_ok db' r) →
  ∀ r, r ∈ audit_events (ledger db') → state_event (row_event r) →
    proper (row_event r) ∧ owner_ok db' r.
Proof.
  intros Hs Hri E Hnew r Hr Hst. rewrite E in Hr. apply elem_of_app in Hr as [Hr|Hr]; [|by apply Hnew].
  destruct (ri_rows _ Hri r Hr Hst). split; [done|]. by eapply owner_step.
Qed.

(** A step that adds no state event and keeps every status. *)
Lemma replay_inv_quiet now db db' new :
  db_step now db db' → replay_inv db →
  audit_events (ledger db') = audit_events (ledger db) ++ new →
  Forall (λ r, ¬ state_event (row_event r)) new →
  (∀ id t, tasks db' !! id = Some t → ∃ t0, tasks db !! id = Some t0 ∧ task_image t0 = task_image t) →
  (∀ id g, engagements db' !! id = Some g →
     (∃ g0, engagements db !! id = Some g0 ∧ eng_tenant_id g0 = eng_tenant_id g ∧
            eng_status g0 = eng_status g) ∨
     engagements db !! id = None ∧ eng_status g = EngagementStatus.PLANNED) →
  replay_inv db'.
Proof.
  intros Hs Hri E Hnew Ht Hg. split.
  - eapply rows_step; try done. intros r Hr Hst. rewrite Forall_forall in Hnew. by apply Hnew in Hr.
  - intros id t Hid. destruct (Ht id t Hid) as (t0 & Hid0 & <-). rewrite E, task_replay_skip by done.
    by apply (ri_tasks _ Hri).
  - intros id g Hid. rewrite E, engagement_replay_app.
    + destruct (Hg id g Hid) as [(g0 & Hid0 & <- & <-)|[Hnone ->]]; [by apply (ri_engagements _ Hri)|].
      by apply engagement_replay_unknown.
    + eapply Forall_impl; [exact Hnew|]. intros r. apply not_about.
Qed.

Lemma replay_inv_task now db db' id t s' reason e :
  db_step now db db' → wf db → replay_inv db → tasks db !! id = Some t →
  tasks db' = <[id := set_state s' t]> (tasks db) → engagements db' = engagements db →
  logs (ledger db) (ledger db') e → transition_event t s' reason now e → replay_inv db'.
Proof.
  intros Hs Hwf Hri Ht Htasks Heng Hlog Hev. pose proof (wf_tasks_id _ Hwf _ _ Ht) as Hid. subst id.
  destruct (ri_tasks _ Hri _ _ Ht) as [Hne Himg].
  pose proof (logs_audit _ _ _ Hlog) as E. set (r := mkAuditEventRow e _ _) in E. split.
  - eapply rows_step; try done. intros r' ->%list_elem_of_singleton _.
    eapply transition_row_ok; try done. by rewrite Htasks, lookup_insert_eq.
  - intros i x Hx. rewrite E. unfold task_replay. rewrite fold_left_app. simpl.
    unfold task_update at 1. simpl. rewrite (update_moved _ _ _ _ _ Hev).
    rewrite Htasks in Hx. apply lookup_insert_Some in Hx as [[<- <-]|[Hi Hx]].
    + split; [done|]. rewrite decide_True by done. fold (task_replay (audit_events (ledger db)) (task_id (spec t))).
      by rewrite Himg.
    + rewrite decide_False by done. by apply (ri_tasks _ Hri).
  - intros i g Hg. rewrite Heng in Hg. rewrite E, engagement_replay_app; [by apply (ri_engagements _ Hri)|].
    apply Forall_singleton. intros (Hty & _). destruct Hev as (Hty' & _). simpl in Hty.
    rewrite Hty' in Hty. done.
Qed.

Lemma replay_inv_engagement now db db' id g g' e :
  db_step now db db' → wf db → replay_inv db → engagements db !! id = Some g →
  engagement_id g' = engagement_id g ∧ eng_tenant_id g' = eng_tenant_id g →
  tasks db' = tasks db → engagements db' = <[id := g']> (engagements db) →
  logs (ledger db) (ledger db') e → engagement_event g (eng_status g') now e → replay_inv db'.
Proof.
  intros Hs Hwf Hri Hg [_ Hten] Htasks Heng Hlog Hev.
  pose proof (wf_engagements_id _ Hwf _ _ Hg) as Hid. subst id.
  pose proof (logs_audit _ _ _ Hlog) as E. set (r := mkAuditEventRow e _ _) in E. split.
  - eapply rows_step; try done. intros r' ->%list_elem_of_singleton _.
    eapply engagement_row_ok; try done. by rewrite Heng, lookup_insert_eq.
  - intros i x Hx. rewrite E. unfold task_replay. rewrite fold_left_app. simpl.
    unfold task_update at 1. simpl. rewrite (update_engagement _ _ _ _ Hev).
    rewrite Htasks in Hx. by apply (ri_tasks _ Hri).
  - intros i x Hx. rewrite Heng in Hx. rewrite E.
    assert (Habout : ∀ ten i, about_engagement ten i r ↔ ten = eng_tenant_id g ∧ i = engagement_id g).
    { intros ten' i'. destruct Hev as (Hty & Ht & He & _). unfold about_engagement. simpl.
      rewrite Hty, Ht, He. naive_solver. }
    apply lookup_insert_Some in Hx as [[<- <-]|[Hi Hx]].
    + unfold engagement_replay. rewrite filter_app, filter_cons_True, fold_left_app
        by (by rewrite Habout). simpl. unfold engagement_update at 1. simpl.
      by rewrite (update_engagement _ _ _ _ Hev).
    + rewrite engagement_replay_app; [by apply (ri_engagements _ Hri)|].
      apply Forall_singleton. rewrite Habout. naive_solver.
Qed.

Lemma replay_inv_compile now db db' tenant_id id new l1 es e :
  db_step now db db' → wf db → replay_inv db →
  Forall (compiled tenant_id id) new → (∀ t, t ∈ new → tasks db !! task_id (spec t) = None) →
  NoDup (map (λ t, task_id (spec t)) new) →
  tasks db' = foldr (λ t m, <[task_id (spec t) := t]> m) (tasks db) new →
  engagements db' = engagements db →
  ledger_env (ledger db) l1 → logs_all l1 (ledger db') (es ++ [e]) →
  Forall2 (λ t e, created_event t now e) new es → ¬ state_event e → replay_inv db'.
Proof.
  intros Hs Hwf Hri Hcomp Hfresh Hnd Htasks Heng [(env & E1 & Henv) _ _ _] Hlog Hes He.
  apply logs_all_grow in Hlog as (rows & E2 & Hrows & Hstream). rewrite E1, <- app_assoc in E2.
  apply map_eq_app in Hrows as (crows & last & -> & Hcrows & Hlast).
  apply map_eq_cons in Hlast as (lrow & nil & -> & Hlrow & Hnil). apply map_eq_nil in Hnil as ->.
  rewrite <- Hcrows in Hes. rewrite Forall_forall in Hcomp. rewrite Forall_forall in Hstream.
  assert (Hadded : ∀ t, t ∈ new → tasks db' !! task_id (spec t) = Some t)
    by (intros t Ht; by rewrite Htasks, lookup_added_task).
  assert (Hl : ∀ i o, fold_left (task_update i) [lrow] o = o).
  { intros i o. simpl. unfold task_update. rewrite update_skip; [done|]. by rewrite Hlrow. }
  assert (Htail : ∀ i, task_replay (audit_events (ledger db) ++ env ++ crows ++ [lrow]) i =
    fold_left (task_update i) crows (task_replay (audit_events (ledger db)) i)).
  { intros i. rewrite (app_assoc _ env). unfold task_replay at 1. rewrite fold_left_app.
    fold (task_replay (audit_events (ledger db) ++ env) i). rewrite task_replay_skip by done.
    by rewrite fold_left_app, Hl. }
  split.
  - eapply rows_step; try done. intros r Hr Hst. rewrite Forall_forall in Henv.
    rewrite !elem_of_app in Hr. destruct Hr as [Hr|[Hr|Hr]]; [by apply Henv in Hr| |].
    + apply list_elem_of_lookup in Hr as Hi. destruct Hi as [i Hi].
      assert (Hi' : map row_event crows !! i = Some (row_event r)) by (by rewrite list_lookup_fmap, Hi).
      destruct (Forall2_lookup_r _ _ _ _ _ Hes Hi') as (t & Ht & Hev).
      apply list_elem_of_lookup_2 in Ht. eapply created_row_ok; [done| |by apply Hadded|].
      * apply Hstream. apply elem_of_app. by left.
      * by apply Hcomp in Ht as (_ & _ & ? & _).
    + apply list_elem_of_singleton in Hr as ->. by rewrite Hlrow in Hst.
  - intros i x Hx. rewrite E2, Htail. rewrite Htasks in Hx.
    apply lookup_new_tasks in Hx as [Hx|[Hx <-]].
    + rewrite (created_other now new); [by apply (ri_tasks _ Hri)|done|].
      intros (t & -> & Ht)%list_elem_of_fmap. apply Hfresh in Ht. congruence.
    + apply Hcomp in Hx as Hc. destruct Hc as (_ & _ & Hne & Hst). split; [done|].
      erewrite created_self by done. unfold task_image. by rewrite Hst.
  - intros i g Hg. rewrite Heng in Hg. rewrite E2, engagement_replay_app; [by apply (ri_engagements _ Hri)|].
    rewrite Forall_forall in Henv. apply Forall_forall. intros r Hr Ha.
    rewrite !elem_of_app in Hr. destruct Hr as [Hr|[Hr|Hr]].
    + by apply (not_about r _ _ (Henv r Hr)) in Ha.
    + apply list_elem_of_lookup in Hr as [k Hk].
      assert (Hk' : map row_event crows !! k = Some (row_event r)) by (by rewrite list_lookup_fmap, Hk).
      destruct (Forall2_lookup_r _ _ _ _ _ Hes Hk') as (t & _ & Hty & _). destruct Ha as (Hty' & _).
      rewrite Hty in Hty'. done.
    + apply list_elem_of_singleton in Hr as ->. eapply not_about; [|exact Ha]. by rewrite Hlrow.
Qed.

Lemma replay_inv_reachable db : reachable db → replay_inv db.
Proof.
  apply reachable_invariant.
  { intros now. split; [by intros r ?%elem_of_nil|by intros id t|by intros id g]. }
  intros now db1 db2 Hs Hwf Hri. pose proof Hs as Hstep.
  destruct Hs as [id t s' reason e ? ? ? ? ? ? ? ? Hev|id t s' ex e ? Hrun ? Hs' ? ? ? ? Hlog Hev|
    id g g' e ? ? ? ? ? ? ? ? ? ? Hev|id g g' ? Hsame ? ? ? ? ? Hled|
    ten eid new deps l1 es e ? ? ? ? ? ? ? ? ? ? ? ? ?|id g ? Hrow ? ? ? ? Hled|? ? ? ? Henv].
  - by eapply replay_inv_task.
  - destruct (heartbeat_env _ _ _ _ _ _ Hev Hlog) as [(rows & E & Hq) _ _ _].
    eapply replay_inv_quiet; try done.
    + intros i x Hx. destruct Hs' as [_ ->]. rewrite Htasks in Hx.
      apply lookup_insert_Some in Hx as [[<- <-]|[_ Hx]]; eauto.
    + intros i x Hx. left. rewrite Heng in Hx. eauto.
  - by eapply replay_inv_engagement.
  - eapply (replay_inv_quiet now db1 db2 []); try done.
    + by rewrite Hled, app_nil_r.
    + intros i x Hx. rewrite Htasks in Hx. eauto.
    + intros i x Hx. left. rewrite Heng in Hx. destruct Hsame as (_ & Ht & Hst).
      apply lookup_insert_Some in Hx as [[<- <-]|[_ Hx]]; eauto.
  - by eapply replay_inv_compile; eauto using compiled_quiet.
  - eapply (replay_inv_quiet now db1 db2 []); try done.
    + by rewrite Hled, app_nil_r.
    + intros i x Hx. rewrite Htasks in Hx. eauto.
    + intros i x Hx. rewrite Heng in Hx. destruct Hrow as [_ Hst].
      apply lookup_insert_Some in Hx as [[<- <-]|[_ Hx]]; [by right|left; eauto].
  - destruct Henv as [(rows & E & Hq) _ _ _]. eapply replay_inv_quiet; try done.
    + intros i x Hx. rewrite Htasks in Hx. eauto.
    + intros i x Hx. left. rewrite Heng in Hx. eauto.
Qed.
End replay_invariant.

(** ** Replay agrees with the canonical rows *)

Section replay_correct.
Context `{UuidSource}.

(** The task of an engagement, as [list_tasks] sees it. *)
Definition task_in (db : OrchDB) (tenant_id eid id : string) : option EngagementTask :=
  t ← tasks db !! id;
  if decide (task_tenant_id (spec t) = tenant_id ∧ task_engagement_id (spec t) = eid)
  then Some t else None.

Lemma task_in_Some db tenant eid id t :
  task_in db tenant eid id = Some t ↔
  tasks db !! id = Some t ∧ task_tenant_id (spec t) = tenant ∧ task_engagement_id (spec t) = eid.
Proof.
  unfold task_in. rewrite bind_Some. split.
  - intros (t' & Ht & Hd). case_decide; naive_solver.
  - intros (Ht & ? & ?). exists t. by rewrite decide_True.
Qed.

Lemma processed_scope l tenant eng r :
  r ∈ processed (list_events l tenant (Some eng)) → in_scope tenant (Some eng) r ∧ r ∈ audit_events l.
Proof.
  unfold processed. intros ([s k] & Hr & Hk)%list_elem_of_bind.
  destruct (group_streams_spec (list_events l tenant (Some eng))) as (_ & _ & Hl).
  rewrite elem_of_sort_by, (Hl _ _ Hk) in Hr. apply list_elem_of_filter in Hr as [_ Hr].
  unfold list_events in Hr. rewrite elem_of_sort_by in Hr. by apply list_elem_of_filter in Hr.
Qed.

Definition about_task (id : string) (r : AuditEventRow) : Prop :=
  ev_task_id (row_event r) = Some id ∧
  ev_event_type (row_event r) ∈ [TASK_CREATED; TASK_TRANSITIONED].
#[export] Instance about_task_dec i r : Decision (about_task i r).
Proof. unfold about_task. apply _. Defined.

Lemma task_update_other id o r : ¬ about_task id r → task_update id o r = o.
Proof.
  intros Hn. unfold task_update.
  destruct (update_of (row_event r)) as [i key st|i st n| |] eqn:Hu; try done;
    (case_decide as Hi; [|done]; subst i; exfalso; apply Hn; revert Hu; unfold update_of, about_task;
     repeat (case_match; try done); intros [=]; subst; split; [done|]).
  - match goal with Hq : ev_event_type _ = _ |- _ => rewrite Hq; left end.
  - match goal with Hq : ev_event_type _ = TASK_TRANSITIONED |- _ => rewrite Hq; right; left end.
Qed.

Lemma engagement_update_other tenant eng s r :
  in_scope tenant (Some eng) r → ¬ about_engagement tenant eng r → engagement_update s r = s.
Proof.
  intros [Hten Heng] Hn. unfold engagement_update.
  destruct (update_of (row_event r)) eqn:Hu; try done. exfalso. apply Hn. revert Hu.
  unfold update_of, about_engagement. repeat (case_match; try done).
Qed.

Lemma replayed_task db tenant eid id :
  replay_inv db → numbered (ledger db) → wf db →
  fold_left (task_update id) (processed (list_events (ledger db) tenant (Some eid))) None =
    task_image <$> task_in db tenant eid id.
Proof.
  intros Hri Hn Hwf. set (L := processed _).
  rewrite <- (fold_filter _ (about_task id)) by (intros; by apply task_update_other).
  destruct (task_in db tenant eid id) as [t|] eqn:Ht; simpl.
  - apply task_in_Some in Ht as (Ht & Hten & Heid).
    destruct (ri_tasks _ Hri _ _ Ht) as [Hne Himg].
    unfold L. rewrite (processed_stream _ _ _ id); [|done|].
    + rewrite fold_filter by (intros; by apply task_update_other). exact Himg.
    + intros r Hr [Hid Hty].
      destruct (ri_rows _ Hri r Hr) as [_ (Hs & Ho & _)].
      { unfold state_event. set_solver. }
      destruct (Ho Hty) as (i & t' & Hi & Ht' & _ & H1 & H2).
      rewrite Hid in Hi. injection Hi as <-. rewrite Ht in Ht'. injection Ht' as <-.
      split; [split; congruence|]. rewrite Hs. unfold stream_of. rewrite Hid. simpl.
      by rewrite decide_False.
  - rewrite filter_none; [done|]. intros r Hr [Hid Hty].
    apply processed_scope in Hr as [[Hten Heng] Hr].
    destruct (ri_rows _ Hri r Hr) as [_ (_ & Ho & _)]; [unfold state_event; set_solver|].
    destruct (Ho Hty) as (i & t' & Hi & Ht' & _ & H1 & H2).
    rewrite Hid in Hi. injection Hi as <-.
    enough (task_in db tenant eid id = Some t') by congruence.
    apply task_in_Some. split; [done|]. split; congruence.
Qed.

Lemma replayed_engagement db tenant eid g :
  replay_inv db → numbered (ledger db) → get_engagement db tenant eid = Some g →
  fold_left engagement_update (processed (list_events (ledger db) tenant (Some eid)))
    EngagementStatus.PLANNED = eng_status g.
Proof.
  intros Hri Hn [Hg Hten]%get_engagement_Some.
  rewrite <- (fold_filter _ (about_engagement tenant eid)).
  - rewrite (processed_stream _ _ _ (str_or (Some eid) ("tenant:" +:+ tenant))); [|done|].
    + rewrite <- Hten. by apply (ri_engagements _ Hri).
    + intros r Hr (Hty & Ht & He). split; [done|].
      destruct (ri_rows _ Hri r Hr) as [_ (Hs & _ & Ho)]; [unfold state_event; set_solver|].
      destruct (Ho Hty) as (Hid & _). rewrite Hs. unfold stream_of. by rewrite Hid, He, Ht.
  - intros s r Hr Hna. apply processed_scope in Hr as [Hsc _]. by eapply engagement_update_other.
Qed.

Lemma processed_proper db tenant eid :
  replay_inv db →
  Forall (λ r, proper (row_event r)) (processed (list_events (ledger db) tenant (Some eid))).
Proof.
  intros Hri. apply Forall_forall. intros r Hr Hst. apply processed_scope in Hr as [_ Hr].
  by apply (ri_rows _ Hri r Hr).
Qed.

(** The canonical snapshot, by task. *)
Lemma canonical_lookup db tenant eid i :
  wf db →
  fold_left (λ (m : gmap string TaskSnapshot) t, <[snap_task_id t := t]> m)
    (map snapshot_task (list_tasks db tenant eid)) ∅ !! i = snapshot_task <$> task_in db tenant eid i.
Proof.
  intros Hwf. destruct (list_tasks_spec db tenant eid Hwf) as [Hnd Hin].
  assert (Hgen : ∀ l (m : gmap string TaskSnapshot), NoDup (map (λ t, task_id (spec t)) l) →
    fold_left (λ m t, <[snap_task_id t := t]> m) (map snapshot_task l) m !! i =
      match list_find (λ t, task_id (spec t) = i) l with
      | Some (_, t) => Some (snapshot_task t) | None => m !! i end).
  { clear. induction l as [|t l IH]; intros m Hnd; [done|]. cbn [map] in *.
    apply NoDup_cons in Hnd as [Ht Hnd]. cbn [fold_left]. rewrite IH by done. simpl.
    destruct (decide (task_id (spec t) = i)) as [Hi|Hi].
    - destruct (list_find (λ t0, task_id (spec t0) = i) l) as [[k u]|] eqn:Hf.
      + exfalso. apply Ht. apply list_find_Some in Hf as (Hu & Heq & _). rewrite Hi, <- Heq.
        apply (list_elem_of_fmap_2 (λ t, task_id (spec t))). by eapply list_elem_of_lookup_2.
      + subst i. apply lookup_insert_eq.
    - destruct (list_find (λ t0, task_id (spec t0) = i) l) as [[k u]|] eqn:Hf; simpl; [done|].
      by apply lookup_insert_ne. }
  rewrite Hgen by done. rewrite lookup_empty.
  destruct (list_find _ _) as [[k t]|] eqn:Hf.
  - apply list_find_Some in Hf as (Ht & <- & _). apply list_elem_of_lookup_2, Hin in Ht as [[? ?] ?].
    by rewrite (proj2 (task_in_Some _ _ _ _ t)).
  - destruct (task_in db tenant eid i) as [t|] eqn:Ht; [|done]. exfalso.
    apply task_in_Some in Ht as (Ht & ? & ?). pose proof (wf_tasks_id _ Hwf _ _ Ht) as Hid.
    apply list_find_None in Hf. rewrite Forall_forall in Hf. apply (Hf t); [|done].
    apply Hin. by rewrite Hid.
Qed.

(** Equal images compare equal. *)
Lemma compare_matches replayed canonical (m : gmap string EngagementTask) :
  rp_engagement_status replayed = snap_engagement_status canonical →
  (∀ i, rp_tasks replayed !! i = task_image <$> m !! i) →
  (∀ i, fold_left (λ (m : gmap string TaskSnapshot) t, <[snap_task_id t := t]> m)
          (snap_tasks canonical) ∅ !! i = snapshot_task <$> m !! i) →
  let c := compare_projection replayed canonical in
  matches c = true ∧ task_status_mismatches c = [] ∧ missing_in_replay c = [] ∧
  missing_in_canonical c = [].
Proof.
  intros Hst Hr Hc. unfold compare_projection. set (cm := fold_left _ _ _) in *.
  assert (Hdom : dom (rp_tasks replayed) = dom cm).
  { apply set_eq. intros i. rewrite !elem_of_dom, Hr, Hc. by rewrite !fmap_is_Some. }
  assert (Hmis : (sorted_strings (elements (dom (rp_tasks replayed) ∩ dom cm)) ≫= λ id,
    match rp_tasks replayed !! id, cm !! id with
    | Some r, Some c => if decide (rp_status r = snap_status c) then [] else [(id, (rp_status r, snap_status c))]
    | _, _ => []
    end) = []).
  { induction (sorted_strings _) as [|i l IH]; [done|]. rewrite bind_cons, IH, app_nil_r.
    rewrite Hr, Hc. destruct (m !! i) as [t|]; simpl; [by rewrite decide_True|done]. }
  rewrite Hmis, Hdom, !difference_diag_L, elements_empty. simpl.
  by rewrite bool_decide_true.
Qed.

Lemma snapshot_Ok db tenant eid g :
  get_engagement db tenant eid = Some g → snapshot tenant eid db = Ok (snapshot_of db g, db).
Proof.
  intros Hg. unfold snapshot. erewrite tx_bind_step; [done|].
  unfold require_engagement. erewrite tx_bind_step by done. by rewrite Hg.
Qed.

(** The replay of the ledger is the canonical state. *)
Lemma verify_replay_spec db tenant eid g :
  reachable db → get_engagement db tenant eid = Some g →
  ∃ c, verify_replay db tenant eid = Ok c ∧ matches c = true ∧
    canonical_engagement_status c = eng_status g ∧ replayed_engagement_status c = eng_status g ∧
    task_status_mismatches c = [] ∧ missing_in_replay c = [] ∧ missing_in_canonical c = [].
Proof.
  intros Hreach Hg. pose proof (replay_inv_reachable db Hreach) as Hri.
  pose proof (reachable_wf db Hreach) as Hwf. destruct (ledger_inv_reachable db Hreach) as [Hn _].
  unfold verify_replay, replay_events. fold (processed (list_events (ledger db) tenant (Some eid))).
  rewrite replay_rows_update by (by apply processed_proper). cbn [res_bind].
  rewrite (snapshot_Ok _ _ _ _ Hg).
  pose proof Hg as [Hgid Hten]%get_engagement_Some. pose proof (wf_engagements_id _ Hwf _ _ Hgid) as Hid.
  set (p := fold_left _ _ _).
  assert (Hst : rp_engagement_status p = eng_status g).
  { unfold p. rewrite fold_engagement. by apply replayed_engagement. }
  eexists. split; [done|].
  destruct (compare_matches p (snapshot_of db g)
    (omap (λ t, if decide (task_tenant_id (spec t) = tenant ∧ task_engagement_id (spec t) = eid)
                then Some t else None) (tasks db))) as (? & ? & ? & ?).
  - exact Hst.
  - intros i. rewrite lookup_omap. unfold p. rewrite fold_task. simpl. rewrite lookup_empty.
    by apply replayed_task.
  - intros i. rewrite lookup_omap. unfold snapshot_of. simpl. rewrite Hten, Hid.
    by apply canonical_lookup.
  - by split_and!.
Qed.
End replay_correct.
