(* ===== verification/OrchBehaviour.v ===== *)
(** * Orchestration: what the operations do

    The functional behaviour of the operations in reachable states: what a claim
    returns and when there is one, what a failure turns into, and the fixed point
    a reconciliation leaves. *)

From S2P Require Import Prelude PyFloat PyTime Ledger OrchDefs OrchStore OrchCompiler Orchestrator OrchMachine OrchRefinement OrchInvariants.
Local Open Scope Z_scope.

Section totality.
Context `{UuidSource}.

(** Recording never violates the unique constraint of the outbox. *)
Lemma record_total ty tenant eng task aty aid pl now db :
  keys_drawn (ledger db) →
  ∃ l' id, record ty tenant eng task aty aid pl now db = Ok (tt, set_ledger l' db) ∧
    logs (ledger db) l' (mkAuditEvent id ty tenant eng task now (dict_safe pl)).
Proof.
  intros Hk. destruct (record ty tenant eng task aty aid pl now db) as [[[] db']|e] eqn:E.
  { apply record_Ok in E as E'. destruct E' as (l' & id & -> & Hlog). by exists l', id. }
  exfalso. revert E. unfold record, new_event_id, draw.
  unfold zoom at 1. unfold mbind at 1, tx_bind at 1. simpl. unfold mbind at 1, tx_bind at 1.
  unfold zoom at 1, append, modify. simpl. unfold zoom. simpl.
  match goal with |- match outbox_add ?a ?b ?c ?d ?p ?k ?l with _ => _ end = _ → _ =>
    destruct (outbox_add_total a b c d p k l) as (l' & ->); [|done] end.
  apply Forall_forall. intros o Ho [_ Heq]. simpl in Ho. eapply Hk; [exact Ho| |exact Heq]. lia.
Qed.

Lemma record_transition_total id from to reason now extra db t :
  keys_drawn (ledger db) → tasks db !! id = Some t →
  ∃ l', record_task_transition id from to reason now extra db = Ok (tt, set_ledger l' db).
Proof.
  intros Hk Ht. unfold record_task_transition.
  erewrite tx_bind_step; [|unfold row; erewrite tx_bind_step by done; by rewrite Ht]. simpl.
  edestruct (record_total TASK_TRANSITIONED) as (l' & eid & E & _); [exact Hk|].
  exists l'. exact E.
Qed.

(** ** Claiming *)

Lemma take_sorted_head {A} (c : A → A → comparison) `{!Comparator c, !CmpTrans c} n l x rest :
  take (S n) (sort_by c l) = x :: rest → x ∈ l ∧ ∀ y, y ∈ l → c x y ≠ Gt.
Proof.
  intros Ht. pose proof (sort_by_sorted c l) as Hs. pose proof (elem_of_sort_by c l) as Hin.
  destruct (sort_by c l) as [|z k]; [done|]. simpl in Ht. injection Ht as -> _.
  apply StronglySorted_cons in Hs as [Hx _]. rewrite Forall_forall in Hx.
  split; [apply Hin; left|]. intros y Hy. apply Hin in Hy.
  apply elem_of_cons in Hy as [->|Hy]; [|by apply Hx].
  pose proof (comparator_antisym (c:=c) x x). by destruct (c x x).
Qed.

Lemma claimable_spec tenant now eng types roles t :
  claimable tenant now eng types roles t = true →
  task_tenant_id (spec t) = tenant ∧ status (state t) = TaskStatus.READY ∧
  available (state t) now = true ∧ ¬ due (deadline_at (spec t)) now ∧
  matches_opt eng (Some (task_engagement_id (spec t))) ∧
  in_filter types (Some (task_type (spec t))) = true ∧
  in_filter roles (assigned_agent_role (spec t)) = true.
Proof.
  unfold claimable. rewrite !andb_true_iff, !bool_decide_eq_true. intros.
  destruct_and?. split_and!; try done. by apply not_due_deadline.
Qed.

Definition claimable_tasks (db : OrchDB) tenant now eng types roles : list EngagementTask :=
  filter (λ t, claimable tenant now eng types roles t = true) (all_tasks db).

(** The tasks a call may claim, and the order in which it prefers them. *)
Definition may_claim (db : OrchDB) (tenant : string) (now : datetime) (eng : option string)
    (types roles : option (list string)) (t : EngagementTask) : Prop :=
  tasks db !! task_id (spec t) = Some t ∧ task_tenant_id (spec t) = tenant ∧
  status (state t) = TaskStatus.READY ∧
  (∀ a, available_at (state t) = Some a → a ≤ now) ∧
  (∀ d, deadline_at (spec t) = Some d → now < d) ∧
  (∀ e, eng = Some e → task_engagement_id (spec t) = e) ∧
  (∀ l, types = Some l → l ≠ [] → task_type (spec t) ∈ l) ∧
  (∀ l, roles = Some l → l ≠ [] → ∃ r, assigned_agent_role (spec t) = Some r ∧ r ∈ l).

Definition no_later (t u : TaskSpec) : Prop :=
  priority t < priority u ∨
  priority t = priority u ∧
    (created_at t < created_at u ∨
     created_at t = created_at u ∧
       (task_key t = task_key u ∨ String.ltb (task_key t) (task_key u) = true)).

Lemma in_filter_spec names column :
  in_filter names column = true ↔
  ∀ l, names = Some l → l ≠ [] → ∃ c, column = Some c ∧ c ∈ l.
Proof.
  unfold in_filter. split.
  - intros Hf l -> Hl. destruct l as [|x l]; [done|]. destruct column as [c|]; [|done].
    apply bool_decide_eq_true in Hf. eauto.
  - intros Hf. destruct names as [[|x l]|]; [done| |done].
    destruct (Hf (x :: l)) as (c & -> & Hc); [done..|]. by apply bool_decide_eq_true.
Qed.

Lemma claimable_may db tenant now eng types roles t :
  wf db → t ∈ claimable_tasks db tenant now eng types roles ↔ may_claim db tenant now eng types roles t.
Proof.
  intros Hwf. unfold claimable_tasks. rewrite list_elem_of_filter, (proj2 (all_tasks_spec db Hwf) t).
  unfold claimable, may_claim, available, matches_opt.
  rewrite !andb_true_iff, !bool_decide_eq_true, !in_filter_spec. split.
  - intros [[[[[[[? ?] Ha] Hd] He] Ht] Hr] ?]. split_and!; try done.
    + intros a Ea. rewrite Ea in Ha. by apply Z.leb_le.
    + intros d Ed. rewrite Ed in Hd. by apply Z.ltb_lt.
    + intros e ->. by injection He.
    + intros l El Hl. destruct (Ht l El Hl) as (c & [= ->] & ?). done.
  - intros (? & ? & ? & Ha & Hd & He & Ht & Hr). split_and!; try done.
    + destruct (available_at _) as [a|]; [|done]. apply Z.leb_le. by apply Ha.
    + destruct (deadline_at _) as [d|]; [|done]. apply Z.ltb_lt. by apply Hd.
    + destruct eng as [e|]; [|done]. by rewrite (He e).
    + intros l El Hl. exists (task_type (spec t)). split; [done|]. by apply (Ht l).
Qed.

Lemma task_cmp_no_later t u : task_cmp t u ≠ Gt → no_later (spec t) (spec u).
Proof.
  unfold task_cmp, cmp_then, cmp_on, no_later.
  intros Hc. destruct (Z.compare_spec (priority (spec t)) (priority (spec u))); [right|by left|done].
  split; [done|].
  destruct (Z.compare_spec (created_at (spec t)) (created_at (spec u))); [right|by left|done].
  split; [done|]. unfold String.ltb. destruct (String.compare _ _) eqn:E; [left|by right|done].
  by apply String.compare_eq_iff.
Qed.

(** The state a claim gives a task: it runs under the worker's lease, and what the
    task produced and how it was reviewed are kept. *)
Definition claimed_state (worker : string) (now expires : datetime) (s : TaskState) : TaskState :=
  mkTaskState TaskStatus.RUNNING (attempt_count s + 1) (Some worker) (Some expires) None (Some now)
    (completed_at s) (output_refs s) (result s) None None (review_status s).

(** What a claim of [t] changes: its row, a new attempt, and one transition on record. *)
Record claims (worker : string) (now expires : datetime) `{UuidSource} (t : EngagementTask)
    (db db' : OrchDB) : Prop := {
  claims_tasks : tasks db' =
    <[task_id (spec t) := set_state (claimed_state worker now expires (state t)) t]> (tasks db);
  claims_attempt : ∃ id, attempts db' = attempts db ++
    [mkTaskAttempt id (task_tenant_id (spec t)) (task_engagement_id (spec t)) (task_id (spec t))
       (attempt_count (state t) + 1) worker "running" now None (Some expires) None None None [] None];
  claims_rest : engagements db' = engagements db ∧ dependencies db' = dependencies db;
  claims_logged : ∃ l e, ledger_drawn (ledger db) l ∧ logs l (ledger db') e ∧
    transition_event t (claimed_state worker now expires (state t)) "worker_claimed" now e
}.

(** The lease a worker is given. *)
Definition lease_on (worker : string) (expires : datetime) (t : EngagementTask) : TaskLease :=
  mkTaskLease (task_tenant_id (spec t)) (task_engagement_id (spec t)) (task_id (spec t))
    (task_key (spec t)) (task_type (spec t)) (assigned_agent_role (spec t))
    (attempt_count (state t) + 1) worker expires (input_refs (spec t)) (execution_policy (spec t))
    (model_policy (spec t)) (tool_policy (spec t)) (deadline_at (spec t)) (human_gate (spec t)).

Lemma claim_ready_total worker now lease_seconds expires db t :
  wf db → attempts_inv db → keys_drawn (ledger db) →
  tasks db !! task_id (spec t) = Some t → status (state t) = TaskStatus.READY →
  available (state t) now = true → add_us now (seconds lease_seconds) = Ok expires →
  let db1 := changed (task_id (spec t)) (claim_changes worker now expires (state t)) db in
  ∃ l' id, start_attempt (task_id (spec t)) worker now db1 =
      Ok (tt, set_attempts (attempts db ++
        [mkTaskAttempt id (task_tenant_id (spec t)) (task_engagement_id (spec t)) (task_id (spec t))
           (attempt_count (state t) + 1) worker "running" now None (Some expires) None None None [] None])
        (set_ledger l' (set_tasks
           (<[task_id (spec t) := set_state (claimed_state worker now expires (state t)) t]> (tasks db)) db))) ∧
    ledger_drawn (ledger db) l' ∧ keys_drawn l'.
Proof.
  intros Hwf [Hatt _] Hk Ht Hst Hav Hexp db1. subst db1. rewrite (changed_eq _ _ _ _ Ht).
  destruct (Hatt _ _ Ht) as (Hno & Hlen & _).
  unfold start_attempt. eexists _, _. split; [|split].
  - erewrite tx_bind_step; [|unfold row; erewrite tx_bind_step by done; simpl; by rewrite lookup_insert_eq].
    simpl. unfold fresh_id, new_id, draw.
    erewrite tx_bind_step by done. erewrite tx_bind_step by done. simpl.
    erewrite tx_bind_step; [done|]. rewrite bool_decide_true; [simpl|].
    + replace (0 <? attempt_count (state t) + 1) with true by (symmetry; apply Z.ltb_lt; lia). done.
    + apply Forall_forall. intros a Ha [Hid Hn].
      assert (Hv : attempt_view a ∈ attempts_of (attempts db) (task_id (spec t))).
      { apply (list_elem_of_fmap_2 attempt_view). by apply list_elem_of_filter. }
      pose proof (numbered_bound _ _ Hno Hv) as Hb. simpl in Hb. lia.
  - apply ledger_drawn_one.
  - simpl. intros o n Ho Hn. apply Hk; [done|]. simpl in Hn. lia.
Qed.

Lemma row_Some id db t : tasks db !! id = Some t → row id db = Ok (t, db).
Proof. intros Ht. unfold row. erewrite tx_bind_step by done. by rewrite Ht. Qed.

(** The repository claims the first of the rows it selects. *)
Lemma repo_claim_spec tenant worker lease_seconds eng types roles now expires db :
  wf db → add_us now (seconds lease_seconds) = Ok expires →
  let ready := claimable_tasks db tenant now eng types roles in
  (ready = [] ∧ repo_claim_next tenant worker now lease_seconds eng types roles db = Ok (None, db)) ∨
  ∃ t, t ∈ ready ∧ (∀ u, u ∈ ready → task_cmp t u ≠ Gt) ∧
    repo_claim_next tenant worker now lease_seconds eng types roles db =
      Ok (Some (task_id (spec t)),
          changed (task_id (spec t)) (claim_changes worker now expires (state t)) db).
Proof.
  intros Hwf Hexp ready. unfold repo_claim_next. rewrite (tx_bind_step _ _ _ db db) by done.
  unfold claim_candidates. fold (claimable_tasks db tenant now eng types roles). fold ready.
  destruct (take 20 (sort_by task_cmp ready)) as [|t rest] eqn:Htake.
  - left. split; [|done]. pose proof (sort_by_Permutation task_cmp ready) as Hp.
    destruct (sort_by task_cmp ready); [by apply Permutation_nil_l in Hp|done].
  - right. apply take_sorted_head in Htake as [Hin Hmin]; [|apply _..].
    exists t. split; [done|]. split; [done|].
    apply list_elem_of_filter in Hin as [Hc Hin].
    apply (all_tasks_spec db Hwf) in Hin. apply claimable_spec in Hc as (Hten & Hst & Hav & _).
    cbn [claim_loop]. rewrite Hexp. rewrite (tx_bind_step _ _ _ expires db) by done.
    rewrite (tx_bind_step _ _ _ db db) by done.
    rewrite (proj2 (get_task_Some db tenant (task_id (spec t)) t)) by done.
    rewrite (bool_decide_true _ Hst), Hav. by cbn.
Qed.

(** A claim returns the first claimable task, whenever there is one, and never raises. *)
Lemma claim_next_spec tenant worker lease_seconds eng types roles now expires db :
  wf db → attempts_inv db → keys_drawn (ledger db) →
  0 < lease_seconds → add_us now (seconds lease_seconds) = Ok expires →
  ((∀ t, ¬ may_claim db tenant now eng types roles t) ∧
   claim_next tenant worker lease_seconds eng types roles now db = Ok (None, db)) ∨
  ∃ t db', may_claim db tenant now eng types roles t ∧
    (∀ u, may_claim db tenant now eng types roles u → no_later (spec t) (spec u)) ∧
    claim_next tenant worker lease_seconds eng types roles now db =
      Ok (Some (lease_on worker expires t), db') ∧
    claims worker now expires t db db'.
Proof.
  intros Hwf Hatt Hk Hpos Hexp. unfold claim_next.
  rewrite (tx_bind_step _ _ _ tt db) by (unfold require; by rewrite (proj2 (Z.ltb_lt _ _) Hpos)).
  destruct (repo_claim_spec tenant worker lease_seconds eng types roles now expires db Hwf Hexp)
    as [[Hnone E]|(t & Hin & Hmin & E)]; rewrite (tx_bind_step _ _ _ _ _ E); [left|right].
  { split; [|done]. intros t. rewrite <- claimable_may, Hnone by done. apply not_elem_of_nil. }
  pose proof (proj1 (claimable_may _ _ _ _ _ _ _ Hwf) Hin) as Hmay.
  pose proof Hin as [Hc Hl]%list_elem_of_filter. apply (all_tasks_spec db Hwf) in Hl.
  apply claimable_spec in Hc as (Hten & Hst & Hav & _).
  destruct (claim_ready_total worker now lease_seconds expires db t)
    as (l1 & id & E1 & Hd1 & Hk1); [done..|].
  set (t1 := set_state (claimed_state worker now expires (state t)) t) in *.
  set (db1 := set_attempts _ _) in E1.
  assert (Hrow : tasks db1 !! task_id (spec t) = Some t1) by apply lookup_insert_eq.
  destruct (record_transition_total (task_id (spec t)) TaskStatus.READY TaskStatus.RUNNING
    "worker_claimed" now [("worker_id", JStr worker);
      ("lease_expires_at", match lease_expires_at (state t1) with Some e => JTime e | None => JNull end)]
    db1 t1 Hk1 Hrow) as (l' & E2).
  exists t, (set_ledger l' db1). split; [done|]. split.
  { intros u Hu. apply task_cmp_no_later, Hmin. by apply claimable_may. }
  split.
  - rewrite (tx_bind_step _ _ _ _ _ E1), (tx_bind_step _ _ _ _ _ (row_Some _ _ _ Hrow)).
    rewrite (tx_bind_step _ _ _ _ _ E2). reflexivity.
  - destruct (record_task_transition_Ok _ _ _ _ _ _ _ _ _ t1 E2 Hrow) as (l2 & e & El & Hlog & Hev); [done..|].
    apply (f_equal ledger) in El. simpl in El. subst l2. split; [done|by exists id|done|].
    exists l1, e. split_and!; [done..|]. by apply Hev.
Qed.

(** ** Reconciliation reaches a fixed point *)

Lemma reconcile_pass_true body l db b db' :
  reconcile_pass body l true db = Ok (b, db') → b = true.
Proof.
  revert db. induction l as [|id l IH]; intros db E; simpl in E; [by apply tx_ret_Ok in E as [-> _]|].
  apply tx_bind_Ok in E as (b1 & db1 & _ & E). by eapply IH.
Qed.

Lemma reconcile_pass_false tenant_id ids dm now l db db' :
  loop_ready tenant_id ids dm db → (∀ id, id ∈ l → id ∈ ids) →
  reconcile_pass (reconcile_task ids dm now) l false db = Ok (false, db') →
  ∀ id, id ∈ l → reconcile_task ids dm now id db = Ok (false, db).
Proof.
  intros Hready. induction l as [|i l IH]; intros Hl E id Hid; simpl in E; [by apply elem_of_nil in Hid|].
  apply tx_bind_Ok in E as (b1 & db1 & E1 & E).
  destruct b1; simpl in E; [by apply reconcile_pass_true in E|].
  pose proof Hready as (Hwf & Hown & Hdm).
  assert (Hi : i ∈ ids) by (apply Hl; left).
  destruct (reconcile_task_step tenant_id ids dm now i db false db1 Hwf Hi Hown Hdm E1)
    as [[_ ->]|(? & _)]; [|done].
  apply elem_of_cons in Hid as [->|Hid]; [done|]. apply IH; [|done..]. intros; apply Hl; by right.
Qed.

(** A task the loop leaves pending has neither failed nor satisfied prerequisites. *)
Lemma reconcile_task_fixed tenant_id ids dm now id db t :
  loop_ready tenant_id ids dm db → id ∈ ids → tasks db !! id = Some t →
  status (state t) = TaskStatus.PENDING →
  reconcile_task ids dm now id db = Ok (false, db) → ¬ dep_failed db t ∧ ¬ deps_ok db t.
Proof.
  intros (Hwf & Hown & Hdm) Hid Ht Hp E. unfold reconcile_task in E.
  rewrite (tx_bind_step _ _ _ _ _ (row_Some _ _ _ Ht)) in E.
  rewrite bool_decide_true in E by done. simpl in E.
  apply tx_bind_Ok in E as (rows & s1 & [-> Hrows]%dependency_rows_Ok & E).
  destruct (Hown id Hid) as (t0 & Ht0 & Hten). rewrite Ht in Ht0. injection Ht0 as <-.
  pose proof (wf_tasks_id _ Hwf _ _ Ht) as Hkey. subst id.
  destruct (existsb _ rows) eqn:Hfail.
  { by apply tx_bind_Ok in E as ([] & ? & _ & ([] & ? & _ & [? _]%tx_ret_Ok)%tx_bind_Ok). }
  apply tx_bind_Ok in E as (db0 & s1 & [-> ->]%gets_Ok & E).
  destruct (dependencies_satisfied db (dm (task_id (spec t)))) eqn:Hsat; simpl in E.
  { destruct (runnable_changes t now) as [[changes to] reason].
    by apply tx_bind_Ok in E as ([] & ? & _ & ([] & ? & _ & [? _]%tx_ret_Ok)%tx_bind_Ok). }
  split.
  - intros (d & t' & Hd & Hdt & Hdten & Hdep & Hst). apply not_true_iff_false in Hfail. apply Hfail.
    assert (Hin : d ∈ dm (task_id (spec t))) by (apply Hdm; [done|split_and!; [done..|congruence]]).
    apply list_elem_of_lookup in Hin as [i Hi].
    destruct (Forall2_lookup_l _ _ _ _ _ Hrows Hi) as (r & Hr & _ & Hrow).
    apply existsb_decide. exists r. split; [by eapply list_elem_of_lookup_2|]. congruence.
  - intros Hok. apply not_true_iff_false in Hsat. apply Hsat, dependencies_satisfied_spec.
    intros d Hd. apply Hdm in Hd as (? & ? & ?); [|done]. apply Hok; [done..|congruence].
Qed.

Lemma rows_Ok ids db rows db' :
  tx_map row ids db = Ok (rows, db') →
  db' = db ∧ Forall2 (λ id t, tasks db !! id = Some t) ids rows.
Proof. apply tx_map_reads. by intros id t s1 _ [? ->]%row_Ok. Qed.

Lemma transition_engagement_status id target reason now extra db u db' g :
  engagements db !! id = Some g → transition_engagement id target reason now extra db = Ok (u, db') →
  ∃ g', engagements db' !! id = Some g' ∧ eng_status g' = target.
Proof.
  intros Hg E. unfold transition_engagement in E.
  apply tx_bind_Ok in E as (db0 & s1 & [-> ->]%gets_Ok & E).
  apply tx_bind_Ok in E as (g0 & s1 & [Hg0 ->]%some_or_raise_Ok & E).
  rewrite Hg in Hg0. injection Hg0 as <-. case_decide as Hst.
  - apply tx_ret_Ok in E as [_ ->]. by exists g.
  - apply tx_bind_Ok in E as ([] & s1 & ->%save_engagement_Ok & E).
    apply record_Ok in E as (l' & eid & -> & _). exists (set_eng_status target g). split; [|done].
    simpl. by rewrite lookup_alter_eq, Hg.
Qed.

Lemma reconcile_status_spec tenant_id id ids now db u db' g :
  wf db → engagements db !! id = Some g →
  reconcile_engagement_status tenant_id id ids now db = Ok (u, db') →
  tasks db' = tasks db ∧ dependencies db' = dependencies db ∧
  ∃ g', engagements db' !! id = Some g' ∧
    (eng_status g = EngagementStatus.CANCELLED ∧ g' = g ∨
     eng_status g ≠ EngagementStatus.CANCELLED ∧ ∃ rows, Forall2 (λ i t, tasks db !! i = Some t) ids rows ∧
       eng_status g' = (target_status (map (λ t, status (state t)) rows)).1).
Proof.
  intros Hwf Hg E. pose proof E as E0. apply reconcile_status_steps in E0 as (_ & ? & ?); [|done].
  split; [done|]. split; [done|]. unfold reconcile_engagement_status in E.
  apply tx_bind_Ok in E as (db0 & s1 & [-> ->]%gets_Ok & E).
  apply tx_bind_Ok in E as (g0 & s1 & [Hg0 ->]%some_or_raise_Ok & E).
  rewrite Hg in Hg0. injection Hg0 as <-.
  case_bool_decide as Hst; [apply tx_ret_Ok in E as [_ ->]; exists g; split; [done|by left]|].
  apply tx_bind_Ok in E as (rows & s1 & [-> Hrows]%rows_Ok & E).
  destruct (target_status _) as [target reason] eqn:Htarget.
  apply tx_bind_Ok in E as ([] & db1 & Et & E).
  assert (Hg1 : ∃ g1, engagements db1 !! id = Some g1).
  { case_bool_decide; [apply save_engagement_Ok in Et as ->|apply tx_ret_Ok in Et as [_ ->]; by exists g].
    simpl. rewrite lookup_alter_eq, Hg. by eexists. }
  destruct Hg1 as [g1 Hg1].
  eapply transition_engagement_status in E as (g' & Hg' & Hs); [|exact Hg1].
  exists g'. split; [done|]. right. split; [done|]. exists rows. by rewrite Htarget.
Qed.

(** What [_reconcile_engagement] leaves. *)
Lemma reconcile_fixed tenant_id id now db u db' g :
  wf db → engagements db !! id = Some g → list_tasks db tenant_id id ≠ [] →
  reconcile_engagement tenant_id id now db = Ok (u, db') →
  ∃ rows g', Forall2 (λ t t', tasks db' !! task_id (spec t) = Some t') (list_tasks db tenant_id id) rows ∧
    (∀ t, t ∈ rows → status (state t) = TaskStatus.PENDING → ¬ dep_failed db' t ∧ ¬ deps_ok db' t) ∧
    engagements db' !! id = Some g' ∧
    eng_status g' = if decide (eng_status g = EngagementStatus.CANCELLED)
                    then EngagementStatus.CANCELLED
                    else (target_status (map (λ t, status (state t)) rows)).1.
Proof.
  intros Hwf Hg Hne E. unfold reconcile_engagement in E.
  apply tx_bind_Ok in E as (db0 & s1 & [-> ->]%gets_Ok & E).
  rewrite bool_decide_false in E by (intros ?%map_eq_nil; done).
  apply tx_bind_Ok in E as ([] & db1 & El & E).
  pose proof (reconcile_ready db tenant_id id Hwf) as Hready.
  eapply reconcile_loop_spec in El as (Hs & Hr & He & Hpo & Hfix); [|exact Hready].
  fold (task_ids db tenant_id id) in *. fold (table_of db tenant_id id) in *.
  pose proof (reconcile_pass_false _ _ _ _ _ _ _ Hr (λ _ H, H) Hfix) as Hfixed.
  rewrite <- He in Hg. destruct (reconcile_status_spec _ _ _ _ _ _ _ g (proj1 Hr) Hg E)
    as (Ht & Hd & g' & Hg' & Hst).
  assert (Hrows : ∃ rows, Forall2 (λ i t, tasks db1 !! i = Some t) (task_ids db tenant_id id) rows).
  { destruct Hr as (_ & Hown & _). revert Hown. generalize (task_ids db tenant_id id).
    induction l as [|i l IH]; intros Hown; [by exists []|].
    destruct (Hown i) as (t & Hi & _); [left|]. destruct IH as [rows IH]; [intros j ?; apply Hown; by right|].
    exists (t :: rows). by constructor. }
  assert (Hlast : ∃ rows, Forall2 (λ i t, tasks db1 !! i = Some t) (task_ids db tenant_id id) rows ∧
    eng_status g' = if decide (eng_status g = EngagementStatus.CANCELLED)
                    then EngagementStatus.CANCELLED
                    else (target_status (map (λ t, status (state t)) rows)).1).
  { destruct Hst as [[Hc ->]|(Hc & rows & HF & Hs')].
    - destruct Hrows as [rows HF]. exists rows. by rewrite decide_True.
    - exists rows. split; [done|]. by rewrite decide_False. }
  destruct Hlast as (rows & HF & Hs'). exists rows, g'. rewrite Ht.
  split; [by apply Forall2_fmap_l in HF|]. split; [|done].
  intros t Ht1 Hp. apply list_elem_of_lookup in Ht1 as [k Hk].
  destruct (Forall2_lookup_r _ _ _ _ _ HF Hk) as (i & Hi & Hti).
  apply list_elem_of_lookup_2 in Hi.
  destruct (reconcile_task_fixed tenant_id (task_ids db tenant_id id) (table_of db tenant_id id)
    now i db1 t Hr Hi Hti Hp (Hfixed i Hi)) as [Hf Ho].
  split.
  - unfold dep_failed. by rewrite Hd, Ht.
  - unfold deps_ok. by rewrite Hd, Ht.
Qed.
End totality.

Section outcomes.
Context `{UuidSource}.

(** ** What a reported failure does *)

(** Whether [_apply_failure] schedules another attempt. *)
Definition retry_scheduled (t : EngagementTask) (failure_class : FailureClass)
    (force_retryable : option bool) (now : datetime) : Prop :=
  default (bool_decide (failure_class ∈ retryable_failures (retry_policy_of (execution_policy (spec t)))))
    force_retryable = true ∧
  attempt_count (state t) < max_attempts (retry_policy_of (execution_policy (spec t))) ∧
  ¬ due (deadline_at (spec t)) now.

#[export] Instance retry_scheduled_dec t fc force now : Decision (retry_scheduled t fc force now).
Proof. unfold retry_scheduled, due. destruct (deadline_at (spec t)); apply _. Defined.

(** The state a failed execution is left in. *)
Definition failed_state (t : EngagementTask) (failure_class : FailureClass) (message : string)
    (force_retryable : option bool) (now : datetime) (s' : TaskState) : Prop :=
  lease_released s' ∧ attempt_count s' = attempt_count (state t) ∧
  error_class s' = Some (value failure_class) ∧ last_error s' = Some message ∧
  if decide (retry_scheduled t failure_class force_retryable now) then
    status s' = TaskStatus.RETRY_WAIT ∧
    ∃ delay wait, delay_for_attempt (retry_policy_of (execution_policy (spec t)))
                    (attempt_count (state t)) = Ok delay ∧
      timedelta_seconds delay = Ok wait ∧ available_at s' = Some (now + wait)
  else status s' = TaskStatus.FAILED ∧ available_at s' = None ∧ completed_at s' = Some now.

Lemma retry_guard t fc force now :
  default (bool_decide (fc ∈ retryable_failures (retry_policy_of (execution_policy (spec t))))) force &&
  (attempt_count (state t) <? max_attempts (retry_policy_of (execution_policy (spec t)))) &&
  match deadline_at (spec t) with Some d => now <? d | None => true end
  = bool_decide (retry_scheduled t fc force now).
Proof.
  apply eq_true_iff_eq. rewrite bool_decide_eq_true, !andb_true_iff, Z.ltb_lt.
  unfold retry_scheduled, due. destruct (deadline_at (spec t)) as [d|].
  - rewrite Z.ltb_lt. split; [intros [[? ?] ?]|intros (? & ? & ?)]; (split_and!; [done..|lia]).
  - naive_solver.
Qed.

Lemma record_transition_tasks id from to reason now extra db u db' :
  record_task_transition id from to reason now extra db = Ok (u, db') →
  ∃ l', db' = set_ledger l' db.
Proof.
  intros E. apply tx_bind_Ok in E as (t & s1 & [_ ->]%row_Ok & E).
  apply record_Ok in E as (l' & _ & -> & _). by exists l'.
Qed.

Lemma apply_failure_spec id fc message now force db u db' t :
  tasks db !! id = Some t → apply_failure id fc message now force db = Ok (u, db') →
  ∃ s', tasks db' = <[id := set_state s' t]> (tasks db) ∧ failed_state t fc message force now s'.
Proof.
  intros Ht E. unfold apply_failure in E.
  rewrite (tx_bind_step _ _ _ _ _ (row_Some _ _ _ Ht)), retry_guard in E.
  unfold failed_state. case_bool_decide as Hr.
  - apply tx_bind_Ok in E as (delay & s1 & [Hd ->]%from_res_Ok & E).
    apply tx_bind_Ok in E as (wait & s1 & [Hw ->]%from_res_Ok & E).
    apply tx_bind_Ok in E as (avail & s1 & [Ha ->]%from_res_Ok & E).
    apply tx_bind_Ok in E as ([] & db1 & ->%save_changed & [l' ->]%record_transition_tasks).
    rewrite (changed_eq _ t) by done. eexists. split; [done|]. rewrite decide_True by done.
    split_and!; [done..|]. exists delay, wait. split_and!; [done..|]. simpl.
    unfold add_us in Ha. destruct (in_range _); congruence.
  - apply tx_bind_Ok in E as ([] & db1 & ->%save_changed & [l' ->]%record_transition_tasks).
    rewrite (changed_eq _ t) by done. eexists. split; [done|]. by rewrite decide_False.
Qed.

Lemma reconcile_and_snapshot_keeps tenant_id eid now db a db' id t :
  wf db → reconcile_and_snapshot tenant_id eid now db = Ok (a, db') →
  tasks db !! id = Some t → status (state t) ≠ TaskStatus.PENDING → tasks db' !! id = Some t.
Proof.
  intros Hwf E Ht Hp. apply tx_bind_Ok in E as (e & s1 & ->%require_engagement_reads & E).
  apply tx_bind_Ok in E as ([] & db1 & [_ Hpo]%reconcile_steps & ->%snapshot_reads); [|done].
  by apply Hpo.
Qed.

(** A worker's report of a failure is accepted only from the holder of a live
    lease, and it retries the task or fails it as the policy says. *)
Lemma fail_task_spec tenant_id id worker fc message force now db a db' :
  wf db → fail_task tenant_id id worker fc message force now db = Ok (a, db') →
  ∃ t s', tasks db !! id = Some t ∧ task_tenant_id (spec t) = tenant_id ∧
    lease_matches t worker now = true ∧
    tasks db' !! id = Some (set_state s' t) ∧ failed_state t fc message force now s'.
Proof.
  intros Hwf E. unfold fail_task in E.
  apply tx_bind_Ok in E as (t & s1 & (Ht & Hten & ->)%require_task_Ok & E).
  apply tx_bind_Ok in E as ([] & s1 & [Hl ->]%require_Ok & E).
  pose proof Hl as (Hrun & _)%lease_matches_inv.
  apply tx_bind_Ok in E as ([] & db1 & E1 & E).
  destruct (apply_failure_spec _ _ _ _ _ _ _ _ _ Ht E1) as (s' & Ht1 & Hf).
  apply tx_bind_Ok in E as (t1 & s1 & [Hrow ->]%row_Ok & E).
  apply tx_bind_Ok in E as ([] & db2 & E2 & E).
  assert (Hwf2 : wf db2).
  { eapply wf_step; [|exact Hwf].
    eapply failure_step; try exact E1; try exact E2; try done. by case_decide. }
  exists t, s'. split_and!; [done..| |done].
  eapply reconcile_and_snapshot_keeps; [exact Hwf2|exact E| |].
  - apply finish_attempt_Ok in E2 as (? & _ & ->). simpl. by rewrite Ht1, lookup_insert_eq.
  - destruct Hf as (_ & _ & _ & _ & Hf). simpl. case_decide; destruct Hf as [-> _]; done.
Qed.
End outcomes.

Section budget.
Context `{UuidSource}.

(** ** The attempt budget *)

#[export] Instance transition_row_dec id reason r : Decision (transition_row id reason r).
Proof.
  unfold transition_row.
  assert (Decision (dict_get "reason" (ev_payload (row_event r)) = Some (JStr reason))).
  { destruct (dict_get _ _) as [[| | | |text| | |]|]; try (by right).
    destruct (decide (text = reason)) as [->|]; [by left|by right; intros [= ?]]. }
  apply _.
Defined.

(** The administrative retries recorded for a task. *)
Definition admin_retries (l : list AuditEventRow) (id : string) : nat :=
  length (filter (transition_row id "administrative_retry") l).

(** The attempts a task may use: those of its policy, and one for each recorded
    administrative retry. *)
Definition budget (db : OrchDB) (t : EngagementTask) : Z :=
  Z.max 1 (max_attempts (retry_policy_of (execution_policy (spec t)))) +
  Z.of_nat (admin_retries (audit_events (ledger db)) (task_id (spec t))).

(** A task that may still be claimed without another decision. *)
Definition claim_ahead (t : EngagementTask) : Prop :=
  status (state t) ∈ [TaskStatus.PENDING; TaskStatus.READY; TaskStatus.RETRY_WAIT] ∨
  status (state t) = TaskStatus.WAITING_APPROVAL ∧ gated "before" t.

Definition budget_inv (db : OrchDB) : Prop :=
  ∀ id t, tasks db !! id = Some t →
    attempt_count (state t) ≤ budget db t ∧
    (claim_ahead t → attempt_count (state t) < budget db t).

Lemma budget_step now db db' t :
  db_step now db db' → budget db t ≤ budget db' t.
Proof.
  intros (rows & E)%step_audit_grows. unfold budget, admin_retries. rewrite E, filter_app, length_app.
  lia.
Qed.

Lemma budget_retry now db db' t s' e :
  logs (ledger db) (ledger db') e → transition_event t s' "administrative_retry" now e →
  budget db' t = budget db t + 1.
Proof.
  intros Hlog (Hty & _ & _ & Hid & _ & _ & _ & _ & Hr & _). unfold budget, admin_retries.
  rewrite (logs_audit _ _ _ Hlog), filter_app, length_app, filter_cons_True by done.
  simpl. lia.
Qed.

Lemma gated_once t : gated "before" t → gated "after" t → False.
Proof.
  intros [_ H1] [_ H2]. unfold gate_position_is in *. destruct (dict_get _ _) as [[]|]; try done;
  apply bool_decide_eq_true in H1, H2. congruence.
Qed.

Lemma claim_ahead_start t :
  status (state t) ∈ [TaskStatus.PENDING; TaskStatus.READY; TaskStatus.RETRY_WAIT] → claim_ahead t.
Proof. by left. Qed.

(** A move to a claimable status starts from one, or stays within the policy, or
    is a recorded retry. *)
Lemma claim_ahead_move db now t s' reason :
  task_move db now t s' reason → claim_ahead (set_state s' t) →
  claim_ahead t ∨ reason = "administrative_retry" ∨
  attempt_count (state t) < max_attempts (retry_policy_of (execution_policy (spec t))).
Proof.
  intros Hmove Hc. unfold claim_ahead in Hc. simpl in Hc.
  destruct Hmove; first [by right; left|by right; right|idtac];
    first [left; apply claim_ahead_start; known_status|idtac];
    destruct Hc as [Hc|[Hc Hg]]; first [exfalso; known_status|congruence|by left; right|idtac].
  by destruct (gated_once t).
Qed.

Lemma budget_move now db db' t s' reason e :
  db_step now db db' → task_move db now t s' reason →
  logs (ledger db) (ledger db') e → transition_event t s' reason now e →
  attempt_count s' = attempt_count (state t) + (if decide (status s' = TaskStatus.RUNNING) then 1 else 0) →
  attempt_count (state t) ≤ budget db t → (claim_ahead t → attempt_count (state t) < budget db t) →
  attempt_count s' ≤ budget db' t ∧
  (claim_ahead (set_state s' t) → attempt_count s' < budget db' t).
Proof.
  intros Hs Hmove Hlog Hev Hcount H1 H3. pose proof (budget_step _ _ _ t Hs) as Hb.
  rewrite Hcount. case_decide as Hrun.
  - assert (Hc : claim_ahead t) by (apply claim_ahead_start; destruct Hmove; known_status || congruence).
    apply H3 in Hc. split; [lia|]. unfold claim_ahead. simpl. rewrite Hrun.
    intros [?|[? _]]; [known_status|done].
  - split; [lia|]. intros Hc.
    destruct (claim_ahead_move _ _ _ _ _ Hmove Hc) as [Ha|[->|Ha]].
    + apply H3 in Ha. lia.
    + rewrite (budget_retry _ _ _ _ _ _ Hlog Hev). lia.
    + unfold budget. lia.
Qed.

Lemma budget_inv_reachable db : reachable db → budget_inv db.
Proof.
  apply reachable_invariant; [by intros now id t|].
  intros now db1 db2 Hs Hwf IH id x Hx.
  destruct (step_task_change _ _ _ _ _ Hs Hx) as [Hold|t s' reason e Hold -> Hmove Hcount _ Hlog Hev|
    t ex Hold Hrun ->|ten eid (_ & _ & _ & Hnew) Hold].
  - destruct (IH _ _ Hold) as [H1 H3]. pose proof (budget_step _ _ _ x Hs).
    split; [lia|]. intros Hc. apply H3 in Hc. lia.
  - destruct (IH _ _ Hold) as [H1 H3].
    change (budget db2 (set_state s' t)) with (budget db2 t). by eapply budget_move.
  - destruct (IH _ _ Hold) as [H1 H3]. pose proof (budget_step _ _ _ t Hs).
    unfold budget, claim_ahead in *. simpl. rewrite Hrun. split; [lia|].
    intros [?|[? _]]; [known_status|done].
  - unfold budget. rewrite Hnew. simpl. lia.
Qed.
End budget.

Section completions.
Context `{UuidSource}.

(** ** What a reported success does *)

(** The state an accepted result leaves. *)
Definition completed_state (t : EngagementTask) (res : TaskExecutionResult) (now : datetime)
    (s' : TaskState) : Prop :=
  lease_released s' ∧ result s' = Some (res_result res) ∧ output_refs s' = res_output_refs res ∧
  attempt_count s' = attempt_count (state t) ∧
  if truthy (human_gate (spec t)) && gate_position_is (execution_policy (spec t)) "after"
  then status s' = TaskStatus.WAITING_APPROVAL ∧ review_status s' = Some "pending"
  else status s' = TaskStatus.SUCCEEDED ∧ completed_at s' = Some now.

Lemma complete_task_spec tenant_id id worker res now db a db' :
  wf db → complete_task tenant_id id worker res now db = Ok (a, db') →
  ∃ t s', tasks db !! id = Some t ∧ task_tenant_id (spec t) = tenant_id ∧
    lease_matches t worker now = true ∧
    tasks db' !! id = Some (set_state s' t) ∧ completed_state t res now s'.
Proof.
  intros Hwf E. unfold complete_task in E.
  apply tx_bind_Ok in E as (t & s1 & (Ht & Hten & ->)%require_task_Ok & E).
  apply tx_bind_Ok in E as ([] & s1 & [Hl ->]%require_Ok & E).
  pose proof Hl as (Hrun & Howner & expires & Hexp & Hlive)%lease_matches_inv.
  destruct (completion t res now) as [[changes to] reason] eqn:Hc.
  apply tx_bind_Ok in E as ([] & s1 & ->%save_changed & E).
  apply tx_bind_Ok in E as ([] & db1 & E1 & E).
  apply tx_bind_Ok in E as ([] & db2 & E2 & E).
  assert (Hwf2 : wf db2).
  { eapply wf_step; [|exact Hwf].
    eapply completion_step; try exact Hc; try exact E1; try exact E2; try done.
    rewrite Hexp. simpl. lia. }
  assert (Hrow : tasks db2 !! id = Some (set_state (assign changes (state t)) t)).
  { apply record_transition_tasks in E2 as [l' ->]. apply finish_attempt_Ok in E1 as (? & _ & ->).
    rewrite (changed_eq _ t) by done. by simpl; rewrite lookup_insert_eq. }
  exists t, (assign changes (state t)). split; [done|]. split; [done|]. split; [done|].
  unfold completed_state. unfold completion in Hc.
  destruct (truthy _ && _); injection Hc as <- <- <-; (split; [|by split_and!]);
    eapply reconcile_and_snapshot_keeps; (exact Hwf2 || exact E || exact Hrow || done).
Qed.
End completions.
