(* ===== verification/OrchTotality.v ===== *)
(** * Orchestration: reconciliation always commits

    In a reachable state every dependency joins two tasks of one engagement, so
    the loop of [_reconcile_engagement] finds every row it looks up: it ends,
    raises nothing, and leaves no pending task that could move. *)

From S2P Require Import Prelude PyFloat PyTime Ledger OrchDefs OrchStore OrchCompiler Orchestrator OrchMachine OrchRefinement OrchInvariants OrchBehaviour.
Local Open Scope Z_scope.

Section totality.
Context `{UuidSource}.

(** ** Dependencies stay inside one engagement *)

Definition dependency_closed (db : OrchDB) (d : TaskDependency) : Prop :=
  ∃ t t', tasks db !! dep_task_id d = Some t ∧ tasks db !! depends_on_task_id d = Some t' ∧
    task_tenant_id (spec t) = dep_tenant_id d ∧ task_tenant_id (spec t') = dep_tenant_id d ∧
    task_engagement_id (spec t') = task_engagement_id (spec t).
Definition deps_closed (db : OrchDB) : Prop := Forall (dependency_closed db) (dependencies db).

Lemma dependency_closed_step now db db' d :
  db_step now db db' → dependency_closed db d → dependency_closed db' d.
Proof.
  intros Hs (t & t' & Ht & Ht' & ? & ? & ?).
  destruct (spec_kept_step _ _ _ Hs _ _ Ht) as (u & Hu & E).
  destruct (spec_kept_step _ _ _ Hs _ _ Ht') as (u' & Hu' & E').
  exists u, u'. by rewrite E, E'.
Qed.

Lemma deps_closed_reachable db : reachable db → deps_closed db.
Proof.
  apply reachable_invariant; [by intros now; constructor|].
  intros now db1 db2 Hs Hwf IH. pose proof (dependency_closed_step now db1 db2) as Hkeep.
  assert (Hold : Forall (dependency_closed db2) (dependencies db1)).
  { eapply Forall_impl; [exact IH|]. intros d. by apply Hkeep. }
  unfold deps_closed. destruct Hs; rewrite Hdeps; try done.
  apply Forall_app. split; [done|]. apply Forall_forall. intros d Hd.
  apply Hnew in Hd as (Hten & H1 & H2 & _).
  assert (Hadded : ∀ i, i ∈ map (λ t, task_id (spec t)) new → ∃ t, tasks db2 !! i = Some t ∧
    task_tenant_id (spec t) = tenant_id ∧ task_engagement_id (spec t) = id).
  { intros i (t & -> & Ht)%list_elem_of_fmap. exists t.
    rewrite Htasks, lookup_added_task by done. rewrite Forall_forall in Hcompiled.
    by destruct (Hcompiled t Ht) as (? & ? & _). }
  destruct (Hadded _ H1) as (t & Ht & ? & ?), (Hadded _ H2) as (t' & Ht' & ? & ?).
  exists t, t'. split_and!; congruence.
Qed.

(** ** The loop *)

Section loop.
Context (tenant_id : string) (ids : list string) (dm : string → list TaskDependency)
  (now : datetime) (Hclosed : ∀ id d, id ∈ ids → d ∈ dm id → depends_on_task_id d ∈ ids).

Lemma rows_total db l :
  owned db tenant_id ids → (∀ id, id ∈ l → id ∈ ids) →
  ∃ rows, tx_map row l db = Ok (rows, db).
Proof.
  intros Hown. induction l as [|id l IH]; intros Hl; [by exists []|].
  destruct (Hown id) as (t & Ht & _); [apply Hl; left|].
  destruct IH as (rows & E); [intros; apply Hl; by right|].
  exists (t :: rows). simpl. rewrite (tx_bind_step _ _ _ _ _ (row_Some _ _ _ Ht)).
  by rewrite (tx_bind_step _ _ _ _ _ E).
Qed.

Lemma dependency_rows_total db l :
  owned db tenant_id ids → (∀ d, d ∈ l → depends_on_task_id d ∈ ids) →
  ∃ rows, dependency_rows ids l db = Ok (rows, db).
Proof.
  intros Hown. unfold dependency_rows. induction l as [|d l IH]; intros Hl; [by exists []|].
  assert (Hd : depends_on_task_id d ∈ ids) by (apply Hl; left).
  destruct (Hown _ Hd) as (t & Ht & _). destruct IH as (rows & E); [intros; apply Hl; by right|].
  exists (t :: rows). simpl. unfold require. rewrite bool_decide_true by done.
  rewrite (tx_bind_step _ _ _ t db), (tx_bind_step _ _ _ _ _ E); [done|].
  rewrite (tx_bind_step _ _ _ tt db) by done. by apply row_Some.
Qed.

Lemma save_record_total db id t changes from to reason :
  ledger_inv db → tasks db !! id = Some t →
  ∃ db', (save id changes ;; record_task_transition id from to reason now [] ;; mret true) db
         = Ok (true, db').
Proof.
  intros [_ Hk] Ht.
  destruct (record_transition_total id from to reason now [] (changed id changes db)
    (set_state (assign changes (state t)) t)) as (l' & E); [done| |].
  { by rewrite (changed_eq _ _ _ _ Ht); simpl; rewrite lookup_insert_eq. }
  eexists. rewrite (tx_bind_step _ _ _ tt (changed id changes db)) by done.
  by rewrite (tx_bind_step _ _ _ _ _ E).
Qed.

Lemma reconcile_task_total db id :
  loop_ready tenant_id ids dm db → ledger_inv db → id ∈ ids →
  ∃ b db', reconcile_task ids dm now id db = Ok (b, db').
Proof.
  intros (Hwf & Hown & _) Hled Hid. destruct (Hown id Hid) as (t & Ht & _).
  unfold reconcile_task. rewrite (tx_bind_step _ _ _ _ _ (row_Some _ _ _ Ht)).
  case_match; [by exists false, db|].
  destruct (dependency_rows_total db (dm id) Hown) as (rows & E); [intros d; by apply Hclosed|].
  rewrite (tx_bind_step _ _ _ _ _ E). case_match.
  - edestruct save_record_total as (db' & E'); [done..|]. by exists true, db'.
  - rewrite (tx_bind_step _ _ _ db db) by done. case_match; [by exists false, db|].
    destruct (runnable_changes t now) as [[changes to] reason].
    edestruct save_record_total as (db' & E'); [done..|]. by exists true, db'.
Qed.

Lemma reconcile_pass_total l changed db :
  loop_ready tenant_id ids dm db → ledger_inv db → (∀ id, id ∈ l → id ∈ ids) →
  ∃ b db', reconcile_pass (reconcile_task ids dm now) l changed db = Ok (b, db') ∧ ledger_inv db'.
Proof.
  revert changed db. induction l as [|id l IH]; intros c db Hready Hled Hl; [by exists c, db|].
  assert (Hid : id ∈ ids) by (apply Hl; left).
  destruct (reconcile_task_total db id Hready Hled Hid) as (b & db1 & E).
  simpl. rewrite (tx_bind_step _ _ _ _ _ E). pose proof Hready as (Hwf & Hown & Hdm).
  assert (Hnext : loop_ready tenant_id ids dm db1 ∧ ledger_inv db1).
  { destruct (reconcile_task_step _ _ _ _ _ _ _ _ Hwf Hid Hown Hdm E) as [[_ ->]|(_ & Hs & _)]; [done|].
    split; [by eapply loop_ready_step|]. by eapply ledger_inv_step; [apply own_step_step, Hs|]. }
  apply IH; [apply Hnext..|]. intros; apply Hl; by right.
Qed.

Lemma reconcile_loop_commits fuel db :
  loop_ready tenant_id ids dm db → ledger_inv db → (pending_count db ids < fuel)%nat →
  ∃ db', reconcile_loop fuel (reconcile_task ids dm now) ids db = Ok (tt, db') ∧ ledger_inv db'.
Proof.
  revert db. induction fuel as [|fuel IH]; intros db Hready Hled Hf; [lia|]. simpl.
  destruct (reconcile_pass_total ids false db Hready Hled) as (b & db1 & E & Hled1); [done|].
  rewrite (tx_bind_step _ _ _ _ _ E).
  eapply (reconcile_pass_spec tenant_id) in E as (_ & Hr & _ & _ & Hc); [|done..].
  destruct b; [|by exists db1].
  apply IH; [done..|]. destruct Hc as [[? _]|[_ ?]]; [done|lia].
Qed.

Lemma reconcile_status_total id db g :
  owned db tenant_id ids → ledger_inv db → engagements db !! id = Some g →
  ∃ db', reconcile_engagement_status tenant_id id ids now db = Ok (tt, db').
Proof.
  intros Hown Hled Hg. unfold reconcile_engagement_status.
  rewrite (tx_bind_step _ _ _ db db) by done. rewrite (tx_bind_step _ _ _ g db) by (by rewrite Hg).
  case_match; [by exists db|]. destruct (rows_total db ids Hown) as (rows & E); [done|].
  rewrite (tx_bind_step _ _ _ _ _ E). destruct (target_status _) as [target reason].
  set (completed := if bool_decide _ then _ else _).
  assert (Hcompleted : ∃ db1 g1, completed db = Ok (tt, db1) ∧ engagements db1 !! id = Some g1 ∧
    ledger db1 = ledger db).
  { unfold completed. case_match; [|by exists db, g].
    exists (set_engagements (alter (set_eng_completed_at (Some now)) id (engagements db)) db),
      (set_eng_completed_at (Some now) g). simpl. by rewrite lookup_alter_eq, Hg. }
  destruct Hcompleted as (db1 & g1 & E1 & Hg1 & Hl1).
  rewrite (tx_bind_step _ _ _ _ _ E1). unfold transition_engagement.
  rewrite (tx_bind_step _ _ _ db1 db1) by done. rewrite (tx_bind_step _ _ _ g1 db1) by (by rewrite Hg1).
  case_match; [by exists db1|].
  edestruct record_total as (l' & i & E' & _); [|rewrite (tx_bind_step _ _ _ tt _) by done; by eexists].
  simpl. rewrite Hl1. apply Hled.
Qed.
End loop.

Lemma table_closed db tenant_id eid id d :
  wf db → deps_closed db → id ∈ task_ids db tenant_id eid → d ∈ table_of db tenant_id eid id →
  depends_on_task_id d ∈ task_ids db tenant_id eid.
Proof.
  intros Hwf Hc Hid Hd. pose proof (reconcile_ready db tenant_id eid Hwf) as (_ & _ & Hdm).
  apply (Hdm id Hid) in Hd as (Hd & Hdt & Hdten). unfold deps_closed in Hc. rewrite Forall_forall in Hc.
  destruct (Hc d Hd) as (t & t' & Ht & Ht' & E1 & E2 & E3).
  destruct (list_tasks_spec db tenant_id eid Hwf) as [_ Hin].
  apply list_elem_of_fmap in Hid as (u & -> & [[Hu1 Hu2] Hu]%Hin). rewrite Hdt, Hu in Ht.
  injection Ht as <-. pose proof (wf_tasks_id _ Hwf _ _ Ht') as Hkey.
  apply list_elem_of_fmap. exists t'. split; [done|]. apply Hin. rewrite Hkey.
  split_and!; congruence.
Qed.

Lemma pending_count_length db ids : (pending_count db ids ≤ length ids)%nat.
Proof. unfold pending_count. apply length_filter. Qed.

(** Reconciling an engagement of a reachable state commits. *)
Lemma reconcile_commits db tenant_id id now g :
  reachable db → engagements db !! id = Some g →
  ∃ db', reconcile_engagement tenant_id id now db = Ok (tt, db').
Proof.
  intros Hreach Hg. pose proof (reachable_wf db Hreach) as Hwf.
  pose proof (deps_closed_reachable db Hreach) as Hclosed.
  unfold reconcile_engagement. rewrite (tx_bind_step _ _ _ db db) by done.
  case_bool_decide; [by exists db|]. pose proof (reconcile_ready db tenant_id id Hwf) as Hready.
  fold (task_ids db tenant_id id). fold (table_of db tenant_id id).
  destruct (reconcile_loop_commits tenant_id (task_ids db tenant_id id) (table_of db tenant_id id) now
    (λ i d, table_closed db tenant_id id i d Hwf Hclosed) (S (length (task_ids db tenant_id id))) db)
    as (db1 & E & Hled); [done|by apply ledger_inv_reachable| |].
  { pose proof (pending_count_length db (task_ids db tenant_id id)). lia. }
  rewrite (tx_bind_step _ _ _ _ _ E).
  eapply reconcile_loop_spec in E as (_ & Hr & He & _); [|exact Hready].
  apply (reconcile_status_total tenant_id _ _ _ _ g); [apply Hr|done|by rewrite He].
Qed.
End totality.
