(* ===== verification/OrchWorker.v ===== *)
(** * Orchestration: the local worker

    orchestration/worker.py: [LocalWorker.run_once] runs the maintenance, claims a
    task, calls its handler and reports the outcome, each in a transaction of its
    own.  The handlers are the worker's environment: they and the clock share a
    state [P], and a handler sees the database ([Site]). *)

From S2P Require Import Prelude PyFloat PyTime Ledger PyText OrchDefs OrchStore OrchCompiler Orchestrator.
From S2P Require Import OrchMachine OrchRefinement OrchInvariants OrchBehaviour.
Local Open Scope Z_scope.

(** ** The worker *)

(** What a handler raises: [exceptions.TaskExecutionError] and its two
    subclasses, or any other exception with a class name and a text. *)
Inductive handler_error :=
  | RetryableTaskError (failure_class : FailureClass) (message : string)
  | PermanentTaskError (failure_class : FailureClass) (message : string)
  | TaskExecutionError (failure_class : FailureClass) (message : string)
  | OtherException (name text : string).

Record WorkerRun := mkWorkerRun {
  run_task_id : string;
  run_task_key : string;
  run_outcome : string;
  run_attempt_count : Z
}.

Record Site (P : Type) := mkSite { site_db : OrchDB; site_env : P }.
Arguments mkSite {P}.
Arguments site_db {P}.
Arguments site_env {P}.

Definition handler (P : Type) : Type := TaskLease → Site P → (TaskExecutionResult + handler_error) * Site P.

Record LocalWorker (P : Type) := mkLocalWorker {
  worker_tenant_id : string;
  worker_worker_id : string;
  handlers : list (string * handler P);
  worker_lease_seconds : Z;
  worker_clock : P → datetime * P
}.
Arguments worker_tenant_id {P}.
Arguments worker_worker_id {P}.
Arguments handlers {P}.
Arguments worker_lease_seconds {P}.
Arguments worker_clock {P}.
Arguments mkLocalWorker {P}.

Fixpoint find_handler {P} (task_type : string) (l : list (string * handler P)) : option (handler P) :=
  match l with
  | [] => None
  | (k, h) :: l => if decide (k = task_type) then Some h else find_handler task_type l
  end.

(** [_outcome_for]; a task that is not in the snapshot is a [StopIteration]. *)
Definition outcome_for (s : EngagementSnapshot) (id : string) : Res string :=
  match list_find (λ t, snap_task_id t = id) (snap_tasks s) with
  | Some (_, t) =>
      Ok (if decide (snap_status t = TaskStatus.RETRY_WAIT) then "retry_scheduled" else "failed")
  | None => Err (Py StopIteration)
  end.

Section worker.
Context `{UuidSource} {P : Type} (self : LocalWorker P).

Definition set_site_db (db : OrchDB) (s : Site P) : Site P := mkSite db (site_env s).
Definition consult {A} (f : P → A * P) : Prog (Site P) A :=
  external (λ s, let '(a, p) := f (site_env s) in (a, mkSite (site_db s) p)).
(** A call of the orchestrator: it reads the clock and runs one transaction. *)
Definition orchestrate {A} (m : datetime → OrchTx A) : Prog (Site P) A :=
  now ← consult (worker_clock self); commit site_db set_site_db (m now).
Definition prog_res {A} (r : Res A) : Prog (Site P) A := λ s, (r, s).

Definition report_failure (lease : TaskLease) (failure_class : FailureClass) (message : string)
    (force_retryable : option bool) : Prog (Site P) EngagementSnapshot :=
  orchestrate (fail_task (worker_tenant_id self) (lease_task_id lease) (worker_worker_id self)
    failure_class message force_retryable).

(** [_fail] *)
Definition fail_lease (lease : TaskLease) (failure_class : FailureClass) (message : string)
    (force_retryable : option bool) : Prog (Site P) string :=
  snapshot ← report_failure lease failure_class message force_retryable;
  prog_res (outcome_for snapshot (lease_task_id lease)).

(** The [try] statement. *)
Definition execute (lease : TaskLease) (h : handler P) : Prog (Site P) string :=
  answer ← external (h lease);
  match answer with
  | inl result =>
      _ ← orchestrate (complete_task (worker_tenant_id self) (lease_task_id lease)
            (worker_worker_id self) result);
      mret "completed"
  | inr (RetryableTaskError c m) => fail_lease lease c m (Some true)
  | inr (PermanentTaskError c m) => fail_lease lease c m (Some false)
  | inr (TaskExecutionError c m) => fail_lease lease c m None
  | inr (OtherException name text) =>
      fail_lease lease FailureClass.INTERNAL_ERROR
        ("unhandled handler error: " +:+ name +:+ ": " +:+ text) None
  end.

(** [claim_next] checks the length of the lease before it reads the clock. *)
Definition claim_for_handlers (engagement_id : option string) : Prog (Site P) (option TaskLease) :=
  if 0 <? worker_lease_seconds self
  then orchestrate (claim_next (worker_tenant_id self) (worker_worker_id self)
         (worker_lease_seconds self) engagement_id (Some (map fst (handlers self))) None)
  else prog_res (Err (Py ValueError)).

Definition run_once (engagement_id : option string) : Prog (Site P) (option WorkerRun) :=
  _ ← orchestrate (tick (worker_tenant_id self));
  claimed ← claim_for_handlers engagement_id;
  match claimed with
  | None => mret None
  | Some lease =>
      outcome ←
        match find_handler (lease_task_type lease) (handlers self) with
        | None =>
            _ ← report_failure lease FailureClass.CONFIGURATION_ERROR
                  ("no handler registered for task type " +:+ py_repr (lease_task_type lease))
                  (Some false);
            mret "failed"
        | Some h => execute lease h
        end;
      mret (Some (mkWorkerRun (lease_task_id lease) (lease_task_key lease) outcome
                    (lease_attempt_count lease)))
  end.

(** ** A run keeps the database reachable *)

(** A handler stands by: of the tables of the workflow it changes none, and what it adds
    to the ledger is what any other component may add. *)
Definition aside (db db' : OrchDB) : Prop := ∃ l', db' = set_ledger l' db ∧ ledger_env (ledger db) l'.
Definition bystander (h : handler P) : Prop := ∀ lease s, aside (site_db s) (site_db (h lease s).2).
#[export] Instance aside_refl : Reflexive aside.
Proof. intros db. exists (ledger db). split; [by destruct db|apply ledger_env_refl]. Qed.
#[export] Instance aside_trans : Transitive aside.
Proof.
  intros db1 db2 db3 (l1 & -> & H1) (l2 & -> & H2). exists l2. split; [by destruct db1|]. by eapply ledger_env_trans.
Qed.
Definition bystanders : Prop := Forall (λ k, bystander k.2) (handlers self).

Lemma find_handler_In t (l : list (string * handler P)) h : find_handler t l = Some h → ∃ k, (k, h) ∈ l.
Proof.
  induction l as [|[k h'] l IH]; cbn; [done|]. case_decide; [intros [= <-]; exists k; left|].
  intros [k' Hk']%IH. exists k'. by right.
Qed.
Lemma found_bystander t h : bystanders → find_handler t (handlers self) = Some h → bystander h.
Proof. intros Hall [k Hk]%find_handler_In. unfold bystanders in Hall. rewrite Forall_forall in Hall. exact (Hall _ Hk). Qed.

Definition site_steps (s s' : Site P) : Prop := reachable (site_db s) → reachable (site_db s').
#[local] Instance site_steps_refl : Reflexive site_steps.
Proof. intros s Hs. exact Hs. Qed.
#[local] Instance site_steps_trans : Transitive site_steps.
Proof. intros s1 s2 s3 H1 H2 ?. by apply H2, H1. Qed.

Lemma consult_keeps {A} (f : P → A * P) : prog_keeps site_steps (consult f).
Proof.
  intros s r s' E Hr. unfold consult, external in E. destruct (f (site_env s)).
  injection E as _ <-. exact Hr.
Qed.

Lemma orchestrate_keeps {A} (m : datetime → OrchTx A) (o : operation) :
  valid_operation o = true → (∀ now, run o now = discard (m now)) → prog_keeps site_steps (orchestrate m).
Proof.
  intros Hv Ho. apply prog_keeps_bind; [apply _|apply consult_keeps|].
  intros now s r s' E Hr. unfold commit in E.
  destruct (m now (site_db s)) as [[a db]|e] eqn:Em; injection E as _ <-; [|done].
  eapply (reachable_run o now); [exact Hr|done|]. rewrite Ho. unfold discard.
  by rewrite (tx_bind_step _ _ _ _ _ Em).
Qed.

Lemma handler_keeps (h : handler P) lease : bystander h → prog_keeps site_steps (external (h lease)).
Proof.
  intros Hh s r s' E Hr. destruct (Hh lease s) as (l' & El & Hl). unfold external in E.
  destruct (h lease s) as [a s1]. injection E as _ <-. cbn in El. rewrite El. by apply reachable_env.
Qed.

Lemma prog_res_keeps {A} (r : Res A) : prog_keeps site_steps (prog_res r).
Proof. by intros s r' s' [= _ <-]. Qed.

Lemma report_failure_keeps lease c m force : prog_keeps site_steps (report_failure lease c m force).
Proof.
  by apply (orchestrate_keeps _
    (FailTask (worker_tenant_id self) (lease_task_id lease) (worker_worker_id self) c m force)).
Qed.

Lemma fail_lease_keeps lease c m force : prog_keeps site_steps (fail_lease lease c m force).
Proof.
  apply prog_keeps_bind; [apply _|apply report_failure_keeps|]. intros a. apply prog_res_keeps.
Qed.

Lemma execute_keeps lease h : bystander h → prog_keeps site_steps (execute lease h).
Proof.
  intros Hh. apply prog_keeps_bind; [apply _|by apply handler_keeps|].
  intros [res|[c m|c m|c m|name text]]; try apply fail_lease_keeps.
  apply prog_keeps_bind; [apply _| |intros a; by apply prog_keeps_ret, _].
  by apply (orchestrate_keeps _
    (CompleteTask (worker_tenant_id self) (lease_task_id lease) (worker_worker_id self) res)).
Qed.

Lemma claim_for_handlers_keeps eng : prog_keeps site_steps (claim_for_handlers eng).
Proof.
  unfold claim_for_handlers. case_match; [|apply prog_res_keeps].
  by apply (orchestrate_keeps _ (ClaimNext (worker_tenant_id self) (worker_worker_id self)
    (worker_lease_seconds self) eng (Some (map fst (handlers self))) None)).
Qed.

Lemma run_once_keeps eng : bystanders → prog_keeps site_steps (run_once eng).
Proof.
  intros Hall. apply prog_keeps_bind; [apply _| |].
  { by apply (orchestrate_keeps _ (Tick (worker_tenant_id self))). }
  intros report. apply prog_keeps_bind; [apply _|apply claim_for_handlers_keeps|].
  intros [lease|]; [|by apply prog_keeps_ret, _].
  apply prog_keeps_bind; [apply _| |intros outcome; by apply prog_keeps_ret, _].
  destruct (find_handler _ _) as [h|] eqn:Eh; [by eapply execute_keeps, found_bystander|].
  apply prog_keeps_bind; [apply _|apply report_failure_keeps|]. intros a. by apply prog_keeps_ret, _.
Qed.
End worker.

(** ** The outcome of a run *)

Section outcome.
Context `{UuidSource}.

Lemma claim_next_Some tenant worker n eng types roles now db lease db' :
  reachable db → claim_next tenant worker n eng types roles now db = Ok (Some lease, db') →
  ∃ t expires, tasks db !! lease_task_id lease = Some t ∧ task_tenant_id (spec t) = tenant ∧
    may_claim db tenant now eng types roles t ∧
    task_key (spec t) = lease_task_key lease ∧ task_type (spec t) = lease_task_type lease ∧
    attempt_count (state t) + 1 = lease_attempt_count lease ∧
    tasks db' = <[lease_task_id lease := set_state (claimed_state worker now expires (state t)) t]> (tasks db).
Proof.
  intros Hr E. pose proof E as E0. unfold claim_next, repo_claim_next in E0.
  apply tx_bind_Ok in E0 as ([] & s1 & [Hpos%Z.ltb_lt ->]%require_Ok & E0).
  apply tx_bind_Ok in E0 as (r & db1 & Ec & E0).
  apply tx_bind_Ok in Ec as (db0 & s1 & [-> ->]%gets_Ok & Ec). apply claim_loop_Ok in Ec.
  destruct r as [id|]; [|by apply tx_ret_Ok in E0 as [? _]].
  destruct Ec as (t0 & expires & _ & _ & _ & Hexp & _).
  destruct (claim_next_spec tenant worker n eng types roles now expires db)
    as [[_ E']|(t & db'' & Hmay & _ & E' & Hcl)];
    [by apply reachable_wf|by apply attempts_inv_reachable|by apply ledger_inv_reachable|done..|congruence|].
  rewrite E in E'. injection E' as -> ->. exists t, expires. simpl.
  pose proof Hmay as (Ht & Hten & _). by split_and!; try apply Hcl.
Qed.

Lemma snapshot_is tenant eid db snap db' :
  snapshot tenant eid db = Ok (snap, db') → ∃ e, snap = snapshot_of db' e.
Proof.
  intros E. pose proof E as ->%snapshot_reads.
  apply tx_bind_Ok in E as (e & s1 & _ & [-> ->]%gets_Ok). by exists e.
Qed.

Lemma fail_task_snapshot tenant id worker c m force now db snap db' :
  fail_task tenant id worker c m force now db = Ok (snap, db') → ∃ e, snap = snapshot_of db' e.
Proof.
  intros E. unfold fail_task in E. apply tx_bind_Ok in E as (t & ? & _ & E).
  do 4 apply tx_bind_Ok in E as (? & ? & _ & E).
  apply tx_bind_Ok in E as (? & ? & _ & E). apply tx_bind_Ok in E as (? & ? & _ & E).
  by eapply snapshot_is.
Qed.

(** The outcome is that of the row in the snapshot. *)
Lemma outcome_for_row db e id out t :
  wf db → tasks db !! id = Some t → outcome_for (snapshot_of db e) id = Ok out →
  out = if decide (status (state t) = TaskStatus.RETRY_WAIT) then "retry_scheduled" else "failed".
Proof.
  intros Hwf Ht E. unfold outcome_for in E.
  destruct (list_find _ _) as [[i ts]|] eqn:Ef; [|done]. injection E as <-.
  apply list_find_Some in Ef as (Hl & Hid & _). apply list_elem_of_lookup_2 in Hl.
  apply list_elem_of_fmap in Hl as (t' & -> & Hin).
  apply (list_tasks_spec db _ _ Hwf) in Hin as [_ Ht']. simpl in Hid. rewrite Hid, Ht in Ht'.
  by injection Ht' as <-.
Qed.

(** What a run says of the task it reports on. *)
Definition run_reports (db : OrchDB) (tenant : string) (run : WorkerRun) : Prop :=
  ∃ t, tasks db !! run_task_id run = Some t ∧ task_tenant_id (spec t) = tenant ∧
    task_key (spec t) = run_task_key run ∧ attempt_count (state t) = run_attempt_count run ∧
    lease_released (state t) ∧
    (run_outcome run = "completed" ∧
       status (state t) ∈ [TaskStatus.SUCCEEDED; TaskStatus.WAITING_APPROVAL] ∨
     run_outcome run = "retry_scheduled" ∧ status (state t) = TaskStatus.RETRY_WAIT ∨
     run_outcome run = "failed" ∧ status (state t) = TaskStatus.FAILED).

Context {P : Type} (self : LocalWorker P).

Lemma orchestrate_Ok {A} (m : datetime → OrchTx A) s a s' :
  orchestrate self m s = (Ok a, s') → ∃ now, m now (site_db s) = Ok (a, site_db s').
Proof.
  intros (now & s1 & E1 & E)%prog_bind_Ok. exists now.
  unfold consult, external in E1. destruct (worker_clock self (site_env s)). injection E1 as <- <-.
  unfold commit in E. simpl in E. destruct (m _ _) as [[? ?]|]; [|done].
  by injection E as <- <-.
Qed.

(** The task of a lease, in the state the claim left it. *)
Definition lease_row (db : OrchDB) (tenant : string) (lease : TaskLease) : Prop :=
  ∃ t, tasks db !! lease_task_id lease = Some t ∧ task_tenant_id (spec t) = tenant ∧
    task_key (spec t) = lease_task_key lease ∧ attempt_count (state t) = lease_attempt_count lease.

Lemma report_failure_row lease c m force s snap s' :
  reachable (site_db s) → lease_row (site_db s) (worker_tenant_id self) lease →
  report_failure self lease c m force s = (Ok snap, s') →
  ∃ t s1, tasks (site_db s') !! lease_task_id lease = Some (set_state s1 t) ∧
    task_tenant_id (spec t) = worker_tenant_id self ∧ task_key (spec t) = lease_task_key lease ∧
    attempt_count s1 = lease_attempt_count lease ∧ lease_released s1 ∧
    (status s1 = TaskStatus.RETRY_WAIT ∧ force ≠ Some false ∨ status s1 = TaskStatus.FAILED) ∧
    ∃ e, snap = snapshot_of (site_db s') e.
Proof.
  intros Hr (t & Ht & Hten & Hkey & Hcount) (now & E)%orchestrate_Ok.
  destruct (fail_task_spec _ _ _ _ _ _ _ _ _ _ (reachable_wf _ Hr) E)
    as (t' & s1 & Ht' & _ & _ & Hrow & Hrel & Hc & _ & _ & Hst).
  rewrite Ht in Ht'. injection Ht' as <-. exists t, s1. split_and!; try done; [congruence| |].
  - case_decide as Hsch; destruct Hst as [Hst _]; [left|by right]. split; [done|].
    intros ->. by destruct Hsch as [Hsch _].
  - by eapply fail_task_snapshot.
Qed.

Lemma fail_lease_reports lease c m force s out s' :
  reachable (site_db s) → lease_row (site_db s) (worker_tenant_id self) lease →
  fail_lease self lease c m force s = (Ok out, s') →
  run_reports (site_db s') (worker_tenant_id self)
    (mkWorkerRun (lease_task_id lease) (lease_task_key lease) out (lease_attempt_count lease)).
Proof.
  intros Hr Hlease (snap & s0 & E & Eo)%prog_bind_Ok. injection Eo as Eo <-.
  pose proof (report_failure_keeps self _ _ _ _ _ _ _ E Hr) as Hr'.
  destruct (report_failure_row _ _ _ _ _ _ _ Hr Hlease E)
    as (t & s1 & Hrow & Hten & Hkey & Hcount & Hrel & Hst & e & ->).
  apply (outcome_for_row _ _ _ _ _ (reachable_wf _ Hr') Hrow) in Eo. simpl in Eo.
  exists (set_state s1 t). split_and!; try done. simpl.
  destruct Hst as [[Hst _]|Hst]; rewrite Hst in Eo |- *; [|right; right; by split].
  right; left. by split.
Qed.

Lemma execute_reports lease h s out s' :
  bystander h → reachable (site_db s) → lease_row (site_db s) (worker_tenant_id self) lease →
  execute self lease h s = (Ok out, s') →
  run_reports (site_db s') (worker_tenant_id self)
    (mkWorkerRun (lease_task_id lease) (lease_task_key lease) out (lease_attempt_count lease)).
Proof.
  intros Hh Hr Hlease (answer & s0 & E0 & E)%prog_bind_Ok. pose proof (handler_keeps h lease Hh _ _ _ E0 Hr) as Hr0.
  destruct (Hh lease s) as (l' & El & _). unfold external in E0. destruct (h lease s) as [a s1]. injection E0 as -> ->. cbn in El.
  clear Hr. rename Hr0 into Hr. assert (Hlease0 : lease_row (site_db s0) (worker_tenant_id self) lease) by by rewrite El.
  clear Hlease. rename Hlease0 into Hlease.
  destruct answer as [res|[c m|c m|c m|name text]]; try by eapply fail_lease_reports.
  apply prog_bind_Ok in E as (snap & s1 & [now E]%orchestrate_Ok & [-> ->]%prog_ret_Ok).
  destruct (complete_task_spec _ _ _ _ _ _ _ _ (reachable_wf _ Hr) E)
    as (t & s2 & Ht & Hten & _ & Hrow & Hrel & _ & _ & Hc & Hst).
  destruct Hlease as (t' & Ht' & _ & Hkey & Hcount). rewrite Ht in Ht'. injection Ht' as <-.
  exists (set_state s2 t). split_and!; try done; [simpl; congruence|]. left. split; [done|]. simpl.
  destruct (truthy _ && _); destruct Hst as [-> _]; refine (bool_decide_unpack _ _); by vm_compute.
Qed.

Lemma claimed_lease_row eng s lease s' :
  reachable (site_db s) → claim_for_handlers self eng s = (Ok (Some lease), s') →
  lease_row (site_db s') (worker_tenant_id self) lease.
Proof.
  intros Hr E. unfold claim_for_handlers in E. case_match; [|done].
  apply orchestrate_Ok in E as [now E]. apply claim_next_Some in E as
    (t & expires & Ht & Hten & _ & Hkey & _ & Hcount & Hdb); [|done].
  exists (set_state (claimed_state (worker_worker_id self) now expires (state t)) t).
  rewrite Hdb, lookup_insert_eq. by split_and!.
Qed.

(** A run that returns a report left its task as it reports. *)
Lemma run_once_reports eng s run s' :
  bystanders self → reachable (site_db s) → run_once self eng s = (Ok (Some run), s') →
  run_reports (site_db s') (worker_tenant_id self) run.
Proof.
  intros Hall Hr (report & s1 & E1 & E)%prog_bind_Ok.
  assert (Hr1 : reachable (site_db s1)).
  { by apply (orchestrate_keeps self _ (Tick (worker_tenant_id self)) eq_refl (λ _, eq_refl) _ _ _ E1). }
  apply prog_bind_Ok in E as ([lease|] & s2 & E2 & E); [|by apply prog_ret_Ok in E as [? _]].
  pose proof (claim_for_handlers_keeps self _ _ _ _ E2 Hr1) as Hr2.
  pose proof (claimed_lease_row _ _ _ _ Hr1 E2) as Hlease.
  apply prog_bind_Ok in E as (out & s3 & E3 & [[= ->] ->]%prog_ret_Ok).
  destruct (find_handler _ _) as [h|] eqn:Eh; [by eapply execute_reports; [eapply found_bystander|..]|].
  apply prog_bind_Ok in E3 as (snap & s4 & E4 & [-> ->]%prog_ret_Ok).
  destruct (report_failure_row _ _ _ _ _ _ _ Hr2 Hlease E4)
    as (t & s5 & Hrow & Hten & Hkey & Hcount & Hrel & Hst & _).
  exists (set_state s5 t). split_and!; try done. right; right. split; [done|].
  by destruct Hst as [[_ ?]|Hst].
Qed.

(** A task is completed by the result of its handler only. *)
Lemma outcome_for_not_completed snap id out : outcome_for snap id = Ok out → out ≠ "completed".
Proof. unfold outcome_for. destruct (list_find _ _) as [[? ?]|]; [|done]. intros [= <-]. by case_decide. Qed.
Lemma fail_lease_not_completed lease c m force s out s' : fail_lease self lease c m force s = (Ok out, s') → out ≠ "completed".
Proof. intros (snap & s1 & _ & Eo)%prog_bind_Ok. injection Eo as Eo _. by eapply outcome_for_not_completed. Qed.
Lemma completed_by_handler eng s run s' :
  bystanders self → reachable (site_db s) → run_once self eng s = (Ok (Some run), s') → run_outcome run = "completed" →
  ∃ lease h s1 res s2, find_handler (lease_task_type lease) (handlers self) = Some h ∧ lease_task_id lease = run_task_id run ∧
    lease_row (site_db s1) (worker_tenant_id self) lease ∧ h lease s1 = (inl res, s2) ∧ site_env s' = (worker_clock self (site_env s2)).2.
Proof.
  intros Hall Hr (report & s1 & E1 & E)%prog_bind_Ok Hc.
  assert (Hr1 : reachable (site_db s1)).
  { by apply (orchestrate_keeps self _ (Tick (worker_tenant_id self)) eq_refl (λ _, eq_refl) _ _ _ E1). }
  apply prog_bind_Ok in E as ([lease|] & s2 & E2 & E); [|by apply prog_ret_Ok in E as [? _]].
  pose proof (claimed_lease_row _ _ _ _ Hr1 E2) as Hlease.
  apply prog_bind_Ok in E as (out & s3 & E3 & [[= ->] ->]%prog_ret_Ok). cbn in Hc. subst out.
  destruct (find_handler _ _) as [h|] eqn:Eh; [|by apply prog_bind_Ok in E3 as (? & ? & _ & [[=] _]%prog_ret_Ok)].
  apply prog_bind_Ok in E3 as (answer & s4 & E4 & E3). unfold external in E4. destruct (h lease s2) as [a s5] eqn:Ea. injection E4 as -> ->.
  destruct answer as [res|[c m|c m|c m|name text]]; try by apply fail_lease_not_completed in E3.
  exists lease, h, s2, res, s4. split_and!; [done|done|done|done|].
  apply prog_bind_Ok in E3 as (snap & s6 & E6 & [_ ->]%prog_ret_Ok). apply prog_bind_Ok in E6 as (now & s7 & E7 & E6).
  unfold consult, external in E7. destruct (worker_clock self (site_env s4)) as [now' p]. injection E7 as <- <-.
  unfold commit in E6. cbn in E6. destruct (complete_task _ _ _ _ _ _) as [[x y]|]; [|done]. by injection E6 as _ <-.
Qed.
End outcome.
