(* ===== verification/OrchScenario.v ===== *)
(** * Orchestration: a worked history

    A concrete identifier source and a concrete history of operations, evaluated
    by the kernel, on which the hypotheses of the properties are seen to hold. *)

From S2P Require Import Prelude PyFloat PyTime Ledger OrchDefs OrchStore OrchCompiler Orchestrator OrchMachine OrchRefinement.
Local Open Scope Z_scope.

#[export] Existing Instance counting_ids.

Section history.
Context `{UuidSource}.

Fixpoint history (ops : list (operation * datetime)) (db : OrchDB) : Res OrchDB :=
  match ops with
  | [] => Ok db
  | (o, now) :: ops =>
      match run o now db with
      | Ok (_, db') => history ops db'
      | Err e => Err e
      end
  end.

Lemma history_reachable ops db db' :
  reachable db → forallb (λ o, valid_operation o.1) ops = true → history ops db = Ok db' →
  reachable db'.
Proof.
  revert db. induction ops as [|[o now] ops IH]; intros db Hr Hv E; [by injection E as <-|].
  simpl in *. apply andb_true_iff in Hv as [Hv1 Hv2].
  destruct (run o now db) as [[[] db1]|] eqn:E1; [|done]. eapply IH; [|done..].
  by eapply reachable_run.
Qed.
End history.

Definition t0 : datetime := 1786000000000000.
Definition after (s : Z) : datetime := t0 + seconds s.

Definition sample_task (key : string) (needs : list string) (gate : option string)
    (p : gate_position) : TaskDefinition :=
  mkTaskDefinition key "analysis" "1.0" (map (λ k, mkDependencyDefinition k [TaskStatus.SUCCEEDED]) needs)
    None [] [] None None default_retry_policy 100 None gate p.

(** [collect] is free, [test] waits for an approval before it runs and [report] after. *)
Definition sample_workflow : WorkflowDefinition :=
  mkWorkflowDefinition "v1"
    [sample_task "report" ["test"] (Some "lead") After;
     sample_task "collect" [] None Before;
     sample_task "test" ["collect"] (Some "manager") Before] [].

Definition sample_engagement : Engagement :=
  mkEngagement "eng" "t1" None "E-1" "Engagement" EngagementStatus.PLANNED "pack" 1 2 1 [] None None t0.
Definition planned_db : OrchDB :=
  set_engagements (<["eng" := sample_engagement]> (engagements (empty_db t0))) (empty_db t0).

Lemma planned_reachable : reachable planned_db.
Proof. apply (reachable_create (empty_db t0) sample_engagement); [constructor|done..]. Qed.

Definition started_ops : list (operation * datetime) :=
  [(CompileWorkflow "t1" "eng" sample_workflow, t0); (StartEngagement "t1" "eng", after 1)].

Definition unwrap (r : Res OrchDB) : OrchDB := match r with Ok db => db | Err _ => planned_db end.
Definition started_db : OrchDB := unwrap (history started_ops planned_db).


Definition no_result : TaskExecutionResult := mkTaskExecutionResult ["doc-1"] [("rows", JInt 3)].
Definition claim_op (s : Z) : operation * datetime := (ClaimNext "t1" "w1" 60 None None None, after s).

(** [collect] succeeds; [test] waits for its manager. *)
Definition gate_ops : list (operation * datetime) :=
  started_ops ++ [claim_op 2; (CompleteTask "t1" "tsk_1" "w1" no_result, after 3)].
Definition gate_db : OrchDB := unwrap (history gate_ops planned_db).

(** [test] is approved, claimed, fails once and is claimed again. *)
Definition retry_ops : list (operation * datetime) :=
  gate_ops ++ [(ApproveGate "t1" "tsk_2" (mkGateDecision "manager" "ok"), after 4); claim_op 5].
Definition running_db : OrchDB := unwrap (history retry_ops planned_db).
Definition finished_ops : list (operation * datetime) :=
  retry_ops ++
  [(FailTask "t1" "tsk_2" "w1" FailureClass.MODEL_TIMEOUT "slow" None, after 6);
   (Tick "t1", after 30); claim_op 31; (CompleteTask "t1" "tsk_2" "w1" no_result, after 32);
   claim_op 33; (CompleteTask "t1" "tsk_0" "w1" no_result, after 34);
   (ApproveGate "t1" "tsk_0" (mkGateDecision "lead" "ok"), after 35)].
Definition finished_db : OrchDB := unwrap (history finished_ops planned_db).

(** [collect] fails for good, the engagement is cancelled, and the task is retried. *)
Definition cancelled_ops : list (operation * datetime) :=
  started_ops ++
  [claim_op 2; (FailTask "t1" "tsk_1" "w1" FailureClass.CONFIGURATION_ERROR "bad" None, after 3);
   (CancelEngagement "t1" "eng" "lead" "stop", after 4);
   (ForceRetryTask "t1" "tsk_1" "lead" "again", after 5)].
Definition cancelled_db : OrchDB := unwrap (history cancelled_ops planned_db).

(** The manager rejects [test], and an administrator retries it. *)
Definition bypass_ops : list (operation * datetime) :=
  gate_ops ++
  [(RejectGate "t1" "tsk_2" (mkGateDecision "manager" "no"), after 4);
   (ForceRetryTask "t1" "tsk_2" "admin" "again", after 5); claim_op 6].
Definition bypass_db : OrchDB := unwrap (history bypass_ops planned_db).

(** A history of valid operations that all commit. *)
Definition commits (ops : list (operation * datetime)) : bool :=
  forallb (λ o, valid_operation o.1) ops &&
  match history ops planned_db with Ok _ => true | Err _ => false end.

Lemma scenario_reachable ops :
  commits ops = true → reachable (unwrap (history ops planned_db)).
Proof.
  intros [Hv E]%andb_true_iff. destruct (history ops planned_db) as [db|] eqn:Eh; [|done].
  eapply history_reachable; [apply planned_reachable|exact Hv|exact Eh].
Qed.

Lemma started_reachable : reachable started_db.
Proof. apply scenario_reachable. vm_compute. reflexivity. Qed.
Lemma gate_reachable : reachable gate_db.
Proof. apply scenario_reachable. vm_compute. reflexivity. Qed.
Lemma running_reachable : reachable running_db.
Proof. apply scenario_reachable. vm_compute. reflexivity. Qed.
Lemma finished_reachable : reachable finished_db.
Proof. apply scenario_reachable. vm_compute. reflexivity. Qed.
Lemma cancelled_reachable : reachable cancelled_db.
Proof. apply scenario_reachable. vm_compute. reflexivity. Qed.
Lemma bypass_reachable : reachable bypass_db.
Proof. apply scenario_reachable. vm_compute. reflexivity. Qed.

Definition task_view (t : EngagementTask) :=
  (task_key (spec t), status (state t), review_status (state t), attempt_count (state t)).
Definition view (db : OrchDB) :=
  (map task_view (list_tasks db "t1" "eng"), eng_status <$> engagements db !! "eng").

(** The row of a task of the example; the default is never used. *)
Definition blank_task : EngagementTask :=
  mkEngagementTask
    (mkTaskSpec "" "" "" "" "" "" 0 None [] "" (mkExecutionPolicy [] None) None None None None t0)
    (mkTaskState TaskStatus.PENDING 0 None None None None None [] None None None None).
Definition task_of (db : OrchDB) (id : string) : EngagementTask := default blank_task (tasks db !! id).

Example finished_view :
  view finished_db =
    ([("collect", TaskStatus.SUCCEEDED, None, 1); ("report", TaskStatus.SUCCEEDED, Some "approved", 1);
      ("test", TaskStatus.SUCCEEDED, Some "approved", 2)], Some EngagementStatus.COMPLETED).
Proof. vm_compute. reflexivity. Qed.
