(* ===== verification/OrchProperties.v ===== *)
(** * Orchestration: the properties

    The statements the orchestrator is relied on for, each about a state that a
    history of its operations reaches, and each applied once to the example of
    OrchScenario.v. *)

From S2P Require Import Prelude PyFloat PyTime Ledger OrchDefs OrchStore OrchCompiler Orchestrator OrchMachine OrchRefinement OrchInvariants OrchReplay OrchBehaviour OrchTotality OrchWorker OrchScenario.
Local Open Scope Z_scope.

Section properties.
Context `{UuidSource}.

(** C1: In every state the orchestrator can reach, each of its public operations that
    commits, given a definition pydantic accepts where it compiles one, is a sequence of
    guarded steps of the abstract workflow machine taken at the instant of the call: a
    task moves, an engagement changes status, a worker extends its lease or a workflow is
    compiled, and each of these appends its own event, with the payload that describes it,
    to the audit ledger together with a row of the outbox. Nothing else is written but the
    start and the completion instant of an engagement, and nothing else reaches the
    ledger. *)
Theorem run_refines_machine (o : operation) (now : datetime) (db db' : OrchDB) :
  reachable db → valid_operation o = true → run o now db = Ok (tt, db') →
  rtc (own_step now) db db'.
Proof. intros Hr Hv E. by apply (run_refines o now Hv db tt db' (reachable_wf db Hr)). Qed.

(** C22: A task that has been made ready, runs, waits for a retry or an approval, or
    has succeeded has every prerequisite in a status its dependency allows, or an
    administrative retry of it is on record. *)
Theorem prerequisites_respected (db : OrchDB) (id : string) (t : EngagementTask) :
  reachable db → tasks db !! id = Some t → status (state t) ∈ started_statuses →
  deps_ok db t ∨ logged db id "administrative_retry".
Proof. intros Hr. by apply deps_inv_reachable. Qed.

(** C23: A task gated before execution runs only with a recorded approval, or a
    recorded administrative retry; a task gated after execution succeeds only
    with a recorded approval. *)
Theorem human_gates_respected (db : OrchDB) (id : string) (t : EngagementTask) :
  reachable db → tasks db !! id = Some t →
  (gated "before" t → status (state t) ∈ past_before_gate →
     review_status (state t) = Some "approved" ∧ logged db id "human_gate_approved" ∨
     logged db id "administrative_retry") ∧
  (gated "after" t → status (state t) = TaskStatus.SUCCEEDED →
     review_status (state t) = Some "approved" ∧ logged db id "human_gate_approved").
Proof.
  intros Hr Ht. destruct (gate_inv_reachable db Hr id t Ht) as (H1 & H2 & H3). split.
  - intros Hg Hp. destruct (H2 Hg Hp); auto.
  - intros Hg Hp. auto.
Qed.

(** C24: The ledger is a complete record of the workflow: replaying an engagement's
    events in any reachable state gives the canonical status of the engagement
    and of each of its tasks, with nothing missing on either side. *)
Theorem replay_matches_canonical (db : OrchDB) (tenant eid : string) (g : Engagement) :
  reachable db → get_engagement db tenant eid = Some g →
  ∃ c, verify_replay db tenant eid = Ok c ∧ matches c = true ∧
    canonical_engagement_status c = eng_status g ∧ replayed_engagement_status c = eng_status g ∧
    task_status_mismatches c = [] ∧ missing_in_replay c = [] ∧ missing_in_canonical c = [].
Proof. apply verify_replay_spec. Qed.

(** C25: For a positive lease length whose expiry the calendar can express, [claim_next]
    never raises on a reachable state.  It returns nothing and changes nothing exactly
    when no task of the tenant is ready, available, before its deadline and within
    the filters of the call.  Otherwise it takes one that no other precedes in
    priority, creation instant and key: the task runs with the caller as owner, a
    lease up to now plus the length and one more attempt, keeps its outputs and its
    review, an attempt of the caller is opened, one transition is recorded, and the
    lease returned says all this; no other row changes. *)
Theorem claim_next_exact tenant worker lease_seconds eng types roles now expires db :
  reachable db → 0 < lease_seconds → add_us now (lease_seconds * 1000000) = Ok expires →
  ((∀ t, ¬ may_claim db tenant now eng types roles t) ∧
   claim_next tenant worker lease_seconds eng types roles now db = Ok (None, db)) ∨
  ∃ t db', may_claim db tenant now eng types roles t ∧
    (∀ u, may_claim db tenant now eng types roles u → no_later (spec t) (spec u)) ∧
    claim_next tenant worker lease_seconds eng types roles now db =
      Ok (Some (lease_on worker expires t), db') ∧
    claims worker now expires t db db'.
Proof.
  intros Hr. apply claim_next_spec; [by apply reachable_wf|by apply attempts_inv_reachable|].
  by apply ledger_inv_reachable.
Qed.

(** A task has a lease owner and a lease expiry while it runs, and neither in any
    other status. *)
Theorem lease_iff_running (db : OrchDB) (id : string) (t : EngagementTask) :
  reachable db → tasks db !! id = Some t →
  (status (state t) = TaskStatus.RUNNING →
     is_Some (lease_owner (state t)) ∧ is_Some (lease_expires_at (state t))) ∧
  (status (state t) ≠ TaskStatus.RUNNING →
     lease_owner (state t) = None ∧ lease_expires_at (state t) = None).
Proof.
  intros Hr Ht. pose proof (lease_inv_reachable db Hr id t Ht) as Hl. by case_decide.
Qed.

(** The attempts of a task are numbered 1, 2, ... up to its attempt count, in the
    order they started, and an attempt is open exactly when it is the last one
    and the task runs. *)
Theorem attempts_numbered (db : OrchDB) (id : string) (t : EngagementTask) :
  reachable db → tasks db !! id = Some t →
  let l := filter (λ a, att_task_id a = id) (attempts db) in
  map attempt_no l = map Z.of_nat (seq 1 (length l)) ∧
  attempt_count (state t) = Z.of_nat (length l) ∧
  ∀ a, a ∈ l → (att_status a = "running" ↔
                status (state t) = TaskStatus.RUNNING ∧ attempt_no a = attempt_count (state t)).
Proof.
  intros Hr Ht l. destruct (attempts_inv_reachable db Hr) as [Ha _].
  destruct (Ha id t Ht) as (H1 & H2 & H3). unfold attempts_of in *. fold l in H1, H2, H3.
  rewrite map_map, length_map in H1. rewrite length_map in H2. split_and!; [done..|].
  intros a Hin. rewrite Forall_forall in H3.
  destruct (H3 (attempt_view a)) as [_ Hrun]; [by apply list_elem_of_fmap_2|done].
Qed.

(** No task is attempted more often than its retry policy allows plus once for
    each administrative retry on record, however it fails. *)
Theorem attempt_budget (db : OrchDB) (id : string) (t : EngagementTask) :
  reachable db → tasks db !! id = Some t → attempt_count (state t) ≤ budget db t.
Proof. intros Hr Ht. by apply (budget_inv_reachable db Hr id t). Qed.

(** A result is accepted only from the worker holding the task's live lease; it
    is stored, the lease released, and the task waits for its post-execution
    gate or succeeds. *)
Theorem complete_task_outcome tenant_id id worker res now db a db' :
  reachable db → complete_task tenant_id id worker res now db = Ok (a, db') →
  ∃ t s', tasks db !! id = Some t ∧ task_tenant_id (spec t) = tenant_id ∧
    lease_matches t worker now = true ∧
    tasks db' !! id = Some (set_state s' t) ∧ completed_state t res now s'.
Proof. intros Hr. apply complete_task_spec. by apply reachable_wf. Qed.

(** A failure is accepted only from the worker holding the task's live lease; the
    lease is released, and another attempt is scheduled after the policy's delay
    exactly when the class is retryable, attempts remain and the deadline has not
    passed; otherwise the task fails. *)
Theorem fail_task_outcome tenant_id id worker fc message force now db a db' :
  reachable db → fail_task tenant_id id worker fc message force now db = Ok (a, db') →
  ∃ t s', tasks db !! id = Some t ∧ task_tenant_id (spec t) = tenant_id ∧
    lease_matches t worker now = true ∧
    tasks db' !! id = Some (set_state s' t) ∧ failed_state t fc message force now s'.
Proof. intros Hr. apply fail_task_spec. by apply reachable_wf. Qed.


(** The events of each audit stream are numbered 1, 2, ... without gap or
    repetition, and every event that changes a task or an engagement has its row
    in the outbox. *)
Theorem audit_streams_gapless (db : OrchDB) (tenant stream : string) :
  reachable db →
  map sequence_no (stream_rows (ledger db) tenant stream) =
    map Z.of_nat (seq 1 (length (stream_rows (ledger db) tenant stream))) ∧
  ∀ r, r ∈ audit_events (ledger db) → state_event (row_event r) → in_outbox (ledger db) (row_event r).
Proof.
  intros Hr. split; [by apply ledger_inv_reachable|]. by apply outbox_inv_reachable.
Qed.

(** A task that succeeded, was skipped or was cancelled is never changed again by
    any operation. *)
Theorem finished_task_unchanged (o : operation) (now : datetime) (db db' : OrchDB)
    (id : string) (t : EngagementTask) :
  reachable db → valid_operation o = true → run o now db = Ok (tt, db') →
  tasks db !! id = Some t → status (state t) ∈ final_statuses →
  ∃ t', tasks db' !! id = Some t' ∧ state t' = state t.
Proof.
  intros Hr Hv E. eapply final_steps, own_steps_steps. by apply (run_refines o now Hv db tt db' (reachable_wf db Hr)).
Qed.

(** Whatever its handlers return or raise, as long as they leave the tables of the
    workflow alone, a worker run leaves a state the
    orchestrator can reach; and when it returns a report, the task it names has
    released its lease, counts the reported attempts, and has succeeded or waits for
    its approval, waits for a retry, or has failed, as the report says. *)
Theorem worker_reports_outcome {P} (self : LocalWorker P) eng s r s' :
  bystanders self → reachable (site_db s) → run_once self eng s = (r, s') →
  reachable (site_db s') ∧
  ∀ run, r = Ok (Some run) → run_reports (site_db s') (worker_tenant_id self) run.
Proof.
  intros Hh Hr E. split; [exact (run_once_keeps self eng Hh _ _ _ E Hr)|].
  intros run ->. by eapply run_once_reports.
Qed.
End properties.

(** C29: The compiler accepts exactly the graphs with distinct keys, known and distinct
    prerequisites, no self-dependency and no cycle, and refuses every other one
    with [WorkflowValidationError]. *)
Theorem validate_exact (w : WorkflowDefinition) :
  (validate w = Ok tt ↔ well_formed (wf_tasks w) ∧ acyclic (wf_tasks w)) ∧
  (validate w = Ok tt ∨ validate w = Err ValidationError).
Proof. apply validate_spec. Qed.

(** The delay a policy computes for an attempt is never above the policy's maximal
    delay. *)
Theorem delay_bounded (p : RetryPolicy) (n : Z) (d : float) :
  RetryPolicy_valid p = true → delay_for_attempt p n = Ok d → is_nan d = false →
  (d <=? max_delay_seconds p)%float = true.
Proof.
  intros Hv E Hd. unfold delay_for_attempt in E. destruct (fpow _ _) as [power|]; [|done].
  injection E as <-. assert (Hm : is_nan (max_delay_seconds p) = false).
  { unfold RetryPolicy_valid in Hv. apply andb_true_iff in Hv as [_ Hv].
    by destruct (max_delay_seconds p). }
  unfold fmin in *. destruct (fltb _ _) eqn:E; [by apply fleb_refl|].
  by rewrite fleb_fltb, E.
Qed.

(** A valid policy can make [delay_for_attempt] raise [OverflowError] within its own
    attempt budget: the power of the multiplier is computed before the cap is
    applied. *)
Theorem retry_delay_overflows :
  ∃ p n, RetryPolicy_valid p = true ∧ n < max_attempts p ∧
    delay_for_attempt p n = Err (Py OverflowError).
Proof.
  exists (mkRetryPolicy 100 one (float_of_Z 100000) (float_of_Z 300) []), 90. by vm_compute.
Qed.

(** A task of a cancelled engagement can be made ready by an administrative retry
    and leased to a worker, while the engagement stays cancelled. *)
Theorem cancelled_task_revived :
  ∃ db g lease db', reachable db ∧ engagements db !! "eng" = Some g ∧
    eng_status g = EngagementStatus.CANCELLED ∧ eng_completed_at g = None ∧
    claim_next "t1" "w1" 60 (Some "eng") None None (after 9) db = Ok (Some lease, db').
Proof.
  exists cancelled_db. eexists _, _, _. split; [apply cancelled_reachable|].
  vm_compute. split_and!; reflexivity.
Qed.

(** A task whose pre-execution gate was rejected can be made ready by an
    administrative retry and then runs without any approval. *)
Theorem rejected_gate_bypassed :
  ∃ db t, reachable db ∧ tasks db !! "tsk_2" = Some t ∧ gated "before" t ∧
    status (state t) = TaskStatus.RUNNING ∧ logged db "tsk_2" "human_gate_rejected" ∧
    ¬ logged db "tsk_2" "human_gate_approved".
Proof.
  exists bypass_db. eexists. split; [apply bypass_reachable|].
  split; [vm_compute; reflexivity|]. split; [by vm_compute|]. split; [done|].
  split; [refine (bool_decide_unpack _ _)|refine (bool_decide_unpack _ _)]; by vm_compute.
Qed.

(** A worker with no handlers is not filtered away from any task: it claims the
    next ready one and fails it for good. *)
Theorem idle_worker_fails_tasks :
  ∃ db run s', reachable db ∧
    run_once (mkLocalWorker "t1" "idle" [] 60 (λ n : nat, (after 2, n))) None (mkSite db 0%nat) =
      (Ok (Some run), s') ∧
    run_outcome run = "failed" ∧ run_task_key run = "collect" ∧
    status <$> (state <$> tasks (site_db s') !! run_task_id run) = Some TaskStatus.FAILED.
Proof.
  set (self := mkLocalWorker "t1" "idle" [] 60 (λ n : nat, (after 2, n))).
  exists started_db, (mkWorkerRun "tsk_1" "collect" "failed" 1), (run_once self None (mkSite started_db 0%nat)).2.
  split; [apply started_reachable|]. split; [|by vm_compute].
  assert (E : (run_once self None (mkSite started_db 0%nat)).1 =
    Ok (Some (mkWorkerRun "tsk_1" "collect" "failed" 1))) by (vm_compute; reflexivity).
  rewrite <- E. apply surjective_pairing.
Qed.

(** ** The hypotheses hold on the example *)

(** A worker that analyses and never fails. *)
Definition sample_worker : LocalWorker nat :=
  mkLocalWorker "t1" "w1" [("analysis", λ _ s, (inl no_result, s))] 60 (λ n, (after (Z.of_nat n), S n)).

Lemma worker_reports_outcome_witness :
  ∃ run s', run_once sample_worker None (mkSite started_db 5%nat) = (Ok (Some run), s') ∧
    run_reports (site_db s') "t1" run.
Proof.
  assert (Er : (run_once sample_worker None (mkSite started_db 5%nat)).1 =
    Ok (Some (mkWorkerRun "tsk_1" "collect" "completed" 1))) by (vm_compute; reflexivity).
  destruct (run_once sample_worker None (mkSite started_db 5%nat)) as [r s'] eqn:E.
  simpl in Er.
  exists (mkWorkerRun "tsk_1" "collect" "completed" 1), s'. split; [by rewrite Er|].
  refine (proj2 (worker_reports_outcome sample_worker None (mkSite started_db 5%nat) r s' _ started_reachable E) _ Er).
  constructor; [|constructor]. by intros lease site.
Defined.

Lemma run_refines_machine_witness :
  rtc (own_step (after 200)) running_db (after_run (run (Tick "t1") (after 200)) running_db).
Proof.
  apply (run_refines_machine (Tick "t1") (after 200)); [apply running_reachable|reflexivity|].
  destruct (after_run_Ok (run (Tick "t1") (after 200)) running_db) as [[] E];
    [vm_compute; reflexivity|exact E].
Defined.

Lemma prerequisites_respected_witness :
  deps_ok running_db (task_of running_db "tsk_2") ∨ logged running_db "tsk_2" "administrative_retry".
Proof.
  apply prerequisites_respected; [apply running_reachable|vm_compute; reflexivity|].
  refine (bool_decide_unpack _ _). by vm_compute.
Defined.

Lemma human_gates_respected_witness :
  review_status (state (task_of finished_db "tsk_0")) = Some "approved" ∧
  logged finished_db "tsk_0" "human_gate_approved".
Proof.
  apply (human_gates_respected finished_db "tsk_0" (task_of finished_db "tsk_0"));
    [apply finished_reachable|vm_compute; reflexivity|by vm_compute|vm_compute; reflexivity].
Defined.

Lemma replay_matches_canonical_witness :
  ∃ c, verify_replay finished_db "t1" "eng" = Ok c ∧ matches c = true ∧
    canonical_engagement_status c = EngagementStatus.COMPLETED.
Proof.
  destruct (replay_matches_canonical finished_db "t1" "eng"
    (default sample_engagement (engagements finished_db !! "eng"))) as (c & E & Hm & Hc & _);
    [apply finished_reachable|vm_compute; reflexivity|].
  exists c. split; [exact E|]. split; [exact Hm|]. rewrite Hc. vm_compute. reflexivity.
Defined.

Lemma claim_next_exact_witness :
  ∃ lease db', claim_next "t1" "w1" 60 None None None (after 2) started_db = Ok (Some lease, db').
Proof.
  destruct (claim_next_exact "t1" "w1" 60 None None None (after 2) (after 62) started_db)
    as [[Hnone _]|(t & db' & _ & _ & E & _)];
    [apply started_reachable|reflexivity|vm_compute; reflexivity| |].
  - exfalso. apply (Hnone (task_of started_db "tsk_1")).
    apply (claimable_may _ _ _ _ _ _ _ (reachable_wf _ started_reachable)), list_elem_of_filter.
    split; [vm_compute; reflexivity|].
    apply (all_tasks_spec _ (reachable_wf _ started_reachable)). vm_compute. reflexivity.
  - eexists _, db'. exact E.
Defined.

Lemma lease_iff_running_witness : is_Some (lease_owner (state (task_of running_db "tsk_2"))).
Proof.
  apply (lease_iff_running running_db "tsk_2" (task_of running_db "tsk_2"));
    [apply running_reachable|vm_compute; reflexivity|vm_compute; reflexivity].
Defined.

Lemma attempts_numbered_witness :
  map attempt_no (filter (λ a, att_task_id a = "tsk_2") (attempts finished_db)) = [1; 2] ∧
  attempt_count (state (task_of finished_db "tsk_2")) = 2.
Proof.
  destruct (attempts_numbered finished_db "tsk_2" (task_of finished_db "tsk_2")) as (H1 & H2 & _);
    [apply finished_reachable|vm_compute; reflexivity|].
  split; [exact H1|exact H2].
Defined.

Lemma attempt_budget_witness :
  attempt_count (state (task_of finished_db "tsk_2")) ≤ budget finished_db (task_of finished_db "tsk_2").
Proof.
  apply (attempt_budget finished_db "tsk_2"); [apply finished_reachable|vm_compute; reflexivity].
Defined.

Lemma complete_task_outcome_witness :
  ∃ t s', tasks running_db !! "tsk_2" = Some t ∧ completed_state t no_result (after 6) s'.
Proof.
  destruct (after_run_Ok (complete_task "t1" "tsk_2" "w1" no_result (after 6)) running_db) as [a E];
    [vm_compute; reflexivity|].
  destruct (complete_task_outcome _ _ _ _ _ _ _ _ running_reachable E) as (t & s' & Ht & _ & _ & _ & Hs).
  exists t, s'. split; [exact Ht|exact Hs].
Defined.

Lemma fail_task_outcome_witness :
  ∃ t s', tasks running_db !! "tsk_2" = Some t ∧
    failed_state t FailureClass.MODEL_TIMEOUT "slow" None (after 6) s'.
Proof.
  destruct (after_run_Ok (fail_task "t1" "tsk_2" "w1" FailureClass.MODEL_TIMEOUT "slow" None (after 6))
    running_db) as [a E]; [vm_compute; reflexivity|].
  destruct (fail_task_outcome _ _ _ _ _ _ _ _ _ _ running_reachable E) as (t & s' & Ht & _ & _ & _ & Hs).
  exists t, s'. split; [exact Ht|exact Hs].
Defined.


Lemma audit_streams_gapless_witness :
  map sequence_no (stream_rows (ledger started_db) "t1" "eng") =
    map Z.of_nat (seq 1 (length (stream_rows (ledger started_db) "t1" "eng"))).
Proof. apply (audit_streams_gapless started_db "t1" "eng"), started_reachable. Defined.

Lemma finished_task_unchanged_witness :
  ∃ t', tasks (after_run (run (Tick "t1") (after 200)) running_db) !! "tsk_1" = Some t' ∧
    state t' = state (task_of running_db "tsk_1").
Proof.
  apply (finished_task_unchanged (Tick "t1") (after 200) running_db _ "tsk_1");
    [apply running_reachable|reflexivity| |vm_compute; reflexivity|].
  - destruct (after_run_Ok (run (Tick "t1") (after 200)) running_db) as [[] E];
      [vm_compute; reflexivity|exact E].
  - refine (bool_decide_unpack _ _). by vm_compute.
Defined.

Lemma delay_bounded_witness :
  (float_of_Z 10 <=? max_delay_seconds default_retry_policy)%float = true.
Proof. apply (delay_bounded default_retry_policy 2); vm_compute; reflexivity. Defined.
