(* ===== verification/OutboxProperties.v ===== *)
(** * The transactional outbox: the properties

    What the outbox promises over any order of its transactions, what one
    dispatch does, and that dispatching leaves every guarantee of the
    orchestrator in place. *)

From S2P Require Import Prelude PyFloat PyTime Ledger Outbox.
From S2P Require Import OrchDefs OrchStore OrchCompiler Orchestrator OrchMachine OrchRefinement OrchScenario.
Local Open Scope Z_scope.

Section properties.
Context `{UuidSource}.

Lemma rtc_row_final o o' :
  row_ok o → rtc row_step o o' →
  row_identity o' = row_identity o ∧ ob_publish_attempts o ≤ ob_publish_attempts o' ∧
  (is_Some (ob_published_at o) ∨ is_Some (ob_dead_lettered_at o) → o' = o).
Proof.
  intros Hok Hs. induction Hs as [o|o1 o2 o3 Hs _ IH]; [done|].
  destruct IH as (Hid & Hn & _); [by eapply row_step_ok|].
  split; [by rewrite Hid; apply row_step_identity|]. split.
  - etrans; [|exact Hn]. destruct Hs as [????? ->|???? ->|?????? ? ->]; simpl; lia.
  - destruct (row_step_open _ _ Hok Hs) as [-> ->]. by intros [[? ?]|[? ?]].
Qed.

(** No transaction of the outbox loses an event or changes what it says; the number
    of attempts never decreases, and a row that is published or dead-lettered is
    never changed again, so no event is marked published twice. *)
Theorem outbox_rows_final op l l' o :
  outbox_reachable l → outbox_run op l = Ok (tt, l') → o ∈ outbox_events l →
  ∃ o', o' ∈ outbox_events l' ∧ row_identity o' = row_identity o ∧
    ob_publish_attempts o ≤ ob_publish_attempts o' ∧
    (is_Some (ob_published_at o) ∨ is_Some (ob_dead_lettered_at o) → o' = o).
Proof.
  intros Hwf%outbox_reachable_wf E [i Hi]%list_elem_of_lookup.
  destruct (outbox_run_steps _ _ _ _ Hwf E) as [_ (old & new & Hrows & HF)].
  destruct (Forall2_lookup_l _ _ _ _ _ HF Hi) as (o' & Ho' & Hs). exists o'.
  split; [rewrite Hrows; apply elem_of_app; left; by eapply list_elem_of_lookup_2|].
  apply rtc_row_final; [|done]. pose proof (wf_rows _ Hwf) as Hok. rewrite Forall_forall in Hok.
  eapply Hok, list_elem_of_lookup_2, Hi.
Qed.

(** While a worker's lease on an event has not expired, no claim returns the event
    or touches its row, whoever asks; and no other worker's report changes it, even
    after the lease expires. *)
Theorem outbox_lease_exclusive l o worker expires :
  outbox_reachable l → o ∈ outbox_events l →
  ob_lease_owner o = Some worker → ob_lease_expires_at o = Some expires →
  (∀ w now n limit claimed l', now < expires → claim w now n limit l = Ok (claimed, l') →
     o ∈ outbox_events l' ∧ outbox_id o ∉ map outbox_id claimed) ∧
  (∀ w id at_ m b l', w ≠ worker → mark_published id w at_ m l = Ok (b, l') → o ∈ outbox_events l') ∧
  (∀ w id now err delay dead b l', w ≠ worker →
     mark_failed id w now err delay dead l = Ok (b, l') → o ∈ outbox_events l').
Proof.
  intros Hwf%outbox_reachable_wf Ho Hown Hexp. pose proof (wf_ids _ Hwf) as Hnd.
  assert (Hmark : ∀ w id f n l', w ≠ worker → update_where (held id w) f l = Ok (n, l') →
    o ∈ outbox_events l').
  { intros w id f n l' Hne [= _ <-]. apply list_elem_of_fmap. exists o. split; [|done].
    destruct (held id w o) eqn:Hh; [|done]. apply held_spec in Hh as (_ & _ & Hh). congruence. }
  split_and!.
  - intros w now n limit claimed l' Hlt E. pose proof E as (Hs & Hl & e & He & _)%claim_Ok.
    rewrite (claim_spec _ _ _ _ e) in E by done. injection E as <- <-.
    assert (Hni : outbox_id o ∉ map outbox_id (pending_events (Some now) (Z.to_nat limit) l)).
    { intros (c & Hid & [Hc (_ & _ & _ & Hle)%claimable_event_spec]%pending_events_spec)%list_elem_of_fmap.
      rewrite (id_unique _ Hnd c o) in Hle by done. apply Hle in Hexp. lia. }
    split; [|by rewrite map_map]. apply list_elem_of_fmap. exists o. by rewrite decide_False.
  - intros w id at_ m b l' Hne (n & l1 & E & [_ ->]%tx_ret_Ok)%tx_bind_Ok. by eapply Hmark.
  - intros w id now err delay dead b l' Hne E.
    apply tx_bind_Ok in E as (? & ? & [_ ->]%from_res_Ok & (n & l1 & E & [_ ->]%tx_ret_Ok)%tx_bind_Ok).
    by eapply Hmark.
Qed.

(** C30: On an outbox its own operations reach, a dispatch reads the clock and takes the
    first [limit] of the events due at that instant, in the order of their availability,
    occurrence and identifier, under a lease of its own worker from that instant. It puts
    each of them, in that order, to the publisher once and then reads the clock once: an
    event the publisher answers is published at that instant under the message identifier
    of that answer; one it refuses is due again min(2^(n-1), cap) seconds after it, n
    being the attempts it then has, and dead-lettered from the last allowed attempt on.
    Every other row is untouched, and the report lists the messages and counts the rest.
    It fails only on an argument that is not positive, or past the end of the calendar:
    before anything is leased, or at an event that is refused and cannot be rescheduled,
    those before it settled and the rest left under the lease. *)
Theorem dispatch_once_settles {P} (pub : Publisher P) config worker limit lease_seconds w :
  outbox_reachable (w_ledger w) →
  let now := (clock pub (w_env w)).1 in let p := (clock pub (w_env w)).2 in let expires := now + lease_seconds * 1000000 in
  let rows := outbox_events (w_ledger w) in
  ∃ ready claimed, first_due now limit rows ready ∧ Forall2 (leased_as worker expires) ready claimed ∧
  match dispatch_once pub config worker limit lease_seconds w with
  | (Ok report, w') => ∃ os' outs, all_settled pub config claimed p os' outs (w_env w') ∧ with_rows os' rows (outbox_events (w_ledger w')) ∧
      report = mkDispatchReport (Z.of_nat (length ready)) (Z.of_nat (length (omap sent outs)))
        (Z.of_nat (length outs) - Z.of_nat (length (omap sent outs))) (Z.of_nat (length (omap dead outs))) (omap sent outs)
  | (Err e, w') =>
      outbox_events (w_ledger w') = rows ∧
        (e = Py OverflowError ∧ in_range expires = false ∨ e = Py ValueError ∧ (lease_seconds ≤ 0 ∨ limit ≤ 0)) ∨
      e = Py OverflowError ∧ ∃ before o after os' outs p', claimed = before ++ o :: after ∧ all_settled pub config before p os' outs p' ∧
        unsettled pub config o p' ∧ with_rows (os' ++ o :: after) rows (outbox_events (w_ledger w'))
  end.
Proof.
  intros Hwf%outbox_reachable_wf. exact (dispatch_once_spec pub config worker limit lease_seconds w Hwf).
Qed.

Lemma rows_keys rows rows' t k :
  Forall2 (rtc row_step) rows rows' → Exists (has_key t k) rows → Exists (has_key t k) rows'.
Proof.
  intros HF%rows_identity_map. rewrite !Exists_exists. intros (o & Ho & Hk).
  assert (Hin : row_identity o ∈ map row_identity rows') by (rewrite HF; by apply list_elem_of_fmap_2).
  apply list_elem_of_fmap in Hin as (o' & Hid & Ho'). exists o'. split; [done|].
  unfold has_key, row_identity in *. destruct Hk. split; congruence.
Qed.

Lemma outbox_steps_env l l' : outbox_steps l l' → ledger_env l l'.
Proof.
  intros (HF & Hu & Ha). split.
  - exists []. by rewrite app_nil_r.
  - unfold numbered, stream_rows. by rewrite Ha.
  - intros Hk o n Ho. rewrite Hu. intros Hle.
    assert (Hin : row_identity o ∈ map row_identity (outbox_events l))
      by (rewrite <- (rows_identity_map _ _ HF); by apply list_elem_of_fmap_2).
    apply list_elem_of_fmap in Hin as (o0 & Hid & Ho0). pose proof (Hk o0 n Ho0 Hle).
    unfold row_identity in Hid. congruence.
  - intros t k. by apply rows_keys.
Qed.

(** Dispatching the outbox, whether it ends normally or is cut short, leads from a
    state the orchestrator can reach to one it can reach, with the same tasks and
    engagements: every guarantee of the orchestrator survives it. *)
Theorem dispatch_keeps_workflow {P} (pub : Publisher P) config worker limit lease_seconds db p r w' :
  reachable db → outbox_wf (ledger db) →
  dispatch_once pub config worker limit lease_seconds (mkWorld (ledger db) p) = (r, w') →
  reachable (set_ledger (w_ledger w') db).
Proof.
  intros Hr Hwf E. apply reachable_env; [done|]. apply outbox_steps_env.
  exact (dispatch_once_keeps pub config worker limit lease_seconds _ _ _ E Hwf).
Qed.
End properties.

(** ** The hypotheses hold on an example *)

(** Two events waiting in the outbox. *)
Definition add_event (key : string) : Tx Ledger unit :=
  outbox_run (AddEvent "t1" "task" "tsk_1" "orchestration.task.created" [] key).
Definition ledger_after (m : Tx Ledger unit) (l : Ledger) : Ledger :=
  match m l with Ok (_, l') => l' | Err _ => l end.
Definition waiting_ledger : Ledger :=
  ledger_after (add_event "k2") (ledger_after (add_event "k1") (empty_ledger t0)).

Lemma waiting_reachable : outbox_reachable waiting_ledger.
Proof.
  apply (outbox_step (AddEvent "t1" "task" "tsk_1" "orchestration.task.created" [] "k2")
    (ledger_after (add_event "k1") (empty_ledger t0))); [|vm_compute; reflexivity].
  apply (outbox_step (AddEvent "t1" "task" "tsk_1" "orchestration.task.created" [] "k1")
    (empty_ledger t0)); [constructor|vm_compute; reflexivity].
Qed.

(** One of them is leased. *)
Definition leased_ledger : Ledger := ledger_after (outbox_run (Claim "w1" t0 60 1)) waiting_ledger.
Lemma leased_reachable : outbox_reachable leased_ledger.
Proof.
  apply (outbox_step (Claim "w1" t0 60 1) waiting_ledger); [apply waiting_reachable|].
  vm_compute. reflexivity.
Qed.
Definition leased_event : OutboxEvent :=
  leased "w1" (after 60)
    (mkOutboxEvent "obx_0" "t1" "task" "tsk_1" "orchestration.task.created" [] "k1" t0 t0
       None None None None None 0 None).

(** A publisher that refuses the first event it is given, with a clock that stands still. *)
Definition flaky : Publisher nat :=
  mkPublisher nat
    (λ o n, (match n with O => inr ("TimeoutError", "late") | _ => inl ("m-" +:+ outbox_id o) end, S n))
    (λ n, (after 1, n)).
Definition sample_config : DispatcherConfig := mkDispatcherConfig 10 900.

Lemma outbox_rows_final_witness :
  ∃ o', o' ∈ outbox_events leased_ledger ∧ outbox_id o' = "obx_1".
Proof.
  destruct (outbox_rows_final (Claim "w1" t0 60 1) waiting_ledger leased_ledger
    (mkOutboxEvent "obx_1" "t1" "task" "tsk_1" "orchestration.task.created" [] "k2" t0 t0
       None None None None None 0 None)) as (o' & Ho & Hid & _);
    [apply waiting_reachable|vm_compute; reflexivity|right; left|].
  exists o'. split; [exact Ho|]. unfold row_identity in Hid. simpl in Hid. congruence.
Defined.

Lemma outbox_lease_exclusive_witness :
  ∃ claimed l', claim "w2" (after 30) 60 5 leased_ledger = Ok (claimed, l') ∧
    "obx_0" ∉ map outbox_id claimed.
Proof.
  destruct (after_run_Ok (claim "w2" (after 30) 60 5) leased_ledger) as [claimed E]; [by vm_compute|].
  exists claimed. eexists. split; [exact E|].
  apply (outbox_lease_exclusive leased_ledger leased_event "w1" (after 60)
    leased_reachable ltac:(left) eq_refl eq_refl) in E; [apply E|reflexivity].
Defined.

Lemma dispatch_once_settles_witness :
  ∃ report w' o', dispatch_once flaky sample_config "w1" 10 60 (mkWorld waiting_ledger 0%nat) = (Ok report, w') ∧
    rep_messages report = [mkPublishedMessage "obx_1" "m-obx_1" "orchestration.task.created" "t1"] ∧
    o' ∈ outbox_events (w_ledger w') ∧ ob_published_at o' = Some (after 1).
Proof.
  destruct (dispatch_once_settles flaky sample_config "w1" 10 60 (mkWorld waiting_ledger 0%nat) waiting_reachable)
    as (ready & claimed & _ & _ & K).
  assert (E : rep_messages <$> (match dispatch_once flaky sample_config "w1" 10 60 (mkWorld waiting_ledger 0%nat) with (Ok r, _) => Some r | _ => None end) =
    Some [mkPublishedMessage "obx_1" "m-obx_1" "orchestration.task.created" "t1"]) by (vm_compute; reflexivity).
  destruct (dispatch_once _ _ _ _ _ _) as [[report|e] w']; [|discriminate E].
  apply (inj Some) in E. destruct K as (os' & outs & Hall & (_ & Hin & _) & Er). rewrite Er in E. cbn in E. exists report, w'. rewrite Er.
  assert (Hx : ∃ o', o' ∈ os' ∧ ob_published_at o' = Some (after 1)).
  { clear -Hall E. induction Hall as [|o os p o' out p1 os' outs p2 Ho _ IH]; [discriminate E|]. destruct Ho.
    - exists o'. split; [left|]. injection Hpub as -> _. injection Hc as <- _. reflexivity.
    - destruct (IH E) as (x & Hx & Ex). exists x. split; [right; exact Hx|exact Ex]. }
  destruct Hx as (o' & Ho' & Ep). exists o'. split; [reflexivity|]. split; [exact E|]. split; [apply Hin; exact Ho'|exact Ep].
Defined.

Example dispatch_example :
  match dispatch_once flaky sample_config "w1" 10 60 (mkWorld waiting_ledger 0%nat) with
  | (Ok r, w) => Some (rep_claimed r, rep_published r, rep_failed r, rep_dead_lettered r,
                       map ob_available_at (outbox_events (w_ledger w)))
  | _ => None
  end = Some (2, 1, 1, 0, [after 2; t0]).
Proof. vm_compute. reflexivity. Qed.

(** The planned engagement of the example, with the two events of another component. *)
Definition waiting_db : OrchDB := set_ledger waiting_ledger planned_db.

Lemma waiting_db_reachable : reachable waiting_db.
Proof.
  apply reachable_env; [apply planned_reachable|]. split.
  - exists []. split; [reflexivity|constructor].
  - intros _ t s. reflexivity.
  - intros _ o n Ho _. repeat (apply elem_of_cons in Ho as [->|Ho]; [done|]). by apply elem_of_nil in Ho.
  - intros t k Hx. by apply Exists_nil in Hx.
Qed.

Lemma dispatch_keeps_workflow_witness :
  reachable (set_ledger
    (w_ledger (dispatch_once flaky sample_config "w1" 10 60 (mkWorld waiting_ledger 0%nat)).2) waiting_db).
Proof.
  eapply (dispatch_keeps_workflow flaky sample_config "w1" 10 60 waiting_db 0%nat);
    [apply waiting_db_reachable|apply outbox_reachable_wf, waiting_reachable|apply surjective_pairing].
Defined.
