(* ===== verification/SchedDefs.v ===== *)
(** * Scheduling: data definitions

    scheduling/definitions.py: the launch modes and the other policies of a
    schedule, the status of an occurrence, the calendar and period rules, the
    preflight report, and the values the scheduler exchanges with its callers,
    with the constraints pydantic checks when one is built.  The set-valued fields
    are finite sets. *)

From S2P Require Import Prelude PyFloat PyTime Ledger PyText Materiality.
Local Open Scope Z_scope.

(** ** Enumerations *)

Module LaunchMode.
Inductive t := APPROVAL_REQUIRED | PREFLIGHT_THEN_APPROVAL | AUTOMATIC.
#[global] Instance eq_dec : EqDecision t.
Proof. solve_decision. Defined.
End LaunchMode.
Abbreviation LaunchMode := LaunchMode.t.
Definition LaunchMode_value (m : LaunchMode) : string :=
  match m with
  | LaunchMode.APPROVAL_REQUIRED => "approval_required"
  | LaunchMode.PREFLIGHT_THEN_APPROVAL => "preflight_then_approval"
  | LaunchMode.AUTOMATIC => "automatic"
  end.
#[export] Program Instance LaunchMode_str : StrEnum LaunchMode := {|
  value := LaunchMode_value;
  members := [LaunchMode.APPROVAL_REQUIRED; LaunchMode.PREFLIGHT_THEN_APPROVAL; LaunchMode.AUTOMATIC]
|}.
Solve Obligations with solve_str_enum.

Module MissedOccurrencePolicy.
Inductive t := LAUNCH_ALL | LAUNCH_LATEST | SKIP.
#[global] Instance eq_dec : EqDecision t.
Proof. solve_decision. Defined.
End MissedOccurrencePolicy.
Abbreviation MissedOccurrencePolicy := MissedOccurrencePolicy.t.
Definition MissedOccurrencePolicy_value (m : MissedOccurrencePolicy) : string :=
  match m with
  | MissedOccurrencePolicy.LAUNCH_ALL => "launch_all"
  | MissedOccurrencePolicy.LAUNCH_LATEST => "launch_latest"
  | MissedOccurrencePolicy.SKIP => "skip"
  end.
#[export] Program Instance MissedOccurrencePolicy_str : StrEnum MissedOccurrencePolicy := {|
  value := MissedOccurrencePolicy_value;
  members := [MissedOccurrencePolicy.LAUNCH_ALL; MissedOccurrencePolicy.LAUNCH_LATEST;
    MissedOccurrencePolicy.SKIP]
|}.
Solve Obligations with solve_str_enum.

Module OverlapPolicy.
Inductive t := PREVENT | ALLOW.
#[global] Instance eq_dec : EqDecision t.
Proof. solve_decision. Defined.
End OverlapPolicy.
Abbreviation OverlapPolicy := OverlapPolicy.t.
Definition OverlapPolicy_value (m : OverlapPolicy) : string :=
  match m with OverlapPolicy.PREVENT => "prevent" | OverlapPolicy.ALLOW => "allow" end.
#[export] Program Instance OverlapPolicy_str : StrEnum OverlapPolicy := {|
  value := OverlapPolicy_value;
  members := [OverlapPolicy.PREVENT; OverlapPolicy.ALLOW]
|}.
Solve Obligations with solve_str_enum.

Module OccurrenceStatus.
Inductive t :=
  | DUE | DEFERRED | SKIPPED | PREFLIGHT_BLOCKED | WAITING_APPROVAL | LAUNCHING | LAUNCHED
  | LAUNCH_FAILED | CANCELLED.
#[global] Instance eq_dec : EqDecision t.
Proof. solve_decision. Defined.
End OccurrenceStatus.
Abbreviation OccurrenceStatus := OccurrenceStatus.t.
Definition OccurrenceStatus_value (s : OccurrenceStatus) : string :=
  match s with
  | OccurrenceStatus.DUE => "due" | OccurrenceStatus.DEFERRED => "deferred"
  | OccurrenceStatus.SKIPPED => "skipped"
  | OccurrenceStatus.PREFLIGHT_BLOCKED => "preflight_blocked"
  | OccurrenceStatus.WAITING_APPROVAL => "waiting_approval"
  | OccurrenceStatus.LAUNCHING => "launching" | OccurrenceStatus.LAUNCHED => "launched"
  | OccurrenceStatus.LAUNCH_FAILED => "launch_failed"
  | OccurrenceStatus.CANCELLED => "cancelled"
  end.
#[export] Program Instance OccurrenceStatus_str : StrEnum OccurrenceStatus := {|
  value := OccurrenceStatus_value;
  members := [OccurrenceStatus.DUE; OccurrenceStatus.DEFERRED; OccurrenceStatus.SKIPPED;
    OccurrenceStatus.PREFLIGHT_BLOCKED; OccurrenceStatus.WAITING_APPROVAL;
    OccurrenceStatus.LAUNCHING; OccurrenceStatus.LAUNCHED; OccurrenceStatus.LAUNCH_FAILED;
    OccurrenceStatus.CANCELLED]
|}.
Solve Obligations with solve_str_enum.

(** ** Rules of a schedule *)

Inductive period_kind := calendar_months | rolling_days.
#[export] Instance period_kind_eq_dec : EqDecision period_kind.
Proof. solve_decision. Defined.

Record AuditPeriodRule := mkAuditPeriodRule {
  kind : period_kind;
  months : Z;
  days : Z;
  end_offset_days : Z
}.
(** The field constraints subsume [validate_relevant_field]. *)
Definition AuditPeriodRule_valid (r : AuditPeriodRule) : bool :=
  (1 <=? months r) && (months r <=? 60) && (1 <=? days r) && (days r <=? 3660) &&
  (0 <=? end_offset_days r) && (end_offset_days r <=? 3660).

Record BusinessCalendarConfig := mkBusinessCalendarConfig {
  weekend_days : gset Z;
  holidays : gset date
}.
(** [validate_weekdays]. *)
Definition BusinessCalendarConfig_valid (c : BusinessCalendarConfig) : bool :=
  forallb (λ d, (0 <=? d) && (d <=? 6)) (elements (weekend_days c)).

Inductive blackout_behavior := blackout_delay | blackout_skip.
#[export] Instance blackout_behavior_eq_dec : EqDecision blackout_behavior.
Proof. solve_decision. Defined.

Record BlackoutWindow := mkBlackoutWindow {
  window_start : date;
  window_end : date;
  behavior : blackout_behavior;
  window_reason : string
}.
(** The length of the reason and [validate_order]. *)
Definition BlackoutWindow_valid (w : BlackoutWindow) : bool :=
  length_within 1 500 (window_reason w) && (window_start w <=? window_end w) &&
  (1 <=? window_start w) && (window_end w <=? max_ordinal).
Record BlackoutPolicy := mkBlackoutPolicy { windows : list BlackoutWindow }.
Definition BlackoutPolicy_valid (p : BlackoutPolicy) : bool := forallb BlackoutWindow_valid (windows p).

(** ** Preflight *)

Record PreflightContext := mkPreflightContext {
  connector_health : gmap string string;
  available_budget_usd : option float;
  available_competencies : gset string;
  independence_conflicts : gset string;
  attributes : dict
}.
Definition empty_context : PreflightContext := mkPreflightContext ∅ None ∅ ∅ [].

Record PreflightCheck := mkPreflightCheck {
  check_code : string;
  check_passed : bool;
  check_message : string;
  check_details : dict
}.
Record PreflightReport := mkPreflightReport {
  report_passed : bool;
  report_checked_at : datetime;
  report_checks : list PreflightCheck
}.
(** [model_dump(mode="json")]; pydantic writes an instant in UTC with the suffix Z. *)
Definition dump_check (c : PreflightCheck) : json :=
  JObj [("code", JStr (check_code c)); ("passed", JBool (check_passed c));
        ("message", JStr (check_message c)); ("details", JObj (check_details c))].
Definition zulu (t : datetime) : string :=
  let s := isoformat t in String.substring 0 (String.length s - 6) s +:+ "Z".
Definition dump_report (r : PreflightReport) : dict :=
  [("passed", JBool (report_passed r)); ("checked_at", JStr (zulu (report_checked_at r)));
   ("checks", JList (map dump_check (report_checks r)))].

(** ** Values exchanged with the callers *)

Record OccurrenceSnapshot := mkOccurrenceSnapshot {
  osnap_occurrence_id : string;
  osnap_schedule_id : string;
  osnap_engagement_id : option string;
  osnap_nominal_due : datetime;
  osnap_eligible_at : datetime;
  osnap_period_start : date;
  osnap_period_end : date;
  osnap_status : OccurrenceStatus;
  osnap_decision_reason : option string;
  osnap_launch_attempts : Z;
  osnap_last_error : option string;
  osnap_preflight_result_json : dict
}.

Inductive blackout_action := action_none | action_delay | action_skip.
#[export] Instance blackout_action_eq_dec : EqDecision blackout_action.
Proof. solve_decision. Defined.

Record ScheduleSimulationItem := mkScheduleSimulationItem {
  item_nominal_due : datetime;
  item_eligible_at : datetime;
  item_period_start : date;
  item_period_end : date;
  item_blackout_action : blackout_action;
  item_blackout_reason : option string
}.

Record ScheduleEvaluationSummary := mkScheduleEvaluationSummary {
  sum_tenant_id : string;
  sum_evaluated_at : datetime;
  schedules_evaluated : Z;
  occurrences_created : Z;
  launched : Z;
  waiting_approval : Z;
  blocked : Z;
  skipped : Z;
  deferred : Z;
  failures : Z;
  occurrence_ids : list string
}.

Record OccurrenceDecision := mkOccurrenceDecision {
  decider_id : string;
  decision_text : string;
  preflight_context : PreflightContext
}.
Definition OccurrenceDecision_valid (d : OccurrenceDecision) : bool :=
  length_within 1 128 (decider_id d) && length_within 1 4000 (decision_text d).
