(* ===== verification/SchedCalendar.v ===== *)
(** * Scheduling: local time, recurrence, calendars and periods

    scheduling/recurrence.py, scheduling/calendar.py and scheduling/periods.py.
    The time zone database and dateutil are parameters: [TimeZones] is what
    [ZoneInfo] answers, [Dateutil] what [rrulestr] and [relativedelta] do.  An aware
    [datetime] is its wall clock, its fold and its zone; two of them in the same
    zone compare by the wall clock alone, as in Python. *)

From Stdlib Require Import Ascii.
From S2P Require Import Prelude PyFloat PyTime PyCalendar Ledger PyText Materiality SchedDefs.
Local Open Scope Z_scope.

(** ** Aware datetimes *)

(** [datetime.timezone.utc] or [ZoneInfo(name)], which is cached: one object per name. *)
Inductive tzinfo := utc | ZoneInfo (name : string).
#[export] Instance tzinfo_eq_dec : EqDecision tzinfo.
Proof. solve_decision. Defined.

(** The wall clock is a [datetime] without zone, counted like an instant. *)
Record aware := mkAware { wall : datetime; fold : bool; zone : tzinfo }.

(** The time zone database: which names it has, and the two conversions of a zone.
    An instant converted to a zone and back is itself (PEP 495). *)
Class TimeZones := {
  zone_known : string → bool;
  zone_wall : string → datetime → datetime * bool;
  zone_instant : string → datetime → bool → datetime;
  zone_round_trip name t :
    zone_instant name (fst (zone_wall name t)) (snd (zone_wall name t)) = t
}.

(** dateutil.  [rrule_between rule dtstart after before] and [rrule_after rule dtstart
    instant] are the occurrences of a rule and the first one after an instant; [None] is a rule [rrulestr] rejects with [ValueError]
    or [TypeError].  [months_before d n] is [d - relativedelta(months=n)]: of the first
    day of a month, it is the first day of the month [n] months before, if its year exists. *)
Class Dateutil := {
  rrule_between : string → aware → aware → aware → option (list aware);
  rrule_after : string → aware → aware → option (option aware);
  months_before : date → Z → Res date;
  months_before_start i n :
    12 ≤ i → 0 ≤ n →
    months_before (month_start i) n = if 12 <=? i - n then Ok (month_start (i - n)) else Err (Py ValueError)
}.

Section zones.
Context `{TimeZones}.

(** [value.astimezone(tz)] of an instant, and the instant of a local time. *)
Definition to_zone (tz : tzinfo) (t : datetime) : Res aware :=
  match tz with
  | utc => Ok (mkAware t false utc)
  | ZoneInfo name =>
      let '(w, f) := zone_wall name t in
      if in_range w then Ok (mkAware w f tz) else Err (Py OverflowError)
  end.
Definition to_utc (a : aware) : Res datetime :=
  match zone a with
  | utc => Ok (wall a)
  | ZoneInfo name =>
      let t := zone_instant name (wall a) (fold a) in
      if in_range t then Ok t else Err (Py OverflowError)
  end.

(** The instant a local time stands for, for comparisons across zones. *)
Definition utc_value (a : aware) : datetime :=
  match zone a with utc => wall a | ZoneInfo name => zone_instant name (wall a) (fold a) end.
(** [a > b]: within one zone the wall clocks are compared. *)
Definition later (a b : aware) : bool :=
  if decide (zone a = zone b) then wall b <? wall a else utc_value b <? utc_value a.

Definition local_date (a : aware) : date := date_of (wall a).

(** ** RecurrenceEngine *)

(** [RecurrenceEngine.timezone]. *)
Definition timezone (name : string) : Res tzinfo :=
  if zone_known name then Ok (ZoneInfo name) else Err (Sch RecurrenceError).

(** Upper case as far as the prefixes below need it. *)
Definition upper_char (c : ascii) : ascii :=
  if (97 <=? ord c) && (ord c <=? 122) then chr (ord c - 32) else c.
Definition upper (s : string) : string :=
  String.string_of_list_ascii (map upper_char (String.list_ascii_of_string s)).

Definition _normalize_rule (rule : string) : string :=
  let stripped := strip rule in
  if startswith (upper stripped) ["RRULE:"; "DTSTART"] then stripped else "RRULE:" +:+ stripped.

Fixpoint map_res {A B} (f : A → Res B) (l : list A) : Res (list B) :=
  match l with
  | [] => Ok []
  | x :: l => let? y := f x in let? ys := map_res f l in Ok (y :: ys)
  end.

Context `{Dateutil}.

Definition recurrence_error {A} (o : option A) : Res A :=
  match o with Some x => Ok x | None => Err (Sch RecurrenceError) end.

Definition occurrences_between (rule timezone_name : string)
    (effective_from start_exclusive end_inclusive : datetime) (limit : Z) : Res (list datetime) :=
  if limit <? 1 then Err (Py ValueError)
  else
    let? tz := timezone timezone_name in
    let? effective_local := to_zone tz effective_from in
    let? start_local := to_zone tz start_exclusive in
    let? end_local := to_zone tz end_inclusive in
    let? values := recurrence_error
      (rrule_between (_normalize_rule rule) effective_local start_local end_local) in
    let filtered := filter (λ v, later v start_local = true) values in
    if limit <? Z.of_nat (length filtered) then Err (Sch RecurrenceError)
    else map_res to_utc filtered.

Definition next_after (rule timezone_name : string) (effective_from after : datetime)
    : Res (option datetime) :=
  let? tz := timezone timezone_name in
  let? effective_local := to_zone tz effective_from in
  let? after_local := to_zone tz after in
  let? value := recurrence_error (rrule_after (_normalize_rule rule) effective_local after_local) in
  match value with
  | None => Ok None
  | Some v => let? t := to_utc v in Ok (Some t)
  end.
End zones.

(** ** BusinessCalendar *)

(** [date.weekday()]: Monday is 0, and ordinal 1 is a Monday. *)
Definition weekday (d : date) : Z := (d - 1) mod 7.

Definition is_business_day (c : BusinessCalendarConfig) (d : date) : bool :=
  bool_decide (weekday d ∉ weekend_days c) && bool_decide (d ∉ holidays c).

(** The search by [candidate += timedelta(days=1)], which raises past the last day
    of the calendar. *)
Fixpoint next_business_day_from (fuel : nat) (c : BusinessCalendarConfig) (d : date) : Res date :=
  if is_business_day c d then Ok d
  else match fuel with
       | O => Err (Py OutOfFuel)
       | S fuel => let? d := add_days d 1 in next_business_day_from fuel c d
       end.
(** The days left in the calendar bound the search. *)
Definition next_business_day (c : BusinessCalendarConfig) (d : date) : Res date :=
  next_business_day_from (Z.to_nat (max_ordinal - d + 1)) c d.

Record BlackoutResolution := mkBlackoutResolution {
  eligible_at : aware;
  action : blackout_action;
  reason : option string
}.

Fixpoint resolve_windows (c : BusinessCalendarConfig) (due_local : aware) (ws : list BlackoutWindow)
    (tz : tzinfo) : Res BlackoutResolution :=
  match ws with
  | [] => Ok (mkBlackoutResolution due_local action_none None)
  | w :: ws =>
      if (window_start w <=? local_date due_local) && (local_date due_local <=? window_end w) then
        match behavior w with
        | blackout_skip => Ok (mkBlackoutResolution due_local action_skip (Some (window_reason w)))
        | blackout_delay =>
            let? after := add_days (window_end w) 1 in
            let? next_day := next_business_day c after in
            let eligible := mkAware ((next_day - epoch_ordinal) * us_per_day + wall due_local mod us_per_day)
                              (fold due_local) tz in
            Ok (mkBlackoutResolution eligible action_delay (Some (window_reason w)))
        end
      else resolve_windows c due_local ws tz
  end.
Definition resolve_blackout (c : BusinessCalendarConfig) (due_local : aware) (p : BlackoutPolicy)
    (tz : tzinfo) : Res BlackoutResolution :=
  resolve_windows c due_local (windows p) tz.

(** ** AuditPeriodCalculator *)

Definition first_of_month (d : date) : date := let '(y, m, _) := ord2ymd d in ymd2ord y m 1.

Definition calculate `{Dateutil} (due_local : aware) (rule : AuditPeriodRule) : Res (date * date) :=
  let? period_end := add_days (local_date due_local) (- end_offset_days rule) in
  match kind rule with
  | rolling_days =>
      let? start := add_days period_end (- (days rule - 1)) in Ok (start, period_end)
  | calendar_months =>
      let first_of_end_month := first_of_month period_end in
      let? period_start := months_before first_of_end_month (months rule - 1) in
      let '(y, m, d) := ord2ymd period_end in
      if d =? days_in_month y m then Ok (period_start, period_end)
      else
        let? previous_month_end := add_days first_of_end_month (-1) in
        let? start := months_before (first_of_month previous_month_end) (months rule - 1) in
        Ok (start, previous_month_end)
  end.

(** ** The search for a business day *)

Lemma next_business_day_from_spec c fuel d :
  1 ≤ d ≤ max_ordinal → max_ordinal - d < Z.of_nat fuel →
  match next_business_day_from fuel c d with
  | Ok r => d ≤ r ≤ max_ordinal ∧ is_business_day c r = true ∧ ∀ x, d ≤ x < r → is_business_day c x = false
  | Err e => e = Py OverflowError ∧ ∀ x, d ≤ x ≤ max_ordinal → is_business_day c x = false
  end.
Proof.
  revert d. induction fuel as [|fuel IH]; intros d Hd Hf; cbn [next_business_day_from]; [lia|].
  destruct (is_business_day c d) eqn:E; [split_and!; (done || lia)|].
  unfold add_days. destruct (Z.leb_spec 1 (d + 1)), (Z.leb_spec (d + 1) max_ordinal); cbn [andb res_bind]; try lia.
  - specialize (IH (d + 1) ltac:(lia) ltac:(lia)). destruct (next_business_day_from fuel c (d + 1)).
    + destruct IH as (H1 & H2 & H3). split_and!; [lia..|done|]. intros x Hx.
      destruct (decide (x = d)) as [->|]; [done|apply H3; lia].
    + destruct IH as [-> H1]. split; [done|]. intros x Hx.
      destruct (decide (x = d)) as [->|]; [done|apply H1; lia].
  - split; [done|]. intros x Hx. by replace x with d by lia.
Qed.

(** The search ends: on the first business day, or past the end of the calendar when
    there is none. *)
Lemma next_business_day_spec c d :
  1 ≤ d ≤ max_ordinal →
  match next_business_day c d with
  | Ok r => d ≤ r ≤ max_ordinal ∧ is_business_day c r = true ∧ ∀ x, d ≤ x < r → is_business_day c x = false
  | Err e => e = Py OverflowError ∧ ∀ x, d ≤ x ≤ max_ordinal → is_business_day c x = false
  end.
Proof. intros Hd. apply next_business_day_from_spec; [done|lia]. Qed.

(** ** Blackouts *)

Definition in_window (d : date) (w : BlackoutWindow) : bool := (window_start w <=? d) && (d <=? window_end w).

(** The first window that holds the day decides. *)
Lemma resolve_windows_spec c due ws tz :
  forallb BlackoutWindow_valid ws = true →
  match list_find (λ w, in_window (local_date due) w = true) ws with
  | None => resolve_windows c due ws tz = Ok (mkBlackoutResolution due action_none None)
  | Some (_, w) =>
      match behavior w with
      | blackout_skip =>
          resolve_windows c due ws tz = Ok (mkBlackoutResolution due action_skip (Some (window_reason w)))
      | blackout_delay =>
          match resolve_windows c due ws tz with
          | Ok r => action r = action_delay ∧ reason r = Some (window_reason w) ∧
              zone (eligible_at r) = tz ∧ wall (eligible_at r) mod us_per_day = wall due mod us_per_day ∧
              window_end w < local_date (eligible_at r) ∧
              is_business_day c (local_date (eligible_at r)) = true ∧
              ∀ x, window_end w < x < local_date (eligible_at r) → is_business_day c x = false
          | Err e => e = Py OverflowError ∧
              ∀ x, window_end w < x ≤ max_ordinal → is_business_day c x = false
          end
      end
  end.
Proof.
  induction ws as [|w ws IH]; intros Hv; [done|]. cbn [forallb] in Hv. apply andb_true_iff in Hv as [Hw Hv].
  cbn [list_find]. change ((window_start w <=? local_date due) && (local_date due <=? window_end w))
    with (in_window (local_date due) w) in *. cbn [resolve_windows].
  change ((window_start w <=? local_date due) && (local_date due <=? window_end w))
    with (in_window (local_date due) w).
  destruct (in_window (local_date due) w) eqn:E; [|].
  2: { rewrite decide_False by done. specialize (IH Hv).
    destruct (list_find _ ws) as [[k w']|]; cbn [fmap option_fmap option_map prod_map]; exact IH. }
  rewrite decide_True by done. destruct (behavior w); [|done].
  unfold BlackoutWindow_valid in Hw. rewrite !andb_true_iff, !Z.leb_le in Hw. destruct Hw as [[[_ H1] H2] H3].
  unfold add_days. destruct (Z.leb_spec 1 (window_end w + 1)); [|lia].
  destruct (Z.leb_spec (window_end w + 1) max_ordinal); cbn [andb res_bind].
  2: { split; [done|]. intros x Hx. lia. }
  pose proof (next_business_day_spec c (window_end w + 1) ltac:(lia)) as Hn.
  destruct (next_business_day c (window_end w + 1)) as [r|e]; cbn [res_bind].
  2: { destruct Hn as [-> Hn]. split; [done|]. intros x Hx. apply Hn. lia. }
  destruct Hn as (Hr & Hb & Hx). cbn [action reason eligible_at zone].
  assert (Hd : local_date (mkAware ((r - epoch_ordinal) * us_per_day + wall due mod us_per_day) (fold due) tz) = r).
  { unfold local_date, date_of. cbn [wall]. unfold us_per_day, us_per_second.
    Z.to_euclidean_division_equations. lia. }
  rewrite Hd. split_and!; try done; try lia.
  - cbn [wall]. unfold us_per_day, us_per_second. Z.to_euclidean_division_equations. lia.
  - intros x Hlt. apply Hx. lia.
Qed.

(** ** Periods *)

(** The last month that is over on a day. *)
Definition last_completed (d : date) : Z := month_index (d + 1) - 1.

Lemma last_completed_spec d :
  month_start (last_completed d + 1) - 1 ≤ d < month_start (last_completed d + 2) - 1.
Proof.
  unfold last_completed. pose proof (month_index_bounds (d + 1)) as H.
  replace (month_index (d + 1) - 1 + 1) with (month_index (d + 1)) by lia.
  replace (month_index (d + 1) - 1 + 2) with (month_index (d + 1) + 1) by lia. lia.
Qed.

Lemma first_of_month_start d : first_of_month d = month_start (month_index d).
Proof.
  unfold first_of_month. destruct (day_in_month d) as (k & E & _). rewrite E. done.
Qed.

Lemma month_index_positive d : 1 ≤ d → 12 ≤ month_index d.
Proof.
  intros Hd. destruct (Z.le_gt_cases 12 (month_index d)) as [?|Hm]; [done|].
  pose proof (month_index_bounds d). pose proof (month_start_mono (month_index d + 1) 12 ltac:(lia)).
  change (month_start 12) with 1 in *. lia.
Qed.

Lemma month_index_lt d j : d < month_start j → month_index d < j.
Proof.
  intros Hd. destruct (Z.lt_ge_cases (month_index d) j) as [?|Hj]; [done|].
  pose proof (month_start_mono _ _ Hj). pose proof (month_index_bounds d). lia.
Qed.

(** On a day of the calendar: whether its month ends with it. *)
Lemma last_completed_cases d :
  let i := month_index d in let '(y, m, k) := ord2ymd d in
  first_of_month d = month_start i ∧
  if k =? days_in_month y m then d = month_start (i + 1) - 1 ∧ last_completed d = i
  else last_completed d = i - 1.
Proof.
  destruct (day_in_month d) as (k & E & Hk & Ed & Em). cbv zeta. rewrite first_of_month_start.
  set (i := month_index d) in *. rewrite E. split; [done|]. unfold last_completed.
  destruct (Z.eqb_spec k (days_in_month (i / 12) (i mod 12 + 1))) as [->|Hne].
  - assert (d + 1 = month_start (i + 1)) as E1 by lia. rewrite E1, month_index_start. lia.
  - rewrite (month_index_unique (d + 1) i); lia.
Qed.

Section calculate.
Context `{Dateutil} (due : aware) (rule : AuditPeriodRule).
Context (Hv : AuditPeriodRule_valid rule = true) (Hd : 1 ≤ local_date due ≤ max_ordinal).

Let stop := local_date due - end_offset_days rule.

Lemma rule_bounds : 1 ≤ months rule ∧ 1 ≤ days rule ∧ 0 ≤ end_offset_days rule.
Proof. revert Hv. unfold AuditPeriodRule_valid. rewrite !andb_true_iff, !Z.leb_le. tauto. Qed.

Lemma calculate_offset :
  add_days (local_date due) (- end_offset_days rule) = if 1 <=? stop then Ok stop else Err (Py OverflowError).
Proof.
  pose proof rule_bounds. unfold add_days. change (local_date due + - end_offset_days rule) with stop.
  replace (stop <=? max_ordinal) with true by (subst stop; lia). by rewrite andb_true_r.
Qed.

(** A rolling period is the days up to its end; it is refused only before the calendar. *)
Lemma calculate_rolling :
  kind rule = rolling_days →
  calculate due rule =
    if 1 <=? stop - days rule + 1 then Ok (stop - days rule + 1, stop) else Err (Py OverflowError).
Proof.
  intros Hk. pose proof rule_bounds. unfold calculate. rewrite calculate_offset, Hk. unfold add_days.
  destruct (Z.leb_spec 1 stop); cbn [res_bind]; [|destruct (Z.leb_spec 1 (stop - days rule + 1)); [lia|done]].
  replace (stop + - (days rule - 1)) with (stop - days rule + 1) by lia.
  replace (stop - days rule + 1 <=? max_ordinal) with true by (subst stop; lia).
  by destruct (1 <=? stop - days rule + 1).
Qed.

(** A period of whole months ends with the last month that is over, and begins the
    given number of months before its end; it is refused only before the year 1. *)
Lemma calculate_months :
  kind rule = calendar_months →
  let last := last_completed stop in
  if 12 <=? last - months rule + 1
  then calculate due rule = Ok (month_start (last - months rule + 1), month_start (last + 1) - 1)
  else ∃ e, calculate due rule = Err (Py e).
Proof.
  intros Hk. pose proof rule_bounds as (Hm & _ & Ho). cbv zeta. unfold calculate. rewrite calculate_offset, Hk.
  destruct (Z.leb_spec 1 stop) as [Hs|Hs]; cbn [res_bind].
  2: { assert (Hl : month_index (stop + 1) < 13) by (apply month_index_lt; change (month_start 13) with 32; lia).
    unfold last_completed. destruct (Z.leb_spec 12 (month_index (stop + 1) - 1 - months rule + 1)); [lia|by eexists]. }
  pose proof (last_completed_cases stop) as Hc. pose proof (month_index_positive stop Hs) as Hi. cbv zeta in Hc.
  destruct (ord2ymd stop) as [[y m] k]. destruct Hc as [-> Hc].
  rewrite months_before_start by lia. set (i := month_index stop) in *.
  destruct (Z.leb_spec 12 (i - (months rule - 1))); cbn [res_bind].
  2: { assert (last_completed stop ≤ i) by (destruct (k =? days_in_month y m); lia).
    destruct (Z.leb_spec 12 (last_completed stop - months rule + 1)); [lia|by eexists]. }
  destruct (k =? days_in_month y m).
  - destruct Hc as [Hst ->]. replace (i - (months rule - 1)) with (i - months rule + 1) in * by lia.
    destruct (Z.leb_spec 12 (i - months rule + 1)); [|lia]. by rewrite Hst at 1.
  - rewrite Hc. unfold add_days.
    destruct (Z.leb_spec 1 (month_start i + -1)) as [Hp|Hp].
    2: { cbn [andb res_bind]. assert (i < 13) by (rewrite <- (month_index_start i); apply month_index_lt;
        change (month_start 13) with 32; lia).
      destruct (Z.leb_spec 12 (i - 1 - months rule + 1)); [lia|by eexists]. }
    pose proof (month_index_bounds stop) as Hb. fold i in Hb.
    replace (month_start i + -1 <=? max_ordinal) with true by (subst stop; lia). cbn [andb res_bind].
    assert (Hprev : month_index (month_start i + -1) = i - 1).
    { pose proof (month_start_succ (i - 1)) as Hn. replace (i - 1 + 1) with i in Hn by lia.
      apply month_index_unique. replace (i - 1 + 1) with i by lia. lia. }
    pose proof (month_index_positive (month_start i + -1) Hp) as H12. rewrite Hprev in H12.
    rewrite first_of_month_start, Hprev, months_before_start by lia.
    replace (i - 1 - (months rule - 1)) with (i - 1 - months rule + 1) by lia.
    destruct (Z.leb_spec 12 (i - 1 - months rule + 1)); cbn [res_bind]; [|by eexists].
    do 2 f_equal. replace (i - 1 + 1) with i by lia. lia.
Qed.
End calculate.
