(* ===== verification/SchedStore.v ===== *)
(** * Scheduling: the store

    The rows of db/models/planning.py and db/models/tenancy.py the scheduler reads
    and writes, and scheduling/repository.py over them.  An occurrence is split into
    the columns written when it is materialised ([OccurrenceSpec]) and those its
    launch changes ([OccurrenceState]).  The engagements, the tasks and the ledger
    are the orchestrator's [OrchDB].  The columns holding the rules of a schedule are
    JSON, which pydantic parses when they are used ([Pydantic]); the keys of a
    preflight policy are typed, each present or absent.  Columns the scheduler
    neither reads nor writes are left out.  The lease of a cursor is modelled with the
    instance the session has of the row, which the guarded update leaves behind
    ([CursorSession]).  Where the source orders rows by a column
    that may tie, ties come in the order of the primary key. *)

From S2P Require Import Prelude PyFloat PyTime Ledger PyText Materiality Quality SchedDefs SchedCalendar.
From S2P Require Import OrchDefs OrchStore Orchestrator.
Local Open Scope Z_scope.

(** ** Rows *)

Record Tenant := mkTenant { ten_id : string; ten_status : string }.

Record AuditPlan := mkAuditPlan {
  plan_id : string;
  plan_tenant_id : string;
  plan_status : string
}.

Inductive number := IntNumber (z : Z) | FloatNumber (f : float).
Definition number_json (n : number) : json :=
  match n with IntNumber z => JInt z | FloatNumber f => JFloat f end.
(** [float(n)]. *)
Definition number_float (n : number) : float :=
  match n with IntNumber z => float_of_Z z | FloatNumber f => f end.

(** The keys of a preflight policy the code reads; a key may be absent.  A budget may be null. *)
Record PreflightPolicy := mkPreflightPolicy {
  required_connectors : option (list string);
  required_competencies : option (list string);
  estimated_cost_usd : option (option number);
  independence_roles : option (list string);
  launch_retry_seconds : option Z
}.
Definition or_else {A} (a b : option A) : option A := match a with Some _ => a | None => b end.
(** [{**base, **extra}]. *)
Definition merge_policy (base extra : PreflightPolicy) : PreflightPolicy :=
  mkPreflightPolicy (or_else (required_connectors extra) (required_connectors base))
    (or_else (required_competencies extra) (required_competencies base))
    (or_else (estimated_cost_usd extra) (estimated_cost_usd base))
    (or_else (independence_roles extra) (independence_roles base))
    (or_else (launch_retry_seconds extra) (launch_retry_seconds base)).
Definition empty_policy : PreflightPolicy := mkPreflightPolicy None None None None None.

Record EngagementTemplate := mkEngagementTemplate {
  tpl_id : string;
  tpl_tenant_id : string;
  tpl_name : string;
  tpl_version : Z;
  tpl_status : string;
  tpl_audit_pack_ref : string;
  objectives_json : list string;
  tpl_scope_json : dict;
  tpl_preflight_policy : PreflightPolicy;
  workflow_definition_json : dict
}.

Record AuditSchedule := mkAuditSchedule {
  schedule_id : string;
  sch_tenant_id : string;
  sch_plan_id : string;
  sch_template_id : string;
  sch_name : string;
  sch_version : Z;
  sch_status : string;
  recurrence_rule : string;
  sch_timezone : string;
  effective_from : datetime;
  effective_until : option datetime;
  audit_period_rule_json : dict;
  business_calendar_json : dict;
  blackout_policy_json : dict;
  sch_preflight_policy : PreflightPolicy;
  launch_mode : string;
  missed_occurrence_policy : string;
  catch_up_limit : Z;
  overlap_policy : string;
  max_concurrent_engagements : Z;
  approved_at : option datetime;
  approved_by : option string;
  approval_reason : option string;
  disabled_at : option datetime;
  disabled_by : option string;
  disable_reason : option string
}.

Record ScheduleCursor := mkScheduleCursor {
  cur_schedule_id : string;
  cur_tenant_id : string;
  last_evaluated_at : option datetime;
  next_due_at : option datetime;
  cur_lease_owner : option string;
  cur_lease_expires_at : option datetime;
  cur_updated_at : datetime
}.

Record OccurrenceSpec := mkOccurrenceSpec {
  occurrence_id : string;
  occ_tenant_id : string;
  occ_schedule_id : string;
  nominal_due : datetime;
  occ_period_start : date;
  occ_period_end : date;
  schedule_version : Z;
  template_version : Z;
  schedule_snapshot_json : dict;
  template_snapshot_json : dict
}.

Record OccurrenceState := mkOccurrenceState {
  occ_engagement_id : option string;
  occ_eligible_at : datetime;
  occ_status : OccurrenceStatus;
  decision_reason : option string;
  decision_by : option string;
  preflight_result_json : dict;
  occ_evaluated_at : option datetime;
  launched_at : option datetime;
  launch_attempts : Z;
  occ_last_error : option string
}.

Definition set_occ_engagement_id (v : option string) (s : OccurrenceState) : OccurrenceState :=
  mkOccurrenceState v (occ_eligible_at s) (occ_status s) (decision_reason s) (decision_by s)
    (preflight_result_json s) (occ_evaluated_at s) (launched_at s)
    (launch_attempts s) (occ_last_error s).
Definition set_occ_eligible_at (v : datetime) (s : OccurrenceState) : OccurrenceState :=
  mkOccurrenceState (occ_engagement_id s) v (occ_status s) (decision_reason s) (decision_by s)
    (preflight_result_json s) (occ_evaluated_at s) (launched_at s)
    (launch_attempts s) (occ_last_error s).
Definition set_occ_status (v : OccurrenceStatus) (s : OccurrenceState) : OccurrenceState :=
  mkOccurrenceState (occ_engagement_id s) (occ_eligible_at s) v (decision_reason s)
    (decision_by s) (preflight_result_json s) (occ_evaluated_at s) (launched_at s)
    (launch_attempts s) (occ_last_error s).
Definition set_decision_reason (v : option string) (s : OccurrenceState) : OccurrenceState :=
  mkOccurrenceState (occ_engagement_id s) (occ_eligible_at s) (occ_status s) v (decision_by s)
    (preflight_result_json s) (occ_evaluated_at s) (launched_at s)
    (launch_attempts s) (occ_last_error s).
Definition set_decision_by (v : option string) (s : OccurrenceState) : OccurrenceState :=
  mkOccurrenceState (occ_engagement_id s) (occ_eligible_at s) (occ_status s) (decision_reason s) v
    (preflight_result_json s) (occ_evaluated_at s) (launched_at s)
    (launch_attempts s) (occ_last_error s).
Definition set_preflight_result_json (v : dict) (s : OccurrenceState) : OccurrenceState :=
  mkOccurrenceState (occ_engagement_id s) (occ_eligible_at s) (occ_status s) (decision_reason s)
    (decision_by s) v (occ_evaluated_at s) (launched_at s) (launch_attempts s)
    (occ_last_error s).
Definition set_occ_evaluated_at (v : option datetime) (s : OccurrenceState) : OccurrenceState :=
  mkOccurrenceState (occ_engagement_id s) (occ_eligible_at s) (occ_status s) (decision_reason s)
    (decision_by s) (preflight_result_json s) v (launched_at s)
    (launch_attempts s) (occ_last_error s).
Definition set_launched_at (v : option datetime) (s : OccurrenceState) : OccurrenceState :=
  mkOccurrenceState (occ_engagement_id s) (occ_eligible_at s) (occ_status s) (decision_reason s)
    (decision_by s) (preflight_result_json s) (occ_evaluated_at s) v
    (launch_attempts s) (occ_last_error s).
Definition set_launch_attempts (v : Z) (s : OccurrenceState) : OccurrenceState :=
  mkOccurrenceState (occ_engagement_id s) (occ_eligible_at s) (occ_status s) (decision_reason s)
    (decision_by s) (preflight_result_json s) (occ_evaluated_at s) (launched_at s)
    v (occ_last_error s).
Definition set_occ_last_error (v : option string) (s : OccurrenceState) : OccurrenceState :=
  mkOccurrenceState (occ_engagement_id s) (occ_eligible_at s) (occ_status s) (decision_reason s)
    (decision_by s) (preflight_result_json s) (occ_evaluated_at s) (launched_at s)
    (launch_attempts s) v.

Record ScheduleOccurrence := mkScheduleOccurrence { ospec : OccurrenceSpec; ostate : OccurrenceState }.
Definition oid (o : ScheduleOccurrence) : string := occurrence_id (ospec o).
Definition ostatus (o : ScheduleOccurrence) : OccurrenceStatus := occ_status (ostate o).

Definition model_snapshot (o : ScheduleOccurrence) : OccurrenceSnapshot :=
  mkOccurrenceSnapshot (oid o) (occ_schedule_id (ospec o)) (occ_engagement_id (ostate o))
    (nominal_due (ospec o)) (occ_eligible_at (ostate o)) (occ_period_start (ospec o))
    (occ_period_end (ospec o)) (ostatus o) (decision_reason (ostate o))
    (launch_attempts (ostate o)) (occ_last_error (ostate o)) (preflight_result_json (ostate o)).

(** The parsers of the JSON columns. *)
Class Pydantic := {
  parse_calendar : dict → Res BusinessCalendarConfig;
  parse_blackout : dict → Res BlackoutPolicy;
  parse_period : dict → Res AuditPeriodRule;
  parse_workflow : dict → Res WorkflowDefinition;
  parse_calendar_valid d c : parse_calendar d = Ok c → BusinessCalendarConfig_valid c = true;
  parse_blackout_valid d p : parse_blackout d = Ok p → BlackoutPolicy_valid p = true;
  parse_period_valid d r : parse_period d = Ok r → AuditPeriodRule_valid r = true;
  parse_workflow_valid d w : parse_workflow d = Ok w → WorkflowDefinition_valid w = true
}.

(** ** The database *)

Record SchedDB := mkSchedDB {
  orch : OrchDB;
  tenants : gmap string Tenant;
  plans : gmap string AuditPlan;
  templates : gmap string EngagementTemplate;
  schedules : gmap string AuditSchedule;
  cursors : gmap string ScheduleCursor;
  occurrences : gmap string ScheduleOccurrence
}.
Definition set_orch v db :=
  mkSchedDB v (tenants db) (plans db) (templates db) (schedules db) (cursors db) (occurrences db).
Definition set_schedules v db :=
  mkSchedDB (orch db) (tenants db) (plans db) (templates db) v (cursors db) (occurrences db).
Definition set_cursors v db :=
  mkSchedDB (orch db) (tenants db) (plans db) (templates db) (schedules db) v (occurrences db).
Definition set_occurrences v db :=
  mkSchedDB (orch db) (tenants db) (plans db) (templates db) (schedules db) (cursors db) v.

Abbreviation SchedTx := (Tx SchedDB).

Definition reading : SchedTx SchedDB := gets (λ db, db).
(** Assigning to the columns of an attached row. *)
Definition save_occurrence (id : string) (change : OccurrenceState → OccurrenceState) : SchedTx unit :=
  modify (λ db, set_occurrences
    (alter (λ o, mkScheduleOccurrence (ospec o) (change (ostate o))) id (occurrences db)) db).
Definition save_schedule (id : string) (change : AuditSchedule → AuditSchedule) : SchedTx unit :=
  modify (λ db, set_schedules (alter change id (schedules db)) db).
Definition save_cursor (id : string) (change : ScheduleCursor → ScheduleCursor) : SchedTx unit :=
  modify (λ db, set_cursors (alter change id (cursors db)) db).

(** ** SchedulingRepository *)

Definition get_plan (db : SchedDB) (tenant_id id : string) : option AuditPlan :=
  p ← plans db !! id; guard (plan_tenant_id p = tenant_id);; Some p.
Definition get_template (db : SchedDB) (tenant_id id : string) : option EngagementTemplate :=
  t ← templates db !! id; guard (tpl_tenant_id t = tenant_id);; Some t.
Definition get_schedule (db : SchedDB) (tenant_id id : string) : option AuditSchedule :=
  s ← schedules db !! id; guard (sch_tenant_id s = tenant_id);; Some s.
Definition get_occurrence (db : SchedDB) (tenant_id id : string) : option ScheduleOccurrence :=
  o ← occurrences db !! id; guard (occ_tenant_id (ospec o) = tenant_id);; Some o.

Definition all_occurrences (db : SchedDB) : list ScheduleOccurrence := map snd (map_to_list (occurrences db)).

Definition list_active_schedules (db : SchedDB) (tenant_id : string) (id : option string)
    : list AuditSchedule :=
  sort_by (cmp_on schedule_id String.compare)
    (filter (λ s, sch_tenant_id s = tenant_id ∧ sch_status s = "active" ∧
                  matches_opt id (Some (schedule_id s)))
       (map snd (map_to_list (schedules db)))).

Definition due_at (tenant_id schedule_id : string) (due : datetime) (o : ScheduleOccurrence) : Prop :=
  occ_tenant_id (ospec o) = tenant_id ∧ occ_schedule_id (ospec o) = schedule_id ∧
  nominal_due (ospec o) = due.
#[export] Instance due_at_dec t s d o : Decision (due_at t s d o).
Proof. unfold due_at. apply _. Defined.

Definition get_occurrence_by_due (db : SchedDB) (tenant_id schedule_id : string) (due : datetime)
    : option ScheduleOccurrence :=
  snd <$> list_find (due_at tenant_id schedule_id due) (all_occurrences db).

Definition repo_list_occurrences (db : SchedDB) (tenant_id id : string) : list ScheduleOccurrence :=
  sort_by (cmp_then (cmp_on (λ o, nominal_due (ospec o)) Z.compare) (cmp_on oid String.compare))
    (filter (λ o, occ_tenant_id (ospec o) = tenant_id ∧ occ_schedule_id (ospec o) = id)
       (all_occurrences db)).

Definition RETRYABLE_STATUSES : list OccurrenceStatus :=
  [OccurrenceStatus.DEFERRED; OccurrenceStatus.PREFLIGHT_BLOCKED; OccurrenceStatus.LAUNCH_FAILED;
   OccurrenceStatus.LAUNCHING].
Definition list_retryable_occurrences (db : SchedDB) (tenant_id : string) (now : datetime)
    (id : option string) : list ScheduleOccurrence :=
  sort_by (cmp_then (cmp_on (λ o, occ_eligible_at (ostate o)) Z.compare) (cmp_on oid String.compare))
    (filter (λ o, occ_tenant_id (ospec o) = tenant_id ∧ ostatus o ∈ RETRYABLE_STATUSES ∧
                  occ_eligible_at (ostate o) ≤ now ∧ matches_opt id (Some (occ_schedule_id (ospec o))))
       (all_occurrences db)).

(** *** Cursors *)

Definition get_or_create_cursor (s : AuditSchedule) : SchedTx unit :=
  db ← reading;
  match cursors db !! schedule_id s with
  | Some _ => mret tt
  | None =>
      modify (set_cursors (<[schedule_id s :=
        mkScheduleCursor (schedule_id s) (sch_tenant_id s) None None None None
          (wall_clock (ledger (orch db)))]> (cursors db)))
  end.

(** The condition of the guarded [UPDATE]. *)
Definition lease_free (owner : string) (now : datetime) (c : ScheduleCursor) : bool :=
  match cur_lease_expires_at c with Some e => e <=? now | None => true end ||
  bool_decide (cur_lease_owner c = Some owner).

(** What the session holds of a cursor.  [get_or_create_cursor] reads it, the [UPDATE]
    leaves the instance that was read alone ([synchronize_session=False]), and nothing expires
    or refreshes it: whether [session.get] finds that instance or reads the row again
    depends on whether the identity map, which refers to it weakly, still has it
    ([instance_kept], of the cursor at an instant).  [same_instant] is [==] of an instant
    as the session has it and an aware one, false where the driver gave the first back
    without its zone. *)
Class CursorSession := {
  instance_kept : string → datetime → bool;
  same_instant : datetime → datetime → bool;
  same_instant_eq a b : same_instant a b = true → a = b
}.

Section leases.
Context `{CursorSession}.

(** The row the [UPDATE] leaves, and what the session then has of it. *)
Definition lease_cursor (owner : string) (expires now : datetime) (c : ScheduleCursor) : ScheduleCursor :=
  mkScheduleCursor (cur_schedule_id c) (cur_tenant_id c) (last_evaluated_at c) (next_due_at c)
    (Some owner) (Some expires) now.
Definition acquire_cursor_lease (s : AuditSchedule) (owner : string) (now : datetime)
    (lease_seconds : Z) : SchedTx (option ScheduleCursor) :=
  get_or_create_cursor s ;;
  expires ← from_res (add_us now (seconds lease_seconds));
  db ← reading;
  match cursors db !! schedule_id s with
  | Some c =>
      if lease_free owner now c then
        save_cursor (schedule_id s) (lease_cursor owner expires now) ;;
        mret (Some (if instance_kept (schedule_id s) now then c else lease_cursor owner expires now c))
      else mret None
  | None => mret None
  end.

(** Assigning to an attribute of an instance: the column is written when the value is
    not the one the instance has. *)
Definition assigned {A} (same : A → A → bool) (instance new stored : A) : A :=
  if same instance new then stored else new.
Definition same_opt_instant (a b : option datetime) : bool :=
  match a, b with Some a, Some b => same_instant a b | None, None => true | _, _ => false end.
Definition same_text (a b : option string) : bool := bool_decide (a = b).
(** The row [release_cursor] leaves of [row], the session holding [c]; [wall] is what
    [onupdate] gives a column that is not written when another is. *)
Definition released (c : ScheduleCursor) (evaluated_at : datetime) (next_due : option datetime) (wall : datetime)
    (row : ScheduleCursor) : ScheduleCursor :=
  let rest_same := same_opt_instant (last_evaluated_at c) (Some evaluated_at) && same_opt_instant (next_due_at c) next_due &&
    same_text (cur_lease_owner c) None && same_opt_instant (cur_lease_expires_at c) None in
  mkScheduleCursor (cur_schedule_id row) (cur_tenant_id row)
    (assigned same_opt_instant (last_evaluated_at c) (Some evaluated_at) (last_evaluated_at row))
    (assigned same_opt_instant (next_due_at c) next_due (next_due_at row))
    (assigned same_text (cur_lease_owner c) None (cur_lease_owner row))
    (assigned same_opt_instant (cur_lease_expires_at c) None (cur_lease_expires_at row))
    (if same_instant (cur_updated_at c) evaluated_at then (if rest_same then cur_updated_at row else wall) else evaluated_at).
(** [id] is the key of [cursor]. *)
Definition release_cursor (id : string) (cursor : ScheduleCursor) (evaluated_at : datetime) (next_due : option datetime)
    : SchedTx unit :=
  db ← reading;
  save_cursor id (released cursor evaluated_at next_due (wall_clock (ledger (orch db)))).
End leases.

(** *** Occurrences *)

(** What the constraints of the table refuse: a repeated primary key, a second row of
    a schedule for the same instant, a period that ends before it starts, an unknown
    tenant or schedule. *)
Definition occurrence_refused (db : SchedDB) (o : ScheduleOccurrence) : bool :=
  bool_decide (is_Some (occurrences db !! oid o)) ||
  existsb (λ o', bool_decide (occ_schedule_id (ospec o') = occ_schedule_id (ospec o) ∧
                              nominal_due (ospec o') = nominal_due (ospec o))) (all_occurrences db) ||
  (occ_period_end (ospec o) <? occ_period_start (ospec o)) ||
  bool_decide (tenants db !! occ_tenant_id (ospec o) = None) ||
  bool_decide (schedules db !! occ_schedule_id (ospec o) = None).

(** [session.add] and [session.flush]. *)
Definition insert_occurrence (o : ScheduleOccurrence) : SchedTx unit :=
  db ← reading;
  require (negb (occurrence_refused db o)) (Py IntegrityError) ;;
  modify (set_occurrences (<[oid o := o]> (occurrences db))).

Definition add_occurrence (o : ScheduleOccurrence) : SchedTx (ScheduleOccurrence * bool) :=
  db ← reading;
  if occurrence_refused db o then
    existing ← some_or_raise (Py IntegrityError)
      (get_occurrence_by_due db (occ_tenant_id (ospec o)) (occ_schedule_id (ospec o)) (nominal_due (ospec o)));
    mret (existing, false)
  else insert_occurrence o ;; mret (o, true).

(** ** Engagements of a launch *)

(** [EngagementRepository.get] and [EngagementRepository.list_tasks]. *)
Definition find_engagement (db : SchedDB) (tenant_id id : string) : option Engagement :=
  get_engagement (orch db) tenant_id id.

(** The constraints on a new engagement: its primary key, the code unique in the
    tenant, the order of the period, its tenant and its template. *)
Definition engagement_refused (db : SchedDB) (e : Engagement) : bool :=
  bool_decide (is_Some (engagements (orch db) !! engagement_id e)) ||
  existsb (λ e', bool_decide (eng_tenant_id e' = eng_tenant_id e ∧ code e' = code e))
    (map snd (map_to_list (engagements (orch db)))) ||
  (period_end e <? period_start e) ||
  bool_decide (tenants db !! eng_tenant_id e = None) ||
  match template_id e with Some t => bool_decide (templates db !! t = None) | None => false end.

Definition add_engagement (e : Engagement) : SchedTx unit :=
  db ← reading;
  require (negb (engagement_refused db e)) (Py IntegrityError) ;;
  modify (set_orch (set_engagements (<[engagement_id e := e]> (engagements (orch db))) (orch db))).
