(* ===== verification/SchedPreflight.v ===== *)
(** * Scheduling: preflight

    scheduling/preflight.py: the checks an occurrence must pass before it may be
    launched, and what a passed report means. *)

From S2P Require Import Prelude PyFloat PyTime Ledger PyText Materiality Quality SchedDefs SchedCalendar.
From S2P Require Import OrchDefs OrchStore SchedStore.
Local Open Scope Z_scope.

Definition ACTIVE_ENGAGEMENT_STATUSES : list EngagementStatus :=
  [EngagementStatus.PLANNED; EngagementStatus.RUNNING; EngagementStatus.WAITING_APPROVAL;
   EngagementStatus.BLOCKED].

Definition check (code : string) (passed : bool) (message : string) (details : dict) : PreflightCheck :=
  mkPreflightCheck code passed message details.

Definition texts (l : list string) : json := JList (map JStr l).
(** [sorted] of a set of texts. *)
Definition sorted_set (s : gset string) : list string := sort_by String.compare (elements s).

Definition _connector_checks (policy : PreflightPolicy) (context : PreflightContext) : list PreflightCheck :=
  map (λ connector,
    let state := connector_health context !! connector in
    check ("connector:" +:+ connector) (bool_decide (state = Some "healthy"))
      ("Required connector " +:+ py_repr connector +:+ " must be healthy.")
      [("observed_state", opt_json state)])
    (default [] (required_connectors policy)).

Definition _competency_checks (policy : PreflightPolicy) (context : PreflightContext) : list PreflightCheck :=
  let required : gset string := list_to_set (default [] (required_competencies policy)) in
  let missing := sorted_set (required ∖ available_competencies context) in
  [check "competencies_available" (negb (nonempty missing))
     "Required reviewer and agent competencies must be available." [("missing", texts missing)]].

Definition _budget_check (policy : PreflightPolicy) (context : PreflightContext) : PreflightCheck :=
  let required := default None (estimated_cost_usd policy) in
  let passed :=
    match required with
    | None => true
    | Some cost =>
        match available_budget_usd context with
        | Some budget => fleb (number_float cost) budget
        | None => false
        end
    end in
  check "budget_available" passed "Configured execution budget must be available."
    [("required_usd", match required with Some n => number_json n | None => JNull end);
     ("available_usd", match available_budget_usd context with Some b => JFloat b | None => JNull end)].

Definition _independence_check (policy : PreflightPolicy) (context : PreflightContext) : PreflightCheck :=
  let protected_roles : gset string := list_to_set (default [] (independence_roles policy)) in
  let conflicts := sorted_set (protected_roles ∩ independence_conflicts context) in
  check "independence_clear" (negb (nonempty conflicts))
    "No configured independence conflict may be present." [("conflicts", texts conflicts)].

(** The filters shared by the two queries. *)
Definition competing (s : AuditSchedule) (o : ScheduleOccurrence) (e : Engagement) : Prop :=
  eng_tenant_id e = sch_tenant_id s ∧ template_id e = Some (sch_template_id s) ∧
  eng_status e ∈ ACTIVE_ENGAGEMENT_STATUSES ∧
  (occ_engagement_id (ostate o) ≠ None → occ_engagement_id (ostate o) ≠ Some (engagement_id e)).
#[export] Instance competing_dec s o e : Decision (competing s o e).
Proof. unfold competing. destruct (occ_engagement_id _); apply _. Defined.

Definition all_engagements (db : SchedDB) : list Engagement :=
  map snd (map_to_list (engagements (orch db))).

Definition _concurrency_check (db : SchedDB) (s : AuditSchedule) (o : ScheduleOccurrence) : PreflightCheck :=
  let active := zlen (filter (competing s o) (all_engagements db)) in
  check "concurrency_limit" (active <? max_concurrent_engagements s)
    "Concurrent engagement limit must not be exceeded."
    [("active", JInt active); ("limit", JInt (max_concurrent_engagements s))].

Definition overlaps (o : ScheduleOccurrence) (e : Engagement) : Prop :=
  period_start e ≤ occ_period_end (ospec o) ∧ occ_period_start (ospec o) ≤ period_end e.
#[export] Instance overlaps_dec o e : Decision (overlaps o e).
Proof. unfold overlaps. apply _. Defined.

(** One of the conflicting engagements, whichever the database returns first: the
    smallest identifier. *)
Definition _overlap_check (db : SchedDB) (s : AuditSchedule) (o : ScheduleOccurrence) : PreflightCheck :=
  if decide (overlap_policy s = "allow")
  then check "period_overlap" true "Period overlap is allowed by policy." []
  else
    let overlap := head (sort_by String.compare (map engagement_id
      (filter (λ e, competing s o e ∧ overlaps o e) (all_engagements db)))) in
    check "period_overlap" (bool_decide (overlap = None))
      "An equivalent active engagement must not overlap this audit period."
      [("conflicting_engagement_id", opt_json overlap)].

Definition evaluate (db : SchedDB) (s : AuditSchedule) (t : EngagementTemplate) (o : ScheduleOccurrence)
    (context : PreflightContext) (checked_at : datetime) : PreflightReport :=
  let plan := plans db !! sch_plan_id s in
  let tenant := tenants db !! sch_tenant_id s in
  let policy := merge_policy (tpl_preflight_policy t) (sch_preflight_policy s) in
  let checks :=
    [check "tenant_active" (bool_decide (ten_status <$> tenant = Some "active")) "Tenant must be active." [];
     check "plan_approved" (bool_decide (plan_status <$> plan = Some "approved"))
       "Audit plan must be approved." [];
     check "schedule_active" (bool_decide (sch_status s = "active")) "Schedule must be active." [];
     check "template_released" (bool_decide (tpl_status t ∈ ["released"; "approved"]))
       "Engagement template must be released." [];
     check "workflow_present" (nonempty (workflow_definition_json t))
       "Template must contain a workflow definition." []] ++
    _connector_checks policy context ++ _competency_checks policy context ++
    [_budget_check policy context; _independence_check policy context;
     _concurrency_check db s o; _overlap_check db s o] in
  mkPreflightReport (forallb check_passed checks) checked_at checks.

(** The codes of the failed checks, joined: what a blocked occurrence records. *)
Definition failed_codes (r : PreflightReport) : string :=
  join "; " (map check_code (filter (λ c, check_passed c = false) (report_checks r))).

(** ** What a report means *)

(** What the policy asks: a key of the schedule's own wins over the template's. *)
Definition asked {A} (f : PreflightPolicy → option A) (s : AuditSchedule) (t : EngagementTemplate) : option A :=
  match f (sch_preflight_policy s) with Some v => Some v | None => f (tpl_preflight_policy t) end.
Definition asked_names (f : PreflightPolicy → option (list string)) (s : AuditSchedule) (t : EngagementTemplate) (x : string) : Prop :=
  ∃ l, asked f s t = Some l ∧ x ∈ l.
(** An engagement of the tenant on the same template that has not come to its end, and
    is not the one of the occurrence itself. *)
Definition under_way (e : Engagement) : Prop :=
  eng_status e = EngagementStatus.PLANNED ∨ eng_status e = EngagementStatus.RUNNING ∨
  eng_status e = EngagementStatus.WAITING_APPROVAL ∨ eng_status e = EngagementStatus.BLOCKED.
Definition rival (s : AuditSchedule) (o : ScheduleOccurrence) (e : Engagement) : Prop :=
  eng_tenant_id e = sch_tenant_id s ∧ template_id e = Some (sch_template_id s) ∧ under_way e ∧
  occ_engagement_id (ostate o) ≠ Some (engagement_id e).
#[export] Instance rival_dec s o e : Decision (rival s o e).
Proof. unfold rival, under_way. apply _. Defined.

(** Everything a launch requires, declared. *)
Record launchable (db : SchedDB) (s : AuditSchedule) (t : EngagementTemplate) (o : ScheduleOccurrence)
    (context : PreflightContext) : Prop := {
  launchable_tenant : ten_status <$> tenants db !! sch_tenant_id s = Some "active";
  launchable_plan : plan_status <$> plans db !! sch_plan_id s = Some "approved";
  launchable_schedule : sch_status s = "active";
  launchable_template : tpl_status t = "released" ∨ tpl_status t = "approved";
  launchable_workflow : workflow_definition_json t ≠ [];
  launchable_connectors c : asked_names required_connectors s t c → connector_health context !! c = Some "healthy";
  launchable_competencies c : asked_names required_competencies s t c → c ∈ available_competencies context;
  launchable_budget cost : asked estimated_cost_usd s t = Some (Some cost) →
    ∃ budget, available_budget_usd context = Some budget ∧ fleb (number_float cost) budget = true;
  launchable_independence r : asked_names independence_roles s t r → r ∉ independence_conflicts context;
  launchable_concurrency : zlen (filter (rival s o) (all_engagements db)) < max_concurrent_engagements s;
  launchable_overlap e : overlap_policy s ≠ "allow" → e ∈ all_engagements db → rival s o e →
    period_end e < occ_period_start (ospec o) ∨ occ_period_end (ospec o) < period_start e
}.

Lemma competing_rival s o e : competing s o e ↔ rival s o e.
Proof.
  unfold competing, rival, under_way, ACTIVE_ENGAGEMENT_STATUSES. rewrite !elem_of_cons, elem_of_nil.
  destruct (occ_engagement_id (ostate o)); naive_solver.
Qed.
Lemma apart_overlaps o e : ¬ overlaps o e ↔ period_end e < occ_period_start (ospec o) ∨ occ_period_end (ospec o) < period_start e.
Proof. unfold overlaps. lia. Qed.
Lemma merged_names (f : PreflightPolicy → option (list string)) s t x :
  f (merge_policy (tpl_preflight_policy t) (sch_preflight_policy s)) = asked f s t →
  x ∈ default [] (f (merge_policy (tpl_preflight_policy t) (sch_preflight_policy s))) ↔ asked_names f s t x.
Proof.
  intros ->. unfold asked_names. destruct (asked f s t) as [l|]; cbn; [naive_solver|]. rewrite elem_of_nil. naive_solver.
Qed.
Lemma merged_asked s t : let m := merge_policy (tpl_preflight_policy t) (sch_preflight_policy s) in
  required_connectors m = asked required_connectors s t ∧ required_competencies m = asked required_competencies s t ∧
  estimated_cost_usd m = asked estimated_cost_usd s t ∧ independence_roles m = asked independence_roles s t.
Proof. unfold asked. destruct (tpl_preflight_policy t), (sch_preflight_policy s) as [[] [] [] []]; done. Qed.

Lemma sorted_set_empty (s : gset string) : nonempty (sorted_set s) = false ↔ s = ∅.
Proof.
  unfold sorted_set. rewrite sort_by_Permutation. split; [|by intros ->].
  intros E. apply leibniz_equiv, elements_empty_iff. by destruct (elements s).
Qed.

Lemma sorted_head_none (l : list string) : head (sort_by String.compare l) = None ↔ l = [].
Proof.
  split; [|by intros ->]. destruct (sort_by String.compare l) as [|x r] eqn:E; [intros _|done].
  apply Permutation_nil_r. by rewrite <- E, sort_by_Permutation.
Qed.

Section checks.
Context (policy : PreflightPolicy) (context : PreflightContext).

Lemma connectors_pass :
  forallb check_passed (_connector_checks policy context) = true ↔
  ∀ c, c ∈ default [] (required_connectors policy) → connector_health context !! c = Some "healthy".
Proof.
  unfold _connector_checks. rewrite forallb_elem. split.
  - intros H c Hc. specialize (H _ (list_elem_of_fmap_2 _ _ _ Hc)). by apply bool_decide_eq_true in H.
  - intros H x (c & -> & Hc)%list_elem_of_fmap. by apply bool_decide_eq_true, H.
Qed.

Lemma competencies_pass :
  forallb check_passed (_competency_checks policy context) = true ↔
  ∀ c, c ∈ default [] (required_competencies policy) → c ∈ available_competencies context.
Proof.
  unfold _competency_checks. cbn [forallb check check_passed].
  rewrite andb_true_r, negb_true_iff, sorted_set_empty. generalize (default [] (required_competencies policy)).
  intros l. split.
  - intros E c Hc. destruct (decide (c ∈ available_competencies context)); [done|].
    assert (c ∈ (list_to_set l : gset string) ∖ available_competencies context)
      by (by apply elem_of_difference; split; [apply elem_of_list_to_set|]).
    rewrite E in *. by apply not_elem_of_empty in H.
  - intros H. apply subseteq_empty_difference_L. intros c Hc%elem_of_list_to_set. by apply H.
Qed.

Lemma budget_pass :
  check_passed (_budget_check policy context) = true ↔
  ∀ cost, estimated_cost_usd policy = Some (Some cost) →
    ∃ budget, available_budget_usd context = Some budget ∧ fleb (number_float cost) budget = true.
Proof.
  unfold _budget_check. cbn [check check_passed].
  destruct (estimated_cost_usd policy) as [[cost|]|]; cbn [default]; [|naive_solver..].
  destruct (available_budget_usd context); naive_solver.
Qed.

Lemma independence_pass :
  check_passed (_independence_check policy context) = true ↔
  ∀ r, r ∈ default [] (independence_roles policy) → r ∉ independence_conflicts context.
Proof.
  unfold _independence_check. cbn [check check_passed]. rewrite negb_true_iff, sorted_set_empty.
  generalize (default [] (independence_roles policy)). intros l. split.
  - intros E r Hr Hc. assert (r ∈ (list_to_set l : gset string) ∩ independence_conflicts context)
      by (by apply elem_of_intersection; split; [apply elem_of_list_to_set|]).
    rewrite E in *. by apply not_elem_of_empty in H.
  - intros H. apply elem_of_equiv_empty_L. intros c [Hc%elem_of_list_to_set Hi]%elem_of_intersection.
    by apply (H c).
Qed.
End checks.

Lemma overlap_pass db s o :
  check_passed (_overlap_check db s o) = true ↔
  ∀ e, overlap_policy s ≠ "allow" → e ∈ all_engagements db → competing s o e → ¬ overlaps o e.
Proof.
  unfold _overlap_check. destruct (decide (overlap_policy s = "allow")); [naive_solver|].
  cbn [check check_passed]. rewrite bool_decide_eq_true, sorted_head_none. split.
  - intros E e _ He Hc Ho. assert (Hin : e ∈ filter (λ e, competing s o e ∧ overlaps o e) (all_engagements db))
      by (by apply list_elem_of_filter).
    apply (list_elem_of_fmap_2 engagement_id) in Hin. change (fmap engagement_id) with (map engagement_id) in Hin.
    rewrite E in Hin. by apply elem_of_nil in Hin.
  - intros H. rewrite filter_none; [done|]. intros e He [Hc Ho]. by apply (H e).
Qed.

(** A report passes exactly when everything a launch requires holds. *)
Lemma passed_launchable db s t o context at_ :
  report_passed (evaluate db s t o context at_) = true ↔ launchable db s t o context.
Proof.
  unfold evaluate. cbn [report_passed]. rewrite !forallb_app, !andb_true_iff.
  rewrite connectors_pass, competencies_pass. cbn [forallb].
  rewrite !andb_true_iff, budget_pass, independence_pass, overlap_pass.
  unfold _concurrency_check. cbn [check check_passed]. rewrite !bool_decide_eq_true, Z.ltb_lt.
  assert (Hw : nonempty (workflow_definition_json t) = true ↔ workflow_definition_json t ≠ [])
    by (by destruct (workflow_definition_json t)).
  destruct (merged_asked s t) as (M1 & M2 & M3 & M4). setoid_rewrite (merged_names _ s t _ M1). setoid_rewrite (merged_names _ s t _ M2).
  setoid_rewrite (merged_names _ s t _ M4). rewrite M3, Hw. setoid_rewrite apart_overlaps. setoid_rewrite competing_rival.
  rewrite (list_filter_iff _ (rival s o) _ (competing_rival s o)). split.
  - intros ((H1 & H2 & H3 & H4 & H5 & _) & H6 & H7 & H8 & H9 & H10 & H11 & _). split; try done. set_solver.
  - intros []. split_and!; try done. set_solver.
Qed.
