(* ===== verification/Scheduler.v ===== *)
(** * Scheduling: the scheduler

    [AuditScheduler] of scheduling/service.py.  The body of each transaction is a
    [SchedTx]; a public operation is a [Prog] that opens sessions one after the
    other, reads the clock and calls the orchestrator between them.  Its environment
    [P] answers the clock and gives the text of an exception; before every session
    other clients of the database may commit ([env_between]).  What the clock reads
    is constant in a transaction.  The summary the source mutates is passed along. *)

From Stdlib Require Import Ascii.
From S2P Require Import Prelude PyFloat PyTime Ledger PyText Materiality Quality SchedDefs SchedCalendar.
From S2P Require Import OrchDefs OrchStore OrchCompiler Orchestrator SchedStore SchedPreflight.
Local Open Scope Z_scope.

(** ** The summary of an evaluation *)

Inductive counter := Evaluated | Created | Launched | WaitingApproval | Blocked | Skipped | Deferred | Failures.

Definition count (c : counter) (n : Z) (s : ScheduleEvaluationSummary) : ScheduleEvaluationSummary :=
  let at_ (c' : counter) (v : Z) := match c, c' with
    | Evaluated, Evaluated | Created, Created | Launched, Launched
    | WaitingApproval, WaitingApproval | Blocked, Blocked | Skipped, Skipped
    | Deferred, Deferred | Failures, Failures => v + n
    | _, _ => v end in
  mkScheduleEvaluationSummary (sum_tenant_id s) (sum_evaluated_at s)
    (at_ Evaluated (schedules_evaluated s)) (at_ Created (occurrences_created s))
    (at_ Launched (launched s)) (at_ WaitingApproval (waiting_approval s)) (at_ Blocked (blocked s))
    (at_ Skipped (skipped s)) (at_ Deferred (deferred s)) (at_ Failures (failures s))
    (occurrence_ids s).
Definition note_id (id : string) (s : ScheduleEvaluationSummary) : ScheduleEvaluationSummary :=
  if decide (id ∈ occurrence_ids s) then s
  else mkScheduleEvaluationSummary (sum_tenant_id s) (sum_evaluated_at s) (schedules_evaluated s)
         (occurrences_created s) (launched s) (waiting_approval s) (blocked s) (skipped s) (deferred s)
         (failures s) (occurrence_ids s ++ [id]).
(** [extend] with the identifiers not in the list when the generator is run: it is
    consumed while the list grows. *)
Definition note_ids (ids : list string) (s : ScheduleEvaluationSummary) : ScheduleEvaluationSummary :=
  fold_left (λ s id, note_id id s) ids s.
Definition empty_summary (tenant_id : string) (now : datetime) : ScheduleEvaluationSummary :=
  mkScheduleEvaluationSummary tenant_id now 0 0 0 0 0 0 0 0 [].

Record _MaterializationResult := mkMaterializationResult {
  created : Z;
  candidate_ids : list string;
  res_occurrence_ids : list string;
  res_skipped : Z;
  res_deferred : Z
}.
Definition nothing_materialized : _MaterializationResult := mkMaterializationResult 0 [] [] 0 0.

(** ** Identifiers and snapshots *)

Definition _schedule_snapshot (s : AuditSchedule) : dict :=
  [("schedule_id", JStr (schedule_id s)); ("version", JInt (sch_version s));
   ("plan_id", JStr (sch_plan_id s)); ("template_id", JStr (sch_template_id s));
   ("recurrence_rule", JStr (recurrence_rule s)); ("timezone", JStr (sch_timezone s));
   ("audit_period_rule", JObj (audit_period_rule_json s)); ("launch_mode", JStr (launch_mode s));
   ("overlap_policy", JStr (overlap_policy s))].
Definition _template_snapshot (t : EngagementTemplate) : dict :=
  [("template_id", JStr (tpl_id t)); ("version", JInt (tpl_version t));
   ("audit_pack_ref", JStr (tpl_audit_pack_ref t));
   ("objectives", JList (map JStr (objectives_json t))); ("scope", JObj (tpl_scope_json t));
   ("workflow_version", get "workflow_version" (workflow_definition_json t))].

Section ids.
Context `{Sha256}.
Definition _occurrence_id (schedule_id : string) (nominal_due : datetime) : string :=
  "occ_" +:+ slice 20 (sha256_hex (schedule_id +:+ "|" +:+ isoformat nominal_due)).
Definition _engagement_id (occurrence_id : string) : string :=
  "eng_" +:+ slice 20 (sha256_hex occurrence_id).
End ids.

Definition alnum (c : ascii) : bool :=
  ((48 <=? ord c) && (ord c <=? 57)) || ((65 <=? ord c) && (ord c <=? 90)) ||
  ((97 <=? ord c) && (ord c <=? 122)).
(** [re.sub("[^A-Za-z0-9]+", "-", s)]; [gap] tells that the last character was replaced. *)
Fixpoint dashed (gap : bool) (l : list ascii) : list ascii :=
  match l with
  | [] => []
  | c :: l => if alnum c then c :: dashed false l
              else if gap then dashed true l else "-"%char :: dashed true l
  end.
Fixpoint drop_dashes (l : list ascii) : list ascii :=
  match l with
  | c :: l' => if decide (c = "-"%char) then drop_dashes l' else l
  | [] => []
  end.
Definition strip_dashes (l : list ascii) : list ascii := rev (drop_dashes (rev (drop_dashes l))).
Definition code_name (name : string) : string :=
  str_or (Some (slice 40 (upper (String.string_of_list_ascii
    (strip_dashes (dashed false (String.list_ascii_of_string name))))))) "AUDIT".
(** [strftime("%Y%m%dT%H%M")], for years of four digits. *)
Definition compact_time (t : datetime) : string :=
  let '(y, m, d) := ord2ymd (date_of t) in
  let s := t mod us_per_day / us_per_second in
  padded 4 y +:+ padded 2 m +:+ padded 2 d +:+ "T" +:+ padded 2 (s / 3600) +:+ padded 2 (s / 60 mod 60).
(** [s[-n:]]. *)
Definition slice_end (n : nat) (s : string) : string := String.substring (String.length s - n) n s.
Definition _engagement_code (s : AuditSchedule) (o : ScheduleOccurrence) : string :=
  code_name (sch_name s) +:+ "-" +:+ compact_time (nominal_due (ospec o)) +:+ "-" +:+
  upper (slice_end 6 (oid o)).

Example code_name_examples :
  map code_name ["Quarterly access review (SOX)"; "--- "; "a__b"] =
  ["QUARTERLY-ACCESS-REVIEW-SOX"; "AUDIT"; "A-B"].
Proof. vm_compute. reflexivity. Qed.

(** ** Missed occurrences *)

(** [l[-n:]] and [l[:-n]]. *)
Definition last_items {A} (n : Z) (l : list A) : list A :=
  if 0 <? n then drop (length l - Z.to_nat n) l else drop (Z.to_nat (- n)) l.
Definition but_last_items {A} (n : Z) (l : list A) : list A :=
  if 0 <? n then take (length l - Z.to_nat n) l else take (Z.to_nat (- n)) l.

Definition _select_missed_occurrences (s : AuditSchedule) (due_values : list datetime)
    : Res (list datetime * list datetime) :=
  match due_values with
  | [] => Ok ([], [])
  | _ =>
      match of_value (missed_occurrence_policy s) with
      | None => Err (Py ValueError)
      | Some MissedOccurrencePolicy.SKIP => Ok ([], due_values)
      | Some MissedOccurrencePolicy.LAUNCH_LATEST =>
          Ok (last_items 1 due_values, but_last_items 1 due_values)
      | Some MissedOccurrencePolicy.LAUNCH_ALL =>
          Ok (last_items (catch_up_limit s) due_values,
              if catch_up_limit s <? zlen due_values then but_last_items (catch_up_limit s) due_values
              else [])
      end
  end.

(** ** Transactions *)

Section transactions.
Context `{UuidSource} `{Sha256} `{TimeZones} `{Dateutil} `{Pydantic} `{CursorSession}.

Definition get_ledger (db : SchedDB) : Ledger := ledger (orch db).
Definition put_ledger (l : Ledger) (db : SchedDB) : SchedDB := set_orch (set_ledger l (orch db)) db.

(** [_record], on the row as it stands. *)
Definition record_occurrence (id event_type : string) (payload : dict) (now : datetime) : SchedTx unit :=
  db ← reading;
  o ← some_or_raise (Py KeyError) (occurrences db !! id);
  event_id ← zoom get_ledger put_ledger new_event_id;
  let payload := dict_update [("occurrence_id", JStr (oid o)); ("schedule_id", JStr (occ_schedule_id (ospec o)))]
                   payload in
  zoom get_ledger put_ledger
    (append (mkAuditEvent event_id event_type (occ_tenant_id (ospec o)) (occ_engagement_id (ostate o))
       None now payload)) ;;
  zoom get_ledger put_ledger
    (outbox_add (occ_tenant_id (ospec o)) "schedule_occurrence" (oid o) event_type payload event_id).

(** What a schedule makes of a due instant: the instant it is eligible at, its
    period, and the blackout. *)
Definition resolve_due (s : AuditSchedule) (nominal_due : datetime)
    : Res (datetime * date * date * BlackoutResolution) :=
  let? tz := timezone (sch_timezone s) in
  let? due_local := to_zone tz nominal_due in
  let? calendar := parse_calendar (business_calendar_json s) in
  let? policy := parse_blackout (blackout_policy_json s) in
  let? blackout := resolve_blackout calendar due_local policy tz in
  let? rule := parse_period (audit_period_rule_json s) in
  let? period := calculate due_local rule in
  let? eligible := to_utc (eligible_at blackout) in
  Ok (eligible, fst period, snd period, blackout).

Definition initial_status (forced_skip : bool) (blackout : BlackoutResolution)
    : OccurrenceStatus * option string :=
  if forced_skip then (OccurrenceStatus.SKIPPED, Some "missed occurrence skipped by catch-up policy")
  else match action blackout with
       | action_skip => (OccurrenceStatus.SKIPPED, reason blackout)
       | action_delay => (OccurrenceStatus.DEFERRED, reason blackout)
       | action_none => (OccurrenceStatus.DUE, None)
       end.

Definition _create_occurrence (s : AuditSchedule) (due : datetime) (forced_skip : bool) (now : datetime)
    : SchedTx (ScheduleOccurrence * bool) :=
  db ← reading;
  match get_occurrence_by_due db (sch_tenant_id s) (schedule_id s) due with
  | Some existing => mret (existing, false)
  | None =>
      t ← some_or_raise (Sch ScheduleConfigurationError)
            (get_template db (sch_tenant_id s) (sch_template_id s));
      resolved ← from_res (resolve_due s due);
      let '(eligible, first, last, blackout) := resolved in
      let '(status, why) := initial_status forced_skip blackout in
      let o := mkScheduleOccurrence
        (mkOccurrenceSpec (_occurrence_id (schedule_id s) due) (sch_tenant_id s) (schedule_id s) due
           first last (sch_version s) (tpl_version t) (_schedule_snapshot s) (_template_snapshot t))
        (mkOccurrenceState None eligible status why None [] None None 0 None) in
      insert_occurrence o ;;
      record_occurrence (oid o) "scheduler.occurrence.created" [("status", JStr (value status))] now ;;
      mret (o, true)
  end.

(** One turn of the loop over the due values. *)
Definition materialize_one (s : AuditSchedule) (forced : list datetime) (at_ : datetime)
    (r : _MaterializationResult) (due : datetime) : SchedTx _MaterializationResult :=
  x ← _create_occurrence s due (bool_decide (due ∈ forced)) at_;
  let '(o, was_created) := (x : ScheduleOccurrence * bool) in
  let n := if was_created then 1 else 0 in
  let '(candidates, sk, df) :=
    match ostatus o with
    | OccurrenceStatus.SKIPPED => (candidate_ids r, res_skipped r + n, res_deferred r)
    | OccurrenceStatus.DEFERRED => (candidate_ids r, res_skipped r, res_deferred r + n)
    | _ => (candidate_ids r ++ [oid o], res_skipped r, res_deferred r)
    end in
  mret (mkMaterializationResult (created r + n) candidates (res_occurrence_ids r ++ [oid o]) sk df).

Fixpoint materialize_all (s : AuditSchedule) (forced : list datetime) (at_ : datetime)
    (r : _MaterializationResult) (dues : list datetime) : SchedTx _MaterializationResult :=
  match dues with
  | [] => mret r
  | due :: dues => r ← materialize_one s forced at_ r due; materialize_all s forced at_ r dues
  end.

(** Where the next window starts and ends. *)
Definition window_of (s : AuditSchedule) (c : ScheduleCursor) (now : datetime) : Res (datetime * datetime) :=
  let? start := match last_evaluated_at c with
                | Some t => Ok t
                | None => add_us (effective_from s) (-1)
                end in
  Ok (start, match effective_until s with Some u => Z.min now u | None => now end).

Definition _materialize_due_occurrences (tenant_id id : string) (now : datetime) (worker_id : string)
    (lease_seconds : Z) (at_ : datetime) : SchedTx _MaterializationResult :=
  db ← reading;
  s ← some_or_raise (Sch ScheduleNotFoundError) (get_schedule db tenant_id id);
  cursor ← acquire_cursor_lease s worker_id now lease_seconds;
  match cursor with
  | None => mret nothing_materialized
  | Some c =>
      window ← from_res (window_of s c now);
      let '(start, stop) := window in
      let next := next_after (recurrence_rule s) (sch_timezone s) (effective_from s) stop in
      if stop <=? start then
        next_due ← from_res next;
        release_cursor (schedule_id s) c now next_due ;;
        mret nothing_materialized
      else
        dues ← from_res (occurrences_between (recurrence_rule s) (sch_timezone s) (effective_from s)
                 start stop 1000);
        choice ← from_res (_select_missed_occurrences s dues);
        let '(selected, forced) := choice in
        r ← materialize_all s forced at_ nothing_materialized (forced ++ selected);
        next_due ← from_res next;
        release_cursor (schedule_id s) c now next_due ;;
        mret r
  end.

(** The transaction of [_run_preflight_and_launch]: a counter when it ends there. *)
Definition preflight_tx (tenant_id id : string) (context : PreflightContext) (approval_granted : bool)
    (now at_ : datetime) : SchedTx (option counter) :=
  db ← reading;
  o ← some_or_raise (Sch OccurrenceNotFoundError) (get_occurrence db tenant_id id);
  let s := get_schedule db tenant_id (occ_schedule_id (ospec o)) in
  match s, s ≫= λ s, get_template db tenant_id (sch_template_id s) with
  | Some s, Some t =>
      let report := evaluate db s t o context now in
      save_occurrence id (set_preflight_result_json (dump_report report)) ;;
      save_occurrence id (set_occ_evaluated_at (Some now)) ;;
      if negb (report_passed report) then
        save_occurrence id (set_occ_status OccurrenceStatus.PREFLIGHT_BLOCKED) ;;
        save_occurrence id (set_decision_reason (Some (failed_codes report))) ;;
        record_occurrence id "scheduler.preflight.blocked" (dump_report report) at_ ;;
        mret (Some Blocked)
      else
        record_occurrence id "scheduler.preflight.passed" (dump_report report) at_ ;;
        if bool_decide (launch_mode s = value LaunchMode.PREFLIGHT_THEN_APPROVAL) && negb approval_granted then
          save_occurrence id (set_occ_status OccurrenceStatus.WAITING_APPROVAL) ;;
          save_occurrence id (set_decision_reason (Some "preflight passed; start approval required")) ;;
          mret (Some WaitingApproval)
        else mret None
  | _, _ =>
      save_occurrence id (set_occ_status OccurrenceStatus.PREFLIGHT_BLOCKED) ;;
      save_occurrence id (set_decision_reason (Some "schedule or template is unavailable")) ;;
      record_occurrence id "scheduler.preflight.blocked"
        [("reason", JStr "schedule or template is unavailable")] at_ ;;
      mret (Some Blocked)
  end.

Definition mark_waiting_tx (tenant_id id : string) (now : datetime) : SchedTx bool :=
  db ← reading;
  match get_occurrence db tenant_id id with
  | None => mret false
  | Some o =>
      if decide (ostatus o = OccurrenceStatus.WAITING_APPROVAL) then mret false
      else
        save_occurrence id (set_occ_status OccurrenceStatus.WAITING_APPROVAL) ;;
        save_occurrence id (set_decision_reason (Some "start approval required before preflight")) ;;
        record_occurrence id "scheduler.occurrence.waiting_approval" [] now ;;
        mret true
  end.

Definition retry_interval (p : PreflightPolicy) : Z := seconds (Z.max (default 300 (launch_retry_seconds p)) 1).

Definition new_engagement (t : EngagementTemplate) (s : AuditSchedule) (o : ScheduleOccurrence)
    (id : string) (created : datetime) : Engagement :=
  mkEngagement id (occ_tenant_id (ospec o)) (Some (tpl_id t)) (_engagement_code s o)
    (tpl_name t +:+ " — " +:+ date_isoformat (occ_period_start (ospec o)) +:+ " to " +:+
     date_isoformat (occ_period_end (ospec o)))
    EngagementStatus.PLANNED (tpl_audit_pack_ref t) (occ_period_start (ospec o)) (occ_period_end (ospec o))
    1 (dict_set "schedule_occurrence_id" (JStr (oid o)) (tpl_scope_json t)) None None created.

(** The unique key on the engagement of an occurrence. *)
Definition engagement_taken (db : SchedDB) (id engagement : string) : bool :=
  existsb (λ o, bool_decide (oid o ≠ id ∧ occ_engagement_id (ostate o) = Some engagement))
    (all_occurrences db).

(** The first transaction of [_launch]: nothing when the occurrence is launched
    already, else the engagement to start and its workflow. *)
Definition launch_started_tx (tenant_id id : string) (now at_ : datetime)
    : SchedTx (option (string * WorkflowDefinition)) :=
  db ← reading;
  o ← some_or_raise (Sch OccurrenceNotFoundError) (get_occurrence db tenant_id id);
  if decide (ostatus o = OccurrenceStatus.LAUNCHED) then mret None
  else
    require (negb (bool_decide (ostatus o ∈ [OccurrenceStatus.CANCELLED; OccurrenceStatus.SKIPPED])))
      (Sch OccurrenceStateError) ;;
    let schedule := get_schedule db tenant_id (occ_schedule_id (ospec o)) in
    s ← some_or_raise (Sch ScheduleConfigurationError) schedule;
    t ← some_or_raise (Sch ScheduleConfigurationError) (get_template db tenant_id (sch_template_id s));
    w ← from_res (parse_workflow (workflow_definition_json t));
    let engagement := str_or (occ_engagement_id (ostate o)) (_engagement_id id) in
    (match find_engagement db tenant_id engagement with
     | Some _ => mret tt
     | None => add_engagement (new_engagement t s o engagement (wall_clock (get_ledger db)))
     end) ;;
    require (negb (engagement_taken db id engagement)) (Py IntegrityError) ;;
    save_occurrence id (set_occ_engagement_id (Some engagement)) ;;
    save_occurrence id (set_occ_status OccurrenceStatus.LAUNCHING) ;;
    save_occurrence id (λ st, set_launch_attempts (launch_attempts st + 1) st) ;;
    save_occurrence id (set_occ_last_error None) ;;
    eligible ← from_res (add_us now (retry_interval (sch_preflight_policy s)));
    save_occurrence id (set_occ_eligible_at eligible) ;;
    record_occurrence id "scheduler.launch.started"
      [("engagement_id", JStr engagement);
       ("launch_attempt", JInt (launch_attempts (ostate o) + 1));
       ("recovery_eligible_at", JStr (isoformat eligible))] at_ ;;
    mret (Some (engagement, w)).

(** The last transaction of [_launch]. *)
Definition launch_completed_tx (tenant_id id engagement : string) (now at_ : datetime) : SchedTx unit :=
  db ← reading;
  o ← some_or_raise (Sch OccurrenceNotFoundError) (get_occurrence db tenant_id id);
  if decide (ostatus o = OccurrenceStatus.LAUNCHED) then mret tt
  else
    save_occurrence id (set_occ_status OccurrenceStatus.LAUNCHED) ;;
    save_occurrence id (set_launched_at (Some now)) ;;
    save_occurrence id (set_occ_eligible_at now) ;;
    save_occurrence id (set_decision_reason None) ;;
    save_occurrence id (set_occ_last_error None) ;;
    record_occurrence id "scheduler.launch.completed" [("engagement_id", JStr engagement)] at_.

(** The transaction of the exception handler of [_attempt_launch]. *)
Definition launch_failed_tx (tenant_id id error : string) (now at_ : datetime) : SchedTx unit :=
  db ← reading;
  match get_occurrence db tenant_id id with
  | None => mret tt
  | Some o =>
      let policy := match get_schedule db tenant_id (occ_schedule_id (ospec o)) with
                    | Some s => sch_preflight_policy s
                    | None => empty_policy
                    end in
      save_occurrence id (set_occ_status OccurrenceStatus.LAUNCH_FAILED) ;;
      save_occurrence id (set_occ_last_error (Some error)) ;;
      save_occurrence id (set_decision_reason (Some error)) ;;
      eligible ← from_res (add_us now (retry_interval policy));
      save_occurrence id (set_occ_eligible_at eligible) ;;
      record_occurrence id "scheduler.launch.failed"
        [("error", JStr error); ("retry_at", JStr (isoformat eligible));
         ("launch_attempts", JInt (launch_attempts (ostate o)))] at_
  end.

(** The transaction of [approve_occurrence]: the snapshot of one launched already. *)
Definition approve_tx (tenant_id id : string) (d : OccurrenceDecision) (now : datetime)
    : SchedTx (option OccurrenceSnapshot) :=
  db ← reading;
  o ← some_or_raise (Sch OccurrenceNotFoundError) (get_occurrence db tenant_id id);
  if decide (ostatus o = OccurrenceStatus.LAUNCHED) then mret (Some (model_snapshot o))
  else
    require (negb (bool_decide (ostatus o ∈ [OccurrenceStatus.CANCELLED; OccurrenceStatus.SKIPPED])))
      (Sch OccurrenceStateError) ;;
    require (bool_decide (ostatus o = OccurrenceStatus.WAITING_APPROVAL)) (Sch OccurrenceStateError) ;;
    save_occurrence id (set_decision_by (Some (decider_id d))) ;;
    save_occurrence id (set_decision_reason (Some (decision_text d))) ;;
    record_occurrence id "scheduler.occurrence.approved" [("actor_id", JStr (decider_id d))] now ;;
    mret None.

Definition cancel_tx (tenant_id id : string) (d : OccurrenceDecision) (now : datetime)
    : SchedTx OccurrenceSnapshot :=
  db ← reading;
  o ← some_or_raise (Sch OccurrenceNotFoundError) (get_occurrence db tenant_id id);
  require (negb (bool_decide (ostatus o ∈ [OccurrenceStatus.LAUNCHED; OccurrenceStatus.CANCELLED;
                                           OccurrenceStatus.SKIPPED]))) (Sch OccurrenceStateError) ;;
  save_occurrence id (set_occ_status OccurrenceStatus.CANCELLED) ;;
  save_occurrence id (set_decision_by (Some (decider_id d))) ;;
  save_occurrence id (set_decision_reason (Some (decision_text d))) ;;
  record_occurrence id "scheduler.occurrence.cancelled" [("actor_id", JStr (decider_id d))] now ;;
  db ← reading;
  o ← some_or_raise (Py KeyError) (occurrences db !! id);
  mret (model_snapshot o).

(** ** Reads *)

Definition get_occurrence_snapshot (tenant_id id : string) : SchedTx OccurrenceSnapshot :=
  db ← reading;
  o ← some_or_raise (Sch OccurrenceNotFoundError) (get_occurrence db tenant_id id);
  mret (model_snapshot o).

Definition list_occurrences (tenant_id id : string) : SchedTx (list OccurrenceSnapshot) :=
  db ← reading;
  _ ← some_or_raise (Sch ScheduleNotFoundError) (get_schedule db tenant_id id);
  mret (map model_snapshot (repo_list_occurrences db tenant_id id)).

Definition simulate_one (s : AuditSchedule) (tz : tzinfo) (calendar : BusinessCalendarConfig)
    (policy : BlackoutPolicy) (rule : AuditPeriodRule) (due : datetime) : Res ScheduleSimulationItem :=
  let? due_local := to_zone tz due in
  let? blackout := resolve_blackout calendar due_local policy tz in
  let? period := calculate due_local rule in
  let? eligible := to_utc (eligible_at blackout) in
  Ok (mkScheduleSimulationItem due eligible (fst period) (snd period) (action blackout) (reason blackout)).

Definition _simulate_schedule (s : AuditSchedule) (window_start window_end : datetime) (limit : Z)
    : Res (list ScheduleSimulationItem) :=
  if window_end <? window_start then Err (Py ValueError)
  else
    let effective_end := match effective_until s with Some u => Z.min window_end u | None => window_end end in
    if effective_end <? effective_from s then Ok []
    else
      let? start := add_us window_start (-1) in
      let? dues := occurrences_between (recurrence_rule s) (sch_timezone s) (effective_from s)
                     start effective_end limit in
      let? tz := timezone (sch_timezone s) in
      let? calendar := parse_calendar (business_calendar_json s) in
      let? policy := parse_blackout (blackout_policy_json s) in
      let? rule := parse_period (audit_period_rule_json s) in
      map_res (simulate_one s tz calendar policy rule) dues.

Definition simulate (tenant_id id : string) (window_start window_end : datetime) (limit : Z)
    : SchedTx (list ScheduleSimulationItem) :=
  db ← reading;
  s ← some_or_raise (Sch ScheduleNotFoundError) (get_schedule db tenant_id id);
  from_res (_simulate_schedule s window_start window_end limit).
End transactions.

(** ** Programs *)

Record SchedSite (P : Type) := mkSchedSite { site_db : SchedDB; site_env : P }.
Arguments mkSchedSite {P}.
Arguments site_db {P}.
Arguments site_env {P}.

(** The clock, the text of an exception, and what other clients of the database
    commit before a session is opened. *)
Record Environment (P : Type) := mkEnvironment {
  env_clock : P → datetime * P;
  env_text : exn → P → string;
  env_between : SchedDB → P → SchedDB * P
}.
Arguments mkEnvironment {P}.
Arguments env_clock {P}.
Arguments env_text {P}.
Arguments env_between {P}.

Section programs.
Context `{UuidSource} `{Sha256} `{TimeZones} `{Dateutil} `{Pydantic} `{CursorSession} {P : Type} (env : Environment P).

Abbreviation Sched := (Prog (SchedSite P)).

Definition set_site_db (db : SchedDB) (w : SchedSite P) : SchedSite P := mkSchedSite db (site_env w).
Definition set_site_orch (o : OrchDB) (w : SchedSite P) : SchedSite P :=
  mkSchedSite (set_orch o (site_db w)) (site_env w).

(** [self.clock()]. *)
Definition clock : Sched datetime :=
  external (λ w, let '(t, p) := env_clock env (site_env w) in (t, mkSchedSite (site_db w) p)).
Definition interleave : Sched unit :=
  external (λ w, let '(db, p) := env_between env (site_db w) (site_env w) in (tt, mkSchedSite db p)).
(** A session with its transaction; a read session changes nothing. *)
Definition session {A} (m : SchedTx A) : Sched A :=
  interleave ;; commit site_db set_site_db m.
(** The same where the transaction reads the clock to record an event. *)
Definition recording {A} (m : datetime → SchedTx A) : Sched A :=
  at_ ← clock; session (m at_).
(** A call of the orchestrator, which shares the clock. *)
Definition orchestrate {A} (m : datetime → OrchTx A) : Sched A :=
  interleave ;; now ← clock; commit (λ w, orch (site_db w)) set_site_orch (m now).
Definition prog_res {A} (r : Res A) : Sched A := λ w, (r, w).
(** [try: m except Exception as exc: h(str(exc))]. *)
Definition attempt {A} (m : Sched A) (h : string → Sched A) : Sched A := λ w,
  match m w with
  | (Ok a, w') => (Ok a, w')
  | (Err e, w') => h (env_text env e (site_env w')) w'
  end.

(** [_launch] *)
Definition _launch (tenant_id id : string) : Sched unit :=
  now ← clock;
  started ← recording (launch_started_tx tenant_id id now);
  match started with
  | None => mret tt
  | Some (engagement, workflow) =>
      found ← session (gets (λ db, (find_engagement db tenant_id engagement,
                                    list_tasks (orch db) tenant_id engagement)));
      let '(e, rows) := (found : option Engagement * list EngagementTask) in
      (if nonempty rows then mret tt
       else _ ← orchestrate (compile_workflow tenant_id engagement workflow); mret tt) ;;
      (match e with
       | Some e =>
           if decide (eng_status e = EngagementStatus.PLANNED)
           then _ ← orchestrate (start_engagement tenant_id engagement); mret tt
           else mret tt
       | None => mret tt
       end) ;;
      recording (launch_completed_tx tenant_id id engagement now)
  end.

Definition _attempt_launch (tenant_id id : string) (summary : ScheduleEvaluationSummary)
    : Sched ScheduleEvaluationSummary :=
  attempt
    (_launch tenant_id id ;; mret (count Launched 1 summary))
    (λ error,
      now ← clock;
      recording (launch_failed_tx tenant_id id error now) ;;
      mret (count Failures 1 summary)).

Definition _run_preflight_and_launch (tenant_id id : string) (context : PreflightContext)
    (summary : ScheduleEvaluationSummary) (approval_granted : bool) : Sched ScheduleEvaluationSummary :=
  now ← clock;
  stop ← recording (preflight_tx tenant_id id context approval_granted now);
  match stop with
  | Some c => mret (count c 1 summary)
  | None => _attempt_launch tenant_id id summary
  end.

Definition _mark_waiting_approval (tenant_id id : string) (summary : ScheduleEvaluationSummary)
    : Sched ScheduleEvaluationSummary :=
  marked ← recording (mark_waiting_tx tenant_id id);
  mret (if marked : bool then count WaitingApproval 1 summary else summary).

(** The read session of [_process_occurrence]: nothing when the row or its schedule is gone. *)
Definition process_read (tenant_id id : string) : SchedTx (option (ScheduleOccurrence * LaunchMode)) :=
  db ← reading;
  match get_occurrence db tenant_id id with
  | None => mret None
  | Some o =>
      match get_schedule db tenant_id (occ_schedule_id (ospec o)) with
      | None => mret None
      | Some s => mode ← some_or_raise (Py ValueError) (of_value (launch_mode s)); mret (Some (o, mode))
      end
  end.

Definition _process_occurrence (tenant_id id : string) (context : PreflightContext)
    (summary : ScheduleEvaluationSummary) : Sched ScheduleEvaluationSummary :=
  let summary := note_id id summary in
  found ← session (process_read tenant_id id);
  match found with
  | None => mret summary
  | Some (o, mode) =>
      if decide (ostatus o = OccurrenceStatus.LAUNCHING) then _attempt_launch tenant_id id summary
      else if decide (mode = LaunchMode.APPROVAL_REQUIRED) then
        if truthy (decision_by (ostate o))
        then _run_preflight_and_launch tenant_id id context summary true
        else _mark_waiting_approval tenant_id id summary
      else _run_preflight_and_launch tenant_id id context summary (truthy (decision_by (ostate o)))
  end.

Fixpoint process_all (tenant_id : string) (ids : list string) (context : PreflightContext)
    (summary : ScheduleEvaluationSummary) : Sched ScheduleEvaluationSummary :=
  match ids with
  | [] => mret summary
  | id :: ids =>
      summary ← _process_occurrence tenant_id id context summary;
      process_all tenant_id ids context summary
  end.

Definition add_materialized (m : _MaterializationResult) (s : ScheduleEvaluationSummary)
    : ScheduleEvaluationSummary :=
  note_ids (res_occurrence_ids m)
    (count Deferred (res_deferred m) (count Skipped (res_skipped m)
      (count Created (created m) (count Evaluated 1 s)))).

Fixpoint evaluate_schedules (tenant_id : string) (ids : list string) (now : datetime) (worker_id : string)
    (lease_seconds : Z) (context : PreflightContext) (summary : ScheduleEvaluationSummary)
    : Sched ScheduleEvaluationSummary :=
  match ids with
  | [] => mret summary
  | id :: ids =>
      m ← recording (_materialize_due_occurrences tenant_id id now worker_id lease_seconds);
      summary ← process_all tenant_id (candidate_ids m) context (add_materialized m summary);
      evaluate_schedules tenant_id ids now worker_id lease_seconds context summary
  end.

(** The first read session of [evaluate_due]. *)
Definition schedules_to_evaluate (tenant_id : string) (id : option string) : SchedTx (list string) :=
  db ← reading;
  match id with
  | None => mret tt
  | Some id =>
      requested ← some_or_raise (Sch ScheduleNotFoundError) (get_schedule db tenant_id id);
      require (bool_decide (sch_status requested = "active")) (Sch ScheduleConfigurationError)
  end ;;
  mret (map schedule_id (list_active_schedules db tenant_id id)).

Definition evaluate_due (tenant_id : string) (context : option PreflightContext) (id : option string)
    (worker_id : string) (lease_seconds : Z) : Sched ScheduleEvaluationSummary :=
  now ← clock;
  let context := default empty_context context in
  if lease_seconds <=? 0 then prog_raise (Py ValueError)
  else
    ids ← session (schedules_to_evaluate tenant_id id);
    summary ← evaluate_schedules tenant_id ids now worker_id lease_seconds context
                (empty_summary tenant_id now);
    retry_ids ← session (gets (λ db, filter (λ i, i ∉ occurrence_ids summary)
                  (map oid (list_retryable_occurrences db tenant_id now id))));
    process_all tenant_id retry_ids context summary.

Definition approve_occurrence (tenant_id id : string) (d : OccurrenceDecision) : Sched OccurrenceSnapshot :=
  already ← recording (approve_tx tenant_id id d);
  match already with
  | Some snapshot => mret snapshot
  | None =>
      now ← clock;
      _ ← _run_preflight_and_launch tenant_id id (preflight_context d) (empty_summary tenant_id now) true;
      session (get_occurrence_snapshot tenant_id id)
  end.

Definition cancel_occurrence (tenant_id id : string) (d : OccurrenceDecision) : Sched OccurrenceSnapshot :=
  recording (cancel_tx tenant_id id d).
End programs.
