(* ===== verification/SchedAuthoring.v ===== *)
(** * Scheduling: authoring

    [ScheduleAuthoringService] of scheduling/authoring.py: schedules are drafted in
    versions, approved, superseded and disabled.  [model_dump] of a calendar, a
    blackout policy and a period rule is a parameter, which the parsers invert.  A
    [ScheduleView] is the row without its two timestamps; the draft a row is turned
    into for validation keeps the columns the validation looks at. *)

From S2P Require Import Prelude PyFloat PyTime Ledger PyText Materiality Quality SchedDefs SchedCalendar.
From S2P Require Import OrchDefs OrchStore OrchCompiler Orchestrator SchedStore SchedPreflight Scheduler.
Local Open Scope Z_scope.

Record ScheduleDraftInput := mkScheduleDraftInput {
  draft_name : string;
  draft_plan_id : string;
  draft_template_id : string;
  draft_recurrence_rule : string;
  draft_timezone : string;
  draft_effective_from : datetime;
  draft_effective_until : option datetime;
  draft_audit_period_rule : AuditPeriodRule;
  draft_business_calendar : BusinessCalendarConfig;
  draft_blackout_policy : BlackoutPolicy;
  draft_preflight_policy : PreflightPolicy;
  draft_launch_mode : LaunchMode;
  draft_missed_occurrence_policy : MissedOccurrencePolicy;
  draft_catch_up_limit : Z;
  draft_overlap_policy : OverlapPolicy;
  draft_max_concurrent_engagements : Z
}.
Definition ScheduleDraftInput_valid (d : ScheduleDraftInput) : bool :=
  length_within 1 255 (draft_name d) && length_within 1 64 (draft_plan_id d) &&
  length_within 1 64 (draft_template_id d) && length_within 1 2000 (draft_recurrence_rule d) &&
  length_within 1 64 (draft_timezone d) && (1 <=? draft_catch_up_limit d) &&
  (draft_catch_up_limit d <=? 1000) && (1 <=? draft_max_concurrent_engagements d) &&
  (draft_max_concurrent_engagements d <=? 1000).
Definition rename (name : string) (d : ScheduleDraftInput) : ScheduleDraftInput :=
  mkScheduleDraftInput name (draft_plan_id d) (draft_template_id d) (draft_recurrence_rule d)
    (draft_timezone d) (draft_effective_from d) (draft_effective_until d) (draft_audit_period_rule d)
    (draft_business_calendar d) (draft_blackout_policy d) (draft_preflight_policy d) (draft_launch_mode d)
    (draft_missed_occurrence_policy d) (draft_catch_up_limit d) (draft_overlap_policy d)
    (draft_max_concurrent_engagements d).

Record ScheduleDecision := mkScheduleDecision { sd_actor_id : string; sd_reason : string }.
Definition ScheduleDecision_valid (d : ScheduleDecision) : bool :=
  length_within 1 128 (sd_actor_id d) && length_within 1 4000 (sd_reason d).

Definition ScheduleView : Type := AuditSchedule.

(** Assigning the columns of a decision. *)
Definition set_active (now : datetime) (d : ScheduleDecision) (s : AuditSchedule) : AuditSchedule :=
  mkAuditSchedule (schedule_id s) (sch_tenant_id s) (sch_plan_id s) (sch_template_id s) (sch_name s)
    (sch_version s) "active" (recurrence_rule s) (sch_timezone s) (effective_from s) (effective_until s)
    (audit_period_rule_json s) (business_calendar_json s) (blackout_policy_json s) (sch_preflight_policy s)
    (launch_mode s) (missed_occurrence_policy s) (catch_up_limit s) (overlap_policy s)
    (max_concurrent_engagements s) (Some now) (Some (sd_actor_id d)) (Some (sd_reason d)) None None None.
Definition set_closed (status : string) (now : datetime) (actor reason : string) (s : AuditSchedule) : AuditSchedule :=
  mkAuditSchedule (schedule_id s) (sch_tenant_id s) (sch_plan_id s) (sch_template_id s) (sch_name s)
    (sch_version s) status (recurrence_rule s) (sch_timezone s) (effective_from s) (effective_until s)
    (audit_period_rule_json s) (business_calendar_json s) (blackout_policy_json s) (sch_preflight_policy s)
    (launch_mode s) (missed_occurrence_policy s) (catch_up_limit s) (overlap_policy s)
    (max_concurrent_engagements s) (approved_at s) (approved_by s) (approval_reason s)
    (Some now) (Some actor) (Some reason).

Definition all_schedules (db : SchedDB) : list AuditSchedule := map snd (map_to_list (schedules db)).

(** [int(max(version) or 0) + 1]; versions are positive. *)
Definition next_version (db : SchedDB) (tenant_id name : string) : Z :=
  foldr Z.max 0 (map sch_version
    (filter (λ s, sch_tenant_id s = tenant_id ∧ sch_name s = name) (all_schedules db))) + 1.

(** What the constraints of the table refuse. *)
Definition schedule_refused (db : SchedDB) (s : AuditSchedule) : bool :=
  bool_decide (is_Some (schedules db !! schedule_id s)) ||
  existsb (λ s', bool_decide (sch_tenant_id s' = sch_tenant_id s ∧ sch_name s' = sch_name s ∧
                              sch_version s' = sch_version s)) (all_schedules db) ||
  match effective_until s with Some u => u <? effective_from s | None => false end ||
  (catch_up_limit s <=? 0) || (max_concurrent_engagements s <=? 0) ||
  bool_decide (tenants db !! sch_tenant_id s = None) ||
  bool_decide (plans db !! sch_plan_id s = None) || bool_decide (templates db !! sch_template_id s = None).
Definition add_schedule (s : AuditSchedule) : SchedTx unit :=
  db ← reading;
  require (negb (schedule_refused db s)) (Py IntegrityError) ;;
  modify (set_schedules (<[schedule_id s := s]> (schedules db))).

Definition list_schedules (db : SchedDB) (tenant_id : string) (plan : option string) : list AuditSchedule :=
  sort_by (cmp_then (cmp_on sch_name String.compare)
             (cmp_then (cmp_on sch_version Z.compare) (cmp_on schedule_id String.compare)))
    (filter (λ s, sch_tenant_id s = tenant_id ∧ matches_opt plan (Some (sch_plan_id s))) (all_schedules db)).

(** The other active versions of a schedule, in the order of the key. *)
Definition active_rows (db : SchedDB) (s : AuditSchedule) : list AuditSchedule :=
  sort_by (cmp_on schedule_id String.compare)
    (filter (λ x, sch_tenant_id x = sch_tenant_id s ∧ sch_name x = sch_name s ∧ sch_status x = "active" ∧
                  schedule_id x ≠ schedule_id s) (all_schedules db)).

(** [model_dump(mode="json")], which the parsers invert. *)
Class PydanticDump `{Pydantic} := {
  dump_calendar : BusinessCalendarConfig → dict;
  dump_blackout : BlackoutPolicy → dict;
  dump_period : AuditPeriodRule → dict;
  parse_dump_calendar c : BusinessCalendarConfig_valid c = true → parse_calendar (dump_calendar c) = Ok c;
  parse_dump_blackout p : BlackoutPolicy_valid p = true → parse_blackout (dump_blackout p) = Ok p;
  parse_dump_period r : AuditPeriodRule_valid r = true → parse_period (dump_period r) = Ok r
}.

Section authoring.
Context `{UuidSource} `{Sha256} `{TimeZones} `{Dateutil} `{PydanticDump}.

(** [ScheduleAuthoringService._record]. *)
Definition record_schedule (s : AuditSchedule) (event_type : string) (now : datetime) (payload : dict)
    : SchedTx unit :=
  event_id ← zoom get_ledger put_ledger new_event_id;
  let payload := dict_update
    [("schedule_id", JStr (schedule_id s)); ("schedule_name", JStr (sch_name s));
     ("schedule_version", JInt (sch_version s)); ("status", JStr (sch_status s))] payload in
  zoom get_ledger put_ledger
    (append (mkAuditEvent event_id event_type (sch_tenant_id s) None None now payload)) ;;
  zoom get_ledger put_ledger
    (outbox_add (sch_tenant_id s) "schedule" (schedule_id s) event_type payload
       (event_id +:+ ":" +:+ event_type)).

Definition _validate_definition (d : ScheduleDraftInput) : Res unit :=
  if match draft_effective_until d with Some u => u <? draft_effective_from d | None => false end
  then Err (Sch ScheduleConfigurationError)
  else
    let? after := add_us (draft_effective_from d) (- us_per_second) in
    let? _ := next_after (draft_recurrence_rule d) (draft_timezone d) (draft_effective_from d) after in
    Ok tt.

Definition res_of {A} (e : exn) (o : option A) : Res A := match o with Some x => Ok x | None => Err e end.

Definition _draft_from_row (s : AuditSchedule) : Res ScheduleDraftInput :=
  let? period := parse_period (audit_period_rule_json s) in
  let? calendar := parse_calendar (business_calendar_json s) in
  let? blackout := parse_blackout (blackout_policy_json s) in
  let? mode := res_of (Py ValueError) (of_value (launch_mode s)) in
  let? missed := res_of (Py ValueError) (of_value (missed_occurrence_policy s)) in
  let? overlap := res_of (Py ValueError) (of_value (overlap_policy s)) in
  let d := mkScheduleDraftInput (sch_name s) (sch_plan_id s) (sch_template_id s) (recurrence_rule s)
    (sch_timezone s) (effective_from s) (effective_until s) period calendar blackout
    (sch_preflight_policy s) mode missed (catch_up_limit s) overlap (max_concurrent_engagements s) in
  if ScheduleDraftInput_valid d then Ok d else Err (Py ValueError).

(** The transaction of [create_draft]. *)
Definition create_draft_tx (tenant_id : string) (d : ScheduleDraftInput) (now : datetime) : SchedTx ScheduleView :=
  db ← reading;
  _ ← some_or_raise (Sch ScheduleConfigurationError) (get_plan db tenant_id (draft_plan_id d));
  _ ← some_or_raise (Sch ScheduleConfigurationError) (get_template db tenant_id (draft_template_id d));
  id ← zoom get_ledger put_ledger (new_id "sch");
  let row := mkAuditSchedule id tenant_id (draft_plan_id d) (draft_template_id d) (draft_name d)
    (next_version db tenant_id (draft_name d)) "draft" (draft_recurrence_rule d) (draft_timezone d)
    (draft_effective_from d) (draft_effective_until d) (dump_period (draft_audit_period_rule d))
    (dump_calendar (draft_business_calendar d)) (dump_blackout (draft_blackout_policy d))
    (draft_preflight_policy d) (value (draft_launch_mode d)) (value (draft_missed_occurrence_policy d))
    (draft_catch_up_limit d) (value (draft_overlap_policy d)) (draft_max_concurrent_engagements d)
    None None None None None None in
  add_schedule row ;;
  record_schedule row "scheduler.schedule.draft_created" now [] ;;
  mret row.

(** [revise] reads in a session of its own, then drafts: the name of an active
    schedule is kept. *)
Definition revision (tenant_id id : string) (d : ScheduleDraftInput) : SchedTx ScheduleDraftInput :=
  db ← reading;
  current ← some_or_raise (Sch ScheduleNotFoundError) (get_schedule db tenant_id id);
  mret (if decide (sch_status current = "active") then rename (sch_name current) d else d).

Definition supersede (s : AuditSchedule) (actor : string) (now : datetime) (x : AuditSchedule) : SchedTx unit :=
  let x' := set_closed "superseded" now actor
              ("superseded by schedule version " +:+ pretty (sch_version s)) x in
  save_schedule (schedule_id x) (λ _, x') ;;
  record_schedule x' "scheduler.schedule.superseded" now [("replacement_schedule_id", JStr (schedule_id s))].

Definition approve_schedule_tx (tenant_id id : string) (d : ScheduleDecision) (now : datetime) : SchedTx ScheduleView :=
  db ← reading;
  row ← some_or_raise (Sch ScheduleNotFoundError) (get_schedule db tenant_id id);
  if decide (sch_status row = "active") then mret row
  else
    require (bool_decide (sch_status row = "draft")) (Sch ScheduleConfigurationError) ;;
    require (bool_decide (plan_status <$> get_plan db tenant_id (sch_plan_id row) = Some "approved"))
      (Sch ScheduleConfigurationError) ;;
    template ← some_or_raise (Sch ScheduleConfigurationError) (get_template db tenant_id (sch_template_id row));
    require (bool_decide (tpl_status template ∈ ["approved"; "released"])) (Sch ScheduleConfigurationError) ;;
    draft ← from_res (_draft_from_row row);
    from_res (_validate_definition draft) ;;
    for_each (active_rows db row) (supersede row (sd_actor_id d) now) ;;
    let row' := set_active now d row in
    save_schedule id (λ _, row') ;;
    get_or_create_cursor row' ;;
    next ← from_res (next_after (recurrence_rule row) (sch_timezone row) (effective_from row)
                       (Z.max (effective_from row) now));
    save_cursor (schedule_id row) (λ c, mkScheduleCursor (cur_schedule_id c) (cur_tenant_id c)
      (last_evaluated_at c) next (cur_lease_owner c) (cur_lease_expires_at c) now) ;;
    record_schedule row' "scheduler.schedule.approved" now
      [("actor_id", JStr (sd_actor_id d)); ("reason", JStr (sd_reason d))] ;;
    mret row'.

Definition disable_schedule_tx (tenant_id id : string) (d : ScheduleDecision) (now : datetime) : SchedTx ScheduleView :=
  db ← reading;
  row ← some_or_raise (Sch ScheduleNotFoundError) (get_schedule db tenant_id id);
  if decide (sch_status row = "disabled") then mret row
  else
    require (bool_decide (sch_status row ∈ ["draft"; "active"])) (Sch ScheduleConfigurationError) ;;
    let row' := set_closed "disabled" now (sd_actor_id d) (sd_reason d) row in
    save_schedule id (λ _, row') ;;
    save_cursor (schedule_id row) (λ c, mkScheduleCursor (cur_schedule_id c) (cur_tenant_id c)
      (last_evaluated_at c) None None None now) ;;
    record_schedule row' "scheduler.schedule.disabled" now
      [("actor_id", JStr (sd_actor_id d)); ("reason", JStr (sd_reason d))] ;;
    mret row'.

Definition view_schedule (tenant_id id : string) : SchedTx ScheduleView :=
  db ← reading;
  some_or_raise (Sch ScheduleNotFoundError) (get_schedule db tenant_id id).
Definition view_schedules (tenant_id : string) (plan : option string) : SchedTx (list ScheduleView) :=
  gets (λ db, list_schedules db tenant_id plan).
End authoring.

(** ** The operations *)

Section operations.
Context `{UuidSource} `{Sha256} `{TimeZones} `{Dateutil} `{PydanticDump} {P : Type} (env : Environment P).

Definition create_draft (tenant_id : string) (d : ScheduleDraftInput) : Prog (SchedSite P) ScheduleView :=
  prog_res (_validate_definition d) ;;
  now ← clock env;
  session env (create_draft_tx tenant_id d now).

Definition revise (tenant_id id : string) (d : ScheduleDraftInput) : Prog (SchedSite P) ScheduleView :=
  d ← session env (revision tenant_id id d);
  create_draft tenant_id d.

Definition approve_schedule (tenant_id id : string) (d : ScheduleDecision) : Prog (SchedSite P) ScheduleView :=
  now ← clock env; session env (approve_schedule_tx tenant_id id d now).
Definition disable_schedule (tenant_id id : string) (d : ScheduleDecision) : Prog (SchedSite P) ScheduleView :=
  now ← clock env; session env (disable_schedule_tx tenant_id id d now).
End operations.
