(* ===== verification/SchedMachine.v ===== *)
(** * Scheduling: the abstract machine of occurrences

    The contract of the scheduler as a transition system: [sched_step] makes one
    occurrence, moves one, leases a cursor, or lets the orchestrator, the
    configuration or another client take a step.  A move states the guard it is
    allowed under and the record it leaves in the ledger.  SchedRefinement.v shows
    that the scheduler's transactions are sequences of these steps, and
    SchedPrograms.v that its programs are, whatever other clients commit between
    their sessions; the invariants below are proved once, on the machine. *)

From S2P Require Import Prelude PyFloat PyTime Ledger PyText Materiality Quality SchedDefs SchedCalendar.
From S2P Require Import OrchDefs OrchStore OrchCompiler Orchestrator OrchMachine OrchRefinement OrchStable.
From S2P Require Import SchedStore SchedPreflight Scheduler.
Local Open Scope Z_scope.

Section machine.
Context `{UuidSource} `{Sha256}.

(** ** Facts the guards speak of *)

(** An event about the occurrence is in the ledger. *)
Definition recorded (db : SchedDB) (id event_type : string) : Prop :=
  ∃ r, r ∈ audit_events (get_ledger db) ∧ ev_event_type (row_event r) = event_type ∧
    dict_get "occurrence_id" (ev_payload (row_event r)) = Some (JStr id).

Definition schedule_of (db : SchedDB) (o : ScheduleOccurrence) : option AuditSchedule :=
  schedules db !! occ_schedule_id (ospec o).

(** A launch is authorised by a recorded decision, or by an automatic schedule. *)
Definition authorised (db : SchedDB) (o : ScheduleOccurrence) : Prop :=
  truthy (decision_by (ostate o)) = true ∨
  ∃ s, schedule_of db o = Some s ∧ launch_mode s = value LaunchMode.AUTOMATIC.
Definition cleared (db : SchedDB) (o : ScheduleOccurrence) : Prop :=
  recorded db (oid o) "scheduler.preflight.passed" ∧ authorised db o.

(** The engagement of a launch is running. *)
Definition underway (db : SchedDB) (o : ScheduleOccurrence) (e : string) : Prop :=
  started (orch db) e ∧ has_tasks (orch db) (occ_tenant_id (ospec o)) e.

Definition kept (o : ScheduleOccurrence) (s' : OccurrenceState) : Prop :=
  occ_engagement_id s' = occ_engagement_id (ostate o) ∧ decision_by s' = decision_by (ostate o).

(** [occ_move db orch' o s' event]: the occurrence may move to the state [s'] while
    the orchestrator's tables become [orch'], leaving a record of the given type. *)
Inductive occ_move (db : SchedDB) (orch' : OrchDB) (o : ScheduleOccurrence) (s' : OccurrenceState)
    : string → Prop :=
  | move_blocked :
      ostatus o ≠ OccurrenceStatus.SKIPPED → occ_status s' = OccurrenceStatus.PREFLIGHT_BLOCKED →
      kept o s' → occ_move db orch' o s' "scheduler.preflight.blocked"
  | move_passed s t context :
      ostatus o ≠ OccurrenceStatus.SKIPPED → schedule_of db o = Some s →
      templates db !! sch_template_id s = Some t → launchable db s t o context →
      occ_status s' = ostatus o ∨
      occ_status s' = OccurrenceStatus.WAITING_APPROVAL ∧
        launch_mode s = value LaunchMode.PREFLIGHT_THEN_APPROVAL →
      kept o s' → occ_move db orch' o s' "scheduler.preflight.passed"
  | move_waiting :
      ostatus o ∉ [OccurrenceStatus.SKIPPED; OccurrenceStatus.WAITING_APPROVAL] →
      occ_status s' = OccurrenceStatus.WAITING_APPROVAL → kept o s' →
      occ_move db orch' o s' "scheduler.occurrence.waiting_approval"
  | move_started e g :
      ostatus o ∉ [OccurrenceStatus.LAUNCHED; OccurrenceStatus.CANCELLED; OccurrenceStatus.SKIPPED] →
      cleared db o → e = str_or (occ_engagement_id (ostate o)) (_engagement_id (oid o)) →
      engagement_taken db (oid o) e = false →
      engagements orch' !! e = Some g → eng_tenant_id g = occ_tenant_id (ospec o) →
      (engagements (orch db) !! e = None →
       period_start g = occ_period_start (ospec o) ∧ period_end g = occ_period_end (ospec o)) →
      occ_status s' = OccurrenceStatus.LAUNCHING → occ_engagement_id s' = Some e →
      decision_by s' = decision_by (ostate o) → occ_move db orch' o s' "scheduler.launch.started"
  | move_completed e :
      ostatus o ∉ [OccurrenceStatus.LAUNCHED; OccurrenceStatus.SKIPPED] → cleared db o →
      occ_engagement_id (ostate o) = Some e → underway db o e →
      occ_status s' = OccurrenceStatus.LAUNCHED → kept o s' →
      occ_move db orch' o s' "scheduler.launch.completed"
  | move_failed :
      ostatus o ≠ OccurrenceStatus.SKIPPED → occ_status s' = OccurrenceStatus.LAUNCH_FAILED →
      kept o s' → occ_move db orch' o s' "scheduler.launch.failed"
  | move_approved :
      ostatus o = OccurrenceStatus.WAITING_APPROVAL → occ_status s' = ostatus o →
      truthy (decision_by s') = true → occ_engagement_id s' = occ_engagement_id (ostate o) →
      occ_move db orch' o s' "scheduler.occurrence.approved"
  | move_cancelled :
      ostatus o ∉ [OccurrenceStatus.LAUNCHED; OccurrenceStatus.CANCELLED; OccurrenceStatus.SKIPPED] →
      occ_status s' = OccurrenceStatus.CANCELLED → truthy (decision_by s') = true →
      occ_engagement_id s' = occ_engagement_id (ostate o) →
      occ_move db orch' o s' "scheduler.occurrence.cancelled".

(** The orchestrator's tables move by steps of its own machine, to reachable states. *)
Definition orch_moves (db db' : SchedDB) : Prop :=
  steps (orch db) (orch db') ∧ (reachable (orch db) → reachable (orch db')).

Definition same_config (db db' : SchedDB) : Prop :=
  tenants db' = tenants db ∧ plans db' = plans db ∧ templates db' = templates db ∧
  schedules db' = schedules db.

(** Configuration is authored in versions: a schedule keeps its key, its tenant and
    its launch mode, and is not removed. *)
Definition schedules_kept (db db' : SchedDB) : Prop :=
  (∀ id s, schedules db !! id = Some s → ∃ s', schedules db' !! id = Some s' ∧
     sch_tenant_id s' = sch_tenant_id s ∧ launch_mode s' = launch_mode s) ∧
  (∀ id s, schedules db' !! id = Some s → schedule_id s = id).

(** The state an occurrence is made in. *)
Definition initial_state (s : OccurrenceState) : Prop :=
  occ_status s ∈ [OccurrenceStatus.DUE; OccurrenceStatus.DEFERRED; OccurrenceStatus.SKIPPED] ∧
  occ_engagement_id s = None ∧ decision_by s = None.

Inductive sched_step (db db' : SchedDB) : Prop :=
  | step_move id o s' event
      (Ho : occurrences db !! id = Some o)
      (Hmove : occ_move db (orch db') o s' event)
      (Hocc : occurrences db' = <[id := mkScheduleOccurrence (ospec o) s']> (occurrences db))
      (Horch : orch_moves db db')
      (Hnew : ∀ e, engagements (orch db) !! e = None → is_Some (engagements (orch db') !! e) →
         occ_engagement_id s' = Some e)
      (Hlog : recorded db' id event)
      (Hconf : same_config db db')
      (Hcur : cursors db' = cursors db)
  | step_materialise o s
      (Hnone : occurrences db !! oid o = None)
      (Hid : oid o = _occurrence_id (occ_schedule_id (ospec o)) (nominal_due (ospec o)))
      (Hs : schedule_of db o = Some s)
      (Hten : sch_tenant_id s = occ_tenant_id (ospec o))
      (Hinit : initial_state (ostate o))
      (Hocc : occurrences db' = <[oid o := o]> (occurrences db))
      (Horch : orch_moves db db')
      (Heng : engagements (orch db') = engagements (orch db))
      (Hlog : recorded db' (oid o) "scheduler.occurrence.created")
      (Hconf : same_config db db')
      (Hcur : cursors db' = cursors db)
  | step_cursor
      (Hocc : occurrences db' = occurrences db)
      (Horch : orch db' = orch db)
      (Hconf : same_config db db')
  | step_orch
      (Hocc : occurrences db' = occurrences db)
      (Horch : orch_moves db db')
      (Hnew : ∀ e x, engagements (orch db) !! e = None → is_Some (engagements (orch db') !! e) →
         e ≠ _engagement_id x)
      (Hconf : same_config db db')
      (Hcur : cursors db' = cursors db)
  | step_config
      (Hocc : occurrences db' = occurrences db)
      (Horch : orch_moves db db')
      (Heng : engagements (orch db') = engagements (orch db))
      (Hsch : schedules_kept db db').

Definition sched_steps : relation SchedDB := rtc sched_step.

(** ** The invariant *)

(** What holds of each occurrence. *)
Record occ_inv (db : SchedDB) (id : string) (o : ScheduleOccurrence) : Prop := {
  inv_key : oid o = id;
  inv_derived : id = _occurrence_id (occ_schedule_id (ospec o)) (nominal_due (ospec o));
  inv_schedule : ∃ s, schedule_of db o = Some s ∧ sch_tenant_id s = occ_tenant_id (ospec o);
  inv_engagement e : occ_engagement_id (ostate o) = Some e →
    e = _engagement_id id ∧ ∃ g, engagements (orch db) !! e = Some g ∧
      eng_tenant_id g = occ_tenant_id (ospec o) ∧ period_start g = occ_period_start (ospec o) ∧
      period_end g = occ_period_end (ospec o);
  inv_launch : ostatus o ∈ [OccurrenceStatus.LAUNCHING; OccurrenceStatus.LAUNCHED] →
    is_Some (occ_engagement_id (ostate o)) ∧ cleared db o;
  inv_launched e : ostatus o = OccurrenceStatus.LAUNCHED →
    occ_engagement_id (ostate o) = Some e → underway db o e
}.

Record sched_inv (db : SchedDB) : Prop := {
  inv_reachable : reachable (orch db);
  inv_schedules id s : schedules db !! id = Some s → schedule_id s = id;
  inv_occ id o : occurrences db !! id = Some o → occ_inv db id o;
  inv_owned x : is_Some (engagements (orch db) !! _engagement_id x) →
    ∃ id o, occurrences db !! id = Some o ∧ occ_engagement_id (ostate o) = Some (_engagement_id x);
  inv_unique id1 o1 id2 o2 e : occurrences db !! id1 = Some o1 → occurrences db !! id2 = Some o2 →
    occ_engagement_id (ostate o1) = Some e → occ_engagement_id (ostate o2) = Some e → id1 = id2
}.

Definition empty_sched (now : datetime) : SchedDB := mkSchedDB (empty_db now) ∅ ∅ ∅ ∅ ∅ ∅.
End machine.
