(* ===== verification/SchedInvariants.v ===== *)
(** * Scheduling: what the machine keeps

    What no step of the scheduling machine takes back ([lasts]), and the invariant
    of the reachable states: an occurrence keeps its key, its schedule and its
    engagement, an engagement belongs to one occurrence, and a launch was cleared. *)

From S2P Require Import Prelude PyFloat PyTime Ledger PyText Materiality Quality SchedDefs SchedCalendar.
From S2P Require Import OrchDefs OrchStore OrchCompiler Orchestrator OrchMachine OrchRefinement OrchStable.
From S2P Require Import SchedStore SchedPreflight Scheduler SchedMachine.
Local Open Scope Z_scope.

Section invariants.
Context `{UuidSource} `{Sha256}.

(** ** What lasts *)

Record state_lasts (s s' : OccurrenceState) : Prop := {
  lasts_skipped : occ_status s' = OccurrenceStatus.SKIPPED ↔ occ_status s = OccurrenceStatus.SKIPPED;
  lasts_decision : truthy (decision_by s) = true → truthy (decision_by s') = true;
  lasts_engagement e : e ≠ "" → occ_engagement_id s = Some e → occ_engagement_id s' = Some e
}.

Record lasts (db db' : SchedDB) : Prop := {
  lasts_orch : outlasts (orch db) (orch db');
  lasts_schedules id s : schedules db !! id = Some s → ∃ s', schedules db' !! id = Some s' ∧
    sch_tenant_id s' = sch_tenant_id s ∧ launch_mode s' = launch_mode s;
  lasts_occ id o : occurrences db !! id = Some o → ∃ o', occurrences db' !! id = Some o' ∧
    ospec o' = ospec o ∧ state_lasts (ostate o) (ostate o')
}.

#[export] Instance state_lasts_refl : Reflexive state_lasts.
Proof. by intros s. Qed.
#[export] Instance state_lasts_trans : Transitive state_lasts.
Proof. intros s1 s2 s3 [] []. split; naive_solver. Qed.
#[export] Instance lasts_refl : Reflexive lasts.
Proof. intros db. split; [done|eauto|]. intros id o Ho. by exists o. Qed.
#[export] Instance lasts_trans : Transitive lasts.
Proof.
  intros db1 db2 db3 [H1 H2 H3] [H4 H5 H6]. split; [by etrans|..].
  - intros id s (s2 & Hs2 & ? & ?)%H2. apply H5 in Hs2 as (s3 & ? & ? & ?). exists s3. split_and!; congruence.
  - intros id o (o2 & Ho2 & ? & ?)%H3. apply H6 in Ho2 as (o3 & ? & ? & ?). exists o3.
    split_and!; [done|congruence|by etrans].
Qed.

Lemma move_lasts db orch' o s' event : occ_move db orch' o s' event → state_lasts (ostate o) s'.
Proof.
  destruct 1; unfold kept, ostatus in *;
    repeat match goal with
    | H : _ ∉ _ :: _ |- _ => apply not_elem_of_cons in H as [??]
    | H : _ ∧ _ |- _ => destruct H
    | H : _ ∨ _ |- _ => destruct H
    end; split; intros; try congruence; try (split; congruence).
  subst. match goal with E : occ_engagement_id (ostate o) = Some ?x |- _ => rewrite E in * end.
  cbn [str_or] in *. case_decide; congruence.
Qed.

Lemma same_config_schedules db db' id : same_config db db' → schedules db' !! id = schedules db !! id.
Proof. by intros (_ & _ & _ & ->). Qed.

Lemma step_lasts db db' : sched_step db db' → lasts db db'.
Proof.
  intros Hs. split.
  - destruct Hs; try rewrite Horch; try done; destruct Horch; by apply steps_outlast.
  - intros i s Hi. destruct Hs; try (rewrite (same_config_schedules _ _ i Hconf); by exists s).
    destruct Hsch as [Hsch _]. by apply Hsch.
  - intros i x Hi. destruct Hs; rewrite Hocc; try by exists x.
    + destruct (decide (id = i)) as [->|]; [|rewrite lookup_insert_ne by done; by exists x].
      rewrite Ho in Hi. injection Hi as <-. eexists. rewrite lookup_insert_eq.
      split_and!; [done..|by eapply move_lasts].
    + destruct (decide (oid o = i)) as [<-|]; [congruence|rewrite lookup_insert_ne by done; by exists x].
Qed.
Lemma steps_last db db' : sched_steps db db' → lasts db db'.
Proof. induction 1 as [|db1 db2 db3 Hs _ IH]; [done|]. etrans; [by eapply step_lasts|done]. Qed.

Lemma recorded_lasts db db' id ty : lasts db db' → recorded db id ty → recorded db' id ty.
Proof. intros [Ho _ _] (r & Hr & ?). exists r. split; [by apply (kept_events _ _ Ho)|done]. Qed.

Lemma authorised_lasts db db' o o' :
  lasts db db' → ospec o' = ospec o → state_lasts (ostate o) (ostate o') → authorised db o → authorised db' o'.
Proof.
  intros Hl E Hst [Hd|(s & Hs & Hm)]; [left; by eapply lasts_decision|right]. unfold schedule_of in *.
  apply (lasts_schedules _ _ Hl) in Hs as (s' & ? & ? & ?). exists s'. rewrite E. split; congruence.
Qed.
Lemma cleared_lasts db db' o o' :
  lasts db db' → ospec o' = ospec o → state_lasts (ostate o) (ostate o') → cleared db o → cleared db' o'.
Proof.
  intros Hl E Hst [Hr Ha]. split; [|by eapply authorised_lasts].
  unfold oid. rewrite E. by eapply recorded_lasts.
Qed.
Lemma underway_lasts db db' o o' e :
  lasts db db' → ospec o' = ospec o → underway db o e → underway db' o' e.
Proof.
  intros [Hl _ _] E [Hs Ht]. split; [by eapply started_lasts|rewrite E; by eapply has_tasks_lasts].
Qed.

(** ** The invariant *)

Lemma str_or_engagement db o : occ_inv db (oid o) o →
  str_or (occ_engagement_id (ostate o)) (_engagement_id (oid o)) = _engagement_id (oid o).
Proof.
  intros Hi. destruct (occ_engagement_id (ostate o)) as [e|] eqn:E; [|done]. cbn [str_or].
  apply (inv_engagement _ _ _ Hi) in E as [-> _]. by case_decide.
Qed.

(** An occurrence whose columns and engagement stay, in a later state. *)
Lemma occ_inv_lasts db db' id o o' :
  lasts db db' → ospec o' = ospec o → state_lasts (ostate o) (ostate o') →
  occ_engagement_id (ostate o') = occ_engagement_id (ostate o) →
  (ostatus o' ∈ [OccurrenceStatus.LAUNCHING; OccurrenceStatus.LAUNCHED] → ostatus o' = ostatus o ∨
   is_Some (occ_engagement_id (ostate o)) ∧ cleared db o ∧
   ∀ e, occ_engagement_id (ostate o) = Some e → underway db o e) →
  occ_inv db id o → occ_inv db' id o'.
Proof.
  intros Hl E Hst Eeng Hnew [I1 I2 I3 I4 I5 I6]. split.
  - unfold oid. rewrite E. exact I1.
  - by rewrite E.
  - destruct I3 as (s & Hs & Ht). apply (lasts_schedules _ _ Hl) in Hs as (s' & Hs' & ? & ?).
    exists s'. unfold schedule_of. rewrite E. split; congruence.
  - rewrite Eeng, E. intros e (-> & g & Hg & ?)%I4. split; [done|].
    destruct (kept_engagements _ _ (lasts_orch _ _ Hl) _ _ Hg) as (g' & Hg' & Hc & _).
    unfold eng_columns in Hc. injection Hc as ??????????. exists g'. split; [done|]. intuition congruence.
  - intros Hs. rewrite Eeng. destruct (Hnew Hs) as [Es|(? & ? & _)].
    + rewrite Es in Hs. destruct (I5 Hs). split; [done|by eapply cleared_lasts].
    + split; [done|by eapply cleared_lasts].
  - rewrite Eeng. intros e Hs He. eapply underway_lasts; [done..|].
    destruct Hnew as [Es|(_ & _ & Hu)]; [rewrite Hs; set_solver| |by auto]. apply I6; congruence.
Qed.

Lemma occ_inv_stays db db' id o : lasts db db' → occ_inv db id o → occ_inv db' id o.
Proof. intros Hl. apply occ_inv_lasts; [done..|by left]. Qed.

Lemma engagement_free db id e i o : sched_inv db → engagement_taken db id e = false →
  occurrences db !! i = Some o → occ_engagement_id (ostate o) = Some e → i = id.
Proof.
  intros Hinv Ht Ho He. apply not_true_iff_false in Ht. apply (inv_occ _ Hinv) in Ho as Hi.
  destruct (decide (i = id)) as [|Hne]; [done|]. destruct Ht. apply existsb_decide. exists o.
  split; [|by rewrite (inv_key _ _ _ Hi)].
  apply list_elem_of_fmap. exists (i, o). split; [done|by apply elem_of_map_to_list].
Qed.

(** The engagement of an occurrence that starts its launch has the occurrence's
    columns, whether it is new or was there already. *)
Lemma started_engagement db db' id o g : sched_inv db → outlasts (orch db) (orch db') →
  occurrences db !! id = Some o → engagement_taken db id (_engagement_id id) = false →
  engagements (orch db') !! _engagement_id id = Some g →
  (engagements (orch db) !! _engagement_id id = None →
   period_start g = occ_period_start (ospec o) ∧ period_end g = occ_period_end (ospec o)) →
  period_start g = occ_period_start (ospec o) ∧ period_end g = occ_period_end (ospec o).
Proof.
  intros Hinv Hout Ho Hfree Hg Hnew.
  destruct (engagements (orch db) !! _engagement_id id) as [g0|] eqn:Hg0; [|by apply Hnew].
  destruct (inv_owned _ Hinv id) as (i & x & Hx & Hex); [by rewrite Hg0|].
  assert (i = id) as -> by (by eapply engagement_free). rewrite Ho in Hx. injection Hx as <-.
  apply (inv_occ _ Hinv) in Ho. destruct (inv_engagement _ _ _ Ho _ Hex) as (_ & g1 & Hg1 & _ & ? & ?).
  rewrite Hg0 in Hg1. injection Hg1 as <-.
  destruct (kept_engagements _ _ Hout _ _ Hg0) as (g' & Hg' & Hc & _).
  rewrite Hg in Hg'. injection Hg' as <-. unfold eng_columns in Hc. injection Hc as ??????????. split; congruence.
Qed.

Lemma move_inv db db' id o s' event : sched_inv db → lasts db db' → occurrences db !! id = Some o →
  occ_move db (orch db') o s' event → occ_inv db' id (mkScheduleOccurrence (ospec o) s').
Proof.
  intros Hinv Hl Ho Hmove. apply (inv_occ _ Hinv) in Ho as Hi.
  apply move_lasts in Hmove as Hst. destruct (inv_key _ _ _ Hi).
  destruct Hmove as [? Es|? ? ? ? _ _ _ Es|? Es|e g ? Hc He Hfree Hg Ht Hp Hs' He' Hd
    |e ? Hc He Hu Es|? Es|? Es|? Es]; unfold kept, ostatus in *.
  4: { rewrite (str_or_engagement db) in He by done. subst e. destruct Hi as [I1 I2 I3 I4 I5 I6].
    assert (Hper := started_engagement _ _ _ _ _ Hinv (lasts_orch _ _ Hl) Ho Hfree Hg Hp).
    destruct Hper. split; cbn [ospec ostate]; [done|done| |..]; unfold ostatus; cbn [ostate].
    - destruct I3 as (s & Hs & ?). apply (lasts_schedules _ _ Hl) in Hs as (s1 & ? & ? & ?). exists s1.
      split; [done|congruence].
    - rewrite He'. intros e [= <-]. split; [done|]. by exists g.
    - intros _. split; [by rewrite He'|by apply (cleared_lasts db _ o)].
    - congruence. }
  all: apply (occ_inv_lasts db _ _ o); [done|done|done|cbn [ostate]; by intuition congruence| |done].
  all: unfold ostatus; cbn [ostate]; intros Hin.
  all: try by (rewrite Es in Hin; rewrite !elem_of_cons, elem_of_nil in Hin; naive_solver).
  destruct Es as [Es|[Es _]]; [by left|].
  rewrite Es, !elem_of_cons, elem_of_nil in Hin. naive_solver.
Qed.

Lemma moved_owned db db' id o s' event x : sched_inv db → occurrences db !! id = Some o →
  occ_move db (orch db') o s' event →
  (∀ e, engagements (orch db) !! e = None → is_Some (engagements (orch db') !! e) → occ_engagement_id s' = Some e) →
  is_Some (engagements (orch db') !! _engagement_id x) →
  ∃ i y, <[id := mkScheduleOccurrence (ospec o) s']> (occurrences db) !! i = Some y ∧
    occ_engagement_id (ostate y) = Some (_engagement_id x).
Proof.
  intros Hinv Ho Hmove Hnew Hx. destruct (engagements (orch db) !! _engagement_id x) eqn:Hg.
  - destruct (inv_owned _ Hinv x) as (i & y & Hy & Ey); [by rewrite Hg|].
    destruct (decide (i = id)) as [->|Hne]; [|exists i, y; by rewrite lookup_insert_ne].
    rewrite Ho in Hy. injection Hy as <-. exists id. eexists. rewrite lookup_insert_eq. split; [done|].
    apply move_lasts in Hmove. by apply (lasts_engagement _ _ Hmove).
  - exists id. eexists. rewrite lookup_insert_eq. split; [done|by apply Hnew].
Qed.

(** A move binds no engagement that another occurrence has. *)
Lemma moved_unique db db' id o s' event i x e : sched_inv db → occurrences db !! id = Some o →
  occ_move db (orch db') o s' event → occurrences db !! i = Some x →
  occ_engagement_id s' = Some e → occ_engagement_id (ostate x) = Some e → i = id.
Proof.
  intros Hinv Ho Hmove Hx E Ex. apply (inv_occ _ Hinv) in Ho as Hi. destruct (inv_key _ _ _ Hi).
  assert (occ_engagement_id s' = occ_engagement_id (ostate o) ∨ engagement_taken db (oid o) e = false) as [Ek|Ht].
  { destruct Hmove; unfold kept in *; try (left; by intuition congruence). right. congruence. }
  - apply (inv_unique _ Hinv i x (oid o) o e); congruence.
  - by eapply engagement_free.
Qed.

Lemma sched_inv_step db db' : sched_step db db' → sched_inv db → sched_inv db'.
Proof.
  intros Hs Hinv. pose proof (step_lasts _ _ Hs) as Hl. pose proof (inv_occ _ Hinv) as Hocc0.
  destruct Hs.
  - pose proof (move_inv _ _ _ _ _ _ Hinv Hl Ho Hmove) as Hnewocc. split.
    + by apply Horch, (inv_reachable _ Hinv).
    + intros i s. rewrite (same_config_schedules _ _ _ Hconf). apply (inv_schedules _ Hinv).
    + intros i x. rewrite Hocc. intros [[<- <-]|[_ Hx]]%lookup_insert_Some; [done|].
      by eapply occ_inv_stays, Hocc0.
    + intros x Hx. rewrite Hocc. by eapply moved_owned.
    + intros i1 o1 i2 o2 e. rewrite Hocc.
      intros [[<- <-]|[? Hy1]]%lookup_insert_Some [[<- <-]|[? Hy2]]%lookup_insert_Some E1 E2; [done|..].
      * symmetry. by eapply moved_unique.
      * by eapply moved_unique.
      * by eapply (inv_unique _ Hinv).
  - split.
    + by apply Horch, (inv_reachable _ Hinv).
    + intros i x. rewrite (same_config_schedules _ _ _ Hconf). apply (inv_schedules _ Hinv).
    + intros i x. rewrite Hocc. intros [[<- <-]|[_ Hx]]%lookup_insert_Some; [|by eapply occ_inv_stays, Hocc0].
      destruct Hinit as (Hst & E1 & E2). split; [done|done| | | |]; rewrite ?E1; try done.
      * exists s. unfold schedule_of. by rewrite (same_config_schedules _ _ _ Hconf).
      * intros Hin. exfalso. unfold ostatus in Hin. clear -Hst Hin. rewrite !elem_of_cons, elem_of_nil in Hst.
        rewrite !elem_of_cons, elem_of_nil in Hin. intuition congruence.
    + intros x. rewrite Heng. intros (i & y & Hy & ?)%(inv_owned _ Hinv). exists i, y. split; [|done].
      rewrite Hocc, lookup_insert_ne; [done|]. intros <-. congruence.
    + intros i1 o1 i2 o2 e. rewrite Hocc. destruct Hinit as (_ & E & _).
      intros [[<- <-]|[_ Hy1]]%lookup_insert_Some [[<- <-]|[_ Hy2]]%lookup_insert_Some E1 E2; try congruence.
      by eapply (inv_unique _ Hinv).
  - split; rewrite ?Horch, ?Hocc; try apply Hinv.
    + intros i s. rewrite (same_config_schedules _ _ _ Hconf). apply (inv_schedules _ Hinv).
    + intros i x Hx. by eapply occ_inv_stays, Hocc0.
  - split; rewrite ?Hocc; try apply Hinv.
    + by apply Horch, (inv_reachable _ Hinv).
    + intros i s. rewrite (same_config_schedules _ _ _ Hconf). apply (inv_schedules _ Hinv).
    + intros i x Hx. by eapply occ_inv_stays, Hocc0.
    + intros x Hx. destruct (engagements (orch db) !! _engagement_id x) eqn:Hg.
      * apply (inv_owned _ Hinv). by rewrite Hg.
      * by destruct (Hnew _ x Hg Hx).
  - split; rewrite ?Hocc; try apply Hinv.
    + by apply Horch, (inv_reachable _ Hinv).
    + by apply Hsch.
    + intros i x Hx. by eapply occ_inv_stays, Hocc0.
    + intros x. rewrite Heng. apply (inv_owned _ Hinv).
Qed.
Lemma sched_inv_steps db db' : sched_steps db db' → sched_inv db → sched_inv db'.
Proof. induction 1; eauto using sched_inv_step. Qed.

Lemma sched_inv_empty now : sched_inv (empty_sched now).
Proof. split; try done. - apply reachable_empty. - intros x [? ?]. done. Qed.
End invariants.
