(* ===== verification/SchedRefinement.v ===== *)
(** * Scheduling: the transactions refine the machine

    Every transaction of the scheduler that commits is a step of the machine of
    SchedMachine.v, or a sequence of them, provided what its caller has established
    before: the occurrence is not skipped, or is cleared for launch. *)

From S2P Require Import Prelude PyFloat PyTime Ledger PyText Materiality Quality SchedDefs SchedCalendar.
From S2P Require Import OrchDefs OrchStore OrchCompiler Orchestrator OrchMachine OrchRefinement OrchStable.
From S2P Require Import SchedStore SchedPreflight Scheduler SchedMachine SchedInvariants.
Local Open Scope Z_scope.

(** ** What the primitives do *)

Section primitives.
Context `{UuidSource} `{Sha256}.

(** The row [o] with its launch columns replaced. *)
Definition with_state (id : string) (o : ScheduleOccurrence) (s : OccurrenceState) (db : SchedDB) : SchedDB :=
  set_occurrences (<[id := mkScheduleOccurrence (ospec o) s]> (occurrences db)) db.

Lemma with_state_id id o db : occurrences db !! id = Some o → with_state id o (ostate o) db = db.
Proof. intros Ho. unfold with_state. destruct db, o; simpl in *. by rewrite insert_id. Qed.

(** An assignment, and what follows it. *)
Lemma save_with {B} id f o s db (k : unit → SchedTx B) :
  mbind (M:=SchedTx) k (save_occurrence id f) (with_state id o s db) = k tt (with_state id o (f s) db).
Proof.
  erewrite tx_bind_step; [|done]. f_equal. unfold with_state. destruct db; simpl.
  unfold set_occurrences. simpl. f_equal. by rewrite (alter_Some _ _ _ _ (lookup_insert_eq _ _ _)), insert_insert_eq.
Qed.
Lemma save_first {B} id f o db (k : unit → SchedTx B) : occurrences db !! id = Some o →
  mbind (M:=SchedTx) k (save_occurrence id f) db = k tt (with_state id o (f (ostate o)) db).
Proof. intros Ho. by rewrite <- save_with, with_state_id. Qed.

Lemma guarded_Some {A} (P : A → Prop) `{!∀ x, Decision (P x)} (m : option A) y :
  (x ← m; guard (P x);; Some x) = Some y ↔ m = Some y ∧ P y.
Proof.
  rewrite bind_Some. split.
  - intros (x & Hx & Hg). apply bind_Some in Hg as (? & ? & ?). case_guard; naive_solver.
  - intros [Hx HP]. exists y. split; [done|]. by rewrite option_guard_True.
Qed.
Lemma get_occurrence_Some db tenant_id id o : get_occurrence db tenant_id id = Some o ↔
  occurrences db !! id = Some o ∧ occ_tenant_id (ospec o) = tenant_id.
Proof. apply (guarded_Some (λ o, occ_tenant_id (ospec o) = tenant_id)). Qed.
Lemma get_schedule_Some db tenant_id id s : get_schedule db tenant_id id = Some s ↔
  schedules db !! id = Some s ∧ sch_tenant_id s = tenant_id.
Proof. apply (guarded_Some (λ s, sch_tenant_id s = tenant_id)). Qed.
Lemma get_template_Some db tenant_id id t : get_template db tenant_id id = Some t ↔
  templates db !! id = Some t ∧ tpl_tenant_id t = tenant_id.
Proof. apply (guarded_Some (λ t, tpl_tenant_id t = tenant_id)). Qed.

(** The types of event the scheduler records are none of those a replay interprets. *)
Definition scheduler_event (ty : string) : Prop :=
  ty ∉ [TASK_CREATED; TASK_TRANSITIONED; ENGAGEMENT_TRANSITIONED].

Lemma record_occurrence_logs id ty pl now db u db' o :
  record_occurrence id ty pl now db = Ok (u, db') → occurrences db !! id = Some o →
  ∃ l' eid, db' = put_ledger l' db ∧ logs (get_ledger db) l'
    (mkAuditEvent eid ty (occ_tenant_id (ospec o)) (occ_engagement_id (ostate o)) None now
      (dict_update [("occurrence_id", JStr (oid o)); ("schedule_id", JStr (occ_schedule_id (ospec o)))] pl)).
Proof.
  unfold record_occurrence. intros E Ho.
  apply tx_bind_Ok in E as (db0 & s1 & [-> ->]%gets_Ok & E).
  apply tx_bind_Ok in E as (o' & s1 & [Ho' ->]%some_or_raise_Ok & E). rewrite Ho in Ho'. injection Ho' as <-.
  inv_tx. repeat match goal with
  | E : new_event_id _ = _ |- _ => apply new_event_id_Ok in E as [-> ->]
  | E : append _ _ = _ |- _ => apply append_Ok in E as (Ha & Hb & Hu & Hw)
  | E : outbox_add _ _ _ _ _ _ _ = _ |- _ =>
      apply outbox_add_Ok in E as (Hf & Ha' & (x & Hx & Hk & Hxty & Hxpl) & Hu' & Hw')
  end.
  unfold get_ledger, put_ledger in *. simpl in *. eexists _, _. split; [done|]. split; simpl.
  - done.
  - by rewrite Ha', Ha.
  - exists x. by rewrite Hx, Hb.
  - rewrite Hu', Hu. simpl. lia.
  - by rewrite Hw', Hw.
Qed.

Lemma record_occurrence_Ok id ty pl now db u db' o :
  record_occurrence id ty pl now db = Ok (u, db') → occurrences db !! id = Some o →
  "occurrence_id" ∉ pl.*1 → scheduler_event ty →
  ∃ l', db' = put_ledger l' db ∧ ledger_env (get_ledger db) l' ∧ recorded db' (oid o) ty.
Proof.
  intros E Ho Hpl Hty. eapply record_occurrence_logs in E as (l' & eid & -> & Hl); [|done].
  exists l'. split; [done|]. split; [by eapply ledger_env_logs|]. eexists. split.
  - unfold get_ledger. simpl. rewrite (logs_audit _ _ _ Hl). apply elem_of_app. right. left.
  - split; [done|]. simpl. by rewrite dict_get_update_ne.
Qed.

(** ** A transaction that moves one occurrence *)

Lemma steps_ledger db l : ledger_env (ledger db) l → steps db (set_ledger l db).
Proof. intros Hl. apply (steps_one 0). by apply step_env. Qed.

(** The state [s'] and its record are written over the tables [o1] the orchestrator
    has been left with. *)
Lemma move_over db o1 id o s' ty l' :
  occurrences db !! id = Some o → steps (orch db) o1 → (reachable (orch db) → reachable o1) →
  ledger_env (ledger o1) l' → recorded (put_ledger l' (set_orch o1 db)) id ty →
  (∀ orch', engagements orch' = engagements o1 → occ_move db orch' o s' ty) →
  (∀ e, engagements (orch db) !! e = None → is_Some (engagements o1 !! e) → occ_engagement_id s' = Some e) →
  sched_step db (put_ledger l' (with_state id o s' (set_orch o1 db))).
Proof.
  intros Ho Hsteps Hreach Henv Hrec Hmove Hnew. eapply (step_move _ _ id o s' ty); try done.
  - by apply Hmove.
  - split; simpl.
    { etrans; [exact Hsteps|by apply steps_ledger]. }
    intros Hr. by apply reachable_env; [apply Hreach|].
Qed.

Lemma set_orch_id db : set_orch (orch db) db = db.
Proof. by destruct db. Qed.

Lemma move_to db id o s' ty l' :
  occurrences db !! id = Some o → ledger_env (get_ledger db) l' → recorded (put_ledger l' db) id ty →
  (∀ orch', engagements orch' = engagements (orch db) → occ_move db orch' o s' ty) →
  sched_step db (put_ledger l' (with_state id o s' db)).
Proof.
  intros Ho Henv Hrec Hmove. rewrite <- (set_orch_id db) at 2.
  eapply move_over; try done. intros e He [x Hx]. congruence.
Qed.

(** What a record over the state [s] leaves. *)
Lemma record_with id ty pl at_ db o s u db' :
  oid o = id → occurrences db !! id = Some o →
  record_occurrence id ty pl at_ (with_state id o s db) = Ok (u, db') →
  "occurrence_id" ∉ pl.*1 → scheduler_event ty →
  ∃ l', db' = put_ledger l' (with_state id o s db) ∧ ledger_env (get_ledger db) l' ∧
    recorded (put_ledger l' db) id ty.
Proof.
  intros <- Ho E Hpl Hty. edestruct record_occurrence_Ok as (l' & -> & Henv & Hrec);
    [exact E|by unfold with_state; simpl; apply lookup_insert_eq|done|done|].
  exists l'. done.
Qed.

(** A transaction that ends by recording the state [s'] it has moved to. *)
Lemma moved db id o s' ty pl at_ u db' :
  sched_inv db → occurrences db !! id = Some o →
  record_occurrence id ty pl at_ (with_state id o s' db) = Ok (u, db') →
  "occurrence_id" ∉ pl.*1 → scheduler_event ty →
  (∀ orch', engagements orch' = engagements (orch db) → occ_move db orch' o s' ty) →
  sched_step db db' ∧ occurrences db' !! id = Some (mkScheduleOccurrence (ospec o) s') ∧ recorded db' id ty.
Proof.
  intros Hinv Ho E Hpl Hty Hmove. destruct (record_with _ _ _ _ _ _ _ _ _ (inv_key _ _ _ (inv_occ _ Hinv _ _ Ho)) Ho E Hpl Hty) as (l' & -> & Henv & Hrec).
  split; [by apply (move_to _ _ _ _ ty)|]. split; [by simpl; rewrite lookup_insert_eq|done].
Qed.
End primitives.

(** The side conditions of a record. *)
Ltac recorded_type := unfold scheduler_event, TASK_CREATED, TASK_TRANSITIONED, ENGAGEMENT_TRANSITIONED;
  rewrite !not_elem_of_cons; split_and!; [discriminate..|apply not_elem_of_nil].
Ltac payload_keys := simpl; rewrite ?not_elem_of_cons; split_and?; [discriminate..|apply not_elem_of_nil].

(** ** What callers establish *)

Section transactions.
Context `{UuidSource} `{Sha256} `{TimeZones} `{Dateutil} `{Pydantic} `{CursorSession}.

Definition not_skipped (id : string) (db : SchedDB) : Prop :=
  ∃ o, occurrences db !! id = Some o ∧ ostatus o ≠ OccurrenceStatus.SKIPPED.
Definition decided (id : string) (db : SchedDB) : Prop :=
  ∃ o, occurrences db !! id = Some o ∧ truthy (decision_by (ostate o)) = true.
(** A schedule that launches once the preflight has passed, or asks for approval then. *)
Definition unattended (id : string) (db : SchedDB) : Prop :=
  ∃ o s, occurrences db !! id = Some o ∧ schedule_of db o = Some s ∧
    launch_mode s ∈ [value LaunchMode.AUTOMATIC; value LaunchMode.PREFLIGHT_THEN_APPROVAL].
Definition ready (id : string) (db : SchedDB) : Prop :=
  ∃ o, occurrences db !! id = Some o ∧ ostatus o ≠ OccurrenceStatus.SKIPPED ∧ cleared db o.

Definition stable (P : SchedDB → Prop) : Prop := ∀ db db', lasts db db' → P db → P db'.

Lemma stable_not_skipped id : stable (not_skipped id).
Proof.
  intros db db' Hl (o & (o' & Ho' & _ & Hst)%(lasts_occ _ _ Hl) & Hne). exists o'. split; [done|].
  by intros E%(lasts_skipped _ _ Hst).
Qed.
Lemma stable_decided id : stable (decided id).
Proof.
  intros db db' Hl (o & (o' & Ho' & _ & Hst)%(lasts_occ _ _ Hl) & Hd). exists o'. split; [done|].
  by apply (lasts_decision _ _ Hst).
Qed.
Lemma stable_unattended id : stable (unattended id).
Proof.
  intros db db' Hl (o & s & (o' & Ho' & E & Hst)%(lasts_occ _ _ Hl) & Hs & Hm). unfold schedule_of in Hs.
  apply (lasts_schedules _ _ Hl) in Hs as (s' & Hs' & _ & Em). exists o', s'. unfold schedule_of.
  by rewrite E, Em.
Qed.
Lemma stable_ready id : stable (ready id).
Proof.
  intros db db' Hl (o & (o' & Ho' & E & Hst)%(lasts_occ _ _ Hl) & Hne & Hc). exists o'. split; [done|].
  split; [by intros Es%(lasts_skipped _ _ Hst)|by eapply cleared_lasts].
Qed.

(** [tx_moves Pre m Post]: from a good state where [Pre] holds, a committed run of
    [m] is a sequence of steps and leaves [Post]. *)
Definition tx_moves {A} (Pre : SchedDB → Prop) (m : SchedTx A) (Post : A → SchedDB → Prop) : Prop :=
  ∀ db a db', sched_inv db → Pre db → m db = Ok (a, db') → sched_steps db db' ∧ Post a db'.

Lemma mark_waiting_moves tenant_id id now :
  tx_moves (not_skipped id) (mark_waiting_tx tenant_id id now) (λ _ _, True).
Proof.
  intros db a db' Hinv (o & Ho & Hne) E. unfold mark_waiting_tx in E.
  apply tx_bind_Ok in E as (db0 & s1 & [-> ->]%gets_Ok & E).
  destruct (get_occurrence db tenant_id id) as [o'|] eqn:Hg; [|by apply tx_ret_Ok in E as [_ ->]].
  apply get_occurrence_Some in Hg as [Ho' _]. rewrite Ho in Ho'. injection Ho' as <-.
  case_decide; [by apply tx_ret_Ok in E as [_ ->]|].
  rewrite (save_first _ _ o), save_with in E by done.
  apply tx_bind_Ok in E as ([] & s1 & E & [_ ->]%tx_ret_Ok).
  edestruct moved as [Hs _]; [exact Hinv|exact Ho|exact E|payload_keys|recorded_type| |split; [by apply rtc_once|done]].
  intros orch' _. apply move_waiting; [|done|done]. rewrite !not_elem_of_cons. by split_and!; [..|apply not_elem_of_nil].
Qed.

Lemma block_moves db id o s' pl at_ u db' :
  sched_inv db → occurrences db !! id = Some o → ostatus o ≠ OccurrenceStatus.SKIPPED →
  occ_status s' = OccurrenceStatus.PREFLIGHT_BLOCKED → kept o s' → "occurrence_id" ∉ pl.*1 →
  record_occurrence id "scheduler.preflight.blocked" pl at_ (with_state id o s' db) = Ok (u, db') →
  sched_steps db db'.
Proof.
  intros Hinv Ho Hne Hs Hk Hpl E. apply rtc_once.
  edestruct moved as [Hstep _]; [exact Hinv|exact Ho|exact E|exact Hpl|recorded_type| |exact Hstep].
  intros orch' _. by apply move_blocked.
Qed.

(** A passed preflight is recorded, and the occurrence waits for approval or is ready. *)
Lemma passed_moves db id o s t context s1 pl at_ u db1 :
  record_occurrence id "scheduler.preflight.passed" pl at_ (with_state id o s1 db) = Ok (u, db1) →
  sched_inv db → occurrences db !! id = Some o → ostatus o ≠ OccurrenceStatus.SKIPPED →
  schedule_of db o = Some s → templates db !! sch_template_id s = Some t → launchable db s t o context →
  "occurrence_id" ∉ pl.*1 →
  ∃ l', db1 = put_ledger l' (with_state id o s1 db) ∧ recorded db1 id "scheduler.preflight.passed" ∧
    ∀ s2, occ_status s2 = ostatus o ∨
      occ_status s2 = OccurrenceStatus.WAITING_APPROVAL ∧
        launch_mode s = value LaunchMode.PREFLIGHT_THEN_APPROVAL →
      kept o s2 → sched_steps db (put_ledger l' (with_state id o s2 db)).
Proof.
  intros E Hinv Ho Hne Hs Ht Hl Hpl.
  destruct (record_with _ _ _ _ _ _ _ _ _ (inv_key _ _ _ (inv_occ _ Hinv _ _ Ho)) Ho E Hpl) as (l' & -> & Henv & Hrec); [recorded_type|].
  exists l'. split; [done|]. split; [done|]. intros s2 Hs2 Hk2. apply rtc_once.
  apply (move_to _ _ _ _ "scheduler.preflight.passed"); [done..|]. intros orch' _. by eapply move_passed.
Qed.

Ltac blocked E :=
  match type of E with record_occurrence _ _ _ _ (with_state _ _ ?s _) = _ =>
    eapply (block_moves _ _ _ s); [done|done|done|done|split; reflexivity| |exact E]; payload_keys
  end.

Lemma preflight_moves tenant_id id context granted now at_ :
  tx_moves (λ db, not_skipped id db ∧ if granted : bool then decided id db else unattended id db)
    (preflight_tx tenant_id id context granted now at_) (λ r db, r = None → ready id db).
Proof.
  intros db a db' Hinv [(o & Ho & Hne) Hmay] E. unfold preflight_tx in E.
  apply tx_bind_Ok in E as (db0 & s1 & [-> ->]%gets_Ok & E).
  apply tx_bind_Ok in E as (o' & s1 & [Hg ->]%some_or_raise_Ok & E).
  apply get_occurrence_Some in Hg as [Ho' Hten]. rewrite Ho in Ho'. injection Ho' as <-.
  destruct (get_schedule db tenant_id (occ_schedule_id (ospec o))) as [s|] eqn:Es; cbn [mbind option_bind] in E;
    [destruct (get_template db tenant_id (sch_template_id s)) as [t|] eqn:Et|].
  2, 3: rewrite (save_first _ _ o), save_with in E by done;
    apply tx_bind_Ok in E as ([] & s1 & E & [-> ->]%tx_ret_Ok); split; [|done];
    blocked E.
  apply get_schedule_Some in Es as [Es Est]. apply get_template_Some in Et as [Et _].
  rewrite (save_first _ _ o), save_with in E by done.
  destruct (report_passed (evaluate db s t o context now)) eqn:Hp; cbn [negb] in E.
  2: { rewrite !save_with in E. apply tx_bind_Ok in E as ([] & s1 & E & [-> ->]%tx_ret_Ok). split; [|done].
       blocked E. }
  apply passed_launchable in Hp. apply tx_bind_Ok in E as ([] & db1 & E1 & E).
  destruct (passed_moves _ _ _ _ _ _ _ _ _ _ _ E1 Hinv Ho Hne Es Et Hp) as (l' & -> & Hrec & Hmove); [payload_keys|].
  destruct (bool_decide_reflect (launch_mode s = value LaunchMode.PREFLIGHT_THEN_APPROVAL)) as [Em|Em];
    destruct granted; cbn [andb negb] in E.
  2: { change (put_ledger l' (with_state id o ?s db)) with (with_state id o s (put_ledger l' db)) in E.
       rewrite !save_with in E. apply tx_ret_Ok in E as [-> ->]. split; [|done].
       apply Hmove; [by right|split; reflexivity]. }
  all: apply tx_ret_Ok in E as [-> ->]; split; [apply Hmove; [by left|split; reflexivity]|intros _].
  all: eexists; split; [simpl; apply lookup_insert_eq|]; split; [done|].
  all: split; [unfold oid; simpl; fold (oid o); by rewrite (inv_key _ _ _ (inv_occ _ Hinv _ _ Ho))|].
  - left. destruct Hmay as (x & Hx & ?). rewrite Ho in Hx. by injection Hx as <-.
  - left. destruct Hmay as (x & Hx & ?). rewrite Ho in Hx. by injection Hx as <-.
  - right. exists s. split; [done|]. destruct Hmay as (x & s' & Hx & Hs' & Hm). rewrite Ho in Hx. injection Hx as <-.
    unfold schedule_of in Hs'. rewrite Es in Hs'. injection Hs' as <-. rewrite !elem_of_cons, elem_of_nil in Hm. naive_solver.
Qed.

Lemma approve_moves tenant_id id d now : truthy (Some (decider_id d)) = true →
  tx_moves (λ _, True) (approve_tx tenant_id id d now)
    (λ r db, r = None → not_skipped id db ∧ decided id db).
Proof.
  intros Hd db a db' Hinv _ E. unfold approve_tx in E.
  apply tx_bind_Ok in E as (db0 & s1 & [-> ->]%gets_Ok & E).
  apply tx_bind_Ok in E as (o & s1 & [[Ho _]%get_occurrence_Some ->]%some_or_raise_Ok & E).
  case_decide; [by apply tx_ret_Ok in E as [-> ->]|].
  apply tx_bind_Ok in E as ([] & s1 & [_ ->]%require_Ok & E).
  apply tx_bind_Ok in E as ([] & s1 & [Hw ->]%require_Ok & E). apply bool_decide_eq_true in Hw.
  rewrite (save_first _ _ o), save_with in E by done.
  apply tx_bind_Ok in E as ([] & s1 & E & [-> ->]%tx_ret_Ok).
  edestruct moved as (Hs & Ho' & _); [exact Hinv|exact Ho|exact E|payload_keys|recorded_type| |].
  - intros orch' _. by apply move_approved.
  - split; [by apply rtc_once|]. intros _. split; (eexists; split; [exact Ho'|]); [|done].
    unfold ostatus in *. simpl. congruence.
Qed.

Lemma cancel_moves tenant_id id d now : truthy (Some (decider_id d)) = true →
  tx_moves (λ _, True) (cancel_tx tenant_id id d now) (λ _ _, True).
Proof.
  intros Hd db a db' Hinv _ E. unfold cancel_tx in E.
  apply tx_bind_Ok in E as (db0 & s1 & [-> ->]%gets_Ok & E).
  apply tx_bind_Ok in E as (o & s1 & [[Ho _]%get_occurrence_Some ->]%some_or_raise_Ok & E).
  apply tx_bind_Ok in E as ([] & s1 & [Hst ->]%require_Ok & E).
  apply negb_true_iff, bool_decide_eq_false in Hst.
  rewrite (save_first _ _ o), !save_with in E by done.
  apply tx_bind_Ok in E as ([] & db1 & E1 & E). unfold reading in E. inv_tx. split; [|done]. apply rtc_once.
  edestruct moved as [Hs _]; [exact Hinv|exact Ho|exact E1|payload_keys|recorded_type| |exact Hs].
  intros orch' _. by apply move_cancelled.
Qed.

Lemma failed_moves tenant_id id error now at_ :
  tx_moves (not_skipped id) (launch_failed_tx tenant_id id error now at_) (λ _ _, True).
Proof.
  intros db a db' Hinv (o & Ho & Hne) E. unfold launch_failed_tx in E.
  apply tx_bind_Ok in E as (db0 & s1 & [-> ->]%gets_Ok & E).
  destruct (get_occurrence db tenant_id id) as [o'|] eqn:Hg; [|by apply tx_ret_Ok in E as [_ ->]].
  apply get_occurrence_Some in Hg as [Ho' _]. rewrite Ho in Ho'. injection Ho' as <-.
  rewrite (save_first _ _ o), !save_with in E by done.
  apply tx_bind_Ok in E as (e & s1 & [_ ->]%from_res_Ok & E). rewrite save_with in E. split; [|done].
  apply rtc_once.
  edestruct moved as [Hs _]; [exact Hinv|exact Ho|exact E|payload_keys|recorded_type| |exact Hs].
  intros orch' _. by apply move_failed.
Qed.

(** The occurrence has the engagement, and the engagement runs. *)
Definition bound (id e : string) (db : SchedDB) : Prop :=
  e ≠ "" ∧ ∃ o, occurrences db !! id = Some o ∧ occ_engagement_id (ostate o) = Some e.
Definition running (tenant_id e : string) (db : SchedDB) : Prop :=
  started (orch db) e ∧ has_tasks (orch db) tenant_id e.

(** The engagement is in the orchestrator's tables. *)
Definition present (tenant_id e : string) (db : SchedDB) : Prop :=
  ∃ g, engagements (orch db) !! e = Some g ∧ eng_tenant_id g = tenant_id.

Lemma stable_present tenant_id e : stable (present tenant_id e).
Proof.
  intros db db' Hl (g & Hg & Ht). destruct (kept_engagements _ _ (lasts_orch _ _ Hl) _ _ Hg) as (g' & Hg' & Hc & _).
  unfold eng_columns in Hc. injection Hc as ??????????. exists g'. split; congruence.
Qed.
Lemma stable_bound id e : stable (bound id e).
Proof.
  intros db db' Hl (Hne & o & (o' & Ho' & _ & Hst)%(lasts_occ _ _ Hl) & He). split; [done|]. exists o'.
  split; [done|]. by apply (lasts_engagement _ _ Hst).
Qed.

Lemma completed_moves tenant_id id e now at_ :
  tx_moves (λ db, ready id db ∧ bound id e db ∧ running tenant_id e db)
    (launch_completed_tx tenant_id id e now at_) (λ _ _, True).
Proof.
  intros db a db' Hinv ((o & Ho & Hne & Hc) & (_ & x & Hx & He) & Hrun) E. unfold launch_completed_tx in E.
  rewrite Ho in Hx. injection Hx as <-. split; [|done].
  apply tx_bind_Ok in E as (db0 & s1 & [-> ->]%gets_Ok & E).
  apply tx_bind_Ok in E as (o' & s1 & [[Ho' Ht]%get_occurrence_Some ->]%some_or_raise_Ok & E).
  rewrite Ho in Ho'. injection Ho' as <-. case_decide; [by apply tx_ret_Ok in E as [_ ->]|].
  rewrite (save_first _ _ o), !save_with in E by done. apply rtc_once.
  edestruct moved as [Hs _]; [exact Hinv|exact Ho|exact E|payload_keys|recorded_type| |exact Hs].
  intros orch' _. subst tenant_id. apply (move_completed _ _ _ _ e); [|done..].
  rewrite !not_elem_of_cons. by split_and!; [..|apply not_elem_of_nil].
Qed.

(** *** The first transaction of a launch *)

Lemma add_engagement_Ok e db u db' : add_engagement e db = Ok (u, db') →
  engagements (orch db) !! engagement_id e = None ∧
  db' = set_orch (set_engagements (<[engagement_id e := e]> (engagements (orch db))) (orch db)) db.
Proof.
  unfold add_engagement. intros E.
  apply tx_bind_Ok in E as (db0 & s1 & [-> ->]%gets_Ok & E).
  apply tx_bind_Ok in E as ([] & s1 & [Hr ->]%require_Ok & ->%modify_Ok). split; [|done].
  unfold engagement_refused in Hr. rewrite negb_true_iff, !orb_false_iff in Hr.
  destruct Hr as ((((Hr & _) & _) & _) & _). apply bool_decide_eq_false in Hr.
  by apply eq_None_not_Some.
Qed.

Lemma engagement_moves db tenant_id e g u db1 :
  engagement_id g = e → eng_tenant_id g = tenant_id → eng_status g = EngagementStatus.PLANNED →
  (match find_engagement db tenant_id e with Some _ => mret tt | None => add_engagement g end) db = Ok (u, db1) →
  ∃ o1 g', db1 = set_orch o1 db ∧ steps (orch db) o1 ∧ (reachable (orch db) → reachable o1) ∧
    engagements o1 !! e = Some g' ∧ eng_tenant_id g' = tenant_id ∧
    (engagements (orch db) !! e = None → g' = g) ∧
    (∀ x, engagements (orch db) !! x = None → is_Some (engagements o1 !! x) → x = e).
Proof.
  intros <- Ht Hp E. unfold find_engagement in E.
  destruct (get_engagement (orch db) tenant_id (engagement_id g)) as [g'|] eqn:Hg.
  - apply tx_ret_Ok in E as [_ ->]. apply get_engagement_Some in Hg as [Hg ?].
    exists (orch db), g'. rewrite set_orch_id. split_and!; try done; [congruence|].
    intros x Hx [y Hy]. congruence.
  - apply add_engagement_Ok in E as [Hnone ->]. eexists _, g. split; [done|]. split_and!.
    + apply (steps_one 0). by eapply (step_create _ 0 _ _ (engagement_id g) g).
    + intros Hr. by apply reachable_create.
    + simpl. by rewrite lookup_insert_eq.
    + done.
    + done.
    + simpl. intros x Hx Hs. destruct (decide (x = engagement_id g)) as [|Hne]; [done|].
      rewrite lookup_insert_ne in Hs by done. rewrite Hx in Hs. by apply is_Some_None in Hs.
Qed.

Lemma started_moves tenant_id id now at_ :
  tx_moves (ready id) (launch_started_tx tenant_id id now at_)
    (λ r db, match r with
             | Some (e, w) => WorkflowDefinition_valid w = true ∧ bound id e db ∧ present tenant_id e db
             | None => True
             end).
Proof.
  intros db a db' Hinv (o & Ho & Hne & Hc) E. unfold launch_started_tx in E.
  pose proof (inv_occ _ Hinv _ _ Ho) as Hi. pose proof (inv_key _ _ _ Hi) as Hid.
  apply tx_bind_Ok in E as (db0 & s1 & [-> ->]%gets_Ok & E).
  apply tx_bind_Ok in E as (o' & s1 & [[Ho' Ht]%get_occurrence_Some ->]%some_or_raise_Ok & E).
  rewrite Ho in Ho'. injection Ho' as <-. case_decide as Hl; [by apply tx_ret_Ok in E as [-> ->]|].
  apply tx_bind_Ok in E as ([] & s1 & [Hst ->]%require_Ok & E).
  apply negb_true_iff, bool_decide_eq_false in Hst.
  apply tx_bind_Ok in E as (s & s1 & [_ ->]%some_or_raise_Ok & E).
  apply tx_bind_Ok in E as (t & s1 & [_ ->]%some_or_raise_Ok & E).
  apply tx_bind_Ok in E as (w & s1 & [Hw%parse_workflow_valid ->]%from_res_Ok & E).
  rewrite <- Hid, (str_or_engagement db), Hid in E by (by rewrite Hid).
  apply tx_bind_Ok in E as ([] & db1 & E1 & E).
  apply engagement_moves in E1 as (o1 & g & -> & Hsteps & Hreach & Hg & Hgt & Hnewg & Hnew); [|done..].
  apply tx_bind_Ok in E as ([] & s1 & [Hfree%negb_true_iff ->]%require_Ok & E).
  rewrite (save_first _ _ o), !save_with in E by done.
  apply tx_bind_Ok in E as (eligible & s1 & [_ ->]%from_res_Ok & E). rewrite save_with in E.
  apply tx_bind_Ok in E as ([] & db2 & E2 & [-> ->]%tx_ret_Ok).
  destruct (record_with _ _ _ _ (set_orch o1 db) _ _ _ _ Hid Ho E2) as (l' & -> & Henv & Hrec);
    [payload_keys|recorded_type|].
  split.
  - apply rtc_once, (move_over _ _ _ _ _ "scheduler.launch.started"); try done.
    + intros orch' Heng. apply (move_started _ _ _ _ (_engagement_id id) g); try done.
      * rewrite !not_elem_of_cons in *. by intuition.
      * by rewrite <- Hid, (str_or_engagement db) by (by rewrite Hid).
      * by rewrite Hid.
      * by rewrite Heng.
      * congruence.
      * intros Hnone. by rewrite (Hnewg Hnone).
    + intros x Hx Hs. by rewrite (Hnew x Hx Hs).
  - split; [done|]. split; [split; [done|]|].
    + eexists. split; [simpl; by rewrite lookup_insert_eq|done].
    + by exists g.
Qed.

(** *** Materialisation *)

Lemma tx_moves_bind {A B} Pre (m : SchedTx A) Mid (f : A → SchedTx B) Post :
  tx_moves Pre m Mid → (∀ a, tx_moves (Mid a) (f a) Post) → tx_moves Pre (mbind (M:=SchedTx) f m) Post.
Proof.
  intros Hm Hf db b db' Hinv Hpre (a & db1 & E1 & E2)%tx_bind_Ok.
  destruct (Hm _ _ _ Hinv Hpre E1) as [Hs1 Hmid].
  destruct (Hf a _ _ _ (sched_inv_steps _ _ Hs1 Hinv) Hmid E2) as [Hs2 Hpost].
  split; [by etrans|done].
Qed.
Lemma tx_moves_ret {A} (a : A) Post : tx_moves (Post a) (mret (M:=SchedTx) a) Post.
Proof. intros db b db' _ Hp [-> ->]%tx_ret_Ok. by split. Qed.
Lemma tx_moves_reads {A} Pre (m : SchedTx A) : reads_only m → tx_moves Pre m (λ _, Pre).
Proof. intros Hm db a db' _ Hp ->%Hm. by split. Qed.

Lemma tx_moves_pre {A} (Pre Pre' : SchedDB → Prop) (m : SchedTx A) Post :
  (∀ db, Pre db → Pre' db) → tx_moves Pre' m Post → tx_moves Pre m Post.
Proof. intros Hp Hm db a db' Hinv Hpre E. by eapply Hm; [|apply Hp|]. Qed.

(** The schedule being evaluated is the row of the table. *)
Definition current (s : AuditSchedule) (db : SchedDB) : Prop := schedules db !! schedule_id s = Some s.

Lemma cursor_step db c : sched_step db (set_cursors c db).
Proof. by apply step_cursor. Qed.

Lemma acquire_moves s Q owner now n :
  (∀ db c, Q db → Q (set_cursors c db)) →
  tx_moves Q (acquire_cursor_lease s owner now n) (λ _, Q).
Proof.
  intros HQ. unfold acquire_cursor_lease. apply (tx_moves_bind _ _ (λ _, Q)).
  - intros db a db' Hinv Hq E. unfold get_or_create_cursor in E.
    apply tx_bind_Ok in E as (db0 & s1 & [-> ->]%gets_Ok & E). destruct (cursors db !! schedule_id s).
    + apply tx_ret_Ok in E as [_ ->]. by split.
    + apply modify_Ok in E as ->. split; [apply rtc_once, cursor_step|by apply HQ].
  - intros _. apply (tx_moves_bind _ _ (λ _, Q)); [apply tx_moves_reads; auto with tx|]. intros expires.
    apply (tx_moves_bind _ _ (λ _, Q)); [apply tx_moves_reads; apply reads_only_gets|]. intros db0.
    case_match; [|apply tx_moves_reads; auto with tx]. case_match; [|apply tx_moves_reads; auto with tx].
    apply (tx_moves_bind _ _ (λ _, Q)); [|intros ?; apply tx_moves_reads; auto with tx].
    intros db a db' Hinv Hq ->%modify_Ok. split; [apply rtc_once, cursor_step|by apply HQ].
Qed.
Lemma release_moves Q id c at_ next :
  (∀ db c, Q db → Q (set_cursors c db)) → tx_moves Q (release_cursor id c at_ next) (λ _, Q).
Proof.
  intros HQ db a db' Hinv Hq E. apply tx_bind_Ok in E as (db0 & s1 & [-> ->]%gets_Ok & ->%modify_Ok).
  split; [apply rtc_once, cursor_step|by apply HQ].
Qed.

Lemma insert_occurrence_Ok o db u db' : insert_occurrence o db = Ok (u, db') →
  occurrences db !! oid o = None ∧ db' = set_occurrences (<[oid o := o]> (occurrences db)) db.
Proof.
  unfold insert_occurrence. intros E.
  apply tx_bind_Ok in E as (db0 & s1 & [-> ->]%gets_Ok & E).
  apply tx_bind_Ok in E as ([] & s1 & [Hr ->]%require_Ok & ->%modify_Ok). split; [|done].
  unfold occurrence_refused in Hr. rewrite negb_true_iff, !orb_false_iff in Hr.
  destruct Hr as ((((Hr & _) & _) & _) & _). apply bool_decide_eq_false in Hr. by apply eq_None_not_Some.
Qed.

Lemma get_by_due_Some db tenant_id id due o : sched_inv db →
  get_occurrence_by_due db tenant_id id due = Some o →
  occurrences db !! oid o = Some o ∧ due_at tenant_id id due o.
Proof.
  intros Hinv ((i & x) & Hf & ->)%fmap_Some. apply list_find_Some in Hf as (Hx & Hd & _). split; [|done].
  apply list_elem_of_lookup_2 in Hx. apply list_elem_of_fmap in Hx as ((k & y) & -> & Hy%elem_of_map_to_list).
  simpl. by rewrite (inv_key _ _ _ (inv_occ _ Hinv _ _ Hy)).
Qed.

(** A schedule makes one occurrence for a due instant, and finds it afterwards. *)
Lemma create_effect s due forced now db r db' :
  sched_inv db → _create_occurrence s due forced now db = Ok (r, db') →
  occurrences db' !! oid (fst r) = Some (fst r) ∧ due_at (sch_tenant_id s) (schedule_id s) due (fst r) ∧
  (db' = db ∧ snd r = false ∨
   snd r = true ∧ occurrences db !! oid (fst r) = None ∧ initial_state (ostate (fst r)) ∧
   oid (fst r) = _occurrence_id (schedule_id s) due ∧ (forced = true → ostatus (fst r) = OccurrenceStatus.SKIPPED) ∧
   ∃ l', db' = put_ledger l' (set_occurrences (<[oid (fst r) := fst r]> (occurrences db)) db) ∧
     ledger_env (get_ledger db) l' ∧ recorded db' (oid (fst r)) "scheduler.occurrence.created").
Proof.
  intros Hinv E. unfold _create_occurrence in E.
  apply tx_bind_Ok in E as (db0 & s1 & [-> ->]%gets_Ok & E).
  destruct (get_occurrence_by_due db _ _ due) as [o|] eqn:Hd.
  { apply tx_ret_Ok in E as [-> ->]. apply get_by_due_Some in Hd as [? ?]; [|done]. auto. }
  apply tx_bind_Ok in E as (t & s1 & [_ ->]%some_or_raise_Ok & E).
  apply tx_bind_Ok in E as ((((eligible & first) & last) & blackout) & s1 & [_ ->]%from_res_Ok & E).
  destruct (initial_status forced blackout) as [status why] eqn:Hst.
  apply tx_bind_Ok in E as ([] & db1 & [Hnone ->]%insert_occurrence_Ok & E).
  apply tx_bind_Ok in E as ([] & db2 & E & [-> ->]%tx_ret_Ok).
  match type of E with record_occurrence (oid ?x) _ _ _ _ = _ => set (o := x) in * end.
  destruct (record_occurrence_Ok _ _ _ _ _ _ _ _ E (lookup_insert_eq _ _ _)) as (l' & -> & Henv & Hrec);
    [payload_keys|recorded_type|].
  split; [by simpl; rewrite lookup_insert_eq|]. split; [done|]. right. split; [done|]. split; [done|].
  unfold initial_status in Hst. split; [|split; [done|split]].
  - split; [|done]. simpl. rewrite !elem_of_cons. repeat case_match; simplify_eq; auto.
  - intros ->. unfold ostatus. simpl. by simplify_eq.
  - by exists l'.
Qed.

Lemma create_moves s due forced now :
  tx_moves (current s) (_create_occurrence s due forced now)
    (λ r db, current s db ∧ occurrences db !! oid (fst r) = Some (fst r)).
Proof.
  intros db r db' Hinv Hs (Ho & (Ht & Hsid & Hdue) & Hr)%create_effect; [|done].
  destruct Hr as [[-> _]|(_ & Hnone & Hinit & Hid & _ & l' & -> & Henv & Hrec)]; [done|].
  split; [|done]. apply rtc_once. eapply step_materialise with (s := s); try done.
  - congruence.
  - unfold schedule_of. by rewrite Hsid.
  - split; [by apply steps_ledger|]. intros Hr. by apply reachable_env.
Qed.

Lemma materialize_one_moves s forced at_ r due :
  tx_moves (λ db, current s db ∧ Forall (λ id, not_skipped id db) (candidate_ids r))
    (materialize_one s forced at_ r due)
    (λ r' db, current s db ∧ Forall (λ id, not_skipped id db) (candidate_ids r')).
Proof.
  intros db r' db' Hinv [Hs Hc] E. unfold materialize_one in E.
  apply tx_bind_Ok in E as ([o was] & db1 & E1 & E).
  eapply create_moves in E1 as (Hsteps & Hs' & Ho); [|done..]. simpl in Ho.
  assert (Hc' : Forall (λ id, not_skipped id db1) (candidate_ids r)).
  { eapply Forall_impl; [exact Hc|]. intros id Hid. eapply stable_not_skipped; [by eapply steps_last|done]. }
  assert (Hn : ostatus o ≠ OccurrenceStatus.SKIPPED →
    Forall (λ id, not_skipped id db1) (candidate_ids r ++ [oid o])).
  { intros Hne. apply Forall_app. split; [done|]. apply Forall_singleton. by exists o. }
  destruct (ostatus o) eqn:Est; apply tx_ret_Ok in E as [-> ->]; split_and!; simpl; auto; by apply Hn.
Qed.

Lemma materialize_all_moves s forced at_ dues : ∀ r,
  tx_moves (λ db, current s db ∧ Forall (λ id, not_skipped id db) (candidate_ids r))
    (materialize_all s forced at_ r dues)
    (λ r' db, Forall (λ id, not_skipped id db) (candidate_ids r')).
Proof.
  induction dues as [|due dues IH]; intros r; simpl.
  - intros db r' db' _ [_ Hc] [-> ->]%tx_ret_Ok. by split.
  - eapply tx_moves_bind; [apply materialize_one_moves|apply IH].
Qed.

Lemma materialize_moves tenant_id id now worker_id n at_ :
  tx_moves (λ _, True) (_materialize_due_occurrences tenant_id id now worker_id n at_)
    (λ r db, Forall (λ i, not_skipped i db) (candidate_ids r)).
Proof.
  intros db r db' Hinv _ E. unfold _materialize_due_occurrences in E.
  apply tx_bind_Ok in E as (db0 & s1 & [-> ->]%gets_Ok & E).
  apply tx_bind_Ok in E as (s & s1 & [[Hs _]%get_schedule_Some ->]%some_or_raise_Ok & E).
  assert (Hcur : current s db) by (unfold current; by rewrite (inv_schedules _ Hinv _ _ Hs)).
  match type of E with ?m _ = _ =>
    cut (tx_moves (current s) m (λ r db, Forall (λ i, not_skipped i db) (candidate_ids r)))
  end; [intros Hgen; by eapply Hgen|]. clear.
  eapply tx_moves_bind; [by apply acquire_moves|]. intros [c|].
  2: { intros db r db' _ _ [-> ->]%tx_ret_Ok. by split; [|apply Forall_nil]. }
  eapply tx_moves_bind; [apply tx_moves_reads; auto with tx|]. intros [start stop].
  case_match.
  - eapply tx_moves_bind; [apply tx_moves_reads; auto with tx|]. intros next.
    eapply tx_moves_bind; [by apply release_moves|]. intros [].
    intros db r db' _ _ [-> ->]%tx_ret_Ok. by split; [|apply Forall_nil].
  - eapply tx_moves_bind; [apply tx_moves_reads; auto with tx|]. intros dues.
    eapply tx_moves_bind; [apply tx_moves_reads; auto with tx|]. intros [selected forced].
    eapply tx_moves_bind.
    { intros db r db' Hinv Hs E. eapply (materialize_all_moves s forced at_ _ nothing_materialized);
        [done|split; [done|apply Forall_nil; done]|exact E]. }
    intros r. cbn beta. eapply tx_moves_bind; [apply tx_moves_reads; auto with tx|]. intros next.
    eapply tx_moves_bind; [by apply release_moves|]. intros [].
    apply (tx_moves_ret r (λ r db, Forall (λ i, not_skipped i db) (candidate_ids r))).
Qed.
End transactions.
