(* ===== verification/SchedBehaviour.v ===== *)
(** * Scheduling: what an evaluation makes

    The functional behaviour of materialisation: how the missed instants are divided,
    which instants a window has, which occurrences they leave in the table, and what
    becomes of the cursor. *)

From S2P Require Import Prelude PyFloat PyTime Ledger PyText Materiality Quality SchedDefs SchedCalendar.
From S2P Require Import OrchDefs OrchStore OrchCompiler Orchestrator OrchMachine OrchRefinement OrchStable.
From S2P Require Import SchedStore SchedPreflight Scheduler SchedMachine SchedInvariants SchedRefinement.
Local Open Scope Z_scope.

(** ** Missed occurrences *)

Lemma but_last_items_app {A} n (l : list A) :
  (if n <? zlen l then but_last_items n l else []) ++ last_items n l = l.
Proof.
  unfold but_last_items, last_items, zlen. destruct (Z.ltb_spec n (Z.of_nat (length l))), (Z.ltb_spec 0 n);
    rewrite ?take_drop; try done.
  - by replace (length l - Z.to_nat n)%nat with 0%nat by lia.
  - destruct l; [by rewrite drop_nil|simpl in *; lia].
Qed.

(** Every due instant is either launched or skipped, the earlier ones being skipped. *)
Lemma select_splits s dues selected forced :
  _select_missed_occurrences s dues = Ok (selected, forced) → forced ++ selected = dues.
Proof.
  unfold _select_missed_occurrences. destruct dues as [|d l]; [by intros [= <- <-]|].
  set (dues := d :: l). destruct (of_value (missed_occurrence_policy s)) as [[| |]|]; intros [= <- <-].
  - apply but_last_items_app.
  - rewrite <- (but_last_items_app 1 dues) at 3. destruct (Z.ltb_spec 1 (zlen dues)); [done|].
    unfold but_last_items, zlen in *. cbn [Z.ltb]. replace (length dues - Z.to_nat 1)%nat with 0%nat; [done|].
    unfold dues in *. simpl in *. lia.
  - apply app_nil_r.
Qed.

(** What the catch-up policies ask: of [n] instants due, how many of the earliest are
    passed over. *)
Inductive passes_over (s : AuditSchedule) (n : Z) : Z → Prop :=
  | passes_all (Hp : missed_occurrence_policy s = "skip") : passes_over s n n
  | passes_all_but_latest (Hp : missed_occurrence_policy s = "launch_latest") : passes_over s n (n - 1)
  | passes_beyond_limit (Hp : missed_occurrence_policy s = "launch_all") : passes_over s n (Z.max 0 (n - catch_up_limit s)).

Lemma select_passes s dues selected forced : 0 < catch_up_limit s → dues ≠ [] →
  _select_missed_occurrences s dues = Ok (selected, forced) →
  ∃ k, passes_over s (zlen dues) k ∧ forced = take (Z.to_nat k) dues.
Proof.
  intros Hl Hne E. unfold _select_missed_occurrences in E. destruct dues as [|d l] eqn:Ed; [done|]. rewrite <- Ed in *. clear Ed d l.
  destruct (of_value (missed_occurrence_policy s)) as [p|] eqn:Ep; [|done]. apply of_value_Some in Ep.
  destruct p; injection E as _ <-.
  - exists (Z.max 0 (zlen dues - catch_up_limit s)). split; [by apply passes_beyond_limit|]. unfold but_last_items, zlen.
    rewrite (proj2 (Z.ltb_lt 0 _)) by done. destruct (Z.ltb_spec (catch_up_limit s) (Z.of_nat (length dues))); [f_equal; lia|].
    by replace (Z.to_nat _) with 0%nat by lia.
  - exists (zlen dues - 1). split; [by apply passes_all_but_latest|]. unfold but_last_items, zlen. cbn [Z.ltb Z.compare]. f_equal. lia.
  - exists (zlen dues). split; [by apply passes_all|]. rewrite take_ge; [done|]. unfold zlen. lia.
Qed.

Section behaviour.
Context `{UuidSource} `{Sha256} `{TimeZones} `{Dateutil} `{Pydantic} `{CursorSession}.

(** ** The instants of a window *)

(** The instants a recurrence of the schedule gives after [start] and up to [stop]:
    what the recurrence library gives between them in the zone of the schedule, less
    what is not after the start on its wall clock; no more than 1000 of them. *)
Definition due_between (s : AuditSchedule) (start stop : datetime) (dues : list datetime) : Prop :=
  ∃ a b c values, zone_known (sch_timezone s) = true ∧ to_zone (ZoneInfo (sch_timezone s)) (effective_from s) = Ok a ∧
    to_zone (ZoneInfo (sch_timezone s)) start = Ok b ∧ to_zone (ZoneInfo (sch_timezone s)) stop = Ok c ∧
    rrule_between (_normalize_rule (recurrence_rule s)) a b c = Some values ∧
    Forall2 (λ v t, to_utc v = Ok t) (filter (λ v, later v b = true) values) dues ∧ (length dues ≤ 1000)%nat.

Lemma map_res_Forall2 {A B} (f : A → Res B) l l' : map_res f l = Ok l' → Forall2 (λ x y, f x = Ok y) l l'.
Proof.
  revert l'. induction l as [|x l IH]; intros l' E; cbn in E; [injection E as <-; constructor|].
  destruct (f x) eqn:Ex; [|done]. cbn in E. destruct (map_res f l) eqn:El; [|done]. injection E as <-. constructor; auto.
Qed.
Lemma occurrences_due s start stop dues :
  occurrences_between (recurrence_rule s) (sch_timezone s) (effective_from s) start stop 1000 = Ok dues → due_between s start stop dues.
Proof.
  unfold occurrences_between, timezone, due_between. cbn [Z.ltb Z.compare Pos.compare Pos.compare_cont]. intros E.
  destruct (zone_known _); [|done]. cbn [res_bind] in E. destruct (to_zone _ (effective_from s)) as [a|]; [|done]. cbn [res_bind] in E.
  destruct (to_zone _ start) as [b|]; [|done]. cbn [res_bind] in E. destruct (to_zone _ stop) as [c|]; [|done]. cbn [res_bind] in E.
  destruct (rrule_between _ _ _ _) as [values|] eqn:Ev; [|done]. cbn [recurrence_error res_bind] in E.
  destruct (Z.ltb_spec 1000 (Z.of_nat (length (filter (λ v, later v b = true) values)))); [done|].
  exists a, b, c, values. apply map_res_Forall2 in E. split_and!; try done. rewrite <- (Forall2_length _ _ _ E). lia.
Qed.

(** ** The occurrences a window leaves *)

(** A new occurrence: its period and the instant it is eligible at are what its due
    instant resolves to, and it starts skipped when it is passed over, and otherwise as
    the blackout of its day has it. *)
Definition made (s : AuditSchedule) (due : datetime) (passed : bool) (o : ScheduleOccurrence) : Prop :=
  ∃ blackout, resolve_due s due = Ok (occ_eligible_at (ostate o), occ_period_start (ospec o), occ_period_end (ospec o), blackout) ∧
    ostatus o = if passed then OccurrenceStatus.SKIPPED else
      match action blackout with
      | action_skip => OccurrenceStatus.SKIPPED
      | action_delay => OccurrenceStatus.DEFERRED
      | action_none => OccurrenceStatus.DUE
      end.
Lemma create_made s due forced now db o db' :
  sched_inv db → _create_occurrence s due forced now db = Ok ((o, true), db') → made s due forced o.
Proof.
  intros Hinv E. unfold _create_occurrence in E.
  apply tx_bind_Ok in E as (db0 & s1 & [-> ->]%gets_Ok & E).
  destruct (get_occurrence_by_due db _ _ due) as [x|]; [by apply tx_ret_Ok in E as [[=] _]|].
  apply tx_bind_Ok in E as (t & s1 & [_ ->]%some_or_raise_Ok & E).
  apply tx_bind_Ok in E as ((((eligible & first) & last) & blackout) & s1 & [Hr ->]%from_res_Ok & E).
  destruct (initial_status forced blackout) as [status why] eqn:Hst.
  apply tx_bind_Ok in E as ([] & db1 & _ & E). apply tx_bind_Ok in E as ([] & db2 & _ & [[= ->] _]%tx_ret_Ok).
  exists blackout. split; [done|]. unfold initial_status in Hst. unfold ostatus. cbn.
  destruct forced; [by injection Hst|]. by destruct (action blackout); injection Hst.
Qed.

(** From [db] to [db'] the due instants of [s] have become occurrences, each once;
    nothing else has changed in the table. *)
Record grown (s : AuditSchedule) (dues forced : list datetime) (db db' : SchedDB) : Prop := {
  grown_kept i o : occurrences db !! i = Some o → occurrences db' !! i = Some o;
  grown_new i o : occurrences db' !! i = Some o → occurrences db !! i = Some o ∨
    ∃ due, due ∈ dues ∧ due_at (sch_tenant_id s) (schedule_id s) due o ∧ initial_state (ostate o) ∧
      i = _occurrence_id (schedule_id s) due ∧ made s due (bool_decide (due ∈ forced)) o;
  grown_all due : due ∈ dues → ∃ o, occurrences db' !! oid o = Some o ∧
    due_at (sch_tenant_id s) (schedule_id s) due o
}.

Lemma create_grown s due forced now db r db' :
  sched_inv db → _create_occurrence s due (bool_decide (due ∈ forced)) now db = Ok (r, db') →
  grown s [due] forced db db' ∧ cursors db' = cursors db.
Proof.
  intros Hinv E. pose proof E as (Ho & Hd & Hr)%create_effect; [|done]. destruct r as [o0 was]. cbn [fst snd] in *.
  destruct Hr as [[-> _]|(-> & Hnone & Hinit & Hid & _ & l' & -> & _ & _)]; split; try done; split; simpl; try auto.
  - intros due' ->%list_elem_of_singleton. eauto.
  - intros i o Hi. rewrite lookup_insert_ne; [done|]. congruence.
  - intros i o [[<- <-]|[_ Hi]]%lookup_insert_Some; [right|by left]. exists due. split; [left|].
    split_and!; try done. by eapply create_made.
  - intros due' ->%list_elem_of_singleton. exists o0. split; [by rewrite lookup_insert_eq|done].
Qed.

Lemma grown_trans s d1 d2 forced db1 db2 db3 :
  grown s d1 forced db1 db2 → grown s d2 forced db2 db3 → grown s (d1 ++ d2) forced db1 db3.
Proof.
  intros [K1 N1 A1] [K2 N2 A2]. split; [by auto| |].
  - intros i o [Ho|(due & ? & ?)]%N2; [|right; exists due; split; [apply elem_of_app; by right|done]].
    apply N1 in Ho as [Ho|(due & ? & ?)]; [by left|right; exists due; split; [apply elem_of_app; by left|done]].
  - intros due [Hd|Hd]%elem_of_app; [|by auto]. apply A1 in Hd as (o & ? & ?). eauto.
Qed.

Definition rows (db : SchedDB) : Z := Z.of_nat (size (occurrences db)).

Lemma create_rows s due forced now db o was db' :
  sched_inv db → _create_occurrence s due forced now db = Ok ((o, was), db') →
  rows db' = rows db + if was then 1 else 0.
Proof.
  intros Hinv (_ & _ & Hr)%create_effect; [|done]. unfold rows.
  destruct Hr as [[-> Hw]|(Hw & Hnone & _ & _ & _ & l' & -> & _)]; simpl in Hw; rewrite Hw; [lia|].
  simpl. rewrite map_size_insert_None by done. lia.
Qed.

Lemma materialize_all_grown s forced at_ dues : ∀ r db r' db',
  sched_inv db → current s db → materialize_all s forced at_ r dues db = Ok (r', db') →
  grown s dues forced db db' ∧ cursors db' = cursors db ∧ created r' = created r + (rows db' - rows db).
Proof.
  induction dues as [|due dues IH]; intros r db r' db' Hinv Hs E; simpl in E.
  - apply tx_ret_Ok in E as [-> ->]. split; [|split; [done|lia]].
    split; try done; [by left|]. by intros due ?%elem_of_nil.
  - apply tx_bind_Ok in E as (r1 & db1 & E1 & E). unfold materialize_one in E1.
    apply tx_bind_Ok in E1 as ([o was] & db1' & E1 & E2).
    destruct (create_grown _ _ _ _ _ _ _ Hinv E1) as [Hg Hcur]. pose proof (create_rows _ _ _ _ _ _ _ _ Hinv E1) as Hrow.
    destruct (create_moves _ _ _ _ _ _ _ Hinv Hs E1) as (Hsteps & Hs1 & _).
    assert (db1' = db1 ∧ created r1 = created r + if was then 1 else 0) as [-> Hc].
    { by destruct (ostatus o); apply tx_ret_Ok in E2 as [-> ->]. }
    apply IH in E as (Hg2 & Hcur2 & Hc2); [|by eapply sched_inv_steps|done].
    split; [exact (grown_trans _ [due] _ _ _ _ _ Hg Hg2)|]. split; [congruence|lia].
Qed.

(** ** The transaction of a schedule *)

(** A lease of another worker that has not run out. *)
Definition held_by_another (worker : string) (now : datetime) (c : option ScheduleCursor) : Prop :=
  ∃ c' e, c = Some c' ∧ cur_lease_expires_at c' = Some e ∧ now < e ∧ cur_lease_owner c' ≠ Some worker.
(** Where the window starts, and where it stops. *)
Definition opens_at (s : AuditSchedule) (c : option ScheduleCursor) : datetime :=
  match c ≫= last_evaluated_at with Some t => t | None => effective_from s - 1 end.
Definition closes_at (s : AuditSchedule) (now : datetime) : datetime :=
  match effective_until s with Some u => Z.min now u | None => now end.
(** A cursor [old] after the evaluation: released, unless the session still had the
    instance that was read before the lease, in which a free lease is no change. *)
Record cursor_left (s : AuditSchedule) (worker : string) (now expires : datetime) (old : option ScheduleCursor) (c : ScheduleCursor) : Prop := {
  left_last : last_evaluated_at c = Some now;
  left_next : next_after (recurrence_rule s) (sch_timezone s) (effective_from s) (closes_at s now) = Ok (next_due_at c);
  left_owner : cur_lease_owner c =
    if instance_kept (schedule_id s) now && bool_decide ((old ≫= cur_lease_owner) = None) then Some worker else None;
  left_expires : cur_lease_expires_at c =
    if instance_kept (schedule_id s) now && bool_decide ((old ≫= cur_lease_expires_at) = None) then Some expires else None
}.

Lemma lease_free_held owner now c : lease_free owner now c = false ↔ held_by_another owner now (Some c).
Proof.
  unfold lease_free, held_by_another. rewrite orb_false_iff, bool_decide_eq_false. destruct (cur_lease_expires_at c) as [e|] eqn:E.
  - rewrite Z.leb_gt. naive_solver.
  - naive_solver.
Qed.
Lemma lease_free_unheld owner now c : lease_free owner now c = true → ¬ held_by_another owner now (Some c).
Proof. intros Hf Hh%lease_free_held. congruence. Qed.

(** The cursor that is there, or the one that is made. *)
Definition cursor_of (db : SchedDB) (s : AuditSchedule) : ScheduleCursor :=
  default (mkScheduleCursor (schedule_id s) (sch_tenant_id s) None None None None (wall_clock (get_ledger db)))
    (cursors db !! schedule_id s).

Lemma acquire_effect s owner now n db r db' :
  acquire_cursor_lease s owner now n db = Ok (r, db') →
  let c := cursor_of db s in let expires := now + n * 1000000 in
  held_by_another owner now (cursors db !! schedule_id s) ∧ r = None ∧ db' = db ∨
  ¬ held_by_another owner now (cursors db !! schedule_id s) ∧
  r = Some (if instance_kept (schedule_id s) now then c else lease_cursor owner expires now c) ∧
  ∃ m, db' = set_cursors m db ∧ m !! schedule_id s = Some (lease_cursor owner expires now c) ∧
    ∀ k, k ≠ schedule_id s → m !! k = cursors db !! k.
Proof.
  unfold acquire_cursor_lease, get_or_create_cursor, cursor_of. intros E.
  apply tx_bind_Ok in E as ([] & db1 & E1 & E).
  apply tx_bind_Ok in E1 as (db0 & s1 & [-> ->]%gets_Ok & E1).
  apply tx_bind_Ok in E as (e & s1 & [He ->]%from_res_Ok & E).
  apply tx_bind_Ok in E as (db0 & s1 & [-> ->]%gets_Ok & E).
  assert (e = now + n * 1000000) as -> by (unfold add_us in He; destruct (in_range _); [by injection He as <-|done]).
  destruct (cursors db !! schedule_id s) as [c|] eqn:Ec.
  - apply tx_ret_Ok in E1 as [_ ->]. rewrite Ec in E. cbn [default]. destruct (lease_free owner now c) eqn:Hf.
    + right. split; [by apply lease_free_unheld|]. apply tx_bind_Ok in E as ([] & s1 & ->%modify_Ok & [-> ->]%tx_ret_Ok). split; [done|].
      eexists. split; [done|]. split; [by rewrite lookup_alter_eq, Ec|]. intros k Hk. by rewrite lookup_alter_ne.
    + left. apply tx_ret_Ok in E as [-> ->]. split; [by apply lease_free_held|done].
  - apply modify_Ok in E1 as ->. cbn [cursors set_cursors] in E. rewrite lookup_insert_eq in E. cbn [lease_free cur_lease_expires_at orb] in E.
    right. split; [by intros (? & ? & [=] & _)|]. apply tx_bind_Ok in E as ([] & s1 & ->%modify_Ok & [-> ->]%tx_ret_Ok). split; [done|].
    eexists. split; [done|]. split; [cbn; by rewrite lookup_alter_eq, lookup_insert_eq|]. intros k Hk. cbn. by rewrite lookup_alter_ne, lookup_insert_ne.
Qed.

Lemma assigned_instant c new stored : (same_opt_instant c new = true → stored = c) → assigned same_opt_instant c new stored = new.
Proof.
  unfold assigned. destruct (same_opt_instant c new) eqn:E; [|done]. intros ->; [|done]. unfold same_opt_instant in E.
  destruct c, new; try done. by rewrite (same_instant_eq _ _ E).
Qed.
Lemma released_left s worker now n db next wall :
  let c := cursor_of db s in let expires := now + n * 1000000 in
  next_after (recurrence_rule s) (sch_timezone s) (effective_from s) (closes_at s now) = Ok next →
  cursor_left s worker now expires (cursors db !! schedule_id s)
    (released (if instance_kept (schedule_id s) now then c else lease_cursor worker expires now c) now next wall (lease_cursor worker expires now c)).
Proof.
  intros c expires Hn.
  assert (Ho : cur_lease_owner c = cursors db !! schedule_id s ≫= cur_lease_owner ∧
    cur_lease_expires_at c = cursors db !! schedule_id s ≫= cur_lease_expires_at) by (unfold c, cursor_of; by destruct (cursors db !! schedule_id s)).
  destruct Ho as [Ho He]. destruct (instance_kept (schedule_id s) now) eqn:Hkept; split; cbn; rewrite ?Hkept, <- ?Ho, <- ?He, ?assigned_instant by done; try done; unfold assigned, same_text, same_opt_instant; cbn;
    repeat case_bool_decide; try done; by destruct (cur_lease_expires_at c).
Qed.

(** An evaluation that commits. *)
Lemma materialize_effect tenant_id id now worker n at_ db r db' :
  sched_inv db → _materialize_due_occurrences tenant_id id now worker n at_ db = Ok (r, db') →
  ∃ s, get_schedule db tenant_id id = Some s ∧ let old := cursors db !! schedule_id s in
    (held_by_another worker now old ∧ r = nothing_materialized ∧ db' = db ∨
     ¬ held_by_another worker now old ∧
     (∃ c, cursors db' !! schedule_id s = Some c ∧ cursor_left s worker now (now + n * 1000000) old c) ∧
     (∀ k, k ≠ schedule_id s → cursors db' !! k = cursors db !! k) ∧
     if decide (closes_at s now ≤ opens_at s old) then r = nothing_materialized ∧ occurrences db' = occurrences db
     else ∃ dues selected forced,
       due_between s (opens_at s old) (closes_at s now) dues ∧ _select_missed_occurrences s dues = Ok (selected, forced) ∧
       grown s dues forced db db' ∧ created r = rows db' - rows db).
Proof.
  intros Hinv E. unfold _materialize_due_occurrences in E.
  apply tx_bind_Ok in E as (db0 & s1 & [-> ->]%gets_Ok & E).
  apply tx_bind_Ok in E as (s & s1 & [Hs ->]%some_or_raise_Ok & E). exists s. split; [done|]. cbv zeta.
  assert (Hcur : current s db).
  { apply get_schedule_Some in Hs as [Hs _]. unfold current. by rewrite (inv_schedules _ Hinv _ _ Hs). }
  apply tx_bind_Ok in E as (c & db1 & E1 & E).
  apply acquire_effect in E1 as [(Hh & -> & ->)|(Hh & -> & m & -> & Hm & Hk)]; [left|right].
  { by apply tx_ret_Ok in E as [-> ->]. }
  split; [done|]. apply tx_bind_Ok in E as ([start stop] & s1 & [Hwin ->]%from_res_Ok & E).
  assert (start = opens_at s (cursors db !! schedule_id s) ∧ stop = closes_at s now) as [-> ->].
  { unfold window_of in Hwin. assert (Hlast : ∀ c, c = (if instance_kept (schedule_id s) now then cursor_of db s else
      lease_cursor worker (now + n * 1000000) now (cursor_of db s)) → last_evaluated_at c = cursors db !! schedule_id s ≫= last_evaluated_at).
    { intros ? ->. unfold cursor_of. destruct (instance_kept _ _); by destruct (cursors db !! schedule_id s). }
    rewrite (Hlast _ eq_refl) in Hwin. unfold opens_at, closes_at. destruct (_ ≫= _); cbn in Hwin; [by injection Hwin as <- <-|].
    unfold add_us in Hwin. destruct (in_range _); [|done]. by injection Hwin as <- <-. }
  destruct (Z.leb_spec (closes_at s now) (opens_at s (cursors db !! schedule_id s))); [rewrite decide_True by done|rewrite decide_False by lia].
  - apply tx_bind_Ok in E as (next & s1 & [Hn ->]%from_res_Ok & E). apply tx_bind_Ok in E as ([] & s2 & E1 & [-> ->]%tx_ret_Ok).
    apply tx_bind_Ok in E1 as (db3 & s3 & [-> ->]%gets_Ok & ->%modify_Ok). split_and!; [| |done|done].
    + eexists. split; [cbn; by rewrite lookup_alter_eq, Hm|]. by apply released_left.
    + intros k Hk'. cbn. rewrite lookup_alter_ne by done. by apply Hk.
  - apply tx_bind_Ok in E as (dues & s1 & [Hdues%occurrences_due ->]%from_res_Ok & E).
    apply tx_bind_Ok in E as ([selected forced] & s1 & [Hsel ->]%from_res_Ok & E).
    rewrite (select_splits _ _ _ _ Hsel) in E.
    apply tx_bind_Ok in E as (r1 & db2 & E2 & E).
    apply materialize_all_grown in E2 as (Hg & Hcur2 & Hcr);
      [|by eapply sched_inv_step; [apply cursor_step|]|done].
    apply tx_bind_Ok in E as (next & s1 & [Hn ->]%from_res_Ok & E). apply tx_bind_Ok in E as ([] & s2 & E1 & [-> ->]%tx_ret_Ok).
    apply tx_bind_Ok in E1 as (db3 & s3 & [-> ->]%gets_Ok & ->%modify_Ok). cbn [cursors set_cursors] in Hcur2. split_and!.
    + eexists. split; [cbn; by rewrite lookup_alter_eq, Hcur2, Hm|]. by apply released_left.
    + intros k Hk'. cbn. rewrite lookup_alter_ne, Hcur2 by done. by apply Hk.
    + exists dues, selected, forced. split_and!; [done..| |].
      * destruct Hg. by split.
      * change (rows (set_cursors m db)) with (rows db) in Hcr. simpl in Hcr. exact Hcr.
Qed.
End behaviour.
