(* ===== verification/SchedPrograms.v ===== *)
(** * Scheduling: the programs refine the machine

    The public operations of the scheduler open one session after the other, and
    other clients commit in between.  [prog_moves] is a small logic for such
    programs: facts that no step of the machine takes back may be carried from one
    session to the next.  Whatever the other clients do within the machine, every
    operation is a sequence of its steps, whether it returns or raises. *)

From S2P Require Import Prelude PyFloat PyTime Ledger PyText Materiality Quality SchedDefs SchedCalendar.
From S2P Require Import OrchDefs OrchStore OrchCompiler Orchestrator OrchMachine OrchRefinement OrchStable.
From S2P Require Import SchedStore SchedPreflight Scheduler SchedMachine SchedInvariants SchedRefinement.
Local Open Scope Z_scope.

Section stability.
Context `{UuidSource} `{Sha256}.

(** A fact the steps of the machine keep. *)
Class Stable (P : SchedDB → Prop) := stable_lasts : stable P.

#[export] Instance stable_const (P : Prop) : Stable (λ _, P).
Proof. by intros db db' _. Qed.
#[export] Instance stable_and P Q : Stable P → Stable Q → Stable (λ db, P db ∧ Q db).
Proof. intros HP HQ db db' Hl [??]. split; [by eapply HP|by eapply HQ]. Qed.
#[export] Instance stable_forall {A} (P : A → SchedDB → Prop) (l : list A) :
  (∀ x, Stable (P x)) → Stable (λ db, Forall (λ x, P x db) l).
Proof. intros HP db db' Hl Hf. eapply Forall_impl; [exact Hf|]. intros x. by apply HP. Qed.
#[export] Instance not_skipped_stable id : Stable (not_skipped id).
Proof. apply stable_not_skipped. Qed.
#[export] Instance decided_stable id : Stable (decided id).
Proof. apply stable_decided. Qed.
#[export] Instance unattended_stable id : Stable (unattended id).
Proof. apply stable_unattended. Qed.
#[export] Instance ready_stable id : Stable (ready id).
Proof. apply stable_ready. Qed.
#[export] Instance bound_stable id e : Stable (bound id e).
Proof. apply stable_bound. Qed.
#[export] Instance present_stable tenant_id e : Stable (present tenant_id e).
Proof. apply stable_present. Qed.
#[export] Instance started_stable e : Stable (λ db, started (orch db) e).
Proof. intros db db' Hl Hs. by eapply started_lasts; [apply lasts_orch|]. Qed.
#[export] Instance has_tasks_stable t e : Stable (λ db, has_tasks (orch db) t e).
Proof. intros db db' Hl Hs. by eapply has_tasks_lasts; [apply lasts_orch|]. Qed.
#[export] Instance if_stable (b : bool) P Q : Stable P → Stable Q → Stable (λ db, if b then P db else Q db).
Proof. by destruct b. Qed.
End stability.

Section programs.
Context `{UuidSource} `{Sha256} `{TimeZones} `{Dateutil} `{Pydantic} `{CursorSession} {P : Type} (env : Environment P).
(** Other clients move the database by steps of the machine. *)
Context (Hbetween : ∀ db p, sched_inv db → sched_steps db (fst (env_between env db p))).

Definition prog_moves {A} (Pre : SchedDB → Prop) (m : Prog (SchedSite P) A) (Post : A → SchedDB → Prop) : Prop :=
  ∀ w r w', sched_inv (site_db w) → Pre (site_db w) → m w = (r, w') →
    sched_steps (site_db w) (site_db w') ∧ match r with Ok a => Post a (site_db w') | Err _ => True end.

Lemma moves_ret {A} (a : A) Post : prog_moves (Post a) (mret (M:=Prog (SchedSite P)) a) Post.
Proof. intros w r w' _ Hp [= <- <-]. by split. Qed.
Lemma moves_pre {A} (Pre Pre' : SchedDB → Prop) (m : Prog (SchedSite P) A) Post :
  (∀ db, sched_inv db → Pre db → Pre' db) → prog_moves Pre' m Post → prog_moves Pre m Post.
Proof. intros Hp Hm w r w' Hinv Hpre E. by eapply Hm; [|apply Hp|]. Qed.
Lemma moves_post {A} Pre (m : Prog (SchedSite P) A) (Post Post' : A → SchedDB → Prop) :
  (∀ a db, Post a db → Post' a db) → prog_moves Pre m Post → prog_moves Pre m Post'.
Proof.
  intros Hp Hm w r w' Hinv Hpre E. destruct (Hm _ _ _ Hinv Hpre E) as [Hs Hr]. split; [done|].
  destruct r; auto.
Qed.
Lemma moves_given {A} (φ : Prop) Pre (m : Prog (SchedSite P) A) Post :
  (φ → prog_moves Pre m Post) → prog_moves (λ db, φ ∧ Pre db) m Post.
Proof. intros Hm w r w' Hinv [Hφ Hpre]. by apply Hm. Qed.
(** What holds before and lasts holds between the two parts. *)
Lemma moves_bind {A B} Pre (m : Prog (SchedSite P) A) Mid (f : A → Prog (SchedSite P) B) Post :
  Stable Pre → prog_moves Pre m Mid → (∀ a, prog_moves (λ db, Mid a db ∧ Pre db) (f a) Post) →
  prog_moves Pre (mbind (M:=Prog (SchedSite P)) f m) Post.
Proof.
  intros HS Hm Hf w r w' Hinv Hpre E. unfold mbind, prog_bind in E. destruct (m w) as [[a|e] w1] eqn:E1.
  - destruct (Hm _ _ _ Hinv Hpre E1) as [Hs1 Hmid].
    destruct (Hf a _ _ _ (sched_inv_steps _ _ Hs1 Hinv) (conj Hmid (HS _ _ (steps_last _ _ Hs1) Hpre)) E)
      as [Hs2 Hpost]. split; [by etrans|done].
  - injection E as <- <-. destruct (Hm _ _ _ Hinv Hpre E1) as [Hs1 _]. by split.
Qed.

Lemma moves_clock : prog_moves (λ _, True) (clock env) (λ _ _, True).
Proof.
  intros w r w' _ _ E. unfold clock, external in E. destruct (env_clock env (site_env w)). by injection E as <- <-.
Qed.
Lemma moves_interleave Q : Stable Q → prog_moves Q (interleave env) (λ _, Q).
Proof.
  intros HQ w r w' Hinv Hq E. unfold interleave, external in E.
  pose proof (Hbetween (site_db w) (site_env w) Hinv) as Hs.
  destruct (env_between env (site_db w) (site_env w)) as [db p]. injection E as <- <-. simpl in *.
  split; [done|]. eapply HQ; [by apply steps_last|done].
Qed.

Lemma moves_session {A} Pre (m : SchedTx A) Post :
  Stable Pre → tx_moves Pre m Post → prog_moves Pre (session env m) Post.
Proof.
  intros HS Hm. unfold session. eapply moves_bind; [done|by apply moves_interleave|]. intros [].
  intros w r w' Hinv [Hpre _] E. unfold commit in E. destruct (m (site_db w)) as [[a db]|e] eqn:Em.
  - injection E as <- <-. by apply (Hm _ _ _ Hinv Hpre).
  - injection E as <- <-. by split.
Qed.
Lemma moves_recording {A} Pre (m : datetime → SchedTx A) Post :
  Stable Pre → (∀ at_, tx_moves Pre (m at_) Post) → prog_moves Pre (recording env m) Post.
Proof.
  intros HS Hm. unfold recording. eapply moves_bind; [done|eapply moves_pre; [|apply moves_clock]; done|].
  intros at_. eapply moves_pre; [by intros db _ [_ ?]|]. by apply moves_session.
Qed.

(** A call of the orchestrator that makes no engagement. *)
Lemma moves_orchestrate {A} Pre (m : datetime → OrchTx A) Post :
  Stable Pre →
  (∀ now D, preserves (same_engagements D) (m now)) →
  (∀ now db a o', sched_inv db → Pre db → m now (orch db) = Ok (a, o') →
     (reachable (orch db) → reachable o') ∧ steps (orch db) o' ∧ Post a (set_orch o' db)) →
  prog_moves Pre (orchestrate env m) Post.
Proof.
  intros HS Hsame Hm. unfold orchestrate. eapply moves_bind; [done|by apply moves_interleave|]. intros [].
  eapply moves_bind; [by apply _|eapply moves_pre; [|apply moves_clock]; done|].
  intros now w r w' Hinv (_ & Hpre & _) E. unfold commit in E.
  destruct (m now (orch (site_db w))) as [[a o']|e] eqn:Em; injection E as <- <-; [|by split].
  destruct (Hm _ _ _ _ Hinv Hpre Em) as (Hr & Hs & Hpost). split; [|exact Hpost].
  apply rtc_once, step_orch; try done. intros e x Hnone Hsome.
  pose proof (Hsame now _ _ _ _ eq_refl Em) as Hdom. unfold same_engagements in Hdom.
  apply elem_of_dom in Hsome. simpl in Hsome. rewrite Hdom in Hsome. apply elem_of_dom in Hsome as [? ?]. congruence.
Qed.

Lemma moves_attempt {A} Pre (m : Prog (SchedSite P) A) h Post :
  Stable Pre → prog_moves Pre m Post → (∀ e, prog_moves Pre (h e) Post) → prog_moves Pre (attempt env m h) Post.
Proof.
  intros HS Hm Hh w r w' Hinv Hpre E. unfold attempt in E. destruct (m w) as [[a|e] w1] eqn:E1.
  - injection E as <- <-. by destruct (Hm _ _ _ Hinv Hpre E1).
  - destruct (Hm _ _ _ Hinv Hpre E1) as [Hs1 _].
    destruct (Hh _ _ _ _ (sched_inv_steps _ _ Hs1 Hinv) (HS _ _ (steps_last _ _ Hs1) Hpre) E) as [Hs2 Hp].
    split; [by etrans|done].
Qed.

(** ** A launch *)

Definition planned_read (tenant_id e : string) (x : option Engagement * list EngagementTask) (db : SchedDB) : Prop :=
  (nonempty (snd x) = true → has_tasks (orch db) tenant_id e) ∧
  ∃ g, fst x = Some g ∧ (eng_status g ≠ EngagementStatus.PLANNED → started (orch db) e).

#[local] Instance planned_read_stable tenant_id e x : Stable (planned_read tenant_id e x).
Proof.
  intros db db' Hl [Ht (g & Hg & Hs)]. split; [|exists g; split; [done|]].
  - intros Hn. eapply (has_tasks_stable tenant_id e); [done|]. by apply Ht.
  - intros Hne. eapply (started_stable e); [done|]. by apply Hs.
Qed.

Lemma read_moves tenant_id e :
  tx_moves (present tenant_id e)
    (gets (λ db, (find_engagement db tenant_id e, list_tasks (orch db) tenant_id e)))
    (planned_read tenant_id e).
Proof.
  intros db x db' Hinv (g & Hg & Ht) [-> ->]%gets_Ok. split; [done|]. split; simpl.
  - intros Hn. destruct (list_tasks (orch db) tenant_id e) as [|t l] eqn:El; [done|].
    assert (Hin : t ∈ list_tasks (orch db) tenant_id e) by (rewrite El; left).
    apply (list_tasks_spec (orch db)) in Hin as ((? & ?) & ?); [|by apply reachable_wf, inv_reachable].
    by exists (task_id (spec t)), t.
  - exists g. split; [by apply get_engagement_Some|]. intros Hne. by exists g.
Qed.

Lemma compile_orchestrated tenant_id e w Pre : Stable Pre → WorkflowDefinition_valid w = true →
  prog_moves Pre (orchestrate env (compile_workflow tenant_id e w)) (λ _ db, has_tasks (orch db) tenant_id e).
Proof.
  intros HS Hw. apply moves_orchestrate; [done|intros; apply same_compile|].
  intros now db a o' Hinv _ E. assert (Hwf : wf (orch db)) by by apply reachable_wf, inv_reachable.
  split.
  - intros Hr. eapply (reachable_run (CompileWorkflow tenant_id e w) now); [done..|].
    simpl. unfold discard. by erewrite tx_bind_step.
  - apply compile_effect in E as [Hs (t & ? & ? & ?)]; [|done..]. split; [by eapply own_steps_steps|]. by exists (task_id (spec t)), t.
Qed.
Lemma start_orchestrated tenant_id e Pre : Stable Pre →
  prog_moves Pre (orchestrate env (start_engagement tenant_id e)) (λ _ db, started (orch db) e).
Proof.
  intros HS. apply moves_orchestrate; [done|intros; apply same_start|].
  intros now db a o' Hinv _ E. assert (Hwf : wf (orch db)) by by apply reachable_wf, inv_reachable.
  split.
  - intros Hr. eapply (reachable_run (StartEngagement tenant_id e) now); [done..|].
    simpl. unfold discard. by erewrite tx_bind_step.
  - by apply start_effect in E.
Qed.

(** A launch that the occurrence is cleared for. *)
Lemma launch_moves tenant_id id : prog_moves (ready id) (_launch env tenant_id id) (λ _ _, True).
Proof.
  unfold _launch. eapply moves_bind; [apply _|eapply moves_pre; [|apply moves_clock]; done|]. intros now.
  eapply moves_bind; [apply _|apply moves_recording; [apply _|]; intros at_|].
  { eapply tx_moves_pre; [|apply started_moves]. by intros db [_ ?]. }
  intros [[e w]|]; [|eapply moves_pre; [|apply (moves_ret tt)]; done].
  apply (moves_pre _ (λ db, WorkflowDefinition_valid w = true ∧ ready id db ∧ bound id e db ∧ present tenant_id e db));
    [naive_solver|]. apply moves_given. intros Hw.
  eapply moves_bind; [apply _|apply moves_session; [apply _|]|].
  { eapply tx_moves_pre; [|apply read_moves]. naive_solver. }
  intros [g rows]. eapply (moves_bind _ _ (λ _ db, has_tasks (orch db) tenant_id e)); [apply _| |].
  { destruct (nonempty rows) eqn:Hrows.
    - eapply moves_pre; [|apply (moves_ret tt)]. intros db _ [[Ht _] _]. by apply Ht.
    - eapply moves_bind; [apply _|apply compile_orchestrated; [apply _|done]|]. intros ?.
      eapply moves_pre; [|apply (moves_ret tt)]. naive_solver. }
  intros []. eapply (moves_bind _ _ (λ _ db, started (orch db) e)); [apply _| |].
  { apply (moves_pre _ (λ db, (∃ x, g = Some x ∧ True) ∧ planned_read tenant_id e (g, rows) db)).
    { intros db _ (_ & Hr & _). split; [|done]. destruct Hr as [_ (x & Hx & _)]. by exists x. }
    apply moves_given. intros (x & -> & _). case_decide as Hp.
    - eapply moves_bind; [apply _|apply start_orchestrated; apply _|]. intros ?.
      eapply moves_pre; [|apply (moves_ret tt)]. naive_solver.
    - eapply moves_pre; [|apply (moves_ret tt)]. intros db _ (_ & y & [= <-] & Hs). by apply Hs. }
  intros []. apply moves_recording; [apply _|]. intros at_.
  eapply tx_moves_pre; [|apply completed_moves]. unfold running. naive_solver.
Qed.

Lemma ready_not_skipped id db : ready id db → not_skipped id db.
Proof. intros (o & Ho & Hne & _). by exists o. Qed.

Lemma moves_done {A} Pre (a : A) : prog_moves Pre (mret (M:=Prog (SchedSite P)) a) (λ _ _, True).
Proof. eapply moves_pre; [|apply (moves_ret a)]. done. Qed.

(** ** An evaluation *)

Lemma attempt_launch_moves tenant_id id summary :
  prog_moves (ready id) (_attempt_launch env tenant_id id summary) (λ _ _, True).
Proof.
  unfold _attempt_launch. apply moves_attempt; [apply _| |intros error].
  - eapply moves_bind; [apply _|apply launch_moves|]. intros []. apply moves_done.
  - eapply moves_bind; [apply _|eapply moves_pre; [|apply moves_clock]; done|]. intros now.
    eapply moves_bind; [apply _|apply moves_recording; [apply _|]; intros at_|intros []; apply moves_done].
    eapply tx_moves_pre; [|apply failed_moves]. intros db [_ ?]. by apply ready_not_skipped.
Qed.

Lemma preflight_and_launch_moves tenant_id id context summary granted :
  prog_moves (λ db, not_skipped id db ∧ if granted : bool then decided id db else unattended id db)
    (_run_preflight_and_launch env tenant_id id context summary granted) (λ _ _, True).
Proof.
  unfold _run_preflight_and_launch.
  eapply moves_bind; [apply _|eapply moves_pre; [|apply moves_clock]; done|]. intros now.
  eapply (moves_bind _ _ (λ r db, r = None → ready id db)); [apply _|apply moves_recording; [apply _|]; intros at_|].
  { eapply tx_moves_pre; [|apply preflight_moves]. tauto. }
  intros [c|]; [apply moves_done|]. eapply moves_pre; [|apply attempt_launch_moves]. intros db _ [Hr _]. by apply Hr.
Qed.

Lemma process_read_moves tenant_id id :
  tx_moves (not_skipped id) (process_read tenant_id id)
    (λ r db, match r with
             | Some (o, mode) =>
                 (ostatus o = OccurrenceStatus.LAUNCHING → ready id db) ∧
                 (truthy (decision_by (ostate o)) = true → decided id db) ∧
                 (mode ≠ LaunchMode.APPROVAL_REQUIRED → unattended id db)
             | None => True
             end).
Proof.
  intros db r db' Hinv (o & Ho & Hne) E. unfold process_read in E.
  apply tx_bind_Ok in E as (db0 & s1 & [-> ->]%gets_Ok & E).
  destruct (get_occurrence db tenant_id id) as [o'|] eqn:Hg; [|by apply tx_ret_Ok in E as [-> ->]].
  apply get_occurrence_Some in Hg as [Ho' _]. rewrite Ho in Ho'. injection Ho' as <-.
  destruct (get_schedule db tenant_id _) as [s|] eqn:Hs; [|by apply tx_ret_Ok in E as [-> ->]].
  apply get_schedule_Some in Hs as [Hs _].
  apply tx_bind_Ok in E as (mode & s1 & [Hm%of_value_Some ->]%some_or_raise_Ok & [-> ->]%tx_ret_Ok).
  split; [done|]. split_and!.
  - intros Hl. exists o. split; [done|]. split; [done|].
    apply (inv_launch _ _ _ (inv_occ _ Hinv _ _ Ho)). rewrite Hl. left.
  - intros Hd. by exists o.
  - intros Hmode. exists o, s. split; [done|]. split; [done|]. rewrite Hm.
    destruct mode; first [done|apply list_elem_of_here|right; apply list_elem_of_here].
Qed.

Lemma process_occurrence_moves tenant_id id context summary :
  prog_moves (not_skipped id) (_process_occurrence env tenant_id id context summary) (λ _ _, True).
Proof.
  unfold _process_occurrence. eapply moves_bind; [apply _|apply moves_session; [apply _|apply process_read_moves]|].
  intros [[o mode]|]; [|apply moves_done]. case_decide as Hl.
  { eapply moves_pre; [|apply attempt_launch_moves]. intros db _ [[Hr _] _]. by apply Hr. }
  case_decide as Hm.
  - destruct (truthy (decision_by (ostate o))) eqn:Hd.
    + eapply moves_pre; [|apply preflight_and_launch_moves]. naive_solver.
    + unfold _mark_waiting_approval. eapply moves_pre with (Pre' := not_skipped id); [naive_solver|].
      eapply moves_bind; [apply _|apply moves_recording; [apply _|]; intros at_; apply mark_waiting_moves|].
      intros b. apply moves_done.
  - eapply moves_pre; [|apply preflight_and_launch_moves]. intros db _ [(_ & Hd & Hu) Hn]. split; [done|].
    case_match; auto.
Qed.

Lemma process_all_moves tenant_id context ids : ∀ summary,
  prog_moves (λ db, Forall (λ id, not_skipped id db) ids) (process_all env tenant_id ids context summary) (λ _ _, True).
Proof.
  induction ids as [|id ids IH]; intros summary; simpl; [apply moves_done|].
  eapply moves_bind; [apply _|eapply moves_pre; [|apply process_occurrence_moves]|].
  - by intros db _ [? _]%Forall_cons.
  - intros summary'. eapply moves_pre; [|apply IH]. by intros db _ [_ [_ ?]%Forall_cons].
Qed.

Lemma evaluate_schedules_moves tenant_id now worker_id n context ids : ∀ summary,
  prog_moves (λ _, True) (evaluate_schedules env tenant_id ids now worker_id n context summary) (λ _ _, True).
Proof.
  induction ids as [|id ids IH]; intros summary; simpl; [apply moves_done|].
  eapply moves_bind; [apply _|apply moves_recording; [apply _|]; intros at_; apply materialize_moves|].
  intros m. eapply moves_bind; [|eapply moves_pre; [|apply process_all_moves]|].
  - apply stable_and; [apply (stable_forall not_skipped)|]; apply _.
  - by intros db _ [? _].
  - intros summary'. eapply moves_pre; [|apply IH]. done.
Qed.

Lemma retryable_moves tenant_id now id (skip : string → Prop) `{!∀ i, Decision (skip i)} :
  tx_moves (λ _, True)
    (gets (λ db, filter skip (map oid (list_retryable_occurrences db tenant_id now id))))
    (λ ids db, Forall (λ i, not_skipped i db) ids).
Proof.
  intros db ids db' Hinv _ [-> ->]%gets_Ok. split; [done|]. apply Forall_forall.
  intros i [_ (o & -> & Ho)%list_elem_of_fmap]%list_elem_of_filter.
  unfold list_retryable_occurrences in Ho. rewrite sort_by_Permutation in Ho.
  apply list_elem_of_filter in Ho as [(_ & Hst & _) Ho].
  apply list_elem_of_fmap in Ho as ((k & o') & -> & Ho%elem_of_map_to_list). simpl in *.
  exists o'. rewrite (inv_key _ _ _ (inv_occ _ Hinv _ _ Ho)). split; [done|]. intros E. rewrite E in Hst.
  unfold RETRYABLE_STATUSES in Hst. by repeat apply elem_of_cons in Hst as [?|Hst]; try apply elem_of_nil in Hst.
Qed.

Lemma schedules_to_evaluate_reads tenant_id id : reads_only (schedules_to_evaluate tenant_id id).
Proof.
  unfold schedules_to_evaluate, reading. apply reads_only_bind; [auto with tx|]. intros db.
  apply reads_only_bind; [|auto with tx]. destruct id; auto with tx.
Qed.

Lemma evaluate_due_moves tenant_id context id worker_id n :
  prog_moves (λ _, True) (evaluate_due env tenant_id context id worker_id n) (λ _ _, True).
Proof.
  unfold evaluate_due. eapply moves_bind; [apply _|apply moves_clock|]. intros now.
  case_match; [by intros w r w' _ _ [= <- <-]|].
  eapply moves_bind; [apply _|apply moves_session; [apply _|]; apply tx_moves_reads, schedules_to_evaluate_reads|].
  intros ids. eapply moves_bind; [apply _|eapply moves_pre; [|apply evaluate_schedules_moves]; done|]. intros summary.
  eapply (moves_bind _ _ (λ ids db, Forall (λ i, not_skipped i db) ids));
    [apply _|apply moves_session; [apply _|]; eapply tx_moves_pre; [|apply retryable_moves]; done|].
  intros retry. eapply moves_pre; [|apply process_all_moves]. by intros db _ [? _].
Qed.

(** ** Decisions *)

Lemma valid_named d : OccurrenceDecision_valid d = true → truthy (Some (decider_id d)) = true.
Proof.
  unfold OccurrenceDecision_valid, length_within, truthy. intros Hd.
  destruct (bool_decide_reflect (decider_id d = "")) as [E|]; [|done]. rewrite E in Hd. done.
Qed.

Lemma approve_occurrence_moves tenant_id id d : OccurrenceDecision_valid d = true →
  prog_moves (λ _, True) (approve_occurrence env tenant_id id d) (λ _ _, True).
Proof.
  intros Hd%valid_named. unfold approve_occurrence.
  eapply moves_bind; [apply _|apply moves_recording; [apply _|]; intros at_; by apply approve_moves|].
  intros [snapshot|]; [apply moves_done|].
  apply (moves_pre _ (λ db, not_skipped id db ∧ decided id db)); [naive_solver|].
  eapply moves_bind; [apply _|eapply moves_pre; [|apply moves_clock]; done|]. intros now.
  eapply moves_bind; [apply _|eapply moves_pre; [|apply preflight_and_launch_moves]; naive_solver|].
  intros summary. apply moves_session; [apply _|].
  intros db x db' _ _ E. unfold get_occurrence_snapshot, reading in E. by inv_tx.
Qed.

Lemma cancel_occurrence_moves tenant_id id d : OccurrenceDecision_valid d = true →
  prog_moves (λ _, True) (cancel_occurrence env tenant_id id d) (λ _ _, True).
Proof. intros Hd%valid_named. apply moves_recording; [apply _|]. intros at_. by apply cancel_moves. Qed.

(** ** Histories *)

(** A call of an operation that changes state. *)
Inductive sched_operation :=
  | EvaluateDue (tenant_id : string) (context : option PreflightContext) (id : option string)
      (worker_id : string) (lease_seconds : Z)
  | ApproveOccurrence (tenant_id id : string) (d : OccurrenceDecision)
  | CancelOccurrence (tenant_id id : string) (d : OccurrenceDecision).

Definition valid_call (o : sched_operation) : bool :=
  match o with
  | EvaluateDue _ _ _ _ _ => true
  | ApproveOccurrence _ _ d | CancelOccurrence _ _ d => OccurrenceDecision_valid d
  end.
Definition ignoring {A} (m : Prog (SchedSite P) A) : Prog (SchedSite P) unit := _ ← m; mret tt.
Definition call (o : sched_operation) : Prog (SchedSite P) unit :=
  match o with
  | EvaluateDue t c id w n => ignoring (evaluate_due env t c id w n)
  | ApproveOccurrence t id d => ignoring (approve_occurrence env t id d)
  | CancelOccurrence t id d => ignoring (cancel_occurrence env t id d)
  end.

Lemma call_moves o : valid_call o = true → prog_moves (λ _, True) (call o) (λ _ _, True).
Proof.
  assert (Hi : ∀ A (m : Prog (SchedSite P) A), prog_moves (λ _, True) m (λ _ _, True) →
    prog_moves (λ _, True) (ignoring m) (λ _ _, True)).
  { intros A m Hm. eapply moves_bind; [apply _|exact Hm|]. intros a. apply moves_done. }
  intros Hv. destruct o; apply Hi.
  - apply evaluate_due_moves.
  - by apply approve_occurrence_moves.
  - by apply cancel_occurrence_moves.
Qed.

(** What happens to a database: calls of the scheduler, whether they return or
    raise, and the commits of the clients it shares the database with. *)
Inductive happens : SchedDB → Prop :=
  | happens_first now : happens (empty_sched now)
  | happens_call o w r w' :
      happens (site_db w) → valid_call o = true → call o w = (r, w') → happens (site_db w')
  | happens_beside db db' : happens db → sched_step db db' → happens db'.

Lemma happens_steps db : happens db → ∃ now, sched_steps (empty_sched now) db.
Proof.
  induction 1 as [now|o w r w' _ [now IH] Hv E|db db' _ [now IH] Hs].
  - by exists now.
  - exists now. etrans; [exact IH|].
    destruct (call_moves o Hv w r w') as [Hs _]; [|done|done|done].
    eapply sched_inv_steps; [exact IH|apply sched_inv_empty].
  - exists now. by eapply rtc_r.
Qed.
Lemma happens_inv db : happens db → sched_inv db.
Proof. intros [now Hs]%happens_steps. eapply sched_inv_steps; [exact Hs|apply sched_inv_empty]. Qed.
End programs.
