(* ===== verification/SchedAuthored.v ===== *)
(** * Scheduling: what authoring keeps

    The operations of authoring are configuration steps of the scheduling machine;
    a schedule keeps its definition and moves only forward through its statuses, and
    at most one version of a name is active. *)

From S2P Require Import Prelude PyFloat PyTime Ledger PyText Materiality Quality SchedDefs SchedCalendar.
From S2P Require Import OrchDefs OrchStore OrchCompiler Orchestrator OrchMachine OrchRefinement OrchStable.
From S2P Require Import SchedStore SchedPreflight Scheduler SchedAuthoring SchedMachine SchedInvariants SchedRefinement.
Local Open Scope Z_scope.

(** ** The life of a schedule *)

(** The columns a decision does not change. *)
Definition definition_of (s : AuditSchedule) :=
  (schedule_id s, sch_tenant_id s, sch_plan_id s, sch_template_id s, sch_name s, sch_version s,
   recurrence_rule s, sch_timezone s, effective_from s, effective_until s,
   (audit_period_rule_json s, business_calendar_json s, blackout_policy_json s, sch_preflight_policy s,
    launch_mode s, missed_occurrence_policy s, catch_up_limit s, overlap_policy s, max_concurrent_engagements s)).

(** A draft is approved or disabled; an active schedule is superseded or disabled. *)
Definition LIFE : list (string * string) :=
  [("draft", "active"); ("draft", "disabled"); ("active", "superseded"); ("active", "disabled")].
Definition aged (s s' : AuditSchedule) : Prop :=
  definition_of s' = definition_of s ∧ (s' = s ∨ (sch_status s, sch_status s') ∈ LIFE).

Lemma aged_refl s : aged s s.
Proof. split; [done|by left]. Qed.

Lemma definition_same s s' : definition_of s' = definition_of s →
  schedule_id s' = schedule_id s ∧ sch_tenant_id s' = sch_tenant_id s ∧ sch_name s' = sch_name s ∧
  sch_version s' = sch_version s ∧ launch_mode s' = launch_mode s.
Proof. unfold definition_of. injection 1. intros. by split_and!. Qed.

Section authored.
Context `{UuidSource} `{Sha256} `{TimeZones} `{Dateutil} `{PydanticDump}.

(** A step of authoring: the rows there were are aged, a new one is the next draft of
    its name, and nothing but schedules, cursors and the ledger changes. *)
Record authored (db db' : SchedDB) : Prop := {
  authored_old i s : schedules db !! i = Some s → ∃ s', schedules db' !! i = Some s' ∧ aged s s';
  authored_new i s : schedules db !! i = None → schedules db' !! i = Some s →
    schedule_id s = i ∧ sch_status s = "draft" ∧ sch_version s = next_version db (sch_tenant_id s) (sch_name s);
  authored_occurrences : occurrences db' = occurrences db;
  authored_orch : ∃ l', orch db' = set_ledger l' (orch db) ∧ ledger_env (ledger (orch db)) l'
}.

(** Authoring is configuration, for the scheduling machine. *)
Lemma authored_step db db' : sched_inv db → authored db db' → sched_step db db'.
Proof.
  intros Hinv [Hold Hnew Hocc (l' & Horch & Henv)]. apply step_config.
  - exact Hocc.
  - split; rewrite Horch; [by apply (steps_one 0), step_env|]. intros Hr. by apply reachable_env.
  - by rewrite Horch.
  - split.
    + intros i s (s' & Hs' & (_ & ? & _ & _ & ?)%definition_same & _)%Hold. by exists s'.
    + intros i s' Hs'. destruct (schedules db !! i) as [s|] eqn:Hs; [|by destruct (Hnew _ _ Hs Hs')].
      pose proof (inv_schedules _ Hinv _ _ Hs) as Hid. apply Hold in Hs as (s2 & Hs2 & [Hd _]%definition_same & _).
      rewrite Hs' in Hs2. injection Hs2 as <-. congruence.
Qed.

(** ** What the primitives do *)

(** A key made of an event identifier and a colon is no identifier still to be drawn. *)
Lemma suffixed_key n m ty : "evt_" +:+ uuid4_hex 16 n +:+ ":" +:+ ty ≠ "evt_" +:+ uuid4_hex 16 m.
Proof.
  intros E. apply (uuid4_hex_plain 16 m). apply (inj (String.append _)) in E. rewrite <- E.
  generalize (uuid4_hex 16 n). intros s. induction s as [|c s IH]; simpl; [left|right; exact IH].
Qed.

Lemma record_schedule_Ok s ty now pl db u db' :
  record_schedule s ty now pl db = Ok (u, db') → scheduler_event ty →
  ∃ l', db' = put_ledger l' db ∧ ledger_env (get_ledger db) l'.
Proof.
  unfold record_schedule. intros E Hty.
  apply tx_bind_Ok in E as (eid & s1 & (t1 & [-> ->]%new_event_id_Ok & ->)%zoom_Ok & E).
  apply tx_bind_Ok in E as ([] & s2 & (t2 & Eapp & ->)%zoom_Ok & (t3 & Eout & ->)%zoom_Ok).
  pose proof Eapp as (Ha & Hb & Hu & Hw)%append_Ok.
  apply outbox_add_Ok in Eout as (Hf & Ha' & (x & Hx & [_ Hk] & Hxty & Hxpl) & Hu' & Hw').
  unfold get_ledger, put_ledger in *. simpl in *. eexists. split; [done|]. split.
  - rewrite Ha', Ha. eexists. split; [done|]. by apply Forall_singleton.
  - intros Hn. assert (Hn' : numbered t2).
    { eapply append_numbered; [|exact Eapp]. exact Hn. }
    intros t' s'. specialize (Hn' t' s'). unfold stream_rows in *. by rewrite Ha'.
  - intros Hd o n Ho Hn. rewrite Hx, Hb in Ho. rewrite Hu', Hu in Hn.
    apply elem_of_app in Ho as [Ho| ->%list_elem_of_singleton]; [apply Hd; [done|lia]|].
    rewrite Hk. apply suffixed_key.
  - intros t' k Hex. rewrite Hx, Hb. apply Exists_app. by left.
Qed.

(** ** The rows a decision touches *)

(** All but schedules and cursors stays, and the ledger moves as it may. *)
Definition beside (db db' : SchedDB) : Prop :=
  occurrences db' = occurrences db ∧ ∃ l', orch db' = set_ledger l' (orch db) ∧ ledger_env (ledger (orch db)) l'.

#[local] Instance beside_refl : Reflexive beside.
Proof.
  intros db. split; [done|]. exists (ledger (orch db)). split; [by destruct (orch db)|apply ledger_env_refl].
Qed.
#[local] Instance beside_trans : Transitive beside.
Proof.
  intros db1 db2 db3 [E1 (l1 & O1 & L1)] [E2 (l2 & O2 & L2)]. split; [congruence|]. exists l2.
  rewrite O2, O1. split; [done|]. rewrite O1 in L2. by eapply ledger_env_trans.
Qed.

Lemma recorded_beside s ty now pl db u db' :
  record_schedule s ty now pl db = Ok (u, db') → scheduler_event ty →
  beside db db' ∧ schedules db' = schedules db ∧ cursors db' = cursors db.
Proof.
  intros E Hty. apply record_schedule_Ok in E as (l' & -> & Henv); [|done].
  split; [|done]. split; [done|]. by exists l'.
Qed.

Definition keyed (db : SchedDB) : Prop := ∀ i s, schedules db !! i = Some s → schedule_id s = i.

Lemma all_schedules_spec db s : keyed db → s ∈ all_schedules db ↔ schedules db !! schedule_id s = Some s.
Proof.
  intros Hk. unfold all_schedules. split.
  - intros ((i & x) & -> & Hx%elem_of_map_to_list)%list_elem_of_fmap. simpl. by rewrite (Hk _ _ Hx).
  - intros Hs. apply list_elem_of_fmap. exists (schedule_id s, s). split; [done|by apply elem_of_map_to_list].
Qed.

Lemma active_rows_spec db s x : keyed db → x ∈ active_rows db s ↔
  (sch_tenant_id x = sch_tenant_id s ∧ sch_name x = sch_name s ∧ sch_status x = "active" ∧
   schedule_id x ≠ schedule_id s) ∧ schedules db !! schedule_id x = Some x.
Proof.
  intros Hk. unfold active_rows. rewrite sort_by_Permutation, list_elem_of_filter.
  by rewrite all_schedules_spec.
Qed.
Lemma active_rows_distinct db s : keyed db → NoDup (map schedule_id (active_rows db s)).
Proof.
  intros Hk. apply NoDup_fmap_2_strong.
  - intros x y [_ Hx]%active_rows_spec [_ Hy]%active_rows_spec E; [|done..]. rewrite E in Hx. congruence.
  - unfold active_rows. rewrite sort_by_Permutation. apply NoDup_filter, NoDup_fmap_2_strong; [|apply NoDup_map_to_list].
    intros [i x] [j y] Hx%elem_of_map_to_list Hy%elem_of_map_to_list. simpl. intros ->.
    apply Hk in Hx, Hy. congruence.
Qed.

Definition superseded (row : AuditSchedule) (actor : string) (now : datetime) : AuditSchedule → AuditSchedule :=
  set_closed "superseded" now actor ("superseded by schedule version " +:+ pretty (sch_version row)).

Lemma supersede_all row actor now l : ∀ db u db',
  (∀ x, x ∈ l → schedules db !! schedule_id x = Some x) → NoDup (map schedule_id l) →
  for_each l (supersede row actor now) db = Ok (u, db') →
  beside db db' ∧ cursors db' = cursors db ∧
  ∀ i, schedules db' !! i =
    (λ s, if decide (i ∈ map schedule_id l) then superseded row actor now s else s) <$> schedules db !! i.
Proof.
  induction l as [|x l IH]; intros db u db' Hl Hnd E; simpl in E.
  - apply tx_ret_Ok in E as [_ ->]. split; [done|]. split; [done|]. intros i. by destruct (schedules db !! i).
  - apply NoDup_cons in Hnd as [Hx Hnd]. apply tx_bind_Ok in E as ([] & db1 & E1 & E). unfold supersede in E1.
    apply tx_bind_Ok in E1 as ([] & s1 & ->%modify_Ok & E1).
    apply recorded_beside in E1 as (Hb & Hs & Hc); [|recorded_type]. simpl in Hs, Hc.
    assert (Hxs : schedules db !! schedule_id x = Some x) by (apply Hl; left).
    apply IH in E as (Hb2 & Hc2 & Hs2); [| |done].
    + split; [etrans; [exact Hb|exact Hb2]|]. split; [congruence|]. intros i. rewrite Hs2, Hs. simpl.
      destruct (decide (i = schedule_id x)) as [->|Hne].
      * rewrite lookup_alter_eq, Hxs. simpl. rewrite decide_False by done. rewrite decide_True by left. done.
      * rewrite lookup_alter_ne by done. apply option_fmap_ext. intros s.
        destruct (decide (i ∈ map schedule_id l)) as [Hin|Hin]; [by rewrite decide_True by by right|].
        rewrite decide_False; [done|]. by intros [?|?]%elem_of_cons.
    + intros y Hy. rewrite Hs, lookup_alter_ne; [apply Hl; by right|].
      intros E'. apply Hx. rewrite E'. apply list_elem_of_fmap. by exists y.
Qed.

(** ** The decisions *)

Definition executable (s : AuditSchedule) : Prop :=
  ∃ d, _draft_from_row s = Ok d ∧ _validate_definition d = Ok ().

(** The rows after an approval of [row]. *)
Definition approved_row (row : AuditSchedule) (d : ScheduleDecision) (now : datetime) (s : AuditSchedule) : AuditSchedule :=
  if decide (schedule_id s = schedule_id row) then set_active now d row
  else if decide (sch_tenant_id s = sch_tenant_id row ∧ sch_name s = sch_name row ∧ sch_status s = "active")
  then superseded row (sd_actor_id d) now s else s.

Lemma approve_Ok tenant_id id d now db v db' :
  keyed db → approve_schedule_tx tenant_id id d now db = Ok (v, db') →
  ∃ row, get_schedule db tenant_id id = Some row ∧
    (sch_status row = "active" ∧ db' = db ∨
     sch_status row = "draft" ∧ executable row ∧
     plan_status <$> get_plan db tenant_id (sch_plan_id row) = Some "approved" ∧
     beside db db' ∧ ∀ i, schedules db' !! i = approved_row row d now <$> schedules db !! i).
Proof.
  intros Hk E. unfold approve_schedule_tx in E.
  apply tx_bind_Ok in E as (db0 & s1 & [-> ->]%gets_Ok & E).
  apply tx_bind_Ok in E as (row & s1 & [Hrow ->]%some_or_raise_Ok & E). exists row. split; [done|].
  apply get_schedule_Some in Hrow as [Hrow _]. pose proof (Hk _ _ Hrow) as Hid.
  case_decide as Hst; [left; by apply tx_ret_Ok in E as [_ ->]|right].
  apply tx_bind_Ok in E as ([] & s1 & [Hdraft%bool_decide_eq_true ->]%require_Ok & E).
  apply tx_bind_Ok in E as ([] & s1 & [Hplan%bool_decide_eq_true ->]%require_Ok & E).
  apply tx_bind_Ok in E as (t & s1 & [_ ->]%some_or_raise_Ok & E).
  apply tx_bind_Ok in E as ([] & s1 & [_ ->]%require_Ok & E).
  apply tx_bind_Ok in E as (draft & s1 & [Hdr ->]%from_res_Ok & E).
  apply tx_bind_Ok in E as ([] & s1 & [Hval ->]%from_res_Ok & E).
  apply tx_bind_Ok in E as ([] & db1 & E1 & E).
  apply supersede_all in E1 as (Hb1 & _ & Hs1);
    [|by intros x [_ ?]%active_rows_spec|by apply active_rows_distinct].
  apply tx_bind_Ok in E as ([] & db2 & ->%modify_Ok & E).
  apply tx_bind_Ok in E as ([] & db3 & E3 & E).
  assert (Hdb3 : ∃ c, db3 = set_cursors c (set_schedules (alter (λ _, set_active now d row) id (schedules db1)) db1)).
  { unfold get_or_create_cursor in E3. apply tx_bind_Ok in E3 as (db0 & s1 & [-> ->]%gets_Ok & E3).
    case_match; [apply tx_ret_Ok in E3 as [_ ->]; by eexists|apply modify_Ok in E3 as ->; by eexists]. }
  destruct Hdb3 as [c ->]. clear E3.
  apply tx_bind_Ok in E as (next & s1 & [_ ->]%from_res_Ok & E).
  apply tx_bind_Ok in E as ([] & db4 & ->%modify_Ok & E).
  apply tx_bind_Ok in E as ([] & db5 & E & [_ ->]%tx_ret_Ok).
  apply recorded_beside in E as (Hb2 & Hs2 & _); [|recorded_type]. simpl in Hs2.
  split; [done|]. split; [by exists draft|]. split; [done|]. split; [by etrans; [exact Hb1|exact Hb2]|].
  intros i. rewrite Hs2. unfold approved_row. destruct (decide (i = id)) as [->|Hne].
  - rewrite lookup_alter_eq, Hs1, Hrow. simpl. by rewrite decide_True.
  - rewrite lookup_alter_ne, Hs1 by done. destruct (schedules db !! i) as [s|] eqn:Hi; [|done]. simpl. f_equal.
    pose proof (Hk _ _ Hi) as Hsi. rewrite (decide_False (P := schedule_id s = schedule_id row)) by congruence.
    apply decide_ext. rewrite list_elem_of_fmap. split.
    + intros (x & Hx & Hin). apply active_rows_spec in Hin as [(? & ? & ? & _) Hxs]; [|done].
      rewrite <- Hx, Hi in Hxs. by injection Hxs as ->.
    + intros (? & ? & ?). exists s. split; [congruence|]. apply active_rows_spec; [done|]. rewrite Hsi. split_and!; try done. congruence.
Qed.

Lemma disable_Ok tenant_id id d now db v db' :
  keyed db → disable_schedule_tx tenant_id id d now db = Ok (v, db') →
  ∃ row, get_schedule db tenant_id id = Some row ∧
    (sch_status row = "disabled" ∧ db' = db ∨
     sch_status row ∈ ["draft"; "active"] ∧ beside db db' ∧
     schedules db' = <[id := set_closed "disabled" now (sd_actor_id d) (sd_reason d) row]> (schedules db)).
Proof.
  intros Hk E. unfold disable_schedule_tx in E.
  apply tx_bind_Ok in E as (db0 & s1 & [-> ->]%gets_Ok & E).
  apply tx_bind_Ok in E as (row & s1 & [Hrow ->]%some_or_raise_Ok & E). exists row. split; [done|].
  apply get_schedule_Some in Hrow as [Hrow _].
  case_decide as Hst; [left; by apply tx_ret_Ok in E as [_ ->]|right].
  apply tx_bind_Ok in E as ([] & s1 & [Hopen%bool_decide_eq_true ->]%require_Ok & E).
  apply tx_bind_Ok in E as ([] & db2 & ->%modify_Ok & E).
  apply tx_bind_Ok in E as ([] & db4 & ->%modify_Ok & E).
  apply tx_bind_Ok in E as ([] & db5 & E & [_ ->]%tx_ret_Ok).
  apply recorded_beside in E as (Hb2 & Hs2 & _); [|recorded_type]. simpl in Hs2.
  split; [done|]. split; [exact Hb2|]. by rewrite Hs2, (alter_Some _ _ _ _ Hrow).
Qed.

Lemma create_Ok tenant_id d now db v db' :
  create_draft_tx tenant_id d now db = Ok (v, db') →
  schedules db !! schedule_id v = None ∧ beside db db' ∧ schedules db' = <[schedule_id v := v]> (schedules db) ∧
  sch_tenant_id v = tenant_id ∧ sch_name v = draft_name d ∧ sch_status v = "draft" ∧
  sch_version v = next_version db tenant_id (draft_name d).
Proof.
  intros E. unfold create_draft_tx in E.
  apply tx_bind_Ok in E as (db0 & s1 & [-> ->]%gets_Ok & E).
  apply tx_bind_Ok in E as (p & s1 & [_ ->]%some_or_raise_Ok & E).
  apply tx_bind_Ok in E as (t & s1 & [_ ->]%some_or_raise_Ok & E).
  apply tx_bind_Ok in E as (id & s1 & (l1 & [_ ->]%new_id_Ok & ->)%zoom_Ok & E).
  apply tx_bind_Ok in E as ([] & db1 & E1 & E). unfold add_schedule in E1.
  apply tx_bind_Ok in E1 as (db0 & s1 & [-> ->]%gets_Ok & E1).
  apply tx_bind_Ok in E1 as ([] & s1 & [Hfree ->]%require_Ok & ->%modify_Ok).
  apply tx_bind_Ok in E as ([] & db2 & E & [-> ->]%tx_ret_Ok).
  apply recorded_beside in E as (Hb & Hs & _); [|recorded_type]. simpl in Hs.
  unfold schedule_refused in Hfree. rewrite negb_true_iff, !orb_false_iff in Hfree. simpl in Hfree.
  destruct Hfree as [[[[[[[Hid _] _] _] _] _] _] _]. apply bool_decide_eq_false, eq_None_not_Some in Hid.
  split; [done|]. split; [|done]. etrans; [|exact Hb]. split; [done|].
  eexists. split; [done|]. apply ledger_env_draw.
Qed.

(** ** The invariant *)

Definition same_name (s1 s2 : AuditSchedule) : Prop :=
  sch_tenant_id s1 = sch_tenant_id s2 ∧ sch_name s1 = sch_name s2.

Record authoring_inv (db : SchedDB) : Prop := {
  inv_keyed : keyed db;
  inv_versions i1 s1 i2 s2 : schedules db !! i1 = Some s1 → schedules db !! i2 = Some s2 →
    same_name s1 s2 → sch_version s1 = sch_version s2 → i1 = i2;
  inv_one_active i1 s1 i2 s2 : schedules db !! i1 = Some s1 → schedules db !! i2 = Some s2 →
    same_name s1 s2 → sch_status s1 = "active" → sch_status s2 = "active" → i1 = i2;
  inv_active i s : schedules db !! i = Some s → sch_status s = "active" →
    executable s ∧ is_Some (approved_at s) ∧ is_Some (approved_by s)
}.

Lemma executable_same s s' : definition_of s' = definition_of s → executable s → executable s'.
Proof.
  unfold executable, _draft_from_row, definition_of. injection 1. intros.
  repeat match goal with E : _ = _ |- _ => rewrite E; clear E end. done.
Qed.

(** A step that ages the rows and adds no version keeps their keys and versions. *)
Lemma authored_versions db db' : authoring_inv db → authored db db' →
  keyed db' ∧ ∀ i1 s1 i2 s2, schedules db' !! i1 = Some s1 → schedules db' !! i2 = Some s2 →
    same_name s1 s2 → sch_version s1 = sch_version s2 →
    i1 = i2 ∨ schedules db !! i1 = None ∨ schedules db !! i2 = None.
Proof.
  intros Hinv Ha. split.
  - intros i s' Hs'. destruct (schedules db !! i) as [s|] eqn:Hs; [|by destruct (authored_new _ _ Ha _ _ Hs Hs')].
    destruct (authored_old _ _ Ha _ _ Hs) as (s2 & Hs2 & [Hd _]%definition_same & _).
    rewrite Hs' in Hs2. injection Hs2 as <-. pose proof (inv_keyed _ Hinv _ _ Hs). congruence.
  - intros i1 s1 i2 s2 H1' H2' [Ht Hn] Hv.
    destruct (schedules db !! i1) as [x1|] eqn:E1; [|by right; left].
    destruct (schedules db !! i2) as [x2|] eqn:E2; [|by right; right]. left.
    destruct (authored_old _ _ Ha _ _ E1) as (y1 & Hy1 & (_ & ? & ? & ? & _)%definition_same & _).
    destruct (authored_old _ _ Ha _ _ E2) as (y2 & Hy2 & (_ & ? & ? & ? & _)%definition_same & _).
    rewrite H1' in Hy1. injection Hy1 as <-. rewrite H2' in Hy2. injection Hy2 as <-.
    apply (inv_versions _ Hinv i1 x1 i2 x2); [done|done| |congruence]. split; congruence.
Qed.

Lemma next_version_above db tenant_id name s : keyed db → s ∈ all_schedules db →
  sch_tenant_id s = tenant_id → sch_name s = name → sch_version s < next_version db tenant_id name.
Proof.
  intros Hk Hs Ht Hn. unfold next_version.
  assert (Hin : s ∈ filter (λ s, sch_tenant_id s = tenant_id ∧ sch_name s = name) (all_schedules db))
    by (by apply list_elem_of_filter).
  induction (filter _ (all_schedules db)) as [|x l IH]; [by apply elem_of_nil in Hin|].
  simpl. apply elem_of_cons in Hin as [->|Hin]; [lia|]. specialize (IH Hin). lia.
Qed.

Lemma create_keeps tenant_id d now db v db' : authoring_inv db →
  create_draft_tx tenant_id d now db = Ok (v, db') → authored db db' ∧ authoring_inv db'.
Proof.
  intros Hinv (Hnone & [Hocc Horch] & Hs & Ht & Hn & Hst & Hv)%create_Ok.
  assert (Ha : authored db db').
  { split; [|intros i s Hi|done|done]; rewrite Hs.
    - intros i s Hi. exists s. rewrite lookup_insert_ne by congruence. split; [done|apply aged_refl].
    - rewrite lookup_insert_Some. intros [[<- <-]|[_ ?]]; [by rewrite Ht, Hn|congruence]. }
  split; [done|]. destruct (authored_versions _ _ Hinv Ha) as [Hk Hver].
  assert (Hold : ∀ i s, schedules db' !! i = Some s → i = schedule_id v ∧ s = v ∨ schedules db !! i = Some s ∧ i ≠ schedule_id v).
  { intros i s. rewrite Hs, lookup_insert_Some. naive_solver. }
  assert (Hlow : ∀ i s, schedules db !! i = Some s → same_name s v → sch_version s < sch_version v).
  { intros i s Hi [Et En]. rewrite Hv. apply next_version_above; [apply Hinv| |congruence..].
    apply all_schedules_spec; [apply Hinv|]. by rewrite (inv_keyed _ Hinv _ _ Hi). }
  split; [done|..].
  - intros i1 s1 i2 s2 H1' H2' Hsame E. destruct (Hold _ _ H1') as [[-> ->]|[Ho1 _]], (Hold _ _ H2') as [[-> ->]|[Ho2 _]]; try done.
    + destruct Hsame. pose proof (Hlow _ _ Ho2 ltac:(split; congruence)). lia.
    + pose proof (Hlow _ _ Ho1 Hsame). lia.
    + by apply (inv_versions _ Hinv _ _ _ _ Ho1 Ho2).
  - intros i1 s1 i2 s2 H1' H2' Hsame A1 A2. destruct (Hold _ _ H1') as [[-> ->]|[Ho1 _]], (Hold _ _ H2') as [[-> ->]|[Ho2 _]]; try congruence.
    by apply (inv_one_active _ Hinv _ _ _ _ Ho1 Ho2).
  - intros i s Hi A. destruct (Hold _ _ Hi) as [[-> ->]|[Ho _]]; [congruence|]. by apply (inv_active _ Hinv _ _ Ho).
Qed.

Lemma disable_keeps tenant_id id d now db v db' : authoring_inv db →
  disable_schedule_tx tenant_id id d now db = Ok (v, db') → authored db db' ∧ authoring_inv db'.
Proof.
  intros Hinv E. apply disable_Ok in E as (row & Hrow & E); [|apply Hinv].
  apply get_schedule_Some in Hrow as [Hrow _].
  destruct E as [[_ ->]|(Hst & [Hocc Horch] & Hs)].
  { split; [|done]. split; [|congruence|done|by apply beside_refl]. intros i s Hi. exists s. split; [done|apply aged_refl]. }
  set (row' := set_closed _ _ _ _ row) in *.
  assert (Ha : authored db db').
  { split; [|intros i s Hi|done|done]; rewrite Hs.
    - intros i s Hi. destruct (decide (i = id)) as [->|Hne].
      + rewrite lookup_insert_eq. exists row'. split; [done|]. rewrite Hrow in Hi. injection Hi as <-.
        split; [done|right]. unfold LIFE. apply elem_of_cons in Hst as [->|[->|[]%elem_of_nil]%elem_of_cons]; simpl; set_solver.
      + exists s. rewrite lookup_insert_ne by done. split; [done|apply aged_refl].
    - rewrite lookup_insert_Some. intros [[<- <-]|[_ ?]]; congruence. }
  split; [done|]. destruct (authored_versions _ _ Hinv Ha) as [Hk Hver].
  assert (Hnew : ∀ i, schedules db !! i = None → schedules db' !! i = None).
  { intros i Hi. rewrite Hs, lookup_insert_None. split; [done|]. intros ->. congruence. }
  assert (Hact : ∀ i s, schedules db' !! i = Some s → sch_status s = "active" → schedules db !! i = Some s).
  { intros i s. rewrite Hs, lookup_insert_Some. intros [[<- <-]|[_ ?]]; [done|done]. }
  split; [done|..].
  - intros i1 s1 i2 s2 H1' H2' Hsame E. destruct (Hver _ _ _ _ H1' H2' Hsame E) as [|[?%Hnew|?%Hnew]]; congruence.
  - intros i1 s1 i2 s2 H1' H2' Hsame A1 A2. by apply (inv_one_active _ Hinv i1 s1 i2 s2); auto.
  - intros i s Hi A. by apply (inv_active _ Hinv i s); auto.
Qed.

Lemma approved_row_aged db row d now i s : keyed db → schedules db !! schedule_id row = Some row →
  sch_status row = "draft" → schedules db !! i = Some s → aged s (approved_row row d now s).
Proof.
  intros Hk Hrow Hdraft Hs. unfold approved_row. case_decide as Hid.
  - pose proof (Hk _ _ Hs) as <-. rewrite Hid, Hrow in Hs. injection Hs as <-. split; [done|right].
    rewrite Hdraft. left.
  - case_decide as Hact; [|apply aged_refl]. destruct Hact as (_ & _ & Hact). split; [done|right].
    rewrite Hact. right. right. left.
Qed.

(** An active row after an approval is the one approved, or was active under another name. *)
Lemma approved_row_active row d now s : sch_status (approved_row row d now s) = "active" →
  schedule_id s = schedule_id row ∧ approved_row row d now s = set_active now d row ∨
  approved_row row d now s = s ∧ sch_status s = "active" ∧ ¬ same_name s row.
Proof.
  unfold approved_row. case_decide; [by left|]. case_decide as Hact; [done|]. intros Hs. right.
  split; [done|]. split; [done|]. intros [? ?]. by apply Hact.
Qed.

Lemma approve_keeps tenant_id id d now db v db' : authoring_inv db →
  approve_schedule_tx tenant_id id d now db = Ok (v, db') → authored db db' ∧ authoring_inv db'.
Proof.
  intros Hinv E. apply approve_Ok in E as (row & Hrow & E); [|apply Hinv].
  apply get_schedule_Some in Hrow as [Hrow _]. pose proof (inv_keyed _ Hinv _ _ Hrow) as Hid.
  destruct E as [[_ ->]|(Hst & Hex & _ & [Hocc Horch] & Hs)].
  { split; [|done]. split; [|congruence|done|by apply beside_refl]. intros i s Hi. exists s. split; [done|apply aged_refl]. }
  rewrite <- Hid in Hrow.
  assert (Hlook : ∀ i s', schedules db' !! i = Some s' → ∃ s, schedules db !! i = Some s ∧ s' = approved_row row d now s).
  { intros i s'. rewrite Hs. intros (s & -> & ?)%fmap_Some. by exists s. }
  assert (Ha : authored db db').
  { split; [|intros i s Hi|done|done].
    - intros i s Hi. rewrite Hs, Hi. eexists. split; [done|]. by eapply approved_row_aged; [apply Hinv|..].
    - rewrite Hs, Hi. done. }
  split; [done|]. destruct (authored_versions _ _ Hinv Ha) as [Hk Hver].
  split; [done|..].
  - intros i1 s1 i2 s2 H1' H2' Hsame E. destruct (Hver _ _ _ _ H1' H2' Hsame E) as [|[Hn|Hn]]; [done|..];
      rewrite Hs, Hn in *; done.
  - intros i1 s1 i2 s2 (x1 & Hx1 & ->)%Hlook (x2 & Hx2 & ->)%Hlook Hsame A1 A2.
    pose proof (inv_keyed _ Hinv _ _ Hx1) as K1. pose proof (inv_keyed _ Hinv _ _ Hx2) as K2.
    apply approved_row_active in A1 as [[I1 R1]|(R1 & A1 & N1)], A2 as [[I2 R2]|(R2 & A2 & N2)];
      rewrite R1, R2 in Hsame.
    + congruence.
    + destruct N2. destruct Hsame. by split.
    + destruct N1. destruct Hsame. by split.
    + by apply (inv_one_active _ Hinv _ _ _ _ Hx1 Hx2).
  - intros i s (x & Hx & ->)%Hlook A. apply approved_row_active in A as [[I R]|(R & A & _)]; rewrite R.
    + split; [by apply (executable_same row)|done].
    + by apply (inv_active _ Hinv _ _ Hx).
Qed.

(** ** Calls *)

Inductive authoring :=
  | CreateDraft (tenant_id : string) (d : ScheduleDraftInput)
  | ApproveSchedule (tenant_id id : string) (d : ScheduleDecision)
  | DisableSchedule (tenant_id id : string) (d : ScheduleDecision).
(** The transaction of a call. *)
Definition author (o : authoring) (now : datetime) : SchedTx ScheduleView :=
  match o with
  | CreateDraft t d => create_draft_tx t d now
  | ApproveSchedule t id d => approve_schedule_tx t id d now
  | DisableSchedule t id d => disable_schedule_tx t id d now
  end.

Lemma author_keeps o now db v db' :
  authoring_inv db → author o now db = Ok (v, db') → authored db db' ∧ authoring_inv db'.
Proof. intros Hinv. destruct o; [by apply create_keeps|by apply approve_keeps|by apply disable_keeps]. Qed.
End authored.
