(* ===== verification/SchedScenario.v ===== *)
(** * Scheduling: a worked history

    Concrete zones, recurrences and parsers, and a schedule that launches every day,
    evaluated by the kernel: the hypotheses of the scheduling properties hold here. *)

From S2P Require Import Prelude PyFloat PyTime PyCalendar Ledger PyText Materiality Quality SchedDefs SchedCalendar.
From S2P Require Import OrchDefs OrchStore OrchCompiler Orchestrator OrchMachine OrchRefinement OrchStable OrchScenario.
From S2P Require Import SchedStore SchedPreflight Scheduler SchedMachine SchedInvariants SchedRefinement SchedBehaviour SchedPrograms.
From S2P Require Import SchedAuthoring SchedAuthored.
Local Open Scope Z_scope.

(** ** The parameters *)

#[export] Instance plain_digest : Sha256 := λ s, s.

(** A session that has let go of the instance it read, and instants with their zone. *)
#[export] Instance read_again : CursorSession.
Proof. refine {| instance_kept _ _ := false; same_instant a b := a =? b |}. by intros a b ?%Z.eqb_eq. Defined.
(** One that still has it. *)
Definition kept_instance : CursorSession.
Proof. refine {| instance_kept _ _ := true; same_instant a b := a =? b |}. by intros a b ?%Z.eqb_eq. Defined.

(** One zone, without offset. *)
#[export] Instance only_utc : TimeZones.
Proof.
  refine {| zone_known name := bool_decide (name = "UTC"); zone_wall _ t := (t, false); zone_instant _ w _ := w |}.
  done.
Defined.

(** Every rule recurs daily, at the time of its start. *)
Definition daily (start after before : aware) : list aware :=
  filter (λ a, wall after ≤ wall a ∧ wall a ≤ wall before)
    (map (λ k, mkAware (wall start + Z.of_nat k * us_per_day) false (zone start)) (seq 0 10)).
Definition months_back (d : date) (n : Z) : Res date :=
  let i := month_index d - n in
  if 12 <=? i then Ok (month_start i + (d - month_start (month_index d))) else Err (Py ValueError).
#[export] Instance daily_rules : Dateutil.
Proof.
  refine {| rrule_between _ start a b := Some (daily start a b);
            rrule_after _ start a := Some (Some (mkAware (wall a + us_per_day) false (zone start)));
            months_before := months_back |}.
  intros i n Hi Hn. unfold months_back. rewrite month_index_start.
  destruct (12 <=? i - n); [|done]. f_equal. lia.
Defined.

(** The rules as JSON objects, missing keys taking the defaults of the models. *)
Fixpoint ints (l : list json) : option (list Z) :=
  match l with
  | [] => Some []
  | JInt z :: l => (z ::.) <$> ints l
  | _ => None
  end.
Lemma ints_dump l : ints (map JInt l) = Some l.
Proof. induction l as [|z l IH]; simpl; [done|]. by rewrite IH. Qed.
Definition int_field (k : string) (d : dict) (default : Z) : Z :=
  match dict_get k d with Some (JInt z) => z | _ => default end.
Definition set_field (k : string) (d : dict) (default : gset Z) : gset Z :=
  match dict_get k d with
  | Some (JList l) => match ints l with Some zs => list_to_set zs | None => default end
  | _ => default
  end.
Definition checked {A} (valid : A → bool) (x : A) : Res A := if valid x then Ok x else Err (Py ValueError).

Definition dump_calendar_json (c : BusinessCalendarConfig) : dict :=
  [("weekend_days", JList (map JInt (elements (weekend_days c))));
   ("holidays", JList (map JInt (elements (holidays c))))].
Definition parse_calendar_json (d : dict) : Res BusinessCalendarConfig :=
  checked BusinessCalendarConfig_valid
    (mkBusinessCalendarConfig (set_field "weekend_days" d {[5; 6]}) (set_field "holidays" d ∅)).

Definition dump_window (w : BlackoutWindow) : json :=
  JObj [("start", JInt (window_start w)); ("end", JInt (window_end w));
        ("behavior", JBool (bool_decide (behavior w = blackout_skip))); ("reason", JStr (window_reason w))].
Definition parse_window (v : json) : option BlackoutWindow :=
  match v with
  | JObj [(_, JInt a); (_, JInt b); (_, JBool skip); (_, JStr r)] =>
      Some (mkBlackoutWindow a b (if skip : bool then blackout_skip else blackout_delay) r)
  | _ => None
  end.
Definition parse_blackout_json (d : dict) : Res BlackoutPolicy :=
  match dict_get "windows" d with
  | Some (JList l) =>
      match mapM parse_window l with
      | Some ws => checked BlackoutPolicy_valid (mkBlackoutPolicy ws)
      | None => Err (Py ValueError)
      end
  | _ => Ok (mkBlackoutPolicy [])
  end.
Definition dump_period_json (r : AuditPeriodRule) : dict :=
  [("kind", JBool (bool_decide (kind r = rolling_days))); ("months", JInt (months r)); ("days", JInt (days r));
   ("end_offset_days", JInt (end_offset_days r))].
Definition parse_period_json (d : dict) : Res AuditPeriodRule :=
  checked AuditPeriodRule_valid
    (mkAuditPeriodRule (match dict_get "kind" d with Some (JBool true) => rolling_days | _ => calendar_months end)
       (int_field "months" d 1) (int_field "days" d 30) (int_field "end_offset_days" d 1)).

Lemma checked_valid {A} (valid : A → bool) x y : checked valid x = Ok y → valid y = true.
Proof. unfold checked. destruct (valid x) eqn:E; [|done]. by intros [= <-]. Qed.

#[export] Instance json_rules : Pydantic.
Proof.
  refine {| parse_calendar := parse_calendar_json; parse_blackout := parse_blackout_json;
            parse_period := parse_period_json; parse_workflow _ := Ok sample_workflow |}.
  - intros d c. apply checked_valid.
  - intros d c. unfold parse_blackout_json. repeat case_match; intros E; first [by apply checked_valid in E|done|by injection E as <-].
  - intros d c. apply checked_valid.
  - intros d w [= <-]. vm_compute. reflexivity.
Defined.
Ltac fields := cbn; repeat (first [rewrite decide_True by reflexivity | rewrite decide_False by discriminate]; cbn).
#[export] Instance json_dumps : PydanticDump.
Proof.
  refine {| dump_calendar := dump_calendar_json; dump_period := dump_period_json;
            dump_blackout p := [("windows", JList (map dump_window (windows p)))] |}.
  - intros [w h] Hv. unfold parse_calendar, json_rules, parse_calendar_json, set_field, checked.
    fields. rewrite !ints_dump, !list_to_set_elements_L. by rewrite Hv.
  - intros [ws] Hv. unfold parse_blackout, json_rules, parse_blackout_json, checked. fields.
    assert (E : mapM parse_window (map dump_window ws) = Some ws).
    { clear Hv. induction ws as [|[a b [] r] ws IH]; [done|..]; cbn; by rewrite IH. }
    rewrite E. unfold BlackoutPolicy_valid in *. cbn in *. by rewrite Hv.
  - intros [[] m n o] Hv; unfold parse_period, json_rules, parse_period_json, int_field, checked; fields;
    unfold AuditPeriodRule_valid in *; cbn in *; by rewrite Hv.
Defined.

(** ** The database *)

Definition daily_schedule (mode : string) : AuditSchedule :=
  mkAuditSchedule "sch" "t1" "plan" "tpl" "Daily" 1 "active" "FREQ=DAILY" "UTC" t0 None [] [] [] empty_policy mode
    "launch_latest" 1 "allow" 5 (Some t0) (Some "lead") (Some "approved") None None None.
Definition sched_db (mode : string) : SchedDB :=
  mkSchedDB (empty_db t0) {["t1" := mkTenant "t1" "active"]} {["plan" := mkAuditPlan "plan" "t1" "approved"]}
    {["tpl" := mkEngagementTemplate "tpl" "t1" "Template" 1 "released" "pack" [] [] empty_policy
        [("workflow_version", JStr "v1")]]}
    {["sch" := daily_schedule mode]} ∅ ∅.

(** A clock that advances a second a reading, and no other client. *)
Definition alone : Environment nat :=
  mkEnvironment (λ n, (t0 + us_per_day + us_per_day + seconds (Z.of_nat n), S n)) (λ _ _, "error") (λ db n, (db, n)).
Definition site_of (mode : string) : SchedSite nat := mkSchedSite (sched_db mode) 0%nat.

Lemma alone_steps db n : sched_inv db → sched_steps db (fst (env_between alone db n)).
Proof. intros _. apply rtc_refl. Qed.

Lemma sched_db_step mode : sched_step (empty_sched t0) (sched_db mode).
Proof.
  apply step_config; try done. split; [done|].
  intros id s. simpl. intros [<- <-]%lookup_singleton_Some. done.
Qed.
Lemma sched_db_happens mode : happens alone (sched_db mode).
Proof.
  eapply happens_beside; [apply (happens_first _ t0)|apply sched_db_step].
Qed.

Definition evaluation : sched_operation := EvaluateDue "t1" None None "worker" 60.
Definition evaluated (mode : string) : Res () * SchedSite nat := call alone evaluation (site_of mode).


Definition after_evaluation (mode : string) : SchedDB := site_db (snd (evaluated mode)).
Lemma evaluated_eq mode : call alone evaluation (site_of mode) = (fst (evaluated mode), snd (evaluated mode)).
Proof. apply surjective_pairing. Qed.
Lemma after_evaluation_happens mode : happens alone (after_evaluation mode).
Proof.
  eapply (happens_call _ evaluation (site_of mode)); [apply sched_db_happens|reflexivity|apply evaluated_eq].
Qed.

(** ** A lease that outlives its evaluation *)

(** Where the session still has the instance it read before the lease, releasing the
    cursor writes no lease: another worker is turned away from a schedule nobody is
    evaluating. *)
Section kept.
#[local] Existing Instance kept_instance.

Definition evaluate_by (worker : string) (now : datetime) : SchedTx _MaterializationResult :=
  _materialize_due_occurrences "t1" "sch" now worker 60 t0.
Example lease_outlives_evaluation :
  let now := t0 + us_per_day + us_per_day in
  let db := after_run (evaluate_by "worker" now) (sched_db "automatic") in
  (size (occurrences db), cur_lease_owner <$> cursors db !! "sch") = (3%nat, Some (Some "worker")) ∧
  match evaluate_by "another" (now + 10 * us_per_second) db with
  | Ok (r, db') => r = nothing_materialized ∧ last_evaluated_at <$> cursors db' !! "sch" = Some (Some now)
  | Err _ => False
  end.
Proof. vm_compute. done. Qed.
End kept.

(** The occurrence of the last day, and one the policy passes over. *)
Definition launched_id : string := "occ_sch|2026-08-08T07:06".
Definition skipped_id : string := "occ_sch|2026-08-07T07:06".
Definition row_of (db : SchedDB) (id : string) : ScheduleOccurrence :=
  default (mkScheduleOccurrence (mkOccurrenceSpec "" "" "" 0 0 0 0 0 [] [])
             (mkOccurrenceState None 0 OccurrenceStatus.DUE None None [] None None 0 None)) (occurrences db !! id).
Lemma row_of_eq mode id : is_Some (occurrences (after_evaluation mode) !! id) →
  occurrences (after_evaluation mode) !! id = Some (row_of (after_evaluation mode) id).
Proof. intros [x Hx]. unfold row_of. by rewrite Hx. Qed.

(** ** A revision *)

Lemma executable_computed s :
  match _draft_from_row s with Ok d => is_ok (_validate_definition d) | Err _ => false end = true → executable s.
Proof.
  unfold executable. destruct (_draft_from_row s) as [d|]; [|done]. intros E. exists d. split; [done|].
  by destruct (_validate_definition d) as [[]|].
Qed.

Lemma sched_db_authoring : authoring_inv (sched_db "automatic").
Proof.
  assert (Hs : ∀ i s, schedules (sched_db "automatic") !! i = Some s → i = "sch" ∧ s = daily_schedule "automatic").
  { intros i s. simpl. by intros [<- <-]%lookup_singleton_Some. }
  split.
  - by intros i s [-> ->]%Hs.
  - by intros i1 s1 i2 s2 [-> _]%Hs [-> _]%Hs.
  - by intros i1 s1 i2 s2 [-> _]%Hs [-> _]%Hs.
  - intros i s [-> ->]%Hs _. split; [|by split; eexists]. apply executable_computed. vm_compute. reflexivity.
Qed.

Definition revised : ScheduleDraftInput :=
  mkScheduleDraftInput "Daily" "plan" "tpl" "FREQ=DAILY" "UTC" t0 None (mkAuditPeriodRule rolling_days 1 7 0)
    (mkBusinessCalendarConfig {[6]} ∅) (mkBlackoutPolicy [mkBlackoutWindow 739000 739001 blackout_skip "year end"])
    empty_policy LaunchMode.APPROVAL_REQUIRED MissedOccurrencePolicy.SKIP 3 OverlapPolicy.PREVENT 1.
Definition drafting : authoring := CreateDraft "t1" revised.
Definition drafted : SchedDB := after_run (author drafting (after 60)) (sched_db "automatic").
Definition approving : authoring := ApproveSchedule "t1" "sch_0" (mkScheduleDecision "lead" "revised").
Definition approved : SchedDB := after_run (author approving (after 120)) drafted.
