(* ===== verification/SchedProperties.v ===== *)
(** * Scheduling: the properties *)

From S2P Require Import Prelude PyFloat PyTime PyCalendar Ledger PyText Materiality Quality SchedDefs SchedCalendar.
From S2P Require Import OrchDefs OrchStore OrchCompiler Orchestrator OrchMachine OrchRefinement OrchStable OrchScenario.
From S2P Require Import SchedStore SchedPreflight Scheduler SchedMachine SchedInvariants SchedRefinement SchedBehaviour SchedPrograms.
From S2P Require Import SchedAuthoring SchedAuthored SchedScenario.
Local Open Scope Z_scope.

Section properties.
Context `{UuidSource} `{Sha256} `{TimeZones} `{Dateutil} `{Pydantic} `{CursorSession}.

(** C2: A call of the scheduler, whether it returns or raises in the middle,
    is a sequence of guarded, recorded moves of the scheduling machine, whatever
    other clients of the database commit between its sessions within that machine; it
    keeps the invariant of the tables. *)
Theorem scheduler_refines_machine {P} (env : Environment P) o w r w' :
  (∀ db p, sched_inv db → sched_steps db (fst (env_between env db p))) →
  valid_call o = true → sched_inv (site_db w) → call env o w = (r, w') →
  sched_steps (site_db w) (site_db w') ∧ sched_inv (site_db w').
Proof.
  intros Hb Hv Hinv E. destruct (call_moves env Hb o Hv w r w' Hinv I E) as [Hs _].
  split; [done|by eapply sched_inv_steps].
Qed.

(** C3: An occurrence is launched only with an engagement of its own, which has
    its tenant and its audit period, has been started and has tasks; its preflight
    was passed on record, and either its schedule launches automatically or a
    decision on it is recorded. *)
Theorem launched_was_cleared {P} (env : Environment P) db id o :
  (∀ db p, sched_inv db → sched_steps db (fst (env_between env db p))) →
  happens env db → occurrences db !! id = Some o → ostatus o = OccurrenceStatus.LAUNCHED →
  ∃ e g, occ_engagement_id (ostate o) = Some e ∧ engagements (orch db) !! e = Some g ∧
    eng_tenant_id g = occ_tenant_id (ospec o) ∧ period_start g = occ_period_start (ospec o) ∧
    period_end g = occ_period_end (ospec o) ∧ eng_status g ≠ EngagementStatus.PLANNED ∧
    has_tasks (orch db) (eng_tenant_id g) e ∧
    recorded db id "scheduler.preflight.passed" ∧ authorised db o ∧
    ∀ id' o', occurrences db !! id' = Some o' → occ_engagement_id (ostate o') = Some e → id' = id.
Proof.
  intros Hb Hh Ho Hl. apply (happens_inv _ Hb) in Hh as Hinv. pose proof (inv_occ _ Hinv _ _ Ho) as Hi.
  destruct (inv_launch _ _ _ Hi) as [[e He] [Hr Ha]]; [rewrite Hl; right; left|].
  destruct (inv_engagement _ _ _ Hi e He) as (_ & g & Hg & Ht & Hp1 & Hp2).
  destruct (inv_launched _ _ _ Hi e Hl He) as [(g' & Hg' & Hst) Htasks].
  rewrite Hg in Hg'. injection Hg' as <-. exists e, g. rewrite Ht. rewrite (inv_key _ _ _ Hi) in Hr.
  split_and!; try done. intros id' o' Ho' He'. by eapply (inv_unique _ Hinv).
Qed.

(** C39: However often and by however many workers a schedule is evaluated, a due
    instant of it becomes one occurrence: two rows with the same schedule and the same
    instant are the same row. *)
Theorem due_materialised_once {P} (env : Environment P) db id1 o1 id2 o2 :
  (∀ db p, sched_inv db → sched_steps db (fst (env_between env db p))) →
  happens env db → occurrences db !! id1 = Some o1 → occurrences db !! id2 = Some o2 →
  occ_schedule_id (ospec o1) = occ_schedule_id (ospec o2) → nominal_due (ospec o1) = nominal_due (ospec o2) →
  id1 = id2 ∧ o1 = o2.
Proof.
  intros Hb Hh H1' H2' Es Ed. apply (happens_inv _ Hb) in Hh as Hinv.
  pose proof (inv_derived _ _ _ (inv_occ _ Hinv _ _ H1')) as E1.
  pose proof (inv_derived _ _ _ (inv_occ _ Hinv _ _ H2')) as E2.
  assert (id1 = id2) as -> by congruence. split; congruence.
Qed.

(** No call loses an occurrence or changes what it stands for: its schedule, its
    instant, its period and its snapshots stay; a skipped occurrence stays skipped and
    no other becomes so; the engagement it was launched with, the fact that somebody
    decided on it, and the events recorded about it stay. *)
Theorem occurrences_last {P} (env : Environment P) o w r w' id x :
  (∀ db p, sched_inv db → sched_steps db (fst (env_between env db p))) →
  valid_call o = true → happens env (site_db w) → call env o w = (r, w') →
  occurrences (site_db w) !! id = Some x →
  ∃ x', occurrences (site_db w') !! id = Some x' ∧ ospec x' = ospec x ∧
    (ostatus x' = OccurrenceStatus.SKIPPED ↔ ostatus x = OccurrenceStatus.SKIPPED) ∧
    (truthy (decision_by (ostate x)) = true → truthy (decision_by (ostate x')) = true) ∧
    (∀ e, occ_engagement_id (ostate x) = Some e → occ_engagement_id (ostate x') = Some e) ∧
    (∀ ty, recorded (site_db w) id ty → recorded (site_db w') id ty).
Proof.
  intros Hb Hv Hh%(happens_inv _ Hb) E Hx. destruct (call_moves env Hb o Hv w r w' Hh I E) as [Hs _].
  pose proof (steps_last _ _ Hs) as Hl. destruct (lasts_occ _ _ Hl _ _ Hx) as (x' & Hx' & Esp & [Hsk Hd He]).
  exists x'. split_and!; try done.
  - intros e Hxe. apply He; [|done]. apply (inv_engagement _ _ _ (inv_occ _ Hh _ _ Hx)) in Hxe as [-> _]. done.
  - intros ty. by apply recorded_lasts.
Qed.

(** The scheduler uses the orchestrator only as its contract allows: in every
    history of scheduler calls the workflow tables are a state the orchestrator
    reaches by its own operations, so that every theorem about those states holds of
    the engagements the scheduler starts; and it creates no engagement but the one its
    occurrence is bound to. *)
Theorem scheduling_keeps_workflow {P} (env : Environment P) db :
  (∀ db p, sched_inv db → sched_steps db (fst (env_between env db p))) →
  happens env db →
  reachable (orch db) ∧
  ∀ x, is_Some (engagements (orch db) !! _engagement_id x) →
    ∃ id o, occurrences db !! id = Some o ∧ occ_engagement_id (ostate o) = Some (_engagement_id x).
Proof. intros Hb Hh%(happens_inv _ Hb). split; [apply Hh|]. intros x. apply (inv_owned _ Hh). Qed.

(** C38: An evaluation that commits, of a schedule with a positive catch-up limit, in a
    state with the invariant every history of the scheduler keeps: where another worker
    holds an unexpired lease, nothing changes. Otherwise the window runs from the last
    evaluation, or just before the schedule takes effect, to the present or its end. Every
    instant the recurrence gives in it has one occurrence afterwards and the old
    occurrences stay as they were; a new one has the period and the eligible instant its
    due instant resolves to and starts skipped if the policy passes it over (skip: all,
    launch_latest: all but the last, launch_all: all but the last as many as the limit),
    else as the blackout of its day says; as many as are reported were added. The cursor
    then has the present and the next due instant. It is released where the session read
    the row again after the lease; where it still had the instance read before, a lease
    that was free before is not released and stands until it runs out. *)
Theorem evaluation_exact tenant_id id now worker n at_ db r db' :
  sched_inv db → (∀ s, get_schedule db tenant_id id = Some s → 0 < catch_up_limit s) →
  _materialize_due_occurrences tenant_id id now worker n at_ db = Ok (r, db') →
  ∃ s, get_schedule db tenant_id id = Some s ∧ let old := cursors db !! schedule_id s in
    (held_by_another worker now old ∧ r = nothing_materialized ∧ db' = db ∨
     ¬ held_by_another worker now old ∧
     (∃ c, cursors db' !! schedule_id s = Some c ∧ cursor_left s worker now (now + n * 1000000) old c) ∧
     (∀ k, k ≠ schedule_id s → cursors db' !! k = cursors db !! k) ∧
     if decide (closes_at s now ≤ opens_at s old) then r = nothing_materialized ∧ occurrences db' = occurrences db
     else ∃ dues k, due_between s (opens_at s old) (closes_at s now) dues ∧ (dues = [] ∨ passes_over s (zlen dues) k) ∧
       grown s dues (take (Z.to_nat k) dues) db db' ∧ created r = rows db' - rows db).
Proof.
  intros Hinv Hl (s & Hs & E)%materialize_effect; [|done]. exists s. split; [done|]. cbv zeta in *.
  destruct E as [E|(Hh & Hc & Hk & E)]; [by left|right]. split_and!; [done..|]. case_decide; [done|].
  destruct E as (dues & selected & forced & Hd & Hsel & Hg & Hr). exists dues. destruct (decide (dues = [])) as [->|Hne].
  - exists 0. injection Hsel as <- <-. split_and!; [done|by left|done|done].
  - destruct (select_passes _ _ _ _ (Hl s Hs) Hne Hsel) as (k & Hp & ->). exists k. split_and!; [done|by right|done|done].
Qed.

(** C40: A preflight passes exactly when everything a launch requires holds: an active
    tenant, an approved plan, an active schedule, a released or approved template with a
    workflow; what the schedule's policy asks, or the template's where it says nothing:
    every connector healthy, every competency present, the cost within the budget, no
    conflict of independence; of the tenant's other engagements on the template that are
    planned, running, waiting for approval or blocked, fewer than the limit and, unless
    the schedule's overlap policy is allow, none but such whose period is over before the
    audit period begins or begins after its end. *)
Theorem preflight_exact db s t o context at_ :
  report_passed (evaluate db s t o context at_) = true ↔ launchable db s t o context.
Proof. apply passed_launchable. Qed.

(** The audit period of a due day: a rolling period is the given number of days
    that ends the given number of days before; a period of calendar months is the
    given number of whole months up to the last month that is over on that day. A
    period is refused only when it would begin before the calendar. *)
Theorem period_exact due rule :
  AuditPeriodRule_valid rule = true → 1 ≤ local_date due ≤ max_ordinal →
  let stop := local_date due - end_offset_days rule in
  match kind rule with
  | rolling_days =>
      calculate due rule =
        if 1 <=? stop - days rule + 1 then Ok (stop - days rule + 1, stop) else Err (Py OverflowError)
  | calendar_months =>
      let last := last_completed stop in
      month_start (last + 1) - 1 ≤ stop < month_start (last + 2) - 1 ∧
      if 12 <=? last - months rule + 1
      then calculate due rule = Ok (month_start (last - months rule + 1), month_start (last + 1) - 1)
      else ∃ e, calculate due rule = Err (Py e)
  end.
Proof.
  intros Hv Hd. destruct (kind rule) eqn:Hk; cbv zeta.
  - split; [apply last_completed_spec|by apply calculate_months].
  - by apply calculate_rolling.
Qed.

(** The first blackout window that holds the local due day decides: a skipping
    one skips, a delaying one moves the occurrence to the first business day after the
    window at the same time of day; the search for that day always ends, and fails only
    when the calendar has no business day left. *)
Theorem blackout_exact c due p tz :
  BlackoutPolicy_valid p = true →
  match list_find (λ w, in_window (local_date due) w = true) (windows p) with
  | None => resolve_blackout c due p tz = Ok (mkBlackoutResolution due action_none None)
  | Some (_, w) =>
      match behavior w with
      | blackout_skip =>
          resolve_blackout c due p tz = Ok (mkBlackoutResolution due action_skip (Some (window_reason w)))
      | blackout_delay =>
          match resolve_blackout c due p tz with
          | Ok r => action r = action_delay ∧ reason r = Some (window_reason w) ∧
              zone (eligible_at r) = tz ∧ wall (eligible_at r) mod us_per_day = wall due mod us_per_day ∧
              window_end w < local_date (eligible_at r) ∧
              is_business_day c (local_date (eligible_at r)) = true ∧
              ∀ x, window_end w < x < local_date (eligible_at r) → is_business_day c x = false
          | Err e => e = Py OverflowError ∧
              ∀ x, window_end w < x ≤ max_ordinal → is_business_day c x = false
          end
      end
  end.
Proof. intros Hv. by apply resolve_windows_spec. Qed.

(** Drafting, approving and disabling a schedule keep every row with its
    definition and move its status only from draft to active or disabled and from
    active to superseded or disabled; a new row is a draft with a version above every
    other of its name.  At most one version of a name is active, and an active schedule
    has an approver, rules that parse and a recurrence that evaluates.  To the scheduler
    all of it is a change of configuration. *)
Theorem authoring_safe `{!PydanticDump} o now db v db' :
  sched_inv db → authoring_inv db → author o now db = Ok (v, db') →
  authoring_inv db' ∧ authored db db' ∧ sched_step db db'.
Proof.
  intros Hs Hinv E. destruct (author_keeps o now db v db' Hinv E) as [Ha Hinv'].
  split; [done|]. split; [done|]. by apply authored_step.
Qed.

(** A valid draft is stored without loss: the row made of it is read back as the
    same draft when the schedule is approved. *)
Theorem draft_round_trip `{!PydanticDump} tenant_id d now db v db' :
  ScheduleDraftInput_valid d = true → AuditPeriodRule_valid (draft_audit_period_rule d) = true →
  BusinessCalendarConfig_valid (draft_business_calendar d) = true →
  BlackoutPolicy_valid (draft_blackout_policy d) = true →
  create_draft_tx tenant_id d now db = Ok (v, db') → _draft_from_row v = Ok d.
Proof.
  intros Hv Hp Hc Hb E. unfold create_draft_tx, reading in E. inv_tx. unfold _draft_from_row. simpl.
  rewrite parse_dump_period, parse_dump_calendar, parse_dump_blackout by done. cbn [res_bind].
  rewrite !of_value_value. cbn [res_of res_bind]. destruct d. simpl in *. by rewrite Hv.
Qed.
End properties.

(** ** Witnesses *)

Lemma scheduler_refines_machine_witness :
  fst (evaluated "automatic") = Ok tt ∧
  sched_steps (sched_db "automatic") (after_evaluation "automatic") ∧ sched_inv (after_evaluation "automatic").
Proof.
  split; [vm_compute; reflexivity|].
  exact (scheduler_refines_machine alone evaluation (site_of "automatic") _ _ alone_steps eq_refl
    (happens_inv _ alone_steps _ (sched_db_happens "automatic")) (evaluated_eq "automatic")).
Defined.

Lemma launched_was_cleared_witness :
  let db := after_evaluation "automatic" in
  ∃ o e, occurrences db !! launched_id = Some o ∧ occ_engagement_id (ostate o) = Some e ∧
    recorded db launched_id "scheduler.preflight.passed" ∧ authorised db o.
Proof.
  assert (Ho := row_of_eq "automatic" launched_id ltac:(vm_compute; by eexists)).
  destruct (launched_was_cleared alone (after_evaluation "automatic") launched_id _ alone_steps
    (after_evaluation_happens "automatic") Ho ltac:(vm_compute; reflexivity))
    as (e & g & He & _ & _ & _ & _ & _ & _ & Hr & Ha & _).
  eexists _, e. split; [exact Ho|]. split; [exact He|]. split; [exact Hr|exact Ha].
Defined.

Lemma due_materialised_once_witness :
  let o := row_of (after_evaluation "automatic") skipped_id in
  nominal_due (ospec o) = t0 + us_per_day ∧ skipped_id = skipped_id ∧ o = o.
Proof.
  assert (Ho := row_of_eq "automatic" skipped_id ltac:(vm_compute; by eexists)).
  split; [vm_compute; reflexivity|].
  exact (due_materialised_once alone (after_evaluation "automatic") skipped_id _ skipped_id _ alone_steps
    (after_evaluation_happens "automatic") Ho Ho eq_refl eq_refl).
Defined.

(** A second evaluation, a day later. *)
Definition next_day : SchedSite nat := mkSchedSite (after_evaluation "automatic") (Z.to_nat 86400).
Lemma occurrences_last_witness :
  ∃ x', occurrences (site_db (snd (call alone evaluation next_day))) !! skipped_id = Some x' ∧
    ostatus x' = OccurrenceStatus.SKIPPED.
Proof.
  assert (Ho := row_of_eq "automatic" skipped_id ltac:(vm_compute; by eexists)).
  destruct (occurrences_last alone evaluation next_day _ _ skipped_id _ alone_steps eq_refl
    (after_evaluation_happens "automatic") (surjective_pairing _) Ho) as (x' & Hx' & _ & Hs & _).
  exists x'. split; [exact Hx'|]. apply Hs. vm_compute. reflexivity.
Defined.

Lemma scheduling_keeps_workflow_witness :
  reachable (orch (after_evaluation "automatic")) ∧ size (engagements (orch (after_evaluation "automatic"))) = 1%nat.
Proof.
  split; [|vm_compute; reflexivity].
  exact (proj1 (scheduling_keeps_workflow alone _ alone_steps (after_evaluation_happens "automatic"))).
Defined.

Lemma evaluation_exact_witness :
  let m := _materialize_due_occurrences "t1" "sch" (t0 + us_per_day + us_per_day) "worker" 60 t0 in
  ∃ r db', m (sched_db "automatic") = Ok (r, db') ∧ created r = 3 ∧
  ∃ s c, get_schedule (sched_db "automatic") "t1" "sch" = Some s ∧ cursors db' !! schedule_id s = Some c ∧
    last_evaluated_at c = Some (t0 + us_per_day + us_per_day) ∧ cur_lease_owner c = None.
Proof.
  cbv zeta. set (m := _materialize_due_occurrences _ _ _ _ _ _).
  destruct (after_run_Ok m (sched_db "automatic")) as [r Er]; [vm_compute; reflexivity|].
  exists r, (after_run m (sched_db "automatic")). split; [exact Er|].
  assert (Hc : match m (sched_db "automatic") with Ok (r, _) => created r | Err _ => 0 end = 3)
    by (vm_compute; reflexivity).
  rewrite Er in Hc. split; [exact Hc|].
  assert (Hl : ∀ s, get_schedule (sched_db "automatic") "t1" "sch" = Some s → 0 < catch_up_limit s)
    by (intros s Hs; apply (f_equal (λ o, match o with Some s => catch_up_limit s | None => 0 end)) in Hs; cbn in Hs; rewrite <- Hs; reflexivity).
  destruct (evaluation_exact _ _ _ _ _ _ _ _ _ (happens_inv _ alone_steps _ (sched_db_happens "automatic")) Hl Er) as (s & Hs & [(_ & E & _)|(_ & (c & Hcur & He) & _)]).
  - exfalso. rewrite E in Hc. discriminate Hc.
  - exists s, c. split; [exact Hs|]. split; [exact Hcur|]. split; [exact (left_last _ _ _ _ _ _ He)|].
    rewrite (left_owner _ _ _ _ _ _ He). reflexivity.
Defined.

Lemma period_exact_witness :
  let rule := mkAuditPeriodRule calendar_months 3 1 0 in
  AuditPeriodRule_valid rule = true ∧
  calculate (mkAware t0 false utc) rule = Ok (ymd2ord 2026 5 1, ymd2ord 2026 7 31).
Proof.
  cbv zeta. split; [reflexivity|].
  exact (proj2 (period_exact (mkAware t0 false utc) (mkAuditPeriodRule calendar_months 3 1 0) eq_refl
    ltac:(vm_compute; intuition discriminate))).
Defined.

(** A window found first. *)
Lemma list_find_here {A} (P : A → Prop) `{!∀ x, Decision (P x)} x l :
  P x → list_find P (x :: l) = Some (0%nat, x).
Proof. intros Hx. simpl. by rewrite decide_True. Qed.

Lemma blackout_exact_witness :
  let c := mkBusinessCalendarConfig {[5; 6]} ∅ in
  let d := local_date (mkAware t0 false utc) in
  let p := mkBlackoutPolicy [mkBlackoutWindow d (d + 1) blackout_delay "closed"] in
  BlackoutPolicy_valid p = true ∧
  ∃ r, resolve_blackout c (mkAware t0 false utc) p utc = Ok r ∧ local_date (eligible_at r) = d + 4 ∧
    is_business_day c (local_date (eligible_at r)) = true ∧
    ∀ x, d + 1 < x < local_date (eligible_at r) → is_business_day c x = false.
Proof.
  cbv zeta. split; [reflexivity|].
  pose proof (blackout_exact (mkBusinessCalendarConfig {[5; 6]} ∅) (mkAware t0 false utc)
    (mkBlackoutPolicy [mkBlackoutWindow (local_date (mkAware t0 false utc)) (local_date (mkAware t0 false utc) + 1)
      blackout_delay "closed"]) utc eq_refl) as Hb.
  set (m := resolve_blackout _ _ _ _) in *.
  assert (Hm : match m with Ok r => local_date (eligible_at r) = local_date (mkAware t0 false utc) + 4 | Err _ => False end)
    by (vm_compute; reflexivity).
  cbn [windows] in Hb. rewrite list_find_here in Hb by (vm_compute; reflexivity).
  cbn [behavior] in Hb. destruct m as [r|e]; [|destruct Hm].
  destruct Hb as (_ & _ & _ & _ & _ & Hbd & Hbetween).
  exists r. split; [reflexivity|]. split; [exact Hm|]. split; [exact Hbd|exact Hbetween].
Defined.

Lemma authoring_safe_witness :
  authoring_inv approved ∧ sched_step drafted approved ∧
  map (λ s, (schedule_id s, sch_version s, sch_status s)) (list_schedules approved "t1" None) =
    [("sch", 1, "superseded"); ("sch_0", 2, "active")].
Proof.
  destruct (after_run_Ok (author drafting (after 60)) (sched_db "automatic")) as [v1 E1]; [vm_compute; reflexivity|].
  destruct (after_run_Ok (author approving (after 120)) drafted) as [v2 E2]; [vm_compute; reflexivity|].
  pose proof (happens_inv _ alone_steps _ (sched_db_happens "automatic")) as Hs.
  destruct (authoring_safe _ _ _ _ _ Hs sched_db_authoring E1) as (H1 & _ & Hstep1).
  destruct (authoring_safe _ _ _ _ _ (sched_inv_step _ _ Hstep1 Hs) H1 E2) as (H2 & _ & Hstep2).
  split; [exact H2|]. split; [exact Hstep2|]. vm_compute. reflexivity.
Defined.

Lemma draft_round_trip_witness :
  ∃ v, create_draft_tx "t1" revised (after 60) (sched_db "automatic") = Ok (v, drafted) ∧ _draft_from_row v = Ok revised.
Proof.
  destruct (after_run_Ok (create_draft_tx "t1" revised (after 60)) (sched_db "automatic")) as [v E];
    [vm_compute; reflexivity|].
  exists v. split; [exact E|].
  exact (draft_round_trip "t1" revised (after 60) (sched_db "automatic") v drafted
    ltac:(vm_compute; reflexivity) ltac:(vm_compute; reflexivity) ltac:(vm_compute; reflexivity)
    ltac:(vm_compute; reflexivity) E).
Defined.

(** ** A cancellation that does not hold *)

Definition decision_of (who : string) : OccurrenceDecision := mkOccurrenceDecision who "decided" empty_context.

(** Another client cancels the occurrence as soon as its approval is recorded, before
    the preflight that follows the approval. *)
Definition cancels (db : SchedDB) : SchedDB :=
  match occurrences db !! launched_id with
  | Some o =>
      if decide (ostatus o = OccurrenceStatus.WAITING_APPROVAL ∧ decision_by (ostate o) = Some "lead")
      then after_run (cancel_tx "t1" launched_id (decision_of "manager") t0) db else db
  | None => db
  end.
Definition cancelled_meanwhile : Environment nat :=
  mkEnvironment (env_clock alone) (env_text alone) (λ db n, (cancels db, n)).

Lemma cancels_steps db n : sched_inv db → sched_steps db (fst (env_between cancelled_meanwhile db n)).
Proof.
  intros Hinv. simpl. unfold cancels, after_run. destruct (occurrences db !! launched_id); [|apply rtc_refl].
  case_decide; [|apply rtc_refl]. destruct (cancel_tx _ _ _ _ db) as [[a db']|e] eqn:E; [|apply rtc_refl].
  by apply (cancel_moves "t1" launched_id (decision_of "manager") t0 eq_refl db a db' Hinv I E).
Qed.

Definition approval : sched_operation := ApproveOccurrence "t1" launched_id (decision_of "lead").
(** The evaluation that makes the occurrence wait, its approval, and an evaluation an hour later. *)
Definition waiting : SchedSite nat := snd (call cancelled_meanwhile evaluation (site_of "approval_required")).
Definition cancelled : SchedSite nat := snd (call cancelled_meanwhile approval waiting).
Definition retried : SchedSite nat :=
  snd (call cancelled_meanwhile evaluation (mkSchedSite (site_db cancelled) 3600%nat)).

Definition about (id : string) (r : AuditEventRow) : bool :=
  match dict_get "occurrence_id" (ev_payload (row_event r)) with Some (JStr s) => bool_decide (s = id) | _ => false end.
Definition story (db : SchedDB) : string * option string * list string :=
  (value (ostatus (row_of db launched_id)), decision_by (ostate (row_of db launched_id)),
   map (λ r, ev_event_type (row_event r)) (List.filter (about launched_id) (audit_events (get_ledger db)))).

(** An approval overtaken by a cancellation: the launch it goes on to refuses the
    cancelled occurrence, the refusal is recorded as a failed launch, and the next
    evaluation retries it, taking the canceller for the approver. *)
Lemma cancelled_occurrence_launched :
  happens cancelled_meanwhile (site_db retried) ∧
  story (site_db cancelled) = ("launch_failed", Some "manager",
    ["scheduler.occurrence.created"; "scheduler.occurrence.waiting_approval"; "scheduler.occurrence.approved";
     "scheduler.occurrence.cancelled"; "scheduler.preflight.passed"; "scheduler.launch.failed"]) ∧
  (story (site_db retried)).1.1 = "launched".
Proof.
  split; [|split; vm_compute; reflexivity].
  assert (Hs : happens cancelled_meanwhile (sched_db "approval_required")).
  { eapply happens_beside; [apply (happens_first _ t0)|apply sched_db_step]. }
  eapply (happens_call _ evaluation (mkSchedSite (site_db cancelled) 3600%nat) _ retried);
    [|reflexivity|apply surjective_pairing].
  eapply (happens_call _ approval waiting _ cancelled); [|reflexivity|apply surjective_pairing].
  by eapply (happens_call _ evaluation (site_of "approval_required") _ waiting); [|reflexivity|apply surjective_pairing].
Qed.
