(* ===== verification/VaultStore.v ===== *)
(** * Evidence vault: the store

    The rows of db/models/evidence.py, vault/repository.py over them, the digest of a
    custody event (vault/custody.py) and the content-addressed store of the bytes
    (vault/storage.py).  A record is split into what an acquisition writes once and
    what custody updates.  Unique keys, foreign keys and check constraints are
    enforced; of the tenants, the engagements and the tasks only their keys are kept.
    An object is its bytes and the instant it was written; putting one is a single step. *)

From Stdlib Require Import Ascii.
From S2P Require Import Prelude Tables PyFloat PyTime Ledger PyText PyCodec Materiality.
Local Open Scope Z_scope.

(** ** Rows *)

Record Acquisition := mkAcquisition {
  evidence_id : string;
  evd_tenant_id : string;
  evd_engagement_id : option string;
  evd_task_id : option string;
  acquisition_key : option string;
  record_kind : string;
  source_type : string;
  source_locator : string;
  content_sha256 : string;
  storage_provider : string;
  storage_key : option string;
  object_uri : option string;
  original_filename : option string;
  mime_type : option string;
  content_encoding : option string;
  size_bytes : Z;
  classification : string;
  source_time : option datetime;
  collected_at : datetime;
  evd_accepted : bool;
  evd_tainted : bool;
  metadata_json : dict
}.
(** What custody changes. *)
Record Custody := mkCustody {
  integrity_status : string;
  last_verified_at : option datetime;
  retention_until : option date;
  legal_hold : bool;
  deleted_at : option datetime;
  deletion_reason : option string
}.
Record EvidenceRecord := mkEvidenceRecord { acquisition : Acquisition; custody : Custody }.
Definition set_custody (v : Custody) (e : EvidenceRecord) : EvidenceRecord := mkEvidenceRecord (acquisition e) v.
Definition eid (e : EvidenceRecord) : string := evidence_id (acquisition e).
Definition etenant (e : EvidenceRecord) : string := evd_tenant_id (acquisition e).
Definition digest (e : EvidenceRecord) : string := content_sha256 (acquisition e).
Definition active (e : EvidenceRecord) : bool := bool_decide (deleted_at (custody e) = None).

Record EvidenceTransformation := mkEvidenceTransformation {
  transformation_id : string;
  trn_tenant_id : string;
  source_evidence_id : string;
  derived_evidence_id : string;
  trn_operation : string;
  trn_tool_version : string;
  parameters_json : dict;
  trn_created_at : datetime
}.
Record EvidenceCustodyEvent := mkEvidenceCustodyEvent {
  custody_event_id : string;
  cst_tenant_id : string;
  cst_evidence_id : string;
  cst_sequence_no : Z;
  cst_action : string;
  cst_actor_type : string;
  cst_actor_id : string;
  cst_occurred_at : datetime;
  cst_details : dict;
  previous_event_hash : option string;
  event_hash : string
}.

Record VaultDB := mkVaultDB {
  vault_tenants : list string;
  vault_engagements : list (string * string);
  vault_tasks : list (string * string * string);
  evidence_records : list EvidenceRecord;
  transformations : list EvidenceTransformation;
  custody_events : list EvidenceCustodyEvent;
  vault_ledger : Ledger
}.
Definition set_records v (db : VaultDB) : VaultDB :=
  mkVaultDB (vault_tenants db) (vault_engagements db) (vault_tasks db) v (transformations db) (custody_events db) (vault_ledger db).
Definition set_transformations v (db : VaultDB) : VaultDB :=
  mkVaultDB (vault_tenants db) (vault_engagements db) (vault_tasks db) (evidence_records db) v (custody_events db) (vault_ledger db).
Definition set_custody_events v (db : VaultDB) : VaultDB :=
  mkVaultDB (vault_tenants db) (vault_engagements db) (vault_tasks db) (evidence_records db) (transformations db) v (vault_ledger db).
Definition set_vault_ledger v (db : VaultDB) : VaultDB :=
  mkVaultDB (vault_tenants db) (vault_engagements db) (vault_tasks db) (evidence_records db) (transformations db) (custody_events db) v.

Abbreviation VaultTx := (Tx VaultDB).
Definition reading : VaultTx VaultDB := gets (λ db, db).

(** ** The digest of a custody event *)

(** [canonical_datetime] of an instant in UTC. *)
Definition canonical_datetime (t : datetime) : string :=
  let s := isoformat t in String.substring 0 (String.length s - 6) s +:+ "Z".
(** The document [custody_event_hash] digests. *)
Definition custody_document (tenant_id evidence : string) (sequence_no : Z) (action actor_type actor_id : string) (occurred_at : datetime)
    (details : dict) (previous : option string) : json :=
  JObj [("action", JStr action); ("actor_id", JStr actor_id); ("actor_type", JStr actor_type); ("details", JObj details);
        ("evidence_id", JStr evidence); ("occurred_at", JStr (canonical_datetime occurred_at));
        ("previous_event_hash", opt_json previous); ("sequence_no", JInt sequence_no); ("tenant_id", JStr tenant_id)].

(** ** Objects *)

Record Object_ := mkObject { obj_bytes : string; obj_modified_at : datetime }.
(** The objects of each tenant, by their keys. *)
Abbreviation Objects := (gmap (string * string) Object_).

Section store.
Context `{UuidSource} `{Sha256}.

Definition custody_event_hash (tenant_id evidence : string) (sequence_no : Z) (action actor_type actor_id : string) (occurred_at : datetime)
    (details : dict) (previous : option string) : string :=
  sha256_hex (canonical_json (custody_document tenant_id evidence sequence_no action actor_type actor_id occurred_at details previous)).

(** ** VaultRepository *)

Definition on_ledger {A} (m : Tx Ledger A) : VaultTx A := zoom vault_ledger set_vault_ledger m.

Definition record_kinds : list string := ["original"; "derived"].
Definition integrity_statuses : list string := ["unverified"; "verified"; "mismatch"; "missing"; "purged"].
Definition opt_key (keys : list string) (o : option string) : bool :=
  match o with Some k => bool_decide (k ∈ keys) | None => true end.

Definition evidence_conflict (e e' : EvidenceRecord) : bool :=
  bool_decide (eid e' = eid e) ||
  bool_decide (acquisition_key (acquisition e) ≠ None ∧ etenant e' = etenant e ∧
    acquisition_key (acquisition e') = acquisition_key (acquisition e)).
Definition add_evidence (e : EvidenceRecord) : VaultTx unit :=
  db ← reading;
  require (bool_decide (etenant e ∈ vault_tenants db) &&
           opt_key (map snd (vault_engagements db)) (evd_engagement_id (acquisition e)) &&
           opt_key (map (λ t, t.1.2) (vault_tasks db)) (evd_task_id (acquisition e)) &&
           (0 <=? size_bytes (acquisition e)) && bool_decide (record_kind (acquisition e) ∈ record_kinds) &&
           bool_decide (integrity_status (custody e) ∈ integrity_statuses) &&
           absent (evidence_conflict e) (evidence_records db)) (Py IntegrityError) ;;
  modify (set_records (evidence_records db ++ [e])).
(** The assignments to an attached record, flushed under the check constraint. *)
Definition save_custody (id : string) (v : Custody) : VaultTx unit :=
  require (bool_decide (integrity_status v ∈ integrity_statuses)) (Py IntegrityError) ;;
  modify (λ db, set_records (update_row eid id (set_custody v) (evidence_records db)) db).

Definition get (db : VaultDB) (tenant_id id : string) (include_deleted : bool) : option EvidenceRecord :=
  scalar (filter (λ e, etenant e = tenant_id ∧ eid e = id ∧ (include_deleted = false → active e = true)) (evidence_records db)).
Definition get_by_acquisition_key (db : VaultDB) (tenant_id key : string) : option EvidenceRecord :=
  scalar (filter (λ e, etenant e = tenant_id ∧ acquisition_key (acquisition e) = Some key) (evidence_records db)).
(** [LIMIT]: a negative limit is none, as in SQLite. *)
Definition limited {A} (limit : Z) (l : list A) : list A := if limit <? 0 then l else firstn (Z.to_nat limit) l.
Definition list_records (db : VaultDB) (tenant_id : string) (engagement : option string) (include_deleted : bool) (limit : Z)
    : list EvidenceRecord :=
  limited limit (sort_by (cmp_then (cmp_on (λ e, collected_at (acquisition e)) Z.compare) (cmp_on eid String.compare))
    (filter (λ e, etenant e = tenant_id ∧ (engagement ≠ None → evd_engagement_id (acquisition e) = engagement) ∧
                  (include_deleted = false → active e = true)) (evidence_records db))).
Definition active_storage_keys (db : VaultDB) (tenant_id : string) : list string :=
  omap (λ e, storage_key (acquisition e)) (filter (λ e, etenant e = tenant_id ∧ active e = true) (evidence_records db)).

Definition add_transformation (t : EvidenceTransformation) : VaultTx unit :=
  db ← reading;
  require (bool_decide (trn_tenant_id t ∈ vault_tenants db) && bool_decide (source_evidence_id t ∈ map eid (evidence_records db)) &&
           bool_decide (derived_evidence_id t ∈ map eid (evidence_records db)) &&
           absent (λ t', bool_decide (transformation_id t' = transformation_id t) ||
             bool_decide ((source_evidence_id t', derived_evidence_id t', trn_operation t') =
                          (source_evidence_id t, derived_evidence_id t, trn_operation t))) (transformations db)) (Py IntegrityError) ;;
  modify (set_transformations (transformations db ++ [t])).
Definition transformations_touching (db : VaultDB) (tenant_id : string) (ids : list string) : list EvidenceTransformation :=
  sort_by (cmp_then (cmp_on trn_created_at Z.compare) (cmp_on transformation_id String.compare))
    (filter (λ t, trn_tenant_id t = tenant_id ∧ (source_evidence_id t ∈ ids ∨ derived_evidence_id t ∈ ids)) (transformations db)).
Definition all_transformations (db : VaultDB) (tenant_id : string) : list EvidenceTransformation :=
  sort_by (cmp_then (cmp_on trn_created_at Z.compare) (cmp_on transformation_id String.compare))
    (filter (λ t, trn_tenant_id t = tenant_id) (transformations db)).

Definition events_of (db : VaultDB) (tenant_id id : string) : list EvidenceCustodyEvent :=
  filter (λ c, cst_tenant_id c = tenant_id ∧ cst_evidence_id c = id) (custody_events db).
Definition by_sequence_no : EvidenceCustodyEvent → EvidenceCustodyEvent → comparison := cmp_on cst_sequence_no Z.compare.
Definition last_event (db : VaultDB) (tenant_id id : string) : option EvidenceCustodyEvent :=
  scalar (sort_by (cmp_desc by_sequence_no) (events_of db tenant_id id)).
Definition list_custody_events (db : VaultDB) (tenant_id id : string) : list EvidenceCustodyEvent :=
  sort_by by_sequence_no (events_of db tenant_id id).
Definition custody_head (db : VaultDB) (tenant_id id : string) : option string := event_hash <$> last_event db tenant_id id.
Definition count_active_references (db : VaultDB) (tenant_id key : string) : Z :=
  Z.of_nat (length (filter (λ e, etenant e = tenant_id ∧ storage_key (acquisition e) = Some key ∧ active e = true) (evidence_records db))).

Definition add_custody_event (c : EvidenceCustodyEvent) : VaultTx unit :=
  db ← reading;
  require (bool_decide (cst_tenant_id c ∈ vault_tenants db) && bool_decide (cst_evidence_id c ∈ map eid (evidence_records db)) &&
           (0 <? cst_sequence_no c) &&
           absent (λ c', bool_decide (custody_event_id c' = custody_event_id c) ||
             bool_decide ((cst_tenant_id c', cst_evidence_id c', cst_sequence_no c') = (cst_tenant_id c, cst_evidence_id c, cst_sequence_no c)) ||
             bool_decide (cst_tenant_id c' = cst_tenant_id c ∧ event_hash c' = event_hash c)) (custody_events db)) (Py IntegrityError) ;;
  modify (set_custody_events (custody_events db ++ [c])).
Definition append_custody_event (tenant_id id action actor_type actor_id : string) (occurred_at : datetime) (details : dict)
    : VaultTx EvidenceCustodyEvent :=
  db ← reading;
  _ ← some_or_raise (Py LookupError) (get db tenant_id id true);
  let previous := last_event db tenant_id id in
  let sequence_no := match previous with Some c => cst_sequence_no c | None => 0 end + 1 in
  let previous_hash := event_hash <$> previous in
  cid ← on_ledger (new_id "cst");
  let c := mkEvidenceCustodyEvent cid tenant_id id sequence_no action actor_type actor_id occurred_at details previous_hash
    (custody_event_hash tenant_id id sequence_no action actor_type actor_id occurred_at details previous_hash) in
  add_custody_event c ;;
  mret c.

(** ** The object store *)

Record StoredObject := mkStoredObject {
  so_provider : string;
  so_key : string;
  so_uri : string;
  so_sha256 : string;
  so_size_bytes : Z;
  so_created : bool;
  so_modified_at : datetime
}.
Definition provider_name : string := "local".

Definition hex_char (c : ascii) : bool := ((48 <=? ord c) && (ord c <=? 57)) || ((97 <=? ord c) && (ord c <=? 102)).
Definition is_digest (s : string) : bool := bool_decide (String.length s = 64%nat) && forallb hex_char (String.list_ascii_of_string s).
Definition key_of (d : string) : string := "objects/" +:+ String.substring 0 2 d +:+ "/" +:+ String.substring 2 2 d +:+ "/" +:+ d.
Definition key_for_digest (d : string) : Res string := if is_digest d then Ok (key_of d) else Err (Py ValueError).

(** [_SEGMENT] and [_OBJECT_KEY], matched in full. *)
Definition segment_start (c : ascii) : bool :=
  ((48 <=? ord c) && (ord c <=? 57)) || ((65 <=? ord c) && (ord c <=? 90)) || ((97 <=? ord c) && (ord c <=? 122)).
Definition segment_char (c : ascii) : bool := segment_start c || bool_decide (c ∈ ["_"; "."; "-"]%char).
Definition is_segment (s : string) : bool :=
  match s with
  | "" => false
  | String c s => segment_start c && (Z.of_nat (String.length s) <=? 127) && forallb segment_char (String.list_ascii_of_string s)
  end.
Definition key_digest (key : string) : option string :=
  let d := String.substring 14 (String.length key - 14) key in
  let a := String.substring 8 2 key in let b := String.substring 11 2 key in
  if bool_decide (key = "objects/" +:+ a +:+ "/" +:+ b +:+ "/" +:+ d ∧ String.length a = 2%nat ∧ String.length b = 2%nat) &&
     forallb hex_char (String.list_ascii_of_string a) && forallb hex_char (String.list_ascii_of_string b) && is_digest d
  then Some d else None.
(** [_path]: the object a key names, which its digest alone determines. *)
Definition _path (tenant_id key : string) : Res (string * string) :=
  match key_digest key with
  | Some d => if is_segment tenant_id then Ok (tenant_id, key_of d) else Err (Py ValueError)
  | None => Err (Py ValueError)
  end.

Definition uri_of (tenant_id key : string) : string := "vault+file://" +:+ tenant_id +:+ "/" +:+ key.
Definition stored (tenant_id key : string) (o : Object_) : StoredObject :=
  mkStoredObject provider_name key (uri_of tenant_id key) (sha256_hex (obj_bytes o)) (Z.of_nat (String.length (obj_bytes o))) false
    (obj_modified_at o).

Definition obj_stat (tenant_id key : string) (os : Objects) : Res StoredObject :=
  let? p := _path tenant_id key in
  match os !! p with Some o => Ok (stored tenant_id key o) | None => Err (Vlt ObjectNotFoundError) end.
Definition obj_open (tenant_id key : string) (os : Objects) : Res string :=
  let? p := _path tenant_id key in
  match os !! p with Some o => Ok (obj_bytes o) | None => Err (Vlt ObjectNotFoundError) end.
Definition obj_verify (tenant_id key expected_sha256 : string) (expected_size : Z) (os : Objects) : Res StoredObject :=
  let? s := obj_stat tenant_id key os in
  if bool_decide (so_sha256 s = expected_sha256 ∧ so_size_bytes s = expected_size) then Ok s else Err (Vlt ImmutableObjectConflictError).
(** [put_bytes] at [now]: what is returned, and the objects it leaves. *)
Definition put_bytes (tenant_id payload expected_sha256 : string) (now : datetime) (os : Objects) : Res (StoredObject * Objects) :=
  if decide (sha256_hex payload = expected_sha256) then
    let? key := key_for_digest expected_sha256 in
    let? p := _path tenant_id key in
    match os !! p with
    | Some _ => let? s := obj_verify tenant_id key expected_sha256 (Z.of_nat (String.length payload)) os in Ok (s, os)
    | None =>
        let o := mkObject payload now in
        let s := stored tenant_id key o in
        Ok (mkStoredObject (so_provider s) key (so_uri s) expected_sha256 (so_size_bytes s) true now, <[p := o]> os)
    end
  else Err (Vlt ObjectIntegrityError).
Definition obj_delete (tenant_id key : string) (os : Objects) : Res (bool * Objects) :=
  let? p := _path tenant_id key in
  match os !! p with Some _ => Ok (true, delete p os) | None => Ok (false, os) end.
Definition iter_objects (tenant_id : string) (os : Objects) : Res (list StoredObject) :=
  if is_segment tenant_id then
    Ok (map (λ '((t, k), o), stored t k o)
      (sort_by (cmp_on (λ x, x.1.2) String.compare) (filter (λ x, x.1.1 = tenant_id) (map_to_list os))))
  else Err (Py ValueError).
End store.

(** ** What the object store promises its clients

    An object lies under the digest of its bytes ([orderly]), putting one twice changes
    nothing, what is there is not overwritten, and what a put returns can be opened. *)

Section objects.
Context `{Sha256}.

(** ** Keys *)

Lemma substring_all s n : (String.length s ≤ n)%nat → String.substring 0 n s = s.
Proof.
  revert n. induction s as [|c s IH]; intros [|n] Hn; cbn in *; [done..|lia|]. by rewrite IH by lia.
Qed.
Lemma key_digest_of d : is_digest d = true → key_digest (key_of d) = Some d.
Proof.
  unfold is_digest. rewrite andb_true_iff, bool_decide_eq_true. intros [Hl Hc].
  destruct d as [|c1 [|c2 [|c3 [|c4 r]]]]; cbn in Hl; try lia.
  assert (Ek : key_of (String c1 (String c2 (String c3 (String c4 r)))) =
    "objects/" +:+ String c1 (String c2 "") +:+ "/" +:+ String c3 (String c4 "") +:+ "/" +:+ String c1 (String c2 (String c3 (String c4 r)))).
  { unfold key_of. cbn. by destruct r. }
  assert (Hd : String.substring 14 (String.length (key_of (String c1 (String c2 (String c3 (String c4 r))))) - 14)
    (key_of (String c1 (String c2 (String c3 (String c4 r))))) = String c1 (String c2 (String c3 (String c4 r)))).
  { rewrite Ek. cbv [String.append]. cbn. by rewrite substring_all. }
  unfold key_digest. rewrite Hd, Ek. cbv [String.append]. cbn [String.substring String.length].
  cbn [forallb String.list_ascii_of_string] in *. rewrite !andb_true_iff in Hc. destruct Hc as (H1' & H2' & H3' & H4' & Hr).
  unfold is_digest. cbn [forallb String.list_ascii_of_string]. rewrite H1', H2', H3', H4', Hr. cbn in Hl |- *. rewrite !bool_decide_eq_true_2 by (cbn; first [done|lia]). done.
Qed.
Lemma _path_key t d : is_segment t = true → is_digest d = true → _path t (key_of d) = Ok (t, key_of d).
Proof. intros Ht Hd. unfold _path. by rewrite key_digest_of, Ht. Qed.
Lemma _path_inv t d p : is_digest d = true → _path t (key_of d) = Ok p → is_segment t = true ∧ p = (t, key_of d).
Proof. intros Hd. unfold _path. rewrite key_digest_of by done. destruct (is_segment t); [by intros [= <-]|done]. Qed.

(** ** Objects *)

Definition orderly (os : Objects) : Prop := ∀ t k o, os !! (t, k) = Some o →
  is_segment t = true ∧ is_digest (sha256_hex (obj_bytes o)) = true ∧ k = key_of (sha256_hex (obj_bytes o)).
Lemma orderly_empty : orderly ∅.
Proof. intros t k o Ho. by apply lookup_empty_Some in Ho. Qed.
(** An object of [t] with this digest and this size. *)
Definition holds (os : Objects) (t k d : string) (n : Z) : Prop :=
  ∃ o, os !! (t, k) = Some o ∧ sha256_hex (obj_bytes o) = d ∧ Z.of_nat (String.length (obj_bytes o)) = n.
Lemma holds_weaken os os' t k d n : os ⊆ os' → holds os t k d n → holds os' t k d n.
Proof. intros Hs (o & Ho & K). exists o. split; [by eapply lookup_weaken|done]. Qed.

Lemma orderly_path os t k o : orderly os → os !! (t, k) = Some o → _path t k = Ok (t, k).
Proof. intros Hos Ho. destruct (Hos _ _ _ Ho) as (Ht & Hd & ->). by apply _path_key. Qed.
Lemma obj_stat_held os t k o : orderly os → os !! (t, k) = Some o → obj_stat t k os = Ok (stored t k o).
Proof. intros Hos Ho. unfold obj_stat. rewrite (orderly_path os t k o) by done. cbn. by rewrite Ho. Qed.
Lemma obj_open_held os t k o : orderly os → os !! (t, k) = Some o → obj_open t k os = Ok (obj_bytes o).
Proof. intros Hos Ho. unfold obj_open. rewrite (orderly_path os t k o) by done. cbn. by rewrite Ho. Qed.
Lemma obj_verify_held os t k d n : orderly os → holds os t k d n →
  ∃ o, os !! (t, k) = Some o ∧ obj_verify t k d n os = Ok (stored t k o) ∧ obj_open t k os = Ok (obj_bytes o) ∧
    sha256_hex (obj_bytes o) = d ∧ Z.of_nat (String.length (obj_bytes o)) = n.
Proof.
  intros Hos (o & Ho & Ed & En). exists o. split_and!; [done| |by apply obj_open_held|done|done]. unfold obj_verify. rewrite (obj_stat_held os t k o) by done.
  cbn. by rewrite bool_decide_eq_true_2.
Qed.

Lemma put_bytes_Ok t payload d now os s os' : orderly os → put_bytes t payload d now os = Ok (s, os') →
  sha256_hex payload = d ∧ orderly os' ∧ os ⊆ os' ∧ so_key s = key_of d ∧ so_size_bytes s = Z.of_nat (String.length payload) ∧
  holds os' t (so_key s) d (so_size_bytes s) ∧
  if so_created s then os !! (t, so_key s) = None ∧ os' = <[(t, so_key s) := mkObject payload now]> os else os' = os.
Proof.
  intros Hos E. unfold put_bytes in E. case_decide as Ed; [|done]. unfold key_for_digest in E. destruct (is_digest d) eqn:Hd; [|done]. cbn [res_bind] in E.
  destruct (_path t (key_of d)) as [p|] eqn:Ep; [|done]. cbn in E. apply _path_inv in Ep as [Ht ->]; [|done].
  destruct (os !! (t, key_of d)) as [o|] eqn:Eo.
  - unfold obj_verify in E. rewrite (obj_stat_held os t _ o) in E by done. cbn in E. case_bool_decide as Hv; [|done]. cbn in E, Hv.
    injection E as <- <-. cbn. destruct Hv as [Hs Hl]. split_and!; try done. by exists o; split_and!.
  - cbn in E. injection E as <- <-. cbn. split_and!; try done; [|by apply insert_subseteq|exists (mkObject payload now); split_and!; try done].
    + intros t' k o. rewrite lookup_insert_Some. intros [[[= <- <-] <-]|[_ Ho]]; [|by apply (Hos t' k o)]. cbn. by rewrite Ed.
    + cbn. by rewrite lookup_insert_eq.
Qed.
Lemma obj_delete_Ok t k os b os' : obj_delete t k os = Ok (b, os') → orderly os → orderly os'.
Proof.
  unfold obj_delete. destruct (_path t k) as [p|]; [|done]. cbn. destruct (os !! p); intros [= <- <-]; [|done].
  intros Hos t' k' o'. rewrite lookup_delete_Some. intros [_ Ho]. by apply Hos.
Qed.
Lemma iter_objects_Ok t os l s : iter_objects t os = Ok l → s ∈ l ↔ ∃ k o, os !! (t, k) = Some o ∧ s = stored t k o.
Proof.
  unfold iter_objects. destruct (is_segment t); [|done]. intros [= <-]. rewrite list_elem_of_fmap. split.
  - intros ([[t' k] o] & -> & Hx). apply elem_of_sort_by, list_elem_of_filter in Hx as [Ht Hx]. cbn in Ht. subst t'.
    exists k, o. split; [by apply elem_of_map_to_list|done].
  - intros (k & o & Ho & ->). exists ((t, k), o). split; [done|]. apply elem_of_sort_by, list_elem_of_filter. split; [done|].
    by apply elem_of_map_to_list.
Qed.
End objects.
