(* ===== verification/VaultService.v ===== *)
(** * Evidence vault: the service

    [EvidenceVault] of vault/service.py without its exports: acquisition, derivation,
    reading, integrity, custody, lineage, retention and the collection of garbage.
    An operation is a program over the database and the objects: each of its
    transactions is a definition of its own, so that what they keep holds however the
    operations of several clients interleave. *)

From Stdlib Require Import Ascii.
From S2P Require Import Prelude Tables PyFloat PyTime Ledger PyText PyCodec Materiality VaultStore.
Local Open Scope Z_scope.

Record VaultWorld := mkVaultWorld { vdb : VaultDB; objects : Objects; clock_readings : N }.
Class VaultClock := vault_now : N → datetime.
Abbreviation Vault := (Prog VaultWorld).

(** [ContentInspector.inspect] of a payload, its type and its name. *)
Record InspectionResult := mkInspectionResult { ins_accepted : bool; ins_tainted : bool; ins_findings : list string; ins_metadata : dict }.
Definition ContentInspector : Type := string → option string → option string → InspectionResult.
Record EvidenceVault := mkEvidenceVault { inspector : option ContentInspector }.

Record IngestRequest := mkIngestRequest {
  in_tenant_id : string;
  in_payload : string;
  in_source_type : string;
  in_source_locator : string;
  in_actor_id : string;
  in_actor_type : string;
  in_engagement_id : option string;
  in_task_id : option string;
  in_acquisition_key : option string;
  in_filename : option string;
  in_mime_type : option string;
  in_encoding : option string;
  in_classification : string;
  in_source_time : option datetime;
  in_accepted : bool;
  in_tainted : bool;
  in_retention_until : option date;
  in_legal_hold : bool;
  in_metadata : dict
}.
Record DeriveRequest := mkDeriveRequest {
  dr_tenant_id : string;
  dr_sources : list string;
  dr_payload : string;
  dr_operation : string;
  dr_tool_version : string;
  dr_actor_id : string;
  dr_actor_type : string;
  dr_parameters : dict;
  dr_source_locator : option string;
  dr_acquisition_key : option string;
  dr_filename : option string;
  dr_mime_type : option string;
  dr_encoding : option string;
  dr_classification : option string;
  dr_accepted : bool;
  dr_tainted : option bool;
  dr_retention_until : option date;
  dr_metadata : dict
}.
Record IntegrityReport := mkIntegrityReport {
  rpt_evidence_id : string;
  rpt_status : string;
  expected_sha256 : string;
  actual_sha256 : option string;
  expected_size : Z;
  actual_size : option Z;
  verified_at : datetime
}.
Record CustodyVerification := mkCustodyVerification {
  cv_evidence_id : string;
  cv_valid : bool;
  cv_event_count : Z;
  cv_head_hash : option string;
  cv_error : option string
}.
Record LineageGraph := mkLineageGraph { root_evidence_id : string; nodes : list EvidenceRecord; edges : list EvidenceTransformation }.
Record GarbageCollectionReport := mkGarbageCollectionReport {
  gc_tenant_id : string;
  gc_examined : Z;
  gc_deleted : Z;
  gc_retained : Z;
  gc_deleted_keys : list string
}.

Section service.
Context `{UuidSource} `{Sha256} `{VaultClock}.

(** ** The parts of an operation *)

Definition set_vdb (db : VaultDB) (w : VaultWorld) : VaultWorld := mkVaultWorld db (objects w) (clock_readings w).
Definition in_transaction {A} (m : VaultTx A) : Vault A := commit vdb set_vdb m.
(** [with database.read_session()]: what a query gives, or the exception it raises. *)
Definition read_session {A} (f : VaultDB → Res A) : Vault A := λ w, (f (vdb w), w).
Definition clock : Vault datetime := λ w,
  (Ok (vault_now (clock_readings w)), mkVaultWorld (vdb w) (objects w) (clock_readings w + 1)).
Definition drawing (prefix : string) : Vault string := in_transaction (on_ledger (new_id prefix)).
Definition from_store {A} (f : Objects → Res A) : Vault A := λ w, (f (objects w), w).
Definition to_store {A} (f : Objects → Res (A * Objects)) : Vault A := λ w,
  match f (objects w) with
  | Ok (a, os) => (Ok a, mkVaultWorld (vdb w) os (clock_readings w))
  | Err e => (Err e, w)
  end.
(** [except IntegrityError]. *)
Definition on_integrity_error {A} (m h : Vault A) : Vault A := λ w,
  match m w with
  | (Err (Py IntegrityError), w') => h w'
  | r => r
  end.
Definition found {A} (o : option A) : Res A := match o with Some a => Ok a | None => Err (Vlt EvidenceNotFoundError) end.

(** [_append_domain_event]. *)
Definition _append_domain_event (e : EvidenceRecord) (event_type : string) (payload : dict) : VaultTx unit :=
  event ← on_ledger new_event_id;
  now ← gets (λ db, wall_clock (vault_ledger db));
  on_ledger (append (mkAuditEvent event event_type (etenant e) (evd_engagement_id (acquisition e)) (evd_task_id (acquisition e)) now payload)) ;;
  on_ledger (outbox_add (etenant e) "evidence" (eid e) event_type payload (event_type +:+ ":" +:+ event)).

(** The record an acquisition key already names, if it has the same bytes. *)
Definition settled (tenant_id : string) (key : option string) (d : string) (db : VaultDB) : Res (option EvidenceRecord) :=
  match key with
  | Some k =>
      if decide (k = "") then Ok None
      else match get_by_acquisition_key db tenant_id k with
      | Some existing => if decide (digest existing = d) then Ok (Some existing) else Err (Vlt AcquisitionConflictError)
      | None => Ok None
      end
  | None => Ok None
  end.
(** What the handler of an [IntegrityError] does. *)
Definition recover (tenant_id : string) (key : option string) (d : string) : Vault EvidenceRecord :=
  read_session (λ db,
    match settled tenant_id key d db with
    | Ok (Some existing) => Ok existing
    | _ => Err (Vlt AcquisitionConflictError)
    end).

(** ** Acquisition *)

Definition scope_of (tenant_id : string) (engagement task : option string) (db : VaultDB) : Res (option string) :=
  if negb (bool_decide (tenant_id ∈ vault_tenants db)) then Err (Vlt EvidenceNotFoundError)
  else if negb (match engagement with Some e => bool_decide ((tenant_id, e) ∈ vault_engagements db) | None => true end)
  then Err (Vlt EvidenceNotFoundError)
  else match task with
  | None => Ok engagement
  | Some t =>
      match find (λ x, bool_decide (x.1 = (tenant_id, t))) (vault_tasks db) with
      | None => Err (Vlt EvidenceNotFoundError)
      | Some (_, of_task) =>
          match engagement with
          | Some e => if decide (of_task = e) then Ok engagement else Err (Py ValueError)
          | None => Ok (Some of_task)
          end
      end
  end.

Definition ingest_tx (e : EvidenceRecord) (actor_type actor_id : string) (created : bool) (now : datetime) : VaultTx EvidenceRecord :=
  db ← reading;
  existing ← from_res (settled (etenant e) (acquisition_key (acquisition e)) (digest e) db);
  match existing with
  | Some existing => mret existing
  | None =>
      add_evidence e ;;
      c ← append_custody_event (etenant e) (eid e) "acquired" actor_type actor_id now
        [("source_type", JStr (source_type (acquisition e))); ("source_locator", JStr (source_locator (acquisition e)));
         ("sha256", JStr (digest e)); ("size_bytes", JInt (size_bytes (acquisition e))); ("object_created", JBool created)];
      _append_domain_event e "evidence.acquired"
        [("evidence_id", JStr (eid e)); ("record_kind", JStr "original"); ("content_sha256", JStr (digest e));
         ("custody_head", JStr (event_hash c))] ;;
      mret e
  end.

(** The guardrail before anything is stored: taint and metadata. *)
Definition inspected (v : EvidenceVault) (r : IngestRequest) : Res (bool * dict) :=
  match inspector v with
  | None => Ok (in_tainted r, in_metadata r)
  | Some inspect =>
      let i := inspect (in_payload r) (in_mime_type r) (in_filename r) in
      if ins_accepted i then
        Ok (in_tainted r || ins_tainted i,
            dict_set "content_inspection" (JObj (dict_update [("findings", JList (map JStr (ins_findings i)))] (ins_metadata i))) (in_metadata r))
      else Err (Vlt ContentInspectionRejected)
  end.

Definition acquired (r : IngestRequest) (id : string) (engagement : option string) (s : StoredObject) (taint : bool) (metadata : dict)
    (now : datetime) : EvidenceRecord :=
  mkEvidenceRecord
    (mkAcquisition id (in_tenant_id r) engagement (in_task_id r) (in_acquisition_key r) "original" (in_source_type r) (in_source_locator r)
       (sha256_hex (in_payload r)) (so_provider s) (Some (so_key s)) (Some (so_uri s)) (in_filename r) (in_mime_type r) (in_encoding r)
       (so_size_bytes s) (in_classification r) (in_source_time r) now (in_accepted r) taint metadata)
    (mkCustody "verified" (Some now) (in_retention_until r) (in_legal_hold r) None None).

Definition prog_res {A} (r : Res A) : Vault A := λ w, (r, w).

Definition ingest_bytes (v : EvidenceVault) (r : IngestRequest) : Vault EvidenceRecord :=
  inspection ← prog_res (inspected v r);
  let d := sha256_hex (in_payload r) in
  engagement ← read_session (scope_of (in_tenant_id r) (in_engagement_id r) (in_task_id r));
  existing ← read_session (settled (in_tenant_id r) (in_acquisition_key r) d);
  match existing with
  | Some existing => mret existing
  | None =>
      modified ← (λ w, (Ok (wall_clock (vault_ledger (vdb w))), w));
      s ← to_store (put_bytes (in_tenant_id r) (in_payload r) d modified);
      now ← clock;
      id ← drawing "evd";
      let e := acquired r id engagement s (fst inspection) (snd inspection) now in
      on_integrity_error (in_transaction (ingest_tx e (in_actor_type r) (in_actor_id r) (so_created s) now))
        (recover (in_tenant_id r) (in_acquisition_key r) d)
  end.

(** ** Derivation *)

(** [list(dict.fromkeys(l))], and the only element of a set. *)
Fixpoint fromkeys (seen l : list string) : list string :=
  match l with
  | [] => []
  | x :: l => if decide (x ∈ seen) then fromkeys seen l else x :: fromkeys (x :: seen) l
  end.
Definition unanimous {A} `{EqDecision A} (l : list A) : option A :=
  match l with
  | x :: l => if forallb (λ y, bool_decide (y = x)) l then Some x else None
  | [] => None
  end.
Definition sources_of (tenant_id : string) (ids : list string) (db : VaultDB) : Res (list EvidenceRecord) :=
  foldr (λ id rest, let? e := found (get db tenant_id id false) in let? es := rest in Ok (e :: es)) (Ok []) ids.
Definition joined_sources (ids : list string) : string := join "," (sort_by String.compare ids).

Definition derive_from (r : DeriveRequest) (derived : string) (now : datetime) (source : EvidenceRecord) : VaultTx unit :=
  trn ← on_ledger (new_id "trn");
  add_transformation (mkEvidenceTransformation trn (dr_tenant_id r) (eid source) derived (dr_operation r) (dr_tool_version r)
    (dr_parameters r) now) ;;
  append_custody_event (dr_tenant_id r) (eid source) "used_for_derivation" (dr_actor_type r) (dr_actor_id r) now
    [("derived_evidence_id", JStr derived); ("operation", JStr (dr_operation r)); ("tool_version", JStr (dr_tool_version r))] ;;
  mret tt.
Definition derive_tx (r : DeriveRequest) (ids : list string) (e : EvidenceRecord) (now : datetime) : VaultTx EvidenceRecord :=
  db ← reading;
  existing ← from_res (settled (etenant e) (acquisition_key (acquisition e)) (digest e) db);
  match existing with
  | Some existing => mret existing
  | None =>
      sources ← from_res (sources_of (dr_tenant_id r) ids db);
      add_evidence e ;;
      for_each sources (derive_from r (eid e) now) ;;
      c ← append_custody_event (dr_tenant_id r) (eid e) "derived" (dr_actor_type r) (dr_actor_id r) now
        [("source_evidence_ids", JList (map JStr ids)); ("operation", JStr (dr_operation r)); ("tool_version", JStr (dr_tool_version r));
         ("sha256", JStr (digest e))];
      _append_domain_event e "evidence.derived"
        [("evidence_id", JStr (eid e)); ("source_evidence_ids", JList (map JStr ids)); ("operation", JStr (dr_operation r));
         ("custody_head", JStr (event_hash c))] ;;
      mret e
  end.
Definition inherited_classification (r : DeriveRequest) (sources : list EvidenceRecord) : Res string :=
  match dr_classification r with
  | Some c => Ok c
  | None => match unanimous (map (λ e, classification (acquisition e)) sources) with Some c => Ok c | None => Err (Py ValueError) end
  end.
Definition derivative (r : DeriveRequest) (ids : list string) (sources : list EvidenceRecord) (id class : string) (s : StoredObject)
    (now : datetime) : EvidenceRecord :=
  mkEvidenceRecord
    (mkAcquisition id (dr_tenant_id r) (mjoin (unanimous (map (λ e, evd_engagement_id (acquisition e)) sources)))
       (mjoin (unanimous (map (λ e, evd_task_id (acquisition e)) sources))) (dr_acquisition_key r) "derived" "derived"
       (str_or (dr_source_locator r) ("derived:" +:+ dr_operation r +:+ ":" +:+ joined_sources ids)) (sha256_hex (dr_payload r))
       (so_provider s) (Some (so_key s)) (Some (so_uri s)) (dr_filename r) (dr_mime_type r) (dr_encoding r) (so_size_bytes s) class None now
       (dr_accepted r) (default (existsb (λ e, evd_tainted (acquisition e)) sources) (dr_tainted r)) (dr_metadata r))
    (mkCustody "verified" (Some now) (dr_retention_until r) (existsb (λ e, legal_hold (custody e)) sources) None None).
Definition create_derivative (r : DeriveRequest) : Vault EvidenceRecord :=
  let ids := fromkeys [] (dr_sources r) in
  if negb (nonempty ids) then prog_raise (Py ValueError)
  else
    sources ← read_session (sources_of (dr_tenant_id r) ids);
    class ← prog_res (inherited_classification r sources);
    let d := sha256_hex (dr_payload r) in
    existing ← read_session (settled (dr_tenant_id r) (dr_acquisition_key r) d);
    match existing with
    | Some existing => mret existing
    | None =>
        modified ← (λ w, (Ok (wall_clock (vault_ledger (vdb w))), w));
        s ← to_store (put_bytes (dr_tenant_id r) (dr_payload r) d modified);
        now ← clock;
        id ← drawing "evd";
        on_integrity_error (in_transaction (derive_tx r ids (derivative r ids sources id class s now) now))
          (recover (dr_tenant_id r) (dr_acquisition_key r) d)
    end.

(** ** Reading *)

Definition get_item (tenant_id id : string) (include_deleted : bool) : Vault EvidenceRecord :=
  read_session (λ db, found (get db tenant_id id include_deleted)).
Definition list_items (tenant_id : string) (engagement : option string) (include_deleted : bool) (limit : Z) : Vault (list EvidenceRecord) :=
  read_session (λ db, Ok (list_records db tenant_id engagement include_deleted limit)).
Definition _get_active_record (tenant_id id : string) : Vault EvidenceRecord :=
  read_session (λ db, let? e := found (get db tenant_id id true) in if active e then Ok e else Err (Vlt EvidenceDeletedError)).
Definition stored_key (e : EvidenceRecord) : Res string :=
  match storage_key (acquisition e) with Some k => Ok k | None => Err (Vlt ObjectNotFoundError) end.

Definition access_tx (tenant_id id actor_type actor_id purpose : string) (now : datetime) (n : Z) : VaultTx EvidenceCustodyEvent :=
  append_custody_event tenant_id id "accessed" actor_type actor_id now [("purpose", JStr purpose); ("bytes_read", JInt n)].
Definition read_bytes (tenant_id id actor_type actor_id purpose : string) : Vault string :=
  e ← _get_active_record tenant_id id;
  key ← prog_res (stored_key e);
  payload ← from_store (obj_open tenant_id key);
  now ← clock;
  in_transaction (access_tx tenant_id id actor_type actor_id purpose now (Z.of_nat (String.length payload))) ;;
  mret payload.

(** ** Integrity *)

(** The status of an object, what was read of it, and the failure to raise. *)
Definition integrity_of (e : EvidenceRecord) (tenant_id key : string) (os : Objects)
    : Res (string * option StoredObject * option exn) :=
  match obj_verify tenant_id key (digest e) (size_bytes (acquisition e)) os with
  | Ok s => Ok ("verified", Some s, None)
  | Err (Vlt ObjectNotFoundError) => Ok ("missing", None, Some (Vlt ObjectNotFoundError))
  | Err (Vlt ImmutableObjectConflictError) =>
      match obj_stat tenant_id key os with
      | Ok s => Ok ("mismatch", Some s, Some (Vlt ImmutableObjectConflictError))
      | Err (Vlt ObjectNotFoundError) => Ok ("missing", None, Some (Vlt ImmutableObjectConflictError))
      | Err x => Err x
      end
  | Err x => Err x
  end.
Definition verified_tx (tenant_id id status actor_id : string) (now : datetime) (details : dict) : VaultTx unit :=
  db ← reading;
  e ← some_or_raise (Vlt EvidenceNotFoundError) (get db tenant_id id false);
  let c := custody e in
  save_custody (eid e) (mkCustody status (Some now) (retention_until c) (legal_hold c) (deleted_at c) (deletion_reason c)) ;;
  append_custody_event tenant_id id (if decide (status = "verified") then "integrity_verified" else "integrity_failed") "service" actor_id
    now details ;;
  mret tt.
Definition opt_int (o : option Z) : json := match o with Some n => JInt n | None => JNull end.
Definition verify_integrity (tenant_id id actor_id : string) : Vault IntegrityReport :=
  e ← _get_active_record tenant_id id;
  key ← prog_res (stored_key e);
  now ← clock;
  checked ← from_store (integrity_of e tenant_id key);
  let '(status, s, failure) := checked in
  in_transaction (verified_tx tenant_id id status actor_id now
    [("status", JStr status); ("expected_sha256", JStr (digest e)); ("actual_sha256", opt_json (so_sha256 <$> s));
     ("expected_size", JInt (size_bytes (acquisition e))); ("actual_size", opt_int (so_size_bytes <$> s))]) ;;
  match failure with
  | Some x => prog_raise x
  | None => mret (mkIntegrityReport id status (digest e) (so_sha256 <$> s) (size_bytes (acquisition e)) (so_size_bytes <$> s) now)
  end.

(** ** Custody *)

Definition list_custody (tenant_id id : string) (db : VaultDB) : Res (list EvidenceCustodyEvent) :=
  let? _ := found (get db tenant_id id true) in Ok (list_custody_events db tenant_id id).

(** The digest the fields of an event have after [previous]. *)
Definition expected_hash (tenant_id id : string) (previous : option string) (c : EvidenceCustodyEvent) : string :=
  custody_event_hash tenant_id id (cst_sequence_no c) (cst_action c) (cst_actor_type c) (cst_actor_id c) (cst_occurred_at c)
    (cst_details c) previous.
(** The loop of [verify_custody_chain]: the error it returns with, or the head. *)
Fixpoint walk_chain (tenant_id id : string) (n : Z) (previous : option string) (l : list EvidenceCustodyEvent) : option string + string :=
  match l with
  | [] => inl previous
  | c :: l =>
      if negb (cst_sequence_no c =? n) then
        inr ("expected custody sequence " +:+ pretty n +:+ ", found " +:+ pretty (cst_sequence_no c))
      else if decide (previous_event_hash c = previous ∧ event_hash c = expected_hash tenant_id id previous c)
      then walk_chain tenant_id id (n + 1) (Some (event_hash c)) l
      else inr ("custody hash mismatch at sequence " +:+ pretty (cst_sequence_no c))
  end.
Definition verify_chain (tenant_id id : string) (l : list EvidenceCustodyEvent) : CustodyVerification :=
  match walk_chain tenant_id id 1 None l with
  | inl head => mkCustodyVerification id true (zlen l) head None
  | inr error => mkCustodyVerification id false (zlen l) (event_hash <$> last l) (Some error)
  end.
Definition verify_custody_chain (tenant_id id : string) : Vault CustodyVerification :=
  l ← read_session (list_custody tenant_id id);
  mret (verify_chain tenant_id id l).

(** ** Lineage *)

(** One turn of the [while] loops: the edges in order, adding what each connects. *)
Definition add_to (x : string) (l : list string) : list string := if decide (x ∈ l) then l else l ++ [x].
Definition connect (connected : list string) (t : EvidenceTransformation) : list string :=
  if decide (source_evidence_id t ∈ connected ∨ derived_evidence_id t ∈ connected)
  then add_to (derived_evidence_id t) (add_to (source_evidence_id t) connected) else connected.
Definition ascend (selected : list string) (t : EvidenceTransformation) : list string :=
  if decide (derived_evidence_id t ∈ selected ∧ source_evidence_id t ∉ selected) then selected ++ [source_evidence_id t] else selected.
(** [while changed], at most [n] times. *)
Fixpoint until_stable (turn : list string → list string) (n : nat) (s : list string) : list string :=
  match n with
  | O => s
  | S n => let s' := turn s in if decide (length s' = length s) then s' else until_stable turn n s'
  end.
Definition connected_to (es : list EvidenceTransformation) (id : string) : list string :=
  until_stable (λ s, fold_left connect es s) (S (2 * length es)) [id].
Definition ancestors (es : list EvidenceTransformation) (requested : list string) : list string :=
  until_stable (λ s, fold_left ascend es s) (S (length es)) requested.
Definition edges_within (s : list string) (es : list EvidenceTransformation) : list EvidenceTransformation :=
  filter (λ t, source_evidence_id t ∈ s ∧ derived_evidence_id t ∈ s) es.
Definition lineage (tenant_id id : string) : Vault LineageGraph :=
  read_session (λ db,
    let? _ := found (get db tenant_id id true) in
    let es := all_transformations db tenant_id in
    let s := connected_to es id in
    Ok (mkLineageGraph id (omap (λ i, get db tenant_id i true) (sort_by String.compare s)) (edges_within s es))).

(** ** Retention *)

Definition opt_date_json (d : option date) : json := match d with Some d => JStr (date_isoformat d) | None => JNull end.
Definition retention_tx (tenant_id id actor_id : string) (until : option date) (hold : bool) (reason : string) (now : datetime)
    : VaultTx EvidenceRecord :=
  db ← reading;
  e ← some_or_raise (Vlt EvidenceNotFoundError) (get db tenant_id id false);
  let c := custody e in
  let c' := mkCustody (integrity_status c) (last_verified_at c) until hold (deleted_at c) (deletion_reason c) in
  save_custody (eid e) c' ;;
  append_custody_event tenant_id id "retention_updated" "user" actor_id now
    [("retention_until", opt_date_json until); ("legal_hold", JBool hold); ("reason", JStr reason)] ;;
  mret (set_custody c' e).
Definition set_retention (tenant_id id actor_id : string) (until : option date) (hold : bool) (reason : string) : Vault EvidenceRecord :=
  now ← clock;
  in_transaction (retention_tx tenant_id id actor_id until hold reason now).

(** The policy a purge is held to. *)
Definition retention_allows (c : Custody) (effective : date) : bool :=
  negb (legal_hold c) && match retention_until c with Some d => d <=? effective | None => false end.
Definition purge_tx (tenant_id id actor_id reason : string) (effective : date) (now : datetime) : VaultTx EvidenceRecord :=
  db ← reading;
  e ← some_or_raise (Vlt EvidenceNotFoundError) (get db tenant_id id true);
  if negb (active e) then mret e
  else
    let c := custody e in
    require (retention_allows c effective) (Vlt RetentionPolicyError) ;;
    let c' := mkCustody "purged" (last_verified_at c) (retention_until c) (legal_hold c) (Some now) (Some reason) in
    save_custody (eid e) c' ;;
    append_custody_event tenant_id id "tombstoned" "user" actor_id now
      [("reason", JStr reason); ("effective_date", JStr (date_isoformat effective))] ;;
    _append_domain_event (set_custody c' e) "evidence.tombstoned" [("evidence_id", JStr id); ("reason", JStr reason)] ;;
    mret (set_custody c' e).
Definition purge (tenant_id id actor_id reason : string) (as_of : option date) : Vault EvidenceRecord :=
  effective ← match as_of with Some d => mret d | None => t ← clock; mret (date_of t) end;
  now ← clock;
  in_transaction (purge_tx tenant_id id actor_id reason effective now).

(** ** Exports *)

(** The last transaction of [create_export]. *)
Definition export_tx (tenant_id : string) (exported selected : list string) (export_id actor_id purpose package_sha256 manifest_sha256 : string)
    (now : datetime) : VaultTx unit :=
  for_each exported (λ id,
    append_custody_event tenant_id id "exported" "user" actor_id now
      [("export_id", JStr export_id); ("purpose", JStr purpose); ("package_sha256", JStr package_sha256);
       ("manifest_sha256", JStr manifest_sha256)] ;;
    mret tt) ;;
  on_ledger (outbox_add tenant_id "evidence_export" export_id "evidence.export.created"
    [("export_id", JStr export_id); ("evidence_ids", JList (map JStr selected)); ("package_sha256", JStr package_sha256);
     ("manifest_sha256", JStr manifest_sha256)] ("evidence.export.created:" +:+ export_id)).

(** ** Garbage *)

Definition expired (keys : list string) (cutoff : datetime) (s : StoredObject) : bool :=
  negb (bool_decide (so_key s ∈ keys) || (cutoff <? so_modified_at s)).
(** The objects to delete, one after the other; the keys that were there. *)
Fixpoint delete_all (tenant_id : string) (l : list StoredObject) : Vault (list string) :=
  match l with
  | [] => mret []
  | s :: l =>
      deleted ← to_store (obj_delete tenant_id (so_key s));
      keys ← delete_all tenant_id l;
      mret (if deleted : bool then so_key s :: keys else keys)
  end.
(** What the collection reads, and what it does with it. *)
Definition survey (tenant_id : string) (grace : Z) : Vault (datetime * list string) :=
  now ← clock;
  cutoff ← prog_res (add_us now (- grace));
  keys ← read_session (λ db, Ok (active_storage_keys db tenant_id));
  mret (cutoff, keys).
Definition sweep (tenant_id : string) (surveyed : datetime * list string) : Vault GarbageCollectionReport :=
  l ← from_store (iter_objects tenant_id);
  let doomed := List.filter (expired (snd surveyed) (fst surveyed)) l in
  keys ← delete_all tenant_id doomed;
  mret (mkGarbageCollectionReport tenant_id (zlen l) (zlen keys) (zlen l - zlen doomed) keys).
Definition collect_garbage (tenant_id : string) (grace : Z) : Vault GarbageCollectionReport :=
  surveyed ← survey tenant_id grace;
  sweep tenant_id surveyed.
End service.
