(* ===== verification/VaultInvariants.v ===== *)
(** * Evidence vault: what its transactions keep

    The transactions of the service, as steps clients may take in any order
    ([vault_step]), and what holds after any number of them: every custody chain is
    numbered and linked from its first event, identifiers do not repeat, derivations
    go from older to newer records, and a tombstone met the retention policy.  A step
    takes nothing back ([keeps]). *)

From Stdlib Require Import Ascii.
From S2P Require Import Prelude Tables PyFloat PyTime Ledger PyText PyCodec Materiality VaultStore VaultService.
Local Open Scope Z_scope.

Section invariants.
Context `{UuidSource} `{Sha256}.
Implicit Types (db : VaultDB) (e : EvidenceRecord) (c : EvidenceCustodyEvent).

(** ** Chains *)

(** The events of a record in the order they were written, each numbered one more than
    the one before and hashed over it. *)
Inductive chained (t id : string) : list EvidenceCustodyEvent → Prop :=
  | chained_nil : chained t id []
  | chained_snoc l c : chained t id l → cst_sequence_no c = zlen l + 1 → previous_event_hash c = event_hash <$> last l →
      event_hash c = expected_hash t id (event_hash <$> last l) c → chained t id (l ++ [c]).

Lemma walk_chain_snoc t id n previous l c :
  walk_chain t id n previous (l ++ [c]) =
  match walk_chain t id n previous l with
  | inl head => walk_chain t id (n + zlen l) head [c]
  | inr error => inr error
  end.
Proof.
  revert n previous. induction l as [|d l IH]; intros n previous; cbn [app walk_chain zlen].
  { by replace (n + zlen []) with n by (unfold zlen; cbn; lia). }
  destruct (negb _); [done|]. case_decide; [|done]. rewrite IH.
  replace (n + 1 + zlen l) with (n + zlen (d :: l)) by (unfold zlen; cbn; lia). done.
Qed.
Lemma walk_chain_head t id n previous l h : walk_chain t id n previous l = inl h → h = match last l with Some c => Some (event_hash c) | None => previous end.
Proof.
  revert n previous. induction l as [|d l IH]; intros n previous; cbn [walk_chain]; [by intros [= <-]|].
  destruct (negb _); [done|]. case_decide; [|done]. intros ->%IH. rewrite last_cons. by destruct (last l).
Qed.
(** [verify_custody_chain] accepts exactly the chained lists. *)
Lemma walk_chain_spec t id l h : walk_chain t id 1 None l = inl h ↔ chained t id l ∧ h = event_hash <$> last l.
Proof.
  split.
  - intros E. pose proof (walk_chain_head _ _ _ _ _ _ E) as ->. split; [|by destruct (last l)].
    revert E. generalize (match last l with Some c => Some (event_hash c) | None => None end) as h'.
    induction l as [|c l IH] using rev_ind; intros h' E; [constructor|]. rewrite walk_chain_snoc in E.
    destruct (walk_chain t id 1 None l) as [h|] eqn:El; [|done]. pose proof (walk_chain_head _ _ _ _ _ _ El) as Eh.
    assert (h = event_hash <$> last l) as -> by (rewrite Eh; by destruct (last l)). cbn [walk_chain] in E.
    destruct (negb (_ =? _)) eqn:En; [done|]. apply negb_false_iff, Z.eqb_eq in En. case_decide as Hd; [|done]. destruct Hd as [Hp Hh].
    constructor; [by eapply IH|lia|done..].
  - intros [Hc ->]. induction Hc as [|l c Hc IH Hn Hp Hh]; [done|]. rewrite walk_chain_snoc, IH. cbn [walk_chain].
    rewrite Hn, (proj2 (Z.eqb_eq _ _)) by lia. cbn [negb]. rewrite decide_True by done. by rewrite last_snoc.
Qed.
Lemma chained_versions t id l : chained t id l → versions cst_sequence_no l.
Proof.
  unfold versions. induction 1 as [|l c Hc IH Hn _ _]; [done|].
  rewrite map_app, IH, length_app, Nat.add_1_r, seq_S, map_app. cbn [map]. rewrite Hn. unfold zlen. repeat f_equal. lia.
Qed.

(** ** What holds of the tables *)

(** [s] is the identifier of an older record than [d]. *)
Definition older db (s d : string) : Prop := ∃ i j, (i < j)%nat ∧ map eid (evidence_records db) !! i = Some s ∧ map eid (evidence_records db) !! j = Some d.
(** What a tombstone was written under. *)
Definition lawfully_purged db e : Prop :=
  integrity_status (custody e) = "purged" ∧
  ∃ effective c, retention_allows (custody e) effective = true ∧ c ∈ events_of db (etenant e) (eid e) ∧ cst_action c = "tombstoned" ∧
    dict_get "effective_date" (cst_details c) = Some (JStr (date_isoformat effective)).
Record vault_sound db : Prop := mk_vault_sound {
  vs_chain : ∀ t id, chained t id (events_of db t id);
  vs_ids : NoDup (map eid (evidence_records db));
  vs_lineage : ∀ x, x ∈ transformations db → older db (source_evidence_id x) (derived_evidence_id x);
  vs_purged : ∀ e, e ∈ evidence_records db → active e = false → lawfully_purged db e
}.
Definition empty_vault (tenants : list string) (engagements : list (string * string)) (tasks : list (string * string * string))
    (l : Ledger) : VaultDB := mkVaultDB tenants engagements tasks [] [] [] l.
Lemma empty_vault_sound tenants engagements tasks l : vault_sound (empty_vault tenants engagements tasks l).
Proof.
  split; cbn; [intros; constructor|constructor|by intros x ?%elem_of_nil|by intros x ?%elem_of_nil].
Qed.

(** Nothing is taken back: records keep what was acquired, a tombstone stays as it is,
    custody and derivations are only added to. *)
Record keeps db db' : Prop := mk_keeps {
  kp_records : ∀ i e, evidence_records db !! i = Some e → ∃ e', evidence_records db' !! i = Some e' ∧ acquisition e' = acquisition e ∧
    (active e = false → e' = e);
  kp_custody : custody_events db `prefix_of` custody_events db';
  kp_derivations : transformations db `prefix_of` transformations db'
}.
#[export] Instance keeps_refl : Reflexive keeps.
Proof. intros db. split; [by eauto|done..]. Qed.
#[export] Instance keeps_trans : Transitive keeps.
Proof.
  intros d1 d2 d3 [A1 A2 A3] [B1 B2 B3]. split; [|by etrans..]. intros i e Hi.
  destruct (A1 i e Hi) as (e' & Hi' & E' & K'). destruct (B1 i e' Hi') as (e'' & Hi'' & E'' & K''). exists e''.
  split_and!; [done|congruence|]. intros Ha. specialize (K' Ha) as ->. by apply K''.
Qed.
(** A body that keeps both. *)
Definition guards {A} (m : VaultTx A) : Prop := ∀ db a db', vault_sound db → m db = Ok (a, db') → vault_sound db' ∧ keeps db db'.

Lemma guards_ret {A} (a : A) : guards (mret (M:=VaultTx) a).
Proof. intros db x db' Hs [-> ->]%tx_ret_Ok. by split. Qed.
Lemma guards_bind {A B} (m : VaultTx A) (f : A → VaultTx B) : guards m → (∀ a, guards (f a)) → guards (mbind (M:=VaultTx) f m).
Proof.
  intros Hm Hf db b db' Hs (a & d & E1 & E2)%tx_bind_Ok. destruct (Hm _ _ _ Hs E1) as [H1 K1]. destruct (Hf _ _ _ _ H1 E2) as [H2 K2].
  split; [done|by etrans].
Qed.
Lemma guards_reads {A} (m : VaultTx A) : reads_only m → guards m.
Proof. intros Hr db a db' Hs E. apply Hr in E as ->. by split. Qed.

(** ** The statements of a transaction *)

(** A change of the ledger alone. *)
Lemma sound_ledger l db : vault_sound db → vault_sound (set_vault_ledger l db) ∧ keeps db (set_vault_ledger l db).
Proof. intros [S1 S2 S3 S4]. split; [by split|]. split; [by eauto|done..]. Qed.
Lemma guards_ledger {A} (m : Tx Ledger A) : guards (on_ledger m).
Proof. intros db a db' Hs (l & _ & ->)%zoom_Ok. by apply sound_ledger. Qed.
Lemma guards_domain_event e ty payload : guards (_append_domain_event e ty payload).
Proof.
  unfold _append_domain_event. repeat (apply guards_bind; [first [apply guards_ledger|apply guards_reads, reads_only_gets]|intros ?]).
  apply guards_ledger.
Qed.

(** What [append_custody_event] adds. *)
Lemma append_custody_event_Ok t id action actor_type actor_id now details db c db' :
  append_custody_event t id action actor_type actor_id now details db = Ok (c, db') →
  (cst_tenant_id c, cst_evidence_id c, cst_action c, cst_actor_type c, cst_actor_id c, cst_occurred_at c, cst_details c) =
    (t, id, action, actor_type, actor_id, now, details) ∧
  cst_sequence_no c = match last_event db t id with Some p => cst_sequence_no p | None => 0 end + 1 ∧
  previous_event_hash c = event_hash <$> last_event db t id ∧
  event_hash c = expected_hash t id (event_hash <$> last_event db t id) c ∧
  (∃ e, get db t id true = Some e) ∧
  ∃ l, db' = set_custody_events (custody_events db ++ [c]) (set_vault_ledger l db).
Proof.
  unfold append_custody_event, reading, on_ledger, add_custody_event, reading. intros E. inv_tx.
  split_and!; try done; [by eexists|]. by eexists.
Qed.
Lemma events_of_snoc t id t' id' c cs : cst_tenant_id c = t' → cst_evidence_id c = id' →
  filter (λ c, cst_tenant_id c = t ∧ cst_evidence_id c = id) (cs ++ [c]) =
  filter (λ c, cst_tenant_id c = t ∧ cst_evidence_id c = id) cs ++ (if decide (t = t' ∧ id = id') then [c] else []).
Proof.
  intros Et Ei. rewrite filter_app, filter_cons, filter_nil, Et, Ei. f_equal.
  destruct (decide (t' = t ∧ id' = id)) as [K|K], (decide (t = t' ∧ id = id')) as [K'|K']; naive_solver.
Qed.
Lemma sound_append_event db t id c l : vault_sound db → cst_tenant_id c = t → cst_evidence_id c = id →
  cst_sequence_no c = match last_event db t id with Some p => cst_sequence_no p | None => 0 end + 1 →
  previous_event_hash c = event_hash <$> last_event db t id → event_hash c = expected_hash t id (event_hash <$> last_event db t id) c →
  let db' := set_custody_events (custody_events db ++ [c]) (set_vault_ledger l db) in
  vault_sound db' ∧ keeps db db' ∧ c ∈ events_of db' t id.
Proof.
  intros [S1 S2 S3 S4] Et Ei En Ep Eh.
  assert (Hlast : last_event db t id = last (events_of db t id)) by (apply versions_latest; by eapply chained_versions).
  rewrite Hlast in En, Ep, Eh. split_and!; [split; cbn|split; cbn; [by eauto|by apply prefix_app_r|done]|].
  - intros t' id'. unfold events_of. cbn. rewrite (events_of_snoc _ _ t id) by done. fold (events_of db t' id').
    case_decide as Hd; [|by rewrite app_nil_r]. destruct Hd as [-> ->]. constructor; [apply S1| |done..].
    rewrite En. pose proof (S1 t id) as Hc. inversion Hc as [El|l' c' _ En' _ _ El]; [done|]. rewrite last_snoc, En'. unfold zlen. rewrite length_app. cbn. lia.
  - done.
  - done.
  - intros e He Ha. destruct (S4 e He Ha) as (K1 & effective & d & K2 & K3 & K4 & K5). split; [done|]. exists effective, d.
    split_and!; [done| |done..]. unfold events_of in *. cbn. rewrite filter_app. apply elem_of_app. by left.
  - unfold events_of. cbn. apply list_elem_of_filter. split; [done|]. apply elem_of_app. right. by apply list_elem_of_singleton.
Qed.
Lemma guards_append_custody t id action actor_type actor_id now details :
  guards (append_custody_event t id action actor_type actor_id now details).
Proof.
  intros db c db' Hs E. apply append_custody_event_Ok in E as (Ef & En & Ep & Eh & _ & l & ->). injection Ef as Et Ei _ _ _ _ _.
  by destruct (sound_append_event db t id c l Hs Et Ei En Ep Eh) as (? & ? & _).
Qed.

Lemma older_app db e s d : older db s d → older (set_records (evidence_records db ++ [e]) db) s d.
Proof.
  intros (i & j & Hij & Hi & Hj). exists i, j. cbn. rewrite map_app. split_and!; [done|by apply lookup_app_l_Some..].
Qed.
Lemma guards_add_evidence e : active e = true → guards (add_evidence e).
Proof.
  intros Ha db u db' [S1 S2 S3 S4] E. unfold add_evidence, reading in E. inv_tx.
  match goal with K : _ && absent _ _ = true |- _ => apply andb_prop in K as [_ K]; rewrite absent_rows in K; rename K into Hk end.
  split; [split; cbn|split; cbn; [|done..]].
  - done.
  - apply NoDup_map_snoc; [done|]. apply Forall_forall. intros e' He' Eq. specialize (Hk e' He'). unfold evidence_conflict in Hk.
    by rewrite bool_decide_eq_true_2 in Hk.
  - intros x Hx. by apply older_app, S3.
  - intros e' [He'| ->%list_elem_of_singleton]%elem_of_app Hf; [by apply S4|congruence].
  - intros i e' Hi. exists e'. split; [by apply lookup_app_l_Some|done].
Qed.

Lemma map_eid_update id v l : map eid (update_row eid id (set_custody v) l) = map eid l.
Proof. by apply map_update_row. Qed.
(** Custody of an active record changes: it stays active, or its tombstone is lawful. *)
Lemma sound_save_custody id v db :
  vault_sound db → (∀ e, e ∈ evidence_records db → eid e = id → active e = true) →
  (deleted_at v ≠ None → ∀ e, e ∈ evidence_records db → eid e = id → lawfully_purged db (set_custody v e)) →
  vault_sound (set_records (update_row eid id (set_custody v) (evidence_records db)) db) ∧
  keeps db (set_records (update_row eid id (set_custody v) (evidence_records db)) db).
Proof.
  intros [S1 S2 S3 S4] Hact Hlaw. split; [split; cbn|split; cbn; [|done..]].
  - done.
  - by rewrite map_eid_update.
  - intros x Hx. destruct (S3 x Hx) as (i & j & ?). exists i, j. cbn. by rewrite map_eid_update.
  - intros e' (e & He & ->)%elem_of_update_row Hf. case_decide as Hid.
    + apply Hlaw; [|done..]. unfold active in Hf. cbn in Hf. by apply bool_decide_eq_false in Hf.
    + by apply S4.
  - intros i e Hi. unfold update_row. change (map ?f ?l) with (f <$> l). rewrite list_lookup_fmap, Hi. cbn. eexists. split; [done|].
    destruct (decide (eid e = id)) as [Hid|]; [|done]. split; [done|]. intros Hf. rewrite Hact in Hf; [done| |done].
    by eapply list_elem_of_lookup_2.
Qed.

Lemma get_Some db t id b e : get db t id b = Some e → e ∈ evidence_records db ∧ etenant e = t ∧ eid e = id ∧ (b = false → active e = true).
Proof. intros E%scalar_filter_Some. tauto. Qed.
Lemma sole_record db e e' : vault_sound db → e ∈ evidence_records db → e' ∈ evidence_records db → eid e' = eid e → e' = e.
Proof. intros Hs ?? E. by apply (same_row eid (evidence_records db)); [apply Hs|..]. Qed.

Lemma older_keeps db db' s d : keeps db db' → older db s d → older db' s d.
Proof.
  intros [K _ _] (i & j & Hij & Hi & Hj). exists i, j. split; [done|]. rewrite !list_lookup_fmap in *.
  destruct (evidence_records db !! i) as [e|] eqn:Ei; [|done]. destruct (evidence_records db !! j) as [e'|] eqn:Ej; [|done].
  destruct (K _ _ Ei) as (f & -> & E & _). destruct (K _ _ Ej) as (f' & -> & E' & _). cbn in *. unfold eid in *. by rewrite E, E'.
Qed.

(** ** The transactions *)

Lemma guards_ingest_tx e actor_type actor_id created now : active e = true → guards (ingest_tx e actor_type actor_id created now).
Proof.
  intros Ha. unfold ingest_tx, reading. apply guards_bind; [apply guards_reads; auto with tx|intros db].
  apply guards_bind; [apply guards_reads; auto with tx|intros [x|]]; [apply guards_ret|].
  apply guards_bind; [by apply guards_add_evidence|intros _].
  apply guards_bind; [apply guards_append_custody|intros c]. apply guards_bind; [apply guards_domain_event|intros _]. apply guards_ret.
Qed.

Lemma sound_add_transformation x db u db' : vault_sound db → older db (source_evidence_id x) (derived_evidence_id x) →
  add_transformation x db = Ok (u, db') → vault_sound db' ∧ keeps db db'.
Proof.
  intros [S1 S2 S3 S4] Ho E. unfold add_transformation, reading in E. inv_tx. split; [split; cbn; try done|split; cbn; [by eauto|done|by apply prefix_app_r]].
  intros y [Hy| ->%list_elem_of_singleton]%elem_of_app; [by apply S3|done].
Qed.
Lemma derive_from_sound r derived now source db u db' : vault_sound db → older db (eid source) derived →
  derive_from r derived now source db = Ok (u, db') → vault_sound db' ∧ keeps db db'.
Proof.
  intros Hs Ho (x & d1 & E1 & (x2 & d2 & E2 & (x3 & d3 & E3 & [-> ->]%tx_ret_Ok)%tx_bind_Ok)%tx_bind_Ok)%tx_bind_Ok.
  apply guards_ledger in E1 as [H1 K1]; [|done].
  apply sound_add_transformation in E2 as [H2 K2]; [|done|by eapply older_keeps].
  apply guards_append_custody in E3 as [H3 K3]; [|done]. split; [done|]. etrans; [done|]. by etrans.
Qed.
Lemma derive_each_sound r derived now sources db u db' : vault_sound db → Forall (λ e, older db (eid e) derived) sources →
  for_each sources (derive_from r derived now) db = Ok (u, db') → vault_sound db' ∧ keeps db db'.
Proof.
  revert db. induction sources as [|e sources IH]; intros db Hs Ho E; cbn [for_each] in E; [by apply tx_ret_Ok in E as [-> ->]|].
  apply tx_bind_Ok in E as (x & d & E1 & E2). inversion Ho as [|? ? O1 O2]. subst.
  apply derive_from_sound in E1 as [H1 K1]; [|done..]. apply IH in E2 as [H2 K2]; [|done|].
  - split; [done|by etrans].
  - eapply Forall_impl; [done|]. intros e' He'. by eapply older_keeps.
Qed.
Lemma sources_of_Ok t ids db es : sources_of t ids db = Ok es →
  Forall2 (λ id e, get db t id false = Some e) ids es.
Proof.
  revert es. induction ids as [|id ids IH]; intros es; cbn; [by intros [= <-]|].
  destruct (get db t id false) as [e|] eqn:E; [|done]. cbn. change (foldr _ (Ok []) ids) with (sources_of t ids db).
  destruct (sources_of t ids db) as [es'|]; [|done]. intros [= <-]. constructor; [done|by apply IH].
Qed.
Lemma guards_derive_tx r ids e now : active e = true → guards (derive_tx r ids e now).
Proof.
  intros Ha db a db' Hs E. unfold derive_tx, reading in E. apply tx_bind_Ok in E as (x & d & [-> ->]%gets_Ok & E).
  apply tx_bind_Ok in E as (x & d & [_ ->]%from_res_Ok & E). destruct x as [x|]; [by apply guards_ret in E|].
  apply tx_bind_Ok in E as (sources & d & [Hsrc ->]%from_res_Ok & E). apply tx_bind_Ok in E as (u & d1 & E1 & E).
  pose proof E1 as E1'. apply guards_add_evidence in E1 as [H1 K1]; [|done..].
  apply tx_bind_Ok in E as (u2 & d2 & E2 & E). apply derive_each_sound in E2 as [H2 K2]; [|done|].
  - apply tx_bind_Ok in E as (c & d3 & [H3 K3]%guards_append_custody & E); [|done].
    apply tx_bind_Ok in E as (u4 & d4 & [H4 K4]%guards_domain_event & E); [|done]. apply tx_ret_Ok in E as [-> ->].
    split; [done|]. etrans; [done|]. etrans; [done|]. by etrans.
  - unfold add_evidence, reading in E1'. inv_tx. apply sources_of_Ok in Hsrc. apply Forall_forall. intros s Hs'.
    apply list_elem_of_lookup_1 in Hs' as [k Hk]. destruct (Forall2_lookup_r _ _ _ _ _ Hsrc Hk) as (id & _ & Hget).
    apply get_Some in Hget as ([i Hi]%list_elem_of_lookup_1 & _). exists i, (length (evidence_records db)). cbn.
    pose proof (lookup_lt_Some _ _ _ Hi). rewrite !list_lookup_fmap, (lookup_app_l _ _ i), Hi, list_lookup_middle by done. done.
Qed.

(** A statement that rewrites the custody of the record found and records the event. *)
Lemma guards_access_tx t id actor_type actor_id purpose now n : guards (access_tx t id actor_type actor_id purpose now n).
Proof. apply guards_append_custody. Qed.
Lemma save_custody_sound id v db u db' : vault_sound db → deleted_at v = None →
  (∀ e, e ∈ evidence_records db → eid e = id → active e = true) → save_custody id v db = Ok (u, db') → vault_sound db' ∧ keeps db db'.
Proof. intros Hs Hd Ha E. unfold save_custody in E. inv_tx. by apply sound_save_custody. Qed.
Lemma found_active t id db e : vault_sound db → get db t id false = Some e → ∀ e', e' ∈ evidence_records db → eid e' = eid e → active e' = true.
Proof. intros Hs (He & _ & _ & Ha)%get_Some e' He' Eq. rewrite (sole_record db e e') by done. by apply Ha. Qed.
Lemma guards_verified_tx t id status actor_id now details : guards (verified_tx t id status actor_id now details).
Proof.
  intros db a db' Hs E. unfold verified_tx, reading in E. apply tx_bind_Ok in E as (x & d & [-> ->]%gets_Ok & E).
  apply tx_bind_Ok in E as (e & d & [Hg ->]%some_or_raise_Ok & E). apply tx_bind_Ok in E as (u & d1 & E1 & E).
  assert (Ha : deleted_at (custody e) = None) by (apply get_Some in Hg as (_ & _ & _ & Ha); by apply bool_decide_eq_true in Ha).
  apply save_custody_sound in E1 as [H1 K1]; [|done|done|by eapply found_active].
  apply tx_bind_Ok in E as (c & d2 & [H2 K2]%guards_append_custody & [-> ->]%tx_ret_Ok); [|done]. split; [done|by etrans].
Qed.
Lemma guards_retention_tx t id actor_id until hold reason now : guards (retention_tx t id actor_id until hold reason now).
Proof.
  intros db a db' Hs E. unfold retention_tx, reading in E. apply tx_bind_Ok in E as (x & d & [-> ->]%gets_Ok & E).
  apply tx_bind_Ok in E as (e & d & [Hg ->]%some_or_raise_Ok & E). apply tx_bind_Ok in E as (u & d1 & E1 & E).
  assert (Ha : deleted_at (custody e) = None) by (apply get_Some in Hg as (_ & _ & _ & Ha); by apply bool_decide_eq_true in Ha).
  apply save_custody_sound in E1 as [H1 K1]; [|done|done|by eapply found_active].
  apply tx_bind_Ok in E as (c & d2 & [H2 K2]%guards_append_custody & [-> ->]%tx_ret_Ok); [|done]. split; [done|by etrans].
Qed.
Lemma guards_purge_tx t id actor_id reason effective now : guards (purge_tx t id actor_id reason effective now).
Proof.
  intros db a db' Hs E. unfold purge_tx, reading in E. apply tx_bind_Ok in E as (x & d & [-> ->]%gets_Ok & E).
  apply tx_bind_Ok in E as (e & d & [Hg ->]%some_or_raise_Ok & E). destruct (active e) eqn:Ha; cbn [negb] in E; [|by apply tx_ret_Ok in E as [-> ->]].
  apply tx_bind_Ok in E as (u & d & [Hr ->]%require_Ok & E). apply tx_bind_Ok in E as (u1 & d1 & E1 & E).
  apply tx_bind_Ok in E as (c & d2 & E2 & E). apply tx_bind_Ok in E as (u3 & d3 & E3 & [-> ->]%tx_ret_Ok).
  pose proof (get_Some _ _ _ _ _ Hg) as (He & Et & Ei & _). unfold save_custody in E1. inv_tx.
  apply append_custody_event_Ok in E2 as (Ef & En & Ep & Eh & _ & l & ->). injection Ef as Ft Fi Fa _ _ _ Fd.
  destruct (sound_append_event db (etenant e) (eid e) c l Hs Ft Fi En Ep Eh) as (H1 & K1 & Hc).
  match type of Hc with c ∈ events_of ?d _ _ => set (d1 := d) in * end.
  set (v := mkCustody "purged" (last_verified_at (custody e)) (retention_until (custody e)) (legal_hold (custody e)) (Some now) (Some reason)) in *.
  change (_append_domain_event (set_custody v e) "evidence.tombstoned" [("evidence_id", JStr (eid e)); ("reason", JStr reason)]
    (set_records (update_row eid (eid e) (set_custody v) (evidence_records d1)) d1) = Ok (u3, d3)) in E3.
  destruct (sound_save_custody (eid e) v d1 H1) as [H2 K2].
  - intros e' He' Eq. by rewrite (sole_record db e e').
  - intros _ e' He' Eq. rewrite (sole_record db e e') by done. split; [done|]. exists effective, c. by rewrite Fd.
  - apply guards_domain_event in E3 as [H3 K3]; [|done]. split; [done|]. etrans; [done|]. by etrans.
Qed.
Lemma guards_for_each {A} (l : list A) (body : A → VaultTx unit) : (∀ x, guards (body x)) → guards (for_each l body).
Proof. intros Hb. induction l as [|x l IH]; cbn; [apply guards_ret|]. by apply guards_bind. Qed.
Lemma guards_export_tx t exported selected export_id actor_id purpose p m now :
  guards (export_tx t exported selected export_id actor_id purpose p m now).
Proof.
  apply guards_bind; [|intros []; apply guards_ledger]. apply guards_for_each. intros id.
  apply guards_bind; [apply guards_append_custody|intros ?; apply guards_ret].
Qed.
End invariants.
