(* ===== verification/VaultHistory.v ===== *)
(** * Evidence vault: histories

    The transactions of the service as steps that any number of clients take in any
    order ([vault_step]), every operation as a sequence of them, and what holds of the
    tables after any history.  Of the objects, what an operation on its own keeps
    ([well_kept]): every active record has its bytes. *)

From Stdlib Require Import Ascii.
From S2P Require Import Prelude Tables PyFloat PyTime Ledger PyText PyCodec Materiality VaultStore VaultService VaultInvariants.
Local Open Scope Z_scope.

Create HintDb steps.

Section history.
Context `{UuidSource} `{Sha256} `{VaultClock}.
Implicit Types (db : VaultDB) (w : VaultWorld) (e : EvidenceRecord).

(** ** Steps *)

Inductive vault_step : relation VaultDB :=
  | drew prefix db id db' : on_ledger (new_id prefix) db = Ok (id, db') → vault_step db db'
  | acquires e actor_type actor_id created now db x db' : active e = true →
      ingest_tx e actor_type actor_id created now db = Ok (x, db') → vault_step db db'
  | derives r ids e now db x db' : active e = true → derive_tx r ids e now db = Ok (x, db') → vault_step db db'
  | accesses t id actor_type actor_id purpose now n db c db' :
      access_tx t id actor_type actor_id purpose now n db = Ok (c, db') → vault_step db db'
  | verifies t id status actor_id now details db u db' :
      verified_tx t id status actor_id now details db = Ok (u, db') → vault_step db db'
  | retains t id actor_id until hold reason now db x db' :
      retention_tx t id actor_id until hold reason now db = Ok (x, db') → vault_step db db'
  | purges t id actor_id reason effective now db x db' :
      purge_tx t id actor_id reason effective now db = Ok (x, db') → vault_step db db'
  | exports t exported selected export_id actor_id purpose p m now db u db' :
      export_tx t exported selected export_id actor_id purpose p m now db = Ok (u, db') → vault_step db db'
  (** Other components write the other tables. *)
  | elsewhere tenants engagements tasks l db :
      vault_step db (mkVaultDB tenants engagements tasks (evidence_records db) (transformations db) (custody_events db) l).

Lemma vault_step_sound db db' : vault_step db db' → vault_sound db → vault_sound db' ∧ keeps db db'.
Proof.
  intros Hs Hi. destruct Hs as [? ? ? ? E|? ? ? ? ? ? ? ? Ha E|? ? ? ? ? ? ? Ha E|? ? ? ? ? ? ? ? ? ? E|? ? ? ? ? ? ? ? ? E|? ? ? ? ? ? ? ? ? ? E|? ? ? ? ? ? ? ? ? E|? ? ? ? ? ? ? ? ? ? ? ? E|].
  - by apply guards_ledger in E.
  - by apply guards_ingest_tx in E.
  - by apply guards_derive_tx in E.
  - by apply guards_access_tx in E.
  - by apply guards_verified_tx in E.
  - by apply guards_retention_tx in E.
  - by apply guards_purge_tx in E.
  - by apply guards_export_tx in E.
  - destruct Hi as [S1 S2 S3 S4]. split; [by split|]. split; cbn; [by eauto|done|done].
Qed.
Lemma vault_steps_sound db db' : rtc vault_step db db' → vault_sound db → vault_sound db' ∧ keeps db db'.
Proof.
  induction 1 as [|d1 d2 d3 Hs _ IH]; intros Hi; [by split|]. apply vault_step_sound in Hs as [H2 K2]; [|done].
  destruct (IH H2) as [H3 K3]. split; [done|by etrans].
Qed.

(** ** Operations are sequences of steps *)

Definition advances w w' : Prop := rtc vault_step (vdb w) (vdb w').
#[export] Instance advances_refl : Reflexive advances.
Proof. intros w. apply rtc_refl. Qed.
#[export] Instance advances_trans : Transitive advances.
Proof. intros w1 w2 w3 ? ?. unfold advances in *. by etrans. Qed.

Abbreviation steps := (prog_keeps advances).
Lemma steps_ret {A} (a : A) : steps (mret (M:=Vault) a).
Proof. apply prog_keeps_ret, _. Qed.
Lemma steps_bind {A B} (m : Vault A) (f : A → Vault B) : steps m → (∀ a, steps (f a)) → steps (mbind (M:=Vault) f m).
Proof. apply prog_keeps_bind, _. Qed.
Lemma steps_read_session {A} (f : VaultDB → Res A) : steps (read_session f).
Proof. by intros w r w' [= _ <-]. Qed.
Lemma steps_prog_res {A} (r : Res A) : steps (prog_res r).
Proof. by intros w r' w' [= _ <-]. Qed.
Lemma steps_prog_raise {A} (x : exn) : steps (prog_raise (A:=A) x).
Proof. by intros w r' w' [= _ <-]. Qed.
Lemma steps_wall : steps (λ w, (Ok (wall_clock (vault_ledger (vdb w))), w)).
Proof. by intros w r' w' [= _ <-]. Qed.
Lemma steps_clock : steps clock.
Proof. intros w r w' [= _ <-]. apply rtc_refl. Qed.
Lemma steps_from_store {A} (f : Objects → Res A) : steps (from_store f).
Proof. by intros w r w' [= _ <-]. Qed.
Lemma steps_to_store {A} (f : Objects → Res (A * Objects)) : steps (to_store f).
Proof. intros w r w'. unfold to_store. destruct (f (objects w)) as [[a os]|e]; intros [= _ <-]; apply rtc_refl. Qed.
Lemma steps_transaction {A} (m : VaultTx A) : (∀ db a db', m db = Ok (a, db') → vault_step db db') → steps (in_transaction m).
Proof.
  intros Hm w r w'. unfold in_transaction, commit. destruct (m (vdb w)) as [[a db']|e] eqn:E; intros [= _ <-]; [|done].
  by apply rtc_once, (Hm _ a).
Qed.
Lemma steps_on_integrity_error {A} (m h : Vault A) : steps m → steps h → steps (on_integrity_error m h).
Proof.
  intros Hm Hh w r w'. unfold on_integrity_error. destruct (m w) as [[a|e] w1] eqn:E; [intros [= _ <-]; by eapply Hm|].
  assert (K : advances w w1) by (by eapply Hm).
  destruct e as [[]| | | | | |]; try (intros [= _ <-]; exact K). intros E2. etrans; [exact K|by eapply Hh].
Qed.
Lemma steps_drawing prefix : steps (drawing prefix).
Proof. apply steps_transaction. intros. by eapply drew. Qed.
#[local] Hint Resolve steps_ret steps_bind steps_read_session steps_prog_res steps_prog_raise steps_wall steps_clock steps_from_store
  steps_to_store steps_transaction steps_on_integrity_error steps_drawing : steps.

Lemma ingest_steps v r : steps (ingest_bytes v r).
Proof.
  unfold ingest_bytes. do 3 (apply steps_bind; [auto with steps|intros ?]). destruct a1; [auto with steps|].
  do 4 (apply steps_bind; [auto with steps|intros ?]). apply steps_on_integrity_error; [|unfold recover; auto with steps].
  apply steps_transaction. intros. by eapply acquires; [|done].
Qed.
Lemma derive_steps r : steps (create_derivative r).
Proof.
  unfold create_derivative. destruct (negb _); [auto with steps|]. do 3 (apply steps_bind; [auto with steps|intros ?]).
  destruct a1; [auto with steps|]. do 4 (apply steps_bind; [auto with steps|intros ?]).
  apply steps_on_integrity_error; [|unfold recover; auto with steps]. apply steps_transaction. intros. by eapply derives; [|done].
Qed.
Lemma read_steps t id actor_type actor_id purpose : steps (read_bytes t id actor_type actor_id purpose).
Proof.
  unfold read_bytes, _get_active_record. do 5 (apply steps_bind; [try solve [auto with steps]|intros ?]); [|auto with steps].
  apply steps_transaction. intros. by eapply accesses.
Qed.
Lemma verify_steps t id actor_id : steps (verify_integrity t id actor_id).
Proof.
  unfold verify_integrity, _get_active_record. do 3 (apply steps_bind; [auto with steps|intros ?]).
  apply steps_bind; [auto with steps|intros [[status s] failure]]. apply steps_bind; [|intros; destruct failure; auto with steps].
  apply steps_transaction. intros. by eapply verifies.
Qed.
Lemma retention_steps t id actor_id until hold reason : steps (set_retention t id actor_id until hold reason).
Proof. apply steps_bind; [auto with steps|intros ?]. apply steps_transaction. intros. by eapply retains. Qed.
Lemma purge_steps t id actor_id reason as_of : steps (purge t id actor_id reason as_of).
Proof.
  apply steps_bind; [destruct as_of; auto with steps|intros ?]. apply steps_bind; [auto with steps|intros ?].
  apply steps_transaction. intros. by eapply purges.
Qed.
Lemma delete_all_steps t l : steps (delete_all t l).
Proof. induction l as [|s l IH]; cbn [delete_all]; auto with steps. Qed.
Lemma collect_steps t grace : steps (collect_garbage t grace).
Proof.
  apply steps_bind; [unfold survey; auto 10 with steps|intros surveyed]. unfold sweep. apply steps_bind; [auto with steps|intros ?].
  apply steps_bind; [apply delete_all_steps|auto with steps].
Qed.

(** ** Which records a transaction adds *)

Definition acquisitions db : list Acquisition := map acquisition (evidence_records db).
(** A body that leaves the records as they are, and one that adds none. *)
Abbreviation rests m := (∀ l, preserves (λ db, evidence_records db = l) m).
Abbreviation enrols_none m := (∀ l, preserves (λ db, acquisitions db = l) m).
Lemma rests_none {A} (m : VaultTx A) : rests m → enrols_none m.
Proof. intros Hm l db a db' <- E. unfold acquisitions. by rewrite (Hm _ _ _ _ eq_refl E). Qed.
Lemma rests_ledger {A} (m : Tx Ledger A) : rests (on_ledger m).
Proof. intros l db a db' <- (x & _ & ->)%zoom_Ok. done. Qed.
Lemma rests_append_custody t id action actor_type actor_id now details :
  rests (append_custody_event t id action actor_type actor_id now details).
Proof. intros l db c db' <- E. apply append_custody_event_Ok in E as (_ & _ & _ & _ & _ & x & ->). done. Qed.
Lemma rests_domain_event e ty payload : rests (_append_domain_event e ty payload).
Proof.
  intros l. unfold _append_domain_event. repeat (apply preserves_bind; [first [apply rests_ledger|auto with tx]|intros ?]). apply rests_ledger.
Qed.
Lemma rests_add_transformation x : rests (add_transformation x).
Proof. intros l db u db' <- E. unfold add_transformation, reading in E. by inv_tx. Qed.
Lemma rests_derive_from r derived now source : rests (derive_from r derived now source).
Proof.
  intros l. unfold derive_from. apply preserves_bind; [apply rests_ledger|intros ?]. apply preserves_bind; [apply rests_add_transformation|intros ?].
  apply preserves_bind; [apply rests_append_custody|auto with tx].
Qed.
Lemma none_save_custody id v : enrols_none (save_custody id v).
Proof. intros l db u db' <- E. unfold save_custody in E. inv_tx. by apply map_update_row. Qed.
#[local] Hint Resolve rests_none rests_ledger rests_append_custody rests_domain_event none_save_custody : steps.
Lemma none_verified_tx t id status actor_id now details : enrols_none (verified_tx t id status actor_id now details).
Proof.
  intros l. unfold verified_tx, reading. do 2 (apply preserves_bind; [auto with tx|intros ?]).
  do 2 (apply preserves_bind; [auto with steps|intros ?]). auto with tx.
Qed.
Lemma none_retention_tx t id actor_id until hold reason now : enrols_none (retention_tx t id actor_id until hold reason now).
Proof.
  intros l. unfold retention_tx, reading. do 2 (apply preserves_bind; [auto with tx|intros ?]).
  do 2 (apply preserves_bind; [auto with steps|intros ?]). auto with tx.
Qed.
Lemma none_purge_tx t id actor_id reason effective now : enrols_none (purge_tx t id actor_id reason effective now).
Proof.
  intros l. unfold purge_tx, reading. do 2 (apply preserves_bind; [auto with tx|intros ?]). destruct (negb _); [auto with tx|].
  apply preserves_bind; [auto with tx|intros ?]. do 3 (apply preserves_bind; [auto with steps|intros ?]). auto with tx.
Qed.
Lemma none_export_tx t exported selected export_id actor_id purpose p m now :
  enrols_none (export_tx t exported selected export_id actor_id purpose p m now).
Proof.
  intros l. unfold export_tx. apply preserves_bind; [|auto with steps]. apply preserves_for_each. intros id _.
  apply preserves_bind; [auto with steps|auto with tx].
Qed.

(** An acquisition returns the record its key already names, or the one it adds. *)
Definition enrols e (m : VaultTx EvidenceRecord) : Prop := ∀ db x db', m db = Ok (x, db') →
  (db' = db ∧ x ∈ evidence_records db ∧ etenant x = etenant e ∧ digest x = digest e) ∨
  (evidence_records db' = evidence_records db ++ [e] ∧ x = e).
Lemma settled_Some t key d db x : settled t key d db = Ok (Some x) → x ∈ evidence_records db ∧ etenant x = t ∧ digest x = d.
Proof.
  unfold settled. destruct key as [k|]; [|done]. case_decide; [done|]. destruct (get_by_acquisition_key db t k) as [y|] eqn:E; [|done].
  case_decide; [|done]. intros [= <-]. apply scalar_filter_Some in E. tauto.
Qed.
Lemma add_evidence_records e db u db' : add_evidence e db = Ok (u, db') → evidence_records db' = evidence_records db ++ [e].
Proof. unfold add_evidence, reading. intros E. by inv_tx. Qed.
Lemma ingest_tx_enrols e actor_type actor_id created now : enrols e (ingest_tx e actor_type actor_id created now).
Proof.
  intros db x db' E. unfold ingest_tx, reading in E. apply tx_bind_Ok in E as (y & d & [-> ->]%gets_Ok & E).
  apply tx_bind_Ok in E as (y & d & [Es ->]%from_res_Ok & E). destruct y as [y|].
  { apply tx_ret_Ok in E as [-> ->]. left. apply settled_Some in Es as (? & ? & ?). done. }
  apply tx_bind_Ok in E as (u & d1 & E1%add_evidence_records & E). right.
  apply tx_bind_Ok in E as (c & d2 & E2%(rests_append_custody _ _ _ _ _ _ _ _ _ _ _ E1) & E).
  apply tx_bind_Ok in E as (u2 & d3 & E3%(rests_domain_event _ _ _ _ _ _ _ E2) & E). by apply tx_ret_Ok in E as [-> ->].
Qed.
Lemma derive_tx_enrols r ids e now : enrols e (derive_tx r ids e now).
Proof.
  intros db x db' E. unfold derive_tx, reading in E. apply tx_bind_Ok in E as (y & d & [-> ->]%gets_Ok & E).
  apply tx_bind_Ok in E as (y & d & [Es ->]%from_res_Ok & E). destruct y as [y|].
  { apply tx_ret_Ok in E as [-> ->]. left. apply settled_Some in Es as (? & ? & ?). done. }
  apply tx_bind_Ok in E as (sources & d & [_ ->]%from_res_Ok & E). apply tx_bind_Ok in E as (u & d1 & E1%add_evidence_records & E). right.
  apply tx_bind_Ok in E as (u2 & d2 & E2 & E).
  apply (preserves_for_each _ _ _ (λ s _, rests_derive_from r (eid e) now s _) _ _ _ E1) in E2.
  apply tx_bind_Ok in E as (c & d3 & E3%(rests_append_custody _ _ _ _ _ _ _ _ _ _ _ E2) & E).
  apply tx_bind_Ok in E as (u4 & d4 & E4%(rests_domain_event _ _ _ _ _ _ _ E3) & E). by apply tx_ret_Ok in E as [-> ->].
Qed.

(** ** Every active record keeps its bytes *)

Definition furnishes (os : Objects) (a : Acquisition) : Prop :=
  ∃ k, storage_key a = Some k ∧ holds os (evd_tenant_id a) k (content_sha256 a) (size_bytes a).
Record well_kept w : Prop := mk_well_kept {
  wk_sound : vault_sound (vdb w);
  wk_orderly : orderly (objects w);
  wk_bytes : ∀ e, e ∈ evidence_records (vdb w) → active e = true → furnishes (objects w) (acquisition e)
}.

Lemma kept_record db db' new e' : keeps db db' → acquisitions db' = acquisitions db ++ new → e' ∈ evidence_records db' →
  active e' = true → (∃ e, e ∈ evidence_records db ∧ active e = true ∧ acquisition e = acquisition e') ∨ acquisition e' ∈ new.
Proof.
  intros [K _ _] Hn [i Hi]%list_elem_of_lookup_1 Ha.
  assert (Ei : acquisitions db' !! i = Some (acquisition e')) by (unfold acquisitions; by rewrite list_lookup_fmap, Hi).
  rewrite Hn in Ei. apply lookup_app_Some in Ei as [Ei|[_ Ei]]; [left|right; by eapply list_elem_of_lookup_2].
  unfold acquisitions in Ei. rewrite list_lookup_fmap in Ei. destruct (evidence_records db !! i) as [e|] eqn:Ee; [|done].
  injection Ei as Ei. exists e. split_and!; [by eapply list_elem_of_lookup_2| |done].
  destruct (active e) eqn:Hae; [done|]. destruct (K _ _ Ee) as (e2 & E2 & _ & Hk). rewrite Hi in E2. injection E2 as <-.
  by rewrite (Hk Hae), Hae in Ha.
Qed.
Lemma well_kept_commit w db' new : well_kept w → vault_sound db' → keeps (vdb w) db' →
  acquisitions db' = acquisitions (vdb w) ++ new → Forall (furnishes (objects w)) new → well_kept (set_vdb db' w).
Proof.
  intros [W1 W2 W3] Hs Hk Hn Hf. split; [done..|]. cbn. intros e' He' Ha.
  destruct (kept_record _ _ _ _ Hk Hn He' Ha) as [(e & He & Hae & <-)|Hnew]; [by apply W3|]. rewrite Forall_forall in Hf. by apply Hf.
Qed.
Lemma well_kept_store w os n : well_kept w → orderly os → objects w ⊆ os → well_kept (mkVaultWorld (vdb w) os n).
Proof.
  intros [W1 W2 W3] Ho Hs. split; [done..|]. cbn. intros e He Ha. destruct (W3 e He Ha) as (k & Ek & Hk). exists k.
  split; [done|by eapply holds_weaken].
Qed.
(** A transaction that adds no record. *)
Lemma well_kept_none {A} (m : VaultTx A) w x w' : guards m → enrols_none m → well_kept w → in_transaction m w = (x, w') →
  well_kept w' ∧ objects w' = objects w.
Proof.
  intros Hg Hn Hw. unfold in_transaction, commit. destruct (m (vdb w)) as [[a db']|] eqn:E; intros [= <- <-]; [|done]. split; [|done].
  destruct (Hg _ _ _ (wk_sound _ Hw) E). eapply (well_kept_commit w db' []); [done..| |done].
  rewrite app_nil_r. by eapply Hn in E.
Qed.

(** The programs that leave well what they find well. *)
Definition stays w w' : Prop := well_kept w → well_kept w'.
#[export] Instance stays_refl : Reflexive stays.
Proof. intros w Hw. exact Hw. Qed.
#[export] Instance stays_trans : Transitive stays.
Proof. unfold stays. intros w1 w2 w3. auto. Qed.
Lemma stays_transaction {A} (m : VaultTx A) : guards m → enrols_none m → prog_keeps stays (in_transaction m).
Proof. intros Hg Hn w x w' E Hw. by eapply well_kept_none in E as [? _]. Qed.
Lemma stays_bind {A B} (m : Vault A) (f : A → Vault B) : prog_keeps stays m → (∀ a, prog_keeps stays (f a)) → prog_keeps stays (mbind (M:=Vault) f m).
Proof. apply prog_keeps_bind, _. Qed.
Lemma stays_ret {A} (a : A) : prog_keeps stays (mret (M:=Vault) a).
Proof. apply prog_keeps_ret, _. Qed.
Lemma stays_read_session {A} (f : VaultDB → Res A) : prog_keeps stays (read_session f).
Proof. by intros w x w' [= _ <-]. Qed.
Lemma stays_prog_res {A} (r : Res A) : prog_keeps stays (prog_res r).
Proof. by intros w x w' [= _ <-]. Qed.
Lemma stays_from_store {A} (f : Objects → Res A) : prog_keeps stays (from_store f).
Proof. by intros w x w' [= _ <-]. Qed.
Lemma stays_raise {A} (x : exn) : prog_keeps stays (prog_raise (A:=A) x).
Proof. by intros w y w' [= _ <-]. Qed.
Lemma stays_clock : prog_keeps stays clock.
Proof. intros w x w' [= _ <-] [? ? ?]. by split. Qed.
#[local] Hint Resolve stays_bind stays_ret stays_read_session stays_prog_res stays_from_store stays_raise stays_clock : steps.
Lemma read_stays t id actor_type actor_id purpose : prog_keeps stays (read_bytes t id actor_type actor_id purpose).
Proof.
  unfold read_bytes, _get_active_record. do 4 (apply stays_bind; [auto with steps|intros ?]).
  apply stays_bind; [apply stays_transaction; [apply guards_access_tx|apply rests_none, rests_append_custody]|auto with steps].
Qed.
Lemma verify_stays t id actor_id : prog_keeps stays (verify_integrity t id actor_id).
Proof.
  unfold verify_integrity, _get_active_record. do 3 (apply stays_bind; [auto with steps|intros ?]).
  apply stays_bind; [auto with steps|intros [[status s] failure]].
  apply stays_bind; [apply stays_transaction; [apply guards_verified_tx|apply none_verified_tx]|intros ?].
  destruct failure; auto with steps.
Qed.
Lemma retention_stays t id actor_id until hold reason : prog_keeps stays (set_retention t id actor_id until hold reason).
Proof.
  apply stays_bind; [auto with steps|intros ?]. apply stays_transaction; [apply guards_retention_tx|apply none_retention_tx].
Qed.
Lemma purge_stays t id actor_id reason as_of : prog_keeps stays (purge t id actor_id reason as_of).
Proof.
  apply stays_bind; [destruct as_of; auto with steps|intros ?]. apply stays_bind; [auto with steps|intros ?].
  apply stays_transaction; [apply guards_purge_tx|apply none_purge_tx].
Qed.

(** What the end of an acquisition does, once the bytes are stored. *)
Lemma filed t k d (e : datetime → string → EvidenceRecord) (body : datetime → string → VaultTx EvidenceRecord) w x w' :
  (∀ now id, guards (body now id)) → (∀ now id, enrols (e now id) (body now id)) →
  (∀ now id, furnishes (objects w) (acquisition (e now id))) → (∀ now id, etenant (e now id) = t ∧ digest (e now id) = d) → well_kept w →
  (now ← clock; id ← drawing "evd"; on_integrity_error (in_transaction (body now id)) (recover t k d)) w = (x, w') →
  well_kept w' ∧ objects w' = objects w ∧ ∀ y, x = Ok y → y ∈ evidence_records (vdb w') ∧ etenant y = t ∧ digest y = d.
Proof.
  intros Hg He Hf Hd Hw. unfold mbind at 1, prog_bind at 1, clock. set (now := vault_now _). set (w1 := mkVaultWorld _ _ _).
  assert (Hw1 : well_kept w1) by (by destruct Hw). unfold mbind, prog_bind.
  destruct (drawing "evd" w1) as [r w2] eqn:E2. unfold drawing in E2.
  apply well_kept_none in E2 as [Hw2 Eo2]; [|apply guards_ledger|apply rests_none, rests_ledger|done].
  destruct r as [id|z]; [|intros [= <- <-]; by rewrite Eo2]. unfold on_integrity_error, in_transaction, commit.
  destruct (body now id (vdb w2)) as [[y db']|z] eqn:E3.
  - intros [= <- <-]. destruct (Hg _ _ _ _ _ (wk_sound _ Hw2) E3) as [Hs Hk].
    destruct (He _ _ _ _ _ E3) as [(-> & Hy & Ht & Hdg)|[Ea ->]].
    + split_and!; [|by cbn; rewrite Eo2|intros ? [= <-]; by destruct (Hd now id) as [<- <-]].
      by apply (well_kept_commit w2 (vdb w2) []); rewrite ?app_nil_r.
    + split_and!; [|by cbn; rewrite Eo2|intros ? [= <-]; cbn; rewrite Ea; split; [set_solver|apply Hd]].
      apply (well_kept_commit w2 db' [acquisition (e now id)]); [done..|unfold acquisitions; by rewrite Ea, map_app|].
      apply Forall_singleton. by rewrite Eo2.
  - destruct z as [[]| | | | | |]; try (intros [= <- <-]; by rewrite Eo2). unfold recover, read_session. intros [= <- <-].
    split_and!; [done|done|]. intros y. destruct (settled t k d (vdb w2)) as [[z|]|] eqn:Es; [|done..]. intros [= <-]. by eapply settled_Some.
Qed.

(** ** Acquisitions keep it *)

(** What a client is given: a record that is there, with the digest of the bytes. *)
Definition delivers (t payload : string) w (x : Res EvidenceRecord) : Prop := ∀ e, x = Ok e →
  e ∈ evidence_records (vdb w) ∧ etenant e = t ∧ digest e = sha256_hex payload.
Lemma put_then_filed t payload k (e : StoredObject → datetime → string → EvidenceRecord)
    (body : StoredObject → datetime → string → VaultTx EvidenceRecord) w x w' :
  (∀ s now id, guards (body s now id)) → (∀ s now id, enrols (e s now id) (body s now id)) →
  (∀ s now id, etenant (e s now id) = t ∧ digest (e s now id) = sha256_hex payload ∧
    storage_key (acquisition (e s now id)) = Some (so_key s) ∧ size_bytes (acquisition (e s now id)) = so_size_bytes s) →
  well_kept w →
  (modified ← (λ w, (Ok (wall_clock (vault_ledger (vdb w))), w));
   s ← to_store (put_bytes t payload (sha256_hex payload) modified);
   now ← clock; id ← drawing "evd";
   on_integrity_error (in_transaction (body s now id)) (recover t k (sha256_hex payload))) w = (x, w') →
  well_kept w' ∧ objects w ⊆ objects w' ∧ delivers t payload w' x.
Proof.
  intros Hg He Hd Hw. unfold mbind at 1, prog_bind at 1. cbv beta iota. unfold mbind at 1, prog_bind at 1, to_store.
  destruct (put_bytes t payload _ _ (objects w)) as [[s os]|z] eqn:Ep.
  2: { intros [= <- <-]. split_and!; [done|done|]. by intros ?. }
  apply put_bytes_Ok in Ep as (_ & Ho & Hsub & Ek & Es & Hh & _); [|apply Hw]. intros E.
  eapply (filed _ _ _ (e s)) in E as (Hw' & Eo & Hx); [by rewrite Eo|auto..| | |].
  - intros now id. destruct (Hd s now id) as (Et & Ed & Esk & Esz). exists (so_key s). split; [done|]. unfold etenant, digest in *. cbn.
    by rewrite Et, Ed, Esz.
  - intros now id. by destruct (Hd s now id) as (? & ? & _).
  - by apply well_kept_store.
Qed.
Lemma ingest_kept v r w x w' : well_kept w → ingest_bytes v r w = (x, w') →
  well_kept w' ∧ objects w ⊆ objects w' ∧ delivers (in_tenant_id r) (in_payload r) w' x.
Proof.
  intros Hw. unfold ingest_bytes. unfold mbind at 1, prog_bind at 1, prog_res. destruct (inspected v r) as [[taint md]|z];
    [|intros [= <- <-]; split_and!; [done|done|by intros ?]].
  unfold mbind at 1, prog_bind at 1, read_session at 1. destruct (scope_of _ _ _ _) as [engagement|z]; [|intros [= <- <-]; split_and!; [done|done|by intros ?]].
  unfold mbind at 1, prog_bind at 1, read_session at 1. destruct (settled _ _ _ _) as [[y|]|z] eqn:Es; [| |intros [= <- <-]; split_and!; [done|done|by intros ?]].
  - intros [= <- <-]. split_and!; [done|done|]. intros e [= <-]. by eapply settled_Some.
  - apply (put_then_filed _ _ _ (λ s now id, acquired r id engagement s taint md now)); [| |done|done].
    + intros s now id. by apply guards_ingest_tx.
    + intros s now id. apply ingest_tx_enrols.
Qed.
Lemma derive_kept r w x w' : well_kept w → create_derivative r w = (x, w') →
  well_kept w' ∧ objects w ⊆ objects w' ∧ delivers (dr_tenant_id r) (dr_payload r) w' x.
Proof.
  intros Hw. unfold create_derivative. destruct (negb _); [intros [= <- <-]; split_and!; [done|done|by intros ?]|].
  unfold mbind at 1, prog_bind at 1, read_session at 1. destruct (sources_of _ _ _) as [sources|z]; [|intros [= <- <-]; split_and!; [done|done|by intros ?]].
  unfold mbind at 1, prog_bind at 1, prog_res at 1. destruct (inherited_classification _ _) as [class|z]; [|intros [= <- <-]; split_and!; [done|done|by intros ?]].
  unfold mbind at 1, prog_bind at 1, read_session at 1. destruct (settled _ _ _ _) as [[y|]|z] eqn:Es; [| |intros [= <- <-]; split_and!; [done|done|by intros ?]].
  - intros [= <- <-]. split_and!; [done|done|]. intros e [= <-]. by eapply settled_Some.
  - apply (put_then_filed _ _ _ (λ s now id, derivative r (fromkeys [] (dr_sources r)) sources id class s now)); [| |done|done].
    + intros s now id. by apply guards_derive_tx.
    + intros s now id. apply derive_tx_enrols.
Qed.

(** ** Garbage *)

Lemma delete_all_spec t l w : Forall (λ s, _path t (so_key s) = Ok (t, so_key s)) l →
  ∃ keys os, delete_all t l w = (Ok keys, mkVaultWorld (vdb w) os (clock_readings w)) ∧
    (∀ k, k ∈ keys ↔ k ∈ map so_key l ∧ is_Some (objects w !! (t, k))) ∧
    ∀ p, os !! p = if decide (fst p = t ∧ snd p ∈ map so_key l) then None else objects w !! p.
Proof.
  intros Hl. revert w. induction Hl as [|s l Hs Hl IH]; intros w; cbn [delete_all].
  { exists [], (objects w). split_and!; [by destruct w|set_solver|]. intros p. rewrite decide_False; [done|]. cbn. set_solver. }
  unfold mbind at 1, prog_bind at 1, to_store, obj_delete. rewrite Hs. cbn [res_bind].
  destruct (objects w !! (t, so_key s)) as [o|] eqn:Eo.
  - destruct (IH (mkVaultWorld (vdb w) (delete (t, so_key s) (objects w)) (clock_readings w))) as (keys & os & E & Hk & Ho).
    rewrite (prog_bind_step _ _ _ _ _ E). eexists _, os. split_and!; [done| |].
    + intros k. cbn [map]. rewrite !elem_of_cons, Hk. cbn [objects]. rewrite lookup_delete_is_Some. split.
      * intros [->|(? & _ & ?)]; [split; [by left|by eexists]|split; [by right|done]].
      * intros [Hin Hsome]. destruct (decide (k = so_key s)) as [->|Hne]; [by left|right]. destruct Hin as [->|Hin]; [done|].
        split_and!; [done|congruence|done].
    + intros p. rewrite Ho. cbn [objects map]. destruct p as [t' k]. cbn. destruct (decide (t' = t ∧ k ∈ map so_key l)) as [[-> K]|K].
      { rewrite decide_True; [done|]. split; [done|by right]. }
      case_decide as K2; [|rewrite lookup_delete_ne; [done|]; intros [= <- <-]; apply K2; split; [done|left]].
      destruct K2 as [-> K2]. apply elem_of_cons in K2 as [->|K2]; [by rewrite lookup_delete_eq|by destruct K].
  - destruct (IH (mkVaultWorld (vdb w) (objects w) (clock_readings w))) as (keys & os & E & Hk & Ho). rewrite (prog_bind_step _ _ _ _ _ E). cbn in Hk, Ho.
    eexists _, os. split_and!; [done| |].
    + intros k. cbn [map]. rewrite elem_of_cons, Hk. split; [intros [? ?]; split; [by right|done]|].
      intros [[->|?] Hsome]; [rewrite Eo in Hsome; by destruct Hsome|done].
    + intros p. rewrite Ho. cbn [map]. destruct p as [t' k]. cbn. destruct (decide (t' = t ∧ k ∈ map so_key l)) as [[-> K]|K].
      { rewrite decide_True; [done|]. split; [done|by right]. }
      case_decide as K2; [|done]. destruct K2 as [-> K2]. apply elem_of_cons in K2 as [->|K2]; [by rewrite Eo|by destruct K].
Qed.

(** What a collection at [cutoff] deletes of a tenant. *)
Definition collectable (t : string) (cutoff : datetime) w (k : string) : Prop :=
  ∃ o, objects w !! (t, k) = Some o ∧ (k ∉ active_storage_keys (vdb w) t) ∧ obj_modified_at o ≤ cutoff.
#[export] Instance collectable_dec t cutoff w k : Decision (collectable t cutoff w k).
Proof.
  unfold collectable. destruct (objects w !! (t, k)) as [o|]; [|right; by intros (? & [=] & _)].
  destruct (decide ((k ∉ active_storage_keys (vdb w) t) ∧ obj_modified_at o ≤ cutoff)) as [K|K]; [left; by exists o|right].
  intros (? & [= <-] & ?). by apply K.
Defined.
Lemma sweep_spec t cutoff w w0 : orderly (objects w) → is_segment t = true → active_storage_keys (vdb w0) t = active_storage_keys (vdb w) t →
  ∃ report w', sweep t (cutoff, active_storage_keys (vdb w0) t) w = (Ok report, w') ∧ vdb w' = vdb w ∧
    (∀ k, k ∈ gc_deleted_keys report ↔ collectable t cutoff w k) ∧
    ∀ p, objects w' !! p = if decide (fst p = t ∧ collectable t cutoff w (snd p)) then None else objects w !! p.
Proof.
  intros Ho Ht ->. unfold sweep, mbind at 1, prog_bind at 1, from_store. unfold iter_objects at 1. rewrite Ht.
  assert (Ei : iter_objects t (objects w) = Ok (map (λ '((t, k), o), stored t k o)
      (sort_by (cmp_on (λ x, x.1.2) String.compare) (filter (λ x, x.1.1 = t) (map_to_list (objects w)))))) by (unfold iter_objects; by rewrite Ht).
  set (l := map _ (sort_by _ _)) in *. cbn [fst snd]. set (doomed := List.filter _ l).
  assert (Hd : ∀ k, k ∈ map so_key doomed ↔ collectable t cutoff w k).
  { intros k. rewrite list_elem_of_fmap. split.
    - intros (s & -> & Hs). apply list_elem_of_In, filter_In in Hs as [Hs He]. apply list_elem_of_In, (iter_objects_Ok _ _ _ _ Ei) in Hs as (k & o & Hk & ->).
      cbn in *. exists o. unfold expired in He. cbn in He. apply negb_true_iff, orb_false_iff in He as [He1 He2].
      apply bool_decide_eq_false in He1. split_and!; [done|done|lia].
    - intros (o & Hk & Hna & Hm). exists (stored t k o). split; [done|]. apply list_elem_of_In, filter_In. split.
      + apply list_elem_of_In, (iter_objects_Ok _ _ _ _ Ei). by exists k, o.
      + unfold expired. cbn. apply negb_true_iff, orb_false_iff. split; [by apply bool_decide_eq_false|lia]. }
  destruct (delete_all_spec t doomed w) as (keys & os & E & Hk & Hos).
  { apply Forall_forall. intros s Hs. apply list_elem_of_In, filter_In in Hs as [Hs _]. apply list_elem_of_In, (iter_objects_Ok _ _ _ _ Ei) in Hs as (k & o & Hk & ->).
    by eapply orderly_path. }
  rewrite (prog_bind_step _ _ _ _ _ E). eexists _, _. split_and!; [done|done| |]; cbn.
  - intros k. rewrite Hk, Hd. split; [tauto|]. intros Hc. split; [done|]. destruct Hc as (o & -> & _). by eexists.
  - intros p. rewrite Hos. apply decide_ext. by rewrite Hd.
Qed.

(** A collection on its own: the world it works in is the one it surveyed. *)
Lemma collect_spec t grace w cutoff : orderly (objects w) → is_segment t = true → add_us (vault_now (clock_readings w)) (- grace) = Ok cutoff →
  ∃ report w', collect_garbage t grace w = (Ok report, w') ∧ vdb w' = vdb w ∧
    (∀ k, k ∈ gc_deleted_keys report ↔ collectable t cutoff w k) ∧
    ∀ p, objects w' !! p = if decide (fst p = t ∧ collectable t cutoff w (snd p)) then None else objects w !! p.
Proof.
  intros Ho Ht Ec. unfold collect_garbage, survey, clock, read_session, prog_res, mbind, prog_bind. cbv beta iota zeta. rewrite Ec.
  set (w1 := mkVaultWorld _ _ _). change (sweep t (cutoff, active_storage_keys (vdb w1) t)) with (sweep t (cutoff, active_storage_keys (vdb w1) t)).
  destruct (sweep_spec t cutoff w1 w1) as (report & w' & E & Ev & Hk & Hos); [done..|]. exists report, w'. by split_and!.
Qed.
Lemma active_storage_key w t k : k ∈ active_storage_keys (vdb w) t ↔
  ∃ e, e ∈ evidence_records (vdb w) ∧ etenant e = t ∧ active e = true ∧ storage_key (acquisition e) = Some k.
Proof.
  unfold active_storage_keys. rewrite list_elem_of_omap. split.
  - intros (e & He & Ek). apply list_elem_of_filter in He as [[Et Ha] He]. by exists e.
  - intros (e & He & Et & Ha & Ek). exists e. split; [|done]. by apply list_elem_of_filter.
Qed.
Lemma swept_well_kept t cutoff w w' : well_kept w → vdb w' = vdb w →
  (∀ p, objects w' !! p = if decide (fst p = t ∧ collectable t cutoff w (snd p)) then None else objects w !! p) → well_kept w'.
Proof.
  intros [W1 W2 W3] Ev Hos. split; [by rewrite Ev| |].
  - intros t' k o. rewrite Hos. case_decide; [done|apply W2].
  - rewrite Ev. intros e He Ha. destruct (W3 e He Ha) as (k & Ek & o & Hk & K). exists k. split; [done|]. exists o. split; [|done].
    rewrite Hos. rewrite decide_False; [done|]. cbn. intros [<- (o' & _ & Hn & _)]. apply Hn, active_storage_key. by exists e.
Qed.
(** A grace period out of the calendar, or a tenant that is no segment. *)
Lemma collect_refused t grace w : let cutoff := vault_now (clock_readings w) - grace in in_range cutoff = false ∨ is_segment t = false →
  ∃ x w', collect_garbage t grace w = (Err x, w') ∧ vdb w' = vdb w ∧ objects w' = objects w ∧
    x = Py (if in_range cutoff then ValueError else OverflowError).
Proof.
  cbv zeta. intros Hx. unfold collect_garbage, survey, clock, read_session, prog_res, sweep, from_store, iter_objects, mbind, prog_bind.
  cbv beta iota zeta. unfold add_us. rewrite Z.add_opp_r. destruct (in_range _) eqn:Hc; [|by eexists _, _].
  destruct Hx as [[=]|Ht]. rewrite Ht. by eexists _, _.
Qed.
Lemma add_us_back t us : in_range (t - us) = true → add_us t (- us) = Ok (t - us).
Proof. intros Hx. unfold add_us. by rewrite Z.add_opp_r, Hx. Qed.
Lemma collect_kept t grace w x w' : well_kept w → collect_garbage t grace w = (x, w') → well_kept w'.
Proof.
  intros Hw E. destruct (add_us (vault_now (clock_readings w)) (- grace)) as [cutoff|z] eqn:Ec.
  - destruct (is_segment t) eqn:Ht.
    + destruct (collect_spec t grace w cutoff) as (report & w2 & E2 & Ev & _ & Hos); [apply Hw|done..|]. rewrite E2 in E. injection E as <- <-.
      by eapply swept_well_kept.
    + unfold collect_garbage, survey, clock, read_session, prog_res, sweep, from_store, iter_objects, mbind, prog_bind in E. cbv beta iota zeta in E.
      rewrite Ec, Ht in E. injection E as <- <-. by destruct Hw.
  - unfold collect_garbage, survey, clock, read_session, prog_res, mbind, prog_bind in E. cbv beta iota zeta in E.
    rewrite Ec in E. injection E as <- <-. by destruct Hw.
Qed.
End history.
#[export] Hint Resolve steps_ret steps_bind steps_read_session steps_prog_res steps_prog_raise steps_clock steps_from_store steps_drawing
  rests_none rests_ledger rests_append_custody rests_domain_event none_save_custody
  stays_bind stays_ret stays_read_session stays_prog_res stays_from_store stays_raise stays_clock : steps.
