(* ===== verification/VaultLineage.v ===== *)
(** * Evidence vault: lineage

    The loops of [lineage] and of [create_export] against what they compute: the
    records connected with one through any derivations, and the ancestors of a set.
    [until_stable]'s bound is enough because a turn that changes anything adds an end
    of a derivation that was not there.  The derivations of a sound vault have no
    cycle. *)

From Stdlib Require Import Ascii.
From S2P Require Import Prelude Tables PyTime Ledger PyText PyCodec Materiality VaultStore VaultService VaultInvariants.
Local Open Scope Z_scope.

Implicit Types (es : list EvidenceTransformation) (t : EvidenceTransformation) (s : list string).

(** ** Stability *)

(** How many of the names [l] are not yet in [s]. *)
Definition missing (l s : list string) : nat := length (filter (λ x, x ∉ s) l).
Lemma missing_le l s s' : (∀ x, x ∈ s → x ∈ s') → (missing l s' ≤ missing l s)%nat.
Proof.
  intros Hs. unfold missing. induction l as [|x l IH]; [done|]. rewrite !filter_cons.
  destruct (decide (x ∉ s')) as [K|K], (decide (x ∉ s)) as [K'|K']; cbn; try lia. exfalso. apply K'. intros ?. by apply K, Hs.
Qed.
Lemma missing_lt l s s' x : (∀ x, x ∈ s → x ∈ s') → x ∈ l → x ∉ s → x ∈ s' → (missing l s' < missing l s)%nat.
Proof.
  intros Hs Hx Hn Hy. unfold missing. induction l as [|y l IH]; [by apply not_elem_of_nil in Hx|]. rewrite !filter_cons.
  pose proof (missing_le l s s' Hs) as Hle. unfold missing in Hle. apply elem_of_cons in Hx as [<-|Hx].
  - rewrite (decide_False (P := x ∉ s')), decide_True by auto. cbn. lia.
  - specialize (IH Hx). destruct (decide (y ∉ s')) as [K|K], (decide (y ∉ s)) as [K'|K']; cbn; try lia.
    exfalso. apply K'. intros ?. by apply K, Hs.
Qed.

Section turns.
Context (turn : list string → list string) (l : list string).
Hypothesis turn_grows : ∀ s, s `prefix_of` turn s.
Hypothesis turn_adds : ∀ s x, x ∈ turn s → x ∈ s ∨ x ∈ l.

Lemma turn_stable s : length (turn s) = length s → turn s = s.
Proof. intros E. destruct (turn_grows s) as [k Ek]. rewrite Ek, length_app in E. destruct k; [by rewrite app_nil_r in Ek|cbn in E; lia]. Qed.
Hypothesis turn_new : ∀ s k, turn s = s ++ k → ∀ x, x ∈ k → x ∉ s.
Lemma turn_progress s : length (turn s) ≠ length s → (missing l (turn s) < missing l s)%nat.
Proof.
  intros Hne. destruct (turn_grows s) as [k Ek]. destruct k as [|x k]; [by rewrite Ek, app_nil_r in Hne|].
  pose proof (turn_new s _ Ek) as Hk. assert (Hx : x ∈ turn s) by (rewrite Ek; set_solver). assert (Hnx : x ∉ s) by (apply Hk; left).
  apply (missing_lt l s (turn s) x); [|by destruct (turn_adds s x)|done..]. intros y Hy. rewrite Ek. set_solver.
Qed.
(** Enough turns reach a set that no turn changes. *)
Lemma until_stable_fixed n s : (missing l s < n)%nat → turn (until_stable turn n s) = until_stable turn n s.
Proof.
  revert s. induction n as [|n IH]; intros s Hn; [lia|]. cbn [until_stable]. case_decide as Hl.
  - pose proof (turn_stable s Hl) as E. by rewrite !E.
  - apply IH. pose proof (turn_progress s Hl). lia.
Qed.
Lemma until_stable_grows n s x : x ∈ s → x ∈ until_stable turn n s.
Proof.
  revert s. induction n as [|n IH]; intros s Hx; cbn [until_stable]; [done|].
  assert (x ∈ turn s) by (destruct (turn_grows s) as [k ->]; apply elem_of_app; by left). case_decide; [done|by apply IH].
Qed.
Lemma until_stable_keeps (P : string → Prop) n s : (∀ s, (∀ x, x ∈ s → P x) → ∀ x, x ∈ turn s → P x) →
  (∀ x, x ∈ s → P x) → ∀ x, x ∈ until_stable turn n s → P x.
Proof.
  intros Ht. revert s. induction n as [|n IH]; intros s Hs; cbn [until_stable]; [done|]. case_decide; [by apply Ht|]. by apply IH, Ht.
Qed.
End turns.

(** ** Passes over the derivations *)

Section passes.
Context (f : list string → EvidenceTransformation → list string) (names : EvidenceTransformation → list string).
Hypothesis f_grows : ∀ s t, s `prefix_of` f s t.
Hypothesis f_new : ∀ s t k, f s t = s ++ k → ∀ x, x ∈ k → (x ∉ s) ∧ x ∈ names t.

Lemma pass_grows es s : s `prefix_of` fold_left f es s.
Proof. revert s. induction es as [|t es IH]; intros s; cbn; [done|]. etrans; [apply f_grows|apply IH]. Qed.
Lemma pass_new es s k : fold_left f es s = s ++ k → ∀ x, x ∈ k → (x ∉ s) ∧ x ∈ flat_map names es.
Proof.
  revert s k. induction es as [|t es IH]; intros s k; cbn.
  - intros E x Hx. assert (k = []) as -> by (apply (app_inv_head s); by rewrite app_nil_r). by apply not_elem_of_nil in Hx.
  - destruct (f_grows s t) as [k1 E1]. destruct (pass_grows es (f s t)) as [k2 E2]. intros E x Hx. rewrite E2, E1, <- app_assoc in E.
    apply app_inv_head in E as <-. apply elem_of_app in Hx as [Hx|Hx].
    + destruct (f_new _ _ _ E1 x Hx). split; [done|]. apply elem_of_app. by left.
    + destruct (IH _ _ E2 x Hx) as [Hn Hi]. split; [rewrite E1 in Hn; set_solver|]. apply elem_of_app. by right.
Qed.
(** The passes reach what no pass changes. *)
Lemma passes_fixed es n s : (length (flat_map names es) < n)%nat →
  fold_left f es (until_stable (λ s, fold_left f es s) n s) = until_stable (λ s, fold_left f es s) n s.
Proof.
  intros Hn. apply (until_stable_fixed (λ s, fold_left f es s) (flat_map names es)).
  - apply pass_grows.
  - intros s' x Hx. destruct (pass_grows es s') as [k E]. rewrite E in Hx. apply elem_of_app in Hx as [?|Hx]; [by left|right].
    by eapply pass_new.
  - intros s' k E x Hx. by eapply pass_new.
  - eapply Nat.le_lt_trans; [|exact Hn]. unfold missing. apply length_filter.
Qed.
(** A pass that changes nothing has nothing to add for any derivation. *)
Lemma pass_fixed es s : fold_left f es s = s → ∀ t, t ∈ es → f s t = s.
Proof.
  induction es as [|t es IH]; cbn; intros E t' Ht'; [by apply not_elem_of_nil in Ht'|].
  assert (E1 : f s t = s).
  { destruct (f_grows s t) as [k1 E1]. destruct (pass_grows es (f s t)) as [k2 E2]. rewrite E, E1, <- app_assoc in E2.
    rewrite <- (app_nil_r s) in E2 at 1. apply app_inv_head in E2. destruct k1; [by rewrite E1, app_nil_r|done]. }
  apply elem_of_cons in Ht' as [->|Ht']; [done|]. rewrite E1 in E. by apply IH.
Qed.
Lemma pass_invariant (P : string → Prop) es s :
  (∀ s t, t ∈ es → (∀ x, x ∈ s → P x) → ∀ x, x ∈ f s t → P x) → (∀ x, x ∈ s → P x) → ∀ x, x ∈ fold_left f es s → P x.
Proof.
  revert s. induction es as [|t es IH]; intros s Hf Hs; cbn; [done|]. apply IH.
  - intros s' t' Ht'. apply Hf. by right.
  - apply Hf; [left|done].
Qed.
End passes.

(** ** Ancestors *)

(** From a record to one it was derived from. *)
Definition derived_from es (d x : string) : Prop := ∃ t, t ∈ es ∧ derived_evidence_id t = d ∧ source_evidence_id t = x.

Lemma ascend_grows s t : s `prefix_of` ascend s t.
Proof. unfold ascend. case_decide; [by eexists|done]. Qed.
Lemma ascend_new s t k : ascend s t = s ++ k → ∀ x, x ∈ k → (x ∉ s) ∧ x ∈ [source_evidence_id t].
Proof.
  unfold ascend. case_decide as Hd; intros E x Hx.
  - apply app_inv_head in E as <-. apply list_elem_of_singleton in Hx as ->. split; [apply Hd|left].
  - assert (k = []) as -> by (apply (app_inv_head s); by rewrite app_nil_r). by apply not_elem_of_nil in Hx.
Qed.
Lemma length_names {A} (g : EvidenceTransformation → list A) n es : (∀ t, length (g t) = n) → length (flat_map g es) = (n * length es)%nat.
Proof. intros Hg. induction es as [|t es IH]; cbn; [lia|]. rewrite length_app, IH, Hg. lia. Qed.
Lemma ancestors_fixed es requested : fold_left ascend es (ancestors es requested) = ancestors es requested.
Proof.
  apply (passes_fixed ascend (λ t, [source_evidence_id t])); [apply ascend_grows|apply ascend_new|]. rewrite (length_names _ 1); [lia|done].
Qed.
Lemma ancestors_spec es requested x : x ∈ ancestors es requested ↔ ∃ r, r ∈ requested ∧ rtc (derived_from es) r x.
Proof.
  split.
  - revert x. apply until_stable_keeps; [|intros x Hx; exists x; by split]. intros s Hs. apply (pass_invariant ascend); [|done].
    intros s' t Ht Hs' x. unfold ascend. case_decide as Hd; [|by apply Hs']. intros [?| ->%list_elem_of_singleton]%elem_of_app; [by apply Hs'|].
    destruct (Hs' _ (proj1 Hd)) as (r & Hr & Hp). exists r. split; [done|]. eapply rtc_r; [exact Hp|]. by exists t.
  - intros (r & Hr & Hp). assert (Hin : r ∈ ancestors es requested) by (apply until_stable_grows; [intros; apply pass_grows, ascend_grows|done]).
    clear Hr. induction Hp as [|d y x (t & Ht & <- & <-) _ IH]; [done|]. apply IH.
    pose proof (pass_fixed ascend ascend_grows _ _ (ancestors_fixed es requested) t Ht) as E. unfold ascend in E. case_decide as Hd.
    + rewrite <- (app_nil_r (ancestors es requested)) in E at 2. by apply app_inv_head in E.
    + destruct (decide (source_evidence_id t ∈ ancestors es requested)); [done|]. exfalso. by apply Hd.
Qed.

(** ** Connected records *)

Definition related es (x y : string) : Prop := derived_from es x y ∨ derived_from es y x.

Lemma add_to_new x s : ∃ k, add_to x s = s ++ k ∧ ∀ y, y ∈ k → (y ∉ s) ∧ y = x.
Proof.
  unfold add_to. case_decide; [exists []; rewrite app_nil_r; split; [done|by intros y ?%not_elem_of_nil]|].
  exists [x]. split; [done|]. by intros y ->%list_elem_of_singleton.
Qed.
Lemma elem_of_add_to x y s : y ∈ add_to x s ↔ y ∈ s ∨ y = x.
Proof. unfold add_to. case_decide; set_solver. Qed.
Lemma connect_grows s t : s `prefix_of` connect s t.
Proof.
  unfold connect. case_decide; [|done]. destruct (add_to_new (source_evidence_id t) s) as (k1 & E1 & _).
  destruct (add_to_new (derived_evidence_id t) (add_to (source_evidence_id t) s)) as (k2 & E2 & _). rewrite E2, E1, <- app_assoc. by eexists.
Qed.
Lemma connect_new s t k : connect s t = s ++ k → ∀ x, x ∈ k → (x ∉ s) ∧ x ∈ [source_evidence_id t; derived_evidence_id t].
Proof.
  unfold connect. case_decide; intros E x Hx.
  - destruct (add_to_new (source_evidence_id t) s) as (k1 & E1 & H1).
    destruct (add_to_new (derived_evidence_id t) (add_to (source_evidence_id t) s)) as (k2 & E2 & H2).
    rewrite E2, E1, <- app_assoc in E. apply app_inv_head in E as <-. apply elem_of_app in Hx as [Hx|Hx].
    + destruct (H1 x Hx) as [? ->]. split; [done|left].
    + destruct (H2 x Hx) as [Hn ->]. rewrite elem_of_add_to in Hn. split; [tauto|right; left].
  - assert (k = []) as -> by (apply (app_inv_head s); by rewrite app_nil_r). by apply not_elem_of_nil in Hx.
Qed.
Lemma connected_fixed es id : fold_left connect es (connected_to es id) = connected_to es id.
Proof.
  apply (passes_fixed connect (λ t, [source_evidence_id t; derived_evidence_id t])); [apply connect_grows|apply connect_new|].
  rewrite (length_names _ 2); [lia|done].
Qed.
Lemma connected_spec es id x : x ∈ connected_to es id ↔ rtc (related es) id x.
Proof.
  split.
  - revert x. apply until_stable_keeps; [|by intros x ->%list_elem_of_singleton]. intros s Hs. apply (pass_invariant connect); [|done].
    intros s' t Ht Hs' x. unfold connect. case_decide as Hd; [|by apply Hs']. rewrite !elem_of_add_to.
    assert (Hr : related es (source_evidence_id t) (derived_evidence_id t)) by (right; by exists t).
    assert (Hl : related es (derived_evidence_id t) (source_evidence_id t)) by (left; by exists t).
    intros [[?| ->]| ->]; [by apply Hs'| |]; destruct Hd as [Hd|Hd]; try by apply Hs'.
    + by eapply rtc_r; [apply Hs', Hd|].
    + by eapply rtc_r; [apply Hs', Hd|].
  - intros Hp. assert (Hin : id ∈ connected_to es id).
    { apply until_stable_grows; [intros; apply pass_grows, connect_grows|]. by apply list_elem_of_singleton. }
    revert Hin. generalize (connected_fixed es id). generalize (connected_to es id) as s. intros s Hs Hin.
    induction Hp as [|a y x Ha _ IH]; [done|]. apply IH. destruct Ha as [(t & Ht & <- & <-)|(t & Ht & <- & <-)];
      pose proof (pass_fixed connect connect_grows _ _ Hs t Ht) as E; rewrite <- E; unfold connect;
      rewrite decide_True by (first [by left|by right]); rewrite !elem_of_add_to; auto.
Qed.

(** ** No cycle *)

Section acyclic.
Context `{Sha256}.

Lemma older_trans db x y z : vault_sound db → older db x y → older db y z → older db x z.
Proof.
  intros Hs (i & j & Hij & Hi & Hj) (j' & k & Hjk & Hj' & Hk). exists i, k. split_and!; [|done..].
  assert (j = j') as <- by (eapply NoDup_lookup; [apply (vs_ids _ Hs)|done..]). lia.
Qed.
Lemma older_irrefl db x : vault_sound db → ¬ older db x x.
Proof. intros Hs (i & j & Hij & Hi & Hj). assert (i = j) by (eapply NoDup_lookup; [apply (vs_ids _ Hs)|done..]). lia. Qed.
Lemma ancestors_older db x y : vault_sound db → tc (derived_from (transformations db)) x y → older db y x.
Proof.
  intros Hs. induction 1 as [x y (t & Ht & <- & <-)|x y z (t & Ht & <- & <-) _ IH]; [by apply vs_lineage|].
  eapply older_trans; [done..|]. by apply vs_lineage.
Qed.
End acyclic.
