(* ===== verification/GovPolicy.v ===== *)
(** * Governance: authority

    models.py ([ExecutionEnvelope]), registry.py ([AgentPackage]), policy.py (the
    decision point over a released package and an envelope), and the authority
    identity.py derives from the two.  Of the documents of a package the model keeps
    what the code reads, at the shape released packages have: the declared tools,
    the scopes and the prohibitions, [str(manifest["version"])], the output schema and
    the budgets of the manifest (60,000 tokens and 8 dollars when it has none). *)

From S2P Require Import Prelude PyFloat PyTime Ledger PyText.
Local Open Scope Z_scope.

Record ExecutionEnvelope := mkExecutionEnvelope {
  env_task_id : string;
  env_engagement_id : string;
  env_tenant_id : string;
  env_agent_role : string;
  env_agent_version : string;
  purpose : string;
  env_allowed_evidence_scopes : list string;
  env_allowed_tools : list string;
  env_forbidden_actions : list string;
  env_model_policy : string;
  env_token_budget : Z;
  env_cost_budget_usd : float;
  env_deadline : option datetime;
  output_schema : string;
  env_human_gate : option string;
  trace_level : string;
  env_lease_owner : option string;
  env_attempt_count : Z
}.

(** An item of [tools["tools"]]; a key that is missing is [None]. *)
Record DeclaredTool := mkDeclaredTool {
  decl_name : string;
  side_effect : json;
  requires_human_confirmation : json
}.
Record AgentPackage := mkAgentPackage {
  pkg_agent_id : string;
  pkg_version : string;
  pkg_tools : list DeclaredTool;
  pkg_allowed_evidence_scopes : list string;
  pkg_forbidden_actions : list string;
  pkg_token_budget : Z;
  pkg_cost_budget_usd : float;
  pkg_output_schema : string;
  pkg_evidence_boundaries : list string;
  pkg_mandate : option string
}.

(** [sorted(set(l))], [set(l) & set(l')], [set(l) - set(l')]. *)
Definition sorted_set (l : list string) : list string := sort_by String.compare (remove_dups l).
Definition both (l l' : list string) : list string := filter (λ x, x ∈ l') l.
Definition without (l l' : list string) : list string := filter (λ x, x ∉ l') l.

Record PolicyDecision := mkPolicyDecision {
  pol_allowed : bool;
  pol_reason : string;
  denied_tools : list string
}.

Definition declared (p : AgentPackage) : list string := map decl_name (pkg_tools p).

(** [PolicyGateway.authorize]. *)
Definition authorize (p : AgentPackage) (e : ExecutionEnvelope) : PolicyDecision :=
  if negb (bool_decide (env_agent_role e = pkg_agent_id p)) then
    mkPolicyDecision false "agent identity does not match package" []
  else if negb (bool_decide (env_agent_version e = pkg_version p)) then
    mkPolicyDecision false "agent version does not match released package" []
  else
    let denied := sorted_set (without (env_allowed_tools e) (declared p)) in
    if nonempty denied then mkPolicyDecision false "execution envelope requests undeclared tools" denied
    else if negb (bool_decide (Forall (λ f, f ∈ env_forbidden_actions e) (pkg_forbidden_actions p))) then
      mkPolicyDecision false "execution envelope weakens package prohibitions" []
    else mkPolicyDecision true "allowed by package and execution envelope" [].

Fixpoint find_tool (name : string) (l : list DeclaredTool) : option DeclaredTool :=
  match l with [] => None | t :: l => if decide (decl_name t = name) then Some t else find_tool name l end.
(** [bool(text)] of an optional text. *)
Definition gate_open (e : ExecutionEnvelope) : bool := truthy (env_human_gate e).

Definition has_side_effect (t : DeclaredTool) : bool :=
  match side_effect t with JStr s => negb (bool_decide (s = "none")) | _ => true end.

(** [PolicyGateway.authorize_tool]. *)
Definition authorize_tool (p : AgentPackage) (e : ExecutionEnvelope) (tool_name : string) : PolicyDecision :=
  let base := authorize p e in
  if negb (pol_allowed base) then base
  else if negb (bool_decide (tool_name ∈ env_allowed_tools e)) then
    mkPolicyDecision false ("tool " +:+ tool_name +:+ " absent from execution envelope") []
  else match find_tool tool_name (pkg_tools p) with
  | None => mkPolicyDecision false ("tool " +:+ tool_name +:+ " absent from package") []
  | Some tool =>
      if has_side_effect tool && truthy_json (requires_human_confirmation tool) && negb (gate_open e)
      then mkPolicyDecision false ("tool " +:+ tool_name +:+ " requires a human gate") []
      else mkPolicyDecision true "tool call allowed" []
  end.

Record Authority := mkAuthority {
  auth_tools : list string;
  auth_scopes : list string;
  auth_forbidden : list string
}.

(** [derive_granted_authority]. *)
Definition derive_granted_authority (p : AgentPackage) (e : ExecutionEnvelope) : Authority :=
  let scopes := pkg_allowed_evidence_scopes p in
  mkAuthority
    (sorted_set (both (declared p) (env_allowed_tools e)))
    (if decide (remove_dups scopes = ["execution_envelope_only"]) then sorted_set (env_allowed_evidence_scopes e)
     else sorted_set (both scopes (env_allowed_evidence_scopes e)))
    (sorted_set (pkg_forbidden_actions p ++ env_forbidden_actions e)).
