(* ===== verification/GovIdentity.v ===== *)
(** * Governance: workload identity

    identity.py and execution_security.py: the credentials the control plane signs
    for one invocation, and the signed execution envelope; execution_authority.py,
    which makes an envelope of a task lease.  Ed25519 and the reading of PEM keys are
    the [cryptography] library: a parameter.  Datetimes are aware, so [_utc] is the
    identity; timedeltas are microseconds.  The draw of an identifier and the wall
    clock are arguments. *)

From Stdlib Require Import Ascii.
From S2P Require Import Prelude PyFloat PyTime Ledger PyText PyCodec Materiality OrchDefs GovPolicy.
Local Open Scope Z_scope.

Record AgentIdentity := mkAgentIdentity {
  identity_id : string;
  id_workload_uri : string;
  id_tenant_id : string;
  id_agent_role : string;
  id_agent_version : string;
  release_id : option string;
  id_engagement_id : string;
  id_task_id : string;
  attempt : Z;
  id_lease_owner : option string;
  granted_tools : list string;
  granted_evidence_scopes : list string;
  id_forbidden_actions : list string;
  independence_subject : option string;
  independence_constraints : list string;
  id_human_gate : option string;
  id_model_policy : string
}.

(** [workload_uri]. *)
Definition workload_uri (tenant_id agent_role agent_version : string) : string :=
  "spiffe://assuranceos/tenant/" +:+ tenant_id +:+ "/agent/" +:+ agent_role +:+ "/" +:+ agent_version.

Definition strings (l : list string) : json := JList (map JStr l).

(** [identity.model_dump(mode="json")]. *)
Definition identity_dump (i : AgentIdentity) : dict :=
  [("identity_id", JStr (identity_id i)); ("workload_uri", JStr (id_workload_uri i)); ("tenant_id", JStr (id_tenant_id i));
   ("agent_role", JStr (id_agent_role i)); ("agent_version", JStr (id_agent_version i)); ("release_id", opt_json (release_id i));
   ("engagement_id", JStr (id_engagement_id i)); ("task_id", JStr (id_task_id i)); ("attempt", JInt (attempt i));
   ("lease_owner", opt_json (id_lease_owner i)); ("granted_tools", strings (granted_tools i));
   ("granted_evidence_scopes", strings (granted_evidence_scopes i)); ("forbidden_actions", strings (id_forbidden_actions i));
   ("independence_subject", opt_json (independence_subject i));
   ("independence_constraints", strings (independence_constraints i)); ("human_gate", opt_json (id_human_gate i));
   ("model_policy", JStr (id_model_policy i))].

(** [subject_fingerprint]. *)
Definition subject_fingerprint `{Sha256} (i : AgentIdentity) : string :=
  sha256_hex (canonical_json (JObj [("workload_uri", JStr (id_workload_uri i)); ("lease_owner", opt_json (id_lease_owner i));
    ("independence_subject", opt_json (independence_subject i))])).

(** ** Signatures *)

(** The part of [cryptography] the credentials rest on.  [raw_bytes] is the public key
    as 32 bytes; [load_pem] reads a public key, which may be of another kind. *)
Class Ed25519 := {
  private_key : Type;
  public_key : Type;
  public_of : private_key → public_key;
  raw_bytes : public_key → string;
  ed_sign : private_key → string → string;
  ed_verify : public_key → string → string → bool;
  load_pem : string → Res (option public_key)
}.

(** What every signed document carries. *)
Record Credential (A : Type) := mkCredential {
  key_id : string;
  public_key_sha256 : string;
  issued_at : datetime;
  expires_at : datetime;
  nonce : string;
  subject : A;
  signature_base64 : string
}.
Arguments mkCredential {A}.
Arguments key_id {A}.
Arguments public_key_sha256 {A}.
Arguments issued_at {A}.
Arguments expires_at {A}.
Arguments nonce {A}.
Arguments subject {A}.
Arguments signature_base64 {A}.
Abbreviation SignedAgentIdentity := (Credential AgentIdentity).
Abbreviation SignedExecutionEnvelope := (Credential ExecutionEnvelope).

Definition with_signature {A} (c : Credential A) (s : string) : Credential A :=
  mkCredential (key_id c) (public_key_sha256 c) (issued_at c) (expires_at c) (nonce c) (subject c) s.

(** [signing_document]; the subject is under a name of its own. *)
Definition signing_document {A} (schema name : string) (dump : A → dict) (c : Credential A) : json :=
  JObj [("schema", JStr schema); ("algorithm", JStr "Ed25519"); ("key_id", JStr (key_id c));
    ("public_key_sha256", JStr (public_key_sha256 c)); ("issued_at", JStr (isoformat (issued_at c)));
    ("expires_at", JStr (isoformat (expires_at c))); ("nonce", JStr (nonce c)); (name, JObj (dump (subject c)))].
Definition identity_document (c : SignedAgentIdentity) : json :=
  signing_document "assurance.signed_agent_identity.v1" "identity" identity_dump c.

(** The constraints pydantic checks when a credential is constructed. *)
Definition hex64 (s : string) : bool :=
  (String.length s =? 64)%nat &&
  forallb (λ c, ((48 <=? ord c) && (ord c <=? 57)) || ((97 <=? ord c) && (ord c <=? 102))) (String.list_ascii_of_string s).
Definition length_between (lo hi : nat) (s : string) : bool := (lo <=? String.length s)%nat && (String.length s <=? hi)%nat.
Definition valid_credential {A} (c : Credential A) : bool :=
  length_between 1 128 (key_id c) && hex64 (public_key_sha256 c) && length_between 16 128 (nonce c) &&
  (1 <=? String.length (signature_base64 c))%nat.

(** [ttl or default]. *)
Definition ttl_or (ttl : option Z) (default : Z) : Z :=
  match ttl with Some t => if t =? 0 then default else t | None => default end.
Definition check (b : bool) (e : exn) : Res unit := if b then Ok tt else Err e.

Record AgentIdentityIssuer (K : Type) := mkAgentIdentityIssuer {
  iss_private_key : K;
  iss_key_id : string;
  iss_maximum_ttl : Z
}.
Arguments iss_private_key {K}.
Arguments iss_key_id {K}.
Arguments iss_maximum_ttl {K}.

(** [revocations.is_revoked]; [NullRevocationChecker] and [InMemoryRevocationList]. *)
Definition RevocationChecker : Type := string → bool.
Definition NullRevocationChecker : RevocationChecker := λ _, false.
Definition InMemoryRevocationList (revoked : list string) : RevocationChecker := λ i, bool_decide (i ∈ revoked).

Record AgentIdentityVerifier := mkAgentIdentityVerifier {
  trusted_public_keys : list (string * string);
  maximum_ttl : Z;
  clock_skew : Z;
  revocations : RevocationChecker
}.
Fixpoint assoc {A} (k : string) (l : list (string * A)) : option A :=
  match l with [] => None | (k', v) :: l => if decide (k = k') then Some v else assoc k l end.

Section identity.
Context `{Sha256} `{Ed25519}.

Definition _public_key_fingerprint (k : public_key) : string := sha256_hex (raw_bytes k).

Definition identity_error (message : string) : exn := Gov (AgentIdentityError message).

(** The expiry of a credential: the lifetime, cut at the deadline. *)
Definition expiry (issued : datetime) (ttl : Z) (deadline : option datetime) (passed : exn) : Res datetime :=
  let? expires := add_us issued ttl in
  match deadline with
  | Some d => let? _ := check (negb (d <=? issued)) passed in Ok (Z.min expires d)
  | None => Ok expires
  end.
(** Signing a credential that is constructed with the signature [pending]. *)
Definition seal {A} (k : private_key) (document : Credential A → json) (c : Credential A) : Res (Credential A) :=
  if valid_credential c then Ok (with_signature c (b64encode (ed_sign k (canonical_json (document c)))))
  else Err (Gov PydanticValidationError).

(** [AgentIdentityIssuer.issue]; [draws] are the identifiers of the nonce and the
    identity. *)
Definition issue (iss : AgentIdentityIssuer private_key) (p : AgentPackage) (e : ExecutionEnvelope)
    (rel subj : option string) (constraints : list string) (ttl : option Z)
    (now : datetime) (nonce_drawn id_drawn : string) : Res SignedAgentIdentity :=
  let? _ := check (bool_decide (env_agent_role e = pkg_agent_id p))
    (identity_error "envelope agent role does not match the agent package") in
  let? _ := check (bool_decide (env_agent_version e = pkg_version p))
    (identity_error "envelope agent version does not match the released package") in
  let ttl := ttl_or ttl (iss_maximum_ttl iss) in
  let? _ := check (negb (ttl <=? 0)) (identity_error "agent-identity TTL must be positive") in
  let? _ := check (ttl <=? iss_maximum_ttl iss) (identity_error "agent-identity TTL exceeds the issuer maximum") in
  let? expires := expiry now ttl (env_deadline e) (identity_error "execution-envelope deadline has already passed") in
  let authority := derive_granted_authority p e in
  let identity := mkAgentIdentity id_drawn (workload_uri (env_tenant_id e) (env_agent_role e) (env_agent_version e))
    (env_tenant_id e) (env_agent_role e) (env_agent_version e) rel (env_engagement_id e) (env_task_id e)
    (env_attempt_count e) (env_lease_owner e) (auth_tools authority) (auth_scopes authority) (auth_forbidden authority)
    subj constraints (env_human_gate e) (env_model_policy e) in
  seal (iss_private_key iss) identity_document
    (mkCredential (iss_key_id iss) (_public_key_fingerprint (public_of (iss_private_key iss))) now expires nonce_drawn identity "pending").

(** The names that differ, in [_assert_bound]. *)
Definition mismatches (i : AgentIdentity) (e : ExecutionEnvelope) : list string :=
  let differ {A} `{EqDecision A} (name : string) (a b : A) := if decide (a = b) then [] else [name] in
  differ "tenant" (id_tenant_id i) (env_tenant_id e) ++ differ "engagement" (id_engagement_id i) (env_engagement_id e) ++
  differ "task" (id_task_id i) (env_task_id e) ++ differ "agent role" (id_agent_role i) (env_agent_role e) ++
  differ "agent version" (id_agent_version i) (env_agent_version e) ++ differ "attempt" (attempt i) (env_attempt_count e).
Definition _assert_bound (i : AgentIdentity) (e : ExecutionEnvelope) : Res unit :=
  match mismatches i e with
  | [] => Ok tt
  | l => Err (identity_error ("agent identity is not bound to this execution envelope: " +:+ join ", " (sort_by String.compare l)))
  end.

(** The window of a credential at [now]; [e] makes the error of a text. *)
Definition check_window {A} (e : string → exn) (what : string) (max_ttl skew : Z) (c : Credential A) (now : datetime) : Res unit :=
  let? _ := check (negb (expires_at c <=? issued_at c)) (e (what +:+ " has an invalid validity window")) in
  let? _ := check (expires_at c - issued_at c <=? max_ttl) (e (what +:+ " exceeds the maximum TTL")) in
  let? late := add_us now skew in
  let? _ := check (issued_at c <=? late) (e (what +:+ " is not valid yet")) in
  let? early := add_us now (- skew) in
  check (negb (expires_at c <? early)) (e (what +:+ " has expired")).
(** The key, the fingerprint and the signature. *)
Definition check_signature {A} (e : string → exn) (what : string) (trusted : list (string * string))
    (document : Credential A → json) (c : Credential A) : Res unit :=
  match assoc (key_id c) trusted with
  | None => Err (e (what +:+ " signing key is not trusted"))
  | Some pem =>
      let? key := load_pem pem in
      match key with
      | None => Err (e (what +:+ " trust key must be Ed25519"))
      | Some k =>
          let? _ := check (bool_decide (public_key_sha256 c = _public_key_fingerprint k))
            (e (what +:+ " public-key fingerprint does not match")) in
          match b64decode (signature_base64 c) with
          | None => Err (e (what +:+ " signature is not valid base64"))
          | Some s => check (ed_verify k s (canonical_json (document c))) (e (what +:+ " signature verification failed"))
          end
      end
  end.

(** [AgentIdentityVerifier.verify] of a credential at [now]. *)
Definition verify (v : AgentIdentityVerifier) (c : SignedAgentIdentity) (envelope : option ExecutionEnvelope) (now : datetime) : Res AgentIdentity :=
  let? _ := check_window identity_error "agent identity" (maximum_ttl v) (clock_skew v) c now in
  let? _ := check_signature identity_error "agent-identity" (trusted_public_keys v) identity_document c in
  let i := subject c in
  let? _ := check (negb (revocations v (identity_id i))) (identity_error "agent identity has been revoked") in
  let? _ := match envelope with Some e => _assert_bound i e | None => Ok tt end in
  Ok i.

(** ** The signed envelope *)

(** [datetime] in pydantic's JSON mode, in UTC. *)
Definition pydantic_time (t : datetime) : string :=
  let text := isoformat t in slice (String.length text - 6) text +:+ "Z".
Definition envelope_dump (e : ExecutionEnvelope) : dict :=
  [("task_id", JStr (env_task_id e)); ("engagement_id", JStr (env_engagement_id e)); ("tenant_id", JStr (env_tenant_id e));
   ("agent_role", JStr (env_agent_role e)); ("agent_version", JStr (env_agent_version e)); ("purpose", JStr (purpose e));
   ("allowed_evidence_scopes", strings (env_allowed_evidence_scopes e)); ("allowed_tools", strings (env_allowed_tools e));
   ("forbidden_actions", strings (env_forbidden_actions e)); ("model_policy", JStr (env_model_policy e));
   ("token_budget", JInt (env_token_budget e)); ("cost_budget_usd", JFloat (env_cost_budget_usd e));
   ("deadline", match env_deadline e with Some d => JStr (pydantic_time d) | None => JNull end);
   ("output_schema", JStr (output_schema e)); ("human_gate", opt_json (env_human_gate e)); ("trace_level", JStr (trace_level e));
   ("lease_owner", opt_json (env_lease_owner e)); ("attempt_count", JInt (env_attempt_count e))].
Definition envelope_document (c : SignedExecutionEnvelope) : json :=
  signing_document "assurance.signed_execution_envelope.v1" "envelope" envelope_dump c.

Definition value_error (_ : string) : exn := Py ValueError.

(** [Ed25519ExecutionEnvelopeSigner.issue]. *)
Definition sign_envelope (k : private_key) (signer_key_id : string) (e : ExecutionEnvelope) (ttl : Z) (now : datetime)
    (nonce_drawn : string) : Res SignedExecutionEnvelope :=
  let? _ := check (negb (ttl <=? 0)) (Py ValueError) in
  let? expires := expiry now ttl (env_deadline e) (Py ValueError) in
  seal k envelope_document
    (mkCredential signer_key_id (_public_key_fingerprint (public_of k)) now expires nonce_drawn e "pending").

(** [ExecutionEnvelopeVerifier.verify]; its [__post_init__] refuses an empty set of keys,
    a lifetime that is not positive and a negative skew. *)
Definition verify_envelope (trusted : list (string * string)) (max_ttl skew : Z) (c : SignedExecutionEnvelope)
    (expected_task_id : option string) (now : datetime) : Res ExecutionEnvelope :=
  let? _ := check_window value_error "signed execution envelope" max_ttl skew c now in
  let e := subject c in
  let? _ := match env_deadline e with
    | Some d =>
        let? _ := check (expires_at c <=? d) (Py ValueError) in
        let? early := add_us now (- skew) in
        check (negb (d <? early)) (Py ValueError)
    | None => Ok tt
    end in
  let? _ := match expected_task_id with
    | Some t => check (bool_decide (env_task_id e = t)) (Py ValueError)
    | None => Ok tt
    end in
  let? _ := check_signature value_error "execution-envelope" trusted envelope_document c in
  Ok e.

(** ** The authority of a lease *)

Record ExecutionAuthority := mkExecutionAuthority {
  packages : list (string * AgentPackage);
  signing_key : private_key;
  signing_key_id : string;
  default_ttl : Z
}.

Definition _required_string (policy : dict) (key : string) : Res string :=
  match get key policy with
  | JStr s => let s := strip s in if decide (s = "") then Err (Py ValueError) else Ok s
  | _ => Err (Py ValueError)
  end.
Definition text_of (v : json) : option string := match v with JStr s => if decide (s = "") then None else Some s | _ => None end.
Definition _string_list (policy : dict) (key : string) : Res (list string) :=
  match get key policy with
  | JList l =>
      match mapM text_of l with
      | Some texts => if decide (NoDup texts) then Ok texts else Err (Py ValueError)
      | None => Err (Py ValueError)
      end
  | _ => Err (Py ValueError)
  end.
Definition _bounded_int (v : json) (ceiling : Z) : Res Z :=
  match v with
  | JInt z => if z <=? 0 then Err (Py ValueError) else if ceiling <? z then Err (Py ValueError) else Ok z
  | _ => Err (Py ValueError)
  end.
(** [float(z)], which raises when it is out of range. *)
Definition to_float (v : json) : Res float :=
  match v with
  | JInt z => if is_inf (float_of_Z z) then Err (Py OverflowError) else Ok (float_of_Z z)
  | JFloat f => Ok f
  | _ => Err (Py ValueError)
  end.
Definition _bounded_float (v : json) (ceiling : float) : Res float :=
  let? x := to_float v in
  if fleb x zero then Err (Py ValueError) else if fltb ceiling x then Err (Py ValueError) else Ok x.

(** [ExecutionAuthority.issue]. *)
Definition issue_authority (a : ExecutionAuthority) (l : TaskLease) (now : datetime) (nonce_drawn : string)
    : Res SignedExecutionEnvelope :=
  let policy := policy_fields (lease_execution_policy l) in
  let? role := match lease_assigned_agent_role l with Some r => Ok r | None => Err (Py ValueError) end in
  let? p := match assoc role (packages a) with Some p => Ok p | None => Err (Py ValueError) end in
  let? why := _required_string policy "purpose" in
  let? tools := _string_list policy "allowed_tools" in
  let? scopes := _string_list policy "allowed_evidence_scopes" in
  let? tokens := _bounded_int (default (JInt (pkg_token_budget p)) (dict_get "token_budget" policy)) (pkg_token_budget p) in
  let? cost := _bounded_float (default (JFloat (pkg_cost_budget_usd p)) (dict_get "cost_budget_usd" policy)) (pkg_cost_budget_usd p) in
  let? model := match lease_model_policy l with
    | Some m => if decide (m = "") then Err (Py ValueError) else Ok m
    | None => Err (Py ValueError)
    end in
  let deadline := match lease_deadline_at l with
    | Some d => Z.min d (lease_lease_expires_at l)
    | None => lease_lease_expires_at l
    end in
  let? _ := check (negb (deadline <=? now)) (Py ValueError) in
  let e := mkExecutionEnvelope (lease_task_id l) (lease_engagement_id l) (lease_tenant_id l) (pkg_agent_id p) (pkg_version p)
    why scopes tools (pkg_forbidden_actions p) model tokens cost (Some deadline) (pkg_output_schema p) (lease_human_gate l)
    "full-metadata-redacted-content" (Some (lease_lease_owner l)) (lease_attempt_count l) in
  let? _ := check (pol_allowed (authorize p e)) (Py ValueError) in
  sign_envelope (signing_key a) (signing_key_id a) e (Z.min (default_ttl a) (deadline - now)) now nonce_drawn.
End identity.

(** ** Lemmas *)

Lemma check_Ok b e u : check b e = Ok u → b = true.
Proof. by destruct b. Qed.
Ltac inv_res_step :=
  match goal with
  | H : res_bind _ _ = Ok _ |- _ => let a := fresh "r" in apply res_bind_Ok in H as (a & ? & H)
  | H : check _ _ = Ok _ |- _ => apply check_Ok in H
  | H : Ok _ = Ok _ |- _ => injection H as H
  | H : Err _ = Ok _ |- _ => discriminate H
  | H : negb _ = true |- _ => apply negb_true_iff in H
  | H : bool_decide _ = true |- _ => apply bool_decide_eq_true in H
  | H : (_ <=? _) = true |- _ => apply Z.leb_le in H
  | H : (_ <=? _) = false |- _ => apply Z.leb_gt in H
  | H : (_ <? _) = true |- _ => apply Z.ltb_lt in H
  | H : (_ <? _) = false |- _ => apply Z.ltb_ge in H
  end.
Ltac inv_res := repeat (inv_res_step; subst).

Lemma added_Ok t us x : add_us t us = Ok x → x = t + us ∧ in_range (t + us) = true.
Proof. unfold add_us. destruct (in_range (t + us)); naive_solver. Qed.

Lemma assoc_elem {A} k (v : A) l : assoc k l = Some v → (k, v) ∈ l.
Proof. induction l as [|[k' v'] l IH]; cbn; [done|]. case_decide; [intros [= ->]; subst; by left|right; auto]. Qed.

(** *** Sets of names *)

Lemma elem_of_sorted_set l x : x ∈ sorted_set l ↔ x ∈ l.
Proof. unfold sorted_set. by rewrite elem_of_sort_by, elem_of_remove_dups. Qed.
Lemma elem_of_both l l' x : x ∈ both l l' ↔ x ∈ l ∧ x ∈ l'.
Proof. unfold both. rewrite list_elem_of_filter. tauto. Qed.
Lemma elem_of_without l l' x : x ∈ without l l' ↔ x ∈ l ∧ x ∉ l'.
Proof. unfold without. rewrite list_elem_of_filter. tauto. Qed.

Definition scopes_granted (p : AgentPackage) (e : ExecutionEnvelope) (x : string) : Prop :=
  x ∈ env_allowed_evidence_scopes e ∧ (x ∈ pkg_allowed_evidence_scopes p ∨ remove_dups (pkg_allowed_evidence_scopes p) = ["execution_envelope_only"]).

(** Tools and scopes are intersections, prohibitions a union. *)
Lemma authority_spec p e :
  (∀ x, x ∈ auth_tools (derive_granted_authority p e) ↔ x ∈ declared p ∧ x ∈ env_allowed_tools e) ∧
  (∀ x, x ∈ auth_scopes (derive_granted_authority p e) ↔ scopes_granted p e x) ∧
  (∀ x, x ∈ auth_forbidden (derive_granted_authority p e) ↔ x ∈ pkg_forbidden_actions p ∨ x ∈ env_forbidden_actions e).
Proof.
  unfold derive_granted_authority, scopes_granted. cbn [auth_tools auth_scopes auth_forbidden]. split_and!; intros x.
  - by rewrite elem_of_sorted_set, elem_of_both.
  - case_decide; rewrite elem_of_sorted_set, ?elem_of_both; tauto.
  - by rewrite elem_of_sorted_set, elem_of_app.
Qed.

(** What the decision point allows, exactly. *)
Lemma authorize_spec p e :
  pol_allowed (authorize p e) = true ↔
  env_agent_role e = pkg_agent_id p ∧ env_agent_version e = pkg_version p ∧
  (∀ t, t ∈ env_allowed_tools e → t ∈ declared p) ∧ (∀ f, f ∈ pkg_forbidden_actions p → f ∈ env_forbidden_actions e).
Proof.
  unfold authorize. cbn zeta. repeat case_bool_decide; cbn [negb]; try (split; [discriminate|tauto]).
  - assert (Hd : nonempty (sorted_set (without (env_allowed_tools e) (declared p))) = false ↔
      ∀ t, t ∈ env_allowed_tools e → t ∈ declared p).
    { split.
      - intros Hn t Ht. destruct (decide (t ∈ declared p)) as [|Hnd]; [done|].
        assert (Hin : t ∈ sorted_set (without (env_allowed_tools e) (declared p))) by (by rewrite elem_of_sorted_set, elem_of_without).
        destruct (sorted_set _); [by apply elem_of_nil in Hin|done].
      - intros Hall. destruct (sorted_set _) as [|t l] eqn:E; [done|]. exfalso.
        assert (Hin : t ∈ sorted_set (without (env_allowed_tools e) (declared p))) by (rewrite E; by left).
        rewrite elem_of_sorted_set, elem_of_without in Hin. naive_solver. }
    destruct (nonempty _) eqn:En; cbn [pol_allowed].
    + split; [discriminate|]. intros (_ & _ & Ht & _). by apply Hd in Ht.
    + rewrite Forall_forall in *. naive_solver.
  - destruct (nonempty _) eqn:En; cbn [pol_allowed]; (split; [discriminate|]); intros (_ & _ & _ & Hf); by rewrite Forall_forall in *.
Qed.
Lemma find_tool_Some name l t : find_tool name l = Some t → t ∈ l ∧ decl_name t = name.
Proof. induction l as [|u l IH]; cbn; [done|]. case_decide; [intros [= ->]; split; [by left|done]|]. intros []%IH. split; [by right|done]. Qed.
Lemma authorize_tool_spec p e name : pol_allowed (authorize_tool p e name) = true →
  pol_allowed (authorize p e) = true ∧ name ∈ env_allowed_tools e ∧
  ∃ t, find_tool name (pkg_tools p) = Some t ∧
    (has_side_effect t = true → truthy_json (requires_human_confirmation t) = true → gate_open e = true).
Proof.
  unfold authorize_tool. cbn zeta. destruct (pol_allowed (authorize p e)) eqn:Ea; cbn [negb]; [|congruence].
  case_bool_decide; cbn [negb]; [|discriminate]. destruct (find_tool name (pkg_tools p)) as [t|] eqn:Et; [|discriminate].
  intros Hg. split; [done|]. split; [done|]. exists t. split; [done|]. intros Hs Hc. rewrite Hs, Hc in Hg.
  by destruct (gate_open e).
Qed.

(** *** Credentials *)

Section credentials.
Context `{Sha256} `{Ed25519}.

Lemma expiry_Ok issued ttl deadline passed x : expiry issued ttl deadline passed = Ok x →
  match deadline with Some d => x = Z.min (issued + ttl) d ∧ issued < d | None => x = issued + ttl end.
Proof.
  unfold expiry. intros He. inv_res. match goal with H : add_us _ _ = Ok _ |- _ => apply added_Ok in H as [-> _] end.
  destruct deadline as [d|]; inv_res; done.
Qed.

Lemma seal_Ok {A} k (document : Credential A → json) (c c' : Credential A) : seal k document c = Ok c' →
  c' = with_signature c (b64encode (ed_sign k (canonical_json (document c)))).
Proof. unfold seal. destruct (valid_credential c); [by intros [= <-]|done]. Qed.

Lemma window_Ok {A} e what max_ttl skew (c : Credential A) now u : check_window e what max_ttl skew c now = Ok u →
  issued_at c < expires_at c ∧ expires_at c - issued_at c ≤ max_ttl ∧ issued_at c - skew ≤ now ≤ expires_at c + skew.
Proof.
  unfold check_window. intros Hw. inv_res.
  repeat match goal with H : add_us _ _ = Ok _ |- _ => apply added_Ok in H as [-> _] end. lia.
Qed.
Lemma window_passes {A} e what max_ttl skew (c : Credential A) now :
  issued_at c < expires_at c → expires_at c - issued_at c ≤ max_ttl → issued_at c - skew ≤ now ≤ expires_at c + skew →
  in_range (now + skew) = true → in_range (now + - skew) = true → check_window e what max_ttl skew c now = Ok tt.
Proof.
  intros H1 H2 H3 H4 H5. unfold check_window, add_us. rewrite (proj2 (Z.leb_gt _ _) H1), (proj2 (Z.leb_le _ _) H2).
  cbn [negb check res_bind]. rewrite H4. cbn [res_bind]. rewrite (proj2 (Z.leb_le (issued_at c) (now + skew))) by lia. cbn [check res_bind].
  rewrite H5. cbn [res_bind]. by rewrite (proj2 (Z.ltb_ge (expires_at c) (now + - skew))) by lia.
Qed.

(** The signature of a credential is that of a trusted key over its document. *)
Definition signed_by_trusted {A} (trusted : list (string * string)) (document : Credential A → json) (c : Credential A) : Prop :=
  ∃ pem k s, assoc (key_id c) trusted = Some pem ∧ load_pem pem = Ok (Some k) ∧ public_key_sha256 c = _public_key_fingerprint k ∧
    b64decode (signature_base64 c) = Some s ∧ ed_verify k s (canonical_json (document c)) = true.
Lemma signature_Ok {A} e what trusted document (c : Credential A) :
  check_signature e what trusted document c = Ok tt ↔ signed_by_trusted trusted document c.
Proof.
  unfold check_signature, signed_by_trusted. split.
  - destruct (assoc _ _) as [pem|]; [|done]. intros Hs. inv_res. destruct r as [k|]; [|done]. inv_res.
    destruct (b64decode _) as [s|]; [|done]. inv_res. by exists pem, k, s.
  - intros (pem & k & s & -> & -> & E & -> & V). cbn [res_bind]. rewrite bool_decide_true by done. cbn [check res_bind]. by rewrite V.
Qed.
Lemma check_signature_unit {A} e what trusted document (c : Credential A) u :
  check_signature e what trusted document c = Ok u → signed_by_trusted trusted document c.
Proof. destruct u. apply signature_Ok. Qed.

(** A credential a key seals, a verifier that trusts the key accepts; the signature is
    not part of what is signed. *)
Lemma sealed_trusted {A} k (document : Credential A → json) trusted pem c c' :
  (∀ m, ed_verify (public_of k) (ed_sign k m) m = true) →
  (∀ c s, document (with_signature c s) = document c) →
  seal k document c = Ok c' → public_key_sha256 c = _public_key_fingerprint (public_of k) →
  assoc (key_id c) trusted = Some pem → load_pem pem = Ok (Some (public_of k)) →
  signed_by_trusted trusted document c'.
Proof.
  intros Hlaw Hdoc ->%seal_Ok Hf Ht Hl. exists pem, (public_of k), (ed_sign k (canonical_json (document c))).
  rewrite Hdoc. split_and!; try done. apply b64decode_b64encode.
Qed.

Definition bound_to (i : AgentIdentity) (e : ExecutionEnvelope) : Prop :=
  id_tenant_id i = env_tenant_id e ∧ id_engagement_id i = env_engagement_id e ∧ id_task_id i = env_task_id e ∧
  id_agent_role i = env_agent_role e ∧ id_agent_version i = env_agent_version e ∧ attempt i = env_attempt_count e.
Lemma assert_bound_Ok i e : _assert_bound i e = Ok tt ↔ bound_to i e.
Proof.
  unfold _assert_bound, mismatches, bound_to. cbn zeta. repeat case_decide; cbn; split; try done; intuition congruence.
Qed.

(** Acceptance, exactly. *)
Lemma verify_Ok v c envelope now i : verify v c envelope now = Ok i →
  i = subject c ∧
  issued_at c < expires_at c ∧ expires_at c - issued_at c ≤ maximum_ttl v ∧
  issued_at c - clock_skew v ≤ now ≤ expires_at c + clock_skew v ∧
  signed_by_trusted (trusted_public_keys v) identity_document c ∧
  revocations v (identity_id i) = false ∧
  (∀ e, envelope = Some e → bound_to i e).
Proof.
  unfold verify. intros Hv. inv_res. match goal with H : check_window _ _ _ _ _ _ = Ok _ |- _ => apply window_Ok in H end.
  match goal with H : check_signature _ _ _ _ _ = Ok _ |- _ => apply check_signature_unit in H end.
  split_and!; try tauto. intros e ->. match goal with H : _assert_bound _ _ = Ok ?u |- _ => destruct u; by apply assert_bound_Ok in H end.
Qed.

Lemma issue_Ok iss p e rel subj cs ttl now nonce0 id0 c : issue iss p e rel subj cs ttl now nonce0 id0 = Ok c →
  env_agent_role e = pkg_agent_id p ∧ env_agent_version e = pkg_version p ∧
  key_id c = iss_key_id iss ∧ public_key_sha256 c = _public_key_fingerprint (public_of (iss_private_key iss)) ∧
  issued_at c = now ∧ now < expires_at c ∧ expires_at c - now ≤ iss_maximum_ttl iss ∧
  (∀ d, env_deadline e = Some d → expires_at c ≤ d) ∧
  bound_to (subject c) e ∧ id_human_gate (subject c) = env_human_gate e ∧ identity_id (subject c) = id0 ∧
  mkAuthority (granted_tools (subject c)) (granted_evidence_scopes (subject c)) (id_forbidden_actions (subject c)) =
    derive_granted_authority p e.
Proof.
  unfold issue. intros Hi. inv_res. apply seal_Ok in Hi as ->.
  match goal with H : expiry _ _ _ _ = Ok _ |- _ => apply expiry_Ok in H as Hx end. cbn.
  split_and!; try done; destruct (env_deadline e) as [d|]; try (intros ? [= <-]); lia || done.
Qed.
End credentials.

(** *** The authority of a lease *)

Section lease.
Context `{Sha256} `{Ed25519}.

Lemma string_list_Ok policy key l : _string_list policy key = Ok l →
  get key policy = JList (map JStr l) ∧ NoDup l ∧ "" ∉ l.
Proof.
  unfold _string_list. destruct (get key policy) as [| | | | | |vs|]; try discriminate.
  destruct (mapM text_of vs) as [texts|] eqn:E; [|discriminate]. case_decide; [|discriminate]. intros [= <-].
  apply mapM_Some in E. split_and!; [f_equal|done|].
  - induction E as [|v t vs ts Ht _ IH]; [done|]. rewrite NoDup_cons in *. cbn. rewrite IH by tauto. f_equal.
    unfold text_of in Ht. destruct v; try discriminate. case_decide; naive_solver.
  - induction E as [|v t vs ts Ht _ IH]; [by intros ?%elem_of_nil|]. rewrite NoDup_cons in *.
    intros [<-|]%elem_of_cons; [|tauto]. unfold text_of in Ht. destruct v; try discriminate. by case_decide; simplify_eq.
Qed.

(** What an authority issues for a lease. *)
Lemma issue_authority_Ok a l now nonce0 c : issue_authority a l now nonce0 = Ok c →
  ∃ p, (∃ role, lease_assigned_agent_role l = Some role ∧ assoc role (packages a) = Some p) ∧
  let e := subject c in
  pol_allowed (authorize p e) = true ∧
  get "allowed_tools" (policy_fields (lease_execution_policy l)) = JList (map JStr (env_allowed_tools e)) ∧
  get "allowed_evidence_scopes" (policy_fields (lease_execution_policy l)) = JList (map JStr (env_allowed_evidence_scopes e)) ∧
  0 < env_token_budget e ≤ pkg_token_budget p ∧
  env_forbidden_actions e = pkg_forbidden_actions p ∧
  (env_task_id e, env_engagement_id e, env_tenant_id e, env_attempt_count e) =
    (lease_task_id l, lease_engagement_id l, lease_tenant_id l, lease_attempt_count l) ∧
  env_lease_owner e = Some (lease_lease_owner l) ∧ env_human_gate e = lease_human_gate l ∧
  issued_at c = now ∧ now < expires_at c ≤ lease_lease_expires_at l ∧
  (∀ d, lease_deadline_at l = Some d → expires_at c ≤ d) ∧ expires_at c ≤ now + default_ttl a ∧
  key_id c = signing_key_id a ∧ public_key_sha256 c = _public_key_fingerprint (public_of (signing_key a)).
Proof.
  unfold issue_authority. cbn zeta. destruct (lease_assigned_agent_role l) as [role|] eqn:Er; cbn [res_bind]; [|discriminate].
  destruct (assoc role (packages a)) as [p|] eqn:Ep; cbn [res_bind]; [|discriminate]. intros Hi. exists p. split; [by exists role|].
  apply res_bind_Ok in Hi as (why & _ & Hi). apply res_bind_Ok in Hi as (tools & Ht & Hi). apply res_bind_Ok in Hi as (scopes & Hs & Hi).
  apply res_bind_Ok in Hi as (tokens & Hb & Hi). apply res_bind_Ok in Hi as (cost & _ & Hi). apply res_bind_Ok in Hi as (model & _ & Hi).
  apply string_list_Ok in Ht as (Ht & _ & _), Hs as (Hs & _ & _).
  assert (0 < tokens ≤ pkg_token_budget p) as Htok.
  { unfold _bounded_int in Hb. destruct (default _ _); try discriminate. destruct (z <=? 0) eqn:E1; [discriminate|].
    destruct (pkg_token_budget p <? z) eqn:E2; [discriminate|]. injection Hb as <-. lia. }
  inv_res_step. inv_res_step. inv_res_step. inv_res_step. inv_res_step. unfold sign_envelope in Hi. inv_res. apply seal_Ok in Hi as ->.
  match goal with H : expiry _ _ _ _ = Ok _ |- _ => apply expiry_Ok in H as [-> Hd] end. cbn in *.
  destruct (lease_deadline_at l) as [d|]; split_and!; try done; try (intros ? [= <-]); lia.
Qed.
End lease.
