(* ===== verification/VaultExport.v ===== *)
(** * Evidence vault: export packages

    [verify_export_package] of vault/export.py with the signatures of vault/signing.py,
    and [import_signed_bundle] of vault/bundle.py.  A package is its bytes; what
    [zipfile], [json.loads] and [datetime.fromisoformat] read of them are parameters, as
    is the text of an exception.  A check adds to the list of errors and goes on, or
    raises: the locals that outlive the exception are the state ([Checked]).  A
    verification takes the file as it is at one moment, its digest and its entries; what
    the admission of a bundle reads of the file after it is another argument. *)

From Stdlib Require Import Ascii.
From S2P Require Import Prelude Tables PyFloat PyTime Ledger PyCodec Materiality Orchestrator VaultStore VaultService GovIdentity PyText.
Local Open Scope Z_scope.

(** ** What is read *)

(** [ZipFile(path).namelist()], [archive.read(name)], and the archive [writestr] makes of
    entries of a fixed time; [json.loads] of bytes; the
    instant of a text [datetime.fromisoformat] reads, one without an offset taken as UTC;
    [str(exc)]. *)
Class ZipFiles := {
  zip_names : string → Res (list string);
  zip_read : string → string → Res string;
  zip_write : list (string * string) → string
}.
Class JsonBytes := { loads_bytes : string → Res json }.
Class IsoTimes := { iso_instant : string → Res datetime }.
Class ExceptionTexts := { exc_text : exn → string }.

(** [v == w] of parsed values. *)
Definition number (v : json) : option (Z * Z) :=
  match v with
  | JBool b => Some (if b then 1 else 0, 1)
  | JInt z => Some (z, 1)
  | JFloat S754_nan => None
  | JFloat (S754_infinity s) => Some (if s then -1 else 1, 0)
  | JFloat f => Some (as_fraction f)
  | _ => None
  end.
Definition same_number (v w : json) : bool :=
  match number v, number w with
  | Some (a, b), Some (c, d) => if decide (b = 0 ∨ d = 0) then bool_decide (a = c ∧ b = d) else a * d =? c * b
  | _, _ => false
  end.
Fixpoint py_eq (v w : json) : bool :=
  match v, w with
  | JNull, JNull => true
  | JStr s, JStr t => bool_decide (s = t)
  | JTime s, JTime t => s =? t
  | JList l, JList m =>
      (fix go (l m : list json) := match l, m with
        | [], [] => true
        | x :: l, y :: m => py_eq x y && go l m
        | _, _ => false
        end) l m
  | JObj d, JObj e =>
      (length d =? length e)%nat && forallb (λ '(k, x), match dict_get k e with Some y => py_eq x y | None => false end) d
  | _, _ => same_number v w
  end.
(** A value a set or a dict can be asked for. *)
Definition hashable (v : json) : bool := match v with JList _ | JObj _ => false | _ => true end.
(** [isinstance(v, int)]. *)
Definition as_int (v : json) : option Z :=
  match v with JInt z => Some z | JBool b => Some (if b then 1 else 0) | _ => None end.
(** [name in names], of texts. *)
Definition in_texts (v : json) (l : list string) : Res bool :=
  match v with
  | JStr s => Ok (bool_decide (s ∈ l))
  | _ => if hashable v then Ok false else Err (Py TypeError)
  end.
(** [repr] of a sorted set of texts. *)
Definition sorted_repr (l : list string) : string := json_repr (JList (map JStr (sort_by String.compare l))).

(** [text.split()]. *)
Fixpoint split_words (word : string) (l : list ascii) : list string :=
  match l with
  | [] => if decide (word = "") then [] else [word]
  | c :: l => if is_space c then (if decide (word = "") then split_words "" l else word :: split_words "" l)
              else split_words (word +:+ String c "") l
  end.
(** The parts of a [PurePosixPath]. *)
Fixpoint split_slash (part : string) (l : list ascii) : list string :=
  match l with
  | [] => [part]
  | c :: l => if decide (c = "/"%char) then part :: split_slash "" l else split_slash (part +:+ String c "") l
  end.
Definition unsafe_path (name : string) : bool :=
  let l := String.list_ascii_of_string name in
  match l with c :: _ => bool_decide (c = "/"%char) | [] => false end || bool_decide (".." ∈ split_slash "" l).
Definition ascii_text (b : string) : Res string :=
  if forallb (λ c, ord c <? 128) (String.list_ascii_of_string b) then Ok b else Err (Py UnicodeDecodeError).
(** [value.replace("Z", "+00:00")]. *)
Definition zulu (s : string) : string :=
  String.concat "" (map (λ c, if decide (c = "Z"%char) then "+00:00" else String c "") (String.list_ascii_of_string s)).

(** What has been found so far; the sizes of the objects declared so far. *)
Record Checked := mkChecked {
  faults : list string;
  manifest_digest : option string;
  evidence_total : Z;
  object_total : Z;
  signature_ok : option bool;
  signing_key : json
}.
Abbreviation Checks := (Prog Checked).
Abbreviation sizes_t := (list (string * Z)).

Section export.
Context `{UuidSource} `{Sha256} `{VaultClock} `{Ed25519} `{ZipFiles} `{JsonBytes} `{IsoTimes} `{ExceptionTexts}.

(** ** Signatures *)

Definition key_of_pem (pem : string) : Res (public_key + string) :=
  match load_pem pem with
  | Ok (Some k) => Ok (inl k)
  | Ok None => Ok (inr "manifest public key must be Ed25519")
  | Err (Py ValueError) => Ok (inr (exc_text (Py ValueError)))
  | Err x => Err x
  end.
(** [verify_signature]; [Some] is the text of its [ValueError]. *)
Definition verify_signature (payload : string) (signature : dict) (pem : string) : Res (option string) :=
  if negb (py_eq (get "algorithm" signature) (JStr "Ed25519")) then Ok (Some "unsupported manifest signature algorithm")
  else
    let? key := key_of_pem pem in
    match key with
    | inr message => Ok (Some message)
    | inl k =>
        if negb (py_eq (get "public_key_sha256" signature) (JStr (_public_key_fingerprint k)))
        then Ok (Some "manifest public key fingerprint mismatch")
        else
          match dict_get "signature_base64" signature with
          | Some (JStr text) =>
              match b64decode text with
              | Some raw => Ok (if ed_verify k raw payload then None else Some "manifest signature verification failed")
              | None => Ok (Some "manifest signature is not valid base64")
              end
          | _ => Ok (Some "manifest signature is not valid base64")
          end
    end.

(** ** Custody *)

(** The document a custody event is digested over, whatever its fields hold. *)
Definition event_document (tenant_id evidence : string) (n : Z) (action actor_type actor_id : json) (occurred_at : datetime)
    (details previous : json) : json :=
  JObj [("action", action); ("actor_id", actor_id); ("actor_type", actor_type); ("details", details);
        ("evidence_id", JStr evidence); ("occurred_at", JStr (canonical_datetime occurred_at));
        ("previous_event_hash", previous); ("sequence_no", JInt n); ("tenant_id", JStr tenant_id)].
Definition item (k : string) (d : dict) : Res json := match dict_get k d with Some v => Ok v | None => Err (Py KeyError) end.
Definition _parse_datetime (v : json) : Res datetime :=
  match v with JStr s => iso_instant (zulu s) | _ => Err (Py ValueError) end.
Definition calculated_hash (tenant_id evidence : string) (n : Z) (event : dict) (previous : json) : Res string :=
  let? action := item "action" event in
  let? actor_type := item "actor_type" event in
  let? actor_id := item "actor_id" event in
  let? stamp := item "occurred_at" event in
  let? occurred_at := _parse_datetime stamp in
  Ok (sha256_hex (canonical_json (event_document tenant_id evidence n action actor_type actor_id occurred_at
    (default (JObj []) (dict_get "details" event)) previous))).

(** The loop: what is wrong with the events from number [n] on, and the hash they end with. *)
Fixpoint walk_events (tenant_id evidence : string) (n : Z) (previous : json) (events : list json) : Res (list string * json) :=
  match events with
  | [] => Ok ([], previous)
  | event :: events =>
      let goes_on wrong previous :=
        let? rest := walk_events tenant_id evidence (n + 1) previous events in Ok (wrong ++ fst rest, snd rest) in
      match event with
      | JObj event =>
          if negb (py_eq (get "sequence_no" event) (JInt n)) then
            goes_on ["evidence " +:+ evidence +:+ " custody sequence mismatch at " +:+ pretty n] previous
          else
            match calculated_hash tenant_id evidence n event previous with
            | Ok calculated =>
                goes_on
                  ((if py_eq (get "previous_event_hash" event) previous then []
                    else ["evidence " +:+ evidence +:+ " custody previous hash mismatch at " +:+ pretty n]) ++
                   (if py_eq (get "event_hash" event) (JStr calculated) then []
                    else ["evidence " +:+ evidence +:+ " custody event hash mismatch at " +:+ pretty n]))
                  (get "event_hash" event)
            | Err (Py (KeyError | TypeError | ValueError) as x) =>
                goes_on ["evidence " +:+ evidence +:+ " custody event is malformed: " +:+ exc_text x] previous
            | Err x => Err x
            end
      | _ => goes_on ["evidence " +:+ evidence +:+ " custody event is not an object"] previous
      end
  end.
Definition _verify_custody (tenant_id evidence : string) (events declared_head : json) : Res (list string) :=
  match events with
  | JList l =>
      let? walked := walk_events tenant_id evidence 1 JNull l in
      Ok (fst walked ++ (if py_eq declared_head (snd walked) then [] else ["evidence " +:+ evidence +:+ " custody head mismatch"]))
  | _ => Ok ["evidence " +:+ evidence +:+ " custody is not a list"]
  end.

(** ** The checks *)

Definition say (messages : list string) : Checks unit := λ c,
  (Ok tt, mkChecked (faults c ++ messages) (manifest_digest c) (evidence_total c) (object_total c) (signature_ok c) (signing_key c)).
Definition note_digest (d : option string) : Checks unit := λ c,
  (Ok tt, mkChecked (faults c) d (evidence_total c) (object_total c) (signature_ok c) (signing_key c)).
Definition note_totals (n m : Z) : Checks unit := λ c,
  (Ok tt, mkChecked (faults c) (manifest_digest c) n m (signature_ok c) (signing_key c)).
Definition note_signature (b : bool) : Checks unit := λ c,
  (Ok tt, mkChecked (faults c) (manifest_digest c) (evidence_total c) (object_total c) (Some b) (signing_key c)).
Definition note_key (v : json) : Checks unit := λ c,
  (Ok tt, mkChecked (faults c) (manifest_digest c) (evidence_total c) (object_total c) (signature_ok c) v).
Definition from {A} (r : Res A) : Checks A := λ c, (r, c).
Definition unless (b : bool) (message : string) : Checks unit := say (if b then [] else [message]).

Definition _REQUIRED_ENTRIES : list string := ["manifest.json"; "manifest.sha256"].
Definition _SIGNATURE_ENTRIES : list string := ["manifest.signature.json"; "manifest.public.pem"].
Definition without (l names : list string) : list string := filter (λ x, x ∉ names) l.
Definition object_entry (d : string) : string := "objects/" +:+ d.

Definition check_names (names : list string) : Checks unit :=
  unless (bool_decide (NoDup names)) "package contains duplicate entry names" ;;
  say (map (λ name, "unsafe archive path: " +:+ name) (List.filter unsafe_path names)) ;;
  let absent := without _REQUIRED_ENTRIES names in
  if nonempty absent then prog_raise (Vlt (ExportPackageError ("missing required package entries: " +:+ sorted_repr absent))) else mret tt.
Definition check_digest (manifest line : string) : Checks unit :=
  let parts := split_words "" (String.list_ascii_of_string line) in
  note_digest (head parts) ;;
  unless (match parts with [_; name] => bool_decide (name = "manifest.json") | _ => false end)
    "manifest checksum file has an invalid format" ;;
  unless (bool_decide (head parts = Some (sha256_hex manifest))) "manifest checksum mismatch".

(** The key a signature is checked with: the trusted one of its name, which an empty
    text is not. *)
Definition signature_key (trusted : option (list (string * string))) (key_id : json) (embedded : string) : Res (string + string) :=
  if negb (hashable key_id) then Err (Py TypeError)
  else
    let known := match key_id with JStr k => k' ← trusted; assoc k k' | _ => None end in
    match trusted, known with
    | Some _, None => Ok (inr "manifest signing key is not trusted")
    | _, Some pem => Ok (inl (if decide (pem = "") then embedded else pem))
    | None, None => Ok (inl embedded)
    end.
(** The [try] over the signature; [Some] is the text of a [ValueError] it raises. *)
Definition signature_verdict (pkg manifest : string) (trusted : option (list (string * string))) : Checks (option string) :=
  document ← from (zip_read pkg "manifest.signature.json");
  parsed ← from (loads_bytes document);
  match parsed with
  | JObj signature =>
      note_key (get "key_id" signature) ;;
      embedded ← from (zip_read pkg "manifest.public.pem");
      key ← from (signature_key trusted (get "key_id" signature) embedded);
      match key with
      | inr message => mret (Some message)
      | inl pem => from (verify_signature manifest signature pem)
      end
  | _ => mret (Some "signature document is not an object")
  end.
(** Its handler. *)
Definition or_message (m : Checks (option string)) : Checks (option string) := λ c,
  match m c with
  | (Err (Py (KeyError | ValueError | UnicodeDecodeError | JSONDecodeError) as x), c') => (Ok (Some (exc_text x)), c')
  | r => r
  end.
Definition check_signature_entries (pkg manifest : string) (trusted : option (list (string * string))) (present : list string) : Checks unit :=
  if negb (nonempty present) then mret tt
  else if nonempty (without _SIGNATURE_ENTRIES present) then
    say ["evidence export has an incomplete signature bundle"] ;; note_signature false
  else
    verdict ← or_message (signature_verdict pkg manifest trusted);
    match verdict with Some message => say [message] ;; note_signature false | None => note_signature true end.

(** One object of the manifest; the sizes declared so far. *)
Definition check_object (pkg : string) (sizes : sizes_t) (v : json) : Checks sizes_t :=
  match v with
  | JObj d =>
      match get "sha256" d with
      | JStr digest =>
          if negb (is_digest digest) then say ["manifest contains an invalid object digest"] ;; mret sizes
          else if decide (digest ∈ map fst sizes) then say ["manifest declares object more than once: " +:+ digest] ;; mret sizes
          else
            match as_int (get "size_bytes" d) with
            | Some size =>
                if size <? 0 then say ["manifest contains invalid object size: " +:+ digest] ;; mret sizes
                else
                  match zip_read pkg (object_entry digest) with
                  | Ok payload =>
                      unless (bool_decide (sha256_hex payload = digest)) ("object checksum mismatch: " +:+ digest) ;;
                      unless (Z.of_nat (String.length payload) =? size) ("object size mismatch: " +:+ digest) ;;
                      mret (sizes ++ [(digest, size)])
                  | Err (Py KeyError) => say ["missing object: " +:+ digest] ;; mret (sizes ++ [(digest, size)])
                  | Err x => prog_raise x
                  end
            | None => say ["manifest contains invalid object size: " +:+ digest] ;; mret sizes
            end
      | _ => say ["manifest contains an invalid object digest"] ;; mret sizes
      end
  | _ => say ["manifest contains a non-object object entry"] ;; mret sizes
  end.
Fixpoint check_each {A} (f : A → json → Checks A) (a : A) (l : list json) : Checks A :=
  match l with [] => mret a | v :: l => a ← f a v; check_each f a l end.

(** One record of the manifest; the identifiers seen so far. *)
Definition check_record (tenant_id : string) (sizes : sizes_t) (ids : list string) (v : json) : Checks (list string) :=
  match v with
  | JObj d =>
      match get "evidence_id" d with
      | JStr id =>
          if decide (id = "") then say ["manifest contains evidence without an identifier"] ;; mret ids
          else
            unless (bool_decide (id ∉ ids)) ("manifest declares evidence more than once: " +:+ id) ;;
            declared ← from (in_texts (get "content_sha256" d) (map fst sizes));
            match (if declared : bool then match get "content_sha256" d with JStr digest => assoc digest sizes | _ => None end else None) with
            | Some size => unless (py_eq (get "size_bytes" d) (JInt size)) ("evidence " +:+ id +:+ " object size does not match")
            | None => say ["evidence " +:+ id +:+ " references an undeclared object"]
            end ;;
            wrong ← from (_verify_custody tenant_id id (get "custody" d) (get "custody_head" d));
            say wrong ;;
            mret (ids ++ [id])
      | _ => say ["manifest contains evidence without an identifier"] ;; mret ids
      end
  | _ => say ["manifest contains a non-object evidence entry"] ;; mret ids
  end.
Definition check_edge (ids : list string) (u : unit) (v : json) : Checks unit :=
  match v with
  | JObj d =>
      source ← from (in_texts (get "source_evidence_id" d) ids);
      unless source "lineage edge references an absent source evidence record" ;;
      derived ← from (in_texts (get "derived_evidence_id" d) ids);
      unless derived "lineage edge references an absent derived evidence record"
  | _ => say ["manifest contains a non-object lineage edge"]
  end.

(** [manifest.get(k, [])], which should be a list. *)
Definition list_of (k : string) (d : dict) : option (list json) :=
  match default (JList []) (dict_get k d) with JList l => Some l | _ => None end.
Definition listed (k message : string) (d : dict) : Checks (list json) :=
  match list_of k d with Some l => mret l | None => say [message] ;; mret [] end.
Definition all_texts (l : list json) (names : list string) : Res bool :=
  foldr (λ v rest, let? b := in_texts v names in let? c := rest in Ok (b && c)) (Ok true) l.
Definition requested_within (d : dict) (ids : list string) : Res bool :=
  match list_of "requested_evidence_ids" d with Some l => all_texts l ids | None => Ok false end.
Definition export_schemas : list string := ["assurance.evidence_export.v1"; "assurance.evidence_export.v2"].

Definition check_manifest (pkg : string) (names present : list string) (d : dict) : Checks unit :=
  known ← from (in_texts (get "schema" d) export_schemas);
  unless known "unsupported manifest schema" ;;
  signed ← (λ c, (Ok (bool_decide (signature_ok c = Some true)), c));
  unless (negb (py_eq (get "schema" d) (JStr "assurance.evidence_export.v2")) || signed)
    "v2 evidence export requires a valid manifest signature" ;;
  tenant_id ← match get "tenant_id" d with
    | JStr t => if decide (t = "") then say ["manifest tenant_id is missing"] ;; mret "" else mret t
    | _ => say ["manifest tenant_id is missing"] ;; mret ""
    end;
  evidence ← listed "evidence" "manifest evidence is not a list" d;
  declared ← listed "objects" "manifest objects is not a list" d;
  edges ← listed "lineage" "manifest lineage is not a list" d;
  note_totals (zlen evidence) (zlen declared) ;;
  sizes ← check_each (check_object pkg) [] declared;
  let allowed := _REQUIRED_ENTRIES ++ present ++ map (λ s, object_entry (fst s)) sizes in
  let unexpected := without (fromkeys [] names) allowed in
  unless (negb (nonempty unexpected)) ("package contains undeclared entries: " +:+ sorted_repr unexpected) ;;
  ids ← check_each (check_record tenant_id sizes) [] evidence;
  within ← from (requested_within d ids);
  unless within "requested evidence identifiers are not contained in the export" ;;
  check_each (check_edge ids) tt edges.

(** The [with] over the archive. *)
Definition check_package (pkg : string) (trusted : option (list (string * string))) : Checks unit :=
  names ← from (zip_names pkg);
  check_names names ;;
  manifest ← from (zip_read pkg "manifest.json");
  line ← from (let? b := zip_read pkg "manifest.sha256" in ascii_text b);
  check_digest manifest line ;;
  let present := filter (λ x, x ∈ names) _SIGNATURE_ENTRIES in
  check_signature_entries pkg manifest trusted present ;;
  match loads_bytes manifest with
  | Ok (JObj d) => check_manifest pkg names present d
  | Ok _ => prog_raise (Vlt (ExportPackageError "manifest root is not an object"))
  | Err (Py JSONDecodeError) => prog_raise (Vlt (ExportPackageError "manifest is not valid JSON"))
  | Err x => prog_raise x
  end.

Record ExportVerification := mkExportVerification {
  ev_valid : bool;
  ev_package_sha256 : string;
  ev_manifest_sha256 : option string;
  ev_evidence_count : Z;
  ev_object_count : Z;
  ev_signature_valid : option bool;
  ev_signing_key_id : option string;
  ev_errors : list string
}.
(** pydantic takes a text, or nothing, for the key. *)
Definition verification_of (pkg_sha256 : string) (c : Checked) : Res ExportVerification :=
  let result key := Ok (mkExportVerification (negb (nonempty (faults c))) pkg_sha256 (manifest_digest c) (evidence_total c) (object_total c)
    (signature_ok c) key (faults c)) in
  match signing_key c with JStr k => result (Some k) | JNull => result None | _ => Err (Gov PydanticValidationError) end.
Definition unchecked : Checked := mkChecked [] None 0 0 None JNull.
(** [None] is a package that is not there. *)
Definition verify_export_package (package : option string) (trusted : option (list (string * string))) : Res ExportVerification :=
  match package with
  | None => verification_of "" (snd (say [exc_text (Py OSError)] unchecked))
  | Some pkg =>
      match check_package pkg trusted unchecked with
      | (Ok _, c) => verification_of (sha256_hex pkg) c
      | (Err (Vlt (ExportPackageError message)), c) => verification_of (sha256_hex pkg) (snd (say [message] c))
      | (Err (Py (OSError | BadZipFile) as x), c) => verification_of (sha256_hex pkg) (snd (say [exc_text x] c))
      | (Err x, _) => Err x
      end
  end.

(** ** Writing a package *)

(** [ManifestSigner], of an Ed25519 key; [pem] is its public key. *)
Record ManifestSigner := mkManifestSigner { ms_key : private_key; ms_key_id : string; ms_pem : string }.
Definition signature_document (s : ManifestSigner) (payload : string) : Res dict :=
  let? key := load_pem (ms_pem s) in
  match key with
  | None => Err (Py ValueError)
  | Some k => Ok [("algorithm", JStr "Ed25519"); ("key_id", JStr (ms_key_id s)); ("public_key_sha256", JStr (_public_key_fingerprint k));
                  ("signature_base64", JStr (b64encode (ed_sign (ms_key s) payload)))]
  end.
Definition by_digest (objects : list (string * string)) : list (string * string) := sort_by (cmp_on fst String.compare) objects.
(** [write_export_package]: the bytes of the package, and the digest of its manifest. *)
Definition write_export_package (manifest : dict) (objects : list (string * string)) (signer : option ManifestSigner) : Res (string * string) :=
  let text := canonical_json (JObj manifest) in
  let d := sha256_hex text in
  let? signed := match signer with
    | Some s => let? document := signature_document s text in
        Ok [("manifest.signature.json", canonical_json (JObj document)); ("manifest.public.pem", ms_pem s)]
    | None => Ok []
    end in
  Ok (zip_write ([("manifest.json", text); ("manifest.sha256", d +:+ "  manifest.json" +:+ String (chr 10) "")] ++ signed ++
        map (λ '(k, payload), (object_entry k, payload)) (by_digest objects)), d).

Definition event_manifest (c : EvidenceCustodyEvent) : json :=
  JObj [("sequence_no", JInt (cst_sequence_no c)); ("action", JStr (cst_action c)); ("actor_type", JStr (cst_actor_type c));
        ("actor_id", JStr (cst_actor_id c)); ("occurred_at", JStr (isoformat (cst_occurred_at c))); ("details", JObj (cst_details c));
        ("previous_event_hash", opt_json (previous_event_hash c)); ("event_hash", JStr (event_hash c))].
Definition opt_iso (t : option datetime) : json := match t with Some t => JStr (isoformat t) | None => JNull end.
Definition record_manifest (e : EvidenceRecord) (chain : list EvidenceCustodyEvent) : json :=
  let a := acquisition e in
  JObj [("evidence_id", JStr (eid e)); ("record_kind", JStr (record_kind a)); ("source_type", JStr (source_type a));
        ("source_locator", JStr (source_locator a)); ("content_sha256", JStr (digest e)); ("size_bytes", JInt (size_bytes a));
        ("mime_type", opt_json (mime_type a)); ("classification", JStr (classification a)); ("source_time", opt_iso (source_time a));
        ("collected_at", JStr (isoformat (collected_at a))); ("accepted", JBool (evd_accepted a)); ("tainted", JBool (evd_tainted a));
        ("custody_head", opt_json (event_hash <$> last chain)); ("custody", JList (map event_manifest chain));
        ("metadata", JObj (metadata_json a))].
Definition edge_manifest (t : EvidenceTransformation) : json :=
  JObj [("transformation_id", JStr (transformation_id t)); ("source_evidence_id", JStr (source_evidence_id t));
        ("derived_evidence_id", JStr (derived_evidence_id t)); ("operation", JStr (trn_operation t));
        ("tool_version", JStr (trn_tool_version t)); ("parameters", JObj (parameters_json t)); ("created_at", JStr (isoformat (trn_created_at t)))].

(** What the first session of [create_export] reads: the identifiers selected, their
    records with their custody, and the derivations among them. *)
Definition selection (tenant_id : string) (requested : list string) (include_ancestors : bool) (db : VaultDB)
    : Res (list string * list (EvidenceRecord * list EvidenceCustodyEvent) * list EvidenceTransformation) :=
  let edges := all_transformations db tenant_id in
  let selected := sort_by String.compare (if include_ancestors then ancestors edges requested else requested) in
  let? records := foldr (λ id rest,
    let? e := found (VaultStore.get db tenant_id id false) in
    let? _ := stored_key e in
    let? es := rest in Ok ((e, list_custody_events db tenant_id (eid e)) :: es)) (Ok []) selected in
  Ok (selected, records, edges_within selected edges).
(** The bytes of the records, each digest once. *)
Fixpoint collect_objects (tenant_id : string) (records : list EvidenceRecord) (os : Objects) : Res (list (string * string)) :=
  match records with
  | [] => Ok []
  | e :: records =>
      let? key := stored_key e in
      let? _ := obj_verify tenant_id key (digest e) (size_bytes (acquisition e)) os in
      let? payload := obj_open tenant_id key os in
      let? rest := collect_objects tenant_id records os in
      Ok ((digest e, payload) :: filter (λ x, fst x ≠ digest e) rest)
  end.
Definition export_manifest (schema export_id tenant_id : string) (generated_at : datetime) (purpose : string) (requested : list string)
    (records : list (EvidenceRecord * list EvidenceCustodyEvent)) (edges : list EvidenceTransformation) (objects : list (string * string)) : dict :=
  [("schema", JStr schema); ("export_id", JStr export_id); ("tenant_id", JStr tenant_id); ("generated_at", JStr (isoformat generated_at));
   ("purpose", JStr purpose); ("requested_evidence_ids", JList (map JStr (sort_by String.compare requested)));
   ("evidence", JList (map (λ '(e, chain), record_manifest e chain) records)); ("lineage", JList (map edge_manifest edges));
   ("objects", JList (map (λ '(d, payload), JObj [("sha256", JStr d); ("size_bytes", JInt (Z.of_nat (String.length payload)))])
      (by_digest objects)))].
(** What is returned, and the package left at the destination. *)
Definition create_export (signer : option ManifestSigner) (tenant_id : string) (ids : list string) (actor_id purpose : string)
    (include_ancestors : bool) : Vault (ExportVerification * string) :=
  let requested := fromkeys [] ids in
  if negb (nonempty requested) then prog_raise (Py ValueError)
  else
    read ← read_session (selection tenant_id requested include_ancestors);
    let '(selected, records, edges) := read in
    objects ← from_store (collect_objects tenant_id (map fst records));
    export_id ← drawing "exp";
    generated_at ← clock;
    let schema := match signer with Some _ => "assurance.evidence_export.v2" | None => "assurance.evidence_export.v1" end in
    written ← prog_res (write_export_package
      (export_manifest schema export_id tenant_id generated_at purpose requested records edges objects) objects signer);
    let '(pkg, manifest_sha256) := written in
    verification ← prog_res (verify_export_package (Some pkg) None);
    if negb (ev_valid verification) then prog_raise (Py RuntimeError)
    else
      now ← clock;
      in_transaction (export_tx tenant_id (map (λ r, eid (fst r)) records) selected export_id actor_id purpose (sha256_hex pkg)
        manifest_sha256 now) ;;
      mret (verification, pkg).

(** ** Admission of a bundle *)

Definition bundle_request (pkg name locator tenant_id actor_id : string) (engagement : option string) (class : string)
    (v : ExportVerification) : IngestRequest :=
  mkIngestRequest tenant_id pkg "assuranceos-evidence-bundle" locator actor_id "bundle-importer" engagement None
    (Some ("bundle:" +:+ ev_package_sha256 v)) (Some name) (Some "application/vnd.assuranceos.evidence-export+zip") None class None true false
    None false
    [("sealed_bundle", JBool true); ("package_sha256", JStr (ev_package_sha256 v)); ("manifest_sha256", opt_json (ev_manifest_sha256 v));
     ("signing_key_id", opt_json (ev_signing_key_id v)); ("evidence_count", JInt (ev_evidence_count v));
     ("object_count", JInt (ev_object_count v))].
(** The file is read twice: [package] is what the verification reads of it, [filed] what
    [package.read_bytes()] reads of it afterwards, [None] where it cannot be read;
    [locator] is its URI. *)
Definition import_signed_bundle (v : EvidenceVault) (package filed : option string) (name locator tenant_id actor_id : string)
    (trusted : list (string * string)) (engagement : option string) (class : string) : Vault (EvidenceRecord * ExportVerification) :=
  verification ← prog_res (verify_export_package package (Some trusted));
  if negb (ev_valid verification) || negb (bool_decide (ev_signature_valid verification = Some true)) then
    prog_raise (Vlt (ExportPackageError ("evidence bundle admission refused: " +:+
      str_or (match ev_errors verification with [] => None | l => Some (join "; " l) end) "signature validation failed")))
  else
    match filed with
    | Some pkg =>
        e ← ingest_bytes v (bundle_request pkg name locator tenant_id actor_id engagement class verification);
        mret (e, verification)
    | None => prog_raise (Py OSError)
    end.
Definition bundle_admission_result (e : EvidenceRecord) (v : ExportVerification) : dict :=
  [("admitted", JBool true); ("evidence_id", JStr (eid e)); ("package_sha256", JStr (ev_package_sha256 v));
   ("manifest_sha256", opt_json (ev_manifest_sha256 v)); ("signing_key_id", opt_json (ev_signing_key_id v));
   ("evidence_count", JInt (ev_evidence_count v)); ("object_count", JInt (ev_object_count v))].
End export.
