(* ===== verification/VaultExportSpec.v ===== *)
(** * Evidence vault: what an accepted package is

    [sound m P]: the checks [m] that end without an error had none before and return
    what [P] says.  From it, an accepted package holds what its manifest declares
    ([package_sound]) and a signature that counts is one ([signed_by]).  Then the public
    operations of the vault, exports and admissions among them ([operation]). *)

From Stdlib Require Import Ascii.
From S2P Require Import Prelude Tables PyFloat PyTime Ledger PyCodec Materiality VaultStore VaultService VaultInvariants VaultHistory.
From S2P Require Import GovIdentity PyText VaultExport.
Local Open Scope Z_scope.

Section spec.
Context `{UuidSource} `{Sha256} `{VaultClock} `{Ed25519} `{ZipFiles} `{JsonBytes} `{IsoTimes} `{ExceptionTexts}.
Implicit Types (c : Checked) (d : dict).

(** ** Checks without an error *)

(** [sg] is what has been found of the signature, which they leave as it is. *)
Section checks.
Context (sg : option bool).

Definition sound {A} (m : Checks A) (P : A → Prop) : Prop := ∀ c a c', signature_ok c = sg → m c = (Ok a, c') →
  signature_ok c' = sg ∧ manifest_digest c' = manifest_digest c ∧ (faults c' = [] → faults c = [] ∧ P a).
Lemma sound_bind {A B} (m : Checks A) (f : A → Checks B) P Q :
  sound m P → (∀ a, sound (f a) (λ b, P a → Q b)) → sound (mbind (M:=Checks) f m) Q.
Proof.
  intros Hm Hf c b c' Hsg E. apply prog_bind_Ok in E as (a & c1 & E1 & E2). destruct (Hm _ _ _ Hsg E1) as (S1 & D1 & K1).
  destruct (Hf a _ _ _ S1 E2) as (S2 & D2 & K2). split_and!; [done|by rewrite D2|]. intros Hc. destruct (K2 Hc) as [F2 Q2].
  destruct (K1 F2) as [F1 P1]. auto.
Qed.
Lemma sound_impl {A} (m : Checks A) (P Q : A → Prop) : sound m P → (∀ a, P a → Q a) → sound m Q.
Proof. intros Hm HPQ c b c' Hsg E. destruct (Hm _ _ _ Hsg E) as (S1 & D1 & K1). split_and!; [done..|]. intros Hc. destruct (K1 Hc). auto. Qed.
Lemma sound_ret {A} (a : A) (P : A → Prop) : P a → sound (mret (M:=Checks) a) P.
Proof. intros HP c b c' Hs [= <- <-]. done. Qed.
Lemma sound_from {A} (r : Res A) (P : A → Prop) : (∀ a, r = Ok a → P a) → sound (from r) P.
Proof. intros HP c b c' Hs [= -> <-]. auto. Qed.
Lemma sound_say l (P : unit → Prop) : (l = [] → P tt) → sound (say l) P.
Proof. intros HP c b c' Hs [= <- <-]. cbn. split_and!; [done|done|]. intros [? ?]%app_eq_nil. auto. Qed.
Lemma sound_unless b message (P : unit → Prop) : (b = true → P tt) → sound (unless b message) P.
Proof. intros HP. apply sound_say. by destruct b; [intros _; apply HP|]. Qed.
Lemma sound_raise {A} (x : exn) P : sound (prog_raise (A:=A) x) P.
Proof. by intros c b c' Hs [=]. Qed.
Lemma sound_totals n m (P : unit → Prop) : P tt → sound (note_totals n m) P.
Proof. by intros HP c b c' Hs [= <- <-]. Qed.
Lemma sound_wrong {A} message l (x : A) P : sound (say (message :: l) ;; mret x) P.
Proof. intros c b c' Hs [= <- <-]. split_and!; [done|done|]. cbn. by intros [_ ?]%app_eq_nil. Qed.
Lemma sound_wrong_tt message l P : sound (say (message :: l)) P.
Proof. by apply sound_say. Qed.
Lemma sound_each {A} (f : A → json → Checks A) (R : A → json → A → Prop) l a :
  (∀ a v, sound (f a v) (R a v)) → ∀ (P : A → Prop), (∀ a', (fix chain a l := match l with [] => a' = a | v :: l => ∃ b, R a v b ∧ chain b l end) a l → P a') →
  sound (check_each f a l) P.
Proof.
  intros Hf. revert a. induction l as [|v l IH]; intros a P HP; cbn [check_each]; [by apply sound_ret, HP|].
  eapply sound_bind; [apply Hf|]. intros b. apply IH. intros a' Hc Hb. apply HP. by exists b.
Qed.

(** ** Values that equal a text or nothing *)

Lemma same_number_none v w : number w = None → same_number v w = false.
Proof. intros E. unfold same_number. rewrite E. by destruct (number v) as [[]|]. Qed.
Lemma py_eq_str v s : py_eq v (JStr s) = true → v = JStr s.
Proof. destruct v; cbn; rewrite ?same_number_none by done; try done. intros K%bool_decide_eq_true. by subst. Qed.
Lemma py_eq_null v : py_eq v JNull = true → v = JNull.
Proof. destruct v; cbn; rewrite ?same_number_none by done; done. Qed.

(** ** Custody *)

(** What is before an event: nothing, or a hash. *)
Definition head_json (v : json) : Prop := v = JNull ∨ ∃ h, v = JStr h.
(** The events from number [n] on, after the hash [p], end with the hash [h]: each is
    numbered, holds the hash before it, and its own hash is the digest of its fields. *)
Inductive linked (t id : string) : Z → json → list json → json → Prop :=
  | linked_nil n p : linked t id n p [] p
  | linked_cons n p event calculated l h : py_eq (get "sequence_no" event) (JInt n) = true → get "previous_event_hash" event = p →
      calculated_hash t id n event p = Ok calculated → get "event_hash" event = JStr calculated →
      linked t id (n + 1) (JStr calculated) l h → linked t id n p (JObj event :: l) h.

Lemma walk_events_linked t id n p l h : head_json p → walk_events t id n p l = Ok ([], h) → linked t id n p l h ∧ head_json h.
Proof.
  revert n p. induction l as [|v l IH]; intros n p Hp; cbn [walk_events]; [intros [= <-]; by split; [constructor|]|].
  assert (Hgo : ∀ wrong q, (let? rest := walk_events t id (n + 1) q l in Ok (wrong ++ fst rest, snd rest)) = Ok ([], h) →
    wrong = [] ∧ walk_events t id (n + 1) q l = Ok ([], h)).
  { intros wrong q E. destruct (walk_events t id (n + 1) q l) as [[w h']|]; [|done]. cbn in E. injection E as E <-.
    apply app_eq_nil in E as [-> ->]. done. }
  destruct v as [| | | | | | |event]; try by intros [[=] _]%Hgo.
  destruct (py_eq (get "sequence_no" event) (JInt n)) eqn:En; cbn [negb]; [|by intros [[=] _]%Hgo].
  destruct (calculated_hash t id n event p) as [calculated|x] eqn:Ec.
  - intros [Ew E]%Hgo. apply app_eq_nil in Ew as [E1 E2].
    destruct (py_eq (get "previous_event_hash" event) p) eqn:Ep; [|done]. destruct (py_eq (get "event_hash" event) _) eqn:Eh; [|done].
    apply py_eq_str in Eh. rewrite Eh in E. assert (Hep : get "previous_event_hash" event = p).
    { destruct Hp as [->|[h' ->]]; [by apply py_eq_null|by apply py_eq_str]. }
    apply IH in E as [Hl Hh]; [|right; by eexists]. split; [|done]. by econstructor.
  - destruct x as [[]| | | | | |]; try done; by intros [[=] _]%Hgo.
Qed.
Definition custody_linked (t id : string) (events head : json) : Prop :=
  ∃ l, events = JList l ∧ linked t id 1 JNull l head.
Lemma verify_custody_linked t id events head : _verify_custody t id events head = Ok [] → custody_linked t id events head.
Proof.
  unfold _verify_custody. destruct events as [| | | | | |l|]; try done. destruct (walk_events t id 1 JNull l) as [[w h]|] eqn:E; [|done]. cbn.
  intros [= Ew]. apply app_eq_nil in Ew as [-> Eh]. apply walk_events_linked in E as [Hl Hh]; [|by left].
  destruct (py_eq head h) eqn:Ee; [|done]. assert (Ehh : head = h) by (destruct Hh as [Hh|[x Hh]]; rewrite Hh in Ee |- *; [by apply py_eq_null|by apply py_eq_str]).
  rewrite Ehh. by exists l.
Qed.

(** ** Objects, records and edges *)

Definition object_held (pkg : string) (s : string * Z) : Prop :=
  is_digest (fst s) = true ∧ ∃ payload, zip_read pkg (object_entry (fst s)) = Ok payload ∧ sha256_hex payload = fst s ∧
    Z.of_nat (String.length payload) = snd s.
(** The object entry [v] declares [s]. *)
Definition declares (v : json) (s : string * Z) : Prop :=
  ∃ d, v = JObj d ∧ get "sha256" d = JStr (fst s) ∧ as_int (get "size_bytes" d) = Some (snd s).
Definition object_step (pkg : string) (sizes : sizes_t) (v : json) (sizes' : sizes_t) : Prop :=
  ∃ s, sizes' = sizes ++ [s] ∧ declares v s ∧ object_held pkg s ∧ fst s ∉ map fst sizes.
Lemma check_object_sound pkg sizes v : sound (check_object pkg sizes v) (object_step pkg sizes v).
Proof.
  unfold check_object. destruct v as [| | | | | | |d]; try apply sound_wrong. destruct (get "sha256" d) as [| | | |digest| | |] eqn:Ed; try apply sound_wrong.
  destruct (is_digest digest) eqn:Hd; cbn [negb]; [|apply sound_wrong]. case_decide as Hin; [apply sound_wrong|].
  destruct (as_int (get "size_bytes" d)) as [size|] eqn:Es; [|apply sound_wrong]. destruct (size <? 0); [apply sound_wrong|].
  destruct (zip_read pkg (object_entry digest)) as [payload|x] eqn:Er.
  - eapply sound_bind; [by apply (sound_unless _ _ (λ _, sha256_hex payload = digest)); intros ?%bool_decide_eq_true|intros []].
    eapply sound_bind; [by apply (sound_unless _ _ (λ _, Z.of_nat (String.length payload) = size)); intros ?%Z.eqb_eq|intros []].
    apply sound_ret. intros Hl Hs. exists (digest, size). split_and!; [done|by exists d|split; [done|]; by exists payload|done].
  - destruct x as [[]| | | | | |]; try apply sound_raise. apply sound_wrong.
Qed.

Definition record_held (t : string) (sizes : sizes_t) (v : json) (id : string) : Prop :=
  id ≠ "" ∧ ∃ d digest size, v = JObj d ∧ get "evidence_id" d = JStr id ∧ get "content_sha256" d = JStr digest ∧
    assoc digest sizes = Some size ∧ py_eq (get "size_bytes" d) (JInt size) = true ∧
    custody_linked t id (get "custody" d) (get "custody_head" d).
Definition record_step (t : string) (sizes : sizes_t) (ids : list string) (v : json) (ids' : list string) : Prop :=
  ∃ id, ids' = ids ++ [id] ∧ record_held t sizes v id ∧ id ∉ ids.
Lemma check_record_sound t sizes ids v : sound (check_record t sizes ids v) (record_step t sizes ids v).
Proof.
  unfold check_record. destruct v as [| | | | | | |d]; try apply sound_wrong. destruct (get "evidence_id" d) as [| | | |id| | |] eqn:Ei; try apply sound_wrong.
  case_decide as Hne; [apply sound_wrong|].
  eapply sound_bind; [by apply (sound_unless _ _ (λ _, id ∉ ids)); intros ?%bool_decide_eq_true|intros []].
  eapply sound_bind; [by apply (sound_from _ (λ b, in_texts (get "content_sha256" d) (map fst sizes) = Ok b))|intros declared].
  eapply (sound_bind _ _ (λ _, ∃ digest size, get "content_sha256" d = JStr digest ∧ assoc digest sizes = Some size ∧
    py_eq (get "size_bytes" d) (JInt size) = true)); [|intros []].
  { destruct declared; [|apply sound_wrong_tt]. destruct (get "content_sha256" d) as [| | | |digest| | |] eqn:Ed; try apply sound_wrong_tt.
    destruct (assoc digest sizes) as [size|] eqn:Ea; [|apply sound_wrong_tt]. apply sound_unless. intros. by exists digest, size. }
  eapply sound_bind; [by apply (sound_from _ (λ l, _verify_custody t id (get "custody" d) (get "custody_head" d) = Ok l))|intros wrong].
  eapply sound_bind; [by apply (sound_say _ (λ _, wrong = []))|intros []].
  apply sound_ret. intros -> Hc (digest & size & Ed & Ea & Es) _ Hn. exists id. split_and!; [done| |done]. split; [done|].
  exists d, digest, size. split_and!; try done. by apply verify_custody_linked.
Qed.

Definition edge_within (ids : list string) (v : json) : Prop :=
  ∃ d source derived, v = JObj d ∧ get "source_evidence_id" d = JStr source ∧ get "derived_evidence_id" d = JStr derived ∧
    source ∈ ids ∧ derived ∈ ids.
Lemma in_texts_true v l : in_texts v l = Ok true → ∃ s, v = JStr s ∧ s ∈ l.
Proof. destruct v; cbn; try done. intros [= K%bool_decide_eq_true]. by eexists. Qed.
Lemma check_edge_sound ids u v : sound (check_edge ids u v) (λ _, edge_within ids v).
Proof.
  unfold check_edge. destruct v as [| | | | | | |d]; try apply sound_wrong_tt.
  eapply sound_bind; [by apply (sound_from _ (λ b, in_texts (get "source_evidence_id" d) ids = Ok b))|intros source].
  eapply sound_bind; [by apply (sound_unless _ _ (λ _, source = true))|intros []].
  eapply sound_bind; [by apply (sound_from _ (λ b, in_texts (get "derived_evidence_id" d) ids = Ok b))|intros derived].
  apply sound_unless. intros -> Hd -> Hs. apply in_texts_true in Hs as (s & Es & Hs). apply in_texts_true in Hd as (x & Ex & Hx).
  by exists d, s, x.
Qed.

(** The loops. *)
Lemma objects_sound pkg l : sound (check_each (check_object pkg) [] l) (λ sizes, Forall2 declares l sizes ∧ Forall (object_held pkg) sizes ∧ NoDup (map fst sizes)).
Proof.
  eapply sound_each; [apply check_object_sound|]. intros sizes Hc.
  assert (K : ∀ a : sizes_t, Forall (object_held pkg) a → NoDup (map fst a) →
    (fix chain (a : sizes_t) l := match l with [] => sizes = a | v :: l => ∃ b, object_step pkg a v b ∧ chain b l end) a l →
    ∃ k, sizes = a ++ k ∧ Forall2 declares l k ∧ Forall (object_held pkg) sizes ∧ NoDup (map fst sizes)).
  { clear Hc. induction l as [|v l IH]; intros a Ha Hn.
    - intros ->. exists []. by rewrite app_nil_r.
    - intros (b & (s & -> & Hd & Hs & Hf) & Hc). destruct (IH (a ++ [s])) as (k & -> & Hk & K2 & K3); [..|done|].
      + apply Forall_app. by split; [|apply Forall_singleton].
      + apply NoDup_map_snoc; [done|]. apply Forall_forall. intros y Hy E. apply Hf. rewrite <- E. by apply list_elem_of_fmap_2.
      + exists (s :: k). rewrite <- app_assoc in *. split_and!; [done|by constructor|done|done]. }
  destruct (K [] (Forall_nil_2 _) NoDup_nil_2 Hc) as (k & -> & Hk & ? & ?). done.
Qed.
Lemma records_sound t sizes l : sound (check_each (check_record t sizes) [] l) (λ ids, Forall2 (record_held t sizes) l ids ∧ NoDup ids).
Proof.
  eapply sound_each; [apply check_record_sound|]. intros ids Hc.
  assert (K : ∀ a : list string, NoDup a →
    (fix chain (a : list string) l := match l with [] => ids = a | v :: l => ∃ b, record_step t sizes a v b ∧ chain b l end) a l →
    ∃ k, ids = a ++ k ∧ Forall2 (record_held t sizes) l k ∧ NoDup ids).
  { clear Hc. induction l as [|v l IH]; intros a Hn.
    - intros ->. exists []. by rewrite app_nil_r.
    - intros (b & (id & -> & Hd & Hf) & Hc). destruct (IH (a ++ [id])) as (k & -> & Hk & K2); [|done|].
      + apply NoDup_app. split_and!; [done|by intros x Hx ->%list_elem_of_singleton|apply NoDup_singleton].
      + exists (id :: k). rewrite <- app_assoc in *. split_and!; [done|by constructor|done]. }
  destruct (K [] NoDup_nil_2 Hc) as (k & -> & Hk & ?). done.
Qed.
Lemma edges_sound ids l : sound (check_each (check_edge ids) tt l) (λ _, Forall (edge_within ids) l).
Proof.
  eapply (sound_each _ (λ _ v _, edge_within ids v)); [intros; apply check_edge_sound|]. intros u Hc.
  revert Hc. generalize tt. induction l as [|v l IH]; intros w Hc; [done|]. destruct Hc as (b & Hb & Hc). constructor; [done|by apply (IH b)].
Qed.

(** ** The manifest *)

(** What holds of the manifest [d] of an accepted package with the entries [names]. *)
Definition manifest_held (pkg : string) (names present : list string) d : Prop :=
  (∃ schema, get "schema" d = JStr schema ∧ schema ∈ export_schemas ∧ (schema = "assurance.evidence_export.v2" → sg = Some true)) ∧
  ∃ t evidence declared edges sizes ids, get "tenant_id" d = JStr t ∧ t ≠ "" ∧
    list_of "evidence" d = Some evidence ∧ list_of "objects" d = Some declared ∧ list_of "lineage" d = Some edges ∧
    (Forall2 declares declared sizes ∧ Forall (object_held pkg) sizes ∧ NoDup (map fst sizes)) ∧
    (∀ n, n ∈ names → n ∈ _REQUIRED_ENTRIES ++ present ++ map (λ s, object_entry (fst s)) sizes) ∧
    (Forall2 (record_held t sizes) evidence ids ∧ NoDup ids) ∧
    requested_within d ids = Ok true ∧ Forall (edge_within ids) edges.

Lemma elem_of_fromkeys x seen l : x ∈ fromkeys seen l ↔ x ∈ l ∧ x ∉ seen.
Proof.
  revert seen. induction l as [|y l IH]; intros seen; cbn [fromkeys]; [set_solver|]. case_decide as Hy.
  - rewrite IH. split; [set_solver|]. intros [[->|?]%elem_of_cons ?]; done.
  - rewrite !elem_of_cons, IH, elem_of_cons. destruct (decide (x = y)) as [->|]; naive_solver.
Qed.
Lemma without_nil l names : nonempty (without l names) = false → ∀ x, x ∈ l → x ∈ names.
Proof.
  unfold without. intros E x Hx. destruct (decide (x ∈ names)); [done|]. assert (K : x ∈ filter (λ x, x ∉ names) l) by by apply list_elem_of_filter.
  destruct (filter _ l); [by apply not_elem_of_nil in K|done].
Qed.
Lemma listed_sound k message d : sound (listed k message d) (λ l, list_of k d = Some l).
Proof. unfold listed. destruct (list_of k d) as [l|]; [by apply sound_ret|apply sound_wrong]. Qed.
Lemma check_manifest_sound pkg names present d : sound (check_manifest pkg names present d) (λ _, manifest_held pkg names present d).
Proof.
  unfold check_manifest.
  eapply sound_bind; [by apply (sound_from _ (λ b, in_texts (get "schema" d) export_schemas = Ok b))|intros known].
  eapply sound_bind; [by apply (sound_unless _ _ (λ _, known = true))|intros []].
  eapply (sound_bind _ _ (λ b, b = bool_decide (sg = Some true))); [by intros c b c' <- [= <- <-]|intros signed].
  eapply sound_bind; [by apply (sound_unless _ _ (λ _, negb (py_eq (get "schema" d) (JStr "assurance.evidence_export.v2")) || signed = true))|intros []].
  eapply (sound_bind _ _ (λ t, get "tenant_id" d = JStr t ∧ t ≠ "")).
  { destruct (get "tenant_id" d) as [| | | |t| | |]; try apply sound_wrong. case_decide; [apply sound_wrong|by apply sound_ret]. }
  intros t. eapply sound_bind; [apply listed_sound|intros evidence]. eapply sound_bind; [apply listed_sound|intros declared].
  eapply sound_bind; [apply listed_sound|intros edges]. eapply sound_bind; [by apply (sound_totals _ _ (λ _, True))|intros []].
  eapply sound_bind; [apply objects_sound|intros sizes].
  eapply sound_bind; [apply (sound_unless _ _ (λ _, ∀ n, n ∈ names → n ∈ _REQUIRED_ENTRIES ++ present ++ map (λ s, object_entry (fst s)) sizes))|intros []].
  { intros E%negb_true_iff n Hn. apply (without_nil _ _ E), elem_of_fromkeys. split; [done|apply not_elem_of_nil]. }
  eapply sound_bind; [apply records_sound|intros ids].
  eapply sound_bind; [by apply (sound_from _ (λ b, requested_within d ids = Ok b))|intros within].
  eapply sound_bind; [by apply (sound_unless _ _ (λ _, within = true))|intros []].
  eapply sound_impl; [apply edges_sound|]. intros [] He -> Hw Hids Hn Hs _ Hl Ho Hev [Ht Hne] Hv2 -> -> Hk.
  apply in_texts_true in Hk as (schema & Es & Hk). split.
  - exists schema. split_and!; [done|done|]. intros ->. rewrite Es in Hv2. cbn in Hv2. by apply bool_decide_eq_true in Hv2.
  - by exists t, evidence, declared, edges, sizes, ids.
Qed.

(** ** The names and the digest *)

Lemma check_names_sound names : sound (check_names names) (λ _, NoDup names ∧ (∀ n, n ∈ names → unsafe_path n = false) ∧
  ∀ n, n ∈ _REQUIRED_ENTRIES → n ∈ names).
Proof.
  unfold check_names. eapply sound_bind; [by apply (sound_unless _ _ (λ _, NoDup names)); intros ?%bool_decide_eq_true|intros []].
  eapply sound_bind; [apply (sound_say _ (λ _, ∀ n, n ∈ names → unsafe_path n = false))|intros []].
  { intros E n Hn. destruct (unsafe_path n) eqn:Hu; [|done]. apply map_eq_nil in E. assert (K : n ∈ List.filter unsafe_path names).
    { apply list_elem_of_In, filter_In. split; [by apply list_elem_of_In|done]. } rewrite E in K. by apply not_elem_of_nil in K. }
  destruct (nonempty (without _REQUIRED_ENTRIES names)) eqn:E; [apply sound_raise|]. apply sound_ret. intros Hs Hn. split_and!; [done..|].
  by apply without_nil.
Qed.
Lemma check_digest_noted manifest line c u c' : check_digest manifest line c = (Ok u, c') →
  signature_ok c' = signature_ok c ∧ (faults c' = [] → faults c = [] ∧ manifest_digest c' = Some (sha256_hex manifest)).
Proof.
  unfold check_digest, unless, say, note_digest, mbind, prog_bind. intros [= _ <-]. cbn. split; [done|].
  intros [[F1 F2]%app_eq_nil F3]%app_eq_nil. split; [done|]. case_bool_decide; done.
Qed.
End checks.

(** ** The signature *)

(** The signature of the package is over its manifest, with the key of the fingerprint
    it names. *)
Definition signed_by (pkg manifest : string) (trusted : option (list (string * string))) : Prop :=
  ∃ document signature embedded pem k text raw,
    zip_read pkg "manifest.signature.json" = Ok document ∧ loads_bytes document = Ok (JObj signature) ∧
    zip_read pkg "manifest.public.pem" = Ok embedded ∧ signature_key trusted (get "key_id" signature) embedded = Ok (inl pem) ∧
    load_pem pem = Ok (Some k) ∧ get "public_key_sha256" signature = JStr (_public_key_fingerprint k) ∧
    dict_get "signature_base64" signature = Some (JStr text) ∧ b64decode text = Some raw ∧ ed_verify k raw manifest = true.
Lemma verify_signature_None payload signature pem : verify_signature payload signature pem = Ok None →
  ∃ k text raw, load_pem pem = Ok (Some k) ∧ get "public_key_sha256" signature = JStr (_public_key_fingerprint k) ∧
    dict_get "signature_base64" signature = Some (JStr text) ∧ b64decode text = Some raw ∧ ed_verify k raw payload = true.
Proof.
  unfold verify_signature, key_of_pem. destruct (negb _); [done|]. destruct (load_pem pem) as [[k|]|x]; cbn [res_bind]; [|done|by destruct x as [[]| | | | | |]].
  destruct (py_eq (get "public_key_sha256" signature) _) eqn:Ef; [|done]. cbn [negb].
  destruct (dict_get "signature_base64" signature) as [[| | | |text| | |]|]; try done. destruct (b64decode text) as [raw|] eqn:Er; [|done].
  destruct (ed_verify k raw payload) eqn:Ev; [|done]. intros _. apply py_eq_str in Ef. by exists k, text, raw.
Qed.
Lemma trusted_key keys key_id embedded pem : signature_key (Some keys) key_id embedded = Ok (inl pem) →
  ∃ id stored, key_id = JStr id ∧ assoc id keys = Some stored ∧ (stored ≠ "" → pem = stored).
Proof.
  unfold signature_key. destruct (negb _); [done|]. destruct key_id as [| | | |id| | |]; try done. cbn.
  destruct (assoc id keys) as [stored|] eqn:Ea; [|done]. intros [= <-]. exists id, stored. split_and!; [done|done|]. intros Hne. by rewrite decide_False.
Qed.
(** Notes the key at most. *)
Lemma signature_verdict_Ok pkg manifest trusted c v c' : signature_verdict pkg manifest trusted c = (v, c') →
  faults c' = faults c ∧ signature_ok c' = signature_ok c ∧ manifest_digest c' = manifest_digest c ∧
  (v = Ok None → signed_by pkg manifest trusted).
Proof.
  unfold signature_verdict, from, note_key, mbind, prog_bind, mret, prog_ret.
  destruct (zip_read pkg "manifest.signature.json") as [document|] eqn:Ed; [|intros [= <- <-]; done].
  destruct (loads_bytes document) as [[| | | | | | |signature]|] eqn:Es; try (intros [= <- <-]; done).
  destruct (zip_read pkg "manifest.public.pem") as [embedded|] eqn:Ee; [|intros [= <- <-]; done].
  destruct (signature_key _ _ _) as [[pem|message]|] eqn:Ek; intros [= <- <-]; cbn; split_and!; try done.
  intros (k & text & raw & ?)%verify_signature_None. by exists document, signature, embedded, pem, k, text, raw.
Qed.
Lemma check_signature_Ok pkg manifest trusted present c u c' : signature_ok c = None →
  check_signature_entries pkg manifest trusted present c = (Ok u, c') →
  manifest_digest c' = manifest_digest c ∧ (faults c' = [] → faults c = [] ∧
    ((signature_ok c' = None ∧ present = []) ∨ (signature_ok c' = Some true ∧ signed_by pkg manifest trusted))).
Proof.
  intros Hn. unfold check_signature_entries. destruct present as [|x present]; cbn [nonempty negb].
  { intros [= _ <-]. split; [done|]. intros ?. split; [done|by left]. }
  destruct (nonempty (without _ _)).
  { intros [= _ <-]. split; [done|]. cbn. by intros [_ ?]%app_eq_nil. }
  unfold mbind at 1, prog_bind at 1. destruct (or_message _ c) as [v c1] eqn:E. unfold or_message in E.
  destruct (signature_verdict pkg manifest trusted c) as [v1 c2] eqn:E1. apply signature_verdict_Ok in E1 as (F1 & S1 & D1 & K1).
  assert (c2 = c1 ∧ (v = Ok None → v1 = Ok None)) as [-> Hv].
  { destruct v1 as [o|[[]| | | | | |]]; by injection E as <- <-. }
  destruct v as [[message|]|]; [| |done].
  - intros [= _ <-]. split; [done|]. cbn. by intros [_ ?]%app_eq_nil.
  - intros [= _ <-]. split; [done|]. cbn. rewrite F1. intros ?. split; [done|]. right. auto.
Qed.

(** ** The package *)

(** An accepted package: its names are distinct, safe and all declared, its manifest has
    the digest it is sealed with and holds, and what it says of a signature is so. *)
Definition package_sound (pkg : string) (trusted : option (list (string * string))) (digest : option string) (sg : option bool) : Prop :=
  ∃ names manifest d, let present := filter (λ x, x ∈ names) _SIGNATURE_ENTRIES in
    zip_names pkg = Ok names ∧ NoDup names ∧ (∀ n, n ∈ names → unsafe_path n = false) ∧ (∀ n, n ∈ _REQUIRED_ENTRIES → n ∈ names) ∧
    zip_read pkg "manifest.json" = Ok manifest ∧ digest = Some (sha256_hex manifest) ∧ loads_bytes manifest = Ok (JObj d) ∧
    ((sg = None ∧ present = []) ∨ (sg = Some true ∧ signed_by pkg manifest trusted)) ∧
    manifest_held sg pkg names present d.
Lemma check_package_sound pkg trusted u c : check_package pkg trusted unchecked = (Ok u, c) → faults c = [] →
  package_sound pkg trusted (manifest_digest c) (signature_ok c).
Proof.
  intros E Hc. unfold check_package in E. apply prog_bind_Ok in E as (names & c1 & E1 & E). unfold from in E1. injection E1 as E1 <-.
  apply prog_bind_Ok in E as (u1 & c2 & E2 & E). apply (check_names_sound None) in E2 as (S2 & D2 & K2); [|done].
  apply prog_bind_Ok in E as (manifest & c3 & E3 & E). injection E3 as E3 <-.
  apply prog_bind_Ok in E as (line & c4 & E4 & E). injection E4 as E4 <-.
  apply prog_bind_Ok in E as (u5 & c5 & E5 & E). apply check_digest_noted in E5 as (S5 & K5).
  apply prog_bind_Ok in E as (u6 & c6 & E6 & E). apply check_signature_Ok in E6 as (D6 & K6); [|by rewrite S5].
  destruct (loads_bytes manifest) as [[| | | | | | |d]|[[]| | | | | |]] eqn:El; try done.
  destruct (check_manifest_sound (signature_ok c6) _ _ _ _ _ _ _ eq_refl E) as (S7 & D7 & K7).
  destruct (K7 Hc) as [F7 Hm]. destruct (K6 F7) as [F6 Hsg]. destruct (K5 F6) as [F5 Hd]. destruct (K2 F5) as [_ (Hn & Hu & Hr)].
  exists names, manifest, d. cbn zeta. rewrite S7, D7, D6. split_and!; done.
Qed.
Lemma verification_of_Ok pkg c v : verification_of pkg c = Ok v → ev_valid v = negb (nonempty (faults c)) ∧ ev_package_sha256 v = pkg ∧
  ev_manifest_sha256 v = manifest_digest c ∧ ev_signature_valid v = signature_ok c ∧ ev_errors v = faults c.
Proof. unfold verification_of. destruct (signing_key c); try done; by intros [= <-]. Qed.
Lemma said_invalid pkg c message v : verification_of pkg (snd (say [message] c)) = Ok v → ev_valid v = false.
Proof. intros (-> & _)%verification_of_Ok. cbn. by destruct (faults c). Qed.
Lemma verified_sound package trusted v : verify_export_package package trusted = Ok v → ev_valid v = true →
  ∃ pkg, package = Some pkg ∧ ev_package_sha256 v = sha256_hex pkg ∧ package_sound pkg trusted (ev_manifest_sha256 v) (ev_signature_valid v).
Proof.
  unfold verify_export_package. destruct package as [pkg|]; [|by intros ->%said_invalid].
  destruct (check_package pkg trusted unchecked) as [[u|x] c] eqn:E.
  - intros (Ev & Ep & Em & Es & _)%verification_of_Ok Hv. exists pkg. rewrite Em, Es. split_and!; [done|done|].
    eapply check_package_sound; [done|]. rewrite Ev in Hv. by destruct (faults c).
  - destruct x as [[]| | | | | |[]]; try done; by intros ->%said_invalid.
Qed.
End spec.

(** ** Histories of operations

    The public operations of the vault, its exports and the admission of bundles among
    them, one after the other: every one is a sequence of steps of the tables and leaves
    the vault well kept. *)

Section operations.
Context `{UuidSource} `{Sha256} `{VaultClock} `{Ed25519} `{ZipFiles} `{JsonBytes} `{IsoTimes} `{ExceptionTexts}.
Implicit Types (w : VaultWorld).

Lemma export_steps signer t ids actor_id purpose include_ancestors :
  prog_keeps advances (create_export signer t ids actor_id purpose include_ancestors).
Proof.
  unfold create_export. destruct (negb _); [auto with steps|]. apply steps_bind; [auto with steps|intros [[selected records] edges]].
  do 3 (apply steps_bind; [auto with steps|intros ?]). apply steps_bind; [auto with steps|intros [pkg m]].
  apply steps_bind; [auto with steps|intros v]. destruct (negb _); [auto with steps|]. apply steps_bind; [auto with steps|intros now].
  apply steps_bind; [|auto with steps]. apply steps_transaction. intros. by eapply exports.
Qed.
Lemma export_stays signer t ids actor_id purpose include_ancestors :
  prog_keeps stays (create_export signer t ids actor_id purpose include_ancestors).
Proof.
  unfold create_export. destruct (negb _); [auto with steps|]. apply stays_bind; [auto with steps|intros [[selected records] edges]].
  apply stays_bind; [auto with steps|intros ?]. apply stays_bind; [apply stays_transaction; [apply guards_ledger|auto with steps]|intros ?].
  apply stays_bind; [auto with steps|intros ?]. apply stays_bind; [auto with steps|intros [pkg m]].
  apply stays_bind; [auto with steps|intros v]. destruct (negb _); [auto with steps|]. apply stays_bind; [auto with steps|intros now].
  apply stays_bind; [|auto with steps]. apply stays_transaction; [apply guards_export_tx|apply none_export_tx].
Qed.
Lemma import_steps v package filed name locator t actor_id trusted engagement class :
  prog_keeps advances (import_signed_bundle v package filed name locator t actor_id trusted engagement class).
Proof.
  unfold import_signed_bundle. apply steps_bind; [auto with steps|intros x]. destruct (_ || _); [auto with steps|].
  destruct filed as [pkg|]; [|auto with steps]. apply steps_bind; [apply ingest_steps|auto with steps].
Qed.
Lemma import_stays v package filed name locator t actor_id trusted engagement class :
  prog_keeps stays (import_signed_bundle v package filed name locator t actor_id trusted engagement class).
Proof.
  unfold import_signed_bundle. apply stays_bind; [auto with steps|intros x]. destruct (_ || _); [auto with steps|].
  destruct filed as [pkg|]; [|auto with steps]. apply stays_bind; [|auto with steps]. intros w r w' E Hw. by eapply ingest_kept in E as [? _].
Qed.

(** ** Histories of whole operations *)

Inductive operation : relation VaultWorld :=
  | op_ingest v r w : operation w (ingest_bytes v r w).2
  | op_derive r w : operation w (create_derivative r w).2
  | op_read t id actor_type actor_id purpose w : operation w (read_bytes t id actor_type actor_id purpose w).2
  | op_verify t id actor_id w : operation w (verify_integrity t id actor_id w).2
  | op_retention t id actor_id until hold reason w : operation w (set_retention t id actor_id until hold reason w).2
  | op_purge t id actor_id reason as_of w : operation w (purge t id actor_id reason as_of w).2
  | op_collect t grace w : operation w (collect_garbage t grace w).2
  | op_export signer t ids actor_id purpose include_ancestors w :
      operation w (create_export signer t ids actor_id purpose include_ancestors w).2
  | op_import v package filed name locator t actor_id trusted engagement class w :
      operation w (import_signed_bundle v package filed name locator t actor_id trusted engagement class w).2
  | op_elsewhere tenants engagements tasks l n w : operation w (mkVaultWorld
      (mkVaultDB tenants engagements tasks (evidence_records (vdb w)) (transformations (vdb w)) (custody_events (vdb w)) l) (objects w) n).
Lemma operation_advances w w' : operation w w' → advances w w'.
Proof.
  intros []; [by eapply ingest_steps, surjective_pairing|by eapply derive_steps, surjective_pairing|by eapply read_steps, surjective_pairing
    |by eapply verify_steps, surjective_pairing|by eapply retention_steps, surjective_pairing|by eapply purge_steps, surjective_pairing
    |by eapply collect_steps, surjective_pairing|by eapply export_steps, surjective_pairing|by eapply import_steps, surjective_pairing|]. apply rtc_once. constructor.
Qed.
Lemma operations_advance w w' : rtc operation w w' → rtc vault_step (vdb w) (vdb w').
Proof. induction 1 as [|w1 w2 w3 Hs _ IH]; [done|]. etrans; [by apply operation_advances|done]. Qed.
Lemma operation_kept w w' : operation w w' → well_kept w → well_kept w'.
Proof.
  intros [] Hw; [by eapply ingest_kept, surjective_pairing|by eapply derive_kept, surjective_pairing|by eapply read_stays, Hw; apply surjective_pairing
    |by eapply verify_stays, Hw; apply surjective_pairing|by eapply retention_stays, Hw; apply surjective_pairing
    |by eapply purge_stays, Hw; apply surjective_pairing|by eapply collect_kept, surjective_pairing
    |by eapply export_stays, Hw; apply surjective_pairing|by eapply import_stays, Hw; apply surjective_pairing|].
  destruct Hw as [[S1 S2 S3 S4] W2 W3]. by split.
Qed.
Lemma operations_kept w w' : rtc operation w w' → well_kept w → well_kept w'.
Proof. induction 1; [done|]. intros. by eauto using operation_kept. Qed.
(** A record keeps its tenant and its digest, and opens for as long as it is active. *)
Lemma operations_keep_open w w' e e' : rtc operation w w' → well_kept w → e ∈ evidence_records (vdb w) → e' ∈ evidence_records (vdb w') →
  eid e' = eid e →
  acquisition e' = acquisition e ∧ (active e' = true → ∃ key payload, storage_key (acquisition e) = Some key ∧
    obj_open (etenant e) key (objects w') = Ok payload ∧ sha256_hex payload = digest e).
Proof.
  intros Hr Hw He He' Ei. pose proof (operations_kept _ _ Hr Hw) as [Hs Ho Hb].
  destruct (vault_steps_sound _ _ (operations_advance _ _ Hr)) as [_ [K _ _]]; [apply Hw|].
  apply list_elem_of_lookup in He as [i Hi]. destruct (K i e Hi) as (e2 & Hi2 & Ea & _).
  assert (e' = e2) as ->.
  { apply (sole_record (vdb w')); [done|by apply list_elem_of_lookup_2 with i|done|]. unfold eid in *. by rewrite Ea. }
  split; [done|]. intros Ha. destruct (Hb e2 He' Ha) as (key & Ek & Hh). destruct (obj_verify_held _ _ _ _ _ Ho Hh) as (o & _ & _ & Eopen & Esha & _).
  rewrite Ea in *. by exists key, (obj_bytes o).
Qed.

Definition fresh_vault (tenants : list string) (engagements : list (string * string)) (tasks : list (string * string * string))
    (l : Ledger) (n : N) : VaultWorld := mkVaultWorld (empty_vault tenants engagements tasks l) ∅ n.
Lemma fresh_well_kept tenants engagements tasks l n : well_kept (fresh_vault tenants engagements tasks l n).
Proof. split; [apply empty_vault_sound|apply orderly_empty|]. by intros e ?%elem_of_nil. Qed.
End operations.
