(* ===== verification/VaultScenario.v ===== *)
(** * Evidence vault: a concrete world

    Instances of what the vault rests on, and two tenants: one acquires a ledger, derives
    an extract of it and exports both under a signature, the other admits the bundle.
    The digest is a polynomial of the characters modulo 2^60, in 64 hexadecimal digits; an archive
    is its entries, each after its length. *)

From Stdlib Require Import Ascii.
From S2P Require Import Prelude Tables PyFloat PyTime Ledger PyCodec Materiality GovIdentity PyText VaultStore VaultService.
From S2P Require Import VaultInvariants VaultHistory VaultExport VaultExportSpec.
Local Open Scope Z_scope.

Module VaultScenario.

Fixpoint hex_text (n : nat) (z : Z) (s : string) : string :=
  match n with O => s | S n => hex_text n (z / 16) (String (hex_digit (z mod 16)) s) end.
#[export] Instance sc_sha : Sha256 := λ s,
  hex_text 64 (fold_left (λ h c, Z.land (h * 33 + ord c) 1152921504606846975) (String.list_ascii_of_string s) 5381) "".
#[export] Instance sc_ids : UuidSource := counting_ids.
Definition today : datetime := 1786000000000000.
Definition day : Z := us_per_day.
#[export] Instance sc_clock : VaultClock := λ n, today + Z.of_N n * day.
#[export] Instance sc_ed : Ed25519 := {|
  private_key := string; public_key := string; public_of := λ k, k; raw_bytes := λ k, k;
  ed_sign := λ k m, k +:+ sc_sha m; ed_verify := λ k s m, bool_decide (s = k +:+ sc_sha m); load_pem := λ pem, Ok (Some pem) |}.
#[export] Instance sc_texts : ExceptionTexts := {| exc_text := λ _, "error" |}.
#[export] Instance sc_times : IsoTimes := {| iso_instant := λ s,
  match List.find (λ n, bool_decide (isoformat (sc_clock n) = s)) (map N.of_nat (seq 0 30)) with
  | Some n => Ok (sc_clock n)
  | None => Err (Py ValueError)
  end |}.

(** Archives. *)
Definition with_length (s : string) : string := pretty (N.of_nat (String.length s)) +:+ ":" +:+ s.
Fixpoint read_length (acc : nat) (s : string) : option (nat * string) :=
  match s with
  | "" => None
  | String c s => if decide (c = ":"%char) then Some (acc, s) else read_length (acc * 10 + Z.to_nat (ord c - 48)) s
  end.
Definition read_field (s : string) : option (string * string) :=
  '(n, s) ← read_length 0 s; Some (String.substring 0 n s, String.substring n (String.length s - n) s).
Fixpoint read_entries (fuel : nat) (s : string) : option (list (string * string)) :=
  match fuel, s with
  | _, "" => Some []
  | O, _ => None
  | S fuel, _ => '(name, s) ← read_field s; '(payload, s) ← read_field s; l ← read_entries fuel s; Some ((name, payload) :: l)
  end.
Definition entries (pkg : string) : Res (list (string * string)) :=
  match read_entries 100 pkg with Some l => Ok l | None => Err (Py BadZipFile) end.
#[export] Instance sc_zip : ZipFiles := {|
  zip_names := λ pkg, let? l := entries pkg in Ok (map fst l);
  zip_read := λ pkg name, let? l := entries pkg in match assoc name l with Some payload => Ok payload | None => Err (Py KeyError) end;
  zip_write := λ l, String.concat "" (map (λ '(name, payload), with_length name +:+ with_length payload) l) |}.

(** ** The vault *)

Definition world0 : VaultWorld := fresh_vault ["ten_a"; "ten_b"] [] [] (empty_ledger today) 0.
Definition vault : EvidenceVault := mkEvidenceVault None.
Definition ledger_request (key : option string) : IngestRequest :=
  mkIngestRequest "ten_a" "ledger of accounts" "upload" "file:///ledger.csv" "alice" "user" None None key (Some "ledger.csv") (Some "text/csv")
    None "internal" None true false None false [].
Definition returned {A} (r : Res A * VaultWorld) (d : A) : A := match r with (Ok a, _) => a | _ => d end.
Definition no_record : EvidenceRecord :=
  mkEvidenceRecord (mkAcquisition "" "" None None None "" "" "" "" "" None None None None None 0 "" None 0 false false [])
    (mkCustody "" None None false None None).

Definition run1 := ingest_bytes vault (ledger_request (Some "k1")) world0.
Definition world1 : VaultWorld := run1.2.
Definition original : EvidenceRecord := returned run1 no_record.
Definition extract_request : DeriveRequest :=
  mkDeriveRequest "ten_a" [eid original; eid original] "two accounts" "extract" "1.0" "worker-1" "service" [] None None None None None None
    true None None [].
Definition run2 := create_derivative extract_request world1.
Definition world2 : VaultWorld := run2.2.
Definition extract : EvidenceRecord := returned run2 no_record.

Example both_filed :
  map eid (evidence_records (vdb world2)) = [eid original; eid extract] ∧ map cst_action (custody_events (vdb world2)) =
    ["acquired"; "used_for_derivation"; "derived"] ∧
  (verify_custody_chain "ten_a" (eid original) world2).1 =
    Ok (mkCustodyVerification (eid original) true 2 (custody_head (vdb world2) "ten_a" (eid original)) None).
Proof. vm_compute. done. Qed.

(** ** The bundle *)

Definition signer : ManifestSigner := mkManifestSigner ("sk" : @private_key sc_ed) "key-1" "sk".
Definition selected_parts := selection "ten_a" [eid extract] true (vdb world2).
Definition selected_objects : Res (list (string * string)) := collect_objects "ten_a" [original; extract] (objects world2).
Definition export_name : string := returned (drawing "exp" world2) "".
Definition manifest_of (sel : Res (list string * list (EvidenceRecord * list EvidenceCustodyEvent) * list EvidenceTransformation))
    (objects : Res (list (string * string))) (now : datetime) : dict :=
  match sel with
  | Ok (_, records, edges) =>
      match objects with
      | Ok objects => export_manifest "assurance.evidence_export.v2" export_name "ten_a" now "audit" [eid extract] records edges objects
      | Err _ => []
      end
  | Err _ => []
  end.
Definition bundle_manifest : dict := manifest_of selected_parts selected_objects (sc_clock (clock_readings world2)).
Definition bundle_text : string := canonical_json (JObj bundle_manifest).
Definition bundle_signature : dict := match signature_document signer bundle_text with Ok d => d | Err _ => [] end.
(** A reader of these two documents. *)
#[export] Instance sc_json : JsonBytes := {| loads_bytes := λ s,
  if decide (s = bundle_text) then Ok (JObj bundle_manifest)
  else if decide (s = canonical_json (JObj bundle_signature)) then Ok (JObj bundle_signature) else Err (Py JSONDecodeError) |}.

Definition run3 := create_export (Some signer) "ten_a" [eid extract] "alice" "audit" true world2.
Definition world3 : VaultWorld := run3.2.
Definition no_verification : ExportVerification := mkExportVerification false "" None 0 0 None None [].
Definition bundle : string := snd (returned run3 (no_verification, "")).
Definition trusted : list (string * string) := [("key-1", "sk")].
Definition run4 := import_signed_bundle vault (Some bundle) (Some bundle) "bundle.zip" "file:///bundle.zip" "ten_b" "bob" trusted None "confidential" world3.
Definition world4 : VaultWorld := run4.2.
Definition admitted : EvidenceRecord := fst (returned run4 (no_record, no_verification)).
Definition admitted_verification : ExportVerification := snd (returned run4 (no_record, no_verification)).

Example bundle_admitted :
  is_ok run4.1 = true ∧ etenant admitted = "ten_b" ∧
  (ev_evidence_count admitted_verification, ev_object_count admitted_verification, ev_signing_key_id admitted_verification) = (2, 2, Some "key-1") ∧
  is_ok (import_signed_bundle vault (Some bundle) (Some bundle) "bundle.zip" "file:///bundle.zip" "ten_b" "bob" [("key-2", "sk")] None "confidential" world3).1 = false.
Proof. vm_compute. done. Qed.

(** A file replaced between the two readings is filed under the digest that was verified. *)
Example replaced_admitted :
  let run := import_signed_bundle vault (Some bundle) (Some "anything") "bundle.zip" "file:///bundle.zip" "ten_b" "bob" trusted None "confidential" world3 in
  let e := fst (returned run (no_record, no_verification)) in
  is_ok run.1 = true ∧ digest e = sha256_hex "anything" ∧ acquisition_key (acquisition e) = Some ("bundle:" +:+ sha256_hex bundle).
Proof. vm_compute. done. Qed.

(** ** How the worlds are reached *)

Lemma returned_Ok {A} (r : Res A * VaultWorld) d : is_ok r.1 = true → r = (Ok (returned r d), r.2).
Proof. destruct r as [[a|x] w]; [done|by intros [=]]. Qed.
Lemma reach1 : rtc operation world0 world1.
Proof. apply rtc_once. exact (op_ingest vault (ledger_request (Some "k1")) world0). Qed.
Lemma reach2 : rtc operation world0 world2.
Proof. eapply rtc_r; [exact reach1|]. exact (op_derive extract_request world1). Qed.
Lemma reach3 : rtc operation world0 world3.
Proof. eapply rtc_r; [exact reach2|]. exact (op_export (Some signer) "ten_a" [eid extract] "alice" "audit" true world2). Qed.

(** ** Retention, and a collection another client works into *)

Definition run5 := set_retention "ten_a" (eid original) "alice" (Some (date_of today)) false "closed" world2.
Definition world5 : VaultWorld := run5.2.
Definition run6 := purge "ten_a" (eid original) "alice" "expired" None world5.
Definition world6 : VaultWorld := run6.2.
Definition original_key : string := default "" (storage_key (acquisition original)).
Definition no_report : GarbageCollectionReport := mkGarbageCollectionReport "" 0 0 0 [].
Lemma later : rtc operation world2 world6.
Proof.
  eapply rtc_l; [|apply rtc_once].
  - exact (op_retention "ten_a" (eid original) "alice" (Some (date_of today)) false "closed" world2).
  - exact (op_purge "ten_a" (eid original) "alice" "expired" None world5).
Qed.
Lemma reach6 : rtc operation world0 world6.
Proof. etrans; [exact reach2|exact later]. Qed.
(** Alone, the collection takes the bytes of the tombstone and no other. *)
Example collected_alone :
  gc_deleted_keys (returned (collect_garbage "ten_a" day world6) no_report) = [original_key].
Proof. vm_compute. done. Qed.
(** Between its survey and its sweep another client acquires the same bytes: the record
    is active, and its object is gone. *)
Definition surveyed := survey "ten_a" day world6.
Definition run7 := ingest_bytes vault (ledger_request None) surveyed.2.
Definition again : EvidenceRecord := returned run7 no_record.
Definition world7 : VaultWorld := (sweep "ten_a" (returned surveyed (0, [])) run7.2).2.
Example collection_races_acquisition :
  is_ok run7.1 = true ∧ (active <$> VaultStore.get (vdb world7) "ten_a" (eid again) false) = Some true ∧
  (verify_integrity "ten_a" (eid again) "checker" world7).1 = Err (Vlt ObjectNotFoundError).
Proof. vm_compute. done. Qed.
End VaultScenario.
