(* ===== verification/VaultProperties.v ===== *)
(** * Evidence vault: properties

    What holds of the vault whatever its clients do: custody that verifies, a past that
    is not taken back, bytes that stay and are not read unrecorded, a collection that
    takes what nobody needs, lineage that is what the derivations say, and bundles that
    are admitted only under a trusted signature. *)

From Stdlib Require Import Ascii.
From S2P Require Import Prelude Tables PyFloat PyTime Ledger PyCodec Materiality GovIdentity PyText VaultStore VaultService.
From S2P Require Import VaultInvariants VaultHistory VaultLineage VaultExport VaultExportSpec VaultScenario.
Local Open Scope Z_scope.

Module VaultProperties.

(** ** Helpers *)

Section helpers.
Context `{UuidSource} `{Sha256} `{VaultClock}.
Implicit Types (db : VaultDB) (e : EvidenceRecord).

Lemma get_any t id b db e : VaultStore.get db t id b = Some e → ∃ e', VaultStore.get db t id true = Some e'.
Proof.
  intros (He & Et & Ei & _)%get_Some. destruct (VaultStore.get db t id true) as [e'|] eqn:E; [by eexists|].
  unfold VaultStore.get, scalar in E. apply head_None in E. exfalso. apply (not_elem_of_nil e). rewrite <- E. apply list_elem_of_filter. done.
Qed.
(** Recording an access fails on a unique key or not at all. *)
Lemma access_outcome t id actor_type actor_id purpose now n db e : VaultStore.get db t id true = Some e →
  match access_tx t id actor_type actor_id purpose now n db with
  | Ok (c, db') => custody_events db' = custody_events db ++ [c] ∧ (cst_tenant_id c, cst_evidence_id c, cst_action c, cst_actor_id c, cst_details c) =
      (t, id, "accessed", actor_id, [("purpose", JStr purpose); ("bytes_read", JInt n)])
  | Err x => x = Py IntegrityError
  end.
Proof.
  intros Hg. destruct (access_tx _ _ _ _ _ _ _ db) as [[c db']|x] eqn:E.
  - apply append_custody_event_Ok in E as (Ef & _ & _ & _ & _ & l & ->). injection Ef as <- <- <- _ <- _ <-. done.
  - unfold access_tx, append_custody_event, reading, on_ledger, zoom, new_id, draw, add_custody_event, reading, mbind, tx_bind, gets in E. cbn in E. rewrite Hg in E. cbn in E.
    unfold mbind, tx_bind, gets, require in E. cbn in E. destruct (_ && _ && _ && _) in E; [done|by injection E].
Qed.
Lemma integrity_held e t key os : orderly os → etenant e = t → storage_key (acquisition e) = Some key → furnishes os (acquisition e) →
  ∃ s, integrity_of e t key os = Ok ("verified", Some s, None).
Proof.
  intros Ho <- Ek (k & Ek' & Hh). rewrite Ek in Ek'. injection Ek' as <-. destruct (obj_verify_held _ _ _ _ _ Ho Hh) as (o & _ & E & _).
  unfold integrity_of. unfold etenant, digest. rewrite E. by eexists.
Qed.
Lemma tc_mono {A} (R R' : relation A) x y : (∀ x y, R x y → R' x y) → tc R x y → tc R' x y.
Proof. intros HR. induction 1; [by apply tc_once, HR|]. eapply tc_l; [by apply HR|done]. Qed.
End helpers.

Section properties.
Context `{UuidSource} `{Sha256} `{VaultClock} `{Ed25519} `{ZipFiles} `{JsonBytes} `{IsoTimes} `{ExceptionTexts}.

(** ** Custody *)


(** C16: Nothing the vault has recorded is taken back, by any interleaving of its clients:
    records keep what was acquired and their order, a tombstone stays as it is, custody
    and derivations are only added to; and a record is tombstoned only under a custody
    event that names a date its retention had run out by, and not under a legal hold. *)
Theorem past_is_kept tenants engagements tasks l db db' :
  rtc vault_step (empty_vault tenants engagements tasks l) db → rtc vault_step db db' →
  (∀ i e, evidence_records db !! i = Some e → ∃ e', evidence_records db' !! i = Some e' ∧ acquisition e' = acquisition e ∧
    (active e = false → e' = e)) ∧
  custody_events db `prefix_of` custody_events db' ∧ transformations db `prefix_of` transformations db' ∧
  ∀ e, e ∈ evidence_records db' → active e = false →
    ∃ day c until, retention_until (custody e) = Some until ∧ until ≤ day ∧ legal_hold (custody e) = false ∧
      c ∈ events_of db' (etenant e) (eid e) ∧ cst_action c = "tombstoned" ∧
      dict_get "effective_date" (cst_details c) = Some (JStr (date_isoformat day)).
Proof.
  intros Hr Hr'. destruct (vault_steps_sound _ _ Hr (empty_vault_sound _ _ _ _)) as [Hs _].
  destruct (vault_steps_sound _ _ Hr' Hs) as [Hs' [K1 K2 K3]]. split_and!; [done..|]. intros e He Ha.
  destruct (vs_purged _ Hs' e He Ha) as (_ & day & c & Hret & Hc & Hac & Hd). unfold retention_allows in Hret.
  destruct (legal_hold (custody e)); [done|]. cbn in Hret. destruct (retention_until (custody e)) as [until|]; [|done].
  exists day, c, until. apply Z.leb_le in Hret. done.
Qed.

(** ** Bytes *)

(** C17: After any sequence of operations, collections of garbage among them, the bytes of an
    active record are there: a check of its integrity finds it verified; and reading it
    gives bytes with its digest and its size, for which an event of the reader has been
    added to its custody, or gives nothing and adds nothing. *)
Theorem reading_is_recorded tenants engagements tasks l n w t id e actor_type actor_id purpose :
  rtc operation (fresh_vault tenants engagements tasks l n) w → VaultStore.get (vdb w) t id false = Some e →
  (∀ key, storage_key (acquisition e) = Some key → ∃ s, integrity_of e t key (objects w) = Ok ("verified", Some s, None)) ∧
  ∃ payload, sha256_hex payload = digest e ∧ Z.of_nat (String.length payload) = size_bytes (acquisition e) ∧
    match read_bytes t id actor_type actor_id purpose w with
    | (Ok given, w') => given = payload ∧ objects w' = objects w ∧ ∃ c, custody_events (vdb w') = custody_events (vdb w) ++ [c] ∧
        (cst_tenant_id c, cst_evidence_id c, cst_action c, cst_actor_id c, cst_details c) =
        (t, id, "accessed", actor_id, [("purpose", JStr purpose); ("bytes_read", JInt (size_bytes (acquisition e)))])
    | (Err x, w') => x = Py IntegrityError ∧ vdb w' = vdb w ∧ objects w' = objects w
    end.
Proof.
  intros Hr Hg. pose proof (operations_kept _ _ Hr (fresh_well_kept _ _ _ _ _)) as [Hs Ho Hb].
  pose proof (get_Some _ _ _ _ _ Hg) as (He & Et & Ei & Ha). specialize (Hb e He (Ha eq_refl)). split.
  { intros key Ek. by apply integrity_held. }
  destruct Hb as (key & Ek & Hh). destruct (obj_verify_held _ _ _ _ _ Ho Hh) as (o & _ & _ & Eopen & Esha & Esize).
  change (evd_tenant_id (acquisition e)) with (etenant e) in Eopen. rewrite Et in Eopen. change (content_sha256 (acquisition e)) with (digest e) in Esha.
  exists (obj_bytes o). split_and!; [done|done|]. destruct (get_any _ _ _ _ _ Hg) as [e' Hg'].
  assert (e' = e) as ->.
  { apply get_Some in Hg' as (He' & _ & Ei' & _). apply (sole_record (vdb w)); [done..|congruence]. }
  unfold read_bytes, _get_active_record, read_session. unfold mbind at 1, prog_bind at 1. rewrite Hg'. cbn [found res_bind]. rewrite Ha by done.
  unfold mbind at 1, prog_bind at 1, prog_res, stored_key. rewrite Ek. unfold mbind at 1, prog_bind at 1, from_store. rewrite Eopen.
  unfold mbind at 1, prog_bind at 1, clock. unfold mbind, prog_bind, in_transaction, commit. cbn [vdb].
  pose proof (access_outcome t id actor_type actor_id purpose (vault_now (clock_readings w)) (Z.of_nat (String.length (obj_bytes o))) _ _ Hg') as Hx.
  destruct (access_tx _ _ _ _ _ _ _ _) as [[c db']|x]; [|done]. destruct Hx as [Hc Hf]. cbn. split_and!; [done|done|].
  exists c. split; [done|]. by rewrite Hf, Esize.
Qed.

(** C21: After any sequence of operations, an acquisition that returns gives a record of the
    tenant with the digest of the bytes; whatever operations follow it, one after the
    other, the record with its identifier is of the same tenant and digest and, for as
    long as it is active, opens to bytes of that digest.  An acquisition whose key is not
    empty and already names a record of the tenant changes nothing: a refusal of the
    inspection is raised first, then one of the engagement and the task it names, and
    otherwise it returns that record if the bytes have its digest and is refused as a
    conflict if not.  An empty key is another matter: it is stored but never looked up. *)
Theorem acquisition_settles tenants engagements tasks l n w v r x w' :
  rtc operation (fresh_vault tenants engagements tasks l n) w → ingest_bytes v r w = (x, w') →
  (∀ e, x = Ok e → e ∈ evidence_records (vdb w') ∧ etenant e = in_tenant_id r ∧ digest e = sha256_hex (in_payload r) ∧
    ∀ w'' e'', rtc operation w' w'' → e'' ∈ evidence_records (vdb w'') → eid e'' = eid e →
      etenant e'' = in_tenant_id r ∧ digest e'' = sha256_hex (in_payload r) ∧
      (active e'' = true → ∃ key payload, storage_key (acquisition e'') = Some key ∧
        obj_open (in_tenant_id r) key (objects w'') = Ok payload ∧ sha256_hex payload = sha256_hex (in_payload r))) ∧
  (∀ k y, in_acquisition_key r = Some k → k ≠ "" → get_by_acquisition_key (vdb w) (in_tenant_id r) k = Some y →
    w' = w ∧ x = (let? _ := inspected v r in let? _ := scope_of (in_tenant_id r) (in_engagement_id r) (in_task_id r) (vdb w) in
      if decide (digest y = sha256_hex (in_payload r)) then Ok y else Err (Vlt AcquisitionConflictError))).
Proof.
  intros Hr E. pose proof (operations_kept _ _ Hr (fresh_well_kept _ _ _ _ _)) as Hw. split.
  - intros e ->. pose proof E as E'. apply ingest_kept in E' as (Hw' & _ & Hd); [|done]. destruct (Hd e eq_refl) as (He & Et & Ed).
    split_and!; [done..|]. intros w'' e'' Hr'' He'' Ei. destruct (operations_keep_open _ _ _ _ Hr'' Hw' He He'' Ei) as [Ea K].
    unfold etenant, digest in *. rewrite !Ea, <- Et, <- Ed. done.
  - intros k y Ek Hk Ey. unfold ingest_bytes in E. unfold mbind at 1, prog_bind at 1, prog_res in E.
    destruct (inspected v r) as [inspection|]; [|by injection E as <- <-]. unfold mbind at 1, prog_bind at 1, read_session at 1 in E.
    destruct (scope_of _ _ _ _) as [scope|]; [|by injection E as <- <-]. unfold mbind at 1, prog_bind at 1, read_session at 1 in E.
    unfold settled in E. rewrite Ek, Ey, decide_False in E by done. cbn. case_decide; injection E as <- <-; done.
Qed.

(** C19: After any sequence of operations, a collection of garbage leaves the database as it
    is.  For a tenant whose name is a safe storage segment, and a grace period that leads
    back to an instant of the calendar, it returns, deletes exactly the tenant's objects
    that no active record of it stores and that were last written no later than that
    instant, reports exactly those, and deletes no other object of any tenant.
    Otherwise it raises OverflowError or, where the period is sound, ValueError, and
    deletes nothing. *)
Theorem collection_exact tenants engagements tasks l n w t grace :
  rtc operation (fresh_vault tenants engagements tasks l n) w →
  let cutoff := vault_now (clock_readings w) - grace in
  match collect_garbage t grace w with
  | (Ok report, w') => in_range cutoff = true ∧ is_segment t = true ∧ vdb w' = vdb w ∧
      (∀ k, k ∈ gc_deleted_keys report ↔ ∃ o, objects w !! (t, k) = Some o ∧ obj_modified_at o ≤ cutoff ∧
        ∀ e, e ∈ evidence_records (vdb w) → etenant e = t → active e = true → storage_key (acquisition e) ≠ Some k) ∧
      ∀ t' k, objects w' !! (t', k) = if decide (t' = t ∧ k ∈ gc_deleted_keys report) then None else objects w !! (t', k)
  | (Err x, w') => vdb w' = vdb w ∧ objects w' = objects w ∧
      x = Py (if in_range cutoff then ValueError else OverflowError) ∧ (in_range cutoff = true → is_segment t = false)
  end.
Proof.
  intros Hr cutoff. pose proof (operations_kept _ _ Hr (fresh_well_kept _ _ _ _ _)) as [_ Ho _]. destruct (in_range cutoff) eqn:Hc.
  2:{ destruct (collect_refused t grace w) as (x & w' & E & Ev & Eo & Ex); [by left|]. rewrite E, Ex. unfold cutoff in Hc. by rewrite Hc. }
  destruct (is_segment t) eqn:Ht.
  2:{ destruct (collect_refused t grace w) as (x & w' & E & Ev & Eo & Ex); [by right|]. rewrite E, Ex. unfold cutoff in Hc. by rewrite Hc. }
  destruct (collect_spec t grace w cutoff Ho Ht) as (report & w' & E & Ev & Hk & Hos); [by apply add_us_back|]. rewrite E. split_and!; try done.
  - intros k. rewrite Hk. unfold collectable. split; intros (o & Ho' & K); exists o; (split; [done|]).
    + destruct K as [Hn Hm]. split; [done|]. intros e He Et Ha Es. apply Hn, active_storage_key. by exists e.
    + destruct K as [Hm Hn]. split; [|done]. intros (e & He & Et & Ha & Es)%active_storage_key. by eapply Hn.
  - intros t' k. rewrite Hos. apply decide_ext. cbn. by rewrite Hk.
Qed.

(** ** Lineage *)

(** C20: In whatever state the clients leave the vault, the lineage of a record has the
    tenant's records that derivations connect with it, through any number of them and in
    either direction, and the derivations among these; the ancestors an export adds are
    the records the requested ones were derived from; and no record is derived from
    itself, through any number of others. *)
Theorem lineage_exact tenants engagements tasks l w t id e :
  rtc vault_step (empty_vault tenants engagements tasks l) (vdb w) → VaultStore.get (vdb w) t id true = Some e →
  let es := all_transformations (vdb w) t in
  (∃ g, lineage t id w = (Ok g, w) ∧
    (∀ x, x ∈ map eid (nodes g) ↔ rtc (related es) id x ∧ is_Some (VaultStore.get (vdb w) t x true)) ∧
    (∀ y, y ∈ edges g ↔ y ∈ es ∧ rtc (related es) id (source_evidence_id y) ∧ rtc (related es) id (derived_evidence_id y))) ∧
  (∀ requested x, x ∈ ancestors es requested ↔ ∃ r, r ∈ requested ∧ rtc (derived_from es) r x) ∧
  ∀ x, ¬ tc (derived_from es) x x.
Proof.
  intros Hr Hg es. destruct (vault_steps_sound _ _ Hr (empty_vault_sound _ _ _ _)) as [Hs _]. split_and!.
  - unfold lineage, read_session. rewrite Hg. cbn [found res_bind]. fold es. eexists. split; [done|]. cbn [nodes edges]. split.
    + intros x. rewrite list_elem_of_fmap. split.
      * intros (y & -> & Hy). apply list_elem_of_omap in Hy as (i & Hi & Ey). pose proof (get_Some _ _ _ _ _ Ey) as (_ & _ & Ei & _).
        rewrite Ei. apply elem_of_sort_by, connected_spec in Hi. by rewrite Ey.
      * intros [Hx [y Ey]]. exists y. split; [by apply get_Some in Ey as (_ & _ & -> & _)|]. apply list_elem_of_omap. exists x.
        split; [|done]. by apply elem_of_sort_by, connected_spec.
    + intros y. unfold edges_within. rewrite list_elem_of_filter, !connected_spec. tauto.
  - intros requested x. apply ancestors_spec.
  - intros x Hx. apply (older_irrefl (vdb w) x Hs), ancestors_older; [done|].
    assert (Hsub : ∀ d y, derived_from es d y → derived_from (transformations (vdb w)) d y).
    { intros d y (z & Hz & Ed & Es). exists z. split; [|done]. apply elem_of_sort_by, list_elem_of_filter in Hz. apply Hz. }
    by apply (tc_mono (derived_from es)).
Qed.

(** ** Bundles *)

(** C18: After any sequence of operations, and where no trusted key is an empty text, a
    bundle is admitted only when the bytes that were verified carry a signature of a
    trusted key over their manifest, with every entry they hold declared and every object,
    record, custody chain and derivation they declare as declared. What is filed is a
    record of the receiving tenant with the digest of what the file held when it was read
    again after the verification: where the file did not change between the two readings,
    the digest of the verified bundle; where it did, of something nobody verified. *)
Theorem admitted_bundle_is_signed tenants engagements tasks l n w v package filed name locator t actor_id trusted engagement class e r w' :
  rtc operation (fresh_vault tenants engagements tasks l n) w → Forall (λ k, snd k ≠ "") trusted →
  import_signed_bundle v package filed name locator t actor_id trusted engagement class w = (Ok (e, r), w') →
  ∃ pkg later, package = Some pkg ∧ filed = Some later ∧ e ∈ evidence_records (vdb w') ∧ etenant e = t ∧
    digest e = sha256_hex later ∧ (filed = package → digest e = ev_package_sha256 r) ∧ ev_package_sha256 r = sha256_hex pkg ∧
    (∃ manifest id pem k raw, zip_read pkg "manifest.json" = Ok manifest ∧ assoc id trusted = Some pem ∧ load_pem pem = Ok (Some k) ∧
      ed_verify k raw manifest = true) ∧
    package_sound pkg (Some trusted) (ev_manifest_sha256 r) (Some true).
Proof.
  intros Hr Hk E. pose proof (operations_kept _ _ Hr (fresh_well_kept _ _ _ _ _)) as Hw. unfold import_signed_bundle in E.
  apply prog_bind_Ok in E as (r' & w1 & E1 & E). injection E1 as E1 <-. destruct (ev_valid r') eqn:Ev; [|done]. cbn [negb orb] in E.
  case_bool_decide as Hsg; [|done]. cbn [negb] in E. destruct (verified_sound _ _ _ E1 Ev) as (pkg & -> & Esha & Hp). destruct filed as [later|]; [|done].
  apply prog_bind_Ok in E as (e' & w2 & E2 & [[= <- <-] ->]%prog_ret_Ok). apply ingest_kept in E2 as (_ & _ & Hd); [|done].
  destruct (Hd _ eq_refl) as (He & Et & Ed). exists pkg, later. rewrite Hsg in Hp. split_and!; try done; [intros [= ->]; by rewrite Ed, Esha|].
  destruct Hp as (names & manifest & d & _ & _ & _ & _ & Em & _ & _ & [[[=] _]|[_ Hsig]] & _).
  destruct Hsig as (document & signature & embedded & pem & k & text & raw & _ & _ & _ & Ekey & Epem & _ & _ & _ & Hver).
  destruct (trusted_key _ _ _ _ Ekey) as (id & stored & _ & Ea & Hst).
  assert (Hne : stored ≠ "").
  { clear -Ea Hk. induction Hk as [|[k' p] trusted Hkp _ IH]; [done|]. cbn in Ea. case_decide; [by injection Ea as <-|by apply IH]. }
  exists manifest, id, stored, k, raw. rewrite <- (Hst Hne) at 2. done.
Qed.
End properties.

(** ** Witnesses *)

Import VaultScenario.

Lemma past_is_kept_witness :
  custody_events (vdb world2) `prefix_of` custody_events (vdb world6) ∧
  ∀ e, e ∈ evidence_records (vdb world6) → active e = false → legal_hold (custody e) = false.
Proof.
  destruct (past_is_kept ["ten_a"; "ten_b"] [] [] (empty_ledger today) (vdb world2) (vdb world6)) as (_ & K & _ & L).
  - exact (operations_advance _ _ reach2).
  - exact (operations_advance _ _ later).
  - split; [exact K|]. intros e He Ha. destruct (L e He Ha) as (? & ? & ? & _ & _ & Hl & _). exact Hl.
Defined.
Lemma reading_is_recorded_witness :
  ∃ payload, sha256_hex payload = digest extract ∧ (read_bytes "ten_a" (eid extract) "user" "carol" "review" world6).1 = Ok payload.
Proof.
  destruct (reading_is_recorded ["ten_a"; "ten_b"] [] [] (empty_ledger today) 0 world6 "ten_a" (eid extract) extract "user" "carol" "review")
    as (_ & payload & Hs & _ & Hr).
  - exact reach6.
  - vm_compute. reflexivity.
  - exists payload. split; [exact Hs|].
    assert (Hok : is_ok (read_bytes "ten_a" (eid extract) "user" "carol" "review" world6).1 = true) by (vm_compute; reflexivity).
    destruct (read_bytes _ _ _ _ _ _) as [[given|x] w']; [destruct Hr as (-> & _); reflexivity|discriminate Hok].
Defined.
Lemma acquisition_settles_witness :
  ingest_bytes vault (ledger_request (Some "k1")) world1 = (Ok original, world1).
Proof.
  destruct (acquisition_settles ["ten_a"; "ten_b"] [] [] (empty_ledger today) 0 world1 vault (ledger_request (Some "k1"))
    (ingest_bytes vault (ledger_request (Some "k1")) world1).1 (ingest_bytes vault (ledger_request (Some "k1")) world1).2) as (_ & K).
  - exact reach1.
  - apply surjective_pairing.
  - destruct (K "k1" original) as [E1 E2]; [reflexivity|discriminate|vm_compute; reflexivity|].
    rewrite (surjective_pairing (ingest_bytes _ _ _)), E1, E2. vm_compute. reflexivity.
Defined.
Lemma collection_exact_witness :
  ∃ report w', collect_garbage "ten_a" day world6 = (Ok report, w') ∧ vdb w' = vdb world6 ∧ original_key ∈ gc_deleted_keys report.
Proof.
  pose proof (collection_exact ["ten_a"; "ten_b"] [] [] (empty_ledger today) 0 world6 "ten_a" day reach6) as K.
  assert (Hr : gc_deleted_keys (returned (collect_garbage "ten_a" day world6) no_report) = [original_key]) by exact collected_alone.
  destruct (collect_garbage "ten_a" day world6) as [[report|x] w'].
  - destruct K as (_ & _ & Ev & _). exists report, w'. split; [reflexivity|]. split; [exact Ev|]. cbn [returned] in Hr. rewrite Hr. left.
  - exfalso. revert Hr. cbn. discriminate.
Defined.
Lemma lineage_exact_witness : ∃ g, lineage "ten_a" (eid original) world6 = (Ok g, world6) ∧ eid extract ∈ map eid (nodes g).
Proof.
  destruct (lineage_exact ["ten_a"; "ten_b"] [] [] (empty_ledger today) world6 "ten_a" (eid original)
    (default no_record (VaultStore.get (vdb world6) "ten_a" (eid original) true))) as ((g & E & Hn & _) & _).
  - exact (operations_advance _ _ reach6).
  - vm_compute. reflexivity.
  - exists g. split; [exact E|]. apply Hn. split; [|vm_compute; by eexists]. apply rtc_once. right.
    destruct (all_transformations (vdb world6) "ten_a") as [|t l] eqn:Et; [exfalso; revert Et; vm_compute; discriminate|].
    exists t. split; [left|]. revert Et. vm_compute. intros [= <- <-]. split; reflexivity.
Defined.
Lemma admitted_bundle_is_signed_witness :
  etenant admitted = "ten_b" ∧ digest admitted = sha256_hex bundle ∧
  package_sound bundle (Some trusted) (ev_manifest_sha256 admitted_verification) (Some true).
Proof.
  destruct (admitted_bundle_is_signed ["ten_a"; "ten_b"] [] [] (empty_ledger today) 0 world3 vault (Some bundle) (Some bundle) "bundle.zip"
    "file:///bundle.zip" "ten_b" "bob" trusted None "confidential" admitted admitted_verification world4)
    as (pkg & later & Ep & El & _ & Et & Ed & _ & _ & _ & Hp).
  - exact reach3.
  - constructor; [discriminate|constructor].
  - unfold admitted, admitted_verification. rewrite <- surjective_pairing.
    change (run4 = (Ok (returned run4 (no_record, no_verification)), snd run4)). apply returned_Ok. vm_compute. reflexivity.
  - apply (inj Some) in Ep, El. rewrite <- Ep in Hp. rewrite <- El in Ed. split; [exact Et|]. split; [exact Ed|exact Hp].
Defined.
End VaultProperties.
