(* ===== verification/GovTelemetry.v ===== *)
(** * Governance: traces

    telemetry.py: the spans of a reasoning chain, the tracer that records them, and
    the checks a chain is read with.  A span is an object the tracer keeps changing
    while it is open: the chain is the list of spans in creation order, and the stack
    holds the places of the open ones.  The clocks, the drawn identifiers, the
    exporter's own identifiers and the text of an exception are the environment;
    every reading of it takes the next number. *)

From S2P Require Import Prelude PyFloat PyTime Ledger PyText.
Local Open Scope Z_scope.

Record RecordedSpan := mkRecordedSpan {
  span_name : string;
  span_trace_id : string;
  span_id : string;
  parent_span_id : option string;
  started_at : datetime;
  span_sequence : nat;
  ended_at : option datetime;
  span_status : string;
  status_message : string;
  attributes : dict;
  span_events : list dict
}.

Record AgentTracer := mkAgentTracer {
  trace_id : string;
  chain : list RecordedSpan;
  open_spans : list nat;
  draws : N
}.

Class Observability := {
  now_at : N → datetime;
  hex_at : nat → N → string;
  elapsed_ms : N → float;
  exported_ids : N → option (string * string);
  exn_text : exn → string
}.

(** ** Reading a chain *)

(** [duration_ms]. *)
Definition duration_ms (s : RecordedSpan) : option float :=
  (λ e, fmul (int_truediv (e - started_at s) us_per_second) (float_of_Z 1000)) <$> ended_at s.
Definition span_as_dict (s : RecordedSpan) : dict :=
  [("name", JStr (span_name s)); ("trace_id", JStr (span_trace_id s)); ("span_id", JStr (span_id s));
   ("parent_span_id", opt_json (parent_span_id s)); ("sequence", JInt (Z.of_nat (span_sequence s)));
   ("started_at", JStr (isoformat (started_at s)));
   ("ended_at", match ended_at s with Some t => JStr (isoformat t) | None => JNull end);
   ("duration_ms", match duration_ms s with Some f => JFloat f | None => JNull end);
   ("status", JStr (span_status s)); ("status_message", JStr (status_message s));
   ("attributes", JObj (attributes s)); ("events", JList (map JObj (span_events s)))].
Definition traceparent (s : RecordedSpan) : string := "00-" +:+ span_trace_id s +:+ "-" +:+ span_id s +:+ "-01".

Definition by_sequence (l : list RecordedSpan) : list RecordedSpan := sort_by (cmp_on span_sequence Nat.compare) l.
Definition known_ids (l : list RecordedSpan) : list string := map span_id l.
Definition parent_known (l : list RecordedSpan) (s : RecordedSpan) : bool :=
  match parent_span_id s with Some p => bool_decide (p ∈ known_ids l) | None => true end.
Definition is_root (l : list RecordedSpan) (s : RecordedSpan) : bool :=
  match parent_span_id s with Some p => negb (bool_decide (p ∈ known_ids l)) | None => true end.
Definition roots (l : list RecordedSpan) : list RecordedSpan := by_sequence (filter (λ s, is_root l s = true) l).
Definition children_of (l : list RecordedSpan) (id : string) : list RecordedSpan :=
  by_sequence (filter (λ s, parent_span_id s = Some id) l).
Definition is_well_formed (l : list RecordedSpan) : bool :=
  nonempty l && forallb (λ s, match ended_at s with Some _ => true | None => false end) l &&
  bool_decide (length (remove_dups (map span_trace_id l)) = 1%nat) && forallb (parent_known l) l.
Definition is_denial (s : RecordedSpan) : bool :=
  match get "assuranceos.decision" (attributes s) with JStr d => bool_decide (d = "deny") | _ => false end.
Definition denials (l : list RecordedSpan) : list RecordedSpan := filter (λ s, is_denial s = true) l.
Definition chain_as_dict (t : AgentTracer) : dict :=
  [("trace_id", JStr (trace_id t)); ("span_count", JInt (zlen (chain t))); ("well_formed", JBool (is_well_formed (chain t)));
   ("denial_count", JInt (zlen (denials (chain t)))); ("spans", JList (map (λ s, JObj (span_as_dict s)) (chain t)))].
(** [summarize_chains]. *)
Definition summarize_chains (l : list (list RecordedSpan)) : dict :=
  [("chain_count", JInt (zlen l)); ("span_count", JInt (foldr Z.add 0 (map zlen l)));
   ("denial_count", JInt (foldr Z.add 0 (map (λ c, zlen (denials c)) l)));
   ("all_well_formed", JBool (forallb is_well_formed l))].

(** [genai_attributes]. *)
Definition genai_attributes (model operation system : string) (input_tokens output_tokens : option Z) (temperature : option float) : dict :=
  [("gen_ai.system", JStr system); ("gen_ai.operation.name", JStr operation); ("gen_ai.request.model", JStr model)] ++
  (match input_tokens with Some n => [("gen_ai.usage.input_tokens", JInt n)] | None => [] end) ++
  (match output_tokens with Some n => [("gen_ai.usage.output_tokens", JInt n)] | None => [] end) ++
  (match temperature with Some f => [("gen_ai.request.temperature", JFloat f)] | None => [] end).
(** [audit_log_record] at [now]. *)
Definition audit_log_record (now : datetime) (trace span tenant actor action outcome : string) (extra : dict) : dict :=
  let denied := bool_decide (outcome = "deny") in
  [("Timestamp", JStr (isoformat now)); ("TraceId", JStr trace); ("SpanId", JStr span);
   ("SeverityText", JStr (if denied then "ERROR" else "INFO")); ("SeverityNumber", JInt (if denied then 17 else 9));
   ("Body", JStr (action +:+ " " +:+ outcome));
   ("Attributes", JObj (dict_update [("enduser.id", JStr actor); ("assuranceos.tenant_id", JStr tenant);
      ("assuranceos.action", JStr action); ("assuranceos.outcome", JStr outcome)] extra))].

(** ** Programs that are traced *)

(** A program over a tracer and a world [R], which returns or raises an [E]. *)
Record Scene (R : Type) := mkScene { tracer : AgentTracer; world : R }.
Arguments mkScene {R}.
Arguments tracer {R}.
Arguments world {R}.
Definition Traced (R E A : Type) : Type := Scene R → (A + E) * Scene R.
#[export] Instance traced_ret R E : MRet (Traced R E) := λ A a s, (inl a, s).
#[export] Instance traced_bind R E : MBind (Traced R E) := λ A B f m s,
  match m s with
  | (inl a, s') => f a s'
  | (inr e, s') => (inr e, s')
  end.

Definition throw {R E A} (e : E) : Traced R E A := λ s, (inr e, s).
Definition ask {R E A} (f : R → A) : Traced R E A := λ s, (inl (f (world s)), s).
Definition change {R E} (f : R → R) : Traced R E unit := λ s, (inl tt, mkScene (tracer s) (f (world s))).
Definition on_tracer {R E} (f : AgentTracer → AgentTracer) : Traced R E unit := λ s, (inl tt, mkScene (f (tracer s)) (world s)).
Definition look {R E A} (f : AgentTracer → A) : Traced R E A := λ s, (inl (f (tracer s)), s).
Definition tick : AgentTracer → AgentTracer := λ t, mkAgentTracer (trace_id t) (chain t) (open_spans t) (draws t + 1).
(** A reading of the environment. *)
Definition reading {R E A} (f : N → A) : Traced R E A := n ← look draws; on_tracer tick ;; mret (f n).
Definition if_raises {R E A} (m : Traced R E A) (h : E → Traced R E A) : Traced R E A := λ s,
  match m s with
  | (inr e, s') => h e s'
  | r => r
  end.
Definition when_ {R E} (b : bool) (m : Traced R E unit) : Traced R E unit := if b then m else mret tt.

(** ** The tracer *)

Definition with_attributes (f : dict → dict) (s : RecordedSpan) : RecordedSpan :=
  mkRecordedSpan (span_name s) (span_trace_id s) (span_id s) (parent_span_id s) (started_at s) (span_sequence s) (ended_at s)
    (span_status s) (status_message s) (f (attributes s)) (span_events s).
Definition with_status (status message : string) (s : RecordedSpan) : RecordedSpan :=
  mkRecordedSpan (span_name s) (span_trace_id s) (span_id s) (parent_span_id s) (started_at s) (span_sequence s) (ended_at s)
    status message (attributes s) (span_events s).
Definition with_end (t : datetime) (s : RecordedSpan) : RecordedSpan :=
  mkRecordedSpan (span_name s) (span_trace_id s) (span_id s) (parent_span_id s) (started_at s) (span_sequence s) (Some t)
    (span_status s) (status_message s) (attributes s) (span_events s).
Definition with_event (e : dict) (s : RecordedSpan) : RecordedSpan :=
  mkRecordedSpan (span_name s) (span_trace_id s) (span_id s) (parent_span_id s) (started_at s) (span_sequence s) (ended_at s)
    (span_status s) (status_message s) (attributes s) (span_events s ++ [e]).

Definition change_span (i : nat) (f : RecordedSpan → RecordedSpan) (t : AgentTracer) : AgentTracer :=
  mkAgentTracer (trace_id t) (alter f i (chain t)) (open_spans t) (draws t).
(** [current_span], as its place. *)
Definition current_span (t : AgentTracer) : option nat := head (open_spans t).
Definition change_current (f : RecordedSpan → RecordedSpan) (t : AgentTracer) : AgentTracer :=
  match current_span t with Some i => change_span i f t | None => t end.

(** [d.setdefault(k, v)], and the items that are not [None]. *)
Definition set_default (k : string) (v : json) (d : dict) : dict := match dict_get k d with Some _ => d | None => d ++ [(k, v)] end.
Definition present (d : dict) : dict := List.filter (λ '(_, v), match v with JNull => false | _ => true end) d.

Section tracer.
Context `{Observability} {R E : Type}.

(** [tracer.event], [tracer.deny], [tracer.allow]. *)
Definition event (name : string) (attrs : dict) : Traced R E unit :=
  current ← look current_span;
  match current with
  | Some i =>
      now ← reading now_at;
      on_tracer (change_span i (with_event [("name", JStr name); ("timestamp", JStr (isoformat now)); ("attributes", JObj (present attrs))]))
  | None => mret tt
  end.
Definition deny (reason : string) : Traced R E unit :=
  on_tracer (change_current (λ s, with_status "error" reason (with_attributes (λ d,
    dict_set "assuranceos.denial_reason" (JStr reason) (dict_set "assuranceos.decision" (JStr "deny") d)) s))).
Definition allow : Traced R E unit :=
  on_tracer (change_current (with_attributes (dict_set "assuranceos.decision" (JStr "allow")))).

(** The span [tracer.span] opens: its place. *)
Definition new_span (name id : string) (now : datetime) (attrs : dict) (t : AgentTracer) : RecordedSpan :=
  let parent := i ← current_span t; s ← chain t !! i; Some (span_id s) in
  let attrs := set_default "assuranceos.span_id" (JStr id) (set_default "assuranceos.trace_id" (JStr (trace_id t)) (present attrs)) in
  mkRecordedSpan name (trace_id t) id parent now (length (chain t)) None "unset" ""
    (if truthy parent then set_default "assuranceos.parent_span_id" (opt_json parent) attrs else attrs) [].
Definition push_span (s : RecordedSpan) (t : AgentTracer) : AgentTracer :=
  mkAgentTracer (trace_id t) (chain t ++ [s]) (length (chain t) :: open_spans t) (draws t).
Definition open_span (name : string) (attrs : dict) : Traced R E nat :=
  id ← reading (hex_at 8);
  now ← reading now_at;
  place ← look (λ t, length (chain t));
  on_tracer (λ t, push_span (new_span name id now attrs t) t) ;;
  mret place.
(** [_record_exported_ids], and the bridge that opens a span of the exporter. *)
Definition _record_exported_ids (i : nat) : Traced R E unit :=
  ids ← reading exported_ids;
  match ids with
  | Some (t, s) => on_tracer (change_span i (with_attributes (λ d, dict_set "otel.span_id" (JStr s) (dict_set "otel.trace_id" (JStr t) d))))
  | None => mret tt
  end.
(** What [finally] does: the span ends, and the innermost open span is popped. *)
Definition close_span (i : nat) : Traced R E unit :=
  now ← reading now_at;
  elapsed ← reading elapsed_ms;
  on_tracer (λ t, change_span i (λ s, with_attributes (set_default "assuranceos.duration_ms" (JFloat elapsed)) (with_end now s)) t) ;;
  on_tracer (λ t, mkAgentTracer (trace_id t) (chain t) (tail (open_spans t)) (draws t)).
Definition settle (s : RecordedSpan) : RecordedSpan := if decide (span_status s = "unset") then with_status "ok" (status_message s) s else s.

(** [with tracer.span(name, **attrs) as span: body]; [text] is [f"{type(exc).__name__}: {exc}"]. *)
Definition span {A} (text : E → string) (name : string) (attrs : dict) (body : nat → Traced R E A) : Traced R E A :=
  i ← open_span name attrs;
  r ← if_raises (_record_exported_ids i ;; body i)
        (λ e, on_tracer (change_span i (with_status "error" (text e))) ;; close_span i ;; throw e);
  on_tracer (change_span i settle) ;;
  close_span i ;;
  mret r.
End tracer.

(** ** Every chain is well formed *)

(** A tracer is sound: the spans of its chain are in creation order, of its own trace,
    each under an earlier span, and exactly the open ones have not ended. *)
Record sound (t : AgentTracer) : Prop := mk_sound {
  sound_span : ∀ i s, chain t !! i = Some s →
    span_trace_id s = trace_id t ∧ span_sequence s = i ∧ (ended_at s = None ↔ i ∈ open_spans t) ∧
    (∀ p, parent_span_id s = Some p → ∃ j s', (j < i)%nat ∧ chain t !! j = Some s' ∧ span_id s' = p);
  sound_open : Forall (λ i, (i < length (chain t))%nat) (open_spans t);
  sound_nodup : NoDup (open_spans t)
}.
Definition new_tracer (id : string) : AgentTracer := mkAgentTracer id [] [] 0.
Lemma new_tracer_sound id : sound (new_tracer id).
Proof. split; [done|constructor|constructor]. Qed.

(** A program that leaves the tracer as sound as it finds it, with the same spans open
    and no fewer of them. *)
Definition balanced {R E A} (m : Traced R E A) : Prop := ∀ s, sound (tracer s) →
  sound (tracer (snd (m s))) ∧ open_spans (tracer (snd (m s))) = open_spans (tracer s) ∧
  trace_id (tracer (snd (m s))) = trace_id (tracer s) ∧ (length (chain (tracer s)) ≤ length (chain (tracer (snd (m s)))))%nat.

(** A change of a span that keeps what the chain is made of. *)
Definition keeps_span (f : RecordedSpan → RecordedSpan) : Prop := ∀ s,
  span_trace_id (f s) = span_trace_id s ∧ span_sequence (f s) = span_sequence s ∧ ended_at (f s) = ended_at s ∧
  parent_span_id (f s) = parent_span_id s ∧ span_id (f s) = span_id s.

Create HintDb traced.

Section balanced.
Context {R E : Type}.

Lemma balanced_ret {A} (a : A) : balanced (R:=R) (E:=E) (mret a).
Proof. by intros s Hs. Qed.
Lemma balanced_throw {A} (e : E) : balanced (R:=R) (A:=A) (throw e).
Proof. by intros s Hs. Qed.
Lemma balanced_ask {A} (f : R → A) : balanced (E:=E) (ask f).
Proof. by intros s Hs. Qed.
Lemma balanced_change (f : R → R) : balanced (E:=E) (change f).
Proof. by intros s Hs. Qed.
Lemma balanced_look {A} (f : AgentTracer → A) : balanced (R:=R) (E:=E) (look f).
Proof. by intros s Hs. Qed.
Lemma balanced_bind {A B} (m : Traced R E A) (f : A → Traced R E B) :
  balanced m → (∀ a, balanced (f a)) → balanced (m ≫= f).
Proof.
  intros Hm Hf s Hs. specialize (Hm s Hs). unfold mbind, traced_bind. destruct (m s) as [[a|e] s']; cbn in *; [|exact Hm].
  destruct Hm as (H1 & H2 & H3 & H4). destruct (Hf a s' H1) as (K1 & K2 & K3 & K4). split_and!; [done|congruence..|lia].
Qed.
Lemma balanced_if_raises {A} (m : Traced R E A) (h : E → Traced R E A) :
  balanced m → (∀ e, balanced (h e)) → balanced (if_raises m h).
Proof.
  intros Hm Hh s Hs. specialize (Hm s Hs). unfold if_raises. destruct (m s) as [[a|e] s']; cbn in *; [exact Hm|].
  destruct Hm as (H1 & H2 & H3 & H4). destruct (Hh e s' H1) as (K1 & K2 & K3 & K4). split_and!; [done|congruence..|lia].
Qed.
Lemma balanced_when b (m : Traced R E unit) : balanced m → balanced (when_ b m).
Proof. destruct b; [done|intros _; apply balanced_ret]. Qed.

Lemma sound_change_span i f t : keeps_span f → sound t → sound (change_span i f t).
Proof.
  intros Hf [Hs Ho Hn]. split; cbn [chain open_spans change_span]; [|by rewrite length_alter|done].
  assert (Hback : ∀ j s, alter f i (chain t) !! j = Some s → ∃ s0, chain t !! j = Some s0 ∧ (s = s0 ∨ s = f s0)).
  { intros j s. rewrite list_lookup_alter. case_decide; [subst j|by eauto]. destruct (chain t !! i) eqn:Ei; cbn; [intros [= <-]; eauto|done]. }
  assert (Hforth : ∀ j s, chain t !! j = Some s → ∃ s', alter f i (chain t) !! j = Some s' ∧ span_id s' = span_id s).
  { intros j s Hj. rewrite list_lookup_alter. case_decide; [subst j|by eauto]. rewrite Hj. exists (f s). split; [done|apply Hf]. }
  intros j s Hj. apply Hback in Hj as (s0 & Hj & Hs0). destruct (Hs _ _ Hj) as (H1 & H2 & H3 & H4).
  assert (span_trace_id s = span_trace_id s0 ∧ span_sequence s = span_sequence s0 ∧ ended_at s = ended_at s0 ∧
    parent_span_id s = parent_span_id s0) as (-> & -> & -> & ->) by (destruct Hs0 as [->| ->]; [done|]; destruct (Hf s0); tauto).
  split_and!; try done. intros p Hp. destruct (H4 p Hp) as (k & s' & Hk & Hl & <-).
  destruct (Hforth _ _ Hl) as (s'' & Hl' & E'). exists k, s''. done.
Qed.
Lemma sound_tick t : sound t → sound (tick t).
Proof. by intros [Hs Ho Hn]; split. Qed.

Lemma balanced_reading {A} (f : N → A) : balanced (R:=R) (E:=E) (reading f).
Proof. intros s Hs. cbn. split; [by apply sound_tick|done]. Qed.
Lemma balanced_change_span i f : keeps_span f → balanced (R:=R) (E:=E) (on_tracer (change_span i f)).
Proof. intros Hf s Hs. cbn. split; [by apply sound_change_span|]. by rewrite length_alter. Qed.
Lemma balanced_change_current f : keeps_span f → balanced (R:=R) (E:=E) (on_tracer (change_current f)).
Proof.
  intros Hf s Hs. cbn. unfold change_current. destruct (current_span (tracer s)) as [i|]; [|done].
  split; [by apply sound_change_span|]. cbn. by rewrite length_alter.
Qed.
Lemma keeps_attributes f : keeps_span (with_attributes f).
Proof. by intros s. Qed.
Lemma keeps_status a b : keeps_span (with_status a b).
Proof. by intros s. Qed.
Lemma keeps_event e : keeps_span (with_event e).
Proof. by intros s. Qed.
Lemma keeps_settle : keeps_span settle.
Proof. intros s. unfold settle. by case_decide. Qed.
Lemma keeps_comp f g : keeps_span f → keeps_span g → keeps_span (λ s, f (g s)).
Proof. intros Hf Hg s. destruct (Hf (g s)) as (-> & -> & -> & -> & ->). apply Hg. Qed.
End balanced.

#[export] Hint Resolve balanced_ret balanced_throw balanced_ask balanced_change balanced_look balanced_when balanced_reading
  balanced_change_span balanced_change_current keeps_attributes keeps_status keeps_event keeps_settle : traced.
#[export] Hint Extern 2 (balanced (_ ≫= _)) => (apply balanced_bind; [|intros ?]) : traced.
#[export] Hint Extern 2 (balanced (mbind _ _)) => (apply balanced_bind; [|intros ?]) : traced.
#[export] Hint Extern 2 (balanced (if_raises _ _)) => (apply balanced_if_raises; [|intros ?]) : traced.
#[export] Hint Extern 3 (balanced (if ?b then _ else _)) => (destruct b) : traced.
#[export] Hint Extern 3 (balanced (match ?b with _ => _ end)) => (destruct b) : traced.

Section span_balanced.
Context `{Observability} {R E : Type}.

Lemma balanced_event name attrs : balanced (R:=R) (E:=E) (event name attrs).
Proof. unfold event. auto 10 with traced. Qed.
Lemma balanced_deny reason : balanced (R:=R) (E:=E) (deny reason).
Proof.
  apply balanced_change_current. apply (keeps_comp (with_status "error" reason)); auto with traced.
Qed.
Lemma balanced_allow : balanced (R:=R) (E:=E) allow.
Proof. apply balanced_change_current. auto with traced. Qed.
Lemma balanced_exported i : balanced (R:=R) (E:=E) (_record_exported_ids i).
Proof. unfold _record_exported_ids. auto 10 with traced. Qed.
End span_balanced.
#[export] Hint Resolve balanced_event balanced_deny balanced_allow balanced_exported : traced.

Section span_sound.
Context `{Observability} {R E : Type}.

Lemma sound_push name id now attrs t : sound t → sound (push_span (new_span name id now attrs t) t).
Proof.
  intros Hs. pose proof Hs as [H1 H2 H3].
  assert (Hn : length (chain t) ∉ open_spans t).
  { intros Hin. rewrite Forall_forall in H2. specialize (H2 _ Hin). lia. }
  split; cbn [chain open_spans push_span trace_id].
  - intros i s [Hl|[Hge Hi]]%lookup_app_Some.
    + destruct (H1 _ _ Hl) as (E1 & E2 & E3 & E4). apply lookup_lt_Some in Hl. split_and!; [done|done| |].
      * rewrite E3, elem_of_cons. split; [by right|intros [->|]; [lia|done]].
      * intros p Hp. destruct (E4 p Hp) as (j & s' & Hj & Hl' & Hid). exists j, s'. split; [done|]. split; [by apply lookup_app_l_Some|done].
    + destruct (i - length (chain t))%nat as [|k] eqn:Ek; [|done]. cbn in Hi. injection Hi as <-.
      assert (i = length (chain t)) as -> by lia.
      cbn. split_and!; [done|done|split; [by left|done]|].
      intros p Hp. unfold current_span in Hp. destruct (open_spans t) as [|j rest] eqn:Eo; [done|]. cbn in Hp.
      destruct (chain t !! j) as [s'|] eqn:Ej; [|done]. cbn in Hp. injection Hp as <-. exists j, s'.
      pose proof (lookup_lt_Some _ _ _ Ej). split; [done|]. split; [by apply lookup_app_l_Some|done].
  - rewrite length_app. cbn. constructor; [lia|]. eapply Forall_impl; [exact H2|]. cbn. lia.
  - by constructor.
Qed.

Lemma sound_close now elapsed i t rest : sound t → open_spans t = i :: rest →
  sound (mkAgentTracer (trace_id t)
    (alter (λ s, with_attributes (set_default "assuranceos.duration_ms" (JFloat elapsed)) (with_end now s)) i (chain t)) rest (draws t)).
Proof.
  intros [H1 H2 H3] Eo. rewrite Eo in *. apply NoDup_cons in H3 as [Hi H3]. apply Forall_cons in H2 as [_ H2].
  split; cbn [chain open_spans trace_id]; [|by rewrite length_alter|done].
  intros j s Hj. rewrite list_lookup_alter in Hj.
  assert (Hp : ∀ p, (∃ k s', (k < j)%nat ∧ chain t !! k = Some s' ∧ span_id s' = p) →
    ∃ k s', (k < j)%nat ∧ alter (λ s, with_attributes (set_default "assuranceos.duration_ms" (JFloat elapsed)) (with_end now s)) i (chain t) !! k = Some s' ∧ span_id s' = p).
  { intros p (k & s' & Hk & Hl & Hid). exists k. rewrite list_lookup_alter. destruct (decide (i = k)) as [<-|]; [rewrite Hl; eexists; split; [done|]; by split|by eauto]. }
  case_decide as Eij.
  - subst j. destruct (chain t !! i) as [s0|] eqn:E0; [|done]. cbn in Hj. injection Hj as <-. destruct (H1 _ _ E0) as (E1 & E2 & E3 & E4).
    cbn. split_and!; [done|done|split; [done|by intros ?]|auto].
  - destruct (H1 _ _ Hj) as (E1 & E2 & E3 & E4). split_and!; [done|done| |auto]. rewrite E3, elem_of_cons. split; [intros [|]; [by subst|done]|by right].
Qed.

(** What a span does: it opens, its body runs, and it is ended and popped. *)
Definition opened (name : string) (attrs : dict) (s : Scene R) : Scene R :=
  let t := tracer s in let t2 := tick (tick t) in
  mkScene (push_span (new_span name (hex_at 8 (draws t)) (now_at (draws (tick t))) attrs t2) t2) (world s).
Definition closed (i : nat) (f : RecordedSpan → RecordedSpan) (s : Scene R) : Scene R :=
  let t := tick (tick (change_span i f (tracer s))) in
  mkScene (mkAgentTracer (trace_id t)
    (alter (λ x, with_attributes (set_default "assuranceos.duration_ms" (JFloat (elapsed_ms (draws (tick (tracer s))))))
      (with_end (now_at (draws (tracer s))) x)) i (chain t)) (tail (open_spans t)) (draws t)) (world s).
Lemma span_run {A} (text : E → string) name attrs (body : nat → Traced R E A) s :
  let i := length (chain (tracer s)) in
  span text name attrs body s =
  match mbind (M:=Traced R E) (λ _, body i) (_record_exported_ids i) (opened name attrs s) with
  | (inl a, s2) => (inl a, closed i settle s2)
  | (inr e, s2) => (inr e, closed i (with_status "error" (text e)) s2)
  end.
Proof.
  cbn zeta. unfold span, open_span, if_raises, throw, close_span, reading, look, on_tracer. unfold mbind, traced_bind, mret, traced_ret.
  cbn -[_record_exported_ids]. unfold opened. cbn -[_record_exported_ids].
  destruct (_record_exported_ids _ _) as [[[]|e] s2]; [|done]. destruct (body _ s2) as [[a|e] s3]; done.
Qed.

Lemma sound_opened name attrs s : sound (tracer s) → sound (tracer (opened name attrs s)).
Proof. intros Hs. by apply sound_push, sound_tick, sound_tick. Qed.
Lemma sound_closed i f s rest : keeps_span f → sound (tracer s) → open_spans (tracer s) = i :: rest →
  sound (tracer (closed i f s)) ∧ open_spans (tracer (closed i f s)) = rest ∧ trace_id (tracer (closed i f s)) = trace_id (tracer s) ∧
  length (chain (tracer (closed i f s))) = length (chain (tracer s)).
Proof.
  intros Hf Hs Eo. unfold closed. cbn. rewrite !length_alter, Eo. split_and!; try done.
  apply (sound_close _ _ i (tick (tick (change_span i f (tracer s)))) rest); [|done].
  by apply sound_tick, sound_tick, sound_change_span.
Qed.

(** A span around a balanced program is balanced and adds to the chain: it opens one,
    and ends it whether the program returns or raises. *)
Lemma span_traced {A} (text : E → string) name attrs (body : nat → Traced R E A) s :
  (∀ i, balanced (body i)) → sound (tracer s) →
  let s' := snd (span text name attrs body s) in
  sound (tracer s') ∧ open_spans (tracer s') = open_spans (tracer s) ∧ trace_id (tracer s') = trace_id (tracer s) ∧
  (length (chain (tracer s)) < length (chain (tracer s')))%nat.
Proof.
  intros Hb Hs. rewrite span_run. set (i := length (chain (tracer s))).
  assert (Hi : balanced (R:=R) (E:=E) (_record_exported_ids i ;; body i)) by auto with traced.
  destruct (Hi _ (sound_opened name attrs s Hs)) as (K1 & K2 & K3 & K4).
  destruct (mbind (M:=Traced R E) _ _ _) as [[a|e] s2]; cbn [snd] in *; cbn in K3, K4; rewrite length_app in K4; cbn in K4.
  - destruct (sound_closed i settle s2 (open_spans (tracer s))) as (L1 & L2 & L3 & L4); [apply keeps_settle|done|done|].
    split_and!; [done|done|congruence|lia].
  - destruct (sound_closed i (with_status "error" (text e)) s2 (open_spans (tracer s))) as (L1 & L2 & L3 & L4);
      [apply keeps_status|done|done|].
    split_and!; [done|done|congruence|lia].
Qed.
Lemma balanced_span {A} (text : E → string) name attrs (body : nat → Traced R E A) :
  (∀ i, balanced (body i)) → balanced (span text name attrs body).
Proof.
  intros Hb s Hs. destruct (span_traced text name attrs body s Hb Hs) as (K1 & K2 & K3 & K4). split_and!; [done..|lia].
Qed.
End span_sound.
#[export] Hint Resolve balanced_span : traced.

(** A chain of a sound tracer with no span open is well formed. *)
Lemma sound_well_formed t : sound t → open_spans t = [] → chain t ≠ [] → is_well_formed (chain t) = true.
Proof.
  intros [H1 _ _] Eo Hne. unfold is_well_formed. rewrite Eo in H1. rewrite !andb_true_iff. split_and!.
  - by destruct (chain t).
  - apply forallb_forall. intros s Hs. apply list_elem_of_In, list_elem_of_lookup in Hs as [i Hi].
    destruct (H1 _ _ Hi) as (_ & _ & He & _). destruct (ended_at s); [done|]. exfalso. apply (not_elem_of_nil i), He, eq_refl.
  - apply bool_decide_eq_true.
    assert (Ht : ∀ x, x ∈ map span_trace_id (chain t) ↔ x = trace_id t).
    { intros x. rewrite list_elem_of_fmap. split.
      - intros (s & -> & [i Hi]%list_elem_of_lookup). by destruct (H1 _ _ Hi).
      - intros ->. destruct (chain t) as [|s l] eqn:Ec; [done|]. exists s. destruct (H1 0%nat s eq_refl) as (E & _). split; [done|by left]. }
    assert (Hr : remove_dups (map span_trace_id (chain t)) ≡ₚ [trace_id t]); [|by rewrite Hr].
    apply NoDup_Permutation; [apply NoDup_remove_dups|by repeat constructor; apply not_elem_of_nil|].
    intros x. by rewrite elem_of_remove_dups, Ht, list_elem_of_singleton.
  - apply forallb_forall. intros s Hs. apply list_elem_of_In, list_elem_of_lookup in Hs as [i Hi].
    destruct (H1 _ _ Hi) as (_ & _ & _ & Hp). unfold parent_known. destruct (parent_span_id s) as [p|]; [|done].
    destruct (Hp p eq_refl) as (j & s' & _ & Hj & <-). apply bool_decide_eq_true. unfold known_ids.
    apply list_elem_of_fmap. exists s'. split; [done|]. by eapply list_elem_of_lookup_2.
Qed.

(** ** What a program does to the world *)

(** [effect m w Q]: whatever the tracer, [m] started in the world [w] ends with a
    result and a world that satisfy [Q]. *)
Definition effect {R E A} (m : Traced R E A) (w : R) (Q : A + E → R → Prop) : Prop :=
  ∀ t, Q (fst (m (mkScene t w))) (world (snd (m (mkScene t w)))).

Section effect.
Context {R E : Type}.

Lemma effect_mono {A} (m : Traced R E A) w (P Q : A + E → R → Prop) : effect m w P → (∀ r w', P r w' → Q r w') → effect m w Q.
Proof. intros Hm HPQ t. apply HPQ, Hm. Qed.
Lemma effect_run {A} (m : Traced R E A) s Q : effect m (world s) Q → Q (fst (m s)) (world (snd (m s))).
Proof. destruct s as [t w]. intros Hm. apply Hm. Qed.
Lemma effect_ret {A} (a : A) w (Q : A + E → R → Prop) : Q (inl a) w → effect (mret a) w Q.
Proof. by intros HQ t. Qed.
Lemma effect_throw {A} (e : E) w (Q : A + E → R → Prop) : Q (inr e) w → effect (throw e) w Q.
Proof. by intros HQ t. Qed.
Lemma effect_bind {A B} (m : Traced R E A) (f : A → Traced R E B) w Q :
  effect m w (λ r w', match r with inl a => effect (f a) w' Q | inr e => Q (inr e) w' end) → effect (m ≫= f) w Q.
Proof.
  intros Hm t. specialize (Hm t). unfold mbind, traced_bind. destruct (m (mkScene t w)) as [[a|e] [t' w']]; [apply Hm|exact Hm].
Qed.
Lemma effect_ask {A} (f : R → A) w (Q : A + E → R → Prop) : Q (inl (f w)) w → effect (ask f) w Q.
Proof. by intros HQ t. Qed.
Lemma effect_change (f : R → R) w (Q : unit + E → R → Prop) : Q (inl tt) (f w) → effect (change f) w Q.
Proof. by intros HQ t. Qed.
Lemma effect_on_tracer f w (Q : unit + E → R → Prop) : Q (inl tt) w → effect (on_tracer f) w Q.
Proof. by intros HQ t. Qed.
Lemma effect_look {A} (f : AgentTracer → A) w (Q : A + E → R → Prop) : (∀ t, Q (inl (f t)) w) → effect (look f) w Q.
Proof. intros HQ t. exact (HQ t). Qed.
Lemma effect_reading {A} (f : N → A) w (Q : A + E → R → Prop) : (∀ n, Q (inl (f n)) w) → effect (reading f) w Q.
Proof. intros HQ t. exact (HQ (draws t)). Qed.
End effect.

Section span_effect.
Context `{Observability} {R E : Type}.

Lemma effect_exported i w (Q : unit + E → R → Prop) : Q (inl tt) w → effect (_record_exported_ids i) w Q.
Proof.
  intros HQ. unfold _record_exported_ids. apply effect_bind, effect_reading. intros n.
  cbn. destruct (exported_ids n) as [[]|]; [apply effect_on_tracer|apply effect_ret]; exact HQ.
Qed.
(** A span does to the world what its body does. *)
Lemma effect_span {A} (text : E → string) name attrs (body : nat → Traced R E A) w Q :
  (∀ i, effect (body i) w Q) → effect (span text name attrs body) w Q.
Proof.
  intros Hb t. rewrite span_run. set (i := length _).
  assert (He : effect (R:=R) (E:=E) (_record_exported_ids i ;; body i) w Q) by (apply effect_bind, effect_exported, Hb).
  specialize (He (tracer (opened name attrs (mkScene t w)))). cbn [opened world] in *.
  destruct (mbind (M:=Traced R E) _ _ _) as [[a|e] s2]; exact He.
Qed.
Lemma effect_deny reason w (Q : unit + E → R → Prop) : Q (inl tt) w → effect (deny reason) w Q.
Proof. apply effect_on_tracer. Qed.
Lemma effect_allow w (Q : unit + E → R → Prop) : Q (inl tt) w → effect allow w Q.
Proof. apply effect_on_tracer. Qed.
Lemma effect_event name attrs w (Q : unit + E → R → Prop) : Q (inl tt) w → effect (event name attrs) w Q.
Proof.
  intros HQ. unfold event. apply effect_bind, effect_look. intros t. destruct (current_span t) as [i|]; [|by apply effect_ret].
  apply effect_bind, effect_reading. intros now. apply effect_on_tracer. exact HQ.
Qed.
End span_effect.
