(* ===== verification/GovGateway.v ===== *)
(** * Governance: the agent gateway

    gateway.py: the only path from an agent to a tool.  The handlers of the tools are
    the gateway's environment: they share a state [W], which nothing else here can
    touch.  A call is a program over the tracer, the gateway's own state and [W]; it
    returns the result of the tool, is denied with the decision that was recorded, or
    raises. *)

From S2P Require Import Prelude PyFloat PyTime Ledger PyText PyRegex PyCodec Materiality.
From S2P Require Import GovPolicy GovIdentity GovTelemetry GovArmor.
Local Open Scope Z_scope.

Record GatewayDecision := mkGatewayDecision {
  decision_id : string;
  gd_decision : string;
  stage : string;
  reason : string;
  gd_tenant_id : string;
  gd_agent_role : string;
  gd_tool_name : string;
  gd_task_id : string;
  gd_trace_id : string;
  gd_span_id : string;
  gd_occurred_at : datetime;
  gd_identity_id : option string;
  gd_armor : list ArmorResult;
  gd_attributes : dict
}.
Definition gd_allowed (d : GatewayDecision) : bool := bool_decide (gd_decision d = "allow").
Definition decision_as_dict (d : GatewayDecision) : dict :=
  [("decision_id", JStr (decision_id d)); ("decision", JStr (gd_decision d)); ("stage", JStr (stage d));
   ("reason", JStr (reason d)); ("tenant_id", JStr (gd_tenant_id d)); ("agent_role", JStr (gd_agent_role d));
   ("tool_name", JStr (gd_tool_name d)); ("task_id", JStr (gd_task_id d)); ("trace_id", JStr (gd_trace_id d));
   ("span_id", JStr (gd_span_id d)); ("identity_id", opt_json (gd_identity_id d));
   ("occurred_at", JStr (isoformat (gd_occurred_at d))); ("armor", JList (map (λ r, JObj (result_as_dict r)) (gd_armor d)));
   ("attributes", JObj (gd_attributes d))].

(** What a call ends with when it does not return. *)
Inductive failure :=
  | Denied (d : GatewayDecision)
  | Raised (e : exn).

(** [ToolHandler]: a result, or the class and the text of what it raises. *)
Definition ToolHandler (W : Type) : Type := dict → AgentIdentity → ExecutionEnvelope → W → (json + string * string) * W.
Record BoundedTool (W : Type) := mkBoundedTool {
  tool_name : string;
  tool_handler : ToolHandler W;
  tool_description : string
}.
Arguments tool_name {W}.
Arguments tool_handler {W}.
Arguments tool_description {W}.

Record TaskBudget := mkTaskBudget {
  max_calls : Z;
  token_budget : Z;
  cost_budget_usd : float;
  calls : Z;
  tokens : Z;
  cost_usd : float
}.
(** [TaskBudget.from_envelope]. *)
Definition from_envelope (e : ExecutionEnvelope) (max_calls : Z) : TaskBudget :=
  mkTaskBudget max_calls (env_token_budget e) (env_cost_budget_usd e) 0 0 zero.
Definition exceeded (b : TaskBudget) : option string :=
  if max_calls b <=? calls b then
    Some ("call budget exhausted (" +:+ pretty (calls b) +:+ "/" +:+ pretty (max_calls b) +:+ ")")
  else if token_budget b <? tokens b then
    Some ("token budget exhausted (" +:+ pretty (tokens b) +:+ "/" +:+ pretty (token_budget b) +:+ ")")
  else if fltb (cost_budget_usd b) (cost_usd b) then
    Some ("cost budget exhausted (" +:+ fixed 4 (cost_usd b) +:+ "/" +:+ fixed 4 (cost_budget_usd b) +:+ " USD)")
  else None.
Definition consume (n : Z) (cost : float) (b : TaskBudget) : TaskBudget :=
  mkTaskBudget (max_calls b) (token_budget b) (cost_budget_usd b) (calls b + 1) (tokens b + n) (fadd (cost_usd b) cost).

(** The gateway's state, and the environment of its handlers. *)
Record Gate (W : Type) := mkGate {
  _budgets : gmap string TaskBudget;
  decisions : list GatewayDecision;
  gate_events : list AuditEvent;
  audit_logs : list dict;
  handlers_state : W
}.
Arguments mkGate {W}.
Arguments _budgets {W}.
Arguments decisions {W}.
Arguments gate_events {W}.
Arguments audit_logs {W}.
Arguments handlers_state {W}.

Record AgentGateway (W : Type) := mkAgentGateway {
  identity_verifier : AgentIdentityVerifier;
  gw_armor : ModelArmor;
  max_calls_per_task : Z;
  _routes : list (string * string * BoundedTool W)
}.
Arguments mkAgentGateway {W}.
Arguments identity_verifier {W}.
Arguments gw_armor {W}.
Arguments max_calls_per_task {W}.
Arguments _routes {W}.

(** ** Routing *)

Section routing.
Context {W : Type}.

Fixpoint route (role name : string) (l : list (string * string * BoundedTool W)) : option (BoundedTool W) :=
  match l with
  | [] => None
  | (r, n, t) :: l => if decide (r = role ∧ n = name) then Some t else route role name l
  end.
Definition register_tool (agent_role : string) (tool : BoundedTool W) (g : AgentGateway W) : Res (AgentGateway W) :=
  match route agent_role (tool_name tool) (_routes g) with
  | Some _ => Err (Py ValueError)
  | None => Ok (mkAgentGateway (identity_verifier g) (gw_armor g) (max_calls_per_task g)
                  (_routes g ++ [(agent_role, tool_name tool, tool)]))
  end.
Definition registered_tools (agent_role : string) (g : AgentGateway W) : list string :=
  sort_by String.compare (flat_map (λ '(r, n, _), when (bool_decide (r = agent_role)) n) (_routes g)).
Definition tool_descriptions (agent_role : string) (g : AgentGateway W) : list (string * string) :=
  flat_map (λ '(r, n, t), when (bool_decide (r = agent_role) && negb (bool_decide (tool_description t = ""))) (n, tool_description t))
    (_routes g).
Definition budget_for (task_id : string) (s : Gate W) : option TaskBudget := _budgets s !! task_id.
End routing.

(** [_independence_breach]. *)
Fixpoint breach_of (subject : string) (constraints : list string) (arguments : dict) : option string :=
  match constraints with
  | [] => None
  | c :: constraints =>
      match get c arguments with
      | JNull => breach_of subject constraints arguments
      | v => if decide (py_str v = subject) then
               Some ("separation of duties: identity may not act on " +:+ c +:+ "=" +:+ json_repr v +:+
                     ", which its own subject produced")
             else breach_of subject constraints arguments
      end
  end.
Definition _independence_breach (i : AgentIdentity) (arguments : dict) : option string :=
  match independence_subject i with
  | Some s => breach_of s (independence_constraints i) arguments
  | None => None
  end.

(** [_declared_tool(...).get("requires_human_confirmation") and not envelope.human_gate]. *)
Definition needs_gate (p : AgentPackage) (e : ExecutionEnvelope) (name : string) : bool :=
  match find_tool name (pkg_tools p) with
  | Some t => truthy_json (requires_human_confirmation t) && negb (gate_open e)
  | None => false
  end.

(** ** What comes back *)

Record Screened := mkScreened { cleaned : json; collected : list ArmorResult; blocking : option ArmorResult }.

Section screen.
Context `{Sha256}.

(** [_screen_result]; a level further for each dict or list. *)
Fixpoint _screen_result (a : ModelArmor) (depth : Z) (v : json) {struct v} : Res Screened :=
  if 6 <? depth then Ok (mkScreened v [] None) else
  match v with
  | JStr s =>
      let? r := inspect_output a s true in
      Ok (if blocked r then mkScreened v [r] (Some r)
          else mkScreened (if redaction_count r =? 0 then v else JStr (default "" (sanitized_text r))) [r] None)
  | JObj fields =>
      (fix go (todo done : list (string * json)) (acc : list ArmorResult) : Res Screened :=
         match todo with
         | [] => Ok (mkScreened (JObj done) acc None)
         | (k, x) :: todo =>
             let? r := _screen_result a (depth + 1) x in
             match blocking r with
             | Some b => Ok (mkScreened v (acc ++ collected r) (Some b))
             | None => go todo (done ++ [(k, cleaned r)]) (acc ++ collected r)
             end
         end) fields [] []
  | JList l =>
      (fix go (todo done : list json) (acc : list ArmorResult) : Res Screened :=
         match todo with
         | [] => Ok (mkScreened (JList done) acc None)
         | x :: todo =>
             let? r := _screen_result a (depth + 1) x in
             match blocking r with
             | Some b => Ok (mkScreened v (acc ++ collected r) (Some b))
             | None => go todo (done ++ [cleaned r]) (acc ++ collected r)
             end
         end) l [] []
  | _ => Ok (mkScreened v [] None)
  end.
End screen.

(** ** A call *)

Section gateway.
Context `{Sha256} `{IpLiterals} `{Ed25519} `{Observability} `{UuidSource} {W : Type}.

Abbreviation Governed := (Traced (Gate W) failure).

Definition failure_text (f : failure) : string :=
  match f with Denied d => "GatewayDenied: " +:+ reason d | Raised e => exn_text e end.
Definition lift {A} (r : Res A) : Governed A := match r with Ok a => mret a | Err e => throw (Raised e) end.

(** What is fixed during one call. *)
Record Call := mkCall { call_envelope : ExecutionEnvelope; call_tool : string; call_span_id : string }.

(** [_record]. *)
Definition _record (c : Call) (decision stage_ reason_ : string) (identity : option string) (armor : list ArmorResult)
    (attrs : dict) : Governed GatewayDecision :=
  let e := call_envelope c in
  trace ← look trace_id;
  id ← reading (uuid4_hex 16);
  now ← reading now_at;
  let d := mkGatewayDecision ("gwd_" +:+ id) decision stage_ reason_ (env_tenant_id e) (env_agent_role e) (call_tool c)
    (env_task_id e) trace (call_span_id c) now identity armor attrs in
  event_id ← reading (uuid4_hex 16);
  log_time ← reading now_at;
  let event := mkAuditEvent ("evt_" +:+ event_id) ("agent.gateway." +:+ decision) (env_tenant_id e) (Some (env_engagement_id e))
    (Some (env_task_id e)) now (decision_as_dict d) in
  let log := audit_log_record log_time trace (call_span_id c) (env_tenant_id e) (str_or identity (env_agent_role e))
    ("tool." +:+ call_tool c) decision [("assuranceos.stage", JStr stage_); ("assuranceos.reason", JStr reason_)] in
  change (λ s, mkGate (_budgets s) (decisions s ++ [d]) (gate_events s ++ [event]) (audit_logs s ++ [log]) (handlers_state s)) ;;
  mret d.

(** [raise deny(...)]. *)
Definition refuse {A} (c : Call) (identity : option string) (armor : list ArmorResult) (stage_ reason_ : string) (attrs : dict) : Governed A :=
  deny reason_ ;;
  d ← _record c "deny" stage_ reason_ identity armor attrs;
  throw (Denied d).

(** Steps 1 to 3. *)
Definition authenticate (g : AgentGateway W) (c : Call) (place : nat) (signed : SignedAgentIdentity) : Governed AgentIdentity :=
  span failure_text "assuranceos.identity.authenticate" [] (λ _,
    now ← reading now_at;
    match verify (identity_verifier g) signed (Some (call_envelope c)) now with
    | Ok i =>
        allow ;;
        on_tracer (change_span place (with_attributes (λ d, dict_set "assuranceos.workload_uri" (JStr (id_workload_uri i))
          (dict_set "assuranceos.identity_id" (JStr (identity_id i)) d)))) ;;
        mret i
    | Err (Gov (AgentIdentityError message)) => refuse c None [] "identity" message []
    | Err e => throw (Raised e)
    end).

(** Steps 4 to 7. *)
Definition authorise (g : AgentGateway W) (c : Call) (p : AgentPackage) (i : AgentIdentity) (arguments : dict) : Governed (BoundedTool W) :=
  span failure_text "assuranceos.gateway.authorize" [] (λ _,
    let e := call_envelope c in
    let name := call_tool c in
    let no {A} : string → string → dict → Governed A := refuse c (Some (identity_id i)) [] in
    let decision := authorize_tool p e name in
    if negb (pol_allowed decision) then no "policy" (pol_reason decision) [("denied_tools", strings (denied_tools decision))]
    else match route (env_agent_role e) name (_routes g) with
    | None => no "routing" ("tool " +:+ py_repr name +:+ " has no bound handler for " +:+ py_repr (env_agent_role e)) []
    | Some tool =>
        if negb (bool_decide (name ∈ granted_tools i)) then
          no "policy" ("tool " +:+ py_repr name +:+ " is outside the granted authority of this identity") []
        else match _independence_breach i arguments with
        | Some breach => no "independence" breach []
        | None =>
            if needs_gate p e name then
              no "human_gate" ("tool " +:+ py_repr name +:+ " requires a human gate that the envelope does not carry") []
            else allow ;; mret tool
        end
    end).

(** Step 8: the budget of the task, which its first envelope sets. *)
Definition set_budget (task : string) (b : TaskBudget) (s : Gate W) : Gate W :=
  mkGate (<[task := b]> (_budgets s)) (decisions s) (gate_events s) (audit_logs s) (handlers_state s).
Definition check_budget (g : AgentGateway W) (c : Call) (i : AgentIdentity) : Governed TaskBudget :=
  let e := call_envelope c in
  known ← ask (λ s, _budgets s !! env_task_id e);
  let b := default (from_envelope e (max_calls_per_task g)) known in
  change (set_budget (env_task_id e) b) ;;
  match exceeded b with
  | Some exhausted => refuse c (Some (identity_id i)) [] "budget" exhausted [("calls", JInt (calls b)); ("tokens", JInt (tokens b))]
  | None => mret b
  end.

Definition finding_dicts (l : list ArmorFinding) : json := JList (map (λ f, JObj (finding_as_dict f)) l).
(** Step 9. *)
Definition screen_arguments (g : AgentGateway W) (c : Call) (i : AgentIdentity) (arguments : dict) : Governed ArmorResult :=
  span failure_text "assuranceos.armor.inspect" [("assuranceos.armor.direction", JStr "tool_call")] (λ _,
    r ← lift (inspect_tool_call (gw_armor g) (call_tool c) arguments (granted_evidence_scopes i) (id_forbidden_actions i));
    if blocked r then
      refuse c (Some (identity_id i)) [r] "model_armor"
        ("tool arguments failed inline guardrails: " +:+ join "; " (map arm_detail (firstn 3 (arm_findings r))))
        [("findings", finding_dicts (arm_findings r))]
    else allow ;; mret r).

(** Step 10. *)
Definition call_handler (c : Call) (i : AgentIdentity) (armor : list ArmorResult) (tool : BoundedTool W) (arguments : dict) : Governed json :=
  r ← (λ s, let '(r, h) := tool_handler tool arguments i (call_envelope c) (handlers_state (world s)) in
       (inl r, mkScene (tracer s) (mkGate (_budgets (world s)) (decisions (world s)) (gate_events (world s)) (audit_logs (world s)) h)));
  match (r : json + string * string) with
  | inl v => mret v
  | inr (cls, text) => refuse c (Some (identity_id i)) armor "tool_execution" (cls +:+ ": " +:+ text) []
  end.

(** Step 11; [None] when the result is neither a text nor a structure. *)
Definition is_screened (v : json) : bool := match v with JStr _ | JObj _ | JList _ => true | _ => false end.
Definition screen_output (g : AgentGateway W) (c : Call) (i : AgentIdentity) (armor : list ArmorResult) (v : json) : Governed (json * list ArmorResult) :=
  if is_screened v then
    span failure_text "assuranceos.armor.inspect" [("assuranceos.armor.direction", JStr "outbound_text")] (λ _,
      r ← lift (_screen_result (gw_armor g) 0 v);
      match blocking r with
      | Some b => refuse c (Some (identity_id i)) (armor ++ collected r) "model_armor"
          "tool output withheld: secret material detected" [("findings", finding_dicts (arm_findings b))]
      | None => allow ;; mret (cleaned r, armor ++ collected r)
      end)
  else mret (v, armor).

Definition span_id_at (place : nat) (t : AgentTracer) : string := default "" (span_id <$> chain t !! place).

(** [AgentGateway.invoke]. *)
Definition invoke (g : AgentGateway W) (signed : SignedAgentIdentity) (e : ExecutionEnvelope) (p : AgentPackage) (name : string)
    (arguments : dict) (estimated_tokens : Z) (estimated_cost_usd : float) : Governed json :=
  span failure_text "assuranceos.tool.invoke"
    [("assuranceos.tenant_id", JStr (env_tenant_id e)); ("assuranceos.engagement_id", JStr (env_engagement_id e));
     ("assuranceos.task_id", JStr (env_task_id e)); ("assuranceos.agent_role", JStr (env_agent_role e));
     ("assuranceos.agent_version", JStr (env_agent_version e)); ("assuranceos.tool_name", JStr name)] (λ place,
    call_span ← look (span_id_at place);
    let c := mkCall e name call_span in
    i ← authenticate g c place signed;
    tool ← authorise g c p i arguments;
    b ← check_budget g c i;
    screened ← screen_arguments g c i arguments;
    change (set_budget (env_task_id e) (consume estimated_tokens estimated_cost_usd b)) ;;
    v ← call_handler c i [screened] tool arguments;
    out ← screen_output g c i [screened] v;
    allow ;;
    let b := consume estimated_tokens estimated_cost_usd b in
    _record c "allow" "completed" "allowed by identity, package policy, guardrails, and budget" (Some (identity_id i))
      (snd out) [("calls", JInt (calls b)); ("tokens", JInt (tokens b))] ;;
    mret (fst out)).
End gateway.

(** ** The screening of a result *)

(** [reaches n v x]: [x] is in [v], less than [n] levels down. *)
Inductive reaches : nat → json → json → Prop :=
  | reaches_self n v : reaches (S n) v v
  | reaches_field n fields k v x : (k, v) ∈ fields → reaches n v x → reaches (S n) (JObj fields) x
  | reaches_item n l v x : v ∈ l → reaches n v x → reaches (S n) (JList l) x.

Section screened.
Context `{Sha256}.
Variable a : ModelArmor.

Definition secret_in (n : nat) (v : json) : Prop := ∃ s, reaches n v (JStr s) ∧ seen_in s _SECRET_PATTERNS.

(** A text with the personal data in it redacted, and a value with its texts so. *)
Definition redacted_text (s : string) : string :=
  match inspect_output a s true with Ok r => default "" (sanitized_text r) | Err _ => s end.
Fixpoint redacted (n : nat) (v : json) {struct v} : json :=
  match n with
  | O => v
  | S n =>
      match v with
      | JStr s => JStr (redacted_text s)
      | JObj fields => JObj (map (λ '(k, x), (k, redacted n x)) fields)
      | JList l => JList (map (redacted n) l)
      | _ => v
      end
  end.

Definition screen_outcome (n : nat) (v : json) (r : Screened) : Prop :=
  match blocking r with
  | None => ¬ secret_in n v ∧ cleaned r = redacted n v
  | Some b => secret_in n v ∧ blocked b = true
  end.

Fixpoint screen_fields (depth : Z) (v : json) (todo done : list (string * json)) (acc : list ArmorResult) : Res Screened :=
  match todo with
  | [] => Ok (mkScreened (JObj done) acc None)
  | (k, x) :: todo =>
      let? r := _screen_result a depth x in
      match blocking r with
      | Some b => Ok (mkScreened v (acc ++ collected r) (Some b))
      | None => screen_fields depth v todo (done ++ [(k, cleaned r)]) (acc ++ collected r)
      end
  end.
Fixpoint screen_items (depth : Z) (v : json) (todo done : list json) (acc : list ArmorResult) : Res Screened :=
  match todo with
  | [] => Ok (mkScreened (JList done) acc None)
  | x :: todo =>
      let? r := _screen_result a depth x in
      match blocking r with
      | Some b => Ok (mkScreened v (acc ++ collected r) (Some b))
      | None => screen_items depth v todo (done ++ [cleaned r]) (acc ++ collected r)
      end
  end.
Lemma screen_JObj depth fields : _screen_result a depth (JObj fields) =
  if 6 <? depth then Ok (mkScreened (JObj fields) [] None) else screen_fields (depth + 1) (JObj fields) fields [] [].
Proof.
  cbn [_screen_result]. destruct (6 <? depth); [done|]. remember (JObj fields) as v eqn:Ev. clear Ev.
  match goal with |- ?F fields [] [] = _ => cut (∀ d acc, F fields d acc = screen_fields (depth + 1) v fields d acc); [done|] end.
  induction fields as [|[k x] l IH]; intros d acc; cbn; [done|].
  destruct (_screen_result a (depth + 1) x) as [r|]; cbn; [|done]. destruct (blocking r); [done|apply IH].
Qed.
Lemma screen_JList depth l : _screen_result a depth (JList l) =
  if 6 <? depth then Ok (mkScreened (JList l) [] None) else screen_items (depth + 1) (JList l) l [] [].
Proof.
  cbn [_screen_result]. destruct (6 <? depth); [done|]. remember (JList l) as v eqn:Ev. clear Ev.
  match goal with |- ?F l [] [] = _ => cut (∀ d acc, F l d acc = screen_items (depth + 1) v l d acc); [done|] end.
  induction l as [|x l IH]; intros d acc; cbn; [done|].
  destruct (_screen_result a (depth + 1) x) as [r|]; cbn; [|done]. destruct (blocking r); [done|apply IH].
Qed.

Lemma reaches_O v x : ¬ reaches 0 v x.
Proof. by inversion 1. Qed.
Lemma screen_leaf n v : is_leaf v = true → (∀ s, v ≠ JStr s) → ¬ secret_in n v ∧ redacted n v = v.
Proof.
  intros Hl Hs. split.
  - intros (s & Hr & _). inversion Hr; subst; try discriminate. by apply (Hs s).
  - destruct n, v; try done. by destruct (Hs s).
Qed.
Lemma screen_text n s : ∃ r, _screen_result a (Z.of_nat 6 - Z.of_nat n) (JStr s) = Ok r ∧ screen_outcome (S n) (JStr s) r.
Proof.
  cbn [_screen_result]. rewrite (proj2 (Z.ltb_ge 6 _)) by lia.
  destruct (output_screened a s true) as (r & Er & Hb & _ & _ & Hc & Ht). rewrite Er. cbn [res_bind]. eexists. split; [done|].
  unfold screen_outcome. destruct (blocked r) eqn:Eb; cbn [blocking cleaned].
  - split; [|done]. exists s. split; [constructor|by apply Hb].
  - assert (Hn : ¬ seen_in s _SECRET_PATTERNS) by (intros Hs; discriminate (proj2 Hb (conj eq_refl Hs))).
    split.
    + intros (s' & Hr & Hs'). inversion Hr; subst. done.
    + cbn [redacted]. unfold redacted_text. rewrite Er. destruct (redaction_count r =? 0) eqn:E0; [|done].
      apply Z.eqb_eq in E0. rewrite Ht; [done|]. intros Hd. apply Hc in Hd. lia.
Qed.

Lemma screen_fields_spec n depth fields :
  Forall (λ f, ∃ r, _screen_result a depth f.2 = Ok r ∧ screen_outcome n f.2 r) fields →
  ∀ v, (∀ k x s, (k, x) ∈ fields → reaches n x (JStr s) → reaches (S n) v (JStr s)) →
  ∀ d acc, ∃ r, screen_fields depth v fields d acc = Ok r ∧
  match blocking r with
  | None => (∀ k x, (k, x) ∈ fields → ¬ secret_in n x) ∧ cleaned r = JObj (d ++ map (λ '(k, x), (k, redacted n x)) fields)
  | Some b => secret_in (S n) v ∧ blocked b = true
  end.
Proof.
  induction 1 as [|[k x] l (r & Er & Ho) _ IH]; intros v Hv d acc; cbn [screen_fields].
  - eexists. split; [done|]. cbn. rewrite app_nil_r. split; [by intros k x ?%elem_of_nil|done].
  - cbn [snd] in *. rewrite Er. cbn [res_bind]. unfold screen_outcome in Ho. destruct (blocking r) as [b|] eqn:Eb.
    + eexists. split; [done|]. cbn. destruct Ho as [(s & Hr & Hs) Hb]. split; [|done]. exists s. split; [|done].
      by apply (Hv k x); [left|].
    + destruct Ho as [Hn Ec]. destruct (IH v (λ k x s H, Hv k x s (list_elem_of_further _ _ _ H)) (d ++ [(k, cleaned r)]) (acc ++ collected r)) as (r' & Er' & H').
      exists r'. split; [done|]. destruct (blocking r'); [done|]. destruct H' as [H1 H2]. split.
      * intros k' x' [[= -> ->]|Hin]%elem_of_cons; [done|by apply (H1 k')].
      * rewrite H2, Ec, <- app_assoc. done.
Qed.
Lemma screen_items_spec n depth l :
  Forall (λ x, ∃ r, _screen_result a depth x = Ok r ∧ screen_outcome n x r) l →
  ∀ v, (∀ x s, x ∈ l → reaches n x (JStr s) → reaches (S n) v (JStr s)) →
  ∀ d acc, ∃ r, screen_items depth v l d acc = Ok r ∧
  match blocking r with
  | None => (∀ x, x ∈ l → ¬ secret_in n x) ∧ cleaned r = JList (d ++ map (redacted n) l)
  | Some b => secret_in (S n) v ∧ blocked b = true
  end.
Proof.
  induction 1 as [|x l (r & Er & Ho) _ IH]; intros v Hv d acc; cbn [screen_items].
  - eexists. split; [done|]. cbn. rewrite app_nil_r. split; [by intros x ?%elem_of_nil|done].
  - rewrite Er. cbn [res_bind]. unfold screen_outcome in Ho. destruct (blocking r) as [b|] eqn:Eb.
    + eexists. split; [done|]. cbn. destruct Ho as [(s & Hr & Hs) Hb]. split; [|done]. exists s. split; [|done].
      by apply (Hv x); [left|].
    + destruct Ho as [Hn Ec]. destruct (IH v (λ x s H, Hv x s (list_elem_of_further _ _ _ H)) (d ++ [cleaned r]) (acc ++ collected r)) as (r' & Er' & H').
      exists r'. split; [done|]. destruct (blocking r'); [done|]. destruct H' as [H1 H2]. split.
      * intros x' [->|Hin]%elem_of_cons; [done|by apply H1].
      * rewrite H2, Ec, <- app_assoc. done.
Qed.

(** Screening never raises; it blocks exactly when a text it reaches has a secret, and
    otherwise it redacts the texts it reaches and keeps the shape. *)
Lemma screen_result_spec : ∀ v n, (n ≤ 7)%nat →
  ∃ r, _screen_result a (7 - Z.of_nat n) v = Ok r ∧ screen_outcome n v r.
Proof.
  fix IH 1. intros v [|n] Hn.
  { exists (mkScreened v [] None). split; [destruct v; reflexivity|]. split; [by intros (s & []%reaches_O & _)|by destruct v]. }
  replace (7 - Z.of_nat (S n)) with (Z.of_nat 6 - Z.of_nat n) by lia.
  assert (Hd : (6 <? Z.of_nat 6 - Z.of_nat n) = false) by (apply Z.ltb_ge; lia).
  assert (Hd1 : Z.of_nat 6 - Z.of_nat n + 1 = 7 - Z.of_nat n) by lia.
  destruct v as [| | | |s| |l|fields]; try (cbn [_screen_result]; rewrite Hd; eexists; split; [done|]; by apply screen_leaf).
  - apply screen_text.
  - rewrite screen_JList, Hd, Hd1.
    assert (Hl : Forall (λ x, ∃ r, _screen_result a (7 - Z.of_nat n) x = Ok r ∧ screen_outcome n x r) l)
      by (induction l as [|x l IHl]; constructor; [apply IH; lia|exact IHl]).
    destruct (screen_items_spec n _ l Hl (JList l) (λ x s Hx Hr, reaches_item _ _ _ _ Hx Hr) [] []) as (r & Er & Hr).
    exists r. split; [done|]. unfold screen_outcome. destruct (blocking r); [done|]. destruct Hr as [H1 H2]. split; [|done].
    intros (s & Hr & Hs). inversion Hr; subst. by apply (H1 _ ltac:(eassumption)); exists s.
  - rewrite screen_JObj, Hd, Hd1.
    assert (Hl : Forall (λ f, ∃ r, _screen_result a (7 - Z.of_nat n) f.2 = Ok r ∧ screen_outcome n f.2 r) fields)
      by (induction fields as [|[k x] l IHl]; constructor; [apply IH; lia|exact IHl]).
    destruct (screen_fields_spec n _ fields Hl (JObj fields) (λ k x s Hx Hr, reaches_field _ _ _ _ _ Hx Hr) [] []) as (r & Er & Hr).
    exists r. split; [done|]. unfold screen_outcome. destruct (blocking r); [done|]. destruct Hr as [H1 H2]. split; [|done].
    intros (s & Hr & Hs). inversion Hr; subst. by apply (H1 _ _ ltac:(eassumption)); exists s.
Qed.
End screened.

(** ** The trace of a call *)

Section traced_calls.
Context `{Sha256} `{IpLiterals} `{Ed25519} `{Observability} `{UuidSource} {W : Type}.

Lemma balanced_lift {A} (r : Res A) : balanced (R:=Gate W) (lift r).
Proof. unfold lift. auto with traced. Qed.
Lemma balanced_record c decision stage_ reason_ i armor attrs :
  balanced (_record (W:=W) c decision stage_ reason_ i armor attrs).
Proof. unfold _record. auto 20 with traced. Qed.
Lemma balanced_refuse {A} c i armor stage_ reason_ attrs : balanced (refuse (W:=W) (A:=A) c i armor stage_ reason_ attrs).
Proof. unfold refuse. pose proof balanced_record. auto 20 with traced. Qed.
#[local] Hint Resolve balanced_lift balanced_record balanced_refuse : traced.
Lemma balanced_authenticate (g : AgentGateway W) c place signed : balanced (authenticate g c place signed).
Proof.
  unfold authenticate. apply balanced_span. intros _. apply balanced_bind; [auto with traced|intros now].
  destruct (verify _ _ _ _) as [i|[| | | | |[]|]]; auto 20 with traced.
Qed.
Lemma balanced_authorise (g : AgentGateway W) c p i arguments : balanced (authorise g c p i arguments).
Proof.
  unfold authorise. apply balanced_span. intros _. cbn zeta. auto 20 with traced.
Qed.
Lemma balanced_handler (f : Scene (Gate W) → (json + string * string) * W) :
  balanced (E:=failure) (λ s, let '(r, h) := f s in
    (inl r, mkScene (tracer s) (mkGate (_budgets (world s)) (decisions (world s)) (gate_events (world s)) (audit_logs (world s)) h))).
Proof. intros s Hs. destruct (f s). done. Qed.
Lemma balanced_call_handler c i armor (tool : BoundedTool W) arguments : balanced (call_handler c i armor tool arguments).
Proof.
  unfold call_handler. apply balanced_bind; [|auto with traced].
  apply (balanced_handler (λ s, tool_handler tool arguments i (call_envelope c) (handlers_state (world s)))).
Qed.
Lemma invoke_span (g : AgentGateway W) signed e p name arguments n cost : ∃ span_name attrs body,
  invoke g signed e p name arguments n cost = span failure_text span_name attrs body ∧ ∀ i, balanced (body i).
Proof.
  unfold invoke, check_budget, screen_arguments, screen_output. eexists _, _, _. split; [reflexivity|]. cbn beta.
  pose proof balanced_authenticate. pose proof balanced_authorise. pose proof balanced_call_handler.
  intros place. apply balanced_bind; [auto with traced|intros call_span]. cbn zeta.
  auto 40 with traced.
Qed.
Lemma balanced_invoke (g : AgentGateway W) signed e p name arguments n cost : balanced (invoke g signed e p name arguments n cost).
Proof. destruct (invoke_span g signed e p name arguments n cost) as (x & a & b & -> & Hb). by apply balanced_span. Qed.
End traced_calls.

(** ** What a call does *)

Section calls.
Context `{Sha256} `{IpLiterals} `{Ed25519} `{Observability} `{UuidSource} {W : Type}.

(** One decision is recorded: itself, its audit event and its log record. *)
Definition recorded (e : ExecutionEnvelope) (name : string) (d : GatewayDecision) (w w' : Gate W) : Prop :=
  _budgets w' = _budgets w ∧ handlers_state w' = handlers_state w ∧ decisions w' = decisions w ++ [d] ∧
  (gd_tenant_id d, gd_agent_role d, gd_task_id d, gd_tool_name d) = (env_tenant_id e, env_agent_role e, env_task_id e, name) ∧
  (∃ ev, gate_events w' = gate_events w ++ [ev] ∧ ev_event_type ev = "agent.gateway." +:+ gd_decision d ∧
     ev_tenant_id ev = env_tenant_id e ∧ ev_task_id ev = Some (env_task_id e) ∧ ev_payload ev = decision_as_dict d) ∧
  (∃ log, audit_logs w' = audit_logs w ++ [log]).

Lemma effect_record c decision stage_ reason_ i armor attrs (w : Gate W) Q :
  (∀ d w', recorded (call_envelope c) (call_tool c) d w w' → gd_decision d = decision → stage d = stage_ → gd_identity_id d = i →
    gd_armor d = armor → Q (inl d) w') →
  effect (_record c decision stage_ reason_ i armor attrs) w Q.
Proof.
  intros HQ. unfold _record. cbn zeta.
  apply effect_bind, effect_look. intros trace. apply effect_bind, effect_reading. intros n1.
  apply effect_bind, effect_reading. intros n2. apply effect_bind, effect_reading. intros n3.
  apply effect_bind, effect_reading. intros n4. apply effect_bind, effect_change, effect_ret.
  apply HQ; try done. unfold recorded. cbn. split_and!; try done; [eexists; split_and!; try done|eexists; done]. all: reflexivity.
Qed.
Lemma effect_refuse {A} c i armor stage_ reason_ attrs (w : Gate W) (Q : A + failure → Gate W → Prop) :
  (∀ d w', recorded (call_envelope c) (call_tool c) d w w' → gd_decision d = "deny" → stage d = stage_ → Q (inr (Denied d)) w') →
  effect (refuse c i armor stage_ reason_ attrs) w Q.
Proof.
  intros HQ. unfold refuse. apply effect_bind, effect_deny, effect_bind, effect_record. intros d w' Hr Hd Hs _ _.
  apply effect_throw. by apply HQ.
Qed.
Lemma effect_lift {A} (r : Res A) (w : Gate W) Q :
  match r with Ok a => Q (inl a) w | Err e => Q (inr (Raised e)) w end → effect (lift r) w Q.
Proof. destruct r; [apply effect_ret|apply effect_throw]. Qed.

Lemma effect_authenticate (g : AgentGateway W) c place signed w Q :
  (∀ n i, verify (identity_verifier g) signed (Some (call_envelope c)) (now_at n) = Ok i → Q (inl i) w) →
  (∀ e, Q (inr (Raised e)) w) →
  (∀ d w', recorded (call_envelope c) (call_tool c) d w w' → gd_decision d = "deny" → stage d = "identity" → Q (inr (Denied d)) w') →
  effect (authenticate g c place signed) w Q.
Proof.
  intros K1 K2 K3. unfold authenticate. apply effect_span. intros _. apply effect_bind, effect_reading. intros n.
  destruct (verify _ _ _ _) as [i|e] eqn:Ev.
  - apply effect_bind, effect_allow, effect_bind, effect_on_tracer, effect_ret. by eapply K1.
  - destruct e as [| | | | |[]|]; try (apply effect_throw, K2). by apply effect_refuse.
Qed.

(** Steps 4 to 7, passed. *)
Definition cleared (g : AgentGateway W) (e : ExecutionEnvelope) (p : AgentPackage) (i : AgentIdentity) (name : string)
    (arguments : dict) (tool : BoundedTool W) : Prop :=
  pol_allowed (authorize_tool p e name) = true ∧ route (env_agent_role e) name (_routes g) = Some tool ∧
  name ∈ granted_tools i ∧ _independence_breach i arguments = None ∧ needs_gate p e name = false.
Definition authorisation_stages : list string := ["policy"; "routing"; "independence"; "human_gate"].

Lemma effect_authorise (g : AgentGateway W) c p i arguments w Q :
  (∀ tool, cleared g (call_envelope c) p i (call_tool c) arguments tool → Q (inl tool) w) →
  (∀ d w', recorded (call_envelope c) (call_tool c) d w w' → gd_decision d = "deny" → stage d ∈ authorisation_stages →
    Q (inr (Denied d)) w') →
  effect (authorise g c p i arguments) w Q.
Proof.
  intros K1 K2. unfold authorise. apply effect_span. intros _. cbn zeta.
  assert (Hno : ∀ stage_ r attrs, stage_ ∈ authorisation_stages →
    effect (refuse (A:=BoundedTool W) c (Some (identity_id i)) [] stage_ r attrs) w Q).
  { intros s r attrs Hs. apply effect_refuse. intros d w' Hr Hd <-. by apply K2. }
  destruct (pol_allowed (authorize_tool p (call_envelope c) (call_tool c))) eqn:Ep; cbn [negb]; [|apply Hno; set_solver].
  destruct (route _ _ _) as [tool|] eqn:Er; [|apply Hno; set_solver].
  case_bool_decide as Hg; cbn [negb]; [|apply Hno; set_solver].
  destruct (_independence_breach i arguments) as [b|] eqn:Eb; [apply Hno; set_solver|].
  destruct (needs_gate _ _ _) eqn:En; [apply Hno; set_solver|].
  apply effect_bind, effect_allow, effect_ret, K1. done.
Qed.

Definition budget_of (g : AgentGateway W) (e : ExecutionEnvelope) (w : Gate W) : TaskBudget :=
  default (from_envelope e (max_calls_per_task g)) (_budgets w !! env_task_id e).
Lemma effect_check_budget (g : AgentGateway W) c i w Q :
  let w1 := set_budget (env_task_id (call_envelope c)) (budget_of g (call_envelope c) w) w in
  (exceeded (budget_of g (call_envelope c) w) = None → Q (inl (budget_of g (call_envelope c) w)) w1) →
  (∀ d w', recorded (call_envelope c) (call_tool c) d w1 w' → gd_decision d = "deny" → stage d = "budget" → Q (inr (Denied d)) w') →
  effect (check_budget g c i) w Q.
Proof.
  cbn zeta. intros K1 K2. unfold check_budget. cbn zeta. apply effect_bind, effect_ask, effect_bind, effect_change.
  unfold budget_of in *. destruct (exceeded _) as [x|]; [by apply effect_refuse|apply effect_ret; auto].
Qed.

Lemma effect_screen_arguments (g : AgentGateway W) c i arguments w Q :
  (∀ r, admissible_arguments (gw_armor g) (granted_evidence_scopes i) (id_forbidden_actions i) arguments → Q (inl r) w) →
  (∀ e, Q (inr (Raised e)) w) →
  (∀ d w', recorded (call_envelope c) (call_tool c) d w w' → gd_decision d = "deny" → stage d = "model_armor" → Q (inr (Denied d)) w') →
  effect (screen_arguments g c i arguments) w Q.
Proof.
  intros K1 K2 K3. unfold screen_arguments. apply effect_span. intros _. apply effect_bind, effect_lift.
  destruct (inspect_tool_call _ _ _ _ _) as [r|e] eqn:Er; [|apply K2]. apply tool_call_screened in Er as (Hb & _).
  destruct (blocked r); [by apply effect_refuse|]. apply effect_bind, effect_allow, effect_ret, K1. by apply Hb.
Qed.

Lemma effect_screen_output (g : AgentGateway W) c i armor v w Q :
  (∀ out, ¬ secret_in 7 v → fst out = redacted (gw_armor g) 7 v → Q (inl out) w) →
  (∀ d w', recorded (call_envelope c) (call_tool c) d w w' → gd_decision d = "deny" → stage d = "model_armor" → secret_in 7 v →
    Q (inr (Denied d)) w') →
  effect (screen_output g c i armor v) w Q.
Proof.
  intros K1 K2. unfold screen_output. destruct (is_screened v) eqn:Es.
  - apply effect_span. intros _. apply effect_bind, effect_lift.
    destruct (screen_result_spec (gw_armor g) v 7 ltac:(lia)) as (r & Er & Ho). change (7 - Z.of_nat 7) with 0 in Er. rewrite Er.
    unfold screen_outcome in Ho. destruct (blocking r) as [b|].
    + apply effect_refuse. intros d w' Hr Hd Hs. apply K2; tauto.
    + apply effect_bind, effect_allow, effect_ret, K1; tauto.
  - apply effect_ret, K1; cbn.
    + intros (s & Hr & _). inversion Hr; subst; discriminate.
    + by destruct v.
Qed.
End calls.

(** ** The transition of a call *)

Section transition.
Context `{Sha256} `{IpLiterals} `{Ed25519} `{Observability} `{UuidSource} {W : Type}.

(** A request, as the arguments of [invoke]. *)
Record Request := mkRequest {
  rq_signed : SignedAgentIdentity;
  rq_envelope : ExecutionEnvelope;
  rq_package : AgentPackage;
  rq_tool : string;
  rq_arguments : dict;
  rq_tokens : Z;
  rq_cost : float
}.
Definition serve (g : AgentGateway W) (q : Request) : Traced (Gate W) failure json :=
  invoke g (rq_signed q) (rq_envelope q) (rq_package q) (rq_tool q) (rq_arguments q) (rq_tokens q) (rq_cost q).

(** Every check of a request passes, for the identity and the tool. *)
Definition admitted (g : AgentGateway W) (q : Request) (w : Gate W) (i : AgentIdentity) (tool : BoundedTool W) : Prop :=
  let e := rq_envelope q in
  (∃ n, verify (identity_verifier g) (rq_signed q) (Some e) (now_at n) = Ok i) ∧
  cleared g e (rq_package q) i (rq_tool q) (rq_arguments q) tool ∧
  exceeded (budget_of g e w) = None ∧
  admissible_arguments (gw_armor g) (granted_evidence_scopes i) (id_forbidden_actions i) (rq_arguments q).

(** At most the budget of the task has been set up. *)
Definition untouched (g : AgentGateway W) (q : Request) (w w1 : Gate W) : Prop :=
  w1 = w ∨ w1 = set_budget (env_task_id (rq_envelope q)) (budget_of g (rq_envelope q) w) w.
(** The tool has run: its budget is consumed and the handlers have moved. *)
Definition after_tool (g : AgentGateway W) (q : Request) (h : W) (w : Gate W) : Gate W :=
  let b := consume (rq_tokens q) (rq_cost q) (budget_of g (rq_envelope q) w) in
  mkGate (<[env_task_id (rq_envelope q) := b]> (_budgets w)) (decisions w) (gate_events w) (audit_logs w) h.

Definition early_stages : list string := ["identity"; "policy"; "routing"; "independence"; "human_gate"; "budget"; "model_armor"].

Inductive call_step (g : AgentGateway W) (q : Request) (w : Gate W) : json + failure → Gate W → Prop :=
  | step_raised e w' : untouched g q w w' → call_step g q w (inr (Raised e)) w'
  | step_refused d w1 w' : untouched g q w w1 → recorded (rq_envelope q) (rq_tool q) d w1 w' →
      gd_decision d = "deny" → stage d ∈ early_stages → call_step g q w (inr (Denied d)) w'
  | step_failed i tool x h d w' : admitted g q w i tool →
      tool_handler tool (rq_arguments q) i (rq_envelope q) (handlers_state w) = (inr x, h) →
      recorded (rq_envelope q) (rq_tool q) d (after_tool g q h w) w' → gd_decision d = "deny" → stage d = "tool_execution" →
      call_step g q w (inr (Denied d)) w'
  | step_withheld i tool v h d w' : admitted g q w i tool →
      tool_handler tool (rq_arguments q) i (rq_envelope q) (handlers_state w) = (inl v, h) → secret_in 7 v →
      recorded (rq_envelope q) (rq_tool q) d (after_tool g q h w) w' → gd_decision d = "deny" → stage d = "model_armor" →
      call_step g q w (inr (Denied d)) w'
  | step_returned i tool v h d w' : admitted g q w i tool →
      tool_handler tool (rq_arguments q) i (rq_envelope q) (handlers_state w) = (inl v, h) → ¬ secret_in 7 v →
      recorded (rq_envelope q) (rq_tool q) d (after_tool g q h w) w' → gd_decision d = "allow" → gd_identity_id d = Some (identity_id i) →
      call_step g q w (inl (redacted (gw_armor g) 7 v)) w'.

Definition moved (h : W) (w : Gate W) : Gate W := mkGate (_budgets w) (decisions w) (gate_events w) (audit_logs w) h.
Lemma effect_call_handler c i armor (tool : BoundedTool W) arguments w Q :
  (∀ v h, tool_handler tool arguments i (call_envelope c) (handlers_state w) = (inl v, h) → Q (inl v) (moved h w)) →
  (∀ x h, tool_handler tool arguments i (call_envelope c) (handlers_state w) = (inr x, h) →
    ∀ d w', recorded (call_envelope c) (call_tool c) d (moved h w) w' → gd_decision d = "deny" → stage d = "tool_execution" →
    Q (inr (Denied d)) w') →
  effect (call_handler c i armor tool arguments) w Q.
Proof.
  intros K1 K2. unfold call_handler. apply effect_bind. intros t. cbn [world tracer].
  destruct (tool_handler _ _ _ _ _) as [[v|[cls text]] h] eqn:Eh; cbn [fst snd world].
  - apply effect_ret. by apply K1.
  - apply effect_refuse. by apply (K2 _ _ eq_refl).
Qed.

(** [invoke] takes one of these steps, whatever the tracer. *)
Lemma invoke_steps (g : AgentGateway W) q w : effect (serve g q) w (call_step g q w).
Proof.
  unfold serve, invoke. apply effect_span. intros place. apply effect_bind, effect_look. intros t. cbn zeta.
  set (c := mkCall _ _ _).
  apply effect_bind, effect_authenticate.
  2: { intros e. apply step_raised. by left. }
  2: { intros d w' Hr Hd Hs. eapply step_refused; [by left|exact Hr|done|rewrite Hs; set_solver]. }
  intros n i Hv. apply effect_bind, effect_authorise.
  2: { intros d w' Hr Hd Hs. eapply step_refused; [by left|exact Hr|done|].
       unfold authorisation_stages in Hs. unfold early_stages. set_solver. }
  intros tool Hc. cbn [call_envelope call_tool c] in Hc. apply effect_bind, effect_check_budget; cbn [call_envelope call_tool c].
  2: { intros d w' Hr Hd Hs. eapply step_refused; [by right|exact Hr|done|rewrite Hs; set_solver]. }
  intros Hb. apply effect_bind, effect_screen_arguments; cbn [call_envelope call_tool c].
  2: { intros e. apply step_raised. by right. }
  2: { intros d w' Hr Hd Hs. eapply step_refused; [by right|exact Hr|done|rewrite Hs; set_solver]. }
  intros r Ha. assert (Had : admitted g q w i tool) by (split_and!; [by exists n|done..]).
  assert (Hm : ∀ h, moved h (set_budget (env_task_id (rq_envelope q)) (consume (rq_tokens q) (rq_cost q) (budget_of g (rq_envelope q) w))
      (set_budget (env_task_id (rq_envelope q)) (budget_of g (rq_envelope q) w) w)) = after_tool g q h w).
  { intros h. unfold moved, set_budget, after_tool. cbn. by rewrite insert_insert_eq. }
  apply effect_bind, effect_change, effect_bind, effect_call_handler; cbn [call_envelope call_tool c].
  2: { intros x h Eh d w' Hr Hd Hs. rewrite Hm in Hr. by eapply step_failed. }
  intros v h Eh. rewrite Hm. apply effect_bind, effect_screen_output; cbn [call_envelope call_tool c].
  2: { intros d w' Hr Hd Hs Hsec. by eapply step_withheld. }
  intros out Hsec Eo. apply effect_bind, effect_allow, effect_bind, effect_record. intros d w' Hr Hd _ Hi _.
  apply effect_ret. rewrite Eo. by eapply step_returned.
Qed.
End transition.

(** ** Sessions *)

Section sessions.
Context `{Sha256} `{IpLiterals} `{Ed25519} `{Observability} `{UuidSource} {W : Type}.

(** Requests served one after the other. *)
Fixpoint serve_all (g : AgentGateway W) (qs : list Request) (s : Scene (Gate W)) : list (json + failure) * Scene (Gate W) :=
  match qs with
  | [] => ([], s)
  | q :: qs =>
      let '(r, s1) := serve g q s in
      let '(rs, s2) := serve_all g qs s1 in (r :: rs, s2)
  end.

Lemma serve_step (g : AgentGateway W) q s : call_step g q (world s) (fst (serve g q s)) (world (snd (serve g q s))).
Proof. apply (effect_run (serve g q) s), invoke_steps. Qed.
Lemma serve_grows (g : AgentGateway W) q s : sound (tracer s) →
  (length (chain (tracer s)) < length (chain (tracer (snd (serve g q s)))))%nat.
Proof.
  intros Hs. unfold serve.
  destruct (invoke_span g (rq_signed q) (rq_envelope q) (rq_package q) (rq_tool q) (rq_arguments q) (rq_tokens q) (rq_cost q))
    as (x & a & b & -> & Hb). by apply span_traced.
Qed.
Lemma serve_balanced (g : AgentGateway W) q : balanced (serve g q).
Proof. apply balanced_invoke. Qed.

(** The calls a task has made, and what is left to keep of its budget. *)
Definition calls_of (t : string) (w : Gate W) : Z := match _budgets w !! t with Some b => calls b | None => 0 end.
Lemma route_elem role name (l : list (string * string * BoundedTool W)) tool : route role name l = Some tool → (role, name, tool) ∈ l.
Proof.
  induction l as [|[[r n] t] l IH]; cbn; [done|]. case_decide as Hd; [|by intros ?%IH; right].
  destruct Hd as [-> ->]. intros [= ->]. by left.
Qed.

(** *** What the checks amount to *)

(** No argument the identity is constrained on names the subject it works for. *)
Definition independent (i : AgentIdentity) (arguments : dict) : Prop :=
  ∀ subject c v, independence_subject i = Some subject → c ∈ independence_constraints i →
    dict_get c arguments = Some v → v ≠ JNull → py_str v ≠ subject.

(** The first tool the package declares under the name, as the code looks it up. *)
Definition declares (p : AgentPackage) (name : string) (t : DeclaredTool) : Prop :=
  ∃ before after, pkg_tools p = before ++ t :: after ∧ decl_name t = name ∧
    Forall (λ u, decl_name u ≠ name) before.

(** What is left of the budget of a task before a call. *)
Definition affordable (g : AgentGateway W) (e : ExecutionEnvelope) (w : Gate W) : Prop :=
  match _budgets w !! env_task_id e with
  | Some b => calls b < max_calls b ∧ tokens b ≤ token_budget b ∧ fltb (cost_budget_usd b) (cost_usd b) = false
  | None => 0 < max_calls_per_task g ∧ 0 ≤ env_token_budget e ∧ fltb (env_cost_budget_usd e) zero = false
  end.

(** The conditions under which a tool may run, each said of the request. *)
Record warranted (g : AgentGateway W) (q : Request) (w : Gate W) (i : AgentIdentity) (tool : BoundedTool W) : Prop := {
  w_identity : i = subject (rq_signed q) ∧ bound_to i (rq_envelope q) ∧
    signed_by_trusted (trusted_public_keys (identity_verifier g)) identity_document (rq_signed q) ∧
    revocations (identity_verifier g) (identity_id i) = false;
  w_lifetime : issued_at (rq_signed q) < expires_at (rq_signed q) ∧
    expires_at (rq_signed q) - issued_at (rq_signed q) ≤ maximum_ttl (identity_verifier g) ∧
    ∃ n, issued_at (rq_signed q) - clock_skew (identity_verifier g) ≤ now_at n ≤
           expires_at (rq_signed q) + clock_skew (identity_verifier g);
  w_released : env_agent_role (rq_envelope q) = pkg_agent_id (rq_package q) ∧
    env_agent_version (rq_envelope q) = pkg_version (rq_package q) ∧
    (∀ f, f ∈ pkg_forbidden_actions (rq_package q) → f ∈ env_forbidden_actions (rq_envelope q));
  w_granted : rq_tool q ∈ env_allowed_tools (rq_envelope q) ∧ rq_tool q ∈ granted_tools i;
  w_routed : (env_agent_role (rq_envelope q), rq_tool q, tool) ∈ _routes g;
  w_independent : independent i (rq_arguments q);
  w_gate : ∃ t, declares (rq_package q) (rq_tool q) t ∧
    (truthy_json (requires_human_confirmation t) = true →
     ∃ gate, env_human_gate (rq_envelope q) = Some gate ∧ gate ≠ "");
  w_budget : affordable g (rq_envelope q) w;
  w_arguments : admissible_arguments (gw_armor g) (granted_evidence_scopes i) (id_forbidden_actions i) (rq_arguments q)
}.

Lemma breach_None subject constraints arguments :
  breach_of subject constraints arguments = None ↔
  ∀ c v, c ∈ constraints → dict_get c arguments = Some v → v ≠ JNull → py_str v ≠ subject.
Proof.
  induction constraints as [|c l IH]; cbn [breach_of]; [split; [by intros _ ? ? ?%elem_of_nil|done]|].
  setoid_rewrite elem_of_cons. unfold get.
  destruct (dict_get c arguments) as [v|] eqn:Ev; cbn [default].
  - assert (Hd : (if decide (py_str v = subject) then
        Some ("separation of duties: identity may not act on " +:+ c +:+ "=" +:+ json_repr v +:+
              ", which its own subject produced") else breach_of subject l arguments) = None ↔
      py_str v ≠ subject ∧ ∀ c v, c ∈ l → dict_get c arguments = Some v → v ≠ JNull → py_str v ≠ subject).
    { rewrite <- IH. case_decide; [by split; [|intros [? _]]|tauto]. }
    assert (Hall : v ≠ JNull →
      (py_str v ≠ subject ∧ ∀ c v, c ∈ l → dict_get c arguments = Some v → v ≠ JNull → py_str v ≠ subject) ↔
      ∀ c0 v0, c0 = c ∨ c0 ∈ l → dict_get c0 arguments = Some v0 → v0 ≠ JNull → py_str v0 ≠ subject).
    { intros Hn. split; [|intros Ha; split; [by apply (Ha c); [left|..]|naive_solver]].
      intros [Hx Hy] c0 v0 [-> |Hc] E0 Hn0; [congruence|by eapply Hy]. }
    destruct v; try (rewrite Hd; by apply Hall). rewrite IH. split; [|naive_solver].
    intros Ha c0 v0 [-> |Hc] E0 Hn0; [congruence|by eapply Ha].
  - rewrite IH. split; [|naive_solver]. intros Ha c0 v0 [-> |Hc] E0 Hn0; [congruence|by eapply Ha].
Qed.
Lemma no_breach i arguments : _independence_breach i arguments = None ↔ independent i arguments.
Proof.
  unfold _independence_breach, independent. destruct (independence_subject i) as [s|]; [|by split].
  rewrite breach_None. naive_solver.
Qed.

Lemma find_tool_declares name p t : find_tool name (pkg_tools p) = Some t ↔ declares p name t.
Proof.
  unfold declares. induction (pkg_tools p) as [|u l IH]; cbn [find_tool].
  { split; [done|]. by intros ([|? ?] & ? & [=] & _). }
  case_decide as Hu.
  - split; [intros [= ->]; by exists [], l|]. intros ([|u' before] & after & [= -> ->] & Ht & Hb); [done|].
    by apply Forall_cons in Hb as [? _].
  - rewrite IH. split; intros (before & after & E & Ht & Hb).
    + exists (u :: before), after. rewrite E. split_and!; [done..|]. by constructor.
    + destruct before as [|u' before]; injection E as -> ->; [done|]. apply Forall_cons in Hb as [_ Hb]. eauto.
Qed.

Lemma gate_open_spec e : gate_open e = true ↔ ∃ gate, env_human_gate e = Some gate ∧ gate ≠ "".
Proof.
  unfold gate_open, truthy. destruct (env_human_gate e) as [x|]; [|split; [done|by intros (? & ? & _)]].
  split; [intros Hx; exists x; split; [done|by intros ->]|]. intros (y & [= <-] & Hy). by destruct x.
Qed.
Lemma exceeded_None b :
  exceeded b = None ↔ calls b < max_calls b ∧ tokens b ≤ token_budget b ∧ fltb (cost_budget_usd b) (cost_usd b) = false.
Proof.
  unfold exceeded. destruct (Z.leb_spec (max_calls b) (calls b)); [split; [done|lia]|].
  destruct (Z.ltb_spec (token_budget b) (tokens b)); [split; [done|lia]|].
  destruct (fltb _ _); split; [done|by intros (_ & _ & ?)|done|done].
Qed.

Lemma admitted_warranted g q w i tool : admitted g q w i tool → warranted g q w i tool.
Proof.
  intros ((n & Hv) & (Hp & Hr & Hg & Hi & Hn) & Hx & Ha).
  apply verify_Ok in Hv as (Ei & Hl1 & Hl2 & Hl3 & Hs & Hrev & Hb).
  apply authorize_tool_spec in Hp as (Hp & Hallow & t & Et & _). apply authorize_spec in Hp as (R1 & R2 & _ & R3).
  split; try done.
  - split_and!; [done|by apply Hb|done|done].
  - split_and!; [done..|]. by exists n.
  - by apply route_elem.
  - by apply no_breach.
  - exists t. split; [by apply find_tool_declares|]. intros Hc. unfold needs_gate in Hn. rewrite Et, Hc in Hn.
    by apply gate_open_spec, negb_false_iff.
  - unfold affordable. unfold budget_of in Hx. apply exceeded_None in Hx.
    destruct (_budgets w !! env_task_id (rq_envelope q)); done.
Qed.

Definition budgets_sound (g : AgentGateway W) (w : Gate W) : Prop :=
  ∀ t b, _budgets w !! t = Some b → max_calls b = max_calls_per_task g ∧ 0 ≤ calls b ≤ Z.max 0 (max_calls b).

Lemma budgets_sound_ext (g : AgentGateway W) w w' : _budgets w' = _budgets w → budgets_sound g w → budgets_sound g w'.
Proof. unfold budgets_sound. by intros ->. Qed.
Lemma budget_of_sound (g : AgentGateway W) e w : budgets_sound g w →
  max_calls (budget_of g e w) = max_calls_per_task g ∧ 0 ≤ calls (budget_of g e w) ≤ Z.max 0 (max_calls (budget_of g e w)) ∧
  calls (budget_of g e w) = calls_of (env_task_id e) w.
Proof.
  intros Hb. unfold budget_of, calls_of. destruct (_budgets w !! env_task_id e) as [b|] eqn:E; cbn.
  - destruct (Hb _ _ E). split_and!; done || lia.
  - split_and!; done || lia.
Qed.
Lemma untouched_sound (g : AgentGateway W) q w w1 : untouched g q w w1 → budgets_sound g w →
  budgets_sound g w1 ∧ (∀ t, calls_of t w1 = calls_of t w) ∧ handlers_state w1 = handlers_state w ∧ decisions w1 = decisions w.
Proof.
  intros [-> | ->] Hb; [done|]. destruct (budget_of_sound g (rq_envelope q) w Hb) as (E1 & E2 & E3).
  split_and!; try done.
  - intros t b. cbn. rewrite lookup_insert. case_decide; [intros [= <-]; done|apply Hb].
  - intros t. unfold calls_of at 1. cbn. rewrite lookup_insert. case_decide; [by subst|done].
Qed.
Lemma after_tool_sound (g : AgentGateway W) q h w : budgets_sound g w → exceeded (budget_of g (rq_envelope q) w) = None →
  budgets_sound g (after_tool g q h w) ∧
  (∀ t, calls_of t (after_tool g q h w) = calls_of t w + (if decide (t = env_task_id (rq_envelope q)) then 1 else 0)).
Proof.
  intros Hb He. destruct (budget_of_sound g (rq_envelope q) w Hb) as (E1 & E2 & E3).
  assert (calls (budget_of g (rq_envelope q) w) < max_calls (budget_of g (rq_envelope q) w)).
  { unfold exceeded in He. destruct (_ <=? _) eqn:El; [discriminate|]. by apply Z.leb_gt in El. }
  split.
  - intros t b. cbn. rewrite lookup_insert. case_decide; [intros [= <-]; cbn; split; [done|lia]|apply Hb].
  - intros t. unfold calls_of at 1. cbn. destruct (decide (t = env_task_id (rq_envelope q))) as [->|Hne].
    + rewrite lookup_insert_eq. cbn. lia.
    + rewrite lookup_insert_ne by congruence. unfold calls_of. lia.
Qed.

(** A step keeps the budgets, and runs at most one tool, which is counted. *)
Lemma step_sound (g : AgentGateway W) q w r w' : call_step g q w r w' → budgets_sound g w →
  budgets_sound g w' ∧
  ((handlers_state w' = handlers_state w ∧ ∀ t, calls_of t w' = calls_of t w) ∨
   (∃ i tool x, admitted g q w i tool ∧
      tool_handler tool (rq_arguments q) i (rq_envelope q) (handlers_state w) = (x, handlers_state w') ∧
      ∀ t, calls_of t w' = calls_of t w + (if decide (t = env_task_id (rq_envelope q)) then 1 else 0))).
Proof.
  assert (Hreach : ∀ i tool x h d, admitted g q w i tool →
    tool_handler tool (rq_arguments q) i (rq_envelope q) (handlers_state w) = (x, h) →
    recorded (rq_envelope q) (rq_tool q) d (after_tool g q h w) w' → budgets_sound g w →
    budgets_sound g w' ∧ ∃ i tool x, admitted g q w i tool ∧
      tool_handler tool (rq_arguments q) i (rq_envelope q) (handlers_state w) = (x, handlers_state w') ∧
      ∀ t, calls_of t w' = calls_of t w + (if decide (t = env_task_id (rq_envelope q)) then 1 else 0)).
  { intros i tool x h d Ha Eh (Eb & Ehs & _) Hb. destruct (after_tool_sound g q h w Hb ltac:(apply Ha)) as [Hs Hc].
    split; [by eapply budgets_sound_ext|]. exists i, tool, x. split; [done|]. split; [by rewrite Ehs|].
    intros t. rewrite <- Hc. unfold calls_of. by rewrite Eb. }
  intros Hs Hb. destruct Hs as [e w' Hu|d w1 w' Hu Hr _ _|i tool x h d w' Ha Eh Hr _ _|i tool x h d w' Ha Eh _ Hr _ _|i tool x h d w' Ha Eh _ Hr _ _].
  - destruct (untouched_sound _ _ _ _ Hu Hb) as (? & ? & ? & _). auto.
  - destruct (untouched_sound _ _ _ _ Hu Hb) as (Hb1 & Hc & Hh & _). destruct Hr as (Eb & Ehs & _).
    split; [by eapply budgets_sound_ext|]. left. split; [congruence|]. intros t. rewrite <- Hc. unfold calls_of. by rewrite Eb.
  - destruct (Hreach i tool (inr x) h d Ha Eh Hr Hb). auto.
  - destruct (Hreach i tool (inl x) h d Ha Eh Hr Hb). auto.
  - destruct (Hreach i tool (inl x) h d Ha Eh Hr Hb). auto.
Qed.

Lemma serve_all_balanced (g : AgentGateway W) qs s : sound (tracer s) →
  sound (tracer (snd (serve_all g qs s))) ∧ open_spans (tracer (snd (serve_all g qs s))) = open_spans (tracer s) ∧
  trace_id (tracer (snd (serve_all g qs s))) = trace_id (tracer s) ∧
  (length (chain (tracer s)) ≤ length (chain (tracer (snd (serve_all g qs s)))))%nat.
Proof.
  revert s. induction qs as [|q qs IH]; intros s Hs; cbn [serve_all]; [done|].
  destruct (serve_balanced g q s Hs) as (E1 & E2 & E3 & E4). destruct (serve g q s) as [r s1]. cbn in *.
  destruct (IH s1 E1) as (F1 & F2 & F3 & F4). destruct (serve_all g qs s1) as [rs s2]. cbn in *.
  split_and!; [done|congruence..|lia].
Qed.
Lemma serve_all_bounded (g : AgentGateway W) (f : W → Z) t qs s :
  (∀ role name tool arguments i e h, (role, name, tool) ∈ _routes g → f (snd (tool_handler tool arguments i e h)) ≤ f h + 1) →
  Forall (λ q, env_task_id (rq_envelope q) = t) qs → budgets_sound g (world s) →
  let s' := snd (serve_all g qs s) in
  budgets_sound g (world s') ∧
  f (handlers_state (world s')) - calls_of t (world s') ≤ f (handlers_state (world s)) - calls_of t (world s).
Proof.
  intros Hf Hqs. revert s. induction Hqs as [|q qs Hq _ IH]; intros s Hb; cbn [serve_all]; [split; [done|cbn; lia]|].
  pose proof (serve_step g q s) as Hstep. destruct (serve g q s) as [r s1]. cbn [fst snd] in *.
  destruct (step_sound _ _ _ _ _ Hstep Hb) as [Hb1 Hc]. specialize (IH s1 Hb1).
  destruct (serve_all g qs s1) as [rs s2]. cbn [snd] in *. destruct IH as [Hb2 Hd]. split; [done|].
  destruct Hc as [[Eh Ec]|(i & tool & x & Ha & Eh & Ec)].
  - rewrite Eh, Ec in Hd. done.
  - destruct Ha as (_ & (_ & Hr & _) & _). apply route_elem in Hr. pose proof (Hf _ _ tool (rq_arguments q) i (rq_envelope q) (handlers_state (world s)) Hr) as Hf'.
    rewrite Eh in Hf'. cbn in Hf'.
    rewrite Ec, decide_True in Hd by done. lia.
Qed.
End sessions.
