(* ===== verification/GovRuntimeSpec.v ===== *)
(** * Governance: what a run of the agent runtime does

    The record of a run: the calls it put to the gateway and the exchanges it had with
    the model.  A result reports that record, keeps to its ceilings, and is completed
    only when it passes both gates on what it reports. *)

From Stdlib Require Import Ascii.
From S2P Require Import Prelude PyFloat PyTime Ledger PyText PyRegex PyCodec Materiality.
From S2P Require Import GovPolicy GovIdentity GovTelemetry GovArmor GovGateway GovRuntime.
Local Open Scope Z_scope.

(** ** The size of a text *)

(** The words of a text begin where a character follows a space, or the start. *)
Definition word_starts (before : ascii) (l : list ascii) : list (ascii * ascii) :=
  List.filter (λ '(a, b), is_space a && negb (is_space b)) (combine (before :: l) l).
Definition word_count (text : string) : Z := zlen (word_starts " " (String.list_ascii_of_string text)).
(** What a text takes up in tokens at least: two for seven characters, one for a word,
    one for a text at all. *)
Inductive takes_up (text : string) : Z → Prop :=
  | takes_nothing : takes_up text 0
  | takes_length : takes_up text (Z.of_nat (String.length text) * 2 / 7)
  | takes_words : takes_up text (word_count text)
  | takes_one : text ≠ "" → takes_up text 1.

Lemma word_starts_cons p c l :
  zlen (word_starts p (c :: l)) = (if is_space p && negb (is_space c) then 1 else 0) + zlen (word_starts c l).
Proof. unfold word_starts. cbn [combine List.filter]. destruct (_ && _); unfold zlen; cbn [length]; lia. Qed.
Lemma words_starts b p l : is_space p = negb b → words b l = (if b then 1 else 0) + zlen (word_starts p l).
Proof.
  revert b p. induction l as [|c l IH]; intros b p Hp; [by destruct b|].
  cbn [words]. rewrite word_starts_cons, Hp. destruct (is_space c) eqn:Ec.
  - rewrite (IH false c Ec), andb_false_r. lia.
  - rewrite (IH true c Ec), andb_true_r. destruct b; cbn; lia.
Qed.
Lemma token_floor_count text : token_floor text = word_count text.
Proof. unfold token_floor. by rewrite (words_starts false " "%char). Qed.
Lemma takes_up_estimate text n : takes_up text n → n ≤ estimate_tokens text.
Proof.
  unfold estimate_tokens. rewrite token_floor_count. destruct (decide (text = "")) as [->|Hne]; intros []; cbn; try done; try lia.
Qed.
Lemma estimate_takes_up text : takes_up text (estimate_tokens text).
Proof.
  unfold estimate_tokens. rewrite token_floor_count. case_decide as Hne; [constructor|].
  destruct (Z.max_spec (Z.of_nat (String.length text) * 2 / 7) (word_count text)) as [[_ ->]|[_ ->]];
    match goal with |- takes_up _ (Z.max ?a 1) => destruct (Z.max_spec a 1) as [[_ ->]|[_ ->]] end; by constructor.
Qed.

(** ** What a run does to the gateway and to the model *)

Section record.
Context `{Sha256} `{IpLiterals} `{Ed25519} `{Observability} `{UuidSource} `{JsonReader} `{PackageFiles} {W M : Type}.

(** The calls of a run, in order, with their outcomes: each is a step of the gateway,
    under one credential, envelope and package. *)
Definition Call : Type := Request * (json + failure).
Inductive conversation (g : AgentGateway W) (signed : SignedAgentIdentity) (t : AgentTask) (w : Gate W) : list Call → Gate W → Prop :=
  | conversation_nil : conversation g signed t w [] w
  | conversation_snoc l w1 q r w2 : conversation g signed t w l w1 →
      rq_signed q = signed → rq_envelope q = task_envelope t → rq_package q = task_package t →
      call_step g q w1 r w2 → conversation g signed t w (l ++ [(q, r)]) w2.
Definition put (c : Call) : string * string := (rq_tool c.1, dumps (JObj (rq_arguments c.1))).
Definition answered (l : list Call) : list (string * dict * json) :=
  omap (λ '(q, r), match r with inl v => Some (rq_tool q, rq_arguments q, v) | _ => None end) l.
Definition refusals (l : list Call) : list string :=
  omap (λ '(_, r), match r with inr (Denied d) => Some (stage d +:+ ": " +:+ reason d) | _ => None end) l.
Definition learned (l : list Observation) : list (string * dict * json) :=
  omap (λ o, if decide (ob_outcome o = "allowed") then v ← ob_result o; Some (ob_tool o, ob_arguments o, v) else None) l.

(** The calls of the model, with its answers. *)
Record Exchange := mkExchange { ex_system : string; ex_prompt : string; ex_budget : Z; ex_reply : ModelResponse + string * string }.
Inductive dialogue (gen : Generate M) (m : M) : list Exchange → M → Prop :=
  | dialogue_nil : dialogue gen m [] m
  | dialogue_snoc l m1 x m2 : dialogue gen m l m1 → gen (ex_system x) (ex_prompt x) (ex_budget x) m1 = (ex_reply x, m2) →
      dialogue gen m (l ++ [x]) m2.
(** What is sent fits the window the deployment serves, together with the answer. *)
Definition fits (rt : GovernedAgentRuntime W M) (t : AgentTask) (x : Exchange) : Prop :=
  ex_system x = system_prompt (task_package t) ∧ ex_budget x = Z.min (max_output_tokens rt) (env_token_budget (task_envelope t)) ∧
  ∀ window, context_window_tokens rt = Some window → window ≠ 0 →
    estimate_tokens (ex_system x) + estimate_tokens (ex_prompt x) + ex_budget x ≤ window.

(** What has been done since [b0], in at most [c] calls and [x] exchanges. *)
Record tracked (rt : GovernedAgentRuntime W M) (signed : SignedAgentIdentity) (t : AgentTask) (b0 : Bench W M) (c x : nat)
    (log : list Call) (ex : list Exchange) (b : Bench W M) : Prop := mk_tracked {
  tr_calls : conversation (rt_gateway rt) signed t (gate b0) log (gate b);
  tr_once : NoDup (map put log);
  tr_count : (length log ≤ c)%nat;
  tr_dialogue : dialogue (rt_generate rt) (model_state b0) ex (model_state b);
  tr_fits : Forall (fits rt t) ex;
  tr_asked : (length ex ≤ x)%nat
}.
(** What the loop carries is what the calls came to. *)
Record noted (log : list Call) (p : Progress) : Prop := mk_noted {
  nt_learned : learned (pg_observations p) = answered log;
  nt_calls : pg_tool_calls p = map (λ a, a.1.1) (answered log);
  nt_denials : pg_denials p = refusals log;
  nt_invoked : ∀ c, c ∈ log → put c ∈ already_invoked p
}.
Record reported (log : list Call) (r : AgentRunResult) : Prop := mk_reported {
  rp_calls : run_tool_calls r = map (λ a, a.1.1) (answered log);
  rp_denials : run_denials r = refusals log;
  rp_learned : run_status r ∉ ["context_exceeded"; "model_unavailable"] → learned (run_observations r) = answered log
}.
Definition follows rt signed t b0 c x (p : Progress) (b : Bench W M) : Prop :=
  ∃ log ex, tracked rt signed t b0 c x log ex b ∧ noted log p.
Definition ended rt signed t b0 c x (b : Bench W M) : Prop := ∃ log ex, tracked rt signed t b0 c x log ex b.

(** A summary leaves the boundary empty, or screened with no secret in it. *)
Definition summary_screened (a : ModelArmor) (summary : string) : Prop :=
  summary = "completed" ∨
  ∃ raw r, inspect_output a raw true = Ok r ∧ ¬ seen_in raw _SECRET_PATTERNS ∧
    summary = (if redaction_count r =? 0 then raw else default "" (sanitized_text r)).
(** A completed result passes both gates on what it reports; any other has no output. *)
Definition admissible (rt : GovernedAgentRuntime W M) (t : AgentTask) (r : AgentRunResult) : Prop :=
  match run_output r with
  | Some output => run_status r = "completed" ∧
      _validate_output (task_package t) output (map evidence_id (evidence t) ++ _observed_evidence_ids (run_observations r)) = None ∧
      _review_output output (run_observations r) (quality t) = Ok None ∧ summary_screened (rt_armor rt) (run_summary r)
  | None => run_status r ≠ "completed"
  end.

(** ** Frames *)

Lemma effect_in_gate {A} (m : Traced (Gate W) failure A) (b : Bench W M) Q :
  effect m (gate b) (λ r g, Q r (mkBench g (model_state b))) → effect (in_gate m) b Q.
Proof. intros Hm t. specialize (Hm t). unfold in_gate. cbn. destruct (m _) as [r s']. exact Hm. Qed.
Lemma effect_if_raises {A} (m : Traced (Bench W M) failure A) h b Q :
  effect m b (λ r b', match r with inl a => Q (inl a) b' | inr e => effect (h e) b' Q end) → effect (if_raises m h) b Q.
Proof.
  intros Hm t. specialize (Hm t). unfold if_raises. destruct (m _) as [[a|e] [t' b']]; cbn in *; [done|]. apply Hm.
Qed.
Lemma effect_raise_res {A} (r : Res A) (b : Bench W M) Q :
  (∀ a, r = Ok a → Q (inl a) b) → (∀ e, r = Err e → Q (inr (Raised e)) b) → effect (raise_res r) b Q.
Proof. intros K1 K2 t. destruct r as [a|e]; cbn; [by apply K1|by apply K2]. Qed.
Lemma effect_when v (m : Traced (Bench W M) failure unit) b Q : effect m b Q → Q (inl tt) b → effect (when_ v m) b Q.
Proof. intros Hm HQ. destruct v; [exact Hm|by apply effect_ret]. Qed.

Lemma balanced_in_gate {A} (m : Traced (Gate W) failure A) : balanced m → balanced (in_gate (M:=M) m).
Proof. intros Hm s Hs. specialize (Hm (mkScene (tracer s) (gate (world s))) Hs). unfold in_gate. destruct (m _) as [r s']. exact Hm. Qed.
Lemma balanced_raise_res {A} (r : Res A) : balanced (raise_res (W:=W) (M:=M) r).
Proof. by destruct r; intros s Hs. Qed.

(** ** The record grows *)

Lemma tracked_mono rt signed t b0 c c' x x' log ex (b : Bench W M) :
  (c ≤ c')%nat → (x ≤ x')%nat → tracked rt signed t b0 c x log ex b → tracked rt signed t b0 c' x' log ex b.
Proof. intros Hc Hx []. constructor; done || lia. Qed.
Lemma follows_mono rt signed t b0 c c' x x' p (b : Bench W M) :
  (c ≤ c')%nat → (x ≤ x')%nat → follows rt signed t b0 c x p b → follows rt signed t b0 c' x' p b.
Proof. intros Hc Hx (log & ex & Ht & Hn). exists log, ex. split; [by eapply tracked_mono|done]. Qed.
Lemma follows_ended rt signed t b0 c x p (b : Bench W M) : follows rt signed t b0 c x p b → ended rt signed t b0 c x b.
Proof. intros (log & ex & Ht & _). by exists log, ex. Qed.
Lemma ended_mono rt signed t b0 c c' x x' (b : Bench W M) :
  (c ≤ c')%nat → (x ≤ x')%nat → ended rt signed t b0 c x b → ended rt signed t b0 c' x' b.
Proof. intros Hc Hx (log & ex & Ht). exists log, ex. by eapply tracked_mono. Qed.
Lemma follows_start rt signed t (b : Bench W M) reasoning armor repairs :
  follows rt signed t b 0 0 (mkProgress [] reasoning [] [] armor repairs "" []) b.
Proof.
  exists [], []. split; constructor; try done; try constructor. cbn. intros c Hc. by apply not_elem_of_nil in Hc.
Qed.

(** A call of the gateway that has not been put before. *)
Lemma tracked_call rt signed t b0 c x log ex (b : Bench W M) p q r w' :
  tracked rt signed t b0 c x log ex b → noted log p → put (q, r) ∉ already_invoked p →
  rq_signed q = signed → rq_envelope q = task_envelope t → rq_package q = task_package t → call_step (rt_gateway rt) q (gate b) r w' →
  tracked rt signed t b0 (S c) x (log ++ [(q, r)]) ex (mkBench w' (model_state b)).
Proof.
  intros [K1 K2 K3 K4 K5 K6] Hn Hp E1 E2 E3 Hs. constructor; try done.
  - by eapply conversation_snoc.
  - rewrite map_app. apply NoDup_app. split; [done|]. split; [|repeat constructor; by apply not_elem_of_nil].
    intros s (a & -> & Ha)%list_elem_of_fmap [Heq|[]%elem_of_nil]%elem_of_cons.
    apply Hp. rewrite <- Heq. by apply (nt_invoked _ _ Hn).
  - rewrite length_app. cbn. lia.
Qed.
(** What the loop keeps of a call. *)
Lemma noted_same log p p' :
  learned (pg_observations p') = learned (pg_observations p) → pg_tool_calls p' = pg_tool_calls p → pg_denials p' = pg_denials p →
  already_invoked p ⊆ already_invoked p' → noted log p → noted log p'.
Proof. intros E1 E2 E3 E4 [K1 K2 K3 K4]. constructor; [congruence..|]. intros c Hc. by apply E4, K4. Qed.
Lemma noted_call log p p' c :
  noted log p → put c ∈ already_invoked p' → already_invoked p ⊆ already_invoked p' →
  learned (pg_observations p') = learned (pg_observations p) ++ answered [c] →
  pg_tool_calls p' = pg_tool_calls p ++ map (λ a, a.1.1) (answered [c]) → pg_denials p' = pg_denials p ++ refusals [c] →
  noted (log ++ [c]) p'.
Proof.
  intros [K1 K2 K3 K4] Hc Hi E1 E2 E3. unfold answered, refusals in *. constructor.
  - rewrite E1, K1. unfold answered. by rewrite omap_app.
  - rewrite E2, K2. unfold answered. by rewrite omap_app, map_app.
  - rewrite E3, K3. unfold refusals. by rewrite omap_app.
  - intros d [Hd|[->|[]%elem_of_nil]%elem_of_cons]%elem_of_app; [by apply Hi, K4|done].
Qed.
Lemma learned_snoc l o : learned (l ++ [o]) = learned l ++ learned [o].
Proof. apply omap_app. Qed.
End record.
#[export] Hint Resolve balanced_in_gate balanced_raise_res balanced_invoke : traced.

(** ** The parts of a round *)

Section rounds.
Context `{Sha256} `{IpLiterals} `{Ed25519} `{Observability} `{UuidSource} `{JsonReader} `{PackageFiles} {W M : Type}.
Variable rt : GovernedAgentRuntime W M.
Variable t : AgentTask.
Variable signed : SignedAgentIdentity.
Variable b0 : Bench W M.

Abbreviation follows' := (follows rt signed t b0).
Abbreviation ended' := (ended rt signed t b0).

(** A call that is answered, refused or raises, put for the first time. *)
Lemma effect_invoke_one c x (executed : bool) index call tokens p b (Q : Progress + failure → Bench W M → Prop) :
  follows' c x p b →
  (∀ p' b', follows' (if executed then S c else c) x p' b' → Q (inl p') b') →
  (∀ e b', ended' (S c) x b' → executed = true → Q (inr (Raised e)) b') →
  effect (invoke_one rt t signed tokens executed index call p) b Q.
Proof.
  intros (log & ex & Ht & Hn) K1 K2. unfold invoke_one. cbn zeta. case_decide as Hs.
  { apply effect_ret, K1. exists log, ex. split; [destruct executed; [by eapply tracked_mono; [..|exact Ht]; lia|done]|].
    eapply noted_same; [..|exact Hn]; try done. cbn. by rewrite learned_snoc, app_nil_r. }
  set (p1 := mark_invoked (signature call) p).
  destruct executed; cbn [negb].
  2: { apply effect_ret, K1. exists log, ex. split; [done|]. eapply noted_same; [..|exact Hn]; try done; cbn.
    - by rewrite learned_snoc, app_nil_r.
    - intros s Hin. by right. }
  apply effect_span. intros _. apply effect_if_raises, effect_bind, effect_in_gate.
  set (q := mkRequest signed (task_envelope t) (task_package t) (call_name call) (call_arguments call) tokens zero).
  eapply effect_mono; [exact (invoke_steps (rt_gateway rt) q (gate b))|]. intros r w' Hstep.
  assert (Htr := tracked_call rt signed t b0 c x log ex b p q r w' Ht Hn Hs eq_refl eq_refl eq_refl Hstep).
  assert (Hnoted : ∀ p2, already_invoked p2 = signature call :: already_invoked p →
    learned (pg_observations p2) = learned (pg_observations p) ++ answered [(q, r)] →
    pg_tool_calls p2 = pg_tool_calls p ++ map (λ a, a.1.1) (answered [(q, r)]) → pg_denials p2 = pg_denials p ++ refusals [(q, r)] →
    follows' (S c) x p2 (mkBench w' (model_state b))).
  { intros p2 E0 E1 E2 E3. exists (log ++ [(q, r)]), ex. split; [exact Htr|]. eapply noted_call; [exact Hn|..]; try done.
    - rewrite E0. by left.
    - rewrite E0. intros s Hin. by right. }
  destruct r as [v|[d|e]].
  - apply effect_bind, effect_allow, effect_ret, K1, Hnoted; cbn; try done; [by rewrite learned_snoc|by rewrite app_nil_r].
  - apply effect_ret, K1, Hnoted; cbn; try done; [by rewrite learned_snoc|by rewrite app_nil_r].
  - apply effect_throw, K2; [|done]. exists (log ++ [(q, inr (Raised e))]), ex. exact Htr.
Qed.

Lemma effect_invoke_each c x (executed : bool) index calls tokens p b (Q : Progress + failure → Bench W M → Prop) :
  follows' c x p b →
  (∀ p' b', follows' (if executed then c + length calls else c)%nat x p' b' → Q (inl p') b') →
  (∀ e b', ended' (c + length calls)%nat x b' → executed = true → Q (inr (Raised e)) b') →
  effect (invoke_each rt t signed tokens executed index calls p) b Q.
Proof.
  revert c index p b. induction calls as [|call calls IH]; intros c index p b Hp K1 K2; cbn [invoke_each].
  { apply effect_ret, K1. cbn. eapply follows_mono; [..|exact Hp]; destruct executed; lia. }
  apply effect_bind. eapply effect_invoke_one; [exact Hp|..].
  - intros p1 b1 Hp1. eapply IH; [exact Hp1|..].
    + intros p' b' Hp'. apply K1. eapply follows_mono; [..|exact Hp']; destruct executed; cbn; lia.
    + intros e b' He ->. apply K2; [|done]. eapply ended_mono; [..|exact He]; cbn; lia.
  - intros e b' He ->. apply K2; [|done]. eapply ended_mono; [..|exact He]; cbn; lia.
Qed.

(** The screening of the deliberation keeps the record. *)
Lemma effect_screen_reasoning resp p b (Q : Progress + failure → Bench W M → Prop) :
  (∀ p', pg_observations p' = pg_observations p → pg_tool_calls p' = pg_tool_calls p → pg_denials p' = pg_denials p →
    already_invoked p' = already_invoked p → Q (inl p') b) →
  effect (screen_reasoning rt resp p) b Q.
Proof.
  intros K. unfold screen_reasoning. case_decide; [by apply effect_ret, K|].
  apply effect_span. intros _. apply effect_bind, effect_raise_res.
  - intros r _. apply effect_bind, effect_event, effect_bind, effect_allow, effect_ret. by apply K.
  - intros e He. destruct (output_screened (rt_armor rt) (reply_reasoning resp) true) as (r & Er & _). congruence.
Qed.

(** A call of the model is one more exchange. *)
Lemma effect_call_model c x system prompt budget estimated round p b (Q : ModelResponse + AgentRunResult + failure → Bench W M → Prop) :
  follows' c x p b → fits rt t (mkExchange system prompt budget (inr ("", ""))) →
  (∀ resp b', follows' c (S x) p b' → Q (inl (inl resp)) b') →
  (∀ trace cls text b', follows' c (S x) p b' → Q (inl (inr (model_unavailable t trace cls text p round))) b') →
  effect (call_model rt t system prompt budget estimated round p) b Q.
Proof.
  intros (log & ex & Ht & Hn) Hf K1 K2. unfold call_model. apply effect_span. intros i. apply effect_bind. intros tr. cbn [world tracer].
  destruct (rt_generate rt system prompt budget (model_state b)) as [r m] eqn:Eg. cbn [fst snd world].
  assert (Hb : follows' c (S x) p (mkBench (gate b) m)).
  { exists log, (ex ++ [mkExchange system prompt budget r]). split; [|done]. destruct Ht as [T1 T2 T3 T4 T5 T6]. constructor; try done.
    - by eapply dialogue_snoc.
    - apply Forall_app. split; [done|]. constructor; [exact Hf|constructor].
    - rewrite length_app. cbn. lia. }
  destruct r as [resp|[cls text]].
  - apply effect_bind, effect_on_tracer, effect_bind, effect_allow, effect_ret. by apply K1.
  - apply effect_bind, effect_deny, effect_bind, effect_look. intros tr'. apply effect_ret. by apply K2.
Qed.

(** ** A round *)

(** How a round ends: with a result, with more to do, or with a reply to conclude from. *)
Definition round_ok c x (r : round_end) (b : Bench W M) : Prop :=
  match r with
  | Finished r => ∃ log ex, tracked rt signed t b0 c x log ex b ∧ reported log r ∧ admissible rt t r
  | Continue p => follows' c x p b
  | Break co => follows' c x (co_progress co) b
  end.
Definition round_post c x (r : round_end + failure) (b : Bench W M) : Prop :=
  match r with inl r => round_ok c x r b | inr (Raised _) => ended' c x b | inr (Denied _) => False end.

Lemma failed_ok trace status summary resp p estimated rounds c x b :
  follows' c x p b → status ≠ "completed" → round_ok c x (Finished (_failed rt t trace status summary resp p estimated rounds)) b.
Proof.
  intros (log & ex & Ht & [N1 N2 N3 _]) Hs. exists log, ex. split; [done|]. split; [by constructor|exact Hs].
Qed.

Lemma noted_problem log s p : noted log p → noted log (set_problem s p).
Proof. by apply noted_same. Qed.
Lemma effect_after_reply c x (final : bool) estimated round resp parsed p b :
  follows' c x p b →
  effect (after_reply rt t signed final estimated round resp parsed p) b
    (round_post (if final then c else c + max_calls_per_round rt)%nat x).
Proof.
  intros Hp. unfold after_reply. cbn zeta. apply effect_bind.
  set (calls := firstn _ _). assert (Hl : (length calls ≤ max_calls_per_round rt)%nat) by (unfold calls; rewrite length_take; lia).
  eapply effect_invoke_each; [exact Hp|..].
  2: { intros e b' He Hx. cbn. destruct final; [done|]. eapply ended_mono; [..|exact He]; lia. }
  intros p1 b1 Hp1.
  assert (Hp2 : follows' (if final then c else c + max_calls_per_round rt)%nat x p1 b1)
    by (eapply follows_mono; [..|exact Hp1]; destruct final; cbn; lia).
  clear Hp1. destruct (_ && _); [by apply effect_ret|].
  apply effect_bind, effect_raise_res; [|intros e _; by eapply follows_ended].
  intros problem _. set (p2 := if decide _ then _ else _).
  assert (Hp3 : follows' (if final then c else c + max_calls_per_round rt)%nat x p2 b1).
  { destruct Hp2 as (log & ex & Ht & Hn). exists log, ex. split; [done|]. unfold p2. case_decide; [by apply noted_problem|done]. }
  destruct problem as [why|]; [|by apply effect_ret].
  destruct (_ || _); [by apply effect_ret|]. apply effect_bind, effect_event, effect_ret. cbn.
  destruct Hp3 as (log & ex & Ht & Hn). exists log, ex. split; [done|]. eapply noted_same; [..|exact Hn]; try done.
  cbn. by rewrite learned_snoc, app_nil_r.
Qed.

Lemma effect_run_round c x context_block (final : bool) round p b :
  follows' c x p b →
  effect (run_round rt t signed context_block final round p) b (round_post (if final then c else c + max_calls_per_round rt)%nat (S x)).
Proof.
  intros Hp. unfold run_round. cbn zeta. apply effect_bind, effect_look. intros tr.
  set (c' := (if final then c else c + max_calls_per_round rt)%nat). assert (Hc : (c ≤ c')%nat) by (unfold c'; destruct final; lia).
  set (required := _ + Z.min _ _). destruct (_ && _) eqn:Ew.
  { apply effect_bind, effect_deny, effect_ret. destruct Hp as (log & ex & Ht & [N1 N2 N3 _]). exists log, ex.
    split; [eapply tracked_mono; [..|exact Ht]; lia|]. split; [|done]. constructor; [done..|]. intros []. by left. }
  apply effect_bind. eapply effect_call_model; [exact Hp|..].
  { split_and!; try done. cbn. intros window Ew' Hne. rewrite Ew' in Ew. cbn in Ew.
    apply andb_false_iff in Ew as [Ew|Ew]; [by apply negb_false_iff, Z.eqb_eq in Ew|by apply Z.ltb_ge in Ew]. }
  2: { intros tr' cls text b' (log & ex & Ht & [N1 N2 N3 _]). apply effect_ret. exists log, ex.
       split; [eapply tracked_mono; [..|exact Ht]; lia|]. split; [|done]. constructor; [done..|]. intros []. by right; left. }
  intros resp b1 Hp1. apply (follows_mono _ _ _ _ c c' (S x) (S x)) in Hp1 as Hp1'; [|lia..].
  destruct (read_less _ _); [by apply effect_bind, effect_deny, effect_ret, failed_ok|].
  apply effect_bind, effect_screen_reasoning. intros p2 E1 E2 E3 E4.
  assert (Hp2 : follows' c (S x) p2 b1).
  { destruct Hp1 as (log & ex & Ht & Hn). exists log, ex. split; [done|]. eapply noted_same; [..|exact Hn]; by rewrite ?E1, ?E4. }
  assert (Hp2' : follows' c' (S x) p2 b1) by (eapply follows_mono; [..|exact Hp2]; lia).
  clear Ew. destruct (truncated resp && blank (reply_text resp)); [by apply effect_bind, effect_deny, effect_ret, failed_ok|].
  destruct (extract_json_object _) as [parsed|]; [by apply effect_after_reply|].
  apply effect_ret, failed_ok; [done|]. by destruct (truncated resp).
Qed.
End rounds.

(** ** The loop and the conclusion *)

Section run.
Context `{Sha256} `{IpLiterals} `{Ed25519} `{Observability} `{UuidSource} `{JsonReader} `{PackageFiles} {W M : Type}.
Variable rt : GovernedAgentRuntime W M.
Variable t : AgentTask.

(** How the loop ends. *)
Definition loop_post signed b0 c x (r : AgentRunResult + Concluded + failure) (b : Bench W M) : Prop :=
  match r with
  | inl (inl r) => ∃ log ex, tracked rt signed t b0 c x log ex b ∧ reported log r ∧ admissible rt t r
  | inl (inr co) => follows rt signed t b0 c x (co_progress co) b
  | inr (Raised _) => ended rt signed t b0 c x b
  | inr (Denied _) => False
  end.

(** The ceilings of a run: the last round puts no call. *)
Lemma effect_run_rounds signed b0 c x context_block n round p b :
  follows rt signed t b0 c x p b →
  effect (run_rounds rt t signed context_block n round p) b (loop_post signed b0 (c + n * max_calls_per_round rt) (x + S n)).
Proof.
  revert c x round p b. induction n as [|n IH]; intros c x round p b Hp; cbn [run_rounds]; apply effect_bind;
    (eapply effect_mono; [by apply effect_run_round|]).
  - rewrite bool_decide_eq_true_2 by done. intros [[r|p'|co]|[d|e]] b' Hr; cbn in Hr; try done.
    + destruct Hr as (log & ex & Ht & Hr). apply effect_ret. exists log, ex. split; [|done]. eapply tracked_mono; [..|exact Ht]; lia.
    + apply effect_throw. eapply follows_ended, follows_mono; [..|exact Hr]; lia.
    + apply effect_ret. eapply follows_mono; [..|exact Hr]; lia.
    + eapply ended_mono; [..|exact Hr]; lia.
  - rewrite bool_decide_eq_false_2 by done. intros [[r|p'|co]|[d|e]] b' Hr; cbn in Hr; try done.
    + destruct Hr as (log & ex & Ht & Hr). apply effect_ret. exists log, ex. split; [|done]. eapply tracked_mono; [..|exact Ht]; lia.
    + replace (c + S n * max_calls_per_round rt)%nat with (c + max_calls_per_round rt + n * max_calls_per_round rt)%nat by lia.
      replace (x + S (S n))%nat with (S x + S n)%nat by lia. by apply IH.
    + apply effect_ret. eapply follows_mono; [..|exact Hr]; lia.
    + eapply ended_mono; [..|exact Hr]; lia.
Qed.

(** What the screening of a summary passes on. *)
Lemma effect_screen_summary parsed armor b (Q : bool * string * dict * list ArmorResult + failure → Bench W M → Prop) :
  (∀ passed summary output armor', (passed = true → summary = "" ∨ summary_screened (rt_armor rt) summary) →
    Q (inl (passed, summary, output, armor')) b) →
  effect (screen_summary rt parsed armor) b Q.
Proof.
  intros K. unfold screen_summary. cbn zeta. case_decide; [apply effect_ret, K; by left|].
  destruct (output_screened (rt_armor rt) (text_or_empty (get "summary" parsed)) true) as (r & Er & Hb & _).
  apply effect_span. intros _. apply effect_bind, effect_raise_res; [|congruence]. intros r' Er'.
  assert (r' = r) as -> by congruence.
  destruct (blocked r) eqn:Ebl; [by apply effect_bind, effect_deny, effect_ret, K|].
  apply effect_bind, effect_allow, effect_ret.
  assert (Hs : summary_screened (rt_armor rt)
    (if redaction_count r =? 0 then text_or_empty (get "summary" parsed) else default "" (sanitized_text r))).
  { right. exists (text_or_empty (get "summary" parsed)), r. split_and!; [done| |done]. intros Hsec. assert (false = true) by (by apply Hb). done. }
  destruct (redaction_count r =? 0); apply K; by right.
Qed.

(** How a run ends. *)
Definition run_post signed b0 c x (r : AgentRunResult + failure) (b : Bench W M) : Prop :=
  match r with
  | inl r => ∃ log ex, tracked rt signed t b0 c x log ex b ∧ reported log r ∧ admissible rt t r
  | inr (Raised _) => ended rt signed t b0 c x b
  | inr (Denied _) => False
  end.

Lemma effect_conclude signed b0 c x co b :
  follows rt signed t b0 c x (co_progress co) b → effect (conclude rt t co) b (run_post signed b0 c x).
Proof.
  intros Hp. unfold conclude. cbn zeta. apply effect_bind, effect_look. intros tr. apply effect_bind, effect_screen_summary.
  intros passed summary output armor Hs. cbn zeta. set (p := with_armor armor (co_progress co)).
  assert (Hp' : follows rt signed t b0 c x p b).
  { destruct Hp as (log & ex & Ht & Hn). exists log, ex. split; [done|]. by eapply noted_same; [..|exact Hn]. }
  destruct passed; cbn [negb]; [|by apply effect_ret, (failed_ok rt t signed b0)].
  apply effect_bind, effect_raise_res; [|intros e _; by eapply follows_ended].
  intros [problem|] Hv; [by apply effect_ret, (failed_ok rt t signed b0)|].
  apply effect_bind, effect_allow, effect_ret. unfold judge, citable in Hv.
  destruct (_validate_output _ _ _) eqn:Ev in Hv; [discriminate|].
  destruct Hp' as (log & ex & Ht & [N1 N2 N3 _]). exists log, ex. split; [done|]. split; [by constructor|].
  split_and!; [done|exact Ev|exact Hv|]. cbn. case_decide as Hd; [by left|]. by destruct Hs.
Qed.

(** The credential of a run, if it is issued. *)
Definition issued_for (iss : AgentIdentityIssuer private_key) (signed : SignedAgentIdentity) : Prop := ∃ now nonce id,
  issue iss (task_package t) (task_envelope t) (task_release_id t) (task_independence_subject t) (task_independence_constraints t) None now
    nonce id = Ok signed.
Definition ceiling : nat := max_tool_rounds rt * max_calls_per_round rt.

Lemma effect_prepare_context a l b (Q : string * list ArmorResult + failure → Bench W M → Prop) :
  (∀ r, Q (inl r) b) → effect (_prepare_context a l) b Q.
Proof.
  intros K. unfold _prepare_context. apply effect_bind.
  cut (effect (inspect_items a l) b (λ r b', b' = b ∧ ∃ rs, r = inl rs)).
  { intros Hi. eapply effect_mono; [exact Hi|]. intros r b' [-> [rs ->]]. by apply effect_ret, K. }
  clear K. induction l as [|item l IH]; cbn [inspect_items]; [apply effect_ret; eauto|].
  apply effect_bind. unfold inspect_item. apply effect_bind, effect_span. intros _. cbn zeta. apply effect_bind.
  apply effect_when; [apply effect_event|]; apply effect_bind, effect_allow, effect_ret, effect_ret, effect_bind;
    (eapply effect_mono; [exact IH|]); intros r b' [-> [rs ->]]; apply effect_ret; eauto.
Qed.

(** A run, whatever the tracer. *)
Lemma effect_run_task iss b :
  effect (run iss rt t) b (λ r b',
    (∃ signed, issued_for iss signed ∧ run_post signed b ceiling (S (max_tool_rounds rt)) r b') ∨
    ((∃ e, r = inr (Raised e)) ∧ b' = b)).
Proof.
  unfold run. cbn zeta. apply effect_span. intros _.
  apply effect_bind, effect_reading. intros n. apply effect_bind, effect_reading. intros n1. apply effect_bind, effect_reading. intros n2.
  apply effect_bind, effect_raise_res; [|right; eauto]. intros signed Hi.
  assert (Hiss : issued_for iss signed) by (by eexists _, _, _).
  apply effect_bind, effect_event, effect_bind, effect_prepare_context. intros context. apply effect_bind.
  eapply effect_mono; [apply effect_run_rounds, follows_start|].
  intros [[r|co]|[d|e]] b' Hr; cbn in Hr; try done.
  - apply effect_ret. left. exists signed. done.
  - eapply effect_mono; [by apply effect_conclude|]. intros r b'' Hp. left. by exists signed.
  - left. exists signed. done.
Qed.

(** ** The trace of a run *)

Lemma balanced_inspect_items a l : balanced (inspect_items (W:=W) (M:=M) a l).
Proof.
  induction l as [|item l IH]; cbn [inspect_items]; [auto with traced|].
  apply balanced_bind; [unfold inspect_item; auto 20 with traced|]. intros r. auto with traced.
Qed.
Lemma balanced_call_model system prompt budget estimated round p :
  balanced (call_model rt t system prompt budget estimated round p).
Proof.
  apply balanced_span. intros i. apply balanced_bind.
  - intros s Hs. destruct (rt_generate _ _ _ _ _). done.
  - intros [resp|[cls text]]; auto 20 with traced.
Qed.
Lemma balanced_invoke_each signed tokens executed index calls p : balanced (invoke_each rt t signed tokens executed index calls p).
Proof.
  revert index p. induction calls as [|call calls IH]; intros index p; cbn [invoke_each]; [auto with traced|].
  apply balanced_bind; [unfold invoke_one; cbn zeta; auto 30 with traced|auto].
Qed.
Lemma balanced_run_round signed context_block final round p : balanced (run_round rt t signed context_block final round p).
Proof.
  unfold run_round, screen_reasoning, after_reply. cbn zeta.
  pose proof balanced_call_model. pose proof balanced_invoke_each. auto 60 with traced.
Qed.
Lemma balanced_run_rounds signed context_block n round p : balanced (run_rounds rt t signed context_block n round p).
Proof.
  revert round p. induction n as [|n IH]; intros round p; cbn [run_rounds]; (apply balanced_bind; [apply balanced_run_round|]); auto with traced.
Qed.
Lemma balanced_conclude co : balanced (conclude rt t co).
Proof. unfold conclude, screen_summary. cbn zeta. auto 60 with traced. Qed.
(** A run is one span around a balanced body. *)
Lemma run_span iss : ∃ attrs body, run iss rt t = span failure_text "assuranceos.agent.task" attrs body ∧ ∀ i, balanced (body i).
Proof.
  eexists _, _. split; [reflexivity|]. intros i. pose proof balanced_run_rounds. pose proof balanced_conclude.
  pose proof balanced_inspect_items. unfold _prepare_context. auto 40 with traced.
Qed.
End run.

(** ** What the gates let through *)

Section gates.
Context `{PackageFiles}.

Lemma validated p parsed ids : _validate_output p parsed ids = None →
  ∃ conclusion, get "conclusion" parsed = JStr conclusion ∧ conclusion ≠ "" ∧ schema_problem p parsed = None ∧
    (conclusion ∈ affirmative → cited_ids parsed ≠ [] ∧ (ids ≠ [] → cited_ids parsed ⊆ ids)).
Proof.
  unfold _validate_output. destruct (get "conclusion" parsed) as [| | | |conclusion| | |]; try done. case_decide; [done|].
  destruct (schema_problem p parsed); [done|]. cbn zeta. intros Hv. exists conclusion. split_and!; try done. intros Ha.
  rewrite bool_decide_eq_true_2 in Hv by done. destruct (cited_ids parsed) as [|c l] eqn:Ec; [done|]. cbn [nonempty negb] in Hv.
  split; [done|]. intros Hne x Hx. destruct ids as [|i ids]; [done|]. cbn [nonempty andb] in Hv.
  destruct (sorted_set _) as [|u us] eqn:Es; [|done]. destruct (decide (x ∈ i :: ids)) as [|Hn]; [done|]. exfalso.
  assert (Hin : x ∈ sorted_set (without (c :: l) (i :: ids))) by (rewrite elem_of_sorted_set, elem_of_without; done).
  rewrite Es in Hin. by apply elem_of_nil in Hin.
Qed.

(** The validator found nothing, if it was asked: it is when the schema is there, and every
    key it requires is. *)
Definition schema_checked (p : AgentPackage) (parsed : dict) : Prop :=
  ∀ schema l, output_schema_document p = inl schema → get "required" schema = JList l →
    (∀ v, v ∈ l → ∃ k, v = JStr k ∧ k ∈ map fst parsed) → validation_error schema parsed = None.
Lemma schema_problem_checked p parsed : schema_problem p parsed = None → schema_checked p parsed.
Proof.
  unfold schema_problem, schema_checked. intros Hp schema l Es El Hl. rewrite Es, El in Hp.
  destruct (omap unhashable l); [|done]. destruct (forallb _ l) eqn:Ef; [done|]. exfalso.
  apply not_true_iff_false in Ef. apply Ef, forallb_forall. intros v Hv%list_elem_of_In.
  destruct (Hl v Hv) as (k & -> & Hk). by apply bool_decide_eq_true.
Qed.

(** The conclusion, as the review reads it. *)
Definition reviewed_conclusion (parsed : dict) : string := lower (strip (text_or_empty (get "conclusion" parsed))).
(** The evidence identifiers a value holds, [n] levels down at most: a text under
    [evidence_id], and what a list under [evidence_ids] holds. *)
Inductive mentions : nat → json → string → Prop :=
  | mentions_id n fields x : ("evidence_id", JStr x) ∈ fields → x ≠ "" → mentions (S n) (JObj fields) x
  | mentions_ids n fields l v : ("evidence_ids", JList l) ∈ fields → v ∈ l → truthy_json v = true →
      mentions (S n) (JObj fields) (py_str v)
  | mentions_field n fields k v x : (k, v) ∈ fields → ¬ (k = "evidence_ids" ∧ ∃ l, v = JList l) → mentions n v x →
      mentions (S n) (JObj fields) x
  | mentions_item n l v x : v ∈ l → mentions n v x → mentions (S n) (JList l) x.
(** An identifier that came back from a tool. *)
Definition came_back (l : list Observation) (x : string) : Prop :=
  ∃ tool arguments v, (tool, arguments, v) ∈ learned l ∧ mentions 7 v x.

Lemma ids_in_mentions : ∀ n v x, x ∈ ids_in n v ↔ mentions n v x.
Proof.
  induction n as [|n IH]; intros v x.
  { split; [destruct v; by intros []%elem_of_nil|]. intros Hm. inversion Hm. }
  assert (Hstr : ∀ s, x ∉ ids_in n (JStr s)) by (intros s; destruct n; apply not_elem_of_nil).
  destruct v as [| | | | | |l|fields]; try (split; [by intros []%elem_of_nil|intros Hm; inversion Hm]).
  - cbn [ids_in]. rewrite list_elem_of_In, in_flat_map. setoid_rewrite <- list_elem_of_In. split.
    + intros (v & Hv & Hx). apply IH in Hx. by eapply mentions_item.
    + intros Hm. inversion Hm; subst. eexists. split; [done|]. by apply IH.
  - cbn [ids_in]. rewrite list_elem_of_In, in_flat_map. split.
    + intros ([k v] & Hk & Hx). apply list_elem_of_In in Hk, Hx. cbv beta iota in Hx.
      assert (Hf : ¬ (k = "evidence_ids" ∧ ∃ l, v = JList l) → x ∈ ids_in n v → mentions (S n) (JObj fields) x)
        by (intros Hn Hi; eapply mentions_field; [done|done|by apply IH]).
      destruct v as [| | | |s| |l|]; try (apply Hf; [by intros [_ [? [=]]]|done]).
      * case_decide as Hd; [|by apply Hstr in Hx]. destruct Hd as [-> Hne].
        apply list_elem_of_singleton in Hx as ->. by apply mentions_id.
      * case_decide as Hd; [|apply Hf; [by intros [? _]|done]]. subst k.
        apply list_elem_of_fmap in Hx as (v & -> & Hv). apply list_elem_of_In, filter_In in Hv as [Hv Ht].
        eapply mentions_ids; [done|by apply list_elem_of_In|done].
    + intros Hm. inversion Hm as [? ? ? Hk Hne|? ? l v Hk Hv Ht|? ? k v ? Hk Hn Hx|]; subst.
      * eexists. rewrite <- !list_elem_of_In. split; [done|]. cbn. rewrite decide_True by done. by left.
      * eexists. rewrite <- !list_elem_of_In. split; [exact Hk|]. cbn.
        apply list_elem_of_fmap_2, list_elem_of_In, filter_In. by rewrite <- list_elem_of_In.
      * exists (k, v). rewrite <- !list_elem_of_In. split; [done|]. apply IH in Hx.
        destruct v as [| | | |s| |l|]; try done; [by apply Hstr in Hx|]. case_decide; [|done]. destruct Hn. eauto.
Qed.
Lemma observed_came_back l x : x ∈ _observed_evidence_ids l ↔ came_back l x.
Proof.
  unfold _observed_evidence_ids, came_back, learned. rewrite list_elem_of_In, in_flat_map. split.
  - intros (o & Ho & Hx). apply list_elem_of_In in Ho, Hx. cbv beta in Hx. case_decide as Ha; [|by apply elem_of_nil in Hx].
    destruct (ob_result o) as [v|] eqn:Ev; [|by apply elem_of_nil in Hx]. exists (ob_tool o), (ob_arguments o), v.
    split; [|by apply ids_in_mentions]. apply list_elem_of_omap. exists o. split; [done|]. by rewrite decide_True, Ev.
  - intros (tool & arguments & v & (o & Ho & Hl)%list_elem_of_omap & Hm). exists o. rewrite <- !list_elem_of_In.
    split; [done|]. case_decide; [|done]. destruct (ob_result o); [|done]. injection Hl as <- <- <-. by apply ids_in_mentions.
Qed.

(** The results of the executed tests, and the exceptions each of them counts. *)
Definition executions (l : list Observation) : list dict :=
  omap (λ '(tool, _, v), match v with JObj d => if decide (tool = "tests.execute") then Some d else None | _ => None end) (learned l).
Definition counts_exceptions (d : dict) (n : Z) : Prop := py_int (json_or (get "exception_count" d) (JInt 0)) = Ok n.
Lemma test_runs_executions l : test_runs l = executions l.
Proof.
  unfold test_runs, executions, learned. induction l as [|o l IH]; [done|]. cbn. destruct (ob_result o) as [v|]; cbn.
  - destruct (decide (ob_outcome o = "allowed")) as [Ha|Ha]; cbn.
    + destruct v; cbn; try exact IH. destruct (decide (ob_tool o = "tests.execute")) as [Ht|Ht].
      * rewrite bool_decide_true by done. by rewrite IH.
      * rewrite bool_decide_false by tauto. exact IH.
    + destruct v; try exact IH. rewrite bool_decide_false by tauto. exact IH.
  - destruct (decide (ob_outcome o = "allowed")); exact IH.
Qed.
Lemma sum_exceptions_Ok runs n : sum_exceptions runs = Ok n →
  ∃ counts, Forall2 counts_exceptions runs counts ∧ foldr Z.add 0 counts = n.
Proof.
  revert n. induction runs as [|d runs IH]; intros n; cbn [sum_exceptions]; [intros [= <-]; by exists []|].
  intros (a & Ha & (b & Hb & [= <-])%res_bind_Ok)%res_bind_Ok. destruct (IH _ Hb) as (counts & Hc & <-).
  exists (a :: counts). split; [by constructor|done].
Qed.
Lemma rest_reviewed parsed conclusion runs : rest_of_review parsed conclusion runs = Ok None →
  (conclusion = "effective" → sum_exceptions runs = Ok 0) ∧
  (conclusion = "ineffective" → get "requires_human_approval" parsed = JBool true).
Proof.
  unfold rest_of_review. intros Hr. split; intros ->.
  - rewrite decide_True in Hr by done. destruct (sum_exceptions runs) as [n|e]; [|done]. cbn in Hr.
    destruct (n =? 0) eqn:En; [|done]. by apply Z.eqb_eq in En as ->.
  - cbn in Hr. destruct (get "requires_human_approval" parsed) as [|[]| | | | | |]; done.
Qed.
Lemma reviewed parsed l q : _review_output parsed l (Some q) = Ok None →
  (∀ test, required_control_test q = Some test → test ≠ "" → reviewed_conclusion parsed ∈ affirmative → test_runs l ≠ []) ∧
  (reviewed_conclusion parsed = "effective" → sum_exceptions (test_runs l) = Ok 0) ∧
  (reviewed_conclusion parsed = "ineffective" → get "requires_human_approval" parsed = JBool true).
Proof.
  unfold _review_output. fold (reviewed_conclusion parsed). cbn zeta. set (pinned := if truthy _ then _ else _). intros Hr.
  split; [intros test Et Hne Ha Hno|].
  - assert (Ep : pinned = Some test) by (unfold pinned; rewrite Et; cbn; by rewrite bool_decide_eq_false_2).
    rewrite Ep, Hno, bool_decide_eq_true_2 in Hr by done. done.
  - destruct pinned; [destruct (_ && _); [done|]|]; by apply rest_reviewed.
Qed.
Lemma test_runs_learned l d : d ∈ test_runs l → ∃ arguments, ("tests.execute", arguments, JObj d) ∈ learned l.
Proof.
  unfold test_runs, learned. intros (o & Ho & Hd)%list_elem_of_omap. exists (ob_arguments o).
  apply list_elem_of_omap. exists o. split; [done|]. destruct (ob_result o) as [[]|]; try done.
  destruct (bool_decide _) eqn:Eb in Hd; [|done]. apply bool_decide_eq_true in Eb as [E1 E2]. injection Hd as ->.
  rewrite decide_True by done. cbn. by rewrite E2.
Qed.
End gates.

(** ** A reply that is admissible at once *)

Section accepted.
Context `{Sha256} `{IpLiterals} `{Ed25519} `{Observability} `{UuidSource} `{JsonReader} `{PackageFiles} {W M : Type}.
Variable rt : GovernedAgentRuntime W M.
Variable t : AgentTask.

(** A reply the gates accept: complete, with a conclusion that needs no tool, resolvable
    citations, and a summary with nothing to redact. *)
Record acceptable (resp : ModelResponse) (parsed : dict) : Prop := mk_acceptable {
  ac_complete : truncated resp = false;
  ac_parsed : extract_json_object (reply_text resp) = Some parsed;
  ac_final : _requested_calls parsed = [];
  ac_valid : _validate_output (task_package t) parsed (map evidence_id (evidence t)) = None;
  ac_reviewed : _review_output parsed [] (quality t) = Ok None;
  ac_clean : let text := text_or_empty (get "summary" parsed) in
    ¬ (seen_in text _SECRET_PATTERNS ∨ seen_in text _PII_PATTERNS ∨ card_in text)
}.
Definition accepts (parsed : dict) (b : Bench W M) (r : AgentRunResult + failure) (b' : Bench W M) : Prop :=
  gate b' = gate b ∧ ∃ res, r = inl res ∧ run_status res = "completed" ∧ run_output res = Some parsed ∧ run_tool_rounds res = 1.

(** The two ways a run ends without an output when the evidence may not have been read:
    the window the deployment declares is too small for the prompt and the answer, or
    the server reports reading too few tokens for the words of the prompt. *)
Definition unread (resp : ModelResponse) (res : AgentRunResult) : Prop :=
  run_output res = None ∧ ∃ block tools final,
  let prompt := _build_prompt (rt_gateway rt) (task_envelope t) (instruction t) block tools [] final in
  (run_status res = "context_exceeded" ∧ ∃ window, context_window_tokens rt = Some window ∧ window ≠ 0 ∧
     window < estimate_tokens (system_prompt (task_package t)) + estimate_tokens prompt +
       Z.min (max_output_tokens rt) (env_token_budget (task_envelope t))) ∨
  (run_status res = "context_truncated" ∧ input_tokens resp ≠ 0 ∧
     read_less (input_tokens resp) (word_count prompt) = true).

Definition refused (iss : AgentIdentityIssuer private_key) (r : AgentRunResult + failure) : Prop := ∃ now nonce id e,
  issue iss (task_package t) (task_envelope t) (task_release_id t) (task_independence_subject t) (task_independence_constraints t) None now
    nonce id = Err e ∧ r = inr (Raised e).

Lemma effect_clean_summary parsed armor b (Q : bool * string * dict * list ArmorResult + failure → Bench W M → Prop) :
  (let text := text_or_empty (get "summary" parsed) in
    ¬ (seen_in text _SECRET_PATTERNS ∨ seen_in text _PII_PATTERNS ∨ card_in text)) →
  (∀ summary armor', Q (inl (true, summary, parsed, armor')) b) → effect (screen_summary rt parsed armor) b Q.
Proof.
  intros Hc K. unfold screen_summary. cbn zeta in *. case_decide; [by apply effect_ret|].
  destruct (output_screened (rt_armor rt) (text_or_empty (get "summary" parsed)) true) as (r & Er & Hb & _ & _ & Hn & _).
  apply effect_span. intros _. apply effect_bind, effect_raise_res; [|congruence]. intros r' Er'.
  assert (r' = r) as -> by congruence.
  destruct (blocked r); [destruct Hc; left; by apply Hb|]. apply effect_bind, effect_allow, effect_ret.
  destruct (redaction_count r =? 0) eqn:E0; [by apply K|]. destruct Hc. by apply Hn, Z.eqb_neq.
Qed.

(** The round in which it comes concludes, with no call made. *)
Lemma effect_accepting_round resp parsed signed context_block final armor b :
  acceptable resp parsed →
  (∀ system prompt budget, fst (rt_generate rt system prompt budget (model_state b)) = inl resp) →
  effect (run_round rt t signed context_block final 0 (mkProgress [] "" [] [] armor (max_repair_rounds rt) "" [])) b
    (λ r b', gate b' = gate b ∧
      ((∃ co, r = inl (Break co) ∧ co_parsed co = parsed ∧ pg_observations (co_progress co) = [] ∧ co_rounds co = 1) ∨
       ∃ res, r = inl (Finished res) ∧ unread resp res)).
Proof.
  intros [K2 K3 K4 K5 K6 K7] Hg. unfold run_round. cbn zeta. apply effect_bind, effect_look. intros tr.
  destruct (negb _ && _) eqn:Ew.
  { apply effect_bind, effect_deny, effect_ret. split; [done|]. right. eexists. split; [done|]. split; [done|].
    eexists _, _, _. left. split; [done|]. apply andb_true_iff in Ew as [Hw%negb_true_iff%Z.eqb_neq Hlt%Z.ltb_lt].
    destruct (context_window_tokens rt) as [window|]; [|done]. by exists window. }
  apply effect_bind. unfold call_model. apply effect_span. intros i. apply effect_bind. intros tr'. cbn [world tracer].
  match goal with |- context [rt_generate rt ?s ?p ?n _] => specialize (Hg s p n); destruct (rt_generate rt s p n (model_state b)) as [r m] end.
  cbn in Hg. subst r. cbn. apply effect_bind, effect_on_tracer, effect_bind, effect_allow, effect_ret.
  destruct (read_less _ _) eqn:El.
  { apply effect_bind, effect_deny, effect_ret. split; [done|]. right. eexists. split; [done|]. split; [done|].
    eexists _, _, _. right. split; [done|]. rewrite token_floor_count in El. split; [|exact El].
    unfold read_less in El. by apply andb_true_iff in El as [?%negb_true_iff%Z.eqb_neq _]. }
  apply effect_bind, effect_screen_reasoning. intros p Eo Et Ed Ei. cbn in Eo, Et, Ed, Ei. rewrite K2, K3. cbn [andb].
  unfold after_reply. rewrite K4. cbn zeta. rewrite take_nil. apply effect_bind, effect_ret.
  unfold _wants_more_tools. cbn [nonempty andb]. rewrite andb_false_r.
  apply effect_bind, effect_raise_res; unfold judge, citable; rewrite Eo, app_nil_r, K5, K6; [|done].
  intros problem [= <-]. apply effect_ret. split; [done|]. left. eexists. split; [done|]. split; [done|]. split; [|done].
  cbn. by case_decide.
Qed.
Lemma effect_accepting_run iss resp parsed b :
  acceptable resp parsed →
  (∀ system prompt budget, fst (rt_generate rt system prompt budget (model_state b)) = inl resp) →
  effect (run iss rt t) b (λ r b', accepts parsed b r b' ∨ refused iss r ∨
    gate b' = gate b ∧ ∃ res, r = inl res ∧ unread resp res).
Proof.
  intros Ha Hg. unfold run. cbn zeta. apply effect_span. intros _.
  apply effect_bind, effect_reading. intros n. apply effect_bind, effect_reading. intros n1. apply effect_bind, effect_reading. intros n2.
  apply effect_bind, effect_raise_res; [|intros e He; right; left; by eexists _, _, _, e]. intros signed' _. apply effect_bind, effect_event, effect_bind, effect_prepare_context. intros context. apply effect_bind.
  assert (Hround : ∀ final, effect (run_round rt t signed' (fst context) final 0
    (mkProgress [] "" [] [] (snd context) (max_repair_rounds rt) "" [])) b
    (λ r b', gate b' = gate b ∧
      ((∃ co, r = inl (Break co) ∧ co_parsed co = parsed ∧ pg_observations (co_progress co) = [] ∧ co_rounds co = 1) ∨
       ∃ res, r = inl (Finished res) ∧ unread resp res)))
    by (intros final; by eapply effect_accepting_round).
  destruct (max_tool_rounds rt); cbn [run_rounds]; apply effect_bind; (eapply effect_mono; [apply Hround|]);
    (intros r b' (Eb & [(co & -> & Ep & Eo & Er)|(res & -> & Hu)]); [|apply effect_ret; cbn; apply effect_ret; right; right; split; [exact Eb|by exists res]]);
    apply effect_ret; unfold conclude; cbn zeta;
    apply effect_bind, effect_look; intros tr; apply effect_bind, effect_clean_summary; rewrite ?Ep; try apply Ha;
    intros summary armor; cbn zeta; cbn [negb]; apply effect_bind, effect_raise_res; unfold judge, citable; cbn [pg_observations with_armor];
    rewrite Eo, app_nil_r, (ac_valid _ _ Ha), (ac_reviewed _ _ Ha); try done;
    intros verdict [= <-]; apply effect_bind, effect_allow, effect_ret; left; (split; [exact Eb|]); eexists; (split; [reflexivity|]); by rewrite <- Er.
Qed.
End accepted.
