(* ===== verification/GovWorker.v ===== *)
(** * Governance: the agent worker and its record

    worker.py: the handler through which the orchestrator's worker runs an agent task, from
    the lease to the result or the failure the orchestrator reads; persistence.py: the
    record of decisions, guardrail findings and traces it leaves.  The record shares the
    database, and the event ledger, with the orchestrator. *)

From S2P Require Import Prelude PyFloat PyTime Ledger Tables PyText PyRegex PyCodec Materiality.
From S2P Require Import OrchDefs OrchStore OrchCompiler Orchestrator OrchMachine OrchRefinement OrchWorker.
From S2P Require Import GovPolicy GovIdentity GovTelemetry GovArmor GovGateway GovRuntime GovRuntimeSpec.
Local Open Scope Z_scope.

(** ** Rows *)

Record AgentIdentityRecord := mkAgentIdentityRecord {
  air_row_id : string;
  air_identity_id : string;
  air_tenant_id : string;
  air_workload_uri : string;
  air_agent_role : string;
  air_agent_version : string;
  air_release_id : option string;
  air_engagement_id : option string;
  air_task_id : option string;
  air_attempt : Z;
  air_lease_owner : option string;
  air_granted_tools : list string;
  air_granted_scopes : list string;
  air_forbidden_actions : list string;
  air_independence_subject : option string;
  air_key_id : string;
  air_issued_at : datetime;
  air_expires_at : datetime;
  air_status : string;
  air_revoked_at : option datetime;
  air_revocation_reason : option string
}.
Record GatewayDecisionRecord := mkGatewayDecisionRecord {
  gwr_row_id : string;
  gwr_decision_id : string;
  gwr_tenant_id : string;
  gwr_decision : string;
  gwr_stage : string;
  gwr_reason : string;
  gwr_agent_role : string;
  gwr_tool_name : string;
  gwr_task_id : string;
  gwr_engagement_id : option string;
  gwr_identity_id : option string;
  gwr_trace_id : string;
  gwr_span_id : string;
  gwr_occurred_at : datetime;
  gwr_attributes : dict
}.
Record GuardrailFindingRecord := mkGuardrailFindingRecord {
  grf_row_id : string;
  grf_tenant_id : string;
  grf_decision_id : option string;
  grf_trace_id : string;
  grf_span_id : string;
  grf_direction : string;
  grf_verdict : string;
  grf_detector : string;
  grf_category : string;
  grf_severity : string;
  grf_match_count : Z;
  grf_excerpt_digest : string;
  grf_detail : string;
  grf_occurred_at : datetime
}.
Record ReasoningSpanRecord := mkReasoningSpanRecord {
  rsp_row_id : string;
  rsp_tenant_id : string;
  rsp_trace_id : string;
  rsp_span_id : string;
  rsp_parent_span_id : option string;
  rsp_sequence_no : Z;
  rsp_name : string;
  rsp_engagement_id : option string;
  rsp_task_id : option string;
  rsp_agent_role : option string;
  rsp_status : string;
  rsp_status_message : string;
  rsp_started_at : datetime;
  rsp_ended_at : option datetime;
  rsp_duration_ms : option float;
  rsp_otel_exported : bool;
  rsp_attributes : dict;
  rsp_events : list dict
}.
Record ExecutionTrace := mkExecutionTrace {
  trc_row_id : string;
  trc_tenant_id : string;
  trc_trace_id : string;
  trc_engagement_id : option string;
  trc_task_id : option string;
  trc_status : string;
  trc_started_at : datetime;
  trc_completed_at : option datetime;
  trc_attributes : dict
}.

(** The tables of the record; of the tenants and the agent releases only their keys. *)
Record GovTables := mkGovTables {
  known_tenants : list string;
  known_releases : list string;
  agent_identities : list AgentIdentityRecord;
  gateway_decisions : list GatewayDecisionRecord;
  guardrail_findings : list GuardrailFindingRecord;
  reasoning_spans : list ReasoningSpanRecord;
  execution_traces : list ExecutionTrace
}.
Definition set_agent_identities l t :=
  mkGovTables (known_tenants t) (known_releases t) l (gateway_decisions t) (guardrail_findings t) (reasoning_spans t) (execution_traces t).
Definition set_gateway_decisions l t :=
  mkGovTables (known_tenants t) (known_releases t) (agent_identities t) l (guardrail_findings t) (reasoning_spans t) (execution_traces t).
Definition set_guardrail_findings l t :=
  mkGovTables (known_tenants t) (known_releases t) (agent_identities t) (gateway_decisions t) l (reasoning_spans t) (execution_traces t).
Definition set_reasoning_spans l t :=
  mkGovTables (known_tenants t) (known_releases t) (agent_identities t) (gateway_decisions t) (guardrail_findings t) l (execution_traces t).
Definition set_execution_traces l t :=
  mkGovTables (known_tenants t) (known_releases t) (agent_identities t) (gateway_decisions t) (guardrail_findings t) (reasoning_spans t) l.

(** The database the recorder shares with the orchestrator. *)
Record GovDB := mkGovDB { gov_orch : OrchDB; gov_tables : GovTables }.
Definition put_tables t db := mkGovDB (gov_orch db) t.
Definition put_orch o db := mkGovDB o (gov_tables db).
Abbreviation GovTx := (Tx GovDB).

(** ** The recorder *)

Section recorder.
Context `{UuidSource}.

Definition in_ledger {A} (m : Tx Ledger A) : GovTx A := zoom gov_orch put_orch (zoom ledger set_ledger m).
Definition new_row_id (prefix : string) : GovTx string :=
  n ← in_ledger draw; mret (prefix +:+ "_" +:+ uuid4_hex 16 n).
Definition known_tenant (t : string) (db : GovDB) : bool := bool_decide (t ∈ known_tenants (gov_tables db)).
Definition known_engagement (e : option string) (db : GovDB) : bool :=
  match e with Some e => bool_decide (is_Some (engagements (gov_orch db) !! e)) | None => true end.
Definition known_task (t : option string) (db : GovDB) : bool :=
  match t with Some t => bool_decide (is_Some (tasks (gov_orch db) !! t)) | None => true end.
Definition known_release (r : option string) (db : GovDB) : bool :=
  match r with Some r => bool_decide (r ∈ known_releases (gov_tables db)) | None => true end.
(** A row goes in when its constraints hold. *)
Definition insert_row {R} (table : GovTables → list R) (put : list R → GovTables → GovTables) (valid : GovDB → bool) (r : R) : GovTx unit :=
  db ← gets (λ db, db);
  require (valid db) (Py IntegrityError) ;;
  modify (λ db, put_tables (put (table (gov_tables db) ++ [r]) (gov_tables db)) db).

Definition record_identity (signed : SignedAgentIdentity) (release_id : option string) : GovTx string :=
  let i := subject signed in
  row_id ← new_row_id "air";
  let row := mkAgentIdentityRecord row_id (identity_id i) (id_tenant_id i) (id_workload_uri i) (id_agent_role i) (id_agent_version i)
    (if truthy release_id then release_id else GovIdentity.release_id i) (Some (id_engagement_id i)) (Some (id_task_id i)) (attempt i) (id_lease_owner i)
    (granted_tools i) (granted_evidence_scopes i) (id_forbidden_actions i) (independence_subject i) (key_id signed) (issued_at signed)
    (expires_at signed) "issued" None None in
  insert_row agent_identities set_agent_identities (λ db, known_tenant (id_tenant_id i) db && known_release (air_release_id row) db &&
    known_engagement (air_engagement_id row) db &&
    absent (λ r, bool_decide (air_tenant_id r = id_tenant_id i ∧ air_identity_id r = identity_id i)) (agent_identities (gov_tables db))) row ;;
  mret row_id.

Definition of_identity (tenant_id id : string) (r : AgentIdentityRecord) : Prop := air_tenant_id r = tenant_id ∧ air_identity_id r = id.
#[export] Instance of_identity_dec t i r : Decision (of_identity t i r).
Proof. unfold of_identity. apply _. Defined.
Definition revoked_row (now : datetime) (why : string) (r : AgentIdentityRecord) : AgentIdentityRecord :=
  mkAgentIdentityRecord (air_row_id r) (air_identity_id r) (air_tenant_id r) (air_workload_uri r) (air_agent_role r) (air_agent_version r)
    (air_release_id r) (air_engagement_id r) (air_task_id r) (air_attempt r) (air_lease_owner r) (air_granted_tools r) (air_granted_scopes r)
    (air_forbidden_actions r) (air_independence_subject r) (air_key_id r) (air_issued_at r) (air_expires_at r) "revoked" (Some now) (Some why).
Definition revoke_identity (tenant_id id why : string) (now : datetime) : GovTx bool :=
  rows ← gets (λ db, agent_identities (gov_tables db));
  match scalar (filter (of_identity tenant_id id) rows) with
  | None => mret false
  | Some row =>
      modify (λ db, put_tables (set_agent_identities
        (update_row air_row_id (air_row_id row) (revoked_row now why) (agent_identities (gov_tables db))) (gov_tables db)) db) ;;
      mret true
  end.
Definition revoked_identity_ids (tenant_id : string) (db : GovDB) : list string :=
  remove_dups (map air_identity_id (filter (λ r, air_tenant_id r = tenant_id ∧ air_status r = "revoked") (agent_identities (gov_tables db)))).
(** [DatabaseRevocationChecker.is_revoked]. *)
Definition is_revoked (tenant_id : string) (db : GovDB) : RevocationChecker := λ id, bool_decide (id ∈ revoked_identity_ids tenant_id db).

Definition decision_row (row_id : string) (engagement_id : option string) (d : GatewayDecision) : GatewayDecisionRecord :=
  mkGatewayDecisionRecord row_id (decision_id d) (gd_tenant_id d) (gd_decision d) (stage d) (reason d) (gd_agent_role d) (gd_tool_name d)
    (gd_task_id d) engagement_id (gd_identity_id d) (gd_trace_id d) (gd_span_id d) (gd_occurred_at d) (gd_attributes d).
Definition finding_row (row_id : string) (d : GatewayDecision) (r : ArmorResult) (f : ArmorFinding) : GuardrailFindingRecord :=
  mkGuardrailFindingRecord row_id (gd_tenant_id d) (Some (decision_id d)) (gd_trace_id d) (gd_span_id d)
    (ArmorDirection_value (direction r)) (ArmorVerdict_value (verdict r)) (detector f) (category f) (arm_severity f) (match_count f)
    (excerpt_digest f) (arm_detail f) (gd_occurred_at d).
Definition record_decision (engagement_id : option string) (d : GatewayDecision) : GovTx unit :=
  row_id ← new_row_id "gwr";
  insert_row gateway_decisions set_gateway_decisions (λ db, known_tenant (gd_tenant_id d) db && known_engagement engagement_id db &&
    bool_decide (gd_decision d ∈ ["allow"; "deny"]) &&
    absent (λ r, bool_decide (gwr_tenant_id r = gd_tenant_id d ∧ gwr_decision_id r = decision_id d)) (gateway_decisions (gov_tables db)))
    (decision_row row_id engagement_id d) ;;
  for_each (gd_armor d) (λ r, for_each (arm_findings r) (λ f,
    finding_id ← new_row_id "grf";
    insert_row guardrail_findings set_guardrail_findings (known_tenant (gd_tenant_id d)) (finding_row finding_id d r f))).
Definition record_decisions (decisions : list GatewayDecision) (events : list AuditEvent) (engagement_id : option string) : GovTx Z :=
  for_each decisions (record_decision engagement_id) ;;
  in_ledger (append_many events) ;;
  mret (zlen decisions).

(** ** Traces *)

Definition of_trace (tenant_id trace : string) (r : ReasoningSpanRecord) : Prop := rsp_tenant_id r = tenant_id ∧ rsp_trace_id r = trace.
#[export] Instance of_trace_dec t i r : Decision (of_trace t i r).
Proof. unfold of_trace. apply _. Defined.
Definition is_header (tenant_id trace : string) (r : ExecutionTrace) : Prop := trc_tenant_id r = tenant_id ∧ trc_trace_id r = trace.
#[export] Instance is_header_dec t i r : Decision (is_header t i r).
Proof. unfold is_header. apply _. Defined.

Definition otel_exported (s : RecordedSpan) : bool := match dict_get "otel.span_id" (attributes s) with Some _ => true | None => false end.
Definition span_failed (s : RecordedSpan) : bool := bool_decide (span_status s = "error").
(** The first root, in creation order. *)
Definition root_span (l : list RecordedSpan) : option RecordedSpan :=
  scalar (by_sequence (filter (λ s, parent_span_id s = None) l)).
Definition header_status (l : list RecordedSpan) : string :=
  match root_span l with Some s => if span_failed s then "failed" else "completed" | None => "completed" end.
Definition least (l : list Z) : option Z := match l with [] => None | x :: l => Some (fold_left Z.min l x) end.
Definition greatest (l : list Z) : option Z := match l with [] => None | x :: l => Some (fold_left Z.max l x) end.
Definition header_attributes (l : list RecordedSpan) (agent_role : option string) : dict :=
  [("span_count", JInt (zlen l)); ("agent_role", opt_json agent_role); ("otel_exported", JBool (existsb otel_exported l));
   ("denied_span_count", JInt (zlen (List.filter span_failed l)))].
Definition retold (l : list RecordedSpan) (started : datetime) (agent_role : option string) (r : ExecutionTrace) : ExecutionTrace :=
  mkExecutionTrace (trc_row_id r) (trc_tenant_id r) (trc_trace_id r) (trc_engagement_id r) (trc_task_id r) (header_status l) started
    (greatest (omap ended_at l)) (header_attributes l agent_role).

(** [_upsert_trace_header]. *)
Definition _upsert_trace_header (t : AgentTracer) (tenant_id : string) (engagement_id task_id agent_role : option string) : GovTx unit :=
  let l := chain t in
  match least (map started_at l) with
  | None => mret tt
  | Some started =>
      traces ← gets (λ db, execution_traces (gov_tables db));
      match scalar (filter (is_header tenant_id (trace_id t)) traces) with
      | Some existing =>
          modify (λ db, put_tables (set_execution_traces (update_row trc_row_id (trc_row_id existing) (retold l started agent_role)
            (execution_traces (gov_tables db))) (gov_tables db)) db)
      | None =>
          row_id ← new_row_id "trc";
          insert_row execution_traces set_execution_traces
            (λ db, known_tenant tenant_id db && known_engagement engagement_id db && known_task task_id db)
            (retold l started agent_role (mkExecutionTrace row_id tenant_id (trace_id t) engagement_id task_id "" started None []))
      end
  end.
Definition span_row (row_id tenant_id : string) (engagement_id task_id agent_role : option string) (s : RecordedSpan) : ReasoningSpanRecord :=
  mkReasoningSpanRecord row_id tenant_id (span_trace_id s) (span_id s) (parent_span_id s) (Z.of_nat (span_sequence s)) (span_name s) engagement_id task_id
    agent_role (span_status s) (status_message s) (started_at s) (ended_at s) (duration_ms s) (otel_exported s) (attributes s) (span_events s).
Definition record_span (tenant_id : string) (engagement_id task_id agent_role : option string) (s : RecordedSpan) : GovTx unit :=
  row_id ← new_row_id "rsp";
  insert_row reasoning_spans set_reasoning_spans (λ db, known_tenant tenant_id db && known_engagement engagement_id db &&
    absent (λ r, bool_decide (rsp_tenant_id r = tenant_id ∧ rsp_trace_id r = span_trace_id s ∧ rsp_span_id r = span_id s))
      (reasoning_spans (gov_tables db)))
    (span_row row_id tenant_id engagement_id task_id agent_role s).
Definition record_chain (t : AgentTracer) (tenant_id : string) (engagement_id task_id agent_role : option string) : GovTx Z :=
  _upsert_trace_header t tenant_id engagement_id task_id agent_role ;;
  for_each (chain t) (record_span tenant_id engagement_id task_id agent_role) ;;
  mret (zlen (chain t)).

(** An instant as a column with a time zone gives it back: aware on a database that keeps
    the zone, naive on one that does not (SQLite).  [load_chain] takes it as it comes. *)
Inductive stored_instant := Aware (t : datetime) | Naive (t : datetime).
Definition read_instant (keeps_zone : bool) (t : datetime) : stored_instant := if keeps_zone then Aware t else Naive t.
(** A [RecordedSpan] built from a row. *)
Record LoadedSpan := mkLoadedSpan {
  ls_name : string;
  ls_trace_id : string;
  ls_span_id : string;
  ls_parent_span_id : option string;
  ls_started_at : stored_instant;
  ls_sequence : nat;
  ls_ended_at : option stored_instant;
  ls_status : string;
  ls_status_message : string;
  ls_attributes : dict;
  ls_events : list dict
}.
Definition span_of (keeps_zone : bool) (r : ReasoningSpanRecord) : LoadedSpan :=
  mkLoadedSpan (rsp_name r) (rsp_trace_id r) (rsp_span_id r) (rsp_parent_span_id r) (read_instant keeps_zone (rsp_started_at r))
    (Z.to_nat (rsp_sequence_no r)) (read_instant keeps_zone <$> rsp_ended_at r)
    (rsp_status r) (rsp_status_message r) (rsp_attributes r) (rsp_events r).
(** [load_chain]: the spans of the chain. *)
Definition load_chain (keeps_zone : bool) (tenant_id trace : string) (db : GovDB) : list LoadedSpan :=
  map (span_of keeps_zone) (sort_by (cmp_then (cmp_on rsp_sequence_no Z.compare) (cmp_on rsp_started_at Z.compare))
    (filter (of_trace tenant_id trace) (reasoning_spans (gov_tables db)))).
Definition list_decisions (tenant_id : string) (decision : option string) (db : GovDB) : list GatewayDecisionRecord :=
  sort_by (cmp_then (cmp_on gwr_occurred_at Z.compare) (cmp_on gwr_decision_id String.compare))
    (filter (λ r, gwr_tenant_id r = tenant_id ∧ matches_opt decision (Some (gwr_decision r)))
       (gateway_decisions (gov_tables db))).
Definition list_guardrail_findings (tenant_id : string) (verdict : option string) (db : GovDB) : list GuardrailFindingRecord :=
  sort_by (cmp_on grf_occurred_at Z.compare)
    (filter (λ r, grf_tenant_id r = tenant_id ∧ matches_opt verdict (Some (grf_verdict r)))
       (guardrail_findings (gov_tables db))).
End recorder.

(** ** The handler *)

(** What an exception is to the worker: the name of its class and its text. *)
Class ExceptionParts := { exn_parts : exn → string * string }.

(** What a handler can reach besides the database: the tables of the record, the gateway
    and the model, and the number of readings of the environment so far. *)
Record AgentEnv (W M : Type) := mkAgentEnv {
  env_tables : GovTables;
  env_bench : Bench W M;
  env_readings : N
}.
Arguments mkAgentEnv {W M}.
Arguments env_tables {W M}.
Arguments env_bench {W M}.
Arguments env_readings {W M}.

(** [registry.load] and the loaders are the deployment's: they read the site as they find
    it, and raise or return. *)
Definition Loader (W M A : Type) : Type := TaskLease → Site (AgentEnv W M) → A + handler_error.
Record GovernedAgentTaskHandler (W M : Type) `{Ed25519} := mkGovernedAgentTaskHandler {
  h_registry : Site (AgentEnv W M) → list (string * AgentPackage) + handler_error;
  h_gateway : AgentGateway W;
  h_issuer : AgentIdentityIssuer private_key;
  h_generate : Generate M;
  h_model_name : string;
  h_window : option Z;
  h_recorder : bool;
  h_evidence_loader : option (Loader W M (list EvidenceItem));
  h_instruction_loader : option (Loader W M string);
  h_max_output_tokens : Z;
  h_envelope_ttl : Z
}.
Arguments mkGovernedAgentTaskHandler {W M _}.
Arguments h_registry {W M _}.
Arguments h_gateway {W M _}.
Arguments h_issuer {W M _}.
Arguments h_generate {W M _}.
Arguments h_model_name {W M _}.
Arguments h_window {W M _}.
Arguments h_recorder {W M _}.
Arguments h_evidence_loader {W M _}.
Arguments h_instruction_loader {W M _}.
Arguments h_max_output_tokens {W M _}.
Arguments h_envelope_ttl {W M _}.

(** [_FAILURE_CLASS]. *)
Definition _FAILURE_CLASS (status : string) : option (bool * FailureClass) :=
  if decide (status = "model_unavailable") then Some (true, FailureClass.MODEL_TIMEOUT)
  else if decide (status = "denied") then Some (false, FailureClass.MODEL_POLICY_VIOLATION)
  else if decide (status = "schema_invalid") then Some (false, FailureClass.MALFORMED_STRUCTURED_OUTPUT)
  else if decide (status = "model_truncated") then Some (false, FailureClass.CONFIGURATION_ERROR)
  else None.
Definition _raise_for (r : AgentRunResult) : handler_error :=
  let '(retryable, failure_class) := default (false, FailureClass.INTERNAL_ERROR) (_FAILURE_CLASS (run_status r)) in
  let message := "governed run " +:+ run_status r +:+ ": " +:+ run_summary r +:+
    (if nonempty (run_denials r) then " (denials: " +:+ join "; " (firstn 3 (run_denials r)) +:+ ")" else "") in
  if retryable : bool then RetryableTaskError failure_class message else PermanentTaskError failure_class message.

Section handler.
Context `{Sha256} `{IpLiterals} `{Ed25519} `{Observability} `{UuidSource} `{JsonReader} `{PackageFiles} `{ExceptionParts} {W M : Type}.
Abbreviation World := (Site (AgentEnv W M)).

(** An exception that is no [TaskExecutionError], as the worker takes it. *)
Definition unhandled (f : failure) : handler_error :=
  match f with
  | Denied d => OtherException "GatewayDenied" (reason d)
  | Raised e => let '(name, text) := exn_parts e in OtherException name text
  end.

(** Programs that return or raise what the worker classifies. *)
Definition Handling (A : Type) : Type := World → (A + handler_error) * World.
#[export] Instance handling_ret : MRet Handling := λ A a s, (inl a, s).
#[export] Instance handling_bind : MBind Handling := λ A B f m s,
  match m s with
  | (inl a, s') => f a s'
  | (inr e, s') => (inr e, s')
  end.
Definition raising {A} (r : A + handler_error) : Handling A := λ s, (r, s).
Definition raising_res {A} (r : Res A) : Handling A := raising (match r with Ok a => inl a | Err e => inr (unhandled (Raised e)) end).
Definition loading {A} (f : World → A + handler_error) : Handling A := λ s, (f s, s).
Definition env_reading {A} (f : N → A) : Handling A := λ s,
  let e := site_env s in
  (inl (f (env_readings e)), mkSite (site_db s) (mkAgentEnv (env_tables e) (env_bench e) (env_readings e + 1))).
(** [with database.transaction()] of the recorder. *)
Definition recording {A} (m : GovTx A) : Handling A := λ s,
  let e := site_env s in
  match m (mkGovDB (site_db s) (env_tables e)) with
  | Ok (a, db) => (inl a, mkSite (gov_orch db) (mkAgentEnv (gov_tables db) (env_bench e) (env_readings e)))
  | Err x => (inr (unhandled (Raised x)), s)
  end.

Definition envelope_from_lease (l : TaskLease) (agent_version : string) (allowed_tools scopes forbidden : list string) (why : string)
    (tokens : Z) (cost : float) : ExecutionEnvelope + handler_error :=
  match lease_assigned_agent_role l with
  | None => inr (PermanentTaskError FailureClass.CONFIGURATION_ERROR ("task " +:+ py_repr (lease_task_id l) +:+
      " has no assigned agent role and cannot be executed by the governed runtime"))
  | Some role =>
      if lease_attempt_count l <? 1 then inr (unhandled (Raised (Gov PydanticValidationError)))
      else inl (mkExecutionEnvelope (lease_task_id l) (lease_engagement_id l) (lease_tenant_id l) role agent_version why scopes allowed_tools
        forbidden (str_or (lease_model_policy l) "flash") tokens cost (lease_deadline_at l) "assurance.agent_result.v1" (lease_human_gate l)
        "full-metadata-redacted-content" (Some (lease_lease_owner l)) (lease_attempt_count l))
  end.
Definition with_deadline (d : datetime) (e : ExecutionEnvelope) : ExecutionEnvelope :=
  mkExecutionEnvelope (env_task_id e) (env_engagement_id e) (env_tenant_id e) (env_agent_role e) (env_agent_version e) (purpose e)
    (env_allowed_evidence_scopes e) (env_allowed_tools e) (env_forbidden_actions e) (env_model_policy e) (env_token_budget e)
    (env_cost_budget_usd e) (Some d) (output_schema e) (env_human_gate e) (trace_level e) (env_lease_owner e) (env_attempt_count e).

(** [_callable_tools]. *)
Definition _callable_tools (g : AgentGateway W) (p : AgentPackage) : list string :=
  let declared := filter (λ n, n ≠ "") (declared p) in
  let registered := registered_tools (pkg_agent_id p) g in
  if nonempty registered then filter (λ n, n ∈ registered) declared else declared.

(** [str(policy.get("control_test"))] if it is there, and the rules; an iteration over
    what cannot be iterated is a [TypeError]. *)
Definition control_test_of (policy : dict) : option string :=
  let v := PyText.get "control_test" policy in if truthy_json v then Some (py_str v) else None.
Definition quality_rules_of (policy : dict) : Res (list string) :=
  let v := PyText.get "quality_rules" policy in
  if negb (truthy_json v) then Ok []
  else match v with
  | JList l => Ok (map py_str l)
  | JObj d => Ok (map fst d)
  | JStr s => Ok (map (λ c, String c "") (String.list_ascii_of_string s))
  | _ => Err (Py TypeError)
  end.
Definition default_instruction (l : TaskLease) : string :=
  "Execute the " +:+ py_repr (lease_task_key l) +:+ " step of engagement " +:+ lease_engagement_id l +:+
  ". No methodology briefing was supplied with this task, so you have not been told the criteria, the period or the company. " +:+
  "Treat anything that depends on them as a scope limitation rather than assuming it.".

Definition runtime_of (h : GovernedAgentTaskHandler W M) : GovernedAgentRuntime W M :=
  mkGovernedAgentRuntime _ _ (h_gateway h) (h_generate h) (h_model_name h) (gw_armor (h_gateway h)) 4 8 1 (h_max_output_tokens h) (h_window h).

(** The package and the envelope of a lease. *)
Definition prepare (h : GovernedAgentTaskHandler W M) (l : TaskLease) : Handling (AgentPackage * ExecutionEnvelope) :=
  packages ← loading (h_registry h);
  let role := lease_assigned_agent_role l in
  match (if truthy role then r ← role; assoc r packages else None) with
  | None => raising (inr (PermanentTaskError FailureClass.CONFIGURATION_ERROR
      ("no released agent package for role " +:+ json_repr (opt_json role))))
  | Some p =>
      e ← raising (envelope_from_lease l (pkg_version p) (_callable_tools (h_gateway h) p) (pkg_evidence_boundaries p) (pkg_forbidden_actions p)
        (default (lease_task_type l) (pkg_mandate p)) (pkg_token_budget p) (pkg_cost_budget_usd p));
      match env_deadline e with
      | Some _ => mret (p, e)
      | None =>
          now ← env_reading now_at;
          deadline ← raising_res (add_us now (h_envelope_ttl h));
          mret (p, with_deadline deadline e)
      end
  end.
(** [runtime.run] on a tracer of its own. *)
Definition running (h : GovernedAgentTaskHandler W M) (t : AgentTask) (tr : AgentTracer) : Handling (AgentRunResult * AgentTracer) := λ s,
  let e := site_env s in
  let '(r, sc) := GovRuntime.run (h_issuer h) (runtime_of h) t (mkScene (mkAgentTracer (trace_id tr) [] [] (env_readings e)) (env_bench e)) in
  (match r with inl res => inl (res, tracer sc) | inr f => inr (unhandled f) end,
   mkSite (site_db s) (mkAgentEnv (env_tables e) (world sc) (draws (tracer sc)))).
(** [_persist]: what the gateway recorded since the marks, and the chain. *)
Definition _persist (h : GovernedAgentTaskHandler W M) (l : TaskLease) (tr : AgentTracer) (decision_mark audit_mark : nat) : Handling unit :=
  if h_recorder h then
    g ← loading (λ s, inl (gate (env_bench (site_env s))));
    _ ← recording (record_decisions (drop decision_mark (decisions g)) (drop audit_mark (gate_events g)) (Some (lease_engagement_id l)));
    _ ← recording (record_chain tr (lease_tenant_id l) (Some (lease_engagement_id l)) (Some (lease_task_id l)) (lease_assigned_agent_role l));
    mret tt
  else mret tt.

(** [GovernedAgentTaskHandler.__call__]. *)
Definition governed_task (h : GovernedAgentTaskHandler W M) (l : TaskLease) : Handling TaskExecutionResult :=
  prepared ← prepare h l;
  let '(p, e) := prepared : AgentPackage * ExecutionEnvelope in
  trace ← env_reading (hex_at 16);
  marks ← loading (λ s, let g := gate (env_bench (site_env s)) in inl (length (decisions g), length (gate_events g)));
  instruction ← loading (match h_instruction_loader h with Some f => f l | None => λ _, inl (default_instruction l) end);
  items ← loading (match h_evidence_loader h with Some f => f l | None => λ _, inl [] end);
  rules ← raising_res (quality_rules_of (policy_fields (lease_execution_policy l)));
  ran ← running h (mkAgentTask p e instruction items None None []
    (Some (mkQualityContext (control_test_of (policy_fields (lease_execution_policy l))) rules))) (new_tracer trace);
  let '(res, tr) := ran : AgentRunResult * AgentTracer in
  _persist h l tr (fst marks) (snd marks) ;;
  if succeeded res then mret (mkTaskExecutionResult ["agent-run:" +:+ run_trace_id res] (run_as_dict res))
  else raising (inr (_raise_for res)).
Definition governed_handler (h : GovernedAgentTaskHandler W M) : handler (AgentEnv W M) := governed_task h.
End handler.

(** [evidence_from_records]: an item of each record; what does not say so is tainted. *)
Definition evidence_from_record (record : dict) : Res EvidenceItem :=
  match dict_get "evidence_id" record with
  | None => Err (Py KeyError)
  | Some id =>
      Ok (mkEvidenceItem (py_str id) (py_str (default (JStr "unknown") (dict_get "source_type" record)))
        (py_str (default (JStr "") (dict_get "content" record))) (truthy_json (default (JBool true) (dict_get "tainted" record))))
  end.
Fixpoint evidence_from_records (records : list dict) : Res (list EvidenceItem) :=
  match records with
  | [] => Ok []
  | r :: records => let? item := evidence_from_record r in let? items := evidence_from_records records in Ok (item :: items)
  end.

(** ** What a record adds *)

Section recorder_lemmas.
Context `{UuidSource}.

(** Appending events that say nothing of the workflow. *)
Lemma append_env e l u l' : append e l = Ok (u, l') → ¬ state_event e → ledger_env l l'.
Proof.
  intros E He. pose proof (append_numbered e l u l') as Hn. apply append_Ok in E as E'. destruct E' as (Ha & Ho & Hu & _). split.
  - rewrite Ha. eexists. split; [done|]. by apply Forall_singleton.
  - intros Hl. by apply Hn.
  - intros Hk o n. rewrite Ho, Hu. apply Hk.
  - intros t k. by rewrite Ho.
Qed.
Lemma append_many_env es l u l' : append_many es l = Ok (u, l') → Forall (λ e, ¬ state_event e) es →
  ledger_env l l' ∧ ∃ rows, audit_events l' = audit_events l ++ rows ∧ map row_event rows = es.
Proof.
  unfold append_many. intros E Hes. revert l E. induction Hes as [|e es He _ IH]; intros l E.
  - apply tx_ret_Ok in E as [_ ->]. split; [apply ledger_env_refl|]. exists []. by rewrite app_nil_r.
  - apply tx_bind_Ok in E as (u1 & l1 & E1 & E). pose proof (append_env _ _ _ _ E1 He) as H1. apply append_Ok in E1 as (Ha & _).
    destruct (IH _ E) as [H2 (rows & Hr & Hm)]. split; [by eapply ledger_env_trans|].
    eexists (_ :: rows). rewrite Hr, Ha, <- app_assoc. split; [done|]. cbn. by rewrite Hm.
Qed.

Lemma in_ledger_Ok {A} (m : Tx Ledger A) db a db' : in_ledger m db = Ok (a, db') →
  ∃ l', m (ledger (gov_orch db)) = Ok (a, l') ∧ db' = put_orch (set_ledger l' (gov_orch db)) db.
Proof. unfold in_ledger. intros (o & (l' & E & ->)%zoom_Ok & ->)%zoom_Ok. by exists l'. Qed.
Lemma insert_row_Ok {R} (table : GovTables → list R) put valid r db u db' : insert_row table put valid r db = Ok (u, db') →
  valid db = true ∧ db' = put_tables (put (table (gov_tables db) ++ [r]) (gov_tables db)) db.
Proof.
  unfold insert_row. intros E. apply tx_bind_Ok in E as (? & ? & [-> ->]%gets_Ok & E).
  by apply tx_bind_Ok in E as (? & ? & [Hv ->]%require_Ok & ->%modify_Ok).
Qed.

(** What the insertions leave alone: the workflow and the events. *)
Definition quiet (db0 db : GovDB) : Prop :=
  aside (gov_orch db0) (gov_orch db) ∧ audit_events (ledger (gov_orch db)) = audit_events (ledger (gov_orch db0)).
Lemma quiet_refl db : quiet db db.
Proof. by split. Qed.
Lemma new_row_id_Ok prefix db id db' : new_row_id prefix db = Ok (id, db') → gov_tables db' = gov_tables db ∧ quiet db db'.
Proof.
  unfold new_row_id. intros (n & db1 & (l' & E & ->)%in_ledger_Ok & [_ ->]%tx_ret_Ok)%tx_bind_Ok. injection E as _ <-.
  split; [done|]. split; [|done]. eexists. split; [reflexivity|]. apply ledger_env_draw.
Qed.
(** A row that takes an identifier and goes in. *)
Lemma fresh_row_Ok {R} prefix (table : GovTables → list R) put valid (row : string → R) db u db' :
  mbind (M:=Tx GovDB) (λ id, insert_row table put valid (row id)) (new_row_id prefix) db = Ok (u, db') →
  ∃ id, gov_tables db' = put (table (gov_tables db) ++ [row id]) (gov_tables db) ∧ quiet db db'.
Proof.
  intros (id & db1 & [Et Hq]%new_row_id_Ok & [_ ->]%insert_row_Ok)%tx_bind_Ok. exists id. cbn. rewrite Et. by split.
Qed.

(** Rows written one after the other. *)
Lemma for_each_adds {S A R} (table : S → list R) (frame : relation S) `{!PreOrder frame} (rel : A → list R → Prop) (l : list A) (body : A → Tx S unit) s u s' :
  (∀ x s u s', x ∈ l → body x s = Ok (u, s') → frame s s' ∧ ∃ rs, table s' = table s ++ rs ∧ rel x rs) →
  for_each l body s = Ok (u, s') → frame s s' ∧ ∃ rss, table s' = table s ++ concat rss ∧ Forall2 rel l rss.
Proof.
  revert s. induction l as [|x l IH]; intros s Hb E.
  - apply tx_ret_Ok in E as [_ ->]. split; [done|]. exists []. by rewrite app_nil_r.
  - apply tx_bind_Ok in E as (u1 & s1 & E1 & E). destruct (Hb _ _ _ _ (list_elem_of_here _ _) E1) as [F1 (rs & T1 & H1)].
    destruct (IH s1) as [F2 (rss & T2 & H2)]; [intros; eapply Hb; [by right|done]|done|]. split; [by etrans|].
    exists (rs :: rss). rewrite T2, T1, <- app_assoc. by split; [|constructor].
Qed.

(** The rows of single items, put together. *)
Lemma Forall2_singles {A B} (P : A → B → Prop) l rss : Forall2 (λ x rs, ∃ y, rs = [y] ∧ P x y) l rss → Forall2 P l (concat rss).
Proof. induction 1 as [|x rs l rss (y & -> & Hy) _ IH]; [constructor|]. cbn. by constructor. Qed.
Lemma Forall2_flat {A B C} (f : A → list B) (P : B → C → Prop) l rss :
  Forall2 (λ x rs, Forall2 P (f x) rs) l rss → Forall2 P (flat_map f l) (concat rss).
Proof. induction 1 as [|x rs l rss Hx _ IH]; [constructor|]. cbn. by apply Forall2_app. Qed.
Lemma Forall2_map_l {A B C} (f : A → B) (P : B → C → Prop) l rs : Forall2 (λ x r, P (f x) r) l rs → Forall2 P (map f l) rs.
Proof. induction 1; constructor; done. Qed.

Lemma pair_inj {A B} (x x' : A) (y y' : B) : (x, y) = (x', y') → x = x' ∧ y = y'.
Proof. by intros [=]. Qed.

(** Quiet, and what [f] sees of the tables is as it was. *)
Definition frame_by {B} (f : GovTables → B) (db db' : GovDB) : Prop := quiet db db' ∧ f (gov_tables db') = f (gov_tables db).
#[export] Instance frame_by_preorder {B} (f : GovTables → B) : PreOrder (frame_by f).
Proof.
  split.
  - intros db. split; [apply quiet_refl|done].
  - intros db1 db2 db3 [[Q1 Q1'] E1] [[Q2 Q2'] E2]. split; [split; [by etrans|congruence]|congruence].
Qed.
Lemma fresh_row_frame {R B} (f : GovTables → B) prefix (table : GovTables → list R) put valid (row : string → R) db u db' :
  (∀ l t, f (put l t) = f t) → (∀ l t, table (put l t) = l) →
  mbind (M:=Tx GovDB) (λ id, insert_row table put valid (row id)) (new_row_id prefix) db = Ok (u, db') →
  frame_by f db db' ∧ ∃ id, table (gov_tables db') = table (gov_tables db) ++ [row id].
Proof.
  intros Hf Ht (id & Et & Hq)%fresh_row_Ok. split; [split; [done|by rewrite Et]|]. exists id. by rewrite Et.
Qed.

(** ** Decisions *)

Definition findings_in (d : GatewayDecision) : list (ArmorResult * ArmorFinding) :=
  flat_map (λ r, map (pair r) (arm_findings r)) (gd_armor d).
Definition is_decision_row (eng : option string) (d : GatewayDecision) (row : GatewayDecisionRecord) : Prop := ∃ id, row = decision_row id eng d.
Definition is_finding_row (d : GatewayDecision) (rf : ArmorResult * ArmorFinding) (row : GuardrailFindingRecord) : Prop :=
  ∃ id, row = finding_row id d rf.1 rf.2.

(** A decision of the gateway adds its row, and a row for each finding of its guardrails. *)
Definition other_tables (t : GovTables) := (known_tenants t, known_releases t, agent_identities t, reasoning_spans t, execution_traces t).
Lemma record_decision_Ok eng d db u db' : record_decision eng d db = Ok (u, db') →
  frame_by other_tables db db' ∧ (∃ row, gateway_decisions (gov_tables db') = gateway_decisions (gov_tables db) ++ [row] ∧ is_decision_row eng d row) ∧
  ∃ rows, guardrail_findings (gov_tables db') = guardrail_findings (gov_tables db) ++ rows ∧ Forall2 (is_finding_row d) (findings_in d) rows.
Proof.
  unfold record_decision. intros (id & db1 & E1 & E)%tx_bind_Ok. apply tx_bind_Ok in E as (u2 & db2 & E2 & E).
  assert (Ea : mbind (M:=Tx GovDB) (λ id, insert_row gateway_decisions set_gateway_decisions (λ db, known_tenant (gd_tenant_id d) db && known_engagement eng db &&
    bool_decide (gd_decision d ∈ ["allow"; "deny"]) &&
    absent (λ r, bool_decide (gwr_tenant_id r = gd_tenant_id d ∧ gwr_decision_id r = decision_id d)) (gateway_decisions (gov_tables db)))
    (decision_row id eng d)) (new_row_id "gwr") db = Ok (u2, db2)).
  { unfold mbind, tx_bind. rewrite E1. exact E2. }
  pose proof Ea as Eb. apply (fresh_row_frame other_tables) in Ea as [F1 (id1 & T1)]; [|done|done].
  apply (fresh_row_frame guardrail_findings) in Eb as [[_ G1] _]; [|done|done].
  set (both_tables := λ t, (other_tables t, gateway_decisions t)).
  assert (Hinner : ∀ r s u s', for_each (arm_findings r) (λ f, finding_id ← new_row_id "grf";
      insert_row guardrail_findings set_guardrail_findings (known_tenant (gd_tenant_id d)) (finding_row finding_id d r f)) s = Ok (u, s') →
    frame_by both_tables s s' ∧ ∃ rs, guardrail_findings (gov_tables s') = guardrail_findings (gov_tables s) ++ rs ∧
      Forall2 (is_finding_row d) (map (pair r) (arm_findings r)) rs).
  { intros r s u' s' Ei. eapply (for_each_adds (λ s, guardrail_findings (gov_tables s)) (frame_by both_tables)
      (λ f rs, ∃ row, rs = [row] ∧ is_finding_row d (r, f) row)) in Ei as [Fi (rss & Ti & Hi)]; [|clear].
    - split; [done|]. exists (concat rss). split; [done|]. apply Forall2_map_l. by apply Forall2_singles.
    - intros f s u s' _ E. apply (fresh_row_frame both_tables) in E as [F (fid & T)]; [|done|done]. split; [done|].
      eexists. split; [exact T|]. eexists. split; [done|]. by exists fid. }
  eapply (for_each_adds (λ s, guardrail_findings (gov_tables s)) (frame_by both_tables)
    (λ r rs, Forall2 (is_finding_row d) (map (pair r) (arm_findings r)) rs)) in E as [[Q2 F2] (rss & T2 & H2)]; [|intros r s u' s' _; apply Hinner].
  apply pair_inj in F2 as [F2 F2']. destruct F1 as [Q1 F1]. split_and!.
  - transitivity db2; split; [exact Q1|exact F1|exact Q2|exact F2].
  - rewrite F2', T1. eexists. split; [done|]. by exists id1.
  - exists (concat rss). rewrite T2, G1. split; [done|]. by apply Forall2_flat.
Qed.

(** What [record_decisions] commits: a row for each decision, the rows of their findings,
    and the events, in their order. *)
Record decisions_recorded (eng : option string) (ds : list GatewayDecision) (events : list AuditEvent) (db db' : GovDB) : Prop := mk_decisions_recorded {
  dr_aside : aside (gov_orch db) (gov_orch db');
  dr_others : other_tables (gov_tables db') = other_tables (gov_tables db);
  dr_decisions : ∃ rows, gateway_decisions (gov_tables db') = gateway_decisions (gov_tables db) ++ rows ∧ Forall2 (is_decision_row eng) ds rows;
  dr_findings : ∃ rows, guardrail_findings (gov_tables db') = guardrail_findings (gov_tables db) ++ concat rows ∧
    Forall2 (λ d, Forall2 (is_finding_row d) (findings_in d)) ds rows;
  dr_events : ∃ rows, audit_events (ledger (gov_orch db')) = audit_events (ledger (gov_orch db)) ++ rows ∧ map row_event rows = events
}.
Lemma record_decisions_Ok ds events eng db n db' : Forall (λ e, ¬ state_event e) events →
  record_decisions ds events eng db = Ok (n, db') → decisions_recorded eng ds events db db'.
Proof.
  intros He E. unfold record_decisions in E. apply tx_bind_Ok in E as (u1 & db1 & E1 & E).
  apply tx_bind_Ok in E as (u2 & db2 & E2 & [_ ->]%tx_ret_Ok). apply in_ledger_Ok in E2 as (l' & E2 & ->).
  apply append_many_env in E2 as [Hl Hr]; [|done].
  pose proof E1 as E1'. eapply (for_each_adds (λ s, gateway_decisions (gov_tables s)) (frame_by other_tables)
    (λ d rs, ∃ row, rs = [row] ∧ is_decision_row eng d row)) in E1 as [[[Qa Qe] F] (rss & T & Hd)].
  2: { intros d s u s' _ (Fd & (row & Td & Hd) & _)%record_decision_Ok. split; [done|]. eexists. split; [exact Td|]. by exists row. }
  eapply (for_each_adds (λ s, guardrail_findings (gov_tables s)) (frame_by other_tables)
    (λ d, Forall2 (is_finding_row d) (findings_in d))) in E1' as [_ (fss & Tf & Hf)].
  2: { intros d s u s' _ (Fd & _ & Hf)%record_decision_Ok. by split. }
  split; cbn.
  - etrans; [exact Qa|]. by exists l'.
  - done.
  - exists (concat rss). split; [done|]. by apply Forall2_singles.
  - by exists fss.
  - by rewrite <- Qe.
Qed.

(** ** The trace *)

Definition tables_beside_trace (t : GovTables) :=
  (known_tenants t, known_releases t, agent_identities t, gateway_decisions t, guardrail_findings t).
Definition is_span_row (tenant_id : string) (eng task role : option string) (s : RecordedSpan) (row : ReasoningSpanRecord) : Prop :=
  ∃ id, row = span_row id tenant_id eng task role s.

Lemma least_Some l : l ≠ [] → is_Some (least l).
Proof. destruct l; [done|]. intros _. by eexists. Qed.
Lemma upsert_Ok t tenant eng task role db u db' : _upsert_trace_header t tenant eng task role db = Ok (u, db') →
  frame_by (λ x, (tables_beside_trace x, reasoning_spans x)) db db' ∧
  (chain t ≠ [] → ∃ r, r ∈ execution_traces (gov_tables db') ∧ is_header tenant (trace_id t) r ∧ trc_status r = header_status (chain t) ∧
    trc_attributes r = header_attributes (chain t) role ∧ Some (trc_started_at r) = least (map started_at (chain t)) ∧
    trc_completed_at r = greatest (omap ended_at (chain t))).
Proof.
  unfold _upsert_trace_header. cbn zeta. destruct (least _) as [started|] eqn:El.
  2: { intros [_ ->]%tx_ret_Ok. split; [split; [apply quiet_refl|done]|]. intros Hne. exfalso.
       destruct (least_Some (map started_at (chain t))) as [x Hx]; [by destruct (chain t)|congruence]. }
  intros (traces & db1 & [-> ->]%gets_Ok & E)%tx_bind_Ok. destruct (scalar _) as [r|] eqn:Er.
  - apply modify_Ok in E as ->. split; [by split; [split|]|]. intros _.
    apply scalar_filter_Some in Er as [Hr Hh]. cbn. exists (retold (chain t) started role r).
    split; [|by split_and!]. apply elem_of_update_row. exists r. by rewrite decide_True.
  - apply (fresh_row_frame (λ x, (tables_beside_trace x, reasoning_spans x))) in E as [F (id & T)]; [|done|done]. split; [done|]. intros _.
    rewrite T. eexists. split; [apply elem_of_app; right; by apply list_elem_of_singleton|]. by split_and!.
Qed.
Lemma record_span_Ok tenant eng task role s db u db' : record_span tenant eng task role s db = Ok (u, db') →
  frame_by (λ x, (tables_beside_trace x, execution_traces x)) db db' ∧
  ∃ rs, reasoning_spans (gov_tables db') = reasoning_spans (gov_tables db) ++ rs ∧ ∃ row, rs = [row] ∧ is_span_row tenant eng task role s row.
Proof.
  unfold record_span. intros E.
  apply (fresh_row_frame (λ x, (tables_beside_trace x, execution_traces x))) in E as [F (id & T)]; [|done|done].
  split; [done|]. eexists. split; [exact T|]. eexists. split; [done|]. by exists id.
Qed.

(** What [record_chain] commits: the header, and a row for each span. *)
Record chain_recorded (t : AgentTracer) (tenant : string) (eng task role : option string) (db db' : GovDB) : Prop := mk_chain_recorded {
  cr_quiet : quiet db db';
  cr_others : tables_beside_trace (gov_tables db') = tables_beside_trace (gov_tables db);
  cr_header : chain t ≠ [] → ∃ r, r ∈ execution_traces (gov_tables db') ∧ is_header tenant (trace_id t) r ∧
    trc_status r = header_status (chain t) ∧ trc_attributes r = header_attributes (chain t) role ∧
    Some (trc_started_at r) = least (map started_at (chain t)) ∧ trc_completed_at r = greatest (omap ended_at (chain t));
  cr_spans : ∃ rows, reasoning_spans (gov_tables db') = reasoning_spans (gov_tables db) ++ rows ∧
    Forall2 (is_span_row tenant eng task role) (chain t) rows
}.
Lemma record_chain_Ok t tenant eng task role db n db' : record_chain t tenant eng task role db = Ok (n, db') →
  chain_recorded t tenant eng task role db db'.
Proof.
  unfold record_chain. intros (u1 & db1 & [[Q1 F1] Hh]%upsert_Ok & E)%tx_bind_Ok. apply tx_bind_Ok in E as (u2 & db2 & E & [_ ->]%tx_ret_Ok).
  eapply (for_each_adds (λ s, reasoning_spans (gov_tables s)) (frame_by (λ x, (tables_beside_trace x, execution_traces x)))
    (λ s rs, ∃ row, rs = [row] ∧ is_span_row tenant eng task role s row)) in E as [[Q2 F2] (rss & T & Hs)];
    [|intros s db0 u db'' _; apply record_span_Ok].
  apply pair_inj in F1 as [F1 F1'], F2 as [F2 F2']. split.
  - destruct Q1, Q2. split; [by etrans|congruence].
  - congruence.
  - by rewrite F2'.
  - exists (concat rss). split; [congruence|]. by apply Forall2_singles.
Qed.

(** A span with its instants as a database gives them back. *)
Definition given_back (keeps_zone : bool) (s : RecordedSpan) : LoadedSpan :=
  let instant t := if keeps_zone then Aware t else Naive t in
  mkLoadedSpan (span_name s) (span_trace_id s) (span_id s) (parent_span_id s) (instant (started_at s)) (span_sequence s)
    (match ended_at s with Some t => Some (instant t) | None => None end)
    (span_status s) (status_message s) (attributes s) (span_events s).

(** A chain that was not there is read back as it was, up to the zone of its instants. *)
Lemma span_of_row z id tenant eng task role s : span_of z (span_row id tenant eng task role s) = given_back z s.
Proof. destruct s as [? ? ? ? ? ? []]; unfold span_of, span_row, given_back; cbn; by rewrite Nat2Z.id. Qed.
Lemma rows_in_sequence t tenant eng task role rows : sound t → Forall2 (is_span_row tenant eng task role) (chain t) rows →
  StronglySorted (λ r r', rsp_sequence_no r < rsp_sequence_no r') rows ∧ Forall (of_trace tenant (trace_id t)) rows.
Proof.
  intros Hs Hr.
  assert (Hall : ∀ i r, rows !! i = Some r → rsp_sequence_no r = Z.of_nat i ∧ of_trace tenant (trace_id t) r).
  { intros i r Hi. destruct (Forall2_lookup_r _ _ _ _ _ Hr Hi) as (s & Hc & id & ->).
    destruct (sound_span _ Hs _ _ Hc) as (E & E' & _). cbn. rewrite E'. by repeat split. }
  split; [|apply Forall_lookup; intros i r Hi; by apply (Hall i)].
  clear Hr. assert (Hk : ∃ k : Z, ∀ i r, rows !! i = Some r → rsp_sequence_no r = k + Z.of_nat i)
    by (exists 0; intros i r Hi; destruct (Hall i r Hi); lia). clear Hall. destruct Hk as [k Hk]. revert k Hk.
  induction rows as [|r rows IH]; intros k Hk; constructor.
  - apply (IH (k + 1)). intros i x Hi. rewrite (Hk (S i) x Hi). lia.
  - apply Forall_lookup. intros i x Hi. rewrite (Hk 0%nat r eq_refl), (Hk (S i) x Hi). lia.
Qed.
Lemma chain_read_back z t tenant eng task role db db' : sound t →
  Forall (λ r, ¬ of_trace tenant (trace_id t) r) (reasoning_spans (gov_tables db)) →
  chain_recorded t tenant eng task role db db' →
  load_chain z tenant (trace_id t) db' = map (given_back z) (chain t).
Proof.
  intros Hs Hn [_ _ _ (rows & T & Hr)]. unfold load_chain. rewrite T, filter_app.
  rewrite (filter_none _ (reasoning_spans (gov_tables db))) by (intros r Hin; rewrite Forall_forall in Hn; by apply Hn).
  destruct (rows_in_sequence _ _ _ _ _ _ Hs Hr) as [Hsort Hof]. rewrite (filter_all _ rows) by (intros r Hin; rewrite Forall_forall in Hof; by apply Hof).
  cbn [app]. rewrite (sort_by_unique rsp_sequence_no _ rows rows) by done.
  clear -Hr. induction Hr as [|s r l rows (id & ->) _ IH]; [done|]. cbn. by rewrite span_of_row, IH.
Qed.

(** And it can be written, when the tenant, the engagement and the task are there and no
    span of it is. *)
Lemma fresh_row_total {R} prefix (table : GovTables → list R) put valid (row : string → R) db :
  (∀ l', valid (put_orch (set_ledger l' (gov_orch db)) db) = true) →
  ∃ id l', mbind (M:=Tx GovDB) (λ id, insert_row table put valid (row id)) (new_row_id prefix) db =
    Ok (tt, put_tables (put (table (gov_tables db) ++ [row id]) (gov_tables db)) (put_orch (set_ledger l' (gov_orch db)) db)).
Proof.
  intros Hv. unfold new_row_id, in_ledger, zoom, draw, insert_row, gets, require, modify, mbind, tx_bind, mret, tx_ret. cbn.
  match goal with |- context [valid (put_orch (set_ledger ?l _) _)] => rewrite (Hv l) end. by eexists _, _.
Qed.
Definition known (tenant : string) (eng : option string) (db : GovDB) : Prop := known_tenant tenant db = true ∧ known_engagement eng db = true.
Lemma record_spans_total tenant eng task role trace l db : known tenant eng db →
  NoDup (map span_id l) → Forall (λ s, span_trace_id s = trace) l →
  Forall (λ r, of_trace tenant trace r → rsp_span_id r ∉ map span_id l) (reasoning_spans (gov_tables db)) →
  ∃ db', for_each l (record_span tenant eng task role) db = Ok (tt, db').
Proof.
  intros [Ht He] Hnd Hl. revert db Ht He. induction Hl as [|s l Hs Hl IH]; intros db Ht He Hr; [by eexists|].
  cbn [map] in Hnd, Hr. apply NoDup_cons in Hnd as [Hns Hnd]. cbn [for_each].
  destruct (fresh_row_total "rsp" reasoning_spans set_reasoning_spans (λ db, known_tenant tenant db && known_engagement eng db &&
      absent (λ r, bool_decide (rsp_tenant_id r = tenant ∧ rsp_trace_id r = span_trace_id s ∧ rsp_span_id r = span_id s))
        (reasoning_spans (gov_tables db))) (λ id, span_row id tenant eng task role s) db) as (id & l' & E).
  { intros l'. cbn. unfold known_tenant, known_engagement in *. cbn. rewrite Ht, He. cbn. apply absent_rows. intros r Hin.
    apply bool_decide_eq_false. intros (K1 & K2 & K3). rewrite Forall_forall in Hr. apply (Hr r Hin); [split; congruence|]. rewrite K3. left. }
  destruct (IH Hnd (put_tables (set_reasoning_spans (reasoning_spans (gov_tables db) ++ [span_row id tenant eng task role s]) (gov_tables db))
    (put_orch (set_ledger l' (gov_orch db)) db))) as [db' E']; [exact Ht|exact He| |].
  - apply Forall_app. split; [|by repeat constructor]. eapply Forall_impl; [exact Hr|]. cbn. intros r Hx Ho Hin. apply Hx; [done|by right].
  - exists db'. by rewrite (tx_bind_step _ _ _ _ _ E).
Qed.
Lemma record_chain_total t tenant eng task role db : sound t → known tenant eng db → known_task task db = true →
  NoDup (map span_id (chain t)) → Forall (λ r, ¬ of_trace tenant (trace_id t) r) (reasoning_spans (gov_tables db)) →
  ∃ db', record_chain t tenant eng task role db = Ok (zlen (chain t), db').
Proof.
  intros Hs [Ht He] Hk Hnd Hr. assert (Hup : ∃ db1, _upsert_trace_header t tenant eng task role db = Ok (tt, db1)).
  { unfold _upsert_trace_header. cbn zeta. destruct (least _) as [started|]; [|by eexists]. unfold mbind at 1, tx_bind at 1, gets.
    destruct (scalar _); [by eexists|]. edestruct (fresh_row_total "trc" execution_traces) as (id & l' & E); [|eexists; exact E].
    intros l'. cbn. unfold known_tenant, known_engagement, known_task in *. cbn. by rewrite Ht, He, Hk. }
  destruct Hup as [db1 E1]. unfold record_chain. rewrite (tx_bind_step _ _ _ _ _ E1).
  pose proof E1 as [[Qa F] _]%upsert_Ok. apply pair_inj in F as [F F']. apply pair_inj in F as [F _].
  destruct Qa as [(l' & Eo & _) _].
  destruct (record_spans_total tenant eng task role (trace_id t) (chain t) db1) as [db2 E2].
  - unfold known, known_tenant, known_engagement in *. rewrite Eo. injection F as -> _ _ _. by destruct eng.
  - done.
  - apply Forall_lookup. intros i s Hi. by destruct (sound_span _ Hs _ _ Hi).
  - rewrite F'. eapply Forall_impl; [exact Hr|]. cbn. intros r Hn Ho. by destruct Hn.
  - rewrite (tx_bind_step _ _ _ _ _ E2). by eexists.
Qed.
End recorder_lemmas.

(** ** What a run adds to the gateway *)

Section runs.
Context `{Sha256} `{IpLiterals} `{Ed25519} `{Observability} `{UuidSource} `{JsonReader} `{PackageFiles} {W M : Type}.

(** The event of a decision. *)
Definition event_of (e : ExecutionEnvelope) (d : GatewayDecision) (ev : AuditEvent) : Prop :=
  ev_event_type ev = "agent.gateway." +:+ gd_decision d ∧ ev_tenant_id ev = env_tenant_id e ∧ ev_task_id ev = Some (env_task_id e) ∧
  ev_payload ev = decision_as_dict d.
Definition decision_for (e : ExecutionEnvelope) (d : GatewayDecision) : Prop :=
  (gd_tenant_id d, gd_agent_role d, gd_task_id d) = (env_tenant_id e, env_agent_role e, env_task_id e).
Record grown (e : ExecutionEnvelope) (w w' : Gate W) (ds : list GatewayDecision) (evs : list AuditEvent) : Prop := mk_grown {
  gw_decisions : decisions w' = decisions w ++ ds;
  gw_events : gate_events w' = gate_events w ++ evs;
  gw_matched : Forall2 (event_of e) ds evs;
  gw_own : Forall (decision_for e) ds
}.
Lemma grown_nil e (w : Gate W) : grown e w w [] [].
Proof. split; [by rewrite app_nil_r..|constructor|constructor]. Qed.
Lemma grown_recorded e name d (w w1 w2 : Gate W) ds evs : grown e w w1 ds evs → decisions w2 = decisions w1 → gate_events w2 = gate_events w1 →
  ∀ w', recorded e name d w2 w' → ∃ ev, grown e w w' (ds ++ [d]) (evs ++ [ev]).
Proof.
  intros [K1 K2 K3 K4] E1 E2 w' (_ & _ & R1 & R2 & (ev & R3 & R4 & R5 & R6 & R7) & _). exists ev. injection R2 as R2a R2b R2c R2d. split.
  - by rewrite R1, E1, K1, app_assoc.
  - by rewrite R3, E2, K2, app_assoc.
  - apply Forall2_app; [done|]. by repeat constructor.
  - apply Forall_app. split; [done|]. repeat constructor. unfold decision_for. congruence.
Qed.
(** What is recorded of an outcome: nothing of a call that raised. *)
Definition is_recorded (c : Call) : bool := match c.2 with inr (Raised _) => false | _ => true end.
Lemma conversation_grown (g : AgentGateway W) signed t w log w' : conversation g signed t w log w' →
  ∃ ds evs, grown (task_envelope t) w w' ds evs ∧ length ds = length (List.filter is_recorded log).
Proof.
  induction 1 as [|l w1 q r w2 _ (ds & evs & Hg & Hn) Eq1 Eq2 Eq3 Hs]; [by exists [], []; split; [apply grown_nil|]|].
  rewrite List.filter_app, length_app, <- Hn. cbn [List.filter].
  assert (Hrec : ∀ d w3, is_recorded (q, r) = true → decisions w3 = decisions w1 → gate_events w3 = gate_events w1 →
    recorded (task_envelope t) (rq_tool q) d w3 w2 → ∃ ds' evs', grown (task_envelope t) w w2 ds' evs' ∧
      length ds' = (length ds + length (if is_recorded (q, r) then [(q, r)] else []))%nat).
  { intros d w3 Hi E1 E2 Hr. destruct (grown_recorded _ _ d _ _ w3 _ _ Hg E1 E2 _ Hr) as [ev He].
    exists (ds ++ [d]), (evs ++ [ev]). split; [done|]. rewrite Hi, length_app. done. }
  inversion Hs as [x y Hu|x y z Hu Hr|x1 x2 x3 x4 x5 x6 x7 x8 Hr|x1 x2 x3 x4 x5 x6 x7 x8 x9 Hr|x1 x2 x3 x4 x5 x6 x7 x8 x9 Hr]; subst; rewrite ?Eq2 in *.
  - exists ds, evs. split; [|cbn; lia]. destruct Hu as [-> | ->]; by destruct Hg.
  - by destruct Hu as [-> | ->]; (eapply Hrec; [| | |exact Hr]).
  - by eapply Hrec; [| | |exact Hr].
  - by eapply Hrec; [| | |exact Hr].
  - by eapply Hrec; [| | |exact Hr].
Qed.
End runs.

(** ** What the handler does *)

Section steps.
Context `{Sha256} `{IpLiterals} `{Ed25519} `{Observability} `{UuidSource} `{JsonReader} `{PackageFiles} `{ExceptionParts} {W M : Type}.
Abbreviation World := (Site (AgentEnv W M)).
Implicit Types (s : World) (h : GovernedAgentTaskHandler W M) (l : TaskLease).

Definition bench_of (s : World) : Bench W M := env_bench (site_env s).
Definition gov_db (s : World) : GovDB := mkGovDB (site_db s) (env_tables (site_env s)).
(** Nothing has moved but the readings of the environment. *)
Definition unmoved (s s' : World) : Prop := gov_db s' = gov_db s ∧ bench_of s' = bench_of s.
#[export] Instance unmoved_preorder : PreOrder unmoved.
Proof. split; [by intros s|]. intros s1 s2 s3 [? ?] [? ?]. split; congruence. Qed.

(** The package and the envelope a lease is run with: the envelope says what the lease says
    and grants what the package declares and the gateway can answer. *)
Record for_lease h s l (p : AgentPackage) (e : ExecutionEnvelope) : Prop := mk_for_lease {
  fl_package : ∃ packages role, h_registry h s = inl packages ∧ lease_assigned_agent_role l = Some role ∧ assoc role packages = Some p ∧
    env_agent_role e = role;
  fl_lease : (env_task_id e, env_engagement_id e, env_tenant_id e, env_attempt_count e, env_lease_owner e, env_human_gate e) =
    (lease_task_id l, lease_engagement_id l, lease_tenant_id l, lease_attempt_count l, Some (lease_lease_owner l), lease_human_gate l);
  fl_tools : env_allowed_tools e = _callable_tools (h_gateway h) p;
  fl_scopes : env_allowed_evidence_scopes e = pkg_evidence_boundaries p;
  fl_forbidden : env_forbidden_actions e = pkg_forbidden_actions p;
  fl_budget : env_token_budget e = pkg_token_budget p ∧ env_cost_budget_usd e = pkg_cost_budget_usd p;
  fl_deadline : ∃ d, env_deadline e = Some d ∧ ∀ d', lease_deadline_at l = Some d' → d = d'
}.
(** The task such a run is given. *)
Record task_for h s l (t : AgentTask) : Prop := mk_task_for {
  tf_lease : for_lease h s l (task_package t) (task_envelope t);
  tf_plain : task_release_id t = None ∧ task_independence_subject t = None ∧ task_independence_constraints t = [];
  tf_quality : ∃ rules, quality_rules_of (policy_fields (lease_execution_policy l)) = Ok rules ∧
    quality t = Some (mkQualityContext (control_test_of (policy_fields (lease_execution_policy l))) rules)
}.
(** The tracer a run starts on. *)
Definition fresh (trace : string) (n : N) : AgentTracer := mkAgentTracer trace [] [] n.
Lemma fresh_sound trace n : sound (fresh trace n).
Proof. split; [done|constructor|constructor]. Qed.
(** A run of the lease's task, from the state of [s], and what it returns and leaves. *)
Definition runs h s l (t : AgentTask) (r : AgentRunResult + failure) (sc : Scene (Bench W M)) : Prop :=
  task_for h s l t ∧ ∃ trace n, GovRuntime.run (h_issuer h) (runtime_of h) t (mkScene (fresh trace n) (bench_of s)) = (r, sc).

Definition settle_run (res : AgentRunResult) : TaskExecutionResult + handler_error :=
  if succeeded res then inl (mkTaskExecutionResult ["agent-run:" +:+ run_trace_id res] (run_as_dict res)) else inr (_raise_for res).
(** The decisions and the events of the gateway since [w]. *)
Definition decisions_since (w w' : Gate W) : list GatewayDecision := drop (length (decisions w)) (decisions w').
Definition events_since (w w' : Gate W) : list AuditEvent := drop (length (gate_events w)) (gate_events w').
(** What is written of a run, in two transactions. *)
Definition written l (w w' : Gate W) (tr : AgentTracer) (db db' : GovDB) : Prop := ∃ db1,
  decisions_recorded (Some (lease_engagement_id l)) (decisions_since w w') (events_since w w') db db1 ∧
  chain_recorded tr (lease_tenant_id l) (Some (lease_engagement_id l)) (Some (lease_task_id l)) (lease_assigned_agent_role l) db1 db'.

(** An agent task is refused before its run; or its run raises; or its record cannot be
    written; or it ends as its run ended, with its record written. *)
Inductive agent_step h l s : (TaskExecutionResult + handler_error) → World → Prop :=
  | agent_refused err s' : unmoved s s' → agent_step h l s (inr err) s'
  | agent_raised t f sc s' : runs h s l t (inr f) sc → gov_db s' = gov_db s → bench_of s' = world sc →
      agent_step h l s (inr (unhandled f)) s'
  | agent_unrecorded t res sc x s' : runs h s l t (inl res) sc → h_recorder h = true → aside (site_db s) (site_db s') →
      bench_of s' = world sc → agent_step h l s (inr (unhandled (Raised x))) s'
  | agent_settled t res sc s' : runs h s l t (inl res) sc →
      (if h_recorder h then written l (gate (bench_of s)) (gate (world sc)) (tracer sc) (gov_db s) (gov_db s') else gov_db s' = gov_db s) →
      bench_of s' = world sc → agent_step h l s (settle_run res) s'.

Lemma handling_bind_run {A B} (m : Handling (W:=W) (M:=M) A) (f : A → Handling (W:=W) (M:=M) B) s :
  mbind (M:=Handling (W:=W) (M:=M)) f m s = match m s with (inl a, s') => f a s' | (inr e, s') => (inr e, s') end.
Proof. done. Qed.

Lemma prepare_spec h l s r s' : prepare h l s = (r, s') →
  unmoved s s' ∧ match r with inl (p, e) => for_lease h s l p e | inr _ => True end.
Proof.
  unfold prepare. rewrite handling_bind_run. cbn. destruct (h_registry h s) as [packages|err] eqn:Er; [|by intros [= <- <-]].
  destruct (lease_assigned_agent_role l) as [role|] eqn:El; cbn; [|by intros [= <- <-]].
  case_bool_decide as Hne; cbn; [by intros [= <- <-]|]. destruct (assoc role packages) as [p|] eqn:Ea; [|by intros [= <- <-]].
  rewrite handling_bind_run. cbn. unfold envelope_from_lease. rewrite El. destruct (lease_attempt_count l <? 1); [by intros [= <- <-]|].
  cbn. destruct (lease_deadline_at l) as [d|] eqn:Ed.
  - intros [= <- <-]. split; [done|]. split; try done; [by exists packages, role|]. exists d. split; [done|]. intros d'. congruence.
  - rewrite handling_bind_run. cbn. unfold raising_res. rewrite handling_bind_run. cbn.
    destruct (add_us _ _) as [d|x]; cbn; intros [= <- <-]; (split; [done|]); [|done].
    split; try done; [by exists packages, role|]. exists d. split; [done|]. congruence.
Qed.

Lemma recording_spec {A} (m : GovTx A) s r s' : recording m s = (r, s') → bench_of s' = bench_of s ∧
  match r with inl a => m (gov_db s) = Ok (a, gov_db s') | inr err => s' = s ∧ ∃ x, err = unhandled (Raised x) end.
Proof.
  unfold recording. fold (gov_db s). destruct (m (gov_db s)) as [[a db]|x] eqn:Em; intros [= <- <-]; (split; [done|]).
  - by destruct db.
  - split; [done|]. by exists x.
Qed.
Lemma gateway_events_aside e ds evs : Forall2 (event_of e) ds evs → Forall (λ ev, ¬ state_event ev) evs.
Proof.
  induction 1 as [|d ev ds evs (Et & _) _ IH]; constructor; [|done]. unfold state_event. rewrite Et.
  intros Hin. repeat (apply elem_of_cons in Hin as [Hin|Hin]; [discriminate Hin|]). by apply elem_of_nil in Hin.
Qed.
Lemma grown_since e (w w' : Gate W) ds evs : grown e w w' ds evs → decisions_since w w' = ds ∧ events_since w w' = evs.
Proof. intros [E1 E2 _ _]. unfold decisions_since, events_since. by rewrite E1, E2, !drop_app_length. Qed.

Lemma persist_spec h l tr (w : Gate W) s r s' : h_recorder h = true →
  Forall (λ ev, ¬ state_event ev) (events_since w (gate (bench_of s))) →
  _persist h l tr (length (decisions w)) (length (gate_events w)) s = (r, s') →
  bench_of s' = bench_of s ∧ aside (site_db s) (site_db s') ∧
  match r with
  | inl _ => written l w (gate (bench_of s)) tr (gov_db s) (gov_db s')
  | inr err => ∃ x, err = unhandled (Raised x)
  end.
Proof.
  intros Hr He. unfold _persist. rewrite Hr, handling_bind_run. cbn [loading]. rewrite handling_bind_run.
  fold (bench_of s) (decisions_since w (gate (bench_of s))) (events_since w (gate (bench_of s))).
  destruct (recording _ s) as [r1 s1] eqn:E1. apply recording_spec in E1 as [B1 K1].
  destruct r1 as [n|err]; [|intros [= <- <-]; destruct K1 as [-> K1]; by split_and!].
  apply record_decisions_Ok in K1; [|done]. rewrite handling_bind_run. pose proof (dr_aside _ _ _ _ _ K1) as A1. cbn in A1.
  destruct (recording _ s1) as [r2 s2] eqn:E2. apply recording_spec in E2 as [B2 K2].
  destruct r2 as [n'|err]; intros [= <- <-]; cbn.
  - apply record_chain_Ok in K2. destruct (cr_quiet _ _ _ _ _ _ _ K2) as [A2 _]. cbn in A2. split_and!; [congruence|by etrans|].
    by exists (gov_db s1).
  - destruct K2 as [-> K2]. by split_and!.
Qed.

Lemma running_spec h t tr s r s' : running h t tr s = (r, s') → ∃ f sc,
  GovRuntime.run (h_issuer h) (runtime_of h) t (mkScene (fresh (trace_id tr) (env_readings (site_env s))) (bench_of s)) = (f, sc) ∧
  gov_db s' = gov_db s ∧ bench_of s' = world sc ∧ r = match f with inl res => inl (res, tracer sc) | inr x => inr (unhandled x) end.
Proof.
  unfold running. fold (bench_of s) (fresh (trace_id tr) (env_readings (site_env s))).
  destruct (GovRuntime.run _ _ _ _) as [f sc]. intros [= <- <-]. by exists f, sc.
Qed.

(** What a run leaves at the gateway: the calls of a conversation, each recorded. *)
Lemma run_grows h s l t r sc : runs h s l t r sc →
  (∃ signed log, issued_for t (h_issuer h) signed ∧ conversation (h_gateway h) signed t (gate (bench_of s)) log (gate (world sc)) ∧
     ∃ ds evs, grown (task_envelope t) (gate (bench_of s)) (gate (world sc)) ds evs ∧ length ds = length (List.filter is_recorded log)) ∨
  gate (world sc) = gate (bench_of s).
Proof.
  intros (_ & trace & n & E).
  pose proof (effect_run _ (mkScene (fresh trace n) (bench_of s)) _ (effect_run_task (runtime_of h) t (h_issuer h) (bench_of s))) as Hr.
  rewrite E in Hr. cbn in Hr. destruct Hr as [(signed & Hi & Hr)|[_ ->]]; [|by right]. left. exists signed.
  assert (Hc : ∃ log, conversation (h_gateway h) signed t (gate (bench_of s)) log (gate (world sc))).
  { destruct r as [res|[d|x]]; cbn in Hr; [|done|].
    - destruct Hr as (log & ex & [Tc _ _ _ _ _] & _). by exists log.
    - destruct Hr as (log & ex & [Tc _ _ _ _ _]). by exists log. }
  destruct Hc as [log Hc]. exists log. split; [done|]. split; [done|]. by eapply conversation_grown.
Qed.
Lemma run_events_aside h s l t r sc : runs h s l t r sc →
  Forall (λ ev, ¬ state_event ev) (events_since (gate (bench_of s)) (gate (world sc))).
Proof.
  intros [(signed & log & _ & _ & ds & evs & Hg & _)|E]%run_grows.
  - destruct (grown_since _ _ _ _ _ Hg) as [_ ->]. eapply gateway_events_aside, gw_matched, Hg.
  - unfold events_since. rewrite E, drop_all. constructor.
Qed.

Theorem governed_task_step h l s : agent_step h l s (governed_task h l s).1 (governed_task h l s).2.
Proof.
  destruct (governed_task h l s) as [r s'] eqn:E. cbn. unfold governed_task in E. rewrite handling_bind_run in E.
  destruct (prepare h l s) as [[[p e]|err] s1] eqn:E1; apply prepare_spec in E1 as [U1 Hp];
    [|injection E as <- <-; by apply agent_refused].
  rewrite handling_bind_run in E. cbn [env_reading] in E. set (s2 := mkSite (site_db s1) _) in E.
  assert (U2 : unmoved s s2) by (etrans; [exact U1|done]). clearbody s2. clear U1.
  rewrite handling_bind_run in E. cbn [loading] in E. rewrite handling_bind_run in E.
  destruct (loading _ s2) as [[text|err] s3] eqn:E3; injection E3 as E3 <-; [|injection E as <- <-; by apply agent_refused].
  rewrite handling_bind_run in E.
  destruct (loading _ s2) as [[items|err] s4] eqn:E4; injection E4 as E4 <-; [|injection E as <- <-; by apply agent_refused].
  rewrite handling_bind_run in E. unfold raising_res, raising in E.
  destruct (quality_rules_of _) as [rules|x] eqn:Eq; [|injection E as <- <-; by apply agent_refused].
  rewrite handling_bind_run in E.
  match type of E with context [running h ?t ?tr s2] => set (task := t) in E; set (tracer0 := tr) in E end.
  destruct (running h task tracer0 s2) as [r5 s5] eqn:E5. apply running_spec in E5 as (f & sc & Er & U5 & B5 & ->).
  destruct U2 as [U2 B2].
  assert (Hrun : runs h s l task f sc).
  { split; [|eexists _, _; rewrite <- B2; exact Er]. split; [exact Hp|done|]. by exists rules. }
  destruct f as [res|f]; cbn in E.
  2: { injection E as <- <-. eapply agent_raised; [exact Hrun|congruence|done]. }
  rewrite handling_bind_run in E. fold (bench_of s2) in E. rewrite B2 in E.
  destruct (h_recorder h) eqn:Hrec.
  - destruct (_persist h l (tracer sc) _ _ s5) as [r6 s6] eqn:E6.
    apply (persist_spec h l (tracer sc) (gate (bench_of s))) in E6 as (B6 & A6 & K6); [|done|rewrite B5; by eapply run_events_aside].
    assert (Es : site_db s5 = site_db s) by (change (gov_orch (gov_db s5) = gov_orch (gov_db s)); congruence).
    destruct r6 as [u|err]; cbn in E.
    + assert (Hend : r = settle_run res ∧ s' = s6) by (unfold settle_run; destruct (succeeded res); injection E as <- <-; done).
      destruct Hend as [-> ->]. eapply agent_settled; [exact Hrun| |congruence]. rewrite Hrec. rewrite B5 in K6. congruence.
    + injection E as <- <-. destruct K6 as [x ->]. eapply agent_unrecorded; [exact Hrun|done|by rewrite <- Es|congruence].
  - unfold _persist in E. rewrite Hrec in E. cbn in E.
    assert (Hend : r = settle_run res ∧ s' = s5) by (unfold settle_run; destruct (succeeded res); injection E as <- <-; done).
    destruct Hend as [-> ->]. eapply agent_settled; [exact Hrun|rewrite Hrec; congruence|congruence].
Qed.

(** The workflow is left alone. *)
Lemma agent_step_aside h l s r s' : agent_step h l s r s' → aside (site_db s) (site_db s').
Proof.
  assert (Hdb : ∀ s s', gov_db s' = gov_db s → aside (site_db s) (site_db s')).
  { intros x y Hxy. assert (site_db y = site_db x) as -> by (change (gov_orch (gov_db y) = gov_orch (gov_db x)); congruence). done. }
  intros [err s1 [U _]|t f sc s1 _ U _|t res sc x s1 _ _ A _|t res sc s1 _ K _]; [by apply Hdb|by apply Hdb|done|].
  destruct (h_recorder h); [|by apply Hdb]. destruct K as (db1 & K1 & K2).
  etrans; [exact (dr_aside _ _ _ _ _ K1)|]. exact (proj1 (cr_quiet _ _ _ _ _ _ _ K2)).
Qed.
Lemma governed_bystander h : bystander (governed_handler h).
Proof. intros l s. eapply agent_step_aside, governed_task_step. Qed.

(** The gateway moves in a run of the task only. *)
Lemma step_run h l s r s' : agent_step h l s r s' →
  bench_of s' = bench_of s ∨ ∃ t f sc, runs h s l t f sc ∧ bench_of s' = world sc.
Proof.
  intros [err s1 [_ B]|t f sc s1 Hr _ B|t res sc x s1 Hr _ _ B|t res sc s1 Hr _ B]; [by left|right..]; by eexists _, _, _.
Qed.
(** The credential of a lease's task. *)
Lemma issued_under_lease h s l t signed : task_for h s l t → issued_for t (h_issuer h) signed →
  let i := subject signed in let p := task_package t in
  (id_tenant_id i, id_engagement_id i, id_task_id i, attempt i) =
    (lease_tenant_id l, lease_engagement_id l, lease_task_id l, lease_attempt_count l) ∧
  (∀ d, lease_deadline_at l = Some d → expires_at signed ≤ d) ∧
  (∀ f, f ∈ pkg_forbidden_actions p → f ∈ id_forbidden_actions i) ∧
  (∀ tool, tool ∈ granted_tools i → tool ∈ declared p ∧
    (registered_tools (pkg_agent_id p) (h_gateway h) ≠ [] → tool ∈ registered_tools (pkg_agent_id p) (h_gateway h))).
Proof.
  intros [[_ Hl Ht _ _ _ (d & Ed & Hd)] _ _] (now & nonce & id & Hi).
  apply issue_Ok in Hi as (_ & _ & _ & _ & _ & _ & _ & Hx & (B1 & B2 & B3 & _ & _ & B6) & _ & _ & Ha).
  injection Hl as L1 L2 L3 L4 _ _. destruct (authority_spec (task_package t) (task_envelope t)) as (A1 & _ & A3). rewrite <- Ha in A1, A3.
  cbn in A1, A3. cbn zeta. split_and!.
  - congruence.
  - intros d' E'. rewrite <- (Hd d' E'). by apply Hx.
  - intros f Hf. apply A3. by left.
  - intros tool [Hdec Hin]%A1. split; [done|]. intros Hne. rewrite Ht in Hin. unfold _callable_tools in Hin. cbn zeta in Hin.
    destruct (registered_tools _ _) as [|x rest]; [done|]. cbn [nonempty] in Hin. by apply list_elem_of_filter in Hin as [? _].
Qed.
(** A task is completed by a run that completed. *)
Lemma step_completed h l s result s' : agent_step h l s (inl result) s' → h_recorder h = true → ∃ t res sc,
  runs h s l t (inl res) sc ∧ run_status res = "completed" ∧ settle_run res = inl result ∧
  written l (gate (bench_of s)) (gate (world sc)) (tracer sc) (gov_db s) (gov_db s').
Proof.
  intros Hs Hr. inversion Hs as [| | |t res sc s1 Hrun Hw Hb Ho Es]; subst. rewrite Hr in Hw. exists t, res, sc. split; [done|].
  unfold settle_run, succeeded in *. case_bool_decide as Hc; [|discriminate Ho]. by split_and!.
Qed.
(** What a run returns passed both gates, and its chain is closed. *)
Lemma run_result h s l t res sc : runs h s l t (inl res) sc →
  admissible (runtime_of h) t res ∧ sound (tracer sc) ∧ is_well_formed (chain (tracer sc)) = true.
Proof.
  intros (_ & trace & n & E). split.
  - pose proof (effect_run _ (mkScene (fresh trace n) (bench_of s)) _ (effect_run_task (runtime_of h) t (h_issuer h) (bench_of s))) as Hr.
    rewrite E in Hr. cbn in Hr. destruct Hr as [(signed & _ & log & ex & _ & _ & Ha)|[[e [=]] _]]. done.
  - destruct (run_span (runtime_of h) t (h_issuer h)) as (attrs & body & Es & Hb).
    destruct (span_traced failure_text "assuranceos.agent.task" attrs body (mkScene (fresh trace n) (bench_of s)) Hb (fresh_sound _ _)) as (K1 & K2 & _ & K4).
    rewrite <- Es, E in K1, K2, K4. cbn in K1, K2, K4. split; [done|]. apply sound_well_formed; [done|done|]. intros E0. rewrite E0 in K4. cbn in K4. lia.
Qed.
End steps.
