(* ===== verification/GovProperties.v ===== *)
(** * Governance: properties

    What the guardrails, the credentials and the gateway guarantee.  The theorems hold
    for every instance of the environment; the witnesses run them on the world of
    GovScenario. *)

From S2P Require Import Prelude PyFloat PyTime Ledger PyText PyRegex PyCodec Materiality OrchDefs.
From S2P Require Import GovPolicy GovIdentity GovTelemetry GovArmor GovGateway GovScenario.
Local Open Scope Z_scope.

Module GovProperties.

(** ** The gateway *)

Section gateway_properties.
Context `{Sha256} `{IpLiterals} `{Ed25519} `{Observability} `{UuidSource} {W : Type}.

(** C4: [AgentGateway.invoke] implements the transition system of a call: whatever the
    trace and the clock, it is refused before the tool runs, or raises before it runs, or
    the tool runs under every check and its outcome is recorded. *)
Theorem invoke_refines_calls (g : AgentGateway W) q s :
  call_step g q (world s) (fst (serve g q s)) (world (snd (serve g q s))).
Proof. apply serve_step. Qed.


(** A call that returns or is denied leaves exactly one more decision, audit event and log
    record, and the decision says which; a call that raises leaves none, and has run no
    tool. *)
Theorem one_decision_per_call (g : AgentGateway W) q s :
  let w := world s in let w' := world (snd (serve g q s)) in
  match fst (serve g q s) with
  | inr (Raised _) => decisions w' = decisions w ∧ gate_events w' = gate_events w ∧ handlers_state w' = handlers_state w
  | r => ∃ d, decisions w' = decisions w ++ [d] ∧ length (gate_events w') = S (length (gate_events w)) ∧
      length (audit_logs w') = S (length (audit_logs w)) ∧
      gd_decision d = (match r with inl _ => "allow" | inr _ => "deny" end) ∧
      (∀ d', r = inr (Denied d') → d = d') ∧
      (gd_tenant_id d, gd_task_id d, gd_tool_name d) = (env_tenant_id (rq_envelope q), env_task_id (rq_envelope q), rq_tool q)
  end.
Proof.
  cbn zeta.
  assert (Hrec : ∀ w1 d r, decisions w1 = decisions (world s) → gate_events w1 = gate_events (world s) → audit_logs w1 = audit_logs (world s) →
    recorded (rq_envelope q) (rq_tool q) d w1 (world (snd (serve g q s))) → gd_decision d = (match r with inl _ => "allow" | inr _ => "deny" end) →
    (∀ d' : GatewayDecision, r = inr (Denied d') → d = d') → ∃ d, decisions (world (snd (serve g q s))) = decisions (world s) ++ [d] ∧
      length (gate_events (world (snd (serve g q s)))) = S (length (gate_events (world s))) ∧
      length (audit_logs (world (snd (serve g q s)))) = S (length (audit_logs (world s))) ∧
      gd_decision d = (match r : json + failure with inl _ => "allow" | inr _ => "deny" end) ∧ (∀ d', r = inr (Denied d') → d = d') ∧
      (gd_tenant_id d, gd_task_id d, gd_tool_name d) = (env_tenant_id (rq_envelope q), env_task_id (rq_envelope q), rq_tool q)).
  { intros w1 d r Ed Ee El (_ & _ & E1 & E2 & (ev & E3 & _) & (log & E4)) Hd Hr. exists d.
    rewrite E1, E3, E4, Ed, Ee, El, !length_app. injection E2 as E2a E2b E2c E2d. cbn. split_and!; try done; lia || congruence. }
  destruct (serve_step g q s) as [e w' Hu|d w1 w' Hu Hr Hd _|i tool x h d w' _ _ Hr Hd _|i tool v h d w' _ _ _ Hr Hd _|i tool v h d w' _ _ _ Hr Hd _].
  - by destruct Hu as [-> | ->].
  - apply (Hrec w1 d (inr (Denied d))); [by destruct Hu as [-> | ->]..|done|done|by intros d' [= ->]].
  - apply (Hrec _ d (inr (Denied d))) in Hr; try done. by intros d' [= ->].
  - apply (Hrec _ d (inr (Denied d))) in Hr; try done. by intros d' [= ->].
  - by apply (Hrec _ d (inl (redacted (gw_armor g) 7 v))) in Hr.
Qed.

(** What a call returns is the result of the tool with its texts redacted, and no text the
    screening reaches holds secret material. *)
Theorem returned_result_screened (g : AgentGateway W) q s v :
  fst (serve g q s) = inl v →
  ∃ i tool raw h, admitted g q (world s) i tool ∧
    tool_handler tool (rq_arguments q) i (rq_envelope q) (handlers_state (world s)) = (inl raw, h) ∧
    ¬ secret_in 7 raw ∧ v = redacted (gw_armor g) 7 raw.
Proof.
  intros Hv. pose proof (serve_step g q s) as Hs. rewrite Hv in Hs. inversion Hs; subst. by eexists _, _, _, _.
Qed.

(** C26: Requests for one task, however many, make the tools do no more than the call budget
    allows: a measure of their state that each registered tool raises by at most one
    rises by at most the ceiling. *)
Theorem calls_within_budget (g : AgentGateway W) (f : W → Z) t qs s :
  _budgets (world s) = ∅ →
  (∀ role name tool arguments i e h, (role, name, tool) ∈ _routes g → f (snd (tool_handler tool arguments i e h)) ≤ f h + 1) →
  Forall (λ q, env_task_id (rq_envelope q) = t) qs →
  f (handlers_state (world (snd (serve_all g qs s)))) ≤ f (handlers_state (world s)) + Z.max 0 (max_calls_per_task g).
Proof.
  intros He Hf Hq. assert (Hb : budgets_sound g (world s)) by (intros t' b; by rewrite He, lookup_empty).
  destruct (serve_all_bounded g f t qs s Hf Hq Hb) as [Hb' Hd]. unfold calls_of in Hd. rewrite He, lookup_empty in Hd.
  destruct (_budgets _ !! t) as [b|] eqn:Eb in Hd; [destruct (Hb' _ _ Eb) as [Em Hc]; rewrite Em in Hc|]; lia.
Qed.

(** After any session of requests, whatever they end with, the chain of spans is well
    formed: every span has ended, all belong to one trace, and every parent is in it. *)
Theorem sessions_are_traced (g : AgentGateway W) q qs s :
  sound (tracer s) → open_spans (tracer s) = [] →
  is_well_formed (chain (tracer (snd (serve_all g (q :: qs) s)))) = true.
Proof.
  intros Hs Ho. destruct (serve_all_balanced g (q :: qs) s Hs) as (H1' & H2' & _ & _).
  apply sound_well_formed; [done|congruence|]. cbn [serve_all].
  pose proof (serve_grows g q s Hs) as Hg. destruct (serve_balanced g q s Hs) as (E1 & _).
  destruct (serve g q s) as [r s1]. cbn [snd] in *. destruct (serve_all_balanced g qs s1 E1) as (_ & _ & _ & Hl).
  destruct (serve_all g qs s1) as [rs s2]. cbn [snd] in *. destruct (chain (tracer s2)); [cbn in Hl; lia|done].
Qed.
End gateway_properties.

(** ** The guardrails *)

Section armor_properties.
Context `{Sha256} `{IpLiterals}.

(** C6: When the screening of a tool call returns, it lets the call through exactly when
    every leaf of the arguments, at any depth of objects and lists, has a name that is
    neither a blocked key nor, for a text, a scope outside the granted ones, and every text
    is clean; otherwise it blocks the call and says why.  A leaf goes by the name of the
    innermost field that holds it, of which the part after the last dot counts, followed by
    an index for each list in between: what a list holds under a blocked key goes by
    another name, and is admitted. *)
Theorem tool_call_screened_exactly (a : ModelArmor) name arguments scopes forbidden_actions r :
  inspect_tool_call a name arguments scopes forbidden_actions = Ok r →
  (blocked r = false ↔ admissible_arguments a scopes forbidden_actions arguments) ∧
  (arm_findings r = [] ↔ blocked r = false) ∧
  sanitized_arguments r = (if blocked r then None else Some arguments).
Proof. intros (K1 & _ & K2 & K3)%tool_call_screened. done. Qed.

(** Screening a generated text always gives a verdict: it is blocked exactly when a secret
    occurs in it and secrets block, allowed exactly when neither a secret, nor personal
    data, nor a card number does, and then it is left as it is. *)
Theorem generated_text_screened (a : ModelArmor) text block_on_secrets :
  ∃ r, inspect_output a text block_on_secrets = Ok r ∧
    (blocked r = true ↔ block_on_secrets = true ∧ seen_in text _SECRET_PATTERNS) ∧
    (verdict r = verdict_allow ↔ ¬ (seen_in text _SECRET_PATTERNS ∨ seen_in text _PII_PATTERNS ∨ card_in text)) ∧
    (arm_findings r = [] ↔ verdict r = verdict_allow) ∧
    (verdict r = verdict_allow → sanitized_text r = Some text).
Proof.
  destruct (output_screened a text block_on_secrets) as (r & Er & K1 & K2 & K3 & _ & K4). exists r.
  split_and!; try done; rewrite K2; done.
Qed.
End armor_properties.

(** ** The credentials *)

Section credential_properties.
Context `{Sha256} `{Ed25519}.

(** A credential carries exactly the tools and scopes both the package and the envelope
    give, and every prohibition of either; it is bound to the envelope, and outlives
    neither the maximum lifetime nor the deadline. *)
Theorem issued_authority_intersects iss p e rel subj constraints ttl now nonce0 id0 c :
  issue iss p e rel subj constraints ttl now nonce0 id0 = Ok c →
  (∀ x, x ∈ granted_tools (subject c) ↔ x ∈ declared p ∧ x ∈ env_allowed_tools e) ∧
  (∀ x, x ∈ granted_evidence_scopes (subject c) ↔ scopes_granted p e x) ∧
  (∀ x, x ∈ id_forbidden_actions (subject c) ↔ x ∈ pkg_forbidden_actions p ∨ x ∈ env_forbidden_actions e) ∧
  bound_to (subject c) e ∧
  now < expires_at c ≤ now + iss_maximum_ttl iss ∧ (∀ d, env_deadline e = Some d → expires_at c ≤ d).
Proof.
  intros (_ & _ & _ & _ & Ei & K1 & K2 & K3 & K4 & _ & _ & Ea)%issue_Ok. destruct (authority_spec p e) as (A1 & A2 & A3).
  rewrite <- Ea in A1, A2, A3. split_and!; try done; lia.
Qed.

(** C27: A credential the control plane issues is accepted, with the identity it carries, at
    every instant from its issue to its expiry, by a verifier that holds the issuer's public
    key under the issuer's key id, allows lifetimes up to the issuer's maximum or longer,
    has a clock skew that is not negative and has not revoked the credential, provided the
    instant plus and minus the skew are instants of the calendar, and provided the public
    key verifies what the private key signs. *)
Theorem credential_round_trip iss p e rel subj constraints ttl now nonce0 id0 c v pem later :
  (∀ m, ed_verify (public_of (iss_private_key iss)) (ed_sign (iss_private_key iss) m) m = true) →
  issue iss p e rel subj constraints ttl now nonce0 id0 = Ok c →
  assoc (iss_key_id iss) (trusted_public_keys v) = Some pem → load_pem pem = Ok (Some (public_of (iss_private_key iss))) →
  iss_maximum_ttl iss ≤ maximum_ttl v → 0 ≤ clock_skew v →
  now ≤ later ≤ expires_at c → in_range (later + clock_skew v) = true → in_range (later + - clock_skew v) = true →
  revocations v id0 = false →
  verify v c (Some e) later = Ok (subject c).
Proof.
  intros Hlaw Hi Ht Hl Hmax Hskew Hnow R1 R2 Hrev. pose proof Hi as (_ & _ & Ek & Ef & Ei & K1 & K2 & _ & K4 & _ & Eid & _)%issue_Ok.
  unfold verify. rewrite window_passes by (done || lia). cbn [res_bind].
  assert (Hs : signed_by_trusted (trusted_public_keys v) identity_document c).
  { unfold issue in Hi. inv_res. eapply sealed_trusted; [exact Hlaw|done|exact Hi|done|exact Ht|done]. }
  apply (signature_Ok identity_error "agent-identity") in Hs. rewrite Hs. cbn [res_bind]. rewrite Eid, Hrev. cbn [negb check res_bind].
  apply assert_bound_Ok in K4. by rewrite K4.
Qed.

(** A verifier accepts a credential only in its window, signed by a trusted key over the
    identity it carries, not revoked, and for the invocation of the envelope. *)
Theorem accepted_credentials_bound v c e now i :
  verify v c (Some e) now = Ok i →
  i = subject c ∧ bound_to i e ∧ revocations v (identity_id i) = false ∧
  signed_by_trusted (trusted_public_keys v) identity_document c ∧
  issued_at c - clock_skew v ≤ now ≤ expires_at c + clock_skew v ∧ 0 < expires_at c - issued_at c ≤ maximum_ttl v.
Proof. intros (K1 & K2 & K3 & K4 & K5 & K6 & K7)%verify_Ok. split_and!; try done; [by apply K7|lia..]. Qed.

(** What the control plane signs for a claimed task never goes beyond the package or the
    lease: tools are declared ones, the prohibitions of the package hold, the token budget
    is positive and under its ceiling, and the signature ends with the lease and the
    deadline. *)
Theorem lease_authority_narrow a l now nonce0 c :
  issue_authority a l now nonce0 = Ok c →
  ∃ role p, lease_assigned_agent_role l = Some role ∧ assoc role (packages a) = Some p ∧
  let e := subject c in
  (env_agent_role e = pkg_agent_id p ∧ env_agent_version e = pkg_version p) ∧
  (∀ t, t ∈ env_allowed_tools e → t ∈ declared p) ∧ (∀ f, f ∈ pkg_forbidden_actions p → f ∈ env_forbidden_actions e) ∧
  0 < env_token_budget e ≤ pkg_token_budget p ∧
  (env_task_id e, env_engagement_id e, env_tenant_id e, env_attempt_count e) =
    (lease_task_id l, lease_engagement_id l, lease_tenant_id l, lease_attempt_count l) ∧
  now < expires_at c ≤ lease_lease_expires_at l ∧ (∀ d, lease_deadline_at l = Some d → expires_at c ≤ d).
Proof.
  intros (p & (role & Er & Ep) & Ha & _ & _ & Hb & _ & Eids & _ & _ & _ & Hx & Hd & _)%issue_authority_Ok.
  apply authorize_spec in Ha as (K1 & K2 & K3 & K4). exists role, p. split_and!; done.
Qed.
End credential_properties.

(** ** Witnesses *)

Import GovScenario.


Definition answer : json := JObj [("owner", JStr "[REDACTED:pii]"); ("count", JInt 3)].
Lemma returned_result_screened_witness :
  ∃ i tool raw h, admitted gateway (request "events.query" []) (world scene) i tool ∧
    tool_handler tool [] i envelope [] = (inl raw, h) ∧ ¬ secret_in 7 raw ∧ answer = redacted default_armor 7 raw.
Proof. apply (returned_result_screened gateway (request "events.query" []) scene answer). vm_compute. reflexivity. Defined.

Lemma calls_within_budget_witness :
  Z.of_nat (length (handlers_state (world (snd (serve_all gateway session scene))))) ≤ 0 + Z.max 0 2.
Proof.
  apply (calls_within_budget gateway (λ l, Z.of_nat (length l)) "tsk_1" session scene).
  - reflexivity.
  - intros role name tool arguments i e h Hin. cbn in Hin.
    apply elem_of_cons in Hin as [[= -> -> ->]|[[= -> -> ->]|[]%elem_of_nil]%elem_of_cons]; cbn; rewrite length_app; cbn; lia.
  - repeat constructor.
Defined.

Lemma sessions_are_traced_witness : is_well_formed (chain (tracer (snd (serve_all gateway session scene)))) = true.
Proof.
  apply (sessions_are_traced gateway (request "events.query" [("control", JStr "C1")]) (tail session) scene).
  - apply new_tracer_sound.
  - reflexivity.
Defined.

Definition risky : dict := [("path", JObj [("dir", JList [JStr "../etc"])])].
Definition refusal : ArmorResult :=
  match inspect_tool_call default_armor "read" risky [] [] with Ok r => r | Err _ => mkArmorResult verdict_allow tool_call [] None None 0 end.
Lemma tool_call_screened_exactly_witness :
  blocked refusal = true ∧
  (blocked refusal = false ↔ admissible_arguments default_armor [] [] risky) ∧
  (arm_findings refusal = [] ↔ blocked refusal = false) ∧
  sanitized_arguments refusal = (if blocked refusal then None else Some risky).
Proof.
  split; [vm_compute; reflexivity|].
  apply (tool_call_screened_exactly default_armor "read" risky [] [] refusal). vm_compute. reflexivity.
Defined.

Lemma issued_authority_intersects_witness :
  issued = Ok credential ∧
  (∀ x, x ∈ granted_tools identity ↔ x ∈ declared package ∧ x ∈ env_allowed_tools envelope) ∧
  (∀ x, x ∈ granted_evidence_scopes identity ↔ scopes_granted package envelope x) ∧
  (∀ x, x ∈ id_forbidden_actions identity ↔ x ∈ pkg_forbidden_actions package ∨ x ∈ env_forbidden_actions envelope) ∧
  bound_to identity envelope ∧
  today < expires_at credential ≤ today + iss_maximum_ttl issuer ∧ (∀ d, env_deadline envelope = Some d → expires_at credential ≤ d).
Proof.
  split; [apply issued_credential|].
  apply (issued_authority_intersects issuer package envelope None (Some "alice") ["author"] None today "aid_0123456789abcdef" "aid_1" credential).
  apply issued_credential.
Defined.

Lemma credential_round_trip_witness : verify verifier credential (Some envelope) (today + 5) = Ok identity.
Proof.
  apply (credential_round_trip issuer package envelope None (Some "alice") ["author"] None today "aid_0123456789abcdef" "aid_1"
    credential verifier "sk" (today + 5)); try (vm_compute; reflexivity); try (vm_compute; discriminate).
  - apply sc_law.
  - split; vm_compute; discriminate.
Defined.

Lemma accepted_credentials_bound_witness :
  verify verifier credential (Some envelope) today = Ok identity ∧
  identity = subject credential ∧ bound_to identity envelope ∧ revocations verifier (identity_id identity) = false ∧
  signed_by_trusted (trusted_public_keys verifier) identity_document credential ∧
  issued_at credential - clock_skew verifier ≤ today ≤ expires_at credential + clock_skew verifier ∧
  0 < expires_at credential - issued_at credential ≤ maximum_ttl verifier.
Proof.
  split; [vm_compute; reflexivity|]. apply (accepted_credentials_bound verifier credential envelope today identity).
  vm_compute. reflexivity.
Defined.

Definition task_policy : dict := [("purpose", JStr " test a control "); ("allowed_tools", JList [JStr "events.query"]);
  ("allowed_evidence_scopes", JList [JStr "erp.changes"]); ("token_budget", JInt 500)].
Definition lease : TaskLease := mkTaskLease "ten_1" "eng_1" "tsk_1" "collect" "agent" (Some "process-mining") 1 "worker-1"
  (today + 300 * us_per_second) [] (mkExecutionPolicy task_policy None) (Some "standard") None None None.
Definition authority : ExecutionAuthority := mkExecutionAuthority [("process-mining", package)] ("sk" : private_key) "key-1" (900 * us_per_second).
Definition signed_lease : SignedExecutionEnvelope :=
  match issue_authority authority lease today "env_0123456789abcdef" with
  | Ok c => c
  | Err _ => mkCredential "" "" 0 0 "" envelope ""
  end.
Lemma lease_authority_narrow_witness :
  issue_authority authority lease today "env_0123456789abcdef" = Ok signed_lease ∧
  ∃ role p, lease_assigned_agent_role lease = Some role ∧ assoc role (packages authority) = Some p ∧
  let e := subject signed_lease in
  (env_agent_role e = pkg_agent_id p ∧ env_agent_version e = pkg_version p) ∧
  (∀ t, t ∈ env_allowed_tools e → t ∈ declared p) ∧ (∀ f, f ∈ pkg_forbidden_actions p → f ∈ env_forbidden_actions e) ∧
  0 < env_token_budget e ≤ pkg_token_budget p ∧
  (env_task_id e, env_engagement_id e, env_tenant_id e, env_attempt_count e) =
    (lease_task_id lease, lease_engagement_id lease, lease_tenant_id lease, lease_attempt_count lease) ∧
  today < expires_at signed_lease ≤ lease_lease_expires_at lease ∧ (∀ d, lease_deadline_at lease = Some d → expires_at signed_lease ≤ d).
Proof.
  split; [vm_compute; reflexivity|].
  apply (lease_authority_narrow authority lease today "env_0123456789abcdef" signed_lease). vm_compute. reflexivity.
Defined.
End GovProperties.
