(* ===== verification/GovRunProperties.v ===== *)
(** * Governance: properties of the agent runtime

    What a run of an agent task guarantees, for every model, every set of tools and
    every instance of the environment; what the worker around it guarantees of a task of the
    orchestrator and of its record; and concrete runs and rounds, on which the witnesses
    evaluate. *)

From S2P Require Import Prelude PyFloat PyTime Ledger PyText PyRegex PyCodec Materiality OrchDefs.
From S2P Require Import OrchStore OrchCompiler Orchestrator OrchMachine OrchRefinement OrchWorker OrchScenario.
From S2P Require Import GovPolicy GovIdentity GovTelemetry GovArmor GovGateway GovRuntime GovRuntimeSpec GovWorker GovScenario.
Local Open Scope Z_scope.

Module GovRunScenario.
Import GovScenario.

(** Identifiers of the length a nonce must have. *)
#[export] Instance wide_ids : UuidSource.
Proof.
  refine {| uuid4_hex _ n := "0123456789abcdef" +:+ pretty n |}.
  intros _ n. simpl. repeat (apply not_elem_of_cons; split; [done|]). apply pretty_plain.
Defined.

(** The replies of the model: the texts of these objects, which the reader reads back. *)
Definition ask_reply : dict := [("next_action", JStr "use_tools"); ("tool_calls", JList
  [JObj [("tool", JStr "events.query"); ("arguments", JObj [("control", JStr "C1")])];
   JObj [("tool", JStr "tests.execute"); ("arguments", JObj [])];
   JObj [("tool", JStr "source.write"); ("arguments", JObj [])];
   JObj [("tool", JStr "events.query"); ("arguments", JObj [("control", JStr "C1")])]])].
Definition final_reply : dict := [("conclusion", JStr "effective"); ("evidence_ids", JList [JStr "ev_1"; JStr "ev_run"]);
  ("summary", JStr "Approved by bob@example.com")].
Definition loose_reply : dict := [("conclusion", JStr "Effective"); ("summary", JStr "All changes were approved")].
Definition invented_reply : dict := [("conclusion", JStr "effective"); ("evidence_ids", JList [JStr "ev_invented"])].
Definition mistyped_reply : dict := [("conclusion", JStr "effective"); ("evidence_ids", JList [JStr "Ev_1"])].
Definition corrected_reply : dict := [("conclusion", JStr "effective"); ("evidence_ids", JList [JStr "ev_1"]);
  ("summary", JStr "Every change was approved")].
Definition scripted : list dict := [ask_reply; final_reply; loose_reply; invented_reply; mistyped_reply; corrected_reply].
#[export] Instance sc_reader : JsonReader := {| json_loads := λ s, JObj <$> head (filter (λ d, dumps (JObj d) = s) scripted) |}.
#[export] Instance sc_files : PackageFiles := {|
  system_prompt := λ _, "You test controls."; output_schema_document := λ _, inl [("required", JList [JStr "conclusion"])];
  validation_error := λ _ d, match get "conclusion" d with JStr _ => None | _ => Some "ValidationError: conclusion is not a string" end |}.

Definition test_tool : DeclaredTool := mkDeclaredTool "tests.execute" (JStr "none") (JBool false).
Definition run_package : AgentPackage := mkAgentPackage "process-mining" "1.0.0" [read_tool; test_tool]
  ["execution_envelope_only"] ["source.write"] 60000 (float_of_Z 8) "assurance.agent_result.v1" ["tenant"; "engagement"]
  (Some "Reconstruct observed process flows").
Definition run_envelope : ExecutionEnvelope := mkExecutionEnvelope "tsk_1" "eng_1" "ten_1" "process-mining" "1.0.0" "test a control"
  ["erp.changes"] ["events.query"; "tests.execute"] ["source.write"] "standard" 4000 (float_of_Z 8)
  (Some (today + 600 * us_per_second)) "assurance.agent_result.v1" None "full" (Some "worker-1") 1.
Definition execute (exceptions : Z) : BoundedTool (list string) := mkBoundedTool _ "tests.execute" (λ _ _ _ log,
  (inl (JObj [("evidence_id", JStr "ev_run"); ("exception_count", JInt exceptions)]), log ++ ["execute"])) "".
Definition run_gateway (exceptions : Z) : AgentGateway (list string) :=
  mkAgentGateway verifier default_armor 5
    [("process-mining", "events.query", query); ("process-mining", "tests.execute", execute exceptions)].

(** A model that replies from a script. *)
Definition reply (d : dict) : ModelResponse := mkModelResponse (dumps (JObj d)) 0 10 "scripted" "stop" "".
Definition from_script : Generate (list dict) := λ _ _ _ script,
  match script with
  | d :: script => (inl (reply d), script)
  | [] => (inr ("RuntimeError", "script exhausted"), [])
  end.
Definition runtime (exceptions : Z) (window : option Z) : GovernedAgentRuntime (list string) (list dict) :=
  mkGovernedAgentRuntime _ _ (run_gateway exceptions) from_script "scripted" default_armor 4 8 1 4096 window.
Definition task (items : list EvidenceItem) (q : option QualityContext) : AgentTask :=
  mkAgentTask run_package run_envelope "Test control C1." items None None [] q.
Definition change : EvidenceItem := mkEvidenceItem "ev_1" "jira" "approved by the owner" false.
Definition pinned : option QualityContext := Some (mkQualityContext (Some "ct_1") []).
Definition bench (script : list dict) : Scene (Bench (list string) (list dict)) :=
  mkScene (new_tracer "trace") (mkBench (mkGate ∅ [] [] [] []) script).
Definition outcome (r : AgentRunResult + failure) : string := match r with inl r => run_status r | inr _ => "raised" end.
Definition run_of (exceptions : Z) (window : option Z) (t : AgentTask) (script : list dict)
    : (AgentRunResult + failure) * Scene (Bench (list string) (list dict)) :=
  run issuer (runtime exceptions window) t (bench script).
Definition output_of (r : AgentRunResult + failure) : option dict := match r with inl r => run_output r | inr _ => None end.

(** Two rounds: the tools are asked, one call is refused and a repeated one is not put
    again; then the conclusion, whose summary is redacted. *)
Example two_rounds :
  let '(r, s) := run_of 0 None (task [change] pinned) [ask_reply; final_reply] in
  outcome r = "completed" ∧ handlers_state (gate (world s)) = ["query"; "execute"] ∧
  output_of r = Some (dict_set "summary" (JStr "Approved by [REDACTED:pii]") final_reply) ∧ is_well_formed (chain (tracer s)) = true ∧
  match r with
  | inl r => run_tool_calls r = ["events.query"; "tests.execute"] ∧ length (run_denials r) = 1%nat ∧
      map ob_outcome (run_observations r) = ["allowed"; "allowed"; "denied"; "repeated"]
  | inr _ => False
  end.
Proof. vm_compute. done. Qed.

(** The gates: a test that found exceptions, a test that was not run, a citation that
    does not resolve, and one that is corrected. *)
Example gates_refuse :
  outcome (fst (run_of 3 None (task [change] pinned) [ask_reply; final_reply; final_reply])) = "schema_invalid" ∧
  outcome (fst (run_of 0 None (task [change] pinned) [corrected_reply; corrected_reply])) = "schema_invalid" ∧
  outcome (fst (run_of 0 None (task [change] None) [mistyped_reply; mistyped_reply])) = "schema_invalid" ∧
  outcome (fst (run_of 0 None (task [change] None) [mistyped_reply; corrected_reply])) = "completed".
Proof. vm_compute. done. Qed.

(** The window is checked in every round, and a refusal then forgets what was observed. *)
Example window_exceeded_later :
  match fst (run_of 0 (Some 4480) (task [change] pinned) [ask_reply; final_reply]) with
  | inl r => run_status r = "context_exceeded" ∧ run_tool_calls r = ["events.query"; "tests.execute"] ∧ run_observations r = []
  | inr _ => False
  end.
Proof. vm_compute. done. Qed.

(** A conclusion in another case needs no citation. *)
Example capitalised_conclusion_cites_nothing :
  outcome (fst (run_of 0 None (task [change] (Some (mkQualityContext None []))) [loose_reply])) = "completed".
Proof. vm_compute. done. Qed.

(** A task without evidence accepts any citation. *)
Example nothing_supplied_anything_cited :
  outcome (fst (run_of 0 None (task [] None) [invented_reply])) = "completed".
Proof. vm_compute. done. Qed.

(** The task as a step of an engagement, run by a worker: the workflow is compiled and
    started, and the worker takes the step and runs the agent on it. *)
#[export] Instance sc_parts : ExceptionParts := {| exn_parts := λ _, ("ValueError", "error") |}.
Definition agent_definition : TaskDefinition := mkTaskDefinition "test-c1" "agent" "1.0" [] (Some "process-mining") []
  [("control_test", JStr "ct_1")] None None default_retry_policy 100 None None Before.
Definition audit : Engagement :=
  mkEngagement "eng_1" "ten_1" None "E-1" "Engagement" EngagementStatus.PLANNED "pack" 1 2 1 [] None None today.
Definition planned_audit : OrchDB := set_engagements (<["eng_1" := audit]> (engagements (empty_db today))) (empty_db today).
Definition audit_ops : list (operation * datetime) :=
  [(CompileWorkflow "ten_1" "eng_1" (mkWorkflowDefinition "v1" [agent_definition] []), today); (StartEngagement "ten_1" "eng_1", today)].
Definition started_audit : OrchDB := match history audit_ops planned_audit with Ok db => db | Err _ => planned_audit end.
Lemma started_audit_reachable : reachable started_audit.
Proof.
  destruct (history audit_ops planned_audit) as [db|] eqn:E; [|by vm_compute in E].
  eapply (history_reachable audit_ops planned_audit); [|done|by unfold started_audit; rewrite E].
  apply (reachable_create (empty_db today) audit); [constructor|done..].
Qed.

Definition agent_handler : GovernedAgentTaskHandler (list string) (list dict) :=
  mkGovernedAgentTaskHandler (λ _, inl [("process-mining", run_package)]) (run_gateway 0) issuer from_script "scripted" None true
    (Some (λ _ _, inl [change])) (Some (λ _ _, inl "Test control C1.")) 4096 (900 * us_per_second).
Definition agent_worker : LocalWorker (AgentEnv (list string) (list dict)) :=
  mkLocalWorker "ten_1" "worker-1" [("agent", governed_handler agent_handler)] 60 (λ e, (today, e)).
Definition no_tables : GovTables := mkGovTables ["ten_1"] [] [] [] [] [] [].
Definition agent_site (script : list dict) : Site (AgentEnv (list string) (list dict)) :=
  mkSite started_audit (mkAgentEnv no_tables (mkBench (mkGate ∅ [] [] [] []) script) 0).
Definition round_of (script : list dict) : Res (option WorkerRun) * Site (AgentEnv (list string) (list dict)) :=
  run_once agent_worker None (agent_site script).
Definition round_outcome (script : list dict) : string :=
  match (round_of script).1 with Ok (Some r) => run_outcome r | _ => "raised" end.
Definition record_of (script : list dict) :=
  let t := env_tables (site_env (round_of script).2) in
  (map gwr_decision (gateway_decisions t), length (guardrail_findings t), map trc_status (execution_traces t)).

(** A conclusion the gates accept completes the step; one they refuse fails it; and a model
    that does not answer leaves it to be retried.  What was done is on record each time. *)
Example agent_rounds :
  round_outcome [ask_reply; final_reply] = "completed" ∧
  round_outcome [corrected_reply; corrected_reply] = "failed" ∧ round_outcome [ask_reply] = "retry_scheduled" ∧
  record_of [ask_reply; final_reply] = (["allow"; "allow"; "deny"], 1%nat, ["completed"]).
Proof. vm_compute. done. Qed.

(** The header of a trace tells how its first root ended, not the run: of a run whose model
    did not answer, and of one whose conclusion was refused, it says completed. *)
Lemma failed_run_reads_completed :
  (round_outcome [ask_reply], record_of [ask_reply]) = ("retry_scheduled", (["allow"; "allow"; "deny"], 1%nat, ["completed"])) ∧
  (round_outcome [corrected_reply; corrected_reply], record_of [corrected_reply; corrected_reply]) = ("failed", ([], 0%nat, ["completed"])).
Proof. vm_compute. done. Qed.
End GovRunScenario.

Module GovRunProperties.

Section run_properties.
Context `{Sha256} `{IpLiterals} `{Ed25519} `{Observability} `{UuidSource} `{JsonReader} `{PackageFiles} {W M : Type}.

(** C7: A run reaches the tools only through the gateway: once its credential is issued,
    whatever the model replies and however the run ends, what happens to the gateway is a
    sequence of calls under that credential, the envelope and the package of the task, no
    call put twice, and no more than the rounds and the calls of a round allow; and a
    result names exactly the calls that were answered and the refusals, with the answers
    themselves where it reports observations. A run whose credential is refused raises and
    changes nothing. *)
Theorem run_refines_conversation iss (rt : GovernedAgentRuntime W M) t s :
  let r := fst (run iss rt t s) in let w := gate (world s) in let w' := gate (world (snd (run iss rt t s))) in
  (∃ signed log, issued_for t iss signed ∧ conversation (rt_gateway rt) signed t w log w' ∧ NoDup (map put log) ∧
     (length log ≤ max_tool_rounds rt * max_calls_per_round rt)%nat ∧
     ∀ res, r = inl res → run_tool_calls res = map (λ a, a.1.1) (answered log) ∧ run_denials res = refusals log ∧
       (run_status res ∉ ["context_exceeded"; "model_unavailable"] → learned (run_observations res) = answered log)) ∨
  ((∃ e, r = inr (Raised e)) ∧ w' = w).
Proof.
  cbn zeta. destruct (effect_run _ s _ (effect_run_task rt t iss (world s))) as [(signed & Hi & Hr)|[Hr Eb]]; [left|right; by rewrite Eb].
  exists signed. destruct (fst _) as [res|[d|e]]; [|done|].
  - destruct Hr as (log & ex & [T1 T2 T3 _ _ _] & [R1 R2 R3] & _). exists log. split_and!; try done. by intros ? [= ->].
  - destruct Hr as (log & ex & [T1 T2 T3 _ _ _]). exists log. by split_and!.
Qed.

(** C9: The model is asked at most once a round, one more time than the rounds of tools, and
    is given no more room for its answer than the deployment and the envelope allow.
    Whenever the deployment declares the window it serves, what is sent fits into it
    together with that room, a text counting two tokens for every seven characters, one for
    every word and at least one when it is not empty, whichever is most. *)
Theorem model_reads_only_what_fits iss (rt : GovernedAgentRuntime W M) t s :
  ∃ ex, dialogue (rt_generate rt) (model_state (world s)) ex (model_state (world (snd (run iss rt t s)))) ∧
    (length ex ≤ S (max_tool_rounds rt))%nat ∧
    Forall (λ x, ex_system x = system_prompt (task_package t) ∧ ex_budget x ≤ max_output_tokens rt ∧
      ex_budget x ≤ env_token_budget (task_envelope t) ∧
      ∀ window n m, context_window_tokens rt = Some window → window ≠ 0 →
        takes_up (ex_system x) n → takes_up (ex_prompt x) m → n + m + ex_budget x ≤ window) ex.
Proof.
  assert (Hf : ∀ ex, Forall (fits rt t) ex → Forall (λ x, ex_system x = system_prompt (task_package t) ∧ ex_budget x ≤ max_output_tokens rt ∧
      ex_budget x ≤ env_token_budget (task_envelope t) ∧
      ∀ window n m, context_window_tokens rt = Some window → window ≠ 0 →
        takes_up (ex_system x) n → takes_up (ex_prompt x) m → n + m + ex_budget x ≤ window) ex).
  { intros ex Hx. eapply Forall_impl; [exact Hx|]. intros x (K1 & K2 & K3). split_and!; [done|lia..|].
    intros window n m Ew Hw Hn%takes_up_estimate Hm%takes_up_estimate. specialize (K3 window Ew Hw). lia. }
  destruct (effect_run _ s _ (effect_run_task rt t iss (world s))) as [(signed & Hi & Hr)|[Hr Eb]].
  - destruct (fst _) as [res|[d|e]]; [destruct Hr as (log & ex & [_ _ _ T4 T5 T6] & _)|done|destruct Hr as (log & ex & [_ _ _ T4 T5 T6])];
      exists ex; split_and!; auto.
  - exists []. rewrite Eb. split_and!; [constructor|cbn; lia|constructor].
Qed.

(** C8: A run completes only with an output both gates accept on what the run did.  The
    output has a conclusion, and the validator has nothing against it if the schema is
    readable and every key it requires is there; a conclusion spelled
    "effective" or "ineffective" cites evidence, and if the task was supplied any or a tool
    brought any back, only that.  Where the methodology is known and the conclusion,
    trimmed and in lower case, is one of the two, a step with a pinned procedure has some
    call of tests.execute answered with an object; for "effective", the exceptions the
    answers of tests.execute count add up to zero; "ineffective" asks for a person.  A
    result with another status carries no output, and the summary of a completed one was
    screened and held no secret. *)
Theorem completed_run_admissible iss (rt : GovernedAgentRuntime W M) t s res :
  fst (run iss rt t s) = inl res →
  (run_status res = "completed" ↔ run_output res ≠ None) ∧
  ∀ output, run_output res = Some output →
    summary_screened (rt_armor rt) (run_summary res) ∧
    (∃ conclusion, get "conclusion" output = JStr conclusion ∧ conclusion ≠ "" ∧ schema_checked (task_package t) output ∧
      let citable x := x ∈ map evidence_id (evidence t) ∨ came_back (run_observations res) x in
      (conclusion ∈ ["effective"; "ineffective"] → cited_ids output ≠ [] ∧
        ((∃ x, citable x) → ∀ x, x ∈ cited_ids output → citable x))) ∧
    ∀ q, quality t = Some q →
      (∀ test, required_control_test q = Some test → test ≠ "" → reviewed_conclusion output ∈ ["effective"; "ineffective"] →
        executions (run_observations res) ≠ []) ∧
      (reviewed_conclusion output = "effective" →
        ∃ counts, Forall2 counts_exceptions (executions (run_observations res)) counts ∧ foldr Z.add 0 counts = 0) ∧
      (reviewed_conclusion output = "ineffective" → get "requires_human_approval" output = JBool true).
Proof.
  intros Er. pose proof (effect_run _ s _ (effect_run_task rt t iss (world s))) as Hr. rewrite Er in Hr.
  destruct Hr as [(signed & _ & log & ex & _ & _ & Ha)|[[e [=]] _]]. unfold admissible in Ha.
  destruct (run_output res) as [output|]; [|split; [by split|done]]. destruct Ha as (K1 & K2 & K3 & K4). split; [by split|].
  intros ? [= <-]. split; [done|]. split.
  - apply validated in K2 as (conclusion & E & Hne & Hs & Hc). exists conclusion. split_and!; try done; [by apply schema_problem_checked|]. cbn zeta.
    intros Hin. destruct (Hc Hin) as [Hcited Hsub]. split; [done|]. intros [y Hy] x Hx.
    assert (Hl : ∀ z, z ∈ map evidence_id (evidence t) ++ _observed_evidence_ids (run_observations res) ↔
      z ∈ map evidence_id (evidence t) ∨ came_back (run_observations res) z)
      by (intros z; by rewrite elem_of_app, observed_came_back).
    apply Hl, Hsub; [|done]. apply Hl in Hy. intros En. rewrite En in Hy. by apply elem_of_nil in Hy.
  - intros q Eq. rewrite Eq in K3. apply reviewed in K3 as (R1 & R2 & R3). rewrite <- test_runs_executions.
    split_and!; [done| |done]. intros Hc. by apply sum_exceptions_Ok, R2.
Qed.


(** C11: However a run ends, by a result or by an exception out of its middle, its chain
    of spans is well formed: every span has ended, all belong to one trace, every parent
    is in it. *)
Theorem runs_are_traced iss (rt : GovernedAgentRuntime W M) t s :
  sound (tracer s) → open_spans (tracer s) = [] → is_well_formed (chain (tracer (snd (run iss rt t s)))) = true.
Proof.
  intros Hs Ho. destruct (run_span rt t iss) as (attrs & body & -> & Hb).
  destruct (span_traced failure_text "assuranceos.agent.task" attrs body s Hb Hs) as (K1 & K2 & _ & K4).
  apply sound_well_formed; [done|congruence|]. intros E. rewrite E in K4. cbn in K4. lia.
Qed.
End run_properties.

Section worker_properties.
Context `{Sha256} `{IpLiterals} `{Ed25519} `{Observability} `{UuidSource} `{JsonReader} `{PackageFiles} `{ExceptionParts} {W M : Type}.
Implicit Types (h : GovernedAgentTaskHandler W M) (s : Site (AgentEnv W M)).

(** C13: An agent task reaches the tools only under the authority of its lease: whatever the
    deployment's loaders and the model do, the gateway is left as it was, or what happens to
    it is a sequence of calls under one credential, which names the tenant, engagement, task
    and attempt of the lease, ends by its deadline, keeps every prohibition of the package,
    and grants only tools the package declares and, where the gateway has any for the
    agent, the gateway can answer; and each call that was answered or refused is one
    decision and one audit event of the gateway, in their order. *)
Theorem agent_task_under_its_lease h l s :
  let w := gate (bench_of s) in let w' := gate (bench_of (governed_task h l s).2) in
  w' = w ∨
  ∃ t signed log, task_for h s l t ∧ conversation (h_gateway h) signed t w log w' ∧
    let i := subject signed in let p := task_package t in
    (id_tenant_id i, id_engagement_id i, id_task_id i, attempt i) =
      (lease_tenant_id l, lease_engagement_id l, lease_task_id l, lease_attempt_count l) ∧
    (∀ d, lease_deadline_at l = Some d → expires_at signed ≤ d) ∧
    (∀ f, f ∈ pkg_forbidden_actions p → f ∈ id_forbidden_actions i) ∧
    (∀ tool, tool ∈ granted_tools i → tool ∈ declared p ∧
      (registered_tools (pkg_agent_id p) (h_gateway h) ≠ [] → tool ∈ registered_tools (pkg_agent_id p) (h_gateway h))) ∧
    ∃ ds evs, decisions w' = decisions w ++ ds ∧ gate_events w' = gate_events w ++ evs ∧
      Forall2 (event_of (task_envelope t)) ds evs ∧ length ds = length (List.filter is_recorded log).
Proof.
  cbn zeta. destruct (step_run _ _ _ _ _ (governed_task_step h l s)) as [E|(t & r & sc & Hr & E)]; rewrite E; [by left|].
  destruct (run_grows _ _ _ _ _ _ Hr) as [(signed & log & Hi & Hc & ds & evs & [G1 G2 G3 _] & Hn)|]; [right|by left].
  destruct Hr as [Ht _]. exists t, signed, log. split; [done|]. split; [done|]. destruct (issued_under_lease _ _ _ _ _ Ht Hi) as (K1 & K2 & K3 & K4).
  split_and!; try done. by exists ds, evs.
Qed.


End worker_properties.

(** ** Witnesses *)

Import GovScenario GovRunScenario.

Definition two_round_result : AgentRunResult :=
  match fst (run_of 0 None (task [change] pinned) [ask_reply; final_reply]) with
  | inl r => r
  | inr _ => mkAgentRunResult "" "" "" None "" "" [] [] [] "" 0 0 "" "" false 0 None [] 0
  end.
Lemma completed_run_admissible_witness :
  run_output two_round_result ≠ None ∧ executions (run_observations two_round_result) ≠ [].
Proof.
  destruct (completed_run_admissible issuer (runtime 0 None) (task [change] pinned) (bench [ask_reply; final_reply]) two_round_result)
    as [Hc Ha]; [vm_compute; reflexivity|].
  split; [apply Hc; vm_compute; reflexivity|].
  destruct (Ha (dict_set "summary" (JStr "Approved by [REDACTED:pii]") final_reply)) as (_ & _ & Hq); [vm_compute; reflexivity|].
  destruct (Hq (mkQualityContext (Some "ct_1") []) eq_refl) as (Ht & _).
  apply (Ht "ct_1" eq_refl); [discriminate|vm_compute; constructor].
Defined.


Lemma runs_are_traced_witness :
  is_well_formed (chain (tracer (snd (run_of 3 None (task [change] pinned) [ask_reply; final_reply; final_reply])))) = true.
Proof.
  apply (runs_are_traced issuer (runtime 3 None) (task [change] pinned) (bench [ask_reply; final_reply; final_reply])).
  - apply new_tracer_sound.
  - reflexivity.
Defined.

Definition completed_round : WorkerRun := mkWorkerRun "tsk_0123456789abcdef0" "test-c1" "completed" 1.
Lemma agent_handlers_recorded : Forall (λ k, ∃ h, k.2 = governed_handler h ∧ h_recorder h = true) (handlers agent_worker).
Proof. repeat constructor. by exists agent_handler. Qed.

Definition traced_work : AgentTracer :=
  tracer (span (R:=unit) (E:=failure) failure_text "assuranceos.agent.task" [("assuranceos.task_id", JStr "tsk_1")]
    (λ _, event "identity.issued" []) (mkScene (new_tracer "trace") tt)).2.
Definition audit_db : GovDB := mkGovDB planned_audit no_tables.
End GovRunProperties.
